(* ===== verification/_CoqProject ===== *)
-Q . S2P
Prelude.v
GoLib.v
Errors.v
Storage.v
Localfs.v
Lru.v
Radix.v
FileTracker.v
Model.v
ModelPaths.v
Validate.v
CafsKeys.v
CafsWriter.v
CafsFlush.v
CafsReader.v
CafsRead.v
CafsFs.v
CafsIface.v
CafsWitness.v
CafsPool.v
CafsRace.v
CoreMeta.v
Pool.v
StoreRules.v
Wal.v
CoreIndex.v
CoreKeys.v
DiamondMerge.v
CoreRepo.v
CoreLabel.v
CoreListing.v
CoreList.v
CoreBundle.v
CoreUpload.v
CoreDownload.v
CorePublish.v
CorePublishWitness.v
CoreLabelList.v
CoreDelete.v
CoreDeleteWitness.v
CoreRename.v
CoreDiamond.v
CoreListDiamonds.v
CoreCommit.v
CoreSplit.v
CoreSplitWitness.v
PurgeKv.v
PurgeIndex.v
PurgeDelete.v
PurgeScan.v
PurgeSafe.v
PurgeWitness.v
FuseCommon.v
FuseRO.v
FuseMount.v
FuseRead.v
FuseWitness.v
FuseRW.v
FuseSafe.v
FuseMutable.v
FuseLimits.v
FuseCommit.v
FuseCommitWitness.v
SidecarParam.v
SidecarRoundtrip.v
