(* ===== verification/Prelude.v ===== *)
(** * datamon: a verification development

    datamon stores versioned data sets: the files of a bundle are cut into
    leaves and kept, content-addressed, in a blob store; bundles, labels,
    repositories, diamonds and splits are YAML documents in metadata stores. A
    diamond is a bundle that several clients upload concurrently as splits and
    that a commit merges. This library translates the core of the program from
    its Go sources and proves the properties that make it correct.

    ** Files and the sources they model

    Foundations:
    - Prelude: results of Go calls ([res]: a value, an error or a panic), the
      state-and-result monad [M] in which all stateful code is written (the
      state survives a failure, as the effects of a Go call do), tactics,
      generic lemmas.
    - GoLib: what the sources use of the Go standard library (strings, path,
      strconv, encoding/hex, hash/crc32, fixed-width integers, time).
    - Errors: pkg/errors and the sentinel errors of pkg/storage/status and
      pkg/core/status.
    - Storage: the interface storage.Store of pkg/storage as a class of
      operations, [StoreLaws] for what clients rely on in terms of the map of
      objects, [ReliableStore] for stores that fail only as documented;
      MultiPut, ReadTee.
    - Localfs: pkg/storage/localfs store.go and PipeIO of pkg/storage, over the
      calls of afero.Fs as a class.
    - Lru, Radix: the caches and radix trees the program takes from third
      parties, as classes with laws and a finite-map instance.
    - Pool: the pools of goroutines of pkg/core, as executions given by events;
      [every_run] is the judgement that all complete executions succeed and one
      exists.
    - Wal: pkg/wal, the write ahead log of a context.
    - StoreRules: the judgement [runs] of computations on stores, a rule per
      combinator and per call of a working store.

    Data and content:
    - FileTracker: pkg/filetracker (trackWrite, getRangeToRead).
    - Model, ModelPaths, Validate: pkg/model, its descriptors, options, archive
      and consumable paths with their parsers, validators.
    - CafsKeys: pkg/cafs key.go, hasher.go, check_blob.go; blake2b is a class.
    - CafsWriter, CafsFlush: pkg/cafs writer.go, the flushing goroutines being
      jobs that advance one store call at a time under any schedule.
    - CafsReader, CafsRead: pkg/cafs reader.go (Read, ReadAt, WriteTo).
    - CafsFs: pkg/cafs cafs.go, cafs_options.go (Put, Get, Has, Delete, Keys).
    - CafsIface: the interface cafs.Fs as the class [Cafs] with [CafsLaws],
      which CafsFs discharges.
    - CafsPool, CafsRace: the recycled buffers of pkg/cafs and the accesses of
      concurrent readers to them.

    The core package:
    - CoreMeta: pkg/context, pkg/core meta_object.go: the stores of a context,
      documents in a store; the YAML codec is the class [Yaml].
    - CoreIndex: index.go, index_iterators.go: index files.
    - CoreKeys, CoreListing: keys.go, options.go, utils.go, watch.go: the
      listing pipeline; CoreList, CoreLabelList, CoreListDiamonds: its instances
      of repo_list.go, bundle_list.go, context_list.go, label_list.go,
      diamond_list.go, split_list.go.
    - CoreRepo: repo_create.go, repo_validate.go. CoreLabel: label.go.
    - CoreBundle: bundle.go, bundle_options.go, bundle_diff.go and the metadata
      of bundle_pack.go. CoreUpload: the upload of the files of a bundle.
      CoreDownload: bundle_unpack.go. CorePublish: its theorems.
    - CoreDelete: delete.go, repo_squash.go. CoreRename: repo_rename.go.
    - DiamondMerge: diamond_commit.go, mergeSplits. CoreDiamond: diamond.go,
      diamond_ops.go, split.go, split_ops.go, Cancel. CoreCommit: Commit.
      CoreSplit: the upload of the files of a split.
    - PurgeKv, PurgeIndex, PurgeDelete, PurgeScan, PurgeSafe: purge.go and its
      options, the index of used keys and the deletion of unused blobs.

    Mounts and sidecars:
    - FuseCommon: pkg/fuse fs_common.go, the attributes and names of nodes.
    - FuseRO, FuseMount, FuseRead: fs_ro.go, fs_ro_ops.go, the tree built from
      the entries of a bundle, its lookups, listings and reads.
    - FuseRW, FuseSafe, FuseMutable, FuseLimits: fs_rw.go, fs_rw_ops.go, the
      operations of the mutable file system, their invariant, their refinement
      of a tree of names, their limits. FuseCommit: the commit of a mount.
    - SidecarParam, SidecarRoundtrip: pkg/sidecar/param, the parameters of the
      sidecars as environment variables, and how a container reads them.

    CafsWitness, CorePublishWitness, CoreDeleteWitness, CoreSplitWitness,
    PurgeWitness, FuseWitness and FuseCommitWitness hold the concrete stores,
    contents and mounts on which the hypotheses of the theorems are checked.

    ** How the parts interact

    cafs is a client of a Store and of a cache of leaf keys; its theorems hold
    for every instance of [StoreLaws] and [LruLaws], and the local file system
    is one. The core package is a client of the stores of a context, of the
    codec and, for the upload and download of files, of the interface [Cafs]:
    the theorems on bundles are proved against [CafsLaws] and their witnesses
    use the instance of CafsIface. Index files are written by pack, one per
    [entriesPerFile] entries, and read by concurrent downloads whose results
    reach mergeSplits in any order: [splits_download] says that they are a
    permutation of the entries of all splits, and the theorems on mergeSplits
    hold for every order of its input. Commit composes the listing of splits,
    the downloads, the merge and the upload of the index files of the new
    bundle. The upload of a split and the commit of a mount go through the same
    interface [Cafs] and the same pack as the upload of a bundle; the purge is
    a client of the metadata stores, for the index, and of the blob store.

    Third parties are parameters: hash functions, codecs, the two key-value
    databases of the purge, the layout of times and identifiers, the times that a
    store keeps of its objects ([DatedStore]), the size of a directory entry, the
    local cache behind a mutable mount. What the code
    relies on is a class or a named hypothesis, and each has an instance.

    ** What the theorems show

    - bundles: what Upload archives from a consumable store, Publish restores to
      another, file by file, for every execution of both pools of goroutines;
      each of the two is characterised on its own too.
    - cafs: under every interleaving of its goroutines Put stores the content
      under its root hash, touches no other object, is idempotent and, on a
      reliable and intact store and with buffers not longer than a leaf,
      succeeds; Get, ReadAt and WriteTo, and Read of a content that is not
      empty, called with any sequence of buffers, deliver the content back; Delete and Has are exact without a prefix; root blobs are
      accepted exactly when their hash is right.
    - local file system: on files that can be written the store refines the map
      of objects that [StoreLaws] speaks of.
    - merge and commit: no version of a file is lost when conflicts are kept,
      the latest version has the name, conflicts are refused when forbidden; a
      commit leaves a bundle whose entries are the merge of its splits.
    - index files: packing and downloading in any order is the identity.
    - listings: for every order of completion of the workers a listing is the
      documents of the store in the order of their keys.
    - diamonds and splits: whatever the interleaving of the reads and of the
      writes without overwriting of clients, and whatever fails, they are created
      once, terminated once and never change after; once a diamond is terminated,
      cancellation and the end of a commit fail and change none of its documents;
      creation, cancellation and the creation of splits in every case.
    - deletion and squash: exactly the objects that are meant to disappear do,
      in repositories whose bundles are whole and have an index file.
    - renaming: the repository has its new name, with all its documents, and
      the old one is gone, under the same condition.
    - splits: what Upload of a split leaves is the final descriptor and the index
      files of exactly the files that its keys name, for every execution.
    - purge: an index that is built without a retried upload or an interruption
      holds every key that a bundle uses, its download loses none, and the
      deletion keeps every blob in use and every blob that the store has as
      updated after the index; a retried upload can lose keys, and then a blob
      in use is deleted.
    - write ahead log: entries are listed in the order of their tokens.
    - read-only mounts: the tree is exactly the paths of the bundle; lookup,
      listing and reads agree with it.
    - mutable mounts: every sequence of the requests that [allowed] names, the
      release of inodes and their reuse among them, keeps the invariant of the
      tables of inodes and implements the tree of names; a commit packs exactly
      the files that the tree has. The requests left out make the code panic or
      lose the invariant, which FuseLimits exhibits, or are not made by a kernel.
    - sidecars: a container reads back the parameters that were set, when names
      are identifiers and values have no quote, backslash or equals sign.
    - repositories, labels, paths, validators, tracker of writes, buffers: round
      trips and exact behaviour.
    - errors: theorems that exhibit, on the model, inputs for which the code
      panics, hangs, loses a write or an error, depends on the order of
      arrival, or reports a success that did not happen.

    ** Bounds and schedules

    Loops that are not structural take fuel and return [None] or [diverge] when
    it runs out; every theorem about such a loop shows that a stated amount is
    enough (the length of the buffer for Write, of the remaining content for
    Read and ReadAt, [splits_fuel] for downloads, the highest inode for the walk
    of a commit, one more than the runes of the values for a separator). What the scheduler decides is
    an argument: the events of a pool or of a writer, the order of completion of
    the workers of a listing. In the pools of uploads and downloads the work of
    a goroutine and the reception of its result are one step. Integers are kept
    at their width where the code depends on it (offsets of the tracker,
    checksums, leaf sizes, parsed indexes); lengths of slices are natural
    numbers, and counters of objects, far from 2^64, are unbounded.

    ** What is not modelled

    Logging, metrics and profiling, which have no effect on the data. The
    command line, which parses flags and calls the operations above. The clients
    of Google Cloud Storage and S3 and the instrumented store, which hand each
    call of the interface Store to a library. The prefetching goroutines of the
    reader, an optimisation of the reads that CafsReader models; pkg/fingerprint;
    authentication, configuration files and the web pages. Narrower than the
    code are: Put of cafs, whose source is a reader without WriteTo; the calls of
    other clients in CoreDiamond, which are reads and writes without overwriting,
    without those on labels in the same store; the listings that apply a function
    to each document, which run it after the retrieval; afero, whose files are
    addressed by their names as given; the script of the sidecar, without the
    quoting and the escapes of the shell. *)

From stdpp Require Export base tactics list gmap strings option numbers sorting.
From Stdlib Require Export Strings.Byte Strings.Ascii ZArith Lia.

(** ** Bytes

    Raw data is a list of [Byte.byte]; names, paths and keys of a store are
    Go strings, which are byte strings too, and are modelled by [string]. *)

Abbreviation bytes := (list Byte.byte).

#[export] Instance byte_eq_dec : EqDecision Byte.byte := Byte.byte_eq_dec.

#[export] Instance byte_countable : Countable Byte.byte.
Proof. apply (inj_countable Byte.to_N Byte.of_N). intros x. apply Byte.of_to_N. Defined.

#[export] Instance byte_inhabited : Inhabited Byte.byte := populate Byte.x00.

(** ** Results

    A Go call either returns a value, returns an error, or panics. *)

Inductive error : Type :=
| ErrMsg (msg : string)
| ErrWrap (msg : string) (inner : error).

#[export] Instance error_eq_dec : EqDecision error.
Proof. solve_decision. Defined.

Inductive res (A : Type) : Type :=
| Ok (a : A)
| Err (e : error)
| Panic (msg : string).

Arguments Ok {A} a.
Arguments Err {A} e.
Arguments Panic {A} msg.

#[export] Instance res_ret : MRet res := fun A a => Ok a.

#[export] Instance res_bind : MBind res := fun A B f m =>
  match m with
  | Ok a => f a
  | Err e => Err e
  | Panic p => Panic p
  end.

#[export] Instance res_map : FMap res := fun A B f m =>
  match m with
  | Ok a => Ok (f a)
  | Err e => Err e
  | Panic p => Panic p
  end.

(** [is_Ok] is the boolean counterpart of "err == nil" on a call that does
    not panic. *)

Definition is_Ok {A} (r : res A) : bool :=
  match r with Ok _ => true | _ => false end.

(** ** State and errors

    Code that threads a store through fallible calls is written in the
    state-and-result monad [M S]: the state is kept also when the call fails,
    since a store keeps the effects of the calls made before the failure. *)

Definition M (S A : Type) : Type := S -> res A * S.

#[export] Instance M_ret {S} : MRet (M S) := fun A a s => (Ok a, s).

#[export] Instance M_bind {S} : MBind (M S) := fun A B f m s =>
  match m s with
  | (Ok a, s') => f a s'
  | (Err e, s') => (Err e, s')
  | (Panic p, s') => (Panic p, s')
  end.

Definition fail {S A} (e : error) : M S A := fun s => (Err e, s).

Definition panic {S A} (p : string) : M S A := fun s => (Panic p, s).

Definition lift {S A} (r : res A) : M S A := fun s => (r, s).

(** [attempt m] hands the error of [m] to the caller as a value, the way a
    Go caller receives [err]; a panic still propagates. *)

Definition attempt {S A} (m : M S A) : M S (A + error) := fun s =>
  match m s with
  | (Ok a, s') => (Ok (inl a), s')
  | (Err e, s') => (Ok (inr e), s')
  | (Panic p, s') => (Panic p, s')
  end.

(** [for_each l f] is "for _, x := range l { if err := f(x); err != nil { return err } }". *)

Fixpoint for_each {S A} (l : list A) (f : A -> M S unit) : M S unit :=
  match l with
  | [] => mret tt
  | x :: l' => _ ← f x; for_each l' f
  end.

(** ** Tactics *)

(** Case analysis on the innermost scrutinee of a [match] or [if]. *)

Ltac inner_scrutinee t :=
  lazymatch t with
  | match ?x with _ => _ end => inner_scrutinee x
  | if ?x then _ else _ => inner_scrutinee x
  | _ => t
  end.

Ltac case_scrutinee :=
  match goal with
  | |- context [match ?x with _ => _ end] =>
      let y := inner_scrutinee x in destruct y eqn:?
  end.

Ltac case_scrutinee_in H :=
  match type of H with
  | context [match ?x with _ => _ end] =>
      let y := inner_scrutinee x in destruct y eqn:?
  end.

(** Opens a pair-valued monadic call in a hypothesis. *)

Ltac step_in H :=
  repeat (first [ progress simplify_eq/= | case_scrutinee_in H ]).

Create HintDb datamon.

Create Rewrite HintDb datamon_rw.

(** ** Generic lemmas *)

Lemma M_bind_ok {S A B} (m : M S A) (f : A -> M S B) s b s2 :
  (m ≫= f) s = (Ok b, s2) ->
  exists a s1, m s = (Ok a, s1) /\ f a s1 = (Ok b, s2).
Proof.
  unfold mbind, M_bind. destruct (m s) as [[a|e|p] s1]; intros H; simplify_eq.
  eauto.
Qed.

Lemma M_bind_step {S A B} (m : M S A) (f : A -> M S B) s a s1 :
  m s = (Ok a, s1) -> (m ≫= f) s = f a s1.
Proof. unfold mbind, M_bind. intros ->. reflexivity. Qed.

Lemma concat_snoc {A} (ls : list (list A)) l :
  concat (ls ++ [l]) = concat ls ++ l.
Proof. rewrite concat_app. simpl. by rewrite app_nil_r. Qed.

Lemma take_app_exact {A} (l k : list A) n : length l = n -> take n (l ++ k) = l.
Proof. intros <-. by rewrite take_app_length. Qed.

Lemma drop_app_exact {A} (l k : list A) n : length l = n -> drop n (l ++ k) = k.
Proof. intros <-. by rewrite drop_app_length. Qed.

Lemma length_concat_const {A} (n : nat) (ls : list (list A)) :
  Forall (fun l => length l = n) ls -> length (concat ls) = n * length ls.
Proof.
  induction 1 as [|l ls Hl _ IH]; simpl; [lia|]. rewrite length_app. lia.
Qed.

Lemma filter_all {A} (P : A -> Prop) `{!forall x, Decision (P x)} l : Forall P l -> filter P l = l.
Proof. induction 1 as [|x l Hx _ IH]; [done|]. rewrite filter_cons_True by done. by rewrite IH. Qed.

(** An invariant carried through [for_each]. *)

Lemma for_each_inv {S A} (I : S -> Prop) (l : list A) (f : A -> M S unit) s r s' :
  (forall x s r s', x ∈ l -> I s -> f x s = (r, s') -> I s') ->
  I s -> for_each l f s = (r, s') -> I s'.
Proof.
  revert s. induction l as [|x l IH]; simpl; intros s Hf Hs H.
  { unfold mret, M_ret in H. by simplify_eq. }
  unfold mbind, M_bind in H. destruct (f x s) as [[[]|e|p] s1] eqn:E; simplify_eq.
  - eapply IH; [|eapply Hf; [|exact Hs|exact E]; set_solver|exact H].
    intros y t r' t' Hy. apply Hf. set_solver.
  - eapply Hf; [|exact Hs|exact E]. set_solver.
  - eapply Hf; [|exact Hs|exact E]. set_solver.
Qed.
