(* ===== verification/GoLib.v ===== *)
(** * The parts of the Go standard library the modelled code calls

    - [strings]: HasPrefix, TrimPrefix, Split, SplitN, Join, Index on "/";
    - [strconv] and [fmt]: decimal printing and [Atoi];
    - [encoding/hex];
    - [path]: Clean, Join, Base;
    - [hash/crc32] with the Castagnoli polynomial;
    - [time]: instants as nanoseconds since Go's zero time. *)

From S2P Require Import Prelude.
From Stdlib Require DecimalString DecimalN DecimalPos.

(** ** strings *)

Module Strings.

Definition HasPrefix (s p : string) : bool := String.prefix p s.

(** [strip p s] is the rest of [s] after the prefix [p], if [s] has it. *)

Fixpoint strip (p s : string) : option string :=
  match p, s with
  | EmptyString, _ => Some s
  | String a p', String b s' => if decide (a = b) then strip p' s' else None
  | String _ _, EmptyString => None
  end.

Definition TrimPrefix (s p : string) : string :=
  match strip p s with Some r => r | None => s end.

(** [strip_suffix p s] is the beginning of [s] before the suffix [p]. *)

Fixpoint strip_suffix (p s : string) : option string :=
  if decide (s = p) then Some EmptyString
  else match s with
       | EmptyString => None
       | String c s' => String c <$> strip_suffix p s'
       end.

Definition slash : Ascii.ascii := "/"%char.

(** SplitN(s, "/", n) for n >= 1: at most [n] pieces, the last one holds the
    unsplit remainder. *)

Fixpoint SplitN (s : string) (n : nat) : list string :=
  match s with
  | EmptyString => [EmptyString]
  | String c s' =>
      if decide (c = slash /\ 1 < n)
      then EmptyString :: SplitN s' (n - 1)
      else match SplitN s' n with
           | [] => [String c EmptyString]
           | h :: t => String c h :: t
           end
  end.

(** Split(s, sep) for a separator of one byte. *)

Fixpoint split_on (sep : ascii) (s : string) : list string :=
  match s with
  | EmptyString => [EmptyString]
  | String c s' =>
      if decide (c = sep) then EmptyString :: split_on sep s'
      else match split_on sep s' with
           | [] => [String c EmptyString]
           | p :: ps => String c p :: ps
           end
  end.

(** Split(s, "/"). *)

Fixpoint Split (s : string) : list string :=
  match s with
  | EmptyString => [EmptyString]
  | String c s' =>
      if decide (c = slash) then EmptyString :: Split s'
      else match Split s' with
           | [] => [String c EmptyString]
           | h :: t => String c h :: t
           end
  end.

(** Join(l, "/"). *)

Fixpoint Join (l : list string) : string :=
  match l with
  | [] => EmptyString
  | [x] => x
  | x :: l' => x +:+ "/" +:+ Join l'
  end.

Fixpoint contains_char (c : Ascii.ascii) (s : string) : bool :=
  match s with
  | EmptyString => false
  | String d s' => bool_decide (c = d) || contains_char c s'
  end.

(** A path component: no slash inside. *)

Definition no_slash (s : string) : Prop := contains_char slash s = false.

#[export] Instance no_slash_dec s : Decision (no_slash s).
Proof. unfold no_slash. apply _. Defined.

Lemma append_cons c (a b : string) : String c a +:+ b = String c (a +:+ b).
Proof. reflexivity. Qed.

Lemma append_nil (b : string) : "" +:+ b = b.
Proof. reflexivity. Qed.

Lemma string_app_assoc (a b c : string) : (a +:+ b) +:+ c = a +:+ (b +:+ c).
Proof. induction a as [|x a IH]; [done|]. by rewrite !append_cons, IH. Qed.

Lemma string_app_nil_r (a : string) : a +:+ "" = a.
Proof. induction a as [|x a IH]; [done|]. by rewrite append_cons, IH. Qed.

Lemma string_app_length (a b : string) :
  String.length (a +:+ b) = String.length a + String.length b.
Proof. induction a as [|x a IH]; [done|]. rewrite append_cons. simpl. by rewrite IH. Qed.

Lemma string_app_inv_head (a b c : string) : a +:+ b = a +:+ c -> b = c.
Proof. induction a as [|x a IH]; [done|]. rewrite !append_cons. intros H. simplify_eq. auto. Qed.

Lemma strip_app p s : strip p (p +:+ s) = Some s.
Proof. induction p as [|a p IH]; [done|]. rewrite append_cons. simpl. by rewrite decide_True. Qed.

Lemma strip_Some p s r : strip p s = Some r -> s = p +:+ r.
Proof.
  revert s. induction p as [|a p IH]; intros [|b s]; simpl; intros H; simplify_eq; try done.
  case_decide; simplify_eq. rewrite append_cons. f_equal. auto.
Qed.

Lemma HasPrefix_app p s : HasPrefix (p +:+ s) p = true.
Proof. unfold HasPrefix. induction p as [|a p IH]; [by destruct s|]. rewrite append_cons. simpl. by destruct (ascii_dec a a). Qed.

Lemma HasPrefix_spec s p : HasPrefix s p = true <-> exists r, s = p +:+ r.
Proof.
  split; [|intros [r ->]; apply HasPrefix_app].
  unfold HasPrefix. revert s. induction p as [|a p IH]; intros [|b s]; simpl; intros H; eauto; try done.
  destruct (ascii_dec a b) as [->|]; [|done]. destruct (IH _ H) as [r ->]. exists r. by rewrite append_cons.
Qed.

Lemma TrimPrefix_app p s : TrimPrefix (p +:+ s) p = s.
Proof. unfold TrimPrefix. by rewrite strip_app. Qed.

Lemma strip_suffix_app s p : strip_suffix p (s +:+ p) = Some s.
Proof.
  induction s as [|c s IH].
  - rewrite append_nil. destruct p; simpl; [done|]. by rewrite decide_True.
  - rewrite append_cons. simpl. rewrite decide_False.
    + by rewrite IH.
    + intros H%(f_equal String.length). simpl in H. rewrite string_app_length in H. lia.
Qed.

Lemma strip_suffix_Some p s r : strip_suffix p s = Some r -> s = r +:+ p.
Proof.
  revert r. induction s as [|c s IH]; intros r; simpl.
  - case_decide; intros; simplify_eq. done.
  - case_decide; intros; simplify_eq; [done|].
    destruct (strip_suffix p s) as [r'|] eqn:E; simplify_eq/=. rewrite append_cons. f_equal. auto.
Qed.

Lemma contains_char_app c a b :
  contains_char c (a +:+ b) = contains_char c a || contains_char c b.
Proof. induction a as [|d a IH]; [done|]. rewrite append_cons. simpl. by rewrite IH, orb_assoc. Qed.

Lemma SplitN_nonempty s n : SplitN s n <> [].
Proof.
  revert n. induction s as [|c s IH]; intros n; simpl; [done|].
  case_decide; [done|]. specialize (IH n). by destruct (SplitN s n).
Qed.

Lemma SplitN_one s n : n <= 1 -> SplitN s n = [s].
Proof.
  intros Hn. induction s as [|c s IH]; simpl; [done|].
  rewrite decide_False by lia. by rewrite IH.
Qed.

Lemma SplitN_no_slash s n : no_slash s -> SplitN s n = [s].
Proof.
  unfold no_slash. induction s as [|c s IH]; simpl; [done|].
  intros [Hc Hs]%orb_false_iff. rewrite bool_decide_eq_false in Hc.
  rewrite decide_False by naive_solver. by rewrite IH.
Qed.

(** The step every path lemma uses: one component is split off. *)

Lemma SplitN_cons s t n :
  no_slash s -> 1 < n -> SplitN (s +:+ "/" +:+ t) n = s :: SplitN t (n - 1).
Proof.
  unfold no_slash. intros Hs Hn. revert Hs. induction s as [|c s IH]; intros Hs.
  - rewrite append_nil. change ("/" +:+ t) with (String slash t). simpl.
    by rewrite decide_True by done.
  - rewrite append_cons. cbn [SplitN]. simpl in Hs. apply orb_false_iff in Hs as [Hc Hs'].
    rewrite bool_decide_eq_false in Hc.
    rewrite decide_False by naive_solver. by rewrite (IH Hs').
Qed.

End Strings.

(** ** strconv and fmt *)

Module Strconv.

Definition digit (c : Ascii.ascii) : bool :=
  (48 <=? N_of_ascii c)%N && (N_of_ascii c <=? 57)%N.

Fixpoint all_digits (s : string) : bool :=
  match s with
  | EmptyString => true
  | String c s' => digit c && all_digits s'
  end.

(** fmt's "%d" and [Sprint] on an unsigned integer. *)

Definition FormatUint (n : N) : string := DecimalString.NilZero.string_of_uint (N.to_uint n).

Definition ParseDigits (s : string) : option N := N.of_uint <$> DecimalString.NilZero.uint_of_string s.

Definition max_int64 : Z := 2 ^ 63 - 1.

Definition min_int64 : Z := - 2 ^ 63.

(** strconv.Atoi on a 64-bit platform. *)

Definition Atoi (s : string) : res Z :=
  let '(neg, d) :=
    match s with
    | String c r =>
        if decide (c = "+"%char) then (false, r)
        else if decide (c = "-"%char) then (true, r)
        else (false, s)
    | EmptyString => (false, s)
    end in
  match ParseDigits d with
  | None => Err (ErrMsg "strconv.Atoi: invalid syntax")
  | Some n =>
      let z := if neg : bool then (- Z.of_N n)%Z else Z.of_N n in
      if decide (min_int64 <= z <= max_int64)%Z then Ok z
      else Err (ErrMsg "strconv.Atoi: value out of range")
  end.

Lemma string_of_uint_digits d : all_digits (DecimalString.NilEmpty.string_of_uint d) = true.
Proof. induction d; simpl; auto. Qed.

Lemma FormatUint_digits n : all_digits (FormatUint n) = true.
Proof.
  unfold FormatUint, DecimalString.NilZero.string_of_uint.
  destruct (N.to_uint n) eqn:E; [reflexivity|..]; rewrite <- E; apply string_of_uint_digits.
Qed.

Lemma N_to_uint_nonnil n : N.to_uint n <> Decimal.Nil.
Proof. destruct n as [|p]; simpl; [done|]. apply DecimalPos.Unsigned.to_uint_nonnil. Qed.

Lemma FormatUint_nonempty n : FormatUint n <> EmptyString.
Proof.
  unfold FormatUint, DecimalString.NilZero.string_of_uint.
  destruct (N.to_uint n) eqn:E; simpl; done.
Qed.

Lemma ParseDigits_FormatUint n : ParseDigits (FormatUint n) = Some n.
Proof.
  unfold ParseDigits, FormatUint. rewrite DecimalString.NilZero.usu.
  - simpl. by rewrite DecimalN.Unsigned.of_to.
  - apply N_to_uint_nonnil.
Qed.

#[export] Instance FormatUint_inj : Inj (=) (=) FormatUint.
Proof.
  intros a b H. apply (f_equal ParseDigits) in H.
  rewrite !ParseDigits_FormatUint in H. by simplify_eq.
Qed.

(** A string of digits contains no character outside 0..9. *)

Lemma all_digits_no_char c s :
  digit c = false -> all_digits s = true -> Strings.contains_char c s = false.
Proof.
  intros Hc. induction s as [|d s IH]; simpl; [done|].
  intros [Hd Hs]%andb_true_iff. rewrite IH by done. rewrite orb_false_r.
  apply bool_decide_eq_false. congruence.
Qed.

Lemma Atoi_FormatUint n :
  (Z.of_N n <= max_int64)%Z -> Atoi (FormatUint n) = Ok (Z.of_N n).
Proof.
  intros Hn. unfold Atoi.
  destruct (FormatUint n) as [|c r] eqn:E; [by apply FormatUint_nonempty in E|].
  pose proof (FormatUint_digits n) as Hd. rewrite E in Hd. simpl in Hd.
  apply andb_true_iff in Hd as [Hd _].
  rewrite !decide_False; [|by intros ->..].
  rewrite <- E, ParseDigits_FormatUint.
  rewrite decide_True; [done|]. unfold min_int64. lia.
Qed.

End Strconv.

(** ** encoding/hex *)

Module Hex.

Definition hexdigit (n : N) : Ascii.ascii :=
  if (n <? 10)%N then ascii_of_N (48 + n) else ascii_of_N (87 + n).

Definition fromHexChar (c : Ascii.ascii) : option N :=
  let n := N_of_ascii c in
  if (48 <=? n)%N && (n <=? 57)%N then Some (n - 48)%N
  else if (97 <=? n)%N && (n <=? 102)%N then Some (n - 87)%N
  else if (65 <=? n)%N && (n <=? 70)%N then Some (n - 55)%N
  else None.

Fixpoint EncodeToString (b : bytes) : string :=
  match b with
  | [] => EmptyString
  | x :: b' =>
      String (hexdigit (Byte.to_N x / 16)) (String (hexdigit (Byte.to_N x mod 16)) (EncodeToString b'))
  end.

Fixpoint DecodeString (s : string) : res bytes :=
  match s with
  | EmptyString => Ok []
  | String c EmptyString =>
      match fromHexChar c with
      | None => Err (ErrMsg "encoding/hex: invalid byte")
      | Some _ => Err (ErrMsg "encoding/hex: odd length hex string")
      end
  | String a (String b s') =>
      match fromHexChar a, fromHexChar b with
      | Some x, Some y =>
          match Byte.of_N (16 * x + y) with
          | Some z => t ← DecodeString s'; mret (z :: t)
          | None => Err (ErrMsg "encoding/hex: invalid byte")
          end
      | _, _ => Err (ErrMsg "encoding/hex: invalid byte")
      end
  end.

Lemma hex_digits_byte (x : Byte.byte) :
  fromHexChar (hexdigit (Byte.to_N x / 16)) = Some (Byte.to_N x / 16)%N /\
  fromHexChar (hexdigit (Byte.to_N x mod 16)) = Some (Byte.to_N x mod 16)%N /\
  Byte.of_N (16 * (Byte.to_N x / 16) + Byte.to_N x mod 16) = Some x.
Proof. destruct x; vm_compute; auto. Qed.

Lemma DecodeString_EncodeToString b : DecodeString (EncodeToString b) = Ok b.
Proof.
  induction b as [|x b IH]; [done|]. cbn [EncodeToString DecodeString].
  destruct (hex_digits_byte x) as (-> & -> & ->). by rewrite IH.
Qed.

#[export] Instance EncodeToString_inj : Inj (=) (=) EncodeToString.
Proof.
  intros a b H. apply (f_equal DecodeString) in H.
  rewrite !DecodeString_EncodeToString in H. by simplify_eq.
Qed.

Lemma length_EncodeToString b : String.length (EncodeToString b) = 2 * length b.
Proof. induction b as [|x b IH]; simpl; [done|]. rewrite IH. lia. Qed.

End Hex.

(** ** hash/crc32, Castagnoli table *)

Module Crc32.
Local Open Scope Z_scope.

Definition poly : Z := 2197175160. (* 0x82F63B78 *)

Fixpoint shift_bits (n : nat) (c : Z) : Z :=
  match n with
  | O => c
  | S m => shift_bits m (if Z.testbit c 0 then Z.lxor (Z.shiftr c 1) poly else Z.shiftr c 1)
  end.

Definition update (c : Z) (b : Byte.byte) : Z :=
  shift_bits 8 (Z.lxor c (Z.of_N (Byte.to_N b))).

(** crc32.Checksum(data, crc32.MakeTable(crc32.Castagnoli)). *)

Definition Checksum (data : bytes) : Z :=
  Z.lxor (fold_left update data 4294967295) 4294967295.

(** The check value of CRC-32C: the checksum of the ASCII digits 1 to 9. *)

Example checksum_check_value :
  Checksum [Byte.x31; Byte.x32; Byte.x33; Byte.x34; Byte.x35; Byte.x36; Byte.x37; Byte.x38; Byte.x39]
  = 3808858755.
Proof. reflexivity. Qed.

End Crc32.

(** ** Fixed-width integers *)

Module Int.
Local Open Scope Z_scope.

(** Conversion to int64: two's complement wrap-around. *)

Definition int64 (z : Z) : Z := (z + 2 ^ 63) mod 2 ^ 64 - 2 ^ 63.

(** Conversion to uint64 and uint32. *)

Definition uint64 (z : Z) : Z := z mod 2 ^ 64.

Definition uint32 (z : Z) : Z := z mod 2 ^ 32.

Lemma int64_small z : - 2 ^ 63 <= z < 2 ^ 63 -> int64 z = z.
Proof. intros Hz. unfold int64. rewrite Z.mod_small by lia. lia. Qed.

Lemma uint64_small z : 0 <= z < 2 ^ 64 -> uint64 z = z.
Proof. intros Hz. unfold uint64. by rewrite Z.mod_small by lia. Qed.

Lemma uint32_small z : 0 <= z < 2 ^ 32 -> uint32 z = z.
Proof. intros Hz. unfold uint32. by rewrite Z.mod_small by lia. Qed.

End Int.

(** ** time *)

Module Time.

(** An instant: nanoseconds since January 1, year 1, 00:00:00 UTC, which is
    the zero value of [time.Time]. *)

Definition Time : Type := Z.

Definition zero : Time := 0%Z.

Definition IsZero (t : Time) : bool := (t =? zero)%Z.

Definition Before (t u : Time) : bool := (t <? u)%Z.

Definition After (t u : Time) : bool := (u <? t)%Z.

End Time.

(** ** path *)

Module Path.
Import Strings.

(** One component of the path being cleaned; [acc] holds the components
    kept so far, last one first. *)

Definition clean_push (rooted : bool) (acc : list string) (c : string) : list string :=
  if decide (c = "" \/ c = ".") then acc
  else if decide (c = "..") then
    match acc with
    | [] => if rooted then [] else [".."]
    | t :: acc' => if decide (t = "..") then c :: acc else acc'
    end
  else c :: acc.

Definition Clean (p : string) : string :=
  if decide (p = "") then "."
  else
    let rooted := HasPrefix p "/" in
    let cs := rev (fold_left (clean_push rooted) (Split p) []) in
    if rooted then "/" +:+ Strings.Join cs
    else match cs with
         | [] => "."
         | _ => Strings.Join cs
         end.

(** The buffer path.Join builds before cleaning it. *)

Definition join_push (buf e : string) : string :=
  if decide (buf = "") then e else buf +:+ "/" +:+ e.

Definition Join (elems : list string) : string :=
  if decide (Forall (fun e => e = "") elems) then ""
  else Clean (fold_left join_push elems "").

Definition Base (p : string) : string :=
  if decide (p = "") then "."
  else match filter (fun c => c <> "") (rev (Split p)) with
       | [] => "/"
       | c :: _ => c
       end.

(** A component that cleaning keeps as it is. *)

Definition plain (c : string) : Prop :=
  c <> "" /\ c <> "." /\ c <> ".." /\ no_slash c.

#[export] Instance plain_dec c : Decision (plain c).
Proof. unfold plain. apply _. Defined.

Lemma Split_no_slash s : no_slash s -> Split s = [s].
Proof.
  unfold no_slash. induction s as [|c s IH]; simpl; [done|].
  intros [Hc Hs]%orb_false_iff. rewrite bool_decide_eq_false in Hc.
  rewrite decide_False by congruence. by rewrite IH.
Qed.

Lemma Split_cons s t : no_slash s -> Split (s +:+ "/" +:+ t) = s :: Split t.
Proof.
  unfold no_slash. induction s as [|c s IH]; intros Hs.
  - by rewrite append_nil.
  - rewrite append_cons. simpl in *. apply orb_false_iff in Hs as [Hc Hs].
    rewrite bool_decide_eq_false in Hc. rewrite decide_False by congruence. by rewrite IH.
Qed.

Lemma Join_cons2 x y l : Strings.Join (x :: y :: l) = x +:+ "/" +:+ Strings.Join (y :: l).
Proof. reflexivity. Qed.

Lemma Split_Join cs : cs <> [] -> Forall no_slash cs -> Split (Strings.Join cs) = cs.
Proof.
  intros Hne H. induction H as [|x l Hx H IH]; [done|].
  destruct l as [|y l]; [by apply Split_no_slash|].
  rewrite Join_cons2, Split_cons by done. by rewrite IH.
Qed.

Lemma clean_push_plain r acc c : plain c -> clean_push r acc c = c :: acc.
Proof. intros (?&?&?&?). unfold clean_push. by rewrite !decide_False by naive_solver. Qed.

Lemma fold_clean_plain r cs acc :
  Forall plain cs -> fold_left (clean_push r) cs acc = rev cs ++ acc.
Proof.
  intros H. revert acc. induction H as [|c cs Hc _ IH]; intros acc; [done|].
  simpl. rewrite clean_push_plain by done. rewrite IH, <- app_assoc. done.
Qed.

Lemma Join_nonempty cs : cs <> [] -> Forall plain cs -> Strings.Join cs <> "".
Proof.
  intros Hne H. destruct H as [|x l (Hx&_) H]; [done|].
  destruct l as [|y l]; [done|]. rewrite Join_cons2. destruct x; [done|].
  by rewrite append_cons.
Qed.

Lemma HasPrefix_no_slash x t : x <> "" -> no_slash x -> HasPrefix (x +:+ t) "/" = false.
Proof.
  intros Hx. unfold no_slash, HasPrefix. destruct x as [|c x]; [done|].
  rewrite append_cons. simpl. intros [Hc _]%orb_false_iff.
  rewrite bool_decide_eq_false in Hc. case_match; [|done].
  exfalso. by apply Hc.
Qed.

Lemma HasPrefix_Join_plain cs :
  cs <> [] -> Forall plain cs -> HasPrefix (Strings.Join cs) "/" = false.
Proof.
  intros Hne H. destruct H as [|x l (Hx&_&_&Hs) H]; [done|].
  destruct l as [|y l].
  - simpl. rewrite <- (string_app_nil_r x). by apply HasPrefix_no_slash.
  - rewrite Join_cons2. by apply HasPrefix_no_slash.
Qed.

(** Cleaning leaves a relative path made of plain components unchanged. *)

Lemma Clean_plain cs : cs <> [] -> Forall plain cs -> Clean (Strings.Join cs) = Strings.Join cs.
Proof.
  intros Hne H. unfold Clean.
  rewrite decide_False by by apply Join_nonempty.
  assert (Forall no_slash cs) by (eapply Forall_impl; [done|]; by intros ? (?&?&?&?)).
  rewrite HasPrefix_Join_plain, Split_Join by done.
  rewrite fold_clean_plain by done. rewrite app_nil_r, rev_involutive.
  by destruct cs.
Qed.

Lemma fold_join_push_nonempty elems buf :
  buf <> "" -> fold_left join_push elems buf = Strings.Join (buf :: elems).
Proof.
  revert buf. induction elems as [|e elems IH]; intros buf Hb; [done|].
  cbn [fold_left]. unfold join_push at 2. rewrite decide_False by done.
  rewrite IH.
  - destruct elems as [|e' elems]; [done|]. rewrite !Join_cons2.
    by rewrite !string_app_assoc.
  - destruct buf; [done|]. by rewrite append_cons.
Qed.

Lemma Join_app_path a cs :
  cs <> [] -> Strings.Join (a ++ [Strings.Join cs]) = Strings.Join (a ++ cs).
Proof.
  intros Hne. induction a as [|x a IH]; [done|].
  simpl app. destruct a as [|y a].
  - simpl app. destruct cs as [|c cs]; [done|]. by rewrite !Join_cons2.
  - simpl app in *. rewrite !Join_cons2. by rewrite IH.
Qed.

(** path.Join of plain components and a relative path of plain components
    concatenates them. *)

Lemma Join_plain a cs :
  a <> [] -> cs <> [] -> Forall plain a -> Forall plain cs ->
  Join (a ++ [Strings.Join cs]) = Strings.Join (a ++ cs).
Proof.
  intros Ha Hcs HFa HFcs. unfold Join.
  destruct a as [|x a]; [done|]. apply Forall_cons in HFa as [Hx HFa].
  pose proof Hx as (Hx0 & _). rewrite decide_False.
  2: { simpl. rewrite Forall_cons. naive_solver. }
  simpl fold_left. unfold join_push at 2. rewrite decide_True by done.
  rewrite fold_join_push_nonempty by done.
  change (x :: a ++ [Strings.Join cs]) with ((x :: a) ++ [Strings.Join cs]).
  rewrite Join_app_path by done. apply Clean_plain; [by simpl|].
  rewrite Forall_app, Forall_cons. done.
Qed.

Lemma Base_last cs c :
  Forall no_slash cs -> plain c -> Base (Strings.Join (cs ++ [c])) = c.
Proof.
  intros Hcs (Hc & _ & _ & Hs). unfold Base. rewrite decide_False.
  2: { destruct cs as [|x [|y l]]; simpl app; [done|..]; rewrite Join_cons2; by destruct x. }
  rewrite Split_Join.
  - rewrite rev_app_distr. change (rev [c] ++ rev cs) with (c :: rev cs).
    by rewrite filter_cons_True.
  - by destruct cs.
  - rewrite Forall_app, Forall_singleton. done.
Qed.

(** path.Dir: the path up to its last slash, cleaned. *)

Definition Dir (p : string) : string :=
  match rev (Split p) with
  | _ :: ((_ :: _) as rcs) => Clean (Strings.Join (rev rcs ++ [""]))
  | _ => Clean ""
  end.

(** The relative or absolute path of the components [cs]. *)

Definition path_of (rooted : bool) (cs : list string) : string := Strings.Join ((if rooted then [""] else []) ++ cs).

Lemma plain_no_slash cs : Forall plain cs -> Forall no_slash cs.
Proof. intros H. eapply Forall_impl; [exact H|]. by intros ? (?&?&?&?). Qed.

Lemma Split_path_of rooted cs : cs <> [] -> Forall plain cs -> Split (path_of rooted cs) = (if rooted then [""] else []) ++ cs.
Proof.
  intros Hne H%plain_no_slash. apply Split_Join; [by destruct rooted|]. destruct rooted; [by constructor|done].
Qed.

Lemma path_of_inj rooted cs cs' : cs <> [] -> cs' <> [] -> Forall plain cs -> Forall plain cs' -> path_of rooted cs = path_of rooted cs' -> cs = cs'.
Proof.
  intros Hn Hn' H H' E. apply (f_equal Split) in E. rewrite !Split_path_of in E by done. by apply app_inv_head in E.
Qed.

Lemma Dir_path_of rooted cs c : Forall plain (cs ++ [c]) ->
  Dir (path_of rooted (cs ++ [c])) = match cs with [] => if rooted then "/" else "." | _ => path_of rooted cs end.
Proof.
  intros H. unfold Dir. rewrite Split_path_of by (by destruct cs || done). apply Forall_app in H as [Hcs _].
  rewrite app_assoc, rev_app_distr. cbn [rev app]. destruct cs as [|x cs]; [destruct rooted; vm_compute; reflexivity|].
  set (pre := (if rooted then [""] else []) : list string). assert (Hne : pre ++ x :: cs <> []) by (by destruct pre).
  destruct (rev (pre ++ x :: cs)) as [|z rcs] eqn:E; [apply (f_equal (@rev _)) in E; rewrite rev_involutive in E; done|].
  rewrite <- E, rev_involutive. unfold Clean.
  assert (Hj : Strings.Join ((pre ++ x :: cs) ++ [""]) <> "").
  { unfold pre. destruct rooted; cbn [app]; [done|]. apply Forall_cons in Hcs as [(Hx & _) _]. destruct cs; cbn [app]; rewrite Join_cons2; by destruct x. }
  rewrite decide_False by done. rewrite Split_Join; [|by destruct pre|].
  2: { apply Forall_app. split; [|by repeat constructor]. apply Forall_app. split; [unfold pre; destruct rooted; by repeat constructor|by apply plain_no_slash]. }
  assert (Hpush : forall r acc, fold_left (clean_push r) ((pre ++ x :: cs) ++ [""]) acc = rev (x :: cs) ++ acc).
  { intros r acc. rewrite !fold_left_app. assert (fold_left (clean_push r) pre acc = acc) as -> by (unfold pre; by destruct rooted).
    rewrite (fold_clean_plain r (x :: cs)) by done. reflexivity. }
  rewrite Hpush, app_nil_r, rev_involutive. unfold pre, path_of. destruct rooted.
  - cbn [app]. rewrite !Join_cons2, append_nil. by rewrite HasPrefix_app.
  - cbn [app]. replace (HasPrefix _ "/") with false; [done|]. symmetry.
    apply Forall_cons in Hcs as [(Hx & _ & _ & Hs) _]. destruct cs; cbn [app]; rewrite Join_cons2; by apply HasPrefix_no_slash.
Qed.

Lemma Base_path_of rooted cs c : Forall plain (cs ++ [c]) -> Base (path_of rooted (cs ++ [c])) = c.
Proof.
  intros [Hcs Hc]%Forall_app. rewrite Forall_singleton in Hc. unfold path_of. rewrite app_assoc. apply Base_last; [|done].
  apply Forall_app. split; [destruct rooted; by repeat constructor|by apply plain_no_slash].
Qed.

End Path.
