(* ===== verification/Errors.v ===== *)
(** * Errors (pkg/errors) and the sentinel errors of the storage and core packages

    [Prelude.error] is [errors.Error]: a message and the error it wraps.
    Errors of the standard library, built by [fmt.Errorf] with "%v", are
    messages with no cause. *)

From S2P Require Import Prelude GoLib.

Module Errors.

Definition msg (e : error) : string :=
  match e with ErrMsg m => m | ErrWrap m _ => m end.

Definition New (m : string) : error := ErrMsg m.

Definition Unwrap (e : error) : option error :=
  match e with ErrMsg _ => None | ErrWrap _ i => Some i end.

(** Wrap replaces whatever [e] wrapped before. *)

Definition Wrap (e : error) (err : option error) : error :=
  match err with
  | None => e
  | Some i => ErrWrap (msg e) i
  end.

(** String displays the stack of errors; it is also Error(). *)

Fixpoint to_string (e : error) : string :=
  match e with
  | ErrMsg m => m
  | ErrWrap m i => m +:+ ": " +:+ to_string i
  end.

Definition WrapMessage (e : error) (m : string) : error := Wrap e (Some (ErrMsg m)).

Fixpoint Is (e target : error) : bool :=
  bool_decide (msg e = msg target) ||
  (bool_decide (msg e = to_string target) ||
   match e with
   | ErrMsg _ => false
   | ErrWrap _ i => Is i target
   end).

Lemma Is_refl e : Is e e = true.
Proof. destruct e; simpl; by rewrite bool_decide_eq_true_2. Qed.

Lemma Is_wrap_outer e i : Is (Wrap e (Some i)) e = true.
Proof. destruct e; simpl; by rewrite bool_decide_eq_true_2. Qed.

Lemma Is_wrap_inner e i t : Is i t = true -> Is (Wrap e (Some i)) t = true.
Proof. intros H. simpl. rewrite H, !orb_true_r. done. Qed.

End Errors.

(** ** pkg/storage/status *)

Module StorageStatus.

Definition ErrNotExists : error := ErrMsg "object doesn't exist".

Definition ErrNotFound : error := ErrMsg "not found".

Definition ErrUnauthorized : error := ErrMsg "unauthorized".

Definition ErrForbidden : error := ErrMsg "forbidden".

Definition ErrNotSupported : error := ErrMsg "not supported".

Definition ErrExists : error := ErrMsg "exists already".

Definition ErrObjectTooBig : error := ErrMsg "object too big to be read into memory".

Definition ErrInvalidResource : error := ErrMsg "invalid storage resource name".

Definition ErrStorageAPI : error := ErrMsg "storage API error".

Definition ErrNotImplemented : error := ErrMsg "not implemented".

Definition ErrVersioningDisabled : error := ErrMsg "versioning disabled".

Definition ErrInvalidVersion : error := ErrMsg "invalid version".

End StorageStatus.

(** ** pkg/core/status *)

Module CoreStatus.

Definition ErrInterrupted : error := ErrMsg "background processing interrupted".

Definition ErrNotFound : error := ErrMsg "not found".

Definition ErrUnexpectedUpdate : error := ErrMsg "unexpected update".

Definition ErrConfigContext : error := ErrMsg "error retrieving contexts from config store".

Definition ErrPublish : error := ErrMsg "failed to unpack data files".

Definition ErrPublishMetadata : error := ErrMsg "failed to publish metadata".

Definition ErrNoBundleIDWithConsumable : error := ErrMsg "no bundle id set and consumable store not present".

Definition ErrInvalidKsuid : error := ErrMsg "invalid bundleID (ksuid) specified".

Definition ErrAmbiguousBundle : error := ErrMsg "ambiguous bundle to populate files: consumable store and meta store both exist".

Definition ErrInvalidBundle : error := ErrMsg "invalid bundle to populate files: neither consumable store nor meta store exists".

Definition ErrBundleIDExists : error := ErrMsg "bundleID already exists on this store".

Definition ErrNotImplemented : error := ErrMsg "not implemented".

Definition ErrCommitGivenUp : error := ErrMsg "commit operation given up".

Definition ErrForbiddenConflict : error := ErrMsg "forbidden conflict detected".

Definition ErrSplitAlreadyDone : error := ErrMsg "split is done and cannot be restarted (has not to be)".

Definition ErrSplitMustExist : error := ErrMsg "cannot create split: split must already exist".

Definition ErrSplitUpdate : error := ErrMsg "cannot update split descriptor".

Definition ErrVersionedStoreRequired : error := ErrMsg "versioned store is required".

End CoreStatus.
