(* ===== verification/Storage.v ===== *)
(** * The object store interface (pkg/storage)

    [Store] is the Go interface [storage.Store] as a class of operations on a
    state type; [StoreLaws] states what the rest of the code relies on, in
    terms of the map of objects the store holds; [ReliableStore] adds that no
    call fails for a reason other than the map. [MultiPut] and [ReadTee] are
    translated on top of the interface. The last section is the store of the
    witnesses: a finite map. *)

From S2P Require Import Prelude GoLib Errors.

Module Storage.
Import StorageStatus.

(** storage.go: the names of the flag of Put. *)

Definition NoOverWrite : bool := true.

Definition OverWrite : bool := false.

Record Attributes : Type := mkAttributes {
  Created : Time.Time;
  Updated : Time.Time;
  Owner : string;
  Size : Z;
  CRC32C : Z
}.

(** An io.Reader handed to Put: the data it delivers and the error, if any,
    it ends with in place of io.EOF. *)

Record source : Type := Source {
  src_data : bytes;
  src_err : option error
}.

(** bytes.NewReader and strings.NewReader never fail. *)

Definition NewReader (b : bytes) : source := Source b None.

Class Store (S : Type) : Type := {
  Has : string -> M S bool;
  Get : string -> M S bytes;
  GetAttr : string -> M S Attributes;
  Touch : string -> M S unit;
  Put : string -> source -> bool -> M S unit;
  PutCRC : option (string -> source -> bool -> Z -> M S unit);
  Delete : string -> M S unit;
  Clear : M S unit;
  Keys : M S (list string);
  KeysPrefix : string -> string -> string -> nat -> M S (list string * string)
}.

(** The type switch every metadata writer makes: a store that supports
    checksums gets the CRC of the buffer. *)

Definition putBuffer {S} `{Store S} (name : string) (buffer : bytes) (doesNotExist : bool) : M S unit :=
  match PutCRC with
  | Some put => put name (NewReader buffer) doesNotExist (Crc32.Checksum buffer)
  | None => Put name (NewReader buffer) doesNotExist
  end.

(** MultiPut writes the same buffer to every store; the goroutines work on
    different stores. All stores are written, whatever the others return; the
    error is the first one, in the order of the stores, of a unit that does
    not tolerate failures. *)

Fixpoint MultiPut {S} `{Store S} (stores : list (S * bool)) (name : string) (buffer : bytes)
    (doesNotExist : bool) : res unit * list S :=
  match stores with
  | [] => (Ok tt, [])
  | (st, tolerate) :: rest =>
      let '(r, st') := putBuffer name buffer doesNotExist st in
      let '(r', rest') := MultiPut rest name buffer doesNotExist in
      (match r with
       | Err e => if tolerate : bool then r' else Err e
       | Panic p => Panic p
       | Ok _ => r'
       end, st' :: rest')
  end.

(** ReadTee reads an object of one store and copies it to another one. *)

Definition ReadTee {S T} `{Store S} `{Store T} (src : string) (dst : string)
    : M (S * T) bytes := fun '(s, t) =>
  match Get src s with
  | (Ok object, s') =>
      match Put dst (NewReader object) NoOverWrite t with
      | (Ok _, t') => (Ok object, (s', t'))
      | (Err e, t') => (Err e, (s', t'))
      | (Panic p, t') => (Panic p, (s', t'))
      end
  | (Err e, s') => (Err e, (s', t))
  | (Panic p, s') => (Panic p, (s', t))
  end.

(** ** What the clients rely on *)

Class StoreLaws (S : Type) `{Store S} : Type := {
  objects : S -> gmap string bytes;
  Has_spec k s r s' : Has k s = (r, s') ->
    objects s' = objects s /\ (forall b, r = Ok b -> b = bool_decide (is_Some (objects s !! k)));
  Get_spec k s r s' : Get k s = (r, s') ->
    objects s' = objects s /\ (forall d, r = Ok d -> objects s !! k = Some d) /\
    (forall e, r = Err e -> Errors.Is e ErrNotExists = true -> objects s !! k = None);
  GetAttr_spec k s r s' : GetAttr k s = (r, s') ->
    objects s' = objects s /\
    (forall a, r = Ok a -> exists d, objects s !! k = Some d /\ Size a = Z.of_nat (length d) /\
       (0 <= CRC32C a)%Z /\ ((0 < CRC32C a)%Z -> CRC32C a = Crc32.Checksum d));
  Put_spec k d excl s r s' : Put k (NewReader d) excl s = (r, s') ->
    (r = Ok tt -> objects s' = <[k:=d]> (objects s) /\ (excl = true -> objects s !! k = None)) /\
    (forall k', k' <> k -> objects s' !! k' = objects s !! k') /\
    (excl = true -> is_Some (objects s !! k) -> objects s' = objects s);
  PutCRC_spec put k d excl s r s' : PutCRC = Some put ->
    put k (NewReader d) excl (Crc32.Checksum d) s = (r, s') ->
    (r = Ok tt -> objects s' = <[k:=d]> (objects s) /\ (excl = true -> objects s !! k = None)) /\
    (forall k', k' <> k -> objects s' !! k' = objects s !! k') /\
    (excl = true -> is_Some (objects s !! k) -> objects s' = objects s);
  Delete_spec k s r s' : Delete k s = (r, s') ->
    (r = Ok tt -> objects s' = delete k (objects s)) /\
    (r <> Ok tt -> objects s' = objects s);
  Keys_spec s r s' : Keys s = (r, s') ->
    objects s' = objects s /\
    (forall ks, r = Ok ks -> NoDup ks /\ forall k, k ∈ ks <-> is_Some (objects s !! k))
}.

(** No failure but the documented ones. *)

Class ReliableStore (S : Type) `{StoreLaws S} : Prop := {
  Has_total k s : exists b, (Has k s).1 = Ok b;
  Get_present k s d : objects s !! k = Some d -> (Get k s).1 = Ok d;
  Get_absent k s : objects s !! k = None -> exists e, (Get k s).1 = Err e /\ Errors.Is e ErrNotExists = true;
  GetAttr_present k s : is_Some (objects s !! k) -> exists a, (GetAttr k s).1 = Ok a;
  GetAttr_absent k s : objects s !! k = None -> exists e, (GetAttr k s).1 = Err e;
  Put_total k d excl s : (excl = true -> objects s !! k = None) -> (Put k (NewReader d) excl s).1 = Ok tt;
  PutCRC_total put k d excl s : PutCRC = Some put -> (excl = true -> objects s !! k = None) ->
    (put k (NewReader d) excl (Crc32.Checksum d) s).1 = Ok tt;
  Delete_present k s : is_Some (objects s !! k) -> (Delete k s).1 = Ok tt
}.

Section clients.
Context {S : Type} `{!Store S, !StoreLaws S}.

Lemma putBuffer_spec k d excl s r s' :
  putBuffer k d excl s = (r, s') ->
  (r = Ok tt -> objects s' = <[k:=d]> (objects s) /\ (excl = true -> objects s !! k = None)) /\
  (forall k', k' <> k -> objects s' !! k' = objects s !! k') /\
  (excl = true -> is_Some (objects s !! k) -> objects s' = objects s).
Proof.
  unfold putBuffer. destruct PutCRC as [put|] eqn:E; intros Hp.
  - eapply PutCRC_spec; eauto.
  - by eapply Put_spec.
Qed.

Lemma putBuffer_total `{!ReliableStore S} k d excl s :
  (excl = true -> objects s !! k = None) -> (putBuffer k d excl s).1 = Ok tt.
Proof.
  unfold putBuffer. destruct PutCRC as [put|] eqn:E; intros Hp.
  - by apply PutCRC_total.
  - by apply Put_total.
Qed.

(** The store after a successful write, in one equation. *)

Lemma putBuffer_ok `{!ReliableStore S} k d excl s :
  (excl = true -> objects s !! k = None) ->
  exists s', putBuffer k d excl s = (Ok tt, s') /\ objects s' = <[k:=d]> (objects s).
Proof.
  intros He. pose proof (putBuffer_total k d excl s He) as Ht.
  destruct (putBuffer k d excl s) as [r s'] eqn:E. simpl in Ht. subst r.
  exists s'. split; [done|]. eapply putBuffer_spec in E as [E _]. by apply E.
Qed.

(** A write that succeeded. *)

Lemma putBuffer_Ok_objects k d excl s u s' :
  putBuffer k d excl s = (Ok u, s') ->
  objects s' = <[k:=d]> (objects s) /\ (excl = true -> objects s !! k = None).
Proof. intros E. destruct u. eapply putBuffer_spec in E as [E _]. by apply E. Qed.

Lemma Get_ok `{!ReliableStore S} k s d :
  objects s !! k = Some d -> exists s', Get k s = (Ok d, s') /\ objects s' = objects s.
Proof.
  intros Hd. pose proof (Get_present k s d Hd) as Hg.
  destruct (Get k s) as [r s'] eqn:E. simpl in Hg. subst r.
  exists s'. split; [done|]. by eapply Get_spec in E as [E _].
Qed.

Lemma Get_none `{!ReliableStore S} k s :
  objects s !! k = None ->
  exists e s', Get k s = (Err e, s') /\ Errors.Is e ErrNotExists = true /\ objects s' = objects s.
Proof.
  intros Hd. destruct (Get_absent k s Hd) as (e & Hg & He).
  destruct (Get k s) as [r s'] eqn:E. simpl in Hg. subst r.
  exists e, s'. split; [done|]. split; [done|]. by eapply Get_spec in E as [E _].
Qed.

Lemma Has_ok `{!ReliableStore S} k s :
  exists s', Has k s = (Ok (bool_decide (is_Some (objects s !! k))), s') /\ objects s' = objects s.
Proof.
  destruct (Has_total k s) as [b Hb]. destruct (Has k s) as [r s'] eqn:E. simpl in Hb. subst r.
  exists s'. eapply Has_spec in E as [Ho Hv]. rewrite (Hv b eq_refl). done.
Qed.

Lemma Delete_ok `{!ReliableStore S} k s :
  is_Some (objects s !! k) ->
  exists s', Delete k s = (Ok tt, s') /\ objects s' = delete k (objects s).
Proof.
  intros Hk. pose proof (Delete_present k s Hk) as Hd.
  destruct (Delete k s) as [r s'] eqn:E. simpl in Hd. subst r.
  exists s'. split; [done|]. eapply Delete_spec in E as [E _]. by apply E.
Qed.

(** A deletion, whatever its result, leaves the other objects alone. *)

Lemma Delete_ne k p s r s' : Delete k s = (r, s') -> p <> k -> objects s' !! p = objects s !! p.
Proof.
  intros [Hok Herr]%Delete_spec Hne. destruct r as [[]|e|m].
  - by rewrite (Hok eq_refl), lookup_delete_ne.
  - by rewrite Herr.
  - by rewrite Herr.
Qed.

End clients.

(** ** Listings

    KeysPrefix lists the keys that start with a prefix, in pages. With a
    delimiter, the keys are cut after the first delimiter that follows the
    prefix, and listed once. *)

(** The beginning of [s] up to and with the first [delim]. *)

Fixpoint upto (delim s : string) : string :=
  if decide (Strings.HasPrefix s delim = true) then delim
  else match s with
       | EmptyString => EmptyString
       | String c s' => String c (upto delim s')
       end.

Definition truncate (prefix delim key : string) : string :=
  if decide (delim = "") then key
  else match Strings.strip prefix key with
       | Some rest => prefix +:+ upto delim rest
       | None => key
       end.

Definition listing (objs : gmap string bytes) (prefix delim : string) : list string :=
  merge_sort String.le (elements (list_to_set (C := gset string)
    (truncate prefix delim <$> filter (fun k => Strings.HasPrefix k prefix = true) (map_to_list objs).*1))).

Class ListingLaws (S : Type) `{HS : Store S} `{!StoreLaws S} : Type := {
  remaining : gmap string bytes -> string -> string -> string -> list string;
  remaining_start objs prefix delim : remaining objs prefix delim "" = listing objs prefix delim;
  KeysPrefix_spec token prefix delim count s r s' : KeysPrefix token prefix delim count s = (r, s') ->
    objects s' = objects s /\
    (forall ks next, r = Ok (ks, next) -> exists rest, remaining (objects s) prefix delim token = ks ++ rest /\
       length ks <= count /\ (next = "" -> rest = []) /\
       (next <> "" -> length ks = count /\ remaining (objects s) prefix delim next = rest));
  KeysPrefix_total token prefix delim count s : 0 < count -> exists ks next, (KeysPrefix token prefix delim count s).1 = Ok (ks, next)
}.

Lemma listing_elem objs prefix delim k :
  k ∈ listing objs prefix delim <->
  exists k', is_Some (objs !! k') /\ Strings.HasPrefix k' prefix = true /\ k = truncate prefix delim k'.
Proof.
  unfold listing. rewrite merge_sort_Permutation, elem_of_elements, elem_of_list_to_set, list_elem_of_fmap.
  split.
  - intros (k' & -> & [Hp ([k2 v] & -> & Hk%elem_of_map_to_list)%list_elem_of_fmap]%list_elem_of_filter). eauto.
  - intros (k' & [v Hv] & Hp & ->). exists k'. split; [done|]. apply list_elem_of_filter. split; [done|].
    apply list_elem_of_fmap. exists (k', v). by rewrite elem_of_map_to_list.
Qed.

(** Without a delimiter the names are not truncated. *)

Lemma listing_elem_all objs prefix k : k ∈ listing objs prefix "" <-> Strings.HasPrefix k prefix = true /\ is_Some (objs !! k).
Proof.
  rewrite listing_elem. unfold truncate. split; [intros (k' & H1 & H2 & ->); by rewrite decide_True|].
  intros [H1 H2]. exists k. by rewrite decide_True.
Qed.

Lemma listing_NoDup objs prefix delim : NoDup (listing objs prefix delim).
Proof. unfold listing. rewrite merge_sort_Permutation. apply NoDup_elements. Qed.

Lemma listing_sorted objs prefix delim : StronglySorted String.le (listing objs prefix delim).
Proof. apply StronglySorted_merge_sort; apply _. Qed.

(** ** A finite map as a store *)

Section mem_store.

Definition mem_attr (d : bytes) : Attributes := mkAttributes 1%Z 1%Z "" (Z.of_nat (length d)) 0%Z.

(** The token of a page is the number of keys before it. *)

Definition mem_position (token : string) : nat :=
  match Strconv.ParseDigits token with Some n => N.to_nat n | None => 0 end.

Definition mem_remaining (objs : gmap string bytes) (prefix delim token : string) : list string :=
  drop (mem_position token) (listing objs prefix delim).

#[export] Instance mem_Store : Store (gmap string bytes) := {
  Has k := fun s => (Ok (bool_decide (is_Some (s !! k))), s);
  Get k := fun s => (match s !! k with Some d => Ok d | None => Err ErrNotExists end, s);
  GetAttr k := fun s => (match s !! k with Some d => Ok (mem_attr d) | None => Err ErrNotExists end, s);
  Touch k := fun s => (if decide (is_Some (s !! k)) then Ok tt else Err ErrNotExists, s);
  Put k src excl := fun s =>
    if decide (excl = true /\ is_Some (s !! k)) then (Err ErrExists, s)
    else match src_err src with
         | None => (Ok tt, <[k:=src_data src]> s)
         | Some e => (Err e, s)
         end;
  PutCRC := None;
  Delete k := fun s =>
    match s !! k with Some _ => (Ok tt, delete k s) | None => (Err ErrNotExists, s) end;
  Clear := fun s => (Ok tt, ∅);
  Keys := fun s => (Ok (map_to_list s).*1, s);
  KeysPrefix token prefix delim count := fun s =>
    let rest := mem_remaining s prefix delim token in
    let next := if decide (count < length rest) then Strconv.FormatUint (N.of_nat (mem_position token + count)) else "" in
    (Ok (take count rest, next), s)
}.

#[export] Instance mem_StoreLaws : StoreLaws (gmap string bytes).
Proof.
  refine {| objects := fun s => s |}; simpl.
  - intros k s r s' H. simplify_eq. split; [done|]. intros b Hb. by simplify_eq.
  - intros k s r s' H. simplify_eq.
    destruct (s' !! k) eqn:E; split_and!; try done; intros; by simplify_eq.
  - intros k s r s' H. simplify_eq. split; [done|]. intros a H.
    destruct (s' !! k) as [d|] eqn:E; simplify_eq. exists d. simpl. split_and!; done.
  - intros k d excl s r s' H.
    case_decide as Hd; simplify_eq; split_and!; try done.
    + intros _. split; [done|]. intros ->. apply eq_None_not_Some. naive_solver.
    + intros k' Hk. by rewrite lookup_insert_ne.
    + intros -> Hs. naive_solver.
  - done.
  - intros k s r s' H. destruct (s !! k) eqn:E; simplify_eq; done.
  - intros s r s' H. simplify_eq. split; [done|]. intros ks H. simplify_eq. split.
    + apply NoDup_fst_map_to_list.
    + intros k. rewrite list_elem_of_fmap. split.
      * intros ([k' v] & -> & Hin%elem_of_map_to_list). eauto.
      * intros [v Hv]. exists (k, v). by rewrite elem_of_map_to_list.
Defined.

#[export] Instance mem_ReliableStore : ReliableStore (gmap string bytes).
Proof.
  split; simpl.
  - eauto.
  - by intros k s d ->.
  - intros k s ->. exists ErrNotExists. split; [done|]. apply Errors.Is_refl.
  - intros k s [d ->]. eauto.
  - intros k s ->. eauto.
  - intros k d excl s He. rewrite decide_False; [done|]. intros [-> Hs].
    rewrite He in Hs by done. by destruct Hs.
  - done.
  - by intros k s [d ->].
Qed.

#[export] Instance mem_ListingLaws : ListingLaws (gmap string bytes).
Proof.
  refine {| remaining := mem_remaining |}.
  - intros objs prefix delim. unfold mem_remaining. by rewrite drop_0.
  - intros token prefix delim count s r s' [= <- <-]. split; [done|]. intros ks next [= <- <-].
    set (rest := mem_remaining s prefix delim token). exists (drop count rest).
    split; [by rewrite take_drop|]. split; [rewrite length_take; lia|]. case_decide as Hlt; split; intros Hn; try done.
    + by apply Strconv.FormatUint_nonempty in Hn.
    + split; [rewrite length_take; lia|]. unfold rest, mem_remaining.
      assert (mem_position (Strconv.FormatUint (N.of_nat (mem_position token + count))) = mem_position token + count) as ->.
      { unfold mem_position at 1. rewrite Strconv.ParseDigits_FormatUint. lia. }
      by rewrite drop_drop.
    + apply drop_ge. lia.
  - intros token prefix delim count s _. do 2 eexists. reflexivity.
Defined.

End mem_store.

End Storage.
