(* ===== verification/Localfs.v ===== *)
(** * The local file system store (pkg/storage: localfs/store.go, store.go)

    [localFS] keeps each object in a file of an afero.Fs, a third-party package:
    the class [Afero] has the calls the store makes, [AferoLaws] what they do
    to the files. On a file system that never fails to write or to close a file
    the store keeps the promises of Storage.v; the error of a write or of the
    reader that is copied is not reported. *)

From S2P Require Import Prelude GoLib Errors Storage.

Module Localfs.
Import Storage StorageStatus.

(** ** The file system *)

(** A call of the function given to afero.Walk: the path, the FileInfo, of which
    IsDir is used, and the error. *)

Record visit : Type := mkVisit {
  v_path : string;
  v_info : option bool;
  v_err : option error
}.

(** The handle of an open file is the path it was opened with. *)

Class Afero (A : Type) : Type := {
  af_Stat : string -> M A Attributes;
  af_IsDir : Attributes -> bool;
  af_Open : string -> M A bytes;
  af_OpenFile : string -> bool -> M A unit;
  af_Write : string -> bytes -> M A unit;
  af_Close : string -> M A unit;
  af_MkdirAll : string -> M A unit;
  af_Remove : string -> M A unit;
  af_RemoveAll : string -> M A unit;
  af_Chtimes : string -> M A unit;
  af_Walk : string -> M A (list visit);
  os_IsNotExist : error -> bool
}.

(** The errors of the file system are not those of the storage package. OpenFile
    creates the file, or truncates it; with O_EXCL only if it is not
    there. Walk from the current directory visits the files, each once. A file is
    addressed by its name as it is given: paths are not normalised. *)

Class AferoLaws (A : Type) `{Afero A} : Type := {
  files : A -> gmap string bytes;
  af_Stat_spec k a r a' : af_Stat k a = (r, a') ->
    files a' = files a /\
    (forall i, r = Ok i -> if af_IsDir i then files a !! k = None
                           else exists d, files a !! k = Some d /\ Size i = Z.of_nat (length d)) /\
    (forall e, r = Err e -> os_IsNotExist e = true -> files a !! k = None);
  af_Open_spec k a r a' : af_Open k a = (r, a') ->
    files a' = files a /\ (forall d, r = Ok d -> files a !! k = Some d) /\
    (forall e, r = Err e -> os_IsNotExist e = true -> files a !! k = None) /\
    (forall e, r = Err e -> Errors.Is e ErrNotExists = true -> os_IsNotExist e = true);
  af_OpenFile_spec k excl a r a' : af_OpenFile k excl a = (r, a') ->
    (r = Ok tt -> files a' = <[k := []]> (files a) /\ (excl = true -> files a !! k = None)) /\
    (r <> Ok tt -> files a' = files a);
  af_Write_spec k d a r a' c : files a !! k = Some c -> af_Write k d a = (r, a') ->
    (r = Ok tt -> files a' = <[k := c ++ d]> (files a)) /\ (forall k', k' <> k -> files a' !! k' = files a !! k');
  af_Close_spec k a r a' : af_Close k a = (r, a') -> files a' = files a;
  af_MkdirAll_spec k a r a' : af_MkdirAll k a = (r, a') -> files a' = files a;
  af_Remove_spec k a r a' : af_Remove k a = (r, a') ->
    (r = Ok tt -> files a' = delete k (files a)) /\ (r <> Ok tt -> files a' = files a) /\
    (forall e, r = Err e -> os_IsNotExist e = true -> files a !! k = None);
  af_Walk_spec a r a' : af_Walk "." a = (r, a') ->
    files a' = files a /\
    (forall vs, r = Ok vs -> Forall (fun v => v_err v = None) vs ->
       let fs := v_path <$> filter (fun v => v_info v = Some false) vs in
       NoDup fs /\ "." ∉ fs /\ forall k, k ∈ fs <-> is_Some (files a !! k))
}.

(** ** The store *)

(** The mutexes are left out. The logger of the store is not used for results. *)

Record localFS (A : Type) : Type := mkLocalFS {
  l_fs : A;
  l_glob : gmap string (list string);
  l_lock : bool;
  l_retry : bool
}.

Arguments mkLocalFS {A}.
Arguments l_fs {A}.
Arguments l_glob {A}.
Arguments l_lock {A}.
Arguments l_retry {A}.

Definition Option (A : Type) : Type := localFS A -> localFS A.

Definition WithLock {A} (flag : bool) : Option A := fun l => mkLocalFS (l_fs l) (l_glob l) flag (l_retry l).

Definition WithRetry {A} (enabled : bool) : Option A := fun l => mkLocalFS (l_fs l) (l_glob l) (l_lock l) enabled.

Definition New {A} (fs : A) (opts : list (Option A)) : localFS A :=
  fold_left (fun l apply_ => apply_ l) opts (mkLocalFS fs ∅ false true).

(** filepath.Dir: the path up to and with its last slash, cleaned. *)

Definition Dir (p : string) : string :=
  let cs := Strings.Split p in
  if decide (length cs <= 1) then "." else Path.Clean (Strings.Join (take (length cs - 1) cs) +:+ "/").

(** strings.Index *)

Fixpoint Index (s sub : string) : option nat :=
  if decide (Strings.HasPrefix s sub = true) then Some 0
  else match s with
       | EmptyString => None
       | String _ s' => Datatypes.S <$> Index s' sub
       end.

Section store.
Context {A : Type} `{HA : !Afero A}.

Definition fs_call {B} (m : M A B) : M (localFS A) B := fun l =>
  let '(r, a) := m (l_fs l) in (r, mkLocalFS a (l_glob l) (l_lock l) (l_retry l)).

Definition toSentinelErrors (err : error) : error :=
  if os_IsNotExist err then Errors.Wrap ErrNotExists (Some err) else err.

Definition local_Has (key : string) : M (localFS A) bool :=
  fi ← attempt (fs_call (af_Stat key));
  match fi with
  | inr err => if os_IsNotExist err then mret false else fail err
  | inl i => mret (negb (af_IsDir i))
  end.

Definition local_Get (key : string) : M (localFS A) bytes :=
  t ← attempt (fs_call (af_Open key));
  match t with
  | inr err => fail (toSentinelErrors err)
  | inl d => mret d
  end.

(** The operation that is retried: the file is opened, the source is copied to
    it, and the file is closed. The error of the copy is logged, and then
    overwritten by the one of Close. The result tells whether the source was
    read. *)

Definition copyTo (key : string) (src : source) : M A unit :=
  _ ← af_Write key (src_data src);
  match src_err src with Some e => fail e | None => mret tt end.

Definition operation (key : string) (exclusive : bool) (src : source) : M A (bool * option error) :=
  o ← attempt (af_OpenFile key exclusive);
  match o with
  | inr err => mret (false, Some (ErrMsg ("create record for " +:+ key +:+ ": " +:+ Errors.to_string err)))
  | inl _ =>
      _ ← attempt (copyTo key src);
      c ← attempt (af_Close key);
      mret (true, match c with inr err => Some err | inl _ => None end)
  end.

(** backoff.Retry: further attempts until one succeeds, or until time is up, after
    [attempts] more of them; [again] is what a source that was read delivers then.
    Without retry there is one attempt. *)

Fixpoint Retry (attempts : nat) (op : source -> M A (bool * option error)) (again : source -> source) (src : source) : M A unit :=
  r ← op src;
  match r.2, attempts with
  | None, _ => mret tt
  | Some e, O => fail e
  | Some _, Datatypes.S n => Retry n op again (if r.1 : bool then again src else src)
  end.

Definition local_Put (attempts : nat) (again : source -> source) (key : string) (src : source) (exclusive : bool)
    : M (localFS A) unit := fun l =>
  let dir := Dir key in
  fs_call (
    m ← (if decide (dir <> "") then attempt (af_MkdirAll dir) else mret (inl tt));
    match m with
    | inr e => fail (ErrMsg ("ensuring directories for " +:+ key +:+ ": " +:+ Errors.to_string e))
    | inl _ =>
        r ← attempt (Retry (if l_retry l then attempts else 0) (operation key exclusive) again src);
        match r with
        | inr err => fail (ErrMsg ("write record for " +:+ key +:+ ": " +:+ Errors.to_string err))
        | inl _ => mret tt
        end
    end) l.

Definition local_Delete (key : string) : M (localFS A) unit :=
  r ← attempt (fs_call (af_Remove key));
  match r with
  | inr err => if os_IsNotExist err then mret tt
               else fail (ErrMsg ("removing " +:+ key +:+ ": " +:+ Errors.to_string err))
  | inl _ => mret tt
  end.

(** The function Keys walks with. *)

Fixpoint walk_keys (vs : list visit) : res (list string) :=
  match vs with
  | [] => Ok []
  | v :: vs' =>
      match v_err v, v_info v with
      | Some e, _ => Err e
      | None, None => Panic "invalid memory address or nil pointer dereference"
      | None, Some isDir =>
          rest ← walk_keys vs';
          mret (if bool_decide (v_path v = ".") || isDir then rest else v_path v :: rest)
      end
  end.

Definition local_Keys : M (localFS A) (list string) :=
  vs ← fs_call (af_Walk ".");
  lift (walk_keys vs).

(** The function KeysPrefix walks with: IsDir is called before the error is
    looked at. *)

Definition cut_match (prefix delimiter pth : string) : string :=
  let rest := String.substring (String.length prefix) (String.length pth) pth in
  match Index rest delimiter with
  | Some cut => if decide (delimiter <> "" /\ String.length prefix < String.length pth)
                then String.substring 0 (String.length prefix + cut + 1) pth else pth
  | None => pth
  end.

Fixpoint walk_matches (prefix delimiter : string) (noRoot : bool) (vs : list visit) : res (list string) :=
  match vs with
  | [] => Ok []
  | v :: vs' =>
      match v_info v with
      | None => Panic "invalid memory address or nil pointer dereference"
      | Some isDir =>
          rest ← walk_matches prefix delimiter noRoot vs';
          mret (if isDir || bool_decide (is_Some (v_err v)) then rest
                else if Strings.HasPrefix (v_path v) prefix then
                  let pth := cut_match prefix delimiter (v_path v) in
                  (if noRoot then Strings.TrimPrefix pth "/" else pth) :: rest
                else rest)
      end
  end.

Definition dedupe (matches : list string) : list string :=
  fold_left (fun deduped m => if decide (m ∈ deduped) then deduped else deduped ++ [m]) matches [].

Fixpoint position (token : string) (search : list string) : option nat :=
  match search with
  | [] => None
  | s :: rest => if decide (s = token) then Some 0 else Datatypes.S <$> position token rest
  end.

Definition set_glob (prefix : string) (o : option (list string)) : M (localFS A) unit := fun l =>
  (Ok tt, mkLocalFS (l_fs l) (match o with Some m => <[prefix := m]> (l_glob l) | None => delete prefix (l_glob l) end)
            (l_lock l) (l_retry l)).

Definition searchPrefix (prefix delimiter : string) (noRoot : bool) : M (localFS A) (list string) := fun l =>
  match l_glob l !! prefix with
  | Some search => (Ok search, l)
  | None =>
      (vs ← fs_call (af_Walk (Dir prefix));
       matches ← lift (walk_matches prefix delimiter noRoot vs);
       let matches' := if decide (delimiter <> "") then dedupe matches else matches in
       _ ← set_glob prefix (Some matches');
       mret matches') l
  end.

Definition local_KeysPrefix (token prefix delimiter : string) (count : nat) : M (localFS A) (list string * string) :=
  let noRoot := negb (Strings.HasPrefix prefix "/") in
  let prefix := Path.Clean ("/" +:+ prefix) in
  search ← searchPrefix prefix delimiter noRoot;
  match (if decide (token = "") then Some 0 else position token search) with
  | None => _ ← set_glob prefix None; mret ([], "")
  | Some start =>
      match search !! (start + count) with
      | Some next => mret (take count (drop start search), next)
      | None => _ ← set_glob prefix None; mret (drop start search, "")
      end
  end.

Definition local_Clear : M (localFS A) unit := fs_call (af_RemoveAll "/").

Definition local_Touch (objectName : string) : M (localFS A) unit := fs_call (af_Chtimes objectName).

(** CRC32C is not supported. *)

Definition local_GetAttr (objectName : string) : M (localFS A) Attributes :=
  stat ← fs_call (af_Stat objectName);
  mret (mkAttributes (Updated stat) (Updated stat) (Owner stat) (Size stat) 0).

End store.

Section instance.
Context {A : Type} `{HA : !Afero A}.
Variables (attempts : nat) (again : source -> source).

Definition local_Store : Store (localFS A) := {|
  Has := local_Has;
  Get := local_Get;
  GetAttr := local_GetAttr;
  Touch := local_Touch;
  Put := local_Put attempts again;
  PutCRC := None;
  Delete := local_Delete;
  Clear := local_Clear;
  Keys := local_Keys;
  KeysPrefix := local_KeysPrefix
|}.

Context {HAL : AferoLaws A}.

(** A file system that never fails to write to an open file, or to close it. *)

Class SafeWrites : Prop := {
  Write_safe k d a c : files a !! k = Some c -> (af_Write k d a).1 = Ok tt;
  Close_safe k a : (af_Close k a).1 = Ok tt
}.

(** One attempt that could open the file succeeds, whatever became of the copy,
    when the file can be closed. *)

Lemma operation_opened key excl src a a1 :
  af_OpenFile key excl a = (Ok tt, a1) -> (forall a, (af_Close key a).1 = Ok tt) ->
  (forall d a p, (af_Write key d a).1 <> Panic p) ->
  exists a', operation key excl src a = (Ok (true, None), a') /\ (forall k', k' <> key -> files a' !! k' = files a !! k') /\
    (forall a3, af_Write key (src_data src) a1 = (Ok tt, a3) -> files a' !! key = Some (src_data src)).
Proof.
  intros Ho Hc Hp. unfold operation, copyTo, attempt, mbind, M_bind, mret, M_ret, fail. rewrite Ho.
  apply af_OpenFile_spec in Ho as [Ho _]. destruct (Ho eq_refl) as [Hf _].
  assert (Hk : files a1 !! key = Some []) by (rewrite Hf; apply lookup_insert_eq).
  specialize (Hp (src_data src) a1). destruct (af_Write key (src_data src) a1) as [rw a2] eqn:Ew. cbn in Hp.
  apply (af_Write_spec _ _ _ _ _ [] Hk) in Ew as [Hw Hother].
  assert (exists a3, af_Close key a2 = (Ok tt, a3)) as [a3 Ec].
  { specialize (Hc a2). destruct (af_Close key a2) as [rc a3]. cbn in Hc. subst rc. eauto. }
  pose proof (af_Close_spec _ _ _ _ Ec) as Hf3.
  assert (Hfr : forall k', k' <> key -> files a3 !! k' = files a !! k').
  { intros k' Hk'. rewrite Hf3, Hother, Hf, lookup_insert_ne by done. done. }
  assert (Hwr : forall a', (rw, a2) = (Ok tt, a') -> files a3 !! key = Some (src_data src)).
  { intros a' [= -> _]. rewrite Hf3, (Hw eq_refl), lookup_insert_eq. done. }
  destruct rw as [[]|e|p]; [destruct (src_err src)| |by destruct (Hp p)]; rewrite Ec; eauto.
Qed.

(** What a write does to the files. *)

Definition wrote (key : string) (excl : bool) (d : bytes) (ok : Prop) (a a' : A) : Prop :=
  (ok /\ files a' = <[key := d]> (files a) /\ (excl = true -> files a !! key = None)) \/ (~ ok /\ files a' = files a).

Section safe.
Context {HSW : SafeWrites}.

Lemma operation_wrote key excl src a r a' :
  operation key excl src a = (r, a') ->
  wrote key excl (src_data src) (r = Ok (true, None)) a a' /\ (forall b o, r = Ok (b, o) -> b = bool_decide (o = None)).
Proof.
  unfold operation, copyTo, attempt, mbind, M_bind, mret, M_ret, fail.
  destruct (af_OpenFile key excl a) as [ro a1] eqn:Eo. apply af_OpenFile_spec in Eo as [Hok Hno].
  destruct ro as [[]|e|p]; cycle 1.
  { intros H. simplify_eq. split; [right; split; [done|by apply Hno]|]. intros b e' H. by simplify_eq. }
  { intros H. simplify_eq. split; [right; split; [done|by apply Hno]|done]. }
  destruct (Hok eq_refl) as [Hf Hex]. assert (Hk : files a1 !! key = Some []) by (rewrite Hf; apply lookup_insert_eq).
  pose proof (Write_safe key (src_data src) a1 [] Hk) as Hw. destruct (af_Write key (src_data src) a1) as [rw a2] eqn:Ew. cbn in Hw. subst rw.
  apply (af_Write_spec _ _ _ _ _ [] Hk) in Ew as [Hf2 _]. specialize (Hf2 eq_refl).
  assert (exists a3, af_Close key a2 = (Ok tt, a3)) as [a3 Ec].
  { pose proof (Close_safe key a2) as Hc. destruct (af_Close key a2) as [rc a3]. cbn in Hc. subst rc. eauto. }
  pose proof (af_Close_spec _ _ _ _ Ec) as Hf3. assert (Hf' : files a3 = <[key := src_data src]> (files a)).
  { rewrite Hf3, Hf2, Hf. cbn. by rewrite insert_insert_eq. }
  destruct (src_err src); rewrite Ec; intros H; simplify_eq; (split; [by left|]); intros b e' H'; by simplify_eq.
Qed.

Lemma Retry_wrote n key excl : forall src a r a', Retry n (operation key excl) again src a = (r, a') ->
  wrote key excl (src_data src) (r = Ok tt) a a'.
Proof.
  induction n as [|n IH]; intros src a r a' H; cbn [Retry] in H; unfold mbind, M_bind, mret, M_ret, fail in H;
    destruct (operation key excl src a) as [ro a1] eqn:Eo;
    pose proof (operation_wrote _ _ _ _ _ _ Eo) as [Hw Hb];
    (destruct ro as [[b o]|e|p]; [rewrite (Hb b o eq_refl) in *; destruct o as [e|]|..]); cbn [fst snd] in H.
  5: { destruct Hw as [(Hok & _)|[_ Hf]]; [done|]. destruct (IH _ _ _ _ H) as [(-> & Hf' & Hex)|[Hr Hf']]; [left|right]; rewrite Hf in *; done. }
  all: injection H as <- <-; destruct Hw as [(Hok & Hf & Hex)|[Hok Hf]]; [try done; by left|right; split; [|done]; try done].
  all: intros _; by apply Hok.
Qed.

Lemma Put_wrote key src excl l r l' :
  local_Put attempts again key src excl l = (r, l') -> wrote key excl (src_data src) (r = Ok tt) (l_fs l) (l_fs l').
Proof.
  unfold local_Put, fs_call. intros H.
  assert (Hm : exists m a1, (if decide (Dir key <> "") then attempt (af_MkdirAll (Dir key)) else mret (inl tt)) (l_fs l) = (m, a1) /\
    files a1 = files (l_fs l)).
  { case_decide; [|by eexists _, _]. unfold attempt. destruct (af_MkdirAll (Dir key) (l_fs l)) as [rm a1] eqn:Em.
    apply af_MkdirAll_spec in Em. destruct rm as [[]|e|p]; eauto. }
  destruct Hm as (m & a1 & Em & Hf1). unfold mbind at 1, M_bind at 1 in H. rewrite Em in H. clear Em.
  destruct m as [[[]|e]|e|p]; [|injection H as <- <-; by right..].
  unfold attempt, mbind, M_bind, mret, M_ret, fail in H.
  destruct (Retry (if l_retry l then attempts else 0) (operation key excl) again src a1) as [rr a2] eqn:Er.
  apply Retry_wrote in Er. unfold wrote in *. rewrite Hf1 in Er. destruct rr as [[]|e|p]; injection H as <- <-; cbn [l_fs].
  - done.
  - right. split; [done|]. by destruct Er as [(? & _)|[_ ?]].
  - right. split; [done|]. by destruct Er as [(? & _)|[_ ?]].
Qed.

Lemma walk_keys_filter vs ks : walk_keys vs = Ok ks -> Forall (fun v => v_err v = None) vs /\
  ks = filter (fun k => k <> ".") (v_path <$> filter (fun v => v_info v = Some false) vs).
Proof.
  revert ks. induction vs as [|v vs IH]; intros ks; cbn [walk_keys]; [intros [= <-]; by split; [constructor|]|].
  destruct (v_err v) eqn:Ee; [done|]. destruct (v_info v) as [isDir|] eqn:Ei; [|done].
  destruct (walk_keys vs) as [rest|e|p]; cbn [mbind res_bind]; [|done..]. intros [= <-]. destruct (IH rest eq_refl) as [HF ->].
  split; [by constructor|]. rewrite (filter_cons _ v), Ei. destruct isDir.
  - rewrite decide_False by done. by rewrite orb_true_r.
  - rewrite decide_True by done. rewrite fmap_cons, filter_cons, orb_false_r. case_bool_decide; [by rewrite decide_False by tauto|].
    by rewrite decide_True.
Qed.

Lemma Has_files k l r l' : local_Has k l = (r, l') ->
  files (l_fs l') = files (l_fs l) /\ (forall b, r = Ok b -> b = bool_decide (is_Some (files (l_fs l) !! k))).
Proof.
  unfold local_Has, fs_call, attempt, mbind, M_bind, mret, M_ret, fail.
  destruct (af_Stat k (l_fs l)) as [rs a] eqn:E. apply af_Stat_spec in E as (Hf & Hok & Hno).
  destruct rs as [i|e|p]; [|destruct (os_IsNotExist e) eqn:En|]; intros H; simplify_eq; cbn [l_fs]; (split; [done|]); intros b Hb; simplify_eq.
  - specialize (Hok i eq_refl). destruct (af_IsDir i); cbn; [rewrite Hok; by rewrite bool_decide_false by (by intros [? ?])|].
    destruct Hok as (d & Hd & _). by rewrite bool_decide_true.
  - rewrite (Hno e eq_refl En). by rewrite bool_decide_false by (by intros [? ?]).
Qed.

Lemma Get_files k l r l' : local_Get k l = (r, l') ->
  files (l_fs l') = files (l_fs l) /\ (forall d, r = Ok d -> files (l_fs l) !! k = Some d) /\
  (forall e, r = Err e -> Errors.Is e ErrNotExists = true -> files (l_fs l) !! k = None).
Proof.
  unfold local_Get, fs_call, attempt, mbind, M_bind, mret, M_ret, fail.
  destruct (af_Open k (l_fs l)) as [rs a] eqn:E. apply af_Open_spec in E as (Hf & Hok & Hno & Hsent).
  destruct rs as [d|e|p]; intros H; simplify_eq; cbn [l_fs]; (split; [done|]); split; intros x Hx; simplify_eq.
  - by apply Hok.
  - unfold toSentinelErrors. destruct (os_IsNotExist e) eqn:En; [by intros _; apply (Hno e)|].
    intros Hi. by rewrite (Hsent e eq_refl Hi) in En.
Qed.

(** Deleting what is not there succeeds. *)

Lemma Delete_files k l r l' : local_Delete k l = (r, l') ->
  (r = Ok tt -> files (l_fs l') = delete k (files (l_fs l))) /\ (r <> Ok tt -> files (l_fs l') = files (l_fs l)).
Proof.
  unfold local_Delete, fs_call, attempt, mbind, M_bind, mret, M_ret, fail.
  destruct (af_Remove k (l_fs l)) as [rs a] eqn:E. apply af_Remove_spec in E as (Hok & Hno & Hne).
  destruct rs as [[]|e|p]; [|destruct (os_IsNotExist e) eqn:En|]; intros H; simplify_eq; cbn [l_fs]; split; intros Hr; try done.
  - by apply Hok.
  - rewrite Hno by done. symmetry. apply delete_id. by apply (Hne e).
  - by apply Hno.
  - by apply Hno.
Qed.

Lemma Keys_files l r l' : local_Keys l = (r, l') ->
  files (l_fs l') = files (l_fs l) /\
  (forall ks, r = Ok ks -> NoDup ks /\ forall k, k ∈ ks <-> is_Some (files (l_fs l) !! k)).
Proof.
  unfold local_Keys, fs_call, mbind, M_bind, lift.
  destruct (af_Walk "." (l_fs l)) as [rs a] eqn:E. apply af_Walk_spec in E as (Hf & Hok).
  destruct rs as [vs|e|p]; intros H; simplify_eq; cbn [l_fs]; (split; [done|]); intros ks Hks; [|done..].
  apply walk_keys_filter in Hks as [HF ->]. destruct (Hok vs eq_refl HF) as (Hnd & Hdot & Hin). split; [by apply NoDup_filter|].
  intros k. rewrite list_elem_of_filter, Hin. split; [by intros [_ ?]|]. intros Hk. split; [|done]. intros ->. by apply Hdot, Hin.
Qed.

(** C34: On a file system that does not fail to write or to close a file, the local
    store is a map from the keys to the contents: a successful Put binds the key
    to what the source delivered, and to nothing else it did before when the
    write is exclusive; a Put that fails changes nothing, with or without
    retries; Get returns what is bound, Has tells whether something is, Delete
    unbinds, and Keys lists the bound keys. *)
Theorem local_store_is_a_map l :
  (forall k src excl r l', local_Put attempts again k src excl l = (r, l') ->
     (r = Ok tt -> files (l_fs l') = <[k := src_data src]> (files (l_fs l)) /\ (excl = true -> files (l_fs l) !! k = None)) /\
     (r <> Ok tt -> files (l_fs l') = files (l_fs l))) /\
  (forall k r l', local_Get k l = (r, l') -> files (l_fs l') = files (l_fs l) /\ (forall d, r = Ok d -> files (l_fs l) !! k = Some d)) /\
  (forall k r l', local_Has k l = (r, l') ->
     files (l_fs l') = files (l_fs l) /\ (forall b, r = Ok b -> b = bool_decide (is_Some (files (l_fs l) !! k)))) /\
  (forall k r l', local_Delete k l = (r, l') ->
     (r = Ok tt -> files (l_fs l') = delete k (files (l_fs l))) /\ (r <> Ok tt -> files (l_fs l') = files (l_fs l))) /\
  (forall r l', local_Keys l = (r, l') -> files (l_fs l') = files (l_fs l) /\
     (forall ks, r = Ok ks -> NoDup ks /\ forall k, k ∈ ks <-> is_Some (files (l_fs l) !! k))).
Proof.
  split; [|split; [|split; [|split]]].
  - intros k src excl r l' H. apply Put_wrote in H as [(-> & Hf & Hex)|[Hr Hf]]; split; done.
  - intros k r l' H. apply Get_files in H as (Hf & Hok & _). done.
  - intros k r l'. apply Has_files.
  - intros k r l'. apply Delete_files.
  - apply Keys_files.
Qed.

End safe.

Lemma local_Put_opened key src excl l a1 a2 :
  (if decide (Dir key <> "") then af_MkdirAll (Dir key) (l_fs l) = (Ok tt, a1) else a1 = l_fs l) ->
  af_OpenFile key excl a1 = (Ok tt, a2) -> (forall a, (af_Close key a).1 = Ok tt) ->
  (forall d a p, (af_Write key d a).1 <> Panic p) ->
  exists l', local_Put attempts again key src excl l = (Ok tt, l') /\
    (forall a3, af_Write key (src_data src) a2 = (Ok tt, a3) -> files (l_fs l') !! key = Some (src_data src)).
Proof.
  intros Hm Ho Hc Hp. destruct (operation_opened key excl src a1 a2 Ho Hc Hp) as (a' & Hop & _ & Hw).
  exists (mkLocalFS a' (l_glob l) (l_lock l) (l_retry l)). split; [|exact Hw].
  assert (Hr : forall n, Retry n (operation key excl) again src a1 = (Ok tt, a')).
  { intros n. destruct n; cbn [Retry]; unfold mbind, M_bind, mret, M_ret; by rewrite Hop. }
  unfold local_Put, fs_call, attempt, mbind, M_bind, mret, M_ret. destruct (decide (Dir key <> "")); [rewrite Hm|subst a1]; by rewrite Hr.
Qed.

(** The error of the reader, and that of a write, are lost: Put reports success
    whenever the file could be created and closed, and what was written of the
    content before the error stays in the store as the object. *)
Theorem local_Put_hides_errors key src excl l a1 a2 :
  (if decide (Dir key <> "") then af_MkdirAll (Dir key) (l_fs l) = (Ok tt, a1) else a1 = l_fs l) ->
  af_OpenFile key excl a1 = (Ok tt, a2) -> (forall a, (af_Close key a).1 = Ok tt) ->
  (forall d a p, (af_Write key d a).1 <> Panic p) ->
  exists l', local_Put attempts again key src excl l = (Ok tt, l') /\
    (forall a3, af_Write key (src_data src) a2 = (Ok tt, a3) -> files (l_fs l') !! key = Some (src_data src)).
Proof. apply local_Put_opened. Qed.


End instance.

(** ** PipeIO (store.go)

    A goroutine copies the reader to a pipe, sends its error, if any, on the
    channel errC, closes errC, and then closes the pipe. The caller copies the
    pipe to the writer and then looks at errC without waiting: a closed channel
    delivers nil. [written] and [writeErr] are the results of the second copy;
    [producerDone] tells whether the goroutine has closed errC by then, which it
    has when the copy saw the end of the pipe. *)

Definition PipeIO (readErr writeErr : option error) (written : Z) (producerDone : bool) : Z * option error :=
  let ready := match writeErr with None => true | Some _ => producerDone end in
  if ready then (0%Z, readErr) else (written, writeErr).

(** PipeIO never returns the number of bytes it copied: a copy that succeeds
    reports zero bytes, and the error of a writer that fails after the reader has
    come to its end is lost. *)
Theorem PipeIO_loses_count_and_error :
  (forall readErr writeErr written d, (PipeIO readErr writeErr written d).2 = None -> (PipeIO readErr writeErr written d).1 = 0%Z) /\
  (forall e written, PipeIO None (Some e) written true = (0%Z, None)).
Proof. split; [|done]. intros r [e|] n [] H; by cbn in *. Qed.

(** ** A finite map as a file system *)

Section witness.

Definition no_file : error := ErrMsg "file does not exist".

Definition a_file (d : bytes) : Attributes := mkAttributes 1%Z 1%Z "" (Z.of_nat (length d)) 0%Z.

Definition mem_afero : Afero (gmap string bytes) := {|
  af_Stat k := fun a => (match a !! k with Some d => Ok (a_file d) | None => Err no_file end, a);
  af_IsDir i := false;
  af_Open k := fun a => (match a !! k with Some d => Ok d | None => Err no_file end, a);
  af_OpenFile k excl := fun a =>
    if decide (excl = true /\ is_Some (a !! k)) then (Err (ErrMsg "file exists"), a) else (Ok tt, <[k := []]> a);
  af_Write k d := fun a => (Ok tt, <[k := default [] (a !! k) ++ d]> a);
  af_Close k := fun a => (Ok tt, a);
  af_MkdirAll k := fun a => (Ok tt, a);
  af_Remove k := fun a => (match a !! k with Some _ => Ok tt | None => Err no_file end, delete k a);
  af_RemoveAll k := fun a => (Ok tt, ∅);
  af_Chtimes k := fun a => (Ok tt, a);
  af_Walk root := fun a =>
    (if decide (is_Some (a !! ".")) then Err (ErrMsg "not a directory")
     else Ok ((fun k => mkVisit k (Some false) None) <$> (map_to_list a).*1), a);
  os_IsNotExist e := bool_decide (e = no_file)
|}.

#[local] Existing Instance mem_afero.

Definition mem_afero_laws : AferoLaws (gmap string bytes).
Proof.
  refine {| files := fun a => a |}; cbn.
  - intros k a r a' H. simplify_eq. split; [done|]. destruct (a' !! k) eqn:E; split; intros x Hx; simplify_eq; eauto.
  - intros k a r a' H. simplify_eq. split; [done|]. destruct (a' !! k) eqn:E; split_and!; intros x Hx; by simplify_eq.
  - intros k excl a r a' H. case_decide as Hd; simplify_eq; split; try done. intros _. split; [done|]. intros ->.
    apply eq_None_not_Some. tauto.
  - intros k d a r a' c Hc H. simplify_eq. rewrite Hc. split; [done|]. intros k' Hk. by rewrite lookup_insert_ne.
  - intros k a r a' H. by simplify_eq.
  - intros k a r a' H. by simplify_eq.
  - intros k a r a' H. destruct (a !! k) eqn:E; simplify_eq; split_and!; try done; intros; by rewrite ?delete_id.
  - intros a r a' H. simplify_eq. split; [done|]. intros vs Hvs HF. case_decide as Hd; simplify_eq.
    assert (Hfs : forall ks : list string, v_path <$> filter (fun v => v_info v = Some false) ((fun k => mkVisit k (Some false) None) <$> ks) = ks).
    { intros ks. induction ks as [|k ks IH]; [done|]. rewrite fmap_cons, filter_cons, decide_True by done. rewrite fmap_cons. cbn [v_path].
      by rewrite IH. }
    rewrite Hfs. assert (Hin : forall k, k ∈ (map_to_list a').*1 <-> is_Some (a' !! k)).
    { intros k. rewrite list_elem_of_fmap. split.
      - intros ([k' v] & -> & Hv%elem_of_map_to_list). by exists v.
      - intros [v Hv]. exists (k, v). by rewrite elem_of_map_to_list. }
    split_and!; [apply NoDup_fst_map_to_list|by rewrite Hin|done].
Defined.

#[local] Existing Instance mem_afero_laws.

#[local] Instance mem_afero_safe : SafeWrites.
Proof. by split. Qed.

Definition an_object : source := Source [Byte.x01; Byte.x02] None.

Lemma local_store_is_a_map_witness :
  files (l_fs (local_Put 3 (fun s => Source [] None) "d/a" an_object true (New ∅ [])).2) !! "d/a" = Some [Byte.x01; Byte.x02].
Proof.
  destruct (local_store_is_a_map 3 (fun s => Source [] None) (New (∅ : gmap string bytes) [])) as [Hput _].
  destruct (local_Put 3 (fun s => Source [] None) "d/a" an_object true (New ∅ [])) as [r l'] eqn:E.
  destruct (Hput "d/a" an_object true r l' E) as [Hok _]. destruct Hok as [Hf _].
  - apply (f_equal fst) in E. cbn [fst] in E. rewrite <- E. reflexivity.
  - cbn [snd]. rewrite Hf. reflexivity.
Defined.

(** The reader breaks off after one byte: Put succeeds. *)

Lemma local_Put_hides_errors_witness :
  exists l', local_Put 3 (fun s => s) "d/a" (Source [Byte.x01] (Some (ErrMsg "blob is corrupt"))) true (New ∅ []) = (Ok tt, l') /\
    files (l_fs l') !! "d/a" = Some [Byte.x01].
Proof.
  destruct (local_Put_hides_errors 3 (fun s => s) "d/a" (Source [Byte.x01] (Some (ErrMsg "blob is corrupt"))) true
              (New (∅ : gmap string bytes) []) ∅ (<["d/a" := []]> ∅)) as (l' & E & Hw).
  - reflexivity.
  - reflexivity.
  - reflexivity.
  - done.
  - exists l'. split; [exact E|]. eapply Hw. reflexivity.
Defined.

End witness.

End Localfs.
