(* ===== verification/Lru.v ===== *)
(** * The LRU cache interface

    github.com/hashicorp/golang-lru is a third-party package. The class [Lru]
    has the two operations the code calls, [LruLaws] what it relies on: a cache
    answers with a value that was added under the key, and an addition may
    evict any entries. The finite maps of the last section, which never evict,
    are the instance of the witnesses. *)

From S2P Require Import Prelude.

Module Lru.

Class Lru (C K V : Type) : Type := {
  lru_Get : K -> C -> option V * C;
  lru_ContainsOrAdd : K -> V -> C -> bool * C
}.

Class LruLaws (C K V : Type) `{Lru C K V} : Type := {
  lru_entries : C -> K -> option V;
  lru_Get_spec k c r c' : lru_Get k c = (r, c') ->
    r = lru_entries c k /\ forall k', lru_entries c' k' = lru_entries c k';
  lru_ContainsOrAdd_spec k v c b c' : lru_ContainsOrAdd k v c = (b, c') ->
    (b = true <-> is_Some (lru_entries c k)) /\
    forall k' v', lru_entries c' k' = Some v' -> lru_entries c k' = Some v' \/ (b = false /\ k' = k /\ v' = v)
}.

(** Every entry of the cache is the value a function gives its key: the form
    of consistency the users of the caches keep. *)

Definition caches {C K V} `{LruLaws C K V} (P : K -> V -> Prop) (c : C) : Prop :=
  forall k v, lru_entries c k = Some v -> P k v.

Lemma caches_Get {C K V} `{LruLaws C K V} (P : K -> V -> Prop) c k r c' :
  caches P c -> lru_Get k c = (r, c') -> caches P c' /\ (forall v, r = Some v -> P k v).
Proof.
  intros Hc Hg. apply lru_Get_spec in Hg as [-> Hg]. split; [|auto].
  intros k' v'. rewrite Hg. apply Hc.
Qed.

Lemma caches_Add {C K V} `{LruLaws C K V} (P : K -> V -> Prop) c k v b c' :
  caches P c -> P k v -> lru_ContainsOrAdd k v c = (b, c') -> caches P c'.
Proof.
  intros Hc Hv Ha k' v' Hk. apply lru_ContainsOrAdd_spec in Ha as [_ Ha].
  destruct (Ha k' v' Hk) as [?|(_ & -> & ->)]; auto.
Qed.

Section gmap_lru.
Context {K V : Type} `{Countable K}.

#[export] Instance gmap_Lru : Lru (gmap K V) K V := {
  lru_Get k c := (c !! k, c);
  lru_ContainsOrAdd k v c :=
    match c !! k with
    | Some _ => (true, c)
    | None => (false, <[k:=v]> c)
    end
}.

#[export] Instance gmap_LruLaws : LruLaws (gmap K V) K V.
Proof.
  refine {| lru_entries := fun c k => c !! k |}; simpl.
  - intros k c r c' Hg. by simplify_eq.
  - intros k v c b c' Ha. destruct (c !! k) eqn:E; simplify_eq; split.
    + split; [by eauto|done].
    + auto.
    + split; [done|by intros [? ?]].
    + intros k' v' Hk'. destruct (decide (k' = k)) as [->|Hne].
      * rewrite lookup_insert_eq in Hk'. simplify_eq. auto.
      * rewrite lookup_insert_ne in Hk' by done. auto.
Defined.

End gmap_lru.

End Lru.
