(* ===== verification/Radix.v ===== *)
(** * Ordered maps over byte strings

    The code keeps several indexes in an immutable radix tree
    (github.com/hashicorp/go-immutable-radix), a third-party package. [Radix]
    is what the code calls of it, [RadixLaws] its documented behaviour: a map
    whose walk visits the entries in the lexicographic order of their keys.
    The last section shows that the laws can hold: a finite map whose walk
    sorts its entries. The first sections give the lexicographic order and
    encoding/binary's big-endian encoding, which preserves it. *)

From S2P Require Import Prelude GoLib.

(** ** Lexicographic order *)

Fixpoint ble (a b : bytes) : bool :=
  match a, b with
  | [], _ => true
  | _ :: _, [] => false
  | x :: a', y :: b' =>
      if (Byte.to_N x <? Byte.to_N y)%N then true
      else if (Byte.to_N x =? Byte.to_N y)%N then ble a' b' else false
  end.

Definition bytes_le (a b : bytes) : Prop := ble a b = true.

#[export] Instance bytes_le_dec : RelDecision bytes_le.
Proof. intros a b. unfold bytes_le. apply _. Defined.

Lemma byte_to_N_inj x y : Byte.to_N x = Byte.to_N y -> x = y.
Proof. intros H. apply (f_equal Byte.of_N) in H. rewrite !Byte.of_to_N in H. by simplify_eq. Qed.

#[export] Instance byte_countable : Countable Byte.byte.
Proof.
  refine (inj_countable (fun b => Byte.to_N b) Byte.of_N _).
  intros b. apply Byte.of_to_N.
Defined.

#[export] Instance bytes_le_refl : Reflexive bytes_le.
Proof.
  unfold bytes_le. intros a. induction a as [|x a IH]; simpl; [done|].
  rewrite N.ltb_irrefl, N.eqb_refl. done.
Qed.

#[export] Instance bytes_le_trans : Transitive bytes_le.
Proof.
  unfold bytes_le. intros a. induction a as [|x a IH]; intros [|y b] [|z c]; simpl; try done.
  repeat (case_match; simpl); intros; try done;
    rewrite ?N.ltb_lt, ?N.ltb_ge, ?N.eqb_eq, ?N.eqb_neq in *; try lia. eauto.
Qed.

#[export] Instance bytes_le_total : Total bytes_le.
Proof.
  unfold bytes_le. intros a. induction a as [|x a IH]; intros [|y b]; simpl; auto.
  repeat (case_match; simpl); auto;
    rewrite ?N.ltb_lt, ?N.ltb_ge, ?N.eqb_eq, ?N.eqb_neq in *; try lia.
Qed.

#[export] Instance bytes_le_antisymm : AntiSymm (=) bytes_le.
Proof.
  unfold bytes_le. intros a. induction a as [|x a IH]; intros [|y b]; simpl; try done.
  repeat (case_match; simpl); intros; try done;
    rewrite ?N.ltb_lt, ?N.ltb_ge, ?N.eqb_eq, ?N.eqb_neq in *; try lia.
  f_equal; [by apply byte_to_N_inj|by apply IH].
Qed.

(** ** Big-endian encoding of unsigned integers *)

Section big_endian.
Local Open Scope Z_scope.

Definition byte_of_Z (z : Z) : Byte.byte :=
  match Byte.of_N (Z.to_N (z mod 256)) with Some b => b | None => Byte.x00 end.

Definition Z_of_byte (b : Byte.byte) : Z := Z.of_N (Byte.to_N b).

(** binary.BigEndian.PutUint64 for n = 8. *)

Fixpoint be_put (n : nat) (z : Z) : bytes :=
  match n with
  | O => []
  | S m => be_put m (z / 256) ++ [byte_of_Z z]
  end.

(** binary.BigEndian.Uint64. *)

Definition be_get (b : bytes) : Z := fold_left (fun acc x => acc * 256 + Z_of_byte x) b 0.

Lemma Z_of_byte_of_Z z : Z_of_byte (byte_of_Z z) = z mod 256.
Proof.
  unfold Z_of_byte, byte_of_Z. pose proof (Z.mod_pos_bound z 256 ltac:(lia)) as Hb.
  destruct (Byte.of_N (Z.to_N (z mod 256))) as [b|] eqn:E.
  - apply Byte.to_of_N in E. rewrite E. lia.
  - apply Byte.of_N_None_iff in E. lia.
Qed.

Lemma length_be_put n z : length (be_put n z) = n.
Proof. revert z. induction n as [|n IH]; intros z; simpl; [done|]. rewrite length_app, IH. simpl. lia. Qed.

Lemma be_get_put n z : 0 <= z < 256 ^ Z.of_nat n -> be_get (be_put n z) = z.
Proof.
  revert z. induction n as [|n IH]; intros z Hz; simpl in *; [by replace z with 0 by lia|].
  unfold be_get in *. rewrite fold_left_app. simpl.
  replace (Z.of_nat (S n)) with (Z.of_nat n + 1) in Hz by lia.
  rewrite Z.pow_add_r, Z.pow_1_r in Hz by lia.
  rewrite IH by (split; [apply Z.div_pos; lia|apply Z.div_lt_upper_bound; lia]).
  rewrite Z_of_byte_of_Z. pose proof (Z.div_mod z 256 ltac:(lia)). lia.
Qed.

Lemma ble_snoc a b x y :
  length a = length b ->
  ble (a ++ [x]) (b ++ [y]) =
  if decide (a = b) then (Byte.to_N x <=? Byte.to_N y)%N else ble a b.
Proof.
  revert b. induction a as [|u a IH]; intros [|v b] Hl; try done; cbn [app ble].
  - rewrite decide_True by done. destruct (N.ltb_spec (Byte.to_N x) (Byte.to_N y)).
    + symmetry. apply N.leb_le. lia.
    + destruct (N.eqb_spec (Byte.to_N x) (Byte.to_N y)) as [->|].
      * symmetry. apply N.leb_le. lia.
      * symmetry. apply N.leb_gt. lia.
  - rewrite IH by (simpl in Hl; lia).
    destruct (N.ltb_spec (Byte.to_N u) (Byte.to_N v)).
    + case_decide; [|done]. simplify_eq. lia.
    + destruct (N.eqb_spec (Byte.to_N u) (Byte.to_N v)) as [E|].
      * apply byte_to_N_inj in E as ->. repeat case_decide; congruence.
      * case_decide; [|done]. simplify_eq.
Qed.

(** The encoding preserves the order, so a walk visits integer keys in
    increasing order. *)

Lemma be_put_le n a b :
  0 <= a < 256 ^ Z.of_nat n -> 0 <= b < 256 ^ Z.of_nat n ->
  ble (be_put n a) (be_put n b) = (a <=? b).
Proof.
  revert a b. induction n as [|n IH]; intros a b Ha Hb.
  { simpl in *. symmetry. apply Z.leb_le. lia. }
  replace (Z.of_nat (S n)) with (Z.of_nat n + 1) in * by lia.
  rewrite Z.pow_add_r, Z.pow_1_r in Ha, Hb by lia.
  assert (0 <= a / 256 < 256 ^ Z.of_nat n) as Ha'
    by (split; [apply Z.div_pos; lia|apply Z.div_lt_upper_bound; lia]).
  assert (0 <= b / 256 < 256 ^ Z.of_nat n) as Hb'
    by (split; [apply Z.div_pos; lia|apply Z.div_lt_upper_bound; lia]).
  simpl. rewrite ble_snoc by (by rewrite !length_be_put).
  pose proof (Z.div_mod a 256 ltac:(lia)) as Da. pose proof (Z.div_mod b 256 ltac:(lia)) as Db.
  pose proof (Z.mod_pos_bound a 256 ltac:(lia)). pose proof (Z.mod_pos_bound b 256 ltac:(lia)).
  case_decide as E.
  - apply (f_equal be_get) in E. rewrite !be_get_put in E by lia.
    pose proof (Z_of_byte_of_Z a) as Ea. pose proof (Z_of_byte_of_Z b) as Eb.
    unfold Z_of_byte in *. destruct (N.leb_spec (Byte.to_N (byte_of_Z a)) (Byte.to_N (byte_of_Z b)));
      symmetry; [apply Z.leb_le|apply Z.leb_gt]; lia.
  - rewrite IH by lia. assert (a / 256 <> b / 256) by congruence.
    destruct (Z.leb_spec (a / 256) (b / 256)); symmetry; [apply Z.leb_le|apply Z.leb_gt]; nia.
Qed.

End big_endian.

(** ** The interface *)

Class Radix (T : Type -> Type) : Type := {
  r_New : forall V, T V;
  r_Get : forall V, bytes -> T V -> option V;
  r_Insert : forall V, bytes -> V -> T V -> T V;
  r_Delete : forall V, bytes -> T V -> T V;
  r_Walk : forall V, T V -> list (bytes * V)
}.

Arguments r_New {T _ V}.
Arguments r_Get {T _ V}.
Arguments r_Insert {T _ V}.
Arguments r_Delete {T _ V}.
Arguments r_Walk {T _ V}.

Class RadixLaws (T : Type -> Type) `{Radix T} : Prop := {
  r_Get_New V k : r_Get k (r_New : T V) = None;
  r_Get_Insert V k (v : V) t : r_Get k (r_Insert k v t) = Some v;
  r_Get_Insert_ne V k k' (v : V) t : k <> k' -> r_Get k' (r_Insert k v t) = r_Get k' t;
  r_Get_Delete V k (t : T V) : r_Get k (r_Delete k t) = None;
  r_Get_Delete_ne V k k' (t : T V) : k <> k' -> r_Get k' (r_Delete k t) = r_Get k' t;
  r_Walk_spec V k (v : V) t : (k, v) ∈ r_Walk t <-> r_Get k t = Some v;
  r_Walk_sorted V (t : T V) : StronglySorted bytes_le (r_Walk t).*1;
  r_Walk_NoDup V (t : T V) : NoDup (r_Walk t).*1
}.

#[export] Hint Rewrite @r_Get_New @r_Get_Insert @r_Get_Delete using typeclasses eauto : datamon_rw.

(** Tree.Walk with a callback that returns true to stop. *)

Fixpoint walk_until {A B} (fn : A -> B -> B * bool) (l : list A) (st : B) : B :=
  match l with
  | [] => st
  | x :: l' => let '(st', stop) := fn x st in if stop : bool then st' else walk_until fn l' st'
  end.

Section radix_facts.
Context {T : Type -> Type} `{RadixLaws T}.

(** A list of entries, in key order and without repeated keys, that agrees
    with the lookups of the tree is its walk. *)

Lemma pairs_unique {V} (l1 l2 : list (bytes * V)) (g : bytes -> option V) :
  l1.*1 = l2.*1 ->
  (forall k v, (k, v) ∈ l1 -> g k = Some v) -> (forall k v, (k, v) ∈ l2 -> g k = Some v) ->
  l1 = l2.
Proof.
  revert l2. induction l1 as [|[k v] l1 IH]; intros [|[k' v'] l2] He H1 H2; simplify_eq/=; [done|].
  assert (g k' = Some v) by (apply H1; set_solver).
  assert (g k' = Some v') by (apply H2; set_solver).
  simplify_eq. f_equal. apply IH; [done|..]; intros; [apply H1|apply H2]; set_solver.
Qed.

Lemma r_Walk_unique {V} (t : T V) (l : list (bytes * V)) :
  StronglySorted bytes_le l.*1 -> NoDup l.*1 ->
  (forall k v, (k, v) ∈ l <-> r_Get k t = Some v) ->
  r_Walk t = l.
Proof.
  intros Hs Hn Hl. apply (pairs_unique _ _ (fun k => r_Get k t)).
  - apply (StronglySorted_unique bytes_le); [apply r_Walk_sorted|done|].
    apply NoDup_Permutation; [apply r_Walk_NoDup|done|].
    intros k. rewrite !list_elem_of_fmap. split; intros ([k' v] & -> & Hin).
    + apply r_Walk_spec, Hl in Hin. eauto.
    + apply Hl, r_Walk_spec in Hin. eauto.
  - intros k v. apply r_Walk_spec.
  - intros k v. apply Hl.
Qed.

End radix_facts.

(** ** The laws hold of a finite map *)

Section gmap_radix.

Definition entry_le {V} (p q : bytes * V) : Prop := bytes_le p.1 q.1.

#[local] Instance entry_le_dec V : RelDecision (@entry_le V).
Proof. intros p q. unfold entry_le. apply _. Defined.

#[local] Instance entry_le_trans V : Transitive (@entry_le V).
Proof. intros p q r. unfold entry_le. apply transitivity. Qed.

#[local] Instance entry_le_total V : Total (@entry_le V).
Proof. intros p q. unfold entry_le. apply bytes_le_total. Qed.

#[export] Instance gmap_Radix : Radix (gmap bytes) := {
  r_New V := ∅;
  r_Get V k t := t !! k;
  r_Insert V k v t := <[k:=v]> t;
  r_Delete V k t := delete k t;
  r_Walk V t := merge_sort entry_le (map_to_list t)
}.

Lemma StronglySorted_fst {V} (l : list (bytes * V)) :
  StronglySorted entry_le l -> StronglySorted bytes_le l.*1.
Proof.
  induction 1 as [|x l Hs IH HF]; simpl; constructor; [done|].
  apply Forall_fmap. eapply Forall_impl; [exact HF|]. done.
Qed.

#[export] Instance gmap_RadixLaws : RadixLaws (gmap bytes).
Proof.
  split; simpl; intros.
  - apply lookup_empty.
  - apply lookup_insert_eq.
  - by apply lookup_insert_ne.
  - apply lookup_delete_eq.
  - by apply lookup_delete_ne.
  - rewrite merge_sort_Permutation. apply elem_of_map_to_list.
  - apply StronglySorted_fst. apply StronglySorted_merge_sort; apply _.
  - rewrite (merge_sort_Permutation entry_le (map_to_list t)). apply NoDup_fst_map_to_list.
Qed.

End gmap_radix.
