(* ===== verification/FileTracker.v ===== *)
(** * Tracking writes over a base file (pkg/filetracker)

    A tracker records which byte ranges of a file have been overwritten, as
    the start and end offsets of the ranges, in a radix tree keyed by the
    big-endian encoding of the offset. [trackWrite] records a write,
    [getRangeToRead] tells from which file the next bytes are to be read. The
    specification is a list of disjoint, separated intervals. *)

From S2P Require Import Prelude GoLib Radix.

Module FileTracker.

Definition getFileRange (offset len : Z) : Z * Z := (offset, Int.int64 (offset + len)).

Definition startFlag : bool := true.

Definition endFlag : bool := false.

Definition terminate : bool := true.

Definition mutable : bool := true.

Definition base : bool := negb mutable.

Definition getKey (key : Z) : bytes :=
  if (key <? 0)%Z then [] else be_put 8 (Int.uint64 key).

Definition getOffset (k : bytes) : Z := Int.int64 (be_get k).

Section tracker.
Context {T : Type -> Type} `{Radix T}.

(** The variables the closure of trackWrite captures. *)

Record walk_state : Type := WalkState {
  txn : T bool;
  insertStart : bool;
  insertEnd : bool
}.

Definition deleteKey (k : bytes) (end_ : Z) (st : walk_state) : walk_state :=
  if (getOffset k <=? end_)%Z
  then WalkState (r_Delete k (txn st)) (insertStart st) (insertEnd st)
  else st.

Definition trackWrite_fn (start end_ : Z) (kv : bytes * bool) (st : walk_state)
    : walk_state * bool :=
  let '(k, isStart) := kv in
  let isEnd := negb isStart in
  let key := getOffset k in
  if isStart && (key =? start)%Z then
    (WalkState (txn st) false (insertEnd st), negb terminate)
  else if isStart && (key <? start)%Z then
    (st, negb terminate)
  else if isStart && (start <? key)%Z then
    (deleteKey k end_ st, negb terminate)
  else if isEnd && (key <? start)%Z then
    (st, negb terminate)
  else if isEnd && (start <? key)%Z then
    if (end_ <=? key)%Z then
      (WalkState (txn st) false false, terminate)
    else
      (deleteKey k end_ (WalkState (txn st) false (insertEnd st)), negb terminate)
  else (st, negb terminate).

Definition trackWrite (tracker : T bool) (offset length : Z) : T bool :=
  let '(start, end_) := getFileRange offset length in
  match r_Walk tracker with
  | [] => r_Insert (getKey end_) endFlag (r_Insert (getKey start) startFlag tracker)
  | entries =>
      let st := walk_until (trackWrite_fn start end_) entries (WalkState tracker true true) in
      let t1 := if insertStart st then r_Insert (getKey start) startFlag (txn st) else txn st in
      if insertEnd st then r_Insert (getKey end_) endFlag t1 else t1
  end.

(** The state of the closure of getRangeToRead: contiguous and storage. *)

Definition getRangeToRead_fn (offset len : Z) (kv : bytes * bool) (st : Z * bool)
    : Z * bool * bool :=
  let '(k, isStart) := kv in
  let isEnd := negb isStart in
  let key := getOffset k in
  if isStart && (key <=? offset)%Z then (st.1, mutable, negb terminate)
  else if isStart && (offset <? key)%Z then (Z.min (key - offset) len, base, terminate)
  else if isEnd && (key <=? offset)%Z then (st.1, base, negb terminate)
  else if isEnd && (offset <? key)%Z then (Z.min (key - offset) len, mutable, terminate)
  else (st, negb terminate).

Definition getRangeToRead (tracker : T bool) (offset len : Z) : Z * bool :=
  walk_until (getRangeToRead_fn offset len) (r_Walk tracker) (len, base).

End tracker.

(** ** Specification: disjoint intervals, in order and not touching *)

Fixpoint ivs_ok (lo : Z) (ivs : list (Z * Z)) : Prop :=
  match ivs with
  | [] => True
  | (s, e) :: rest => (lo < s < e)%Z /\ ivs_ok e rest
  end.

Definition flat (ivs : list (Z * Z)) : list (Z * bool) :=
  ivs ≫= fun '(s, e) => [(s, startFlag); (e, endFlag)].

Definition covered (ivs : list (Z * Z)) (x : Z) : bool :=
  existsb (fun '(s, e) => (s <=? x)%Z && (x <? e)%Z) ivs.

#[global] Arguments covered : simpl never.

Definition max_offset : Z := 2 ^ 63.

(** ** Offsets as keys *)

Lemma getOffset_getKey z : (0 <= z < max_offset)%Z -> getOffset (getKey z) = z.
Proof.
  unfold max_offset, getOffset, getKey. intros Hz.
  destruct (Z.ltb_spec z 0); [lia|]. rewrite Int.uint64_small by lia.
  rewrite be_get_put by (change (256 ^ Z.of_nat 8)%Z with (2 ^ 64)%Z; lia).
  apply Int.int64_small. lia.
Qed.

Lemma getKey_inj a b :
  (0 <= a < max_offset)%Z -> (0 <= b < max_offset)%Z -> getKey a = getKey b -> a = b.
Proof.
  intros Ha Hb E. apply (f_equal getOffset) in E. by rewrite !getOffset_getKey in E.
Qed.

Lemma getKey_le a b :
  (0 <= a)%Z -> (a <= b < max_offset)%Z -> bytes_le (getKey a) (getKey b).
Proof.
  unfold max_offset, getKey, bytes_le. intros Ha Hb.
  destruct (Z.ltb_spec a 0), (Z.ltb_spec b 0); try lia.
  rewrite !Int.uint64_small by lia.
  rewrite be_put_le by (change (256 ^ Z.of_nat 8)%Z with (2 ^ 64)%Z; lia).
  apply Z.leb_le. lia.
Qed.

Section proofs.
Context {T : Type -> Type} `{RadixLaws T}.

(** [represents t ivs]: the tree holds exactly the bounds of [ivs]. *)

Definition represents (t : T bool) (ivs : list (Z * Z)) : Prop :=
  ivs_ok (-1) ivs /\
  Forall (fun '(s, e) => (e < max_offset)%Z) ivs /\
  forall k v, r_Get k t = Some v <-> exists z, k = getKey z /\ (z, v) ∈ flat ivs.

Lemma flat_bounds lo ivs z v :
  ivs_ok lo ivs -> Forall (fun '(s, e) => (e < max_offset)%Z) ivs ->
  (z, v) ∈ flat ivs -> (lo < z < max_offset)%Z.
Proof.
  revert lo. induction ivs as [|[s e] ivs IH]; intros lo Hok HF Hin; [set_solver|].
  destruct Hok as [Hse Hok]. apply Forall_cons in HF as [He HF].
  simpl in Hin. rewrite !elem_of_cons in Hin. destruct Hin as [?|[?|Hin]]; simplify_eq; try lia.
  specialize (IH _ Hok HF Hin). lia.
Qed.

Definition encode (p : Z * bool) : bytes * bool := (getKey p.1, p.2).

Lemma flat_sorted lo ivs :
  (-1 <= lo)%Z -> ivs_ok lo ivs -> Forall (fun '(s, e) => (e < max_offset)%Z) ivs ->
  StronglySorted bytes_le (encode <$> flat ivs).*1 /\ NoDup (encode <$> flat ivs).*1.
Proof.
  revert lo. induction ivs as [|[s e] ivs IH]; intros lo Hlo Hok HF.
  { split; constructor. }
  destruct Hok as [Hse Hok]. apply Forall_cons in HF as [He HF]. simpl in He.
  destruct (IH e ltac:(lia) Hok HF) as [IHs IHn].
  assert (forall z v, (z, v) ∈ flat ivs -> (e < z < max_offset)%Z) as Hb.
  { intros z v. by apply flat_bounds. }
  assert (forall x b, x ∈ (encode <$> flat ivs).*1 -> (0 <= b <= e)%Z ->
     bytes_le (getKey b) x /\ getKey b <> x) as Hrest.
  { intros x b Hx Hbe. apply list_elem_of_fmap in Hx as ([k v] & -> & Hx).
    apply list_elem_of_fmap in Hx as ([z w] & Hkw & Hin). unfold encode in Hkw. simplify_eq/=.
    apply Hb in Hin. split; [apply getKey_le; lia|].
    intros E%getKey_inj; unfold max_offset in *; lia. }
  simpl. split.
  - constructor; [constructor; [done|]|].
    + apply Forall_forall. intros x Hx. apply Hrest; [done|lia].
    + apply Forall_cons. split; [apply getKey_le; lia|].
      apply Forall_forall. intros x Hx. apply Hrest; [done|lia].
  - apply NoDup_cons. split.
    + intros [E|Hx]%elem_of_cons.
      * apply getKey_inj in E; unfold max_offset in *; lia.
      * destruct (Hrest _ s Hx ltac:(lia)). done.
    + apply NoDup_cons. split; [|done]. intros Hx. destruct (Hrest _ e Hx ltac:(lia)). done.
Qed.

Lemma represents_walk t ivs : represents t ivs -> r_Walk t = encode <$> flat ivs.
Proof.
  intros (Hok & HF & Hget). destruct (flat_sorted (-1) ivs ltac:(lia) Hok HF) as [Hs Hn].
  apply r_Walk_unique; [done|done|]. intros k v. rewrite Hget, list_elem_of_fmap. split.
  - intros ([z w] & E & Hin). unfold encode in E. simplify_eq/=. eauto.
  - intros (z & -> & Hin). by exists (z, v).
Qed.

Lemma represents_empty : represents r_New [].
Proof.
  split; [done|]. split; [constructor|]. intros k v. rewrite r_Get_New.
  split; [done|]. intros (z & _ & Hin). set_solver.
Qed.

(** ** Reading *)

Lemma covered_cons s e ivs x :
  covered ((s, e) :: ivs) x = ((s <=? x)%Z && (x <? e)%Z) || covered ivs x.
Proof. reflexivity. Qed.

Lemma covered_below lo ivs x : ivs_ok lo ivs -> (x <= lo)%Z -> covered ivs x = false.
Proof.
  revert lo. induction ivs as [|[s e] ivs IH]; intros lo Hok Hx; [done|].
  destruct Hok as [Hse Hok]. rewrite covered_cons, (IH e Hok) by lia.
  destruct (Z.leb_spec s x); [lia|]. done.
Qed.

(** What a read of [len] bytes at [offset] must answer. *)

Definition read_answer (ivs : list (Z * Z)) (offset len : Z) (r : Z * bool) : Prop :=
  (0 < r.1 <= len)%Z /\
  (forall x, (offset <= x < offset + r.1)%Z -> covered ivs x = r.2) /\
  ((r.1 < len)%Z -> covered ivs (offset + r.1)%Z = negb r.2).

Lemma read_answer_skip s e ivs offset len r :
  (e <= offset)%Z -> read_answer ivs offset len r -> read_answer ((s, e) :: ivs) offset len r.
Proof.
  intros He (Hn1 & Hn2 & Hn3). split_and!; [lia|lia|..].
  - intros x Hx. rewrite covered_cons, Hn2 by done.
    destruct (Z.ltb_spec x e); [lia|]. by rewrite andb_false_r.
  - intros Hn. rewrite covered_cons, Hn3 by done.
    destruct (Z.ltb_spec (offset + r.1) e); [lia|]. by rewrite andb_false_r.
Qed.

Lemma getRangeToRead_walk lo ivs offset len c :
  ivs_ok lo ivs -> Forall (fun '(s, e) => (0 <= s /\ e < max_offset)%Z) ivs ->
  (0 <= offset)%Z -> (lo <= offset)%Z -> (0 < len)%Z -> c = len ->
  read_answer ivs offset len
    (walk_until (getRangeToRead_fn offset len) (encode <$> flat ivs) (c, base)).
Proof.
  intros Hok HF Ho Hlo Hlen ->. revert lo Hok Hlo.
  induction HF as [|[s e] ivs [Hs He] HF IH]; intros lo Hok Hlo.
  { split_and!; simpl; [lia|lia|done|lia]. }
  destruct Hok as [Hse Hok]. cbn [flat fmap list_fmap mbind list_bind app walk_until getRangeToRead_fn
    encode fst snd startFlag endFlag negb andb].
  rewrite !getOffset_getKey by (unfold max_offset in *; lia).
  destruct (Z.leb_spec s offset) as [Hso|Hso].
  2: { destruct (Z.ltb_spec offset s); [|lia]. simpl. split_and!; simpl; [lia|lia|..].
    - intros x Hx. rewrite covered_cons. destruct (Z.leb_spec s x); [lia|].
      simpl. apply (covered_below e); [done|lia].
    - intros Hn. rewrite covered_cons. replace (offset + Z.min (s - offset) len)%Z with s by lia.
      rewrite Z.leb_refl. by destruct (Z.ltb_spec s e); [|lia]. }
  simpl. destruct (Z.leb_spec e offset) as [Heo|Heo].
  - destruct (Z.ltb_spec offset s); [lia|]. simpl.
    apply read_answer_skip; [lia|]. by apply (IH e).
  - destruct (Z.ltb_spec offset s); [lia|]. destruct (Z.ltb_spec offset e); [|lia].
    simpl. split_and!; simpl; [lia|lia|..].
    + intros x Hx. rewrite covered_cons. destruct (Z.leb_spec s x), (Z.ltb_spec x e); try lia. done.
    + intros Hn. rewrite covered_cons. replace (offset + Z.min (e - offset) len)%Z with e by lia.
      destruct (Z.ltb_spec e e); [lia|]. rewrite andb_false_r. by apply (covered_below e).
Qed.

Lemma represents_bounds t ivs :
  represents t ivs -> Forall (fun '(s, e) => (0 <= s /\ e < max_offset)%Z) ivs.
Proof.
  intros (Hok & HF & _). assert (forall lo, (-1 <= lo)%Z -> ivs_ok lo ivs ->
    Forall (fun '(s, e) => (0 <= s /\ e < max_offset)%Z) ivs) as Hgen.
  { clear Hok. induction HF as [|[s e] ivs He HF IH]; intros lo Hlo Hok; [constructor|].
    destruct Hok as [Hse Hok]. constructor; [lia|]. apply (IH e); [lia|done]. }
  apply (Hgen (-1)%Z); [lia|done].
Qed.

(** ** Writing *)

Lemma flat_app a b : flat (a ++ b) = flat a ++ flat b.
Proof. unfold flat. apply bind_app. Qed.

Lemma ivs_ok_snoc lo front s e :
  ivs_ok lo (front ++ [(s, e)]) <->
  ivs_ok lo front /\ Forall (fun '(_, e') => (e' < s)%Z) front /\ (lo < s < e)%Z.
Proof.
  revert lo. induction front as [|[s' e'] front IH]; intros lo.
  - simpl. split; [intros [? _]; split_and!; [done|constructor|lia|lia]|naive_solver].
  - simpl. rewrite IH, Forall_cons. split.
    + intros (? & ? & ? & ?). split_and!; try done; lia.
    + intros ((? & ?) & (? & ?) & ?). split_and!; try done; lia.
Qed.

Lemma flat_upper lo ivs u z v :
  ivs_ok lo ivs -> Forall (fun '(_, e) => (e < u)%Z) ivs -> (z, v) ∈ flat ivs -> (lo < z < u)%Z.
Proof.
  revert lo. induction ivs as [|[s e] ivs IH]; intros lo Hok HF Hin; [set_solver|].
  destruct Hok as [Hse Hok]. apply Forall_cons in HF as [He HF].
  simpl in Hin. rewrite !elem_of_cons in Hin. destruct Hin as [?|[?|Hin]]; simplify_eq; try lia.
  specialize (IH _ Hok HF Hin). lia.
Qed.

(** The walk ignores the bounds that lie before the write. *)

Lemma trackWrite_walk_below start end_ l rest (st : walk_state (T:=T)) :
  (forall z v, (z, v) ∈ l -> (0 <= z < start)%Z) -> (start < max_offset)%Z ->
  walk_until (trackWrite_fn start end_) ((encode <$> l) ++ rest) st =
  walk_until (trackWrite_fn start end_) rest st.
Proof.
  intros Hl Hs. induction l as [|[z v] l IH]; [done|].
  assert (0 <= z < start)%Z by (apply (Hl z v); set_solver).
  simpl. rewrite getOffset_getKey by lia.
  destruct (Z.eqb_spec z start); [lia|]. destruct (Z.ltb_spec z start); [|lia].
  destruct v; simpl; apply IH; intros z' v' Hin; apply (Hl z' v'); set_solver.
Qed.

Lemma represents_append t ivs start end_ :
  represents t ivs -> Forall (fun '(_, e) => (e < start)%Z) ivs ->
  (0 <= start < end_)%Z -> (end_ < max_offset)%Z ->
  represents (r_Insert (getKey end_) endFlag (r_Insert (getKey start) startFlag t))
    (ivs ++ [(start, end_)]).
Proof.
  intros (Hok & HF & Hget) Hlt Hse Hmax. split_and!.
  - apply ivs_ok_snoc. split_and!; try done; lia.
  - apply Forall_app. split; [done|]. by constructor.
  - intros k v. setoid_rewrite flat_app. setoid_rewrite elem_of_app.
    assert (forall z, (z, v) ∈ flat ivs -> (-1 < z < start)%Z) as Hb
      by (intros z; by apply flat_upper).
    destruct (decide (getKey end_ = k)) as [<-|Hne].
    { rewrite r_Get_Insert. split.
      - intros E. simplify_eq. exists end_. split; [done|]. right. set_solver.
      - intros (z & E & [Hin|Hin]).
        + apply Hb in Hin. apply getKey_inj in E; lia.
        + simpl in Hin. rewrite !elem_of_cons in Hin. destruct Hin as [?|[?|Hin]]; simplify_eq; [|done|set_solver].
          apply getKey_inj in E; lia. }
    rewrite r_Get_Insert_ne by done.
    destruct (decide (getKey start = k)) as [<-|Hne'].
    { rewrite r_Get_Insert. split.
      - intros E. simplify_eq. exists start. split; [done|]. right. set_solver.
      - intros (z & E & [Hin|Hin]).
        + apply Hb in Hin. apply getKey_inj in E; lia.
        + simpl in Hin. rewrite !elem_of_cons in Hin. destruct Hin as [?|[?|Hin]]; simplify_eq; [done|..|set_solver]. }
    rewrite r_Get_Insert_ne, Hget by done. split.
    + intros (z & -> & Hin). eauto.
    + intros (z & -> & [Hin|Hin]); [eauto|].
      simpl in Hin. rewrite !elem_of_cons in Hin. destruct Hin as [?|[?|Hin]]; simplify_eq. set_solver.
Qed.

Lemma represents_extend t front s e end_ :
  represents t (front ++ [(s, e)]) -> (e < end_ < max_offset)%Z ->
  represents (r_Insert (getKey end_) endFlag (r_Delete (getKey e) t)) (front ++ [(s, end_)]).
Proof.
  intros (Hok & HF & Hget) Hmax. apply ivs_ok_snoc in Hok as (Hok & Hlt & Hse).
  apply Forall_app in HF as [HF _]. split_and!.
  - apply ivs_ok_snoc. split_and!; try done; lia.
  - apply Forall_app. split; [done|]. constructor; [lia|constructor].
  - intros k v. specialize (Hget k v). rewrite flat_app in Hget. rewrite flat_app.
    setoid_rewrite elem_of_app. setoid_rewrite elem_of_app in Hget.
    assert (forall z, (z, v) ∈ flat front -> (-1 < z < s)%Z) as Hb
      by (intros z; by apply flat_upper).
    destruct (decide (getKey end_ = k)) as [<-|Hne].
    { rewrite r_Get_Insert. split.
      - intros E. simplify_eq. exists end_. split; [done|]. right. set_solver.
      - intros (z & E & [Hin|Hin]).
        + apply Hb in Hin. apply getKey_inj in E; lia.
        + simpl in Hin. rewrite !elem_of_cons in Hin. destruct Hin as [?|[?|Hin]]; simplify_eq; [|done|set_solver].
          apply getKey_inj in E; lia. }
    rewrite r_Get_Insert_ne by done.
    destruct (decide (getKey e = k)) as [<-|Hne'].
    { rewrite r_Get_Delete. split; [done|]. intros (z & E & [Hin|Hin]).
      - apply Hb in Hin. apply getKey_inj in E; lia.
      - simpl in Hin. rewrite !elem_of_cons in Hin. destruct Hin as [?|[?|Hin]]; simplify_eq; [..|set_solver];
          apply getKey_inj in E; lia. }
    rewrite r_Get_Delete_ne, Hget by done. simpl. split.
    + intros (z & -> & [Hin|Hin]); [eauto|]. rewrite !elem_of_cons in Hin.
      destruct Hin as [?|[?|Hin]]; simplify_eq; [|set_solver].
      exists s. split; [done|]. right. set_solver.
    + intros (z & -> & [Hin|Hin]); [eauto|]. rewrite !elem_of_cons in Hin.
      destruct Hin as [?|[?|Hin]]; simplify_eq; [|set_solver].
      exists s. split; [done|]. right. set_solver.
Qed.

Lemma covered_app a b x : covered (a ++ b) x = covered a x || covered b x.
Proof. apply existsb_app. Qed.

Lemma covered_singleton s e x : covered [(s, e)] x = ((s <=? x)%Z && (x <? e)%Z).
Proof. unfold covered. simpl. apply orb_false_r. Qed.

(** The three outcomes of a write that starts at or after the start of the
    last interval: a new interval, no change, or a longer last interval. *)

Definition write_ivs (ivs : list (Z * Z)) (start end_ : Z) : list (Z * Z) :=
  match last ivs with
  | None => [(start, end_)]
  | Some (s, e) =>
      if (e <? start)%Z then ivs ++ [(start, end_)]
      else if (end_ <=? e)%Z then ivs
      else removelast ivs ++ [(s, end_)]
  end.

Lemma trackWrite_represents t ivs offset len :
  represents t ivs -> (0 <= offset)%Z -> (0 < len)%Z -> (offset + len < max_offset)%Z ->
  Forall (fun '(s, e) => (s <= offset)%Z /\ e <> offset) ivs ->
  represents (trackWrite t offset len) (write_ivs ivs offset (offset + len)).
Proof.
  intros Hr Ho Hl Hm HF. pose proof (represents_walk t ivs Hr) as Hw.
  unfold trackWrite, getFileRange. rewrite Int.int64_small by (unfold max_offset in *; lia).
  destruct ivs as [|[s e] front] using rev_ind; [|clear IHfront].
  { rewrite Hw. apply (represents_append t []); [done|constructor|lia|lia]. }
  pose proof Hr as (Hok & HB & _). apply ivs_ok_snoc in Hok as (Hok & Hlt & Hse).
  apply Forall_app in HB as [_ HB]. rewrite Forall_singleton in HB.
  apply Forall_app in HF as [_ HF]. apply Forall_singleton in HF as [Hso Heo].
  rewrite Hw, flat_app. unfold write_ivs. rewrite last_snoc, removelast_last.
  rewrite fmap_app. destruct ((encode <$> flat front) ++ _) as [|hd tl] eqn:E.
  { apply (f_equal length) in E. rewrite length_app in E. simpl in E. lia. }
  rewrite <- E, trackWrite_walk_below; [|intros z v Hin; eapply flat_upper in Hin; [|done|done]; lia|lia].
  clear E hd tl. simpl. rewrite !getOffset_getKey by lia.
  destruct (Z.ltb_spec e offset) as [Hlow|Hlow].
  - destruct (Z.eqb_spec s offset); [lia|]. destruct (Z.ltb_spec s offset); [|lia]. simpl.
    apply represents_append; [done| |lia|lia]. apply Forall_app. split; [|by constructor].
    eapply Forall_impl; [exact Hlt|]. intros [? ?]. lia.
  - destruct (Z.ltb_spec offset e); [|lia].
    destruct (Z.eqb_spec s offset) as [->|]; [|destruct (Z.ltb_spec s offset); [|lia]]; simpl;
      (destruct (Z.leb_spec (offset + len) e); simpl;
       [done|unfold deleteKey; simpl; rewrite getOffset_getKey by lia;
        destruct (Z.leb_spec e (offset + len)); [|lia]; simpl; by apply represents_extend]).
Qed.

Lemma write_ivs_covered ivs start end_ x :
  ivs_ok (-1) ivs -> (start < end_)%Z ->
  Forall (fun '(s, e) => (s <= start)%Z /\ e <> start) ivs ->
  covered (write_ivs ivs start end_) x = covered ivs x || ((start <=? x)%Z && (x <? end_)%Z).
Proof.
  intros Hok Hse HF. unfold write_ivs.
  destruct ivs as [|[s e] front _] using rev_ind.
  { apply covered_singleton. }
  apply ivs_ok_snoc in Hok as (_ & _ & Hb).
  apply Forall_app in HF as [_ HF]. apply Forall_singleton in HF as [Hso Heo].
  rewrite last_snoc, removelast_last.
  destruct (Z.ltb_spec e start); [by rewrite covered_app, covered_singleton|].
  destruct (Z.leb_spec end_ e); rewrite !covered_app, !covered_singleton;
    destruct (covered front x), (Z.leb_spec s x), (Z.ltb_spec x e), (Z.leb_spec start x),
      (Z.ltb_spec x end_); simpl; try done; lia.
Qed.

(** on a tracker that holds a well-formed set of written ranges,
    [trackWrite] of a write that starts at or after the start of the last range, and not
    exactly at its end, yields a well-formed tracker that covers the previous ranges
    and the new write, and nothing else; and a read right after it, at the offset of
    the write, is served from the mutable file for the whole length written. *)
Theorem trackWrite_correct t ivs offset len :
  represents t ivs -> (0 <= offset)%Z -> (0 < len)%Z -> (offset + len < max_offset)%Z ->
  Forall (fun '(s, e) => (s <= offset)%Z /\ e <> offset) ivs ->
  exists ivs', represents (trackWrite t offset len) ivs' /\
    (forall x, covered ivs' x = covered ivs x || ((offset <=? x)%Z && (x <? offset + len)%Z)) /\
    getRangeToRead (trackWrite t offset len) offset len = (len, mutable).
Proof.
  intros Hr Ho Hl Hm HF. pose proof Hr as (Hok & _).
  pose proof (trackWrite_represents t ivs offset len Hr Ho Hl Hm HF) as Hr'.
  assert (forall x, covered (write_ivs ivs offset (offset + len)) x =
    covered ivs x || ((offset <=? x)%Z && (x <? offset + len)%Z)) as Hc
    by (intros x; apply write_ivs_covered; [done|lia|done]).
  exists (write_ivs ivs offset (offset + len)). split_and!; [done|done|].
  unfold getRangeToRead. rewrite (represents_walk _ _ Hr').
  pose proof Hr' as (Hok' & _).
  pose proof (getRangeToRead_walk (-1) _ offset len len Hok' (represents_bounds _ _ Hr')
    Ho ltac:(lia) Hl eq_refl) as (Hn1 & Hn2 & Hn3).
  destruct (walk_until _ _ _) as [n st]. simpl in *.
  assert (st = true) as ->.
  { rewrite <- (Hn2 offset) by lia. rewrite Hc. rewrite Z.leb_refl.
    destruct (Z.ltb_spec offset (offset + len)); [|lia]. by rewrite orb_true_r. }
  f_equal. destruct (Z.lt_ge_cases n len) as [Hlt|]; [|lia].
  specialize (Hn3 Hlt). rewrite Hc in Hn3.
  destruct (Z.leb_spec offset (offset + n)), (Z.ltb_spec (offset + n) (offset + len)); lia.
Qed.

(** on a well-formed tracker, [getRangeToRead] answers with
    a non-empty range, at most as long as the request, whose bytes are all in the
    file it names, and which stops before the request's end only where the file
    to read from changes. *)
Theorem getRangeToRead_correct t ivs offset len :
  represents t ivs -> (0 <= offset)%Z -> (0 < len)%Z ->
  read_answer ivs offset len (getRangeToRead t offset len).
Proof.
  intros Hr Ho Hl. unfold getRangeToRead. rewrite (represents_walk _ _ Hr).
  pose proof Hr as (Hok & _).
  apply (getRangeToRead_walk (-1)); [done|by eapply represents_bounds|lia|lia|lia|done].
Qed.

(** a write that ends before the only written range is not recorded:
    the tracker is left as it was, and the bytes just written are read from the base file. *)
Theorem trackWrite_before_is_lost a b s e :
  (0 <= a < b)%Z -> (b < s < e)%Z -> (e < max_offset)%Z ->
  let t := trackWrite r_New s (e - s) : T bool in
  trackWrite t a (b - a) = t /\ getRangeToRead (trackWrite t a (b - a)) a (b - a) = (b - a, base)%Z.
Proof.
  intros Hab Hbs He t.
  assert (represents t [(s, e)]) as Hr.
  { pose proof (trackWrite_represents r_New [] s (e - s) represents_empty) as Hr.
    simpl in Hr. replace (s + (e - s))%Z with e in Hr by lia. apply Hr; [lia|lia|lia|constructor]. }
  assert (trackWrite t a (b - a) = t) as ->.
  { unfold trackWrite. unfold getFileRange. rewrite Int.int64_small by (unfold max_offset in *; lia).
    rewrite (represents_walk _ _ Hr). simpl. rewrite !getOffset_getKey by lia.
    destruct (Z.eqb_spec s a), (Z.ltb_spec s a), (Z.ltb_spec a s), (Z.ltb_spec e a),
      (Z.ltb_spec a e), (Z.leb_spec (a + (b - a)) e); try lia. simpl.
    unfold deleteKey. rewrite getOffset_getKey by lia.
    destruct (Z.leb_spec s (a + (b - a))); [lia|]. done. }
  split; [done|]. unfold getRangeToRead. rewrite (represents_walk _ _ Hr). simpl.
  rewrite !getOffset_getKey by lia.
  destruct (Z.leb_spec s a), (Z.ltb_spec a s); try lia. simpl. f_equal. lia.
Qed.

(** two adjacent writes: the second one starts where the first one ended.
    The offsets of the first write are then reported as unmodified, and
    would be read from the base file. *)
Theorem trackWrite_adjacent_misread a b c :
  (0 <= a < b)%Z -> (b < c)%Z -> (c < max_offset)%Z ->
  let t := trackWrite (trackWrite r_New a (b - a)) b (c - b) : T bool in
  getRangeToRead t a (b - a) = (b - a, base)%Z.
Proof.
  intros Hab Hbc Hc t.
  assert (represents (trackWrite r_New a (b - a) : T bool) [(a, b)]) as Hr.
  { pose proof (trackWrite_represents r_New [] a (b - a) represents_empty) as Hr.
    simpl in Hr. replace (a + (b - a))%Z with b in Hr by lia. apply Hr; [lia|lia|lia|constructor]. }
  assert (t = r_Insert (getKey c) endFlag (r_Insert (getKey b) startFlag (trackWrite r_New a (b - a)))) as Ht.
  { subst t. remember (trackWrite r_New a (b - a)) as t0 eqn:E0. clear E0.
    unfold trackWrite, getFileRange. rewrite Int.int64_small by (unfold max_offset in *; lia).
    rewrite (represents_walk _ _ Hr). simpl. rewrite !getOffset_getKey by lia.
    destruct (Z.eqb_spec a b), (Z.ltb_spec a b); try lia. simpl.
    destruct (Z.ltb_spec b b); [lia|]. simpl. by replace (b + (c - b))%Z with c by lia. }
  assert (r_Walk t = encode <$> [(a, true); (b, true); (c, false)]) as Hw.
  { apply r_Walk_unique.
    - simpl. repeat constructor; apply getKey_le; lia.
    - simpl. repeat (apply NoDup_cons; split);
        rewrite ?elem_of_cons, ?elem_of_nil; [..|constructor];
        intros Hx; repeat (destruct Hx as [Hx|Hx]); try done; apply getKey_inj in Hx; lia.
    - intros k v. rewrite Ht. destruct Hr as (_ & _ & Hget). specialize (Hget k v).
      simpl in Hget |- *. unfold encode. simpl.
      destruct (decide (getKey c = k)) as [<-|Hkc].
      { rewrite r_Get_Insert, !elem_of_cons, elem_of_nil. split.
        - intros [E|[E|[E|E]]]; simplify_eq; [..|done|done];
            match goal with Hk : getKey _ = getKey _ |- _ => apply getKey_inj in Hk; lia end.
        - intros E. simplify_eq. auto. }
      rewrite r_Get_Insert_ne by done.
      destruct (decide (getKey b = k)) as [<-|Hkb].
      { rewrite r_Get_Insert, !elem_of_cons, elem_of_nil. split.
        - intros [E|[E|[E|E]]]; simplify_eq; try done;
            match goal with Hk : getKey _ = getKey _ |- _ => apply getKey_inj in Hk; lia end.
        - intros E. simplify_eq. auto. }
      rewrite r_Get_Insert_ne, Hget, !elem_of_cons, elem_of_nil by done.
      setoid_rewrite elem_of_cons. setoid_rewrite elem_of_cons. setoid_rewrite elem_of_nil.
      split; [naive_solver|]. intros (z & -> & [?|[?|?]]); simplify_eq; naive_solver. }
  unfold getRangeToRead. rewrite Hw. simpl. rewrite !getOffset_getKey by lia.
  destruct (Z.leb_spec a a), (Z.leb_spec b a), (Z.ltb_spec a b); try lia. simpl. f_equal. lia.
Qed.

End proofs.

(** ** Witnesses, on the finite-map tree *)

Lemma trackWrite_correct_witness :
  exists ivs', represents (trackWrite (trackWrite (r_New : gmap bytes bool) 0 10) 5 20) ivs' /\
    (forall x, covered ivs' x = covered [(0, 10)]%Z x || ((5 <=? x)%Z && (x <? 5 + 20)%Z)) /\
    getRangeToRead (trackWrite (trackWrite (r_New : gmap bytes bool) 0 10) 5 20) 5 20 = (20%Z, mutable).
Proof.
  apply trackWrite_correct; [|lia|lia|unfold max_offset; lia|repeat constructor; lia].
  apply (trackWrite_represents _ [] 0 10 represents_empty);
    [lia|lia|unfold max_offset; lia|constructor].
Defined.

Lemma getRangeToRead_correct_witness :
  read_answer [(0, 10)]%Z 4 100 (getRangeToRead (trackWrite (r_New : gmap bytes bool) 0 10) 4 100).
Proof.
  apply getRangeToRead_correct; [|lia|lia].
  apply (trackWrite_represents _ [] 0 10 represents_empty);
    [lia|lia|unfold max_offset; lia|constructor].
Defined.

Lemma trackWrite_before_is_lost_witness :
  let t := trackWrite (r_New : gmap bytes bool) 10 (20 - 10) in
  trackWrite t 0 (5 - 0) = t /\ getRangeToRead (trackWrite t 0 (5 - 0)) 0 (5 - 0) = (5 - 0, base)%Z.
Proof. apply trackWrite_before_is_lost; unfold max_offset; lia. Defined.

Lemma trackWrite_adjacent_misread_witness :
  getRangeToRead (trackWrite (trackWrite (r_New : gmap bytes bool) 0 (10 - 0)) 10 (20 - 10)) 0 (10 - 0)
  = (10 - 0, base)%Z.
Proof. apply trackWrite_adjacent_misread; unfold max_offset; lia. Defined.

End FileTracker.
