(* ===== verification/Model.v ===== *)
(** * The metadata model (pkg/model)

    Descriptors are records with the fields of the Go structs; the types
    [DiamondState], [SplitState] and [ConflictMode] are strings in the source
    and stay strings here. The paths of the metadata objects are the
    [GetArchivePath...] and [GetConsumablePath...] functions, their parser is
    [GetArchivePathComponents]; the regular expressions of the source are
    written out as string functions. ksuid.Parse, of a third-party package, is
    the parameter [ksuid_valid]; the Unicode tables of package unicode are
    parameters too. *)

From S2P Require Import Prelude GoLib.

Module Model.
Import Strings.

(** ** Descriptors *)

Record Contributor : Type := mkContributor {
  c_Name : string;
  c_Email : string
}.

Definition Contributor_String (c : Contributor) : string :=
  if decide (c_Email c = "") then c_Name c
  else if decide (c_Name c = "") then c_Email c
  else c_Name c +:+ " <" +:+ c_Email c +:+ ">".

Definition DefaultLeafSize : Z := 2 * 1024 * 1024.

Definition DeduplicationBlake : string := "blake".

Definition CurrentBundleVersion : N := 2.

Record BundleDescriptor : Type := mkBundleDescriptor {
  bd_LeafSize : Z;
  bd_ID : string;
  bd_Message : string;
  bd_Parents : list string;
  bd_Timestamp : Time.Time;
  bd_Contributors : list Contributor;
  bd_BundleEntriesFileCount : N;
  bd_Version : N;
  bd_Deduplication : string;
  bd_RunStage : string
}.

(** The zero value of the Go struct. *)

Definition zeroBundleDescriptor : BundleDescriptor :=
  mkBundleDescriptor 0 "" "" [] Time.zero [] 0 0 "" "".

Definition defaultBundleDescriptor (now : Time.Time) : BundleDescriptor :=
  mkBundleDescriptor DefaultLeafSize "" "" [] now [] 0 CurrentBundleVersion DeduplicationBlake "".

(** os.FileMode is written as 0 by the only writer; it is kept as an integer. *)

Record BundleEntry : Type := mkBundleEntry {
  Hash : string;
  NameWithPath : string;
  FileMode : Z;
  be_Size : Z;
  Timestamp : Time.Time
}.

#[export] Instance BundleEntry_eq_dec : EqDecision BundleEntry.
Proof. unfold EqDecision. intros. unfold Decision. decide equality; solve [apply Z.eq_dec | apply String.string_dec]. Defined.

Record LabelDescriptor : Type := mkLabelDescriptor {
  ld_Name : string;
  ld_BundleID : string;
  ld_Timestamp : Time.Time;
  ld_Contributors : list Contributor
}.

Record RepoDescriptor : Type := mkRepoDescriptor {
  rd_Name : string;
  rd_Description : string;
  rd_Timestamp : Time.Time;
  rd_Contributor : Contributor
}.

(** ** Diamonds and splits *)

Definition ConflictMode : Type := string.

Definition IgnoreConflicts : ConflictMode := "ignored".

Definition EnableCheckpoints : ConflictMode := "enable-checkpoints".

Definition EnableConflicts : ConflictMode := "enable-conflicts".

Definition ForbidConflicts : ConflictMode := "forbids-conflicts".

Definition DiamondState : Type := string.

Definition DiamondInitialized : DiamondState := "initialized".

Definition DiamondDone : DiamondState := "done".

Definition DiamondCanceled : DiamondState := "canceled".

Definition DiamondState_IsValid (s : DiamondState) : bool :=
  bool_decide (s = DiamondInitialized \/ s = DiamondDone \/ s = DiamondCanceled).

Definition SplitState : Type := string.

Definition SplitDone : SplitState := "done".

Definition SplitRunning : SplitState := "running".

Definition SplitState_IsValid (s : SplitState) : bool :=
  bool_decide (s = SplitDone \/ s = SplitRunning).

Record SplitDescriptor : Type := mkSplitDescriptor {
  sd_SplitID : string;
  sd_StartTime : Time.Time;
  sd_EndTime : Time.Time;
  sd_State : SplitState;
  sd_Contributors : list Contributor;
  sd_GenerationID : string;
  sd_SplitEntriesFileCount : N;
  sd_Tag : string
}.

Record DiamondDescriptor : Type := mkDiamondDescriptor {
  dd_DiamondID : string;
  dd_StartTime : Time.Time;
  dd_EndTime : Time.Time;
  dd_State : DiamondState;
  dd_Mode : ConflictMode;
  dd_HasConflicts : bool;
  dd_HasCheckpoints : bool;
  dd_Tag : string;
  dd_BundleID : string;
  dd_Splits : list SplitDescriptor
}.

(** The random ksuid and the clock are arguments. *)

Definition defaultDiamondDescriptor (id : string) (now : Time.Time) : DiamondDescriptor :=
  mkDiamondDescriptor id now Time.zero DiamondInitialized EnableConflicts false false "" "" [].

Definition defaultSplitDescriptor (id : string) (now : Time.Time) : SplitDescriptor :=
  mkSplitDescriptor id now Time.zero SplitRunning [] "" 0 "".

(** Less on the sortable slices. String order is the byte order. *)

Definition BundleDescriptors_Less (a b : BundleDescriptor) : bool := String.ltb (bd_ID a) (bd_ID b).

Definition LabelDescriptors_Less (a b : LabelDescriptor) : bool :=
  String.ltb (ld_BundleID a) (ld_BundleID b).

Definition RepoDescriptors_Less (a b : RepoDescriptor) : bool := String.ltb (rd_Name a) (rd_Name b).

Definition DiamondDescriptors_Less (a b : DiamondDescriptor) : bool :=
  if negb (Time.IsZero (dd_StartTime a)) && negb (Time.IsZero (dd_StartTime b))
  then Time.Before (dd_StartTime a) (dd_StartTime b)
  else String.ltb (dd_DiamondID a) (dd_DiamondID b).

Definition SplitDescriptors_Less (a b : SplitDescriptor) : bool :=
  if negb (Time.IsZero (sd_StartTime a)) && negb (Time.IsZero (sd_StartTime b))
  then Time.Before (sd_StartTime a) (sd_StartTime b)
  else String.ltb (sd_SplitID a) (sd_SplitID b).

(** ** Paths of the metadata objects *)

Definition repoDescriptorFile : string := "repo.yaml".

Definition labelDescriptorFile : string := "label.yaml".

Definition bundleDescriptorFile : string := "bundle.yaml".

Definition contextDescriptorFile : string := "context.yaml".

Definition reverseIndexFile : string := "reverse-index".

Definition purgeLockFile : string := "purge.lock".

Definition bundleFilesIndexPrefix : string := "bundle-files-".

Definition indexFilePrefix : string := "chunk-".

Definition diamondInitialDescriptorFile : string := "diamond-running.yaml".

Definition diamondFinalDescriptorFile : string := "diamond-done.yaml".

Definition splitInitialDescriptorFile : string := "split-running.yaml".

Definition splitFinalDescriptorFile : string := "split-done.yaml".

Definition PurgeLock : string := purgeLockFile.

Definition ReverseIndex : string := reverseIndexFile.

Definition GetArchivePathPrefixToContexts : string := "contexts/".

Definition GetArchivePathToBundle (repo bundleID : string) : string :=
  "bundles/" +:+ repo +:+ "/" +:+ bundleID +:+ "/" +:+ bundleDescriptorFile.

Definition GetArchivePathPrefixToBundles (repo : string) : string := "bundles/" +:+ repo +:+ "/".

Definition GetArchivePathToBundleFileList (repo bundleID : string) (index : N) : string :=
  "bundles/" +:+ repo +:+ "/" +:+ bundleID +:+ "/" +:+
    bundleFilesIndexPrefix +:+ Strconv.FormatUint index +:+ ".yaml".

Definition GetArchivePathPrefixToLabels (repo : string) (prefixes : list string) : string :=
  "labels/" +:+ repo +:+ "/" +:+ Strings.Join prefixes.

Definition GetArchivePathToLabel (repo labelName : string) : string :=
  GetArchivePathPrefixToLabels repo [] +:+ labelName +:+ "/" +:+ labelDescriptorFile.

Definition GetArchivePathToRepoDescriptor (repo : string) : string :=
  "repos/" +:+ repo +:+ "/" +:+ repoDescriptorFile.

Definition GetArchivePathPrefixToRepos : string := "repos/".

Definition GetPathToContext (context : string) : string :=
  Path.Join ["contexts/"; context; contextDescriptorFile].

Definition GetArchivePathPrefixToDiamonds (repo : string) : string := "diamonds/" +:+ repo +:+ "/".

Definition GetArchivePathToDiamond (repo diamondID : string) (state : DiamondState) : string :=
  let suffix := if decide (state = DiamondInitialized) then "running" else "done" in
  "diamonds/" +:+ repo +:+ "/" +:+ diamondID +:+ "/" +:+ "diamond-" +:+ suffix +:+ ".yaml".

Definition GetArchivePathToFinalDiamond (repo diamondID : string) : string :=
  "diamonds/" +:+ repo +:+ "/" +:+ diamondID +:+ "/" +:+ diamondFinalDescriptorFile.

Definition GetArchivePathToInitialDiamond (repo diamondID : string) : string :=
  "diamonds/" +:+ repo +:+ "/" +:+ diamondID +:+ "/" +:+ diamondInitialDescriptorFile.

Definition GetArchivePathPrefixToSplits (repo diamondID : string) : string :=
  "diamonds/" +:+ repo +:+ "/" +:+ diamondID +:+ "/" +:+ "splits" +:+ "/".

Definition GetArchivePathToSplit (repo diamondID splitID : string) (state : SplitState) : string :=
  let suffix := if decide (state = SplitRunning) then "running" else "done" in
  "diamonds/" +:+ repo +:+ "/" +:+ diamondID +:+ "/" +:+ "splits" +:+ "/" +:+ splitID +:+ "/" +:+
    "split-" +:+ suffix +:+ ".yaml".

Definition GetArchivePathToFinalSplit (repo diamondID splitID : string) : string :=
  "diamonds/" +:+ repo +:+ "/" +:+ diamondID +:+ "/" +:+ "splits" +:+ "/" +:+ splitID +:+ "/" +:+
    splitFinalDescriptorFile.

Definition GetArchivePathToInitialSplit (repo diamondID splitID : string) : string :=
  "diamonds/" +:+ repo +:+ "/" +:+ diamondID +:+ "/" +:+ "splits" +:+ "/" +:+ splitID +:+ "/" +:+
    splitInitialDescriptorFile.

Definition GetArchivePathToSplitFileList (repo diamondID splitID generationID : string) (index : N) : string :=
  "diamonds/" +:+ repo +:+ "/" +:+ diamondID +:+ "/" +:+ "splits" +:+ "/" +:+ splitID +:+ "/" +:+
    generationID +:+ "/" +:+ bundleFilesIndexPrefix +:+ Strconv.FormatUint index +:+ ".yaml".

Definition GenerateConflictPath (splitID pth : string) : string := Path.Join [".conflicts"; splitID; pth].

Definition GenerateCheckpointPath (splitID pth : string) : string := Path.Join [".checkpoints"; splitID; pth].

Definition ReverseIndexFile (chunk : N) : string :=
  Path.Join [reverseIndexFile; indexFilePrefix +:+ Strconv.FormatUint chunk +:+ ".yaml"].

Definition ReverseIndexPrefix : string := Path.Join [reverseIndexFile; indexFilePrefix].

(** fmt.Sscanf on the base name with the format chunk-%d.yaml: the literal
    prefix, blanks, the digits, the literal extension; text after it is
    ignored, as Sscanf does. *)

Fixpoint span_digits (s : string) : string * string :=
  match s with
  | String c s' => if Strconv.digit c then let '(d, r) := span_digits s' in (String c d, r)
                   else (EmptyString, s)
  | EmptyString => (EmptyString, EmptyString)
  end.

Definition blank (c : Ascii.ascii) : bool :=
  bool_decide (c = " "%char) || bool_decide (c = "009"%char) ||
  bool_decide (c = "011"%char) || bool_decide (c = "012"%char) || bool_decide (c = "013"%char).

Fixpoint SkipSpace (s : string) : string :=
  match s with
  | String c s' => if blank c then SkipSpace s' else s
  | EmptyString => s
  end.

Definition max_uint64 : N := 2 ^ 64 - 1.

Definition ReverseIndexChunk (chunk : string) : res N :=
  match strip "chunk-" (Path.Base chunk) with
  | None => Err (ErrMsg "input does not match format")
  | Some r =>
      let '(d, rest) := span_digits (SkipSpace r) in
      match Strconv.ParseDigits d with
      | None => Err (ErrMsg "expected integer")
      | Some n =>
          if decide (n <= max_uint64)%N then
            if HasPrefix rest ".yaml" then Ok n else Err (ErrMsg "input does not match format")
          else Err (ErrMsg "unsigned integer overflow")
      end
  end.

(** run.go *)

Definition parentRunPath (category name id : string) : string :=
  "runs/" +:+ category +:+ "/" +:+ name +:+ "/" +:+ id.

Definition parentContainerPath (category name id stage stageID container : string) : string :=
  parentRunPath category name id +:+ "/" +:+ stage +:+ "/" +:+ stageID +:+ "/" +:+ container.

Definition GetPathToRun (category name id : string) : string := parentRunPath category name id +:+ "/run.yaml".

Definition GetPathToCategory (category : string) : string := "categories/" +:+ category +:+ "/category.yaml".

Definition GetPathToDataSetIn (category run runID stage stageID container : string) : string :=
  parentContainerPath category run runID stage stageID container +:+ "/datain.yaml".

Definition GetPathToDataSetOut (category run runID stage stageID container : string) : string :=
  parentContainerPath category run runID stage stageID container +:+ "/dataout.yaml".

Definition GetPathToContainer (category run runID stage stageID container : string) : string :=
  parentContainerPath category run runID stage stageID container +:+ "/container.yaml".

Definition GetPathToRunStatus (category run runID : string) : string :=
  parentRunPath category run runID +:+ "/runstatus.yaml".

(** context.go: names of the buckets *)

Definition GetWALName (context n : string) : string :=
  if decide (n <> "") then n else context +:+ "-wal".

Definition GetBlobName (context n : string) : string :=
  if decide (n <> "") then n else context +:+ "-blob".

Definition GetMetadataName (context n : string) : string :=
  if decide (n <> "") then n else context +:+ "-metadata".

Definition GetVMetadataName (context n : string) : string :=
  if decide (n <> "") then n else context +:+ "-v-metadata".

Definition GetReadLogName (context n : string) : string :=
  if decide (n <> "") then n else context +:+ "-read-log".

(** ** Regular expressions *)

(** The index files of a bundle: the prefix, one digit or more, the extension. *)

Definition isBundleFileIndexRe (s : string) : bool :=
  match strip bundleFilesIndexPrefix s with
  | None => false
  | Some r => let '(d, rest) := span_digits r in
              negb (bool_decide (d = "")) && bool_decide (rest = ".yaml")
  end.

(** The dot of a Go regexp matches any character but a newline. *)

Definition no_newline (s : string) : bool := negb (contains_char "010"%char s).

(** .datamon/, anything, .yaml: with its submatch. *)

Definition metaRe (s : string) : option string :=
  r ← strip ".datamon/" s;
  m ← strip_suffix ".yaml" r;
  if no_newline m then Some m else None.

(** Anything, -bundle-files-, anything: the first group is greedy, so the last
    occurrence of the separator splits the string. *)

Fixpoint split_last (sep s : string) : option (string * string) :=
  match s with
  | EmptyString => (fun r => (EmptyString, r)) <$> strip sep s
  | String c s' =>
      match split_last sep s' with
      | Some (a, b) => Some (String c a, b)
      | None => (fun r => (EmptyString, r)) <$> strip sep s
      end
  end.

Definition flRe (s : string) : option (string * string) :=
  '(a, b) ← split_last ("-" +:+ bundleFilesIndexPrefix) s;
  if no_newline a && no_newline b then Some (a, b) else None.

(** genFileRe: an alternative of anchored prefixes. *)

Definition special_dir (dir s : string) : bool :=
  existsb (fun p => match strip (p +:+ dir) s with
                    | None => false
                    | Some r => bool_decide (r = "") || HasPrefix r "/"
                    end) [""; "."; "/"; "./"].

Definition datamon_dir (s : string) : bool :=
  HasPrefix s ".datamon/" || HasPrefix s "/.datamon/" || bool_decide (s = "/.datamon") ||
  bool_decide (s = ".datamon") || HasPrefix s "./.datamon/" || bool_decide (s = "./.datamon").

Definition IsGeneratedFile (file : string) : bool :=
  datamon_dir file || special_dir ".conflicts" file || special_dir ".checkpoints" file.

(** ** Descriptor options

    A functor option is a function on the descriptor; the constructors apply
    the options in order to the default descriptor. *)

Definition BundleDescriptorOption : Type := BundleDescriptor -> BundleDescriptor.

Definition Message (m : string) : BundleDescriptorOption := fun b =>
  mkBundleDescriptor (bd_LeafSize b) (bd_ID b) m (bd_Parents b) (bd_Timestamp b) (bd_Contributors b)
    (bd_BundleEntriesFileCount b) (bd_Version b) (bd_Deduplication b) (bd_RunStage b).

Definition BundleContributors (c : list Contributor) : BundleDescriptorOption := fun b =>
  mkBundleDescriptor (bd_LeafSize b) (bd_ID b) (bd_Message b) (bd_Parents b) (bd_Timestamp b) c
    (bd_BundleEntriesFileCount b) (bd_Version b) (bd_Deduplication b) (bd_RunStage b).

Definition BundleContributor (c : Contributor) : BundleDescriptorOption := BundleContributors [c].

Definition Parents (p : list string) : BundleDescriptorOption := fun b =>
  mkBundleDescriptor (bd_LeafSize b) (bd_ID b) (bd_Message b) p (bd_Timestamp b) (bd_Contributors b)
    (bd_BundleEntriesFileCount b) (bd_Version b) (bd_Deduplication b) (bd_RunStage b).

Definition Deduplication (d : string) : BundleDescriptorOption := fun b =>
  mkBundleDescriptor (bd_LeafSize b) (bd_ID b) (bd_Message b) (bd_Parents b) (bd_Timestamp b) (bd_Contributors b)
    (bd_BundleEntriesFileCount b) (bd_Version b) d (bd_RunStage b).

Definition NewBundleDescriptor (now : Time.Time) (opts : list BundleDescriptorOption) : BundleDescriptor :=
  fold_left (fun bd apply => apply bd) opts (defaultBundleDescriptor now).

Definition LabelDescriptorOption : Type := LabelDescriptor -> LabelDescriptor.

Definition LabelContributors (c : list Contributor) : LabelDescriptorOption := fun ld =>
  mkLabelDescriptor (ld_Name ld) (ld_BundleID ld) (ld_Timestamp ld) c.

Definition LabelContributor (c : Contributor) : LabelDescriptorOption := LabelContributors [c].

Definition LabelName (name : string) : LabelDescriptorOption := fun ld =>
  mkLabelDescriptor name (ld_BundleID ld) (ld_Timestamp ld) (ld_Contributors ld).

Definition NewLabelDescriptor (now : Time.Time) (opts : list LabelDescriptorOption) : LabelDescriptor :=
  fold_left (fun ld apply => apply ld) opts (mkLabelDescriptor "" "" now []).

Definition DiamondDescriptorOption : Type := DiamondDescriptor -> DiamondDescriptor.

Definition DiamondID (id : string) : DiamondDescriptorOption := fun d =>
  if decide (id <> "") then
    mkDiamondDescriptor id (dd_StartTime d) (dd_EndTime d) (dd_State d) (dd_Mode d) (dd_HasConflicts d)
      (dd_HasCheckpoints d) (dd_Tag d) (dd_BundleID d) (dd_Splits d)
  else d.

Definition DiamondMode (mode : ConflictMode) : DiamondDescriptorOption := fun d =>
  mkDiamondDescriptor (dd_DiamondID d) (dd_StartTime d) (dd_EndTime d) (dd_State d) mode (dd_HasConflicts d)
    (dd_HasCheckpoints d) (dd_Tag d) (dd_BundleID d) (dd_Splits d).

Definition DiamondTag (tag : string) : DiamondDescriptorOption := fun d =>
  mkDiamondDescriptor (dd_DiamondID d) (dd_StartTime d) (dd_EndTime d) (dd_State d) (dd_Mode d) (dd_HasConflicts d)
    (dd_HasCheckpoints d) tag (dd_BundleID d) (dd_Splits d).

Definition DiamondClone (m : DiamondDescriptor) : DiamondDescriptorOption := fun _ => m.

Definition NewDiamondDescriptor (id : string) (now : Time.Time) (opts : list DiamondDescriptorOption) : DiamondDescriptor :=
  fold_left (fun d apply => apply d) opts (defaultDiamondDescriptor id now).

Definition SplitDescriptorOption : Type := SplitDescriptor -> SplitDescriptor.

Definition SplitID (id : string) : SplitDescriptorOption := fun s =>
  if decide (id <> "") then
    mkSplitDescriptor id (sd_StartTime s) (sd_EndTime s) (sd_State s) (sd_Contributors s) (sd_GenerationID s)
      (sd_SplitEntriesFileCount s) (sd_Tag s)
  else s.

Definition SplitContributors (c : list Contributor) : SplitDescriptorOption := fun s =>
  mkSplitDescriptor (sd_SplitID s) (sd_StartTime s) (sd_EndTime s) (sd_State s) c (sd_GenerationID s)
    (sd_SplitEntriesFileCount s) (sd_Tag s).

Definition SplitContributor (c : Contributor) : SplitDescriptorOption := SplitContributors [c].

Definition SplitTag (tag : string) : SplitDescriptorOption := fun s =>
  mkSplitDescriptor (sd_SplitID s) (sd_StartTime s) (sd_EndTime s) (sd_State s) (sd_Contributors s) (sd_GenerationID s)
    (sd_SplitEntriesFileCount s) tag.

Definition SplitClone (m : SplitDescriptor) : SplitDescriptorOption := fun _ => m.

Definition NewSplitDescriptor (id : string) (now : Time.Time) (opts : list SplitDescriptorOption) : SplitDescriptor :=
  fold_left (fun s apply => apply s) opts (defaultSplitDescriptor id now).

(** ** Consumable paths *)

Inductive ConsumableStorePathType : Type :=
| ConsumableStorePathTypeDescriptor
| ConsumableStorePathTypeFileList.

#[export] Instance ConsumableStorePathType_eq_dec : EqDecision ConsumableStorePathType.
Proof. solve_decision. Defined.

Record ConsumableStorePathMetadata : Type := mkConsumableStorePathMetadata {
  cm_Type : ConsumableStorePathType;
  cm_BundleID : string;
  cm_Index : Z
}.

Definition GetConsumableStorePathMetadata (path : string) : res ConsumableStorePathMetadata :=
  match metaRe path with
  | None => Err (ErrMsg ("not a metadata path '" +:+ path +:+ "'"))
  | Some metaName =>
      match flRe metaName with
      | None => Ok (mkConsumableStorePathMetadata ConsumableStorePathTypeDescriptor metaName 0)
      | Some (id, ix) =>
          index ← Strconv.Atoi ix;
          mret (mkConsumableStorePathMetadata ConsumableStorePathTypeFileList id (Int.uint64 index))
      end
  end.

(** The two builders check their result against the parser and panic on a
    mismatch. *)

Definition GetConsumablePathToBundle (bundleID : string) : res string :=
  let path := ".datamon/" +:+ bundleID +:+ ".yaml" in
  match GetConsumableStorePathMetadata path with
  | Err _ => Panic "path not valid against inverse function"
  | Panic p => Panic p
  | Ok info =>
      if decide (cm_Type info <> ConsumableStorePathTypeDescriptor)
      then Panic "unexpected type from inverse function"
      else if decide (cm_BundleID info <> bundleID)
      then Panic "inverse function bundle id does not match provided id"
      else Ok path
  end.

Definition GetConsumablePathToBundleFileList (bundleID : string) (index : N) : res string :=
  let path := ".datamon/" +:+ bundleID +:+ "-bundle-files-" +:+ Strconv.FormatUint index +:+ ".yaml" in
  match GetConsumableStorePathMetadata path with
  | Err _ => Panic "path not valid against inverse function"
  | Panic p => Panic p
  | Ok info =>
      if decide (cm_Type info <> ConsumableStorePathTypeFileList)
      then Panic "unexpected type from inverse function"
      else if decide (cm_BundleID info <> bundleID)
      then Panic "inverse function bundle id does not match provided id"
      else if decide (cm_Index info <> Z.of_N index)
      then Panic "inverse function index does not match provided index"
      else Ok path
  end.

(** ** Parsing of archive paths *)

Record ArchivePathComponents : Type := mkArchivePathComponents {
  apc_Repo : string;
  apc_BundleID : string;
  apc_ArchiveFileName : string;
  apc_LabelName : string;
  apc_Context : string;
  apc_DiamondID : string;
  apc_SplitID : string;
  apc_GenerationID : string;
  apc_IsFinalState : bool
}.

Definition path_invalid (archivePath : string) : res ArchivePathComponents :=
  Err (ErrMsg ("path is invalid: " +:+ archivePath)).

(** [archiveComponents] is the switch on the pieces of the path. The patterns
    give the pieces their names; a pattern with fewer pieces is the branch
    that reports too few parts. *)

Definition archiveComponents (ksuid_valid : string -> bool) (archivePath : string) (cs : list string)
  : res ArchivePathComponents :=
  match cs with
  | [] => path_invalid archivePath
  | c0 :: rest =>
    if decide (c0 = "labels") then
      match rest with
      | repo :: label :: file :: _ =>
          if decide (file <> labelDescriptorFile) then path_invalid archivePath
          else Ok (mkArchivePathComponents repo "" file label "" "" "" "" false)
      | _ => path_invalid archivePath
      end
    else if decide (c0 = "repos") then
      match rest with
      | repo :: file :: _ =>
          if decide (file <> repoDescriptorFile) then path_invalid archivePath
          else Ok (mkArchivePathComponents repo "" file "" "" "" "" "" false)
      | _ => path_invalid archivePath
      end
    else if decide (c0 = "bundles") then
      match rest with
      | repo :: bundle :: file :: _ =>
          if bool_decide (file = "") || bool_decide (file = bundleDescriptorFile) || isBundleFileIndexRe file
          then Ok (mkArchivePathComponents repo bundle file "" "" "" "" "" false)
          else path_invalid archivePath
      | _ => path_invalid archivePath
      end
    else if decide (c0 = "contexts") then
      match rest with
      | context :: file :: _ => Ok (mkArchivePathComponents "" "" file "" context "" "" "" false)
      | _ => path_invalid archivePath
      end
    else if decide (c0 = "diamonds") then
      match rest with
      | repo :: diamondID :: file :: rest4 =>
          if negb (ksuid_valid diamondID)
          then Err (ErrMsg ("expected {diamond-id} to be a ksuid: " +:+ archivePath))
          else if bool_decide (file = "") ||
                  (bool_decide (file = diamondInitialDescriptorFile) || bool_decide (file = diamondFinalDescriptorFile))
          then Ok (mkArchivePathComponents repo "" file "" "" diamondID "" ""
                     (bool_decide (file = diamondFinalDescriptorFile)))
          else
            match rest4 with
            | [] => path_invalid archivePath
            | splitID :: rest5 =>
                if decide (splitID = "") then Ok (mkArchivePathComponents repo "" "" "" "" diamondID "" "" false)
                else
                  match rest5 with
                  | [] => path_invalid archivePath
                  | file5 :: rest6 =>
                      if bool_decide (file5 = "") ||
                         (bool_decide (file5 = splitInitialDescriptorFile) || bool_decide (file5 = splitFinalDescriptorFile))
                      then Ok (mkArchivePathComponents repo "" file5 "" "" diamondID splitID ""
                                 (bool_decide (file5 = splitFinalDescriptorFile)))
                      else
                        match rest6 with
                        | [] => path_invalid archivePath
                        | file6 :: rest7 =>
                            let generationID := file5 in
                            if negb (ksuid_valid generationID)
                            then Err (ErrMsg ("expected {generation-id} to be a ksuid: " +:+ archivePath))
                            else if bool_decide (rest7 <> []) || negb (isBundleFileIndexRe file6)
                            then path_invalid archivePath
                            else Ok (mkArchivePathComponents repo "" file6 "" "" diamondID splitID generationID
                                       (bool_decide (file5 = splitFinalDescriptorFile)))
                        end
                  end
            end
      | _ => path_invalid archivePath
      end
    else path_invalid archivePath
  end.

Definition GetArchivePathComponents (ksuid_valid : string -> bool) (archivePath : string) : res ArchivePathComponents :=
  archiveComponents ksuid_valid archivePath (SplitN archivePath 7).

End Model.
