(* ===== verification/ModelPaths.v ===== *)
(** * Correctness of the metadata paths (pkg/model)

    The builders and the parser of Model.v are inverse to each other: archive
    paths ([GetArchivePathTo...] and [GetArchivePathComponents]), consumable
    paths ([GetConsumablePathTo...] and [GetConsumableStorePathMetadata]),
    chunks of the reverse index, and the generated paths of conflicting
    files. *)

From S2P Require Import Prelude GoLib Model.

Module ModelPaths.
Import Strings Model.

(** ** Decimal suffixes *)

Lemma span_digits_all d r :
  Strconv.all_digits d = true -> (forall c r', r = String c r' -> Strconv.digit c = false) ->
  span_digits (d +:+ r) = (d, r).
Proof.
  intros Hd Hr. induction d as [|c d IH].
  - rewrite append_nil. destruct r as [|c r]; [done|]. simpl. by rewrite (Hr c r).
  - rewrite append_cons. simpl in *. apply andb_true_iff in Hd as [Hc Hd].
    by rewrite Hc, IH.
Qed.

Lemma span_digits_FormatUint n r :
  span_digits (Strconv.FormatUint n +:+ "." +:+ r) = (Strconv.FormatUint n, "." +:+ r).
Proof.
  apply span_digits_all; [apply Strconv.FormatUint_digits|].
  intros c r'. rewrite append_cons. intros ?. by simplify_eq.
Qed.

Lemma FormatUint_no_char c n :
  Strconv.digit c = false -> contains_char c (Strconv.FormatUint n) = false.
Proof. intros. apply Strconv.all_digits_no_char; [done|]. apply Strconv.FormatUint_digits. Qed.

Lemma isBundleFileIndexRe_index n :
  isBundleFileIndexRe (bundleFilesIndexPrefix +:+ Strconv.FormatUint n +:+ ".yaml") = true.
Proof.
  unfold isBundleFileIndexRe. rewrite strip_app.
  change ".yaml" with ("." +:+ "yaml") at 1. rewrite span_digits_FormatUint.
  rewrite bool_decide_eq_false_2 by apply Strconv.FormatUint_nonempty.
  by rewrite bool_decide_eq_true_2.
Qed.

Lemma index_file_no_slash n : no_slash (bundleFilesIndexPrefix +:+ Strconv.FormatUint n +:+ ".yaml").
Proof.
  unfold no_slash. rewrite !contains_char_app, FormatUint_no_char by done. done.
Qed.

(** Splits an archive path into its named components. *)

Ltac split_path :=
  repeat (rewrite SplitN_cons; [|done|simpl; lia]); simpl minus.

(** The components of a path of slash-free pieces. *)

Lemma SplitN_Join cs n :
  cs <> [] -> Forall no_slash cs -> length cs <= n -> SplitN (Strings.Join cs) n = cs.
Proof.
  intros Hne H. revert n Hne. induction H as [|x l Hx H IH]; intros n Hne Hn; [done|].
  destruct l as [|y l]; [by apply SplitN_no_slash|].
  rewrite Path.Join_cons2. simpl in Hn.
  rewrite SplitN_cons by (done || lia). f_equal. apply IH; [done|]. simpl. lia.
Qed.

(** The list of pieces of each archive path. *)

Lemma bundle_path_Join repo id : GetArchivePathToBundle repo id = Strings.Join ["bundles"; repo; id; bundleDescriptorFile].
Proof. reflexivity. Qed.

Lemma filelist_path_Join repo id n :
  GetArchivePathToBundleFileList repo id n =
  Strings.Join ["bundles"; repo; id; bundleFilesIndexPrefix +:+ Strconv.FormatUint n +:+ ".yaml"].
Proof. reflexivity. Qed.

Lemma label_path_Join repo l : GetArchivePathToLabel repo l = Strings.Join ["labels"; repo; l; labelDescriptorFile].
Proof.
  unfold GetArchivePathToLabel, GetArchivePathPrefixToLabels. simpl Strings.Join.
  by rewrite !string_app_assoc.
Qed.

Lemma repo_path_Join repo : GetArchivePathToRepoDescriptor repo = Strings.Join ["repos"; repo; repoDescriptorFile].
Proof. reflexivity. Qed.

Lemma diamond_path_Join repo d st :
  GetArchivePathToDiamond repo d st =
  Strings.Join ["diamonds"; repo; d;
    if decide (st = DiamondInitialized) then diamondInitialDescriptorFile else diamondFinalDescriptorFile].
Proof. unfold GetArchivePathToDiamond. by case_decide. Qed.

Lemma split_path_Join repo d s st :
  GetArchivePathToSplit repo d s st =
  Strings.Join ["diamonds"; repo; d; "splits"; s;
    if decide (st = SplitRunning) then splitInitialDescriptorFile else splitFinalDescriptorFile].
Proof. unfold GetArchivePathToSplit. by case_decide. Qed.

Lemma splitlist_path_Join repo d s g n :
  GetArchivePathToSplitFileList repo d s g n =
  Strings.Join ["diamonds"; repo; d; "splits"; s; g;
    bundleFilesIndexPrefix +:+ Strconv.FormatUint n +:+ ".yaml"].
Proof. reflexivity. Qed.

Ltac parse_pieces :=
  unfold GetArchivePathComponents; rewrite SplitN_Join;
  [|done|repeat (apply Forall_cons; split); try done; try apply index_file_no_slash; try (by case_decide); apply Forall_nil
  |simpl; lia].

(** C32: every archive path of a bundle, an index file of a bundle, a label or a
    repository parses back to the components it was built from, for names
    without a slash. *)
Theorem archive_path_roundtrip kv repo bundleID labelName index :
  no_slash repo -> no_slash bundleID -> no_slash labelName ->
  GetArchivePathComponents kv (GetArchivePathToBundle repo bundleID)
    = Ok (mkArchivePathComponents repo bundleID bundleDescriptorFile "" "" "" "" "" false) /\
  GetArchivePathComponents kv (GetArchivePathToBundleFileList repo bundleID index)
    = Ok (mkArchivePathComponents repo bundleID
            (bundleFilesIndexPrefix +:+ Strconv.FormatUint index +:+ ".yaml") "" "" "" "" "" false) /\
  GetArchivePathComponents kv (GetArchivePathToLabel repo labelName)
    = Ok (mkArchivePathComponents repo "" labelDescriptorFile labelName "" "" "" "" false) /\
  GetArchivePathComponents kv (GetArchivePathToRepoDescriptor repo)
    = Ok (mkArchivePathComponents repo "" repoDescriptorFile "" "" "" "" "" false).
Proof.
  intros Hr Hb Hl. rewrite bundle_path_Join, filelist_path_Join, label_path_Join, repo_path_Join.
  split_and!; parse_pieces; unfold archiveComponents; repeat (case_decide; try done).
  rewrite isBundleFileIndexRe_index, !orb_true_r. done.
Qed.

Lemma archive_path_roundtrip_witness :
  GetArchivePathComponents (fun _ => true) (GetArchivePathToBundleFileList "repo" "1INzQ5TV4vAAfU2PbRFgPfnzEwR" 12)
  = Ok (mkArchivePathComponents "repo" "1INzQ5TV4vAAfU2PbRFgPfnzEwR" "bundle-files-12.yaml" "" "" "" "" "" false).
Proof.
  apply (archive_path_roundtrip (fun _ => true) "repo" "1INzQ5TV4vAAfU2PbRFgPfnzEwR" "label" 12); reflexivity.
Defined.

(** the paths of diamonds, splits and index files of splits parse back too,
    with the final state flagged exactly on the done objects, when the
    diamond and the generation are ksuids. *)
Theorem diamond_path_roundtrip kv repo d s g st sst index :
  no_slash repo -> no_slash d -> no_slash s -> no_slash g -> s <> "" ->
  kv d = true -> kv g = true -> g <> "" -> g <> splitInitialDescriptorFile -> g <> splitFinalDescriptorFile ->
  GetArchivePathComponents kv (GetArchivePathToDiamond repo d st)
    = Ok (mkArchivePathComponents repo ""
            (if decide (st = DiamondInitialized) then diamondInitialDescriptorFile else diamondFinalDescriptorFile)
            "" "" d "" "" (bool_decide (st <> DiamondInitialized))) /\
  GetArchivePathComponents kv (GetArchivePathToSplit repo d s sst)
    = Ok (mkArchivePathComponents repo ""
            (if decide (sst = SplitRunning) then splitInitialDescriptorFile else splitFinalDescriptorFile)
            "" "" d s "" (bool_decide (sst <> SplitRunning))) /\
  GetArchivePathComponents kv (GetArchivePathToSplitFileList repo d s g index)
    = Ok (mkArchivePathComponents repo ""
            (bundleFilesIndexPrefix +:+ Strconv.FormatUint index +:+ ".yaml") "" "" d s g false).
Proof.
  intros Hr Hd Hs Hg Hs0 Hkd Hkg Hg0 Hg1 Hg2.
  rewrite diamond_path_Join, split_path_Join, splitlist_path_Join.
  split_and!; parse_pieces; unfold archiveComponents; cbn -[decide]; rewrite Hkd; cbn -[decide].
  - destruct (decide (st = DiamondInitialized)) as [->|Hst]; [reflexivity|].
    by rewrite (bool_decide_eq_true_2 (st <> _)).
  - rewrite (decide_False (P := s = "")) by done.
    destruct (decide (sst = SplitRunning)) as [->|Hst]; [reflexivity|].
    by rewrite (bool_decide_eq_true_2 (sst <> _)).
  - rewrite (decide_False (P := s = "")), !bool_decide_eq_false_2 by done. cbn -[decide].
    rewrite Hkg. cbn -[decide]. by rewrite isBundleFileIndexRe_index.
Qed.

Lemma diamond_path_roundtrip_witness :
  GetArchivePathComponents (fun s => String.length s =? 27) (GetArchivePathToSplitFileList "r" "1INzQ5TV4vAAfU2PbRFgPfnzEwR" "s"
    "1INzQ5TV4vAAfU2PbRFgPfnzEwS" 3)
  = Ok (mkArchivePathComponents "r" "" "bundle-files-3.yaml" "" "" "1INzQ5TV4vAAfU2PbRFgPfnzEwR" "s"
          "1INzQ5TV4vAAfU2PbRFgPfnzEwS" false).
Proof.
  apply (diamond_path_roundtrip (fun s => String.length s =? 27) "r" "1INzQ5TV4vAAfU2PbRFgPfnzEwR" "s"
           "1INzQ5TV4vAAfU2PbRFgPfnzEwS" DiamondDone SplitDone 3); done.
Defined.

(** ** Consumable paths *)

Definition dash : Ascii.ascii := "-"%char.

Lemma strip_dash_None t r : contains_char dash t = true -> contains_char dash r = false -> strip t r = None.
Proof.
  intros Ht Hr. destruct (strip t r) as [x|] eqn:E; [|done].
  apply strip_Some in E as ->. rewrite contains_char_app, Ht in Hr. done.
Qed.

Lemma split_last_no_dash t s :
  contains_char dash s = false -> split_last (String dash t) s = None.
Proof.
  induction s as [|c s IH]; cbn [split_last contains_char]; [done|].
  intros [Hc Hs]%orb_false_iff. rewrite bool_decide_eq_false in Hc. rewrite IH by done.
  simpl. by rewrite decide_False.
Qed.

Lemma split_last_app sep a r x y :
  split_last sep r = Some (x, y) -> split_last sep (a +:+ r) = Some (a +:+ x, y).
Proof.
  intros H. induction a as [|c a IH]; [done|]. rewrite !append_cons. cbn [split_last]. by rewrite IH.
Qed.

Lemma split_last_cons_None sep c s :
  split_last sep s = None -> strip sep (String c s) = None -> split_last sep (String c s) = None.
Proof. cbn [split_last]. by intros -> ->. Qed.

Lemma split_last_sep b :
  contains_char dash b = false -> split_last "-bundle-files-" ("-bundle-files-" +:+ b) = Some ("", b).
Proof.
  intros Hb. rewrite append_cons. cbn [split_last].
  change (String "-" ("bundle-files-" +:+ b)) with ("-bundle-files-" +:+ b). rewrite strip_app.
  enough (split_last "-bundle-files-" ("bundle-files-" +:+ b) = None) as -> by done.
  rewrite !append_cons, append_nil.
  do 12 (apply split_last_cons_None; [|reflexivity]). apply split_last_cons_None.
  - by apply split_last_no_dash.
  - destruct (strip "-bundle-files-" (String "-" b)) as [x|] eqn:E; [|done].
    apply strip_Some in E. rewrite append_cons in E. injection E as ->.
    by rewrite contains_char_app in Hb.
Qed.

Lemma no_newline_app a b : no_newline (a +:+ b) = no_newline a && no_newline b.
Proof. unfold no_newline. by rewrite contains_char_app, negb_orb. Qed.

Lemma metaRe_path m : no_newline m = true -> metaRe (".datamon/" +:+ m +:+ ".yaml") = Some m.
Proof.
  intros Hm. unfold metaRe. rewrite strip_app. simpl. rewrite strip_suffix_app. simpl. by rewrite Hm.
Qed.

Lemma flRe_path id n :
  no_newline id = true -> flRe (id +:+ "-bundle-files-" +:+ Strconv.FormatUint n) = Some (id, Strconv.FormatUint n).
Proof.
  intros Hid. unfold flRe.
  rewrite (split_last_app _ id _ "" (Strconv.FormatUint n)).
  - simpl. rewrite string_app_nil_r, Hid. unfold no_newline. by rewrite FormatUint_no_char.
  - apply split_last_sep. by apply FormatUint_no_char.
Qed.

Lemma no_newline_index n : no_newline ("-bundle-files-" +:+ Strconv.FormatUint n) = true.
Proof. rewrite no_newline_app. unfold no_newline at 2. by rewrite FormatUint_no_char. Qed.

Lemma filelist_meta id n :
  no_newline id = true ->
  GetConsumableStorePathMetadata (".datamon/" +:+ id +:+ "-bundle-files-" +:+ Strconv.FormatUint n +:+ ".yaml")
  = (index ← Strconv.Atoi (Strconv.FormatUint n);
     mret (mkConsumableStorePathMetadata ConsumableStorePathTypeFileList id (Int.uint64 index))).
Proof.
  intros Hid. unfold GetConsumableStorePathMetadata.
  replace (".datamon/" +:+ id +:+ "-bundle-files-" +:+ Strconv.FormatUint n +:+ ".yaml")
    with (".datamon/" +:+ (id +:+ "-bundle-files-" +:+ Strconv.FormatUint n) +:+ ".yaml")
    by by rewrite !string_app_assoc.
  rewrite metaRe_path.
  - by rewrite flRe_path.
  - by rewrite no_newline_app, Hid, no_newline_index.
Qed.

Lemma Atoi_FormatUint_overflow n :
  (Strconv.max_int64 < Z.of_N n)%Z -> exists e, Strconv.Atoi (Strconv.FormatUint n) = Err e.
Proof.
  intros Hn. unfold Strconv.Atoi.
  destruct (Strconv.FormatUint n) as [|c r] eqn:E; [by apply Strconv.FormatUint_nonempty in E|].
  pose proof (Strconv.FormatUint_digits n) as Hd. rewrite E in Hd. simpl in Hd.
  apply andb_true_iff in Hd as [Hd _].
  rewrite !decide_False; [|by intros ->..].
  rewrite <- E, Strconv.ParseDigits_FormatUint.
  rewrite decide_False by lia. eauto.
Qed.

(** the consumable paths are inverse to their parser. The path of a
    descriptor is built and parsed back whenever the bundle identifier has no
    newline and is not itself of the form of a file list; the path of a file
    list is built and parsed back for every index that fits an int. *)
Theorem consumable_path_roundtrip id n :
  no_newline id = true ->
  (flRe id = None ->
     exists p, GetConsumablePathToBundle id = Ok p /\
       GetConsumableStorePathMetadata p = Ok (mkConsumableStorePathMetadata ConsumableStorePathTypeDescriptor id 0)) /\
  ((Z.of_N n <= Strconv.max_int64)%Z ->
     exists p, GetConsumablePathToBundleFileList id n = Ok p /\
       GetConsumableStorePathMetadata p
       = Ok (mkConsumableStorePathMetadata ConsumableStorePathTypeFileList id (Z.of_N n))).
Proof.
  intros Hid. split.
  - intros Hfl. unfold GetConsumablePathToBundle.
    assert (H : GetConsumableStorePathMetadata (".datamon/" +:+ id +:+ ".yaml")
                = Ok (mkConsumableStorePathMetadata ConsumableStorePathTypeDescriptor id 0)).
    { unfold GetConsumableStorePathMetadata. by rewrite metaRe_path, Hfl. }
    rewrite H. simpl. repeat (case_decide; [naive_solver|]). eauto.
  - intros Hn. unfold GetConsumablePathToBundleFileList.
    pose proof (filelist_meta id n Hid) as H. rewrite Strconv.Atoi_FormatUint in H by done. simpl in H.
    rewrite Int.uint64_small in H by (unfold Strconv.max_int64 in Hn; lia).
    rewrite H. simpl. repeat (case_decide; [naive_solver|]). eauto.
Qed.

Lemma consumable_path_roundtrip_witness :
  exists p, GetConsumablePathToBundleFileList "1INzQ5TV4vAAfU2PbRFgPfnzEwR" 7 = Ok p /\
    GetConsumableStorePathMetadata p
    = Ok (mkConsumableStorePathMetadata ConsumableStorePathTypeFileList "1INzQ5TV4vAAfU2PbRFgPfnzEwR" 7).
Proof. apply (consumable_path_roundtrip "1INzQ5TV4vAAfU2PbRFgPfnzEwR" 7); [reflexivity|done]. Defined.

(** The self-check of the builders rejects what would not parse back: an
    index beyond the range of int, and a bundle identifier that already has
    the form of a file list, make the builder panic. *)
Theorem consumable_path_panics id n :
  no_newline id = true ->
  ((Strconv.max_int64 < Z.of_N n)%Z ->
     GetConsumablePathToBundleFileList id n = Panic "path not valid against inverse function") /\
  (forall id', id = id' +:+ "-bundle-files-" +:+ Strconv.FormatUint n -> (Z.of_N n <= Strconv.max_int64)%Z ->
     GetConsumablePathToBundle id = Panic "unexpected type from inverse function").
Proof.
  intros Hid. split.
  - intros Hn. unfold GetConsumablePathToBundleFileList.
    destruct (Atoi_FormatUint_overflow n Hn) as [e He]. by rewrite (filelist_meta id n Hid), He.
  - intros id' -> Hn. rewrite no_newline_app in Hid. apply andb_true_iff in Hid as [Hid _].
    unfold GetConsumablePathToBundle. rewrite !string_app_assoc.
    rewrite (filelist_meta id' n Hid), Strconv.Atoi_FormatUint by done. done.
Qed.

Lemma consumable_path_panics_witness :
  GetConsumablePathToBundleFileList "b" (2 ^ 63) = Panic "path not valid against inverse function".
Proof. apply (consumable_path_panics "b" (2 ^ 63)); reflexivity. Defined.

(** ** Generated files and chunks of the reverse index *)

Lemma special_dir_joined dir l : special_dir dir (dir +:+ "/" +:+ l) = true.
Proof.
  unfold special_dir. cbn [existsb]. rewrite append_nil, strip_app.
  change (HasPrefix ("/" +:+ l) "/") with (HasPrefix ("/" +:+ l) "/").
  by rewrite HasPrefix_app, orb_true_r.
Qed.

(** Closes [Forall Path.plain] on lists of literals and known components. *)

Ltac solve_plain :=
  repeat first [apply Forall_nil_2 | apply Forall_cons_2]; first [assumption | apply _ | by vm_compute].

Lemma conflict_path_Join s cs :
  Path.plain s -> cs <> [] -> Forall Path.plain cs ->
  GenerateConflictPath s (Strings.Join cs) = Strings.Join (".conflicts" :: s :: cs) /\
  GenerateCheckpointPath s (Strings.Join cs) = Strings.Join (".checkpoints" :: s :: cs).
Proof.
  intros Hs Hne Hcs. split.
  - apply (Path.Join_plain [".conflicts"; s]); try done. solve_plain.
  - apply (Path.Join_plain [".checkpoints"; s]); try done. solve_plain.
Qed.

Lemma Join_inj_plain a b : a <> [] -> b <> [] -> Forall Path.plain a -> Forall Path.plain b ->
  Strings.Join a = Strings.Join b -> a = b.
Proof.
  intros Ha Hb Hpa Hpb H. apply (f_equal Split) in H.
  assert (forall l, Forall Path.plain l -> Forall no_slash l) as Hns.
  { intros l Hl. eapply Forall_impl; [exact Hl|]. by intros ? (?&?&?&?). }
  rewrite !Path.Split_Join in H by auto. done.
Qed.

(** the locations of conflicting and checkpointed files are generated
    paths, which an upload skips, and distinct pairs of a split and a file
    have distinct locations, so no two clobbered versions collide. *)
Theorem conflict_paths_generated_and_distinct s t a b :
  Path.plain s -> Path.plain t -> a <> [] -> b <> [] -> Forall Path.plain a -> Forall Path.plain b ->
  IsGeneratedFile (GenerateConflictPath s (Strings.Join a)) = true /\
  IsGeneratedFile (GenerateCheckpointPath s (Strings.Join a)) = true /\
  (GenerateConflictPath s (Strings.Join a) = GenerateConflictPath t (Strings.Join b) -> s = t /\ a = b) /\
  (GenerateCheckpointPath s (Strings.Join a) = GenerateCheckpointPath t (Strings.Join b) -> s = t /\ a = b) /\
  GenerateConflictPath s (Strings.Join a) <> GenerateCheckpointPath t (Strings.Join b).
Proof.
  intros Hs Ht Hna Hnb Ha Hb.
  destruct (conflict_path_Join s a Hs Hna Ha) as [-> ->].
  destruct (conflict_path_Join t b Ht Hnb Hb) as [-> ->].
  assert (Hd : Path.plain ".conflicts" /\ Path.plain ".checkpoints") by (split; by vm_compute).
  destruct Hd as [Hd1 Hd2].
  assert (Hinj : forall d e, Path.plain d -> Path.plain e ->
                 Strings.Join (d :: s :: a) = Strings.Join (e :: t :: b) -> d :: s :: a = e :: t :: b).
  { intros d e Hd He. apply Join_inj_plain; try done; solve_plain. }
  split_and!.
  - unfold IsGeneratedFile. rewrite Path.Join_cons2, special_dir_joined, orb_true_r. done.
  - unfold IsGeneratedFile. rewrite Path.Join_cons2, special_dir_joined, orb_true_r. done.
  - intros H%Hinj; [|done..]. by simplify_eq.
  - intros H%Hinj; [|done..]. by simplify_eq.
  - intros H%Hinj; done.
Qed.

Lemma conflict_paths_generated_and_distinct_witness :
  IsGeneratedFile (GenerateConflictPath "split-1" (Strings.Join ["dir"; "file"])) = true.
Proof.
  apply (conflict_paths_generated_and_distinct "split-1" "split-2" ["dir"; "file"] ["x"]); try done; solve_plain.
Defined.

Lemma SkipSpace_digits n r : SkipSpace (Strconv.FormatUint n +:+ r) = Strconv.FormatUint n +:+ r.
Proof.
  destruct (Strconv.FormatUint n) as [|c d] eqn:E; [by apply Strconv.FormatUint_nonempty in E|].
  pose proof (Strconv.FormatUint_digits n) as Hd. rewrite E in Hd. simpl in Hd.
  apply andb_true_iff in Hd as [Hd _]. rewrite append_cons. simpl.
  destruct (blank c) eqn:Hb; [|done]. exfalso. unfold blank in Hb.
  rewrite !orb_true_iff, !bool_decide_eq_true in Hb. naive_solver.
Qed.

Lemma chunk_name_plain n : Path.plain (indexFilePrefix +:+ Strconv.FormatUint n +:+ ".yaml").
Proof.
  unfold Path.plain. split_and!; try (unfold indexFilePrefix; rewrite !append_cons; discriminate).
  unfold no_slash. rewrite !contains_char_app, FormatUint_no_char by done. done.
Qed.

(** a chunk of the reverse index is found again from its file name, for
    every chunk number of 64 bits. *)
Theorem ReverseIndexChunk_roundtrip n :
  (n <= max_uint64)%N -> ReverseIndexChunk (ReverseIndexFile n) = Ok n.
Proof.
  intros Hn. unfold ReverseIndexChunk, ReverseIndexFile.
  pose proof (chunk_name_plain n) as Hp.
  pose proof (Path.Join_plain [reverseIndexFile] [indexFilePrefix +:+ Strconv.FormatUint n +:+ ".yaml"]) as HJ.
  cbn [app Strings.Join] in HJ. rewrite HJ by (try done; solve_plain).
  pose proof (Path.Base_last [reverseIndexFile] _ ltac:(repeat constructor) Hp) as HB.
  cbn [app Strings.Join] in HB. rewrite HB.
  unfold indexFilePrefix. rewrite strip_app, SkipSpace_digits.
  change ".yaml" with ("." +:+ "yaml") at 1. rewrite span_digits_FormatUint.
  rewrite Strconv.ParseDigits_FormatUint, decide_True by done. done.
Qed.

Lemma ReverseIndexChunk_roundtrip_witness : ReverseIndexChunk (ReverseIndexFile 42) = Ok 42%N.
Proof. apply ReverseIndexChunk_roundtrip. vm_compute. discriminate. Defined.

End ModelPaths.
