(* ===== verification/Validate.v ===== *)
(** * Validation of descriptors (pkg/model: repo.go, label.go, context.go)

    Names are Go strings: a "for i, c := range name" loop decodes UTF-8 and
    yields byte offsets and runes, while the conversion to a slice of runes is
    indexed by rune number. Both are modelled, since the validators mix them.
    The category tables of package unicode and the address grammar of net/mail
    are the variables of a section. *)

From S2P Require Import Prelude GoLib Model.

Module Utf8.

Definition RuneError : Z := 65533.

Definition code (c : Ascii.ascii) : Z := Z.of_N (N_of_ascii c).

Definition in_range (lo hi : Z) (c : Ascii.ascii) : bool := (lo <=? code c)%Z && (code c <=? hi)%Z.

Definition cont (c : Ascii.ascii) : bool := in_range 128 191 c.

Definition low6 (c : Ascii.ascii) : Z := Z.land (code c) 63.

(** utf8.DecodeRuneInString on a string that starts with [c0]: the rune and
    the rest of the string. An invalid encoding is RuneError, of width 1. *)

Definition DecodeRune (c0 : Ascii.ascii) (s : string) : Z * string :=
  if (code c0 <? 128)%Z then (code c0, s)
  else if in_range 194 223 c0 then
    match s with
    | String c1 s1 =>
        if cont c1 then (Z.lor (Z.shiftl (Z.land (code c0) 31) 6) (low6 c1), s1) else (RuneError, s)
    | _ => (RuneError, s)
    end
  else if in_range 224 239 c0 then
    match s with
    | String c1 (String c2 s2) =>
        let lo := (if (code c0 =? 224)%Z then 160 else 128)%Z in
        let hi := (if (code c0 =? 237)%Z then 159 else 191)%Z in
        if in_range lo hi c1 && cont c2
        then (Z.lor (Z.lor (Z.shiftl (Z.land (code c0) 15) 12) (Z.shiftl (low6 c1) 6)) (low6 c2), s2)
        else (RuneError, s)
    | _ => (RuneError, s)
    end
  else if in_range 240 244 c0 then
    match s with
    | String c1 (String c2 (String c3 s3)) =>
        let lo := (if (code c0 =? 240)%Z then 144 else 128)%Z in
        let hi := (if (code c0 =? 244)%Z then 143 else 191)%Z in
        if in_range lo hi c1 && cont c2 && cont c3
        then (Z.lor (Z.lor (Z.shiftl (Z.land (code c0) 7) 18) (Z.shiftl (low6 c1) 12))
                    (Z.lor (Z.shiftl (low6 c2) 6) (low6 c3)), s3)
        else (RuneError, s)
    | _ => (RuneError, s)
    end
  else (RuneError, s).

(** The pairs of "for i, c := range s"; the fuel is the length of the string,
    which every decoded rune shortens. *)

Fixpoint range_fuel (fuel : nat) (i : nat) (s : string) : list (nat * Z) :=
  match fuel, s with
  | S f, String c0 s0 =>
      let '(r, rest) := DecodeRune c0 s0 in
      (i, r) :: range_fuel f (i + (String.length s - String.length rest)) rest
  | _, _ => []
  end.

Definition range (s : string) : list (nat * Z) := range_fuel (String.length s) 0 s.

(** The conversion to a slice of runes. *)

Definition runes (s : string) : list Z := snd <$> range s.

(** Go's string(r) of a rune. *)

Definition EncodeRune (r : Z) : string :=
  let ch z := ascii_of_N (Z.to_N z) in
  let r := if decide ((0 <= r <= 1114111)%Z /\ ~ (55296 <= r <= 57343)%Z) then r else RuneError in
  if (r <? 128)%Z then String (ch r) ""
  else if (r <? 2048)%Z then String (ch (192 + Z.shiftr r 6)%Z) (String (ch (128 + Z.land r 63)%Z) "")
  else if (r <? 65536)%Z
  then String (ch (224 + Z.shiftr r 12)%Z)
         (String (ch (128 + Z.land (Z.shiftr r 6) 63)%Z) (String (ch (128 + Z.land r 63)%Z) ""))
  else String (ch (240 + Z.shiftr r 18)%Z)
         (String (ch (128 + Z.land (Z.shiftr r 12) 63)%Z)
            (String (ch (128 + Z.land (Z.shiftr r 6) 63)%Z) (String (ch (128 + Z.land r 63)%Z) ""))).

Fixpoint ascii_only (s : string) : bool :=
  match s with
  | EmptyString => true
  | String c s' => (code c <? 128)%Z && ascii_only s'
  end.

Fixpoint codes (s : string) : list Z :=
  match s with
  | EmptyString => []
  | String c s' => code c :: codes s'
  end.

(** On ASCII strings the two numberings agree. *)

Lemma range_fuel_ascii f i s :
  String.length s <= f -> ascii_only s = true ->
  range_fuel f i s = zip (seq i (String.length s)) (codes s).
Proof.
  revert i s. induction f as [|f IH]; intros i [|c s]; simpl; intros Hf Hs; try done; try lia.
  apply andb_true_iff in Hs as [Hc Hs]. unfold DecodeRune. rewrite Hc.
  f_equal. rewrite IH by (done || lia). f_equal. f_equal.
  destruct (String.length s); lia.
Qed.

Lemma range_ascii s : ascii_only s = true -> range s = zip (seq 0 (String.length s)) (codes s).
Proof. intros. by apply range_fuel_ascii. Qed.

Lemma length_codes s : length (codes s) = String.length s.
Proof. induction s; simpl; auto. Qed.

Lemma runes_ascii s : ascii_only s = true -> runes s = codes s.
Proof.
  intros H. unfold runes. rewrite range_ascii by done. apply snd_zip.
  rewrite length_seq, length_codes. lia.
Qed.

(** Bytes of codes above 127 stay among themselves. *)

Lemma code_bound c : (0 <= code c < 256)%Z.
Proof. unfold code. pose proof (N_ascii_bounded c). lia. Qed.

Lemma code_inj c d : code c = code d -> c = d.
Proof. unfold code. intros H. apply (f_equal Z.to_N) in H. rewrite !N2Z.id in H. by rewrite <- (ascii_N_embedding c), <- (ascii_N_embedding d), H. Qed.

Lemma lor_ge k a b : (0 <= k)%Z -> (2 ^ k <= a)%Z -> (0 <= b)%Z -> (2 ^ k <= Z.lor a b)%Z.
Proof.
  intros Hk Ha Hb. assert (0 < 2 ^ k)%Z by (by apply Z.pow_pos_nonneg). apply Z.log2_le_pow2; [|rewrite Z.log2_lor by lia; apply Z.max_le_iff; left; apply Z.log2_le_pow2; lia].
  assert (0 <= Z.lor a b)%Z by (by apply Z.lor_nonneg; lia). assert (Z.lor a b <> 0)%Z by (intros [? _]%Z.lor_eq_0_iff; lia). lia.
Qed.

Ltac each_byte c := destruct c as [[] [] [] [] [] [] [] []]; vm_compute; first [by intros|by left|by right].

Lemma lead2 c : in_range 194 223 c = true -> (2 <= Z.land (code c) 31)%Z.
Proof. each_byte c. Qed.

Lemma lead3 c : in_range 224 239 c = true -> code c = 224%Z \/ (1 <= Z.land (code c) 15)%Z.
Proof. each_byte c. Qed.

Lemma lead4 c : in_range 240 244 c = true -> code c = 240%Z \/ (1 <= Z.land (code c) 7)%Z.
Proof. each_byte c. Qed.

Lemma low6_ge lo hi c : (128 <= lo)%Z -> (hi <= 191)%Z -> in_range lo hi c = true -> (0 <= low6 c /\ lo - 128 <= low6 c)%Z.
Proof.
  unfold in_range, low6. intros ?? [?%Z.leb_le ?%Z.leb_le]%andb_true_iff. change 63%Z with (Z.ones 6).
  rewrite Z.land_ones by lia. change (2 ^ 6)%Z with 64%Z. assert (code c = 128 + (code c - 128))%Z as E by lia.
  rewrite E, Z.add_mod, Z.mod_small with (a := (_ - _)%Z) by lia. change (128 mod 64)%Z with 0%Z. rewrite Z.add_0_l, Z.mod_small; lia.
Qed.

Fixpoint high (s : string) : bool :=
  match s with
  | EmptyString => true
  | String c s' => (128 <=? code c)%Z && high s'
  end.

Lemma decode_high c0 s r rest :
  (128 <= code c0)%Z -> DecodeRune c0 s = (r, rest) -> (128 <= r)%Z /\ exists p, s = p +:+ rest /\ high p = true.
Proof.
  intros Hc. unfold DecodeRune. destruct (Z.ltb_spec (code c0) 128) as [|_]; [lia|].
  assert (forall r', r' = RuneError -> (r', s) = (r, rest) -> (128 <= r)%Z /\ exists p, s = p +:+ rest /\ high p = true) as Herr
    by (intros r' -> [= <- <-]; split; [unfold RuneError; lia|by exists ""]).
  assert (forall c lo hi, (128 <= lo)%Z -> in_range lo hi c = true -> (128 <=? code c)%Z = true) as Hhi
    by (unfold in_range; intros c lo hi ? [?%Z.leb_le _]%andb_true_iff; apply Z.leb_le; lia).
  destruct (in_range 194 223 c0) eqn:E2; [|destruct (in_range 224 239 c0) eqn:E3; [|destruct (in_range 240 244 c0) eqn:E4; [|by apply Herr]]].
  - destruct s as [|c1 s1]; [by apply Herr|]. destruct (cont c1) eqn:C1; [|by apply Herr]. intros [= <- <-].
    split; [|exists (String c1 ""); simpl; by rewrite (Hhi c1 128%Z 191%Z)].
    apply (lor_ge 7); [lia| |apply (low6_ge 128 191 c1); done || lia]. pose proof (lead2 _ E2). rewrite Z.shiftl_mul_pow2 by lia. change (2 ^ 7)%Z with 128%Z. change (2 ^ 6)%Z with 64%Z. lia.
  - destruct s as [|c1 [|c2 s2]]; [by apply Herr..|].
    set (lo := if (code c0 =? 224)%Z then 160%Z else 128%Z). set (hi := if (code c0 =? 237)%Z then 159%Z else 191%Z).
    destruct (in_range lo hi c1 && cont c2) eqn:C; [|by apply Herr]. apply andb_true_iff in C as [C1 C2]. intros [= <- <-].
    assert (128 <= lo)%Z by (unfold lo; case_match; lia). assert (hi <= 191)%Z by (unfold hi; case_match; lia).
    split; [|exists (String c1 (String c2 "")); simpl; by rewrite (Hhi c1 lo hi), (Hhi c2 128%Z 191%Z)].
    destruct (low6_ge lo hi c1) as [L0 L1]; [done..|]. destruct (low6_ge 128 191 c2) as [L2 _]; [lia..|done|].
    apply (lor_ge 7); [lia| |done]. rewrite !Z.shiftl_mul_pow2 by lia. change (2 ^ 7)%Z with 128%Z. change (2 ^ 12)%Z with 4096%Z. change (2 ^ 6)%Z with 64%Z.
    destruct (lead3 _ E3) as [E|E]; [rewrite Z.lor_comm|]; apply (lor_ge 7); try lia.
    + unfold lo in L1. rewrite E in L1. simpl in L1. lia.
    + rewrite E. by vm_compute.
  - destruct s as [|c1 [|c2 [|c3 s3]]]; [by apply Herr..|].
    set (lo := if (code c0 =? 240)%Z then 144%Z else 128%Z). set (hi := if (code c0 =? 244)%Z then 143%Z else 191%Z).
    destruct (in_range lo hi c1 && cont c2 && cont c3) eqn:C; [|by apply Herr]. apply andb_true_iff in C as [[C1 C2]%andb_true_iff C3]. intros [= <- <-].
    assert (128 <= lo)%Z by (unfold lo; case_match; lia). assert (hi <= 191)%Z by (unfold hi; case_match; lia).
    split; [|exists (String c1 (String c2 (String c3 ""))); simpl; by rewrite (Hhi c1 lo hi), (Hhi c2 128%Z 191%Z), (Hhi c3 128%Z 191%Z)].
    destruct (low6_ge lo hi c1) as [L0 L1]; [done..|]. destruct (low6_ge 128 191 c2) as [L2 _]; [lia..|done|]. destruct (low6_ge 128 191 c3) as [L3 _]; [lia..|done|].
    apply (lor_ge 7); [lia| |apply Z.lor_nonneg; rewrite Z.shiftl_nonneg; lia]. rewrite !Z.shiftl_mul_pow2 by lia. change (2 ^ 7)%Z with 128%Z. change (2 ^ 12)%Z with 4096%Z. change (2 ^ 18)%Z with 262144%Z.
    destruct (lead4 _ E4) as [E|E]; [rewrite Z.lor_comm|]; apply (lor_ge 7); try lia.
    + unfold lo in L1. rewrite E in L1. simpl in L1. lia.
    + rewrite E. by vm_compute.
Qed.

Lemma high_not c s : (code c < 128)%Z -> high s = true -> Strings.contains_char c s = false.
Proof.
  intros Hc. induction s as [|d s IH]; simpl; [done|]. intros [Hd%Z.leb_le Hs]%andb_true_iff. rewrite IH by done.
  rewrite bool_decide_eq_false_2 by (intros ->; lia). done.
Qed.

Lemma range_fuel_char f i s c :
  String.length s <= f -> (code c < 128)%Z -> code c ∈ (range_fuel f i s).*2 <-> Strings.contains_char c s = true.
Proof.
  intros Hl Hc. revert i s Hl. induction f as [|f IH]; intros i [|c0 s]; simpl; intros Hl; try (split; [by intros ?%elem_of_nil|done]); try lia.
  destruct (DecodeRune c0 s) as [r rest] eqn:E. cbn [fmap list_fmap snd]. rewrite elem_of_cons.
  destruct (Z.ltb_spec (code c0) 128) as [H0|H0].
  - unfold DecodeRune in E. rewrite (proj2 (Z.ltb_lt _ _) H0) in E. injection E as <- <-. rewrite IH by lia.
    rewrite orb_true_iff, bool_decide_eq_true. split; (intros [H|H]; [left|by right]); [by apply code_inj|by subst].
  - destruct (decode_high _ _ _ _ H0 E) as (Hr & p & -> & Hp). rewrite Strings.string_app_length in Hl. rewrite IH by lia.
    rewrite Strings.contains_char_app, (high_not c p), orb_false_l, bool_decide_eq_false_2 by (done || intros ->; lia).
    split; [intros [H|H]; [lia|done]|by right].
Qed.

(** The ASCII characters of a string are its runes below 128. *)

Lemma runes_char s c : (code c < 128)%Z -> code c ∈ runes s <-> Strings.contains_char c s = true.
Proof. by apply range_fuel_char. Qed.

Lemma EncodeRune_ascii c : (code c < 128)%Z -> EncodeRune (code c) = String c "".
Proof. each_byte c. Qed.

End Utf8.

Module Validate.
Import Model.

Section validate.
Variables IsDigit IsLetter IsHyphen IsPc : Z -> bool.

(** mail.ParseAddress: the error, if any. *)

Variable ParseAddress : string -> option error.

(** The characters the two validators let through. *)

Definition repo_char (c : Z) : bool := IsDigit c || IsLetter c || IsHyphen c.

Definition label_char (c : Z) : bool := IsDigit c || IsLetter c || IsHyphen c || IsPc c.

(** The loop over the name, with the rune the error message looks up. *)

Fixpoint check_name (what name : string) (ok : Z -> bool) (l : list (nat * Z)) : res unit :=
  match l with
  | [] => Ok tt
  | (i, c) :: l' =>
      if negb (ok c) then
        match Utf8.runes name !! i with
        | Some r => Err (ErrMsg ("invalid name: " +:+ what +:+ " name:" +:+ name +:+
                                 " contains unsupported character " +:+ Utf8.EncodeRune r))
        | None => Panic "index out of range"
        end
      else check_name what name ok l'
  end.

Definition ValidateRepo (repo : RepoDescriptor) : res unit :=
  if decide (rd_Name repo = "") then Err (ErrMsg "empty field: repo name is empty")
  else if decide (rd_Description repo = "") then Err (ErrMsg "empty field: repo description is empty")
  else check_name "repo" (rd_Name repo) repo_char (Utf8.range (rd_Name repo)).

Fixpoint check_contributors (cs : list Contributor) : res unit :=
  match cs with
  | [] => Ok tt
  | c :: cs' =>
      if decide (c_Name c = "") then Err (ErrMsg "name for contributor cannot be blank")
      else if decide (c_Email c = "") then Err (ErrMsg "email for contributor cannot be blank")
      else match ParseAddress (c_Email c) with
           | Some e => Err (ErrWrap ("email validation failed for :" +:+ c_Email c) e)
           | None => check_contributors cs'
           end
  end.

Definition ValidateLabel (label : LabelDescriptor) : res unit :=
  if decide (ld_Name label = "") then Err (ErrMsg "empty field: label name is empty")
  else if decide (ld_BundleID label = "") then Err (ErrMsg "empty field: label bundleID is empty")
  else
    _ ← check_name "label" (ld_Name label) label_char (Utf8.range (ld_Name label));
    check_contributors (ld_Contributors label).

Definition contributor_ok (c : Contributor) : Prop :=
  c_Name c <> "" /\ c_Email c <> "" /\ ParseAddress (c_Email c) = None.

Lemma check_name_Ok what name ok l :
  check_name what name ok l = Ok tt <-> Forall (fun p => ok p.2 = true) l.
Proof.
  induction l as [|[i c] l IH]; simpl; [split; auto|].
  rewrite Forall_cons. simpl. destruct (ok c); simpl; [naive_solver|].
  split; [|naive_solver]. by destruct (Utf8.runes name !! i).
Qed.

Lemma check_name_Ok_runes what name ok :
  check_name what name ok (Utf8.range name) = Ok tt <-> Forall (fun c => ok c = true) (Utf8.runes name).
Proof. rewrite check_name_Ok. unfold Utf8.runes. by rewrite Forall_fmap. Qed.

Lemma check_contributors_Ok cs :
  check_contributors cs = Ok tt <-> Forall contributor_ok cs.
Proof.
  unfold contributor_ok. induction cs as [|c cs IH]; simpl; [split; auto|].
  rewrite Forall_cons. do 2 (case_decide; [split; [done|by intros [(? & ? & ?) _]]|]).
  destruct (ParseAddress (c_Email c)); [split; [done|by intros [(? & ? & ?) _]]|]. cbn. rewrite IH. tauto.
Qed.

(** A name of ASCII characters never makes the message panic: the offset of a
    rune is then its number. *)

Lemma check_name_suffix_no_panic what name ok l p :
  (forall i c, (i, c) ∈ l -> is_Some (Utf8.runes name !! i)) -> check_name what name ok l <> Panic p.
Proof.
  induction l as [|[i c] l IH]; simpl; intros Hl; [done|].
  destruct (ok c); simpl; [apply IH; intros j d Hj; apply (Hl j d); set_solver|].
  destruct (Hl i c) as [r ->]; [set_solver|done].
Qed.

Lemma check_name_ascii_no_panic what name ok p :
  Utf8.ascii_only name = true -> check_name what name ok (Utf8.range name) <> Panic p.
Proof.
  intros Ha. apply check_name_suffix_no_panic. intros i c Hi.
  rewrite Utf8.range_ascii in Hi by done. apply elem_of_zip_l in Hi.
  rewrite elem_of_seq in Hi. apply lookup_lt_is_Some. rewrite Utf8.runes_ascii, Utf8.length_codes by done. lia.
Qed.

(** ValidateRepo accepts a repository exactly when name and description
    are not empty and every rune of the name is a digit, a letter or a hyphen;
    on a name of ASCII characters every other outcome is an error, never a
    panic. *)
Theorem ValidateRepo_correct repo :
  (ValidateRepo repo = Ok tt <->
     rd_Name repo <> "" /\ rd_Description repo <> "" /\
     Forall (fun c => repo_char c = true) (Utf8.runes (rd_Name repo))) /\
  (Utf8.ascii_only (rd_Name repo) = true -> forall p, ValidateRepo repo <> Panic p).
Proof.
  unfold ValidateRepo. split.
  - repeat case_decide; try naive_solver. rewrite check_name_Ok_runes. naive_solver.
  - intros Ha p. repeat case_decide; try done. by apply check_name_ascii_no_panic.
Qed.

(** ValidateLabel accepts a label exactly when name and bundle are set,
    every rune of the name is a digit, a letter, a hyphen or a connector, and
    every contributor has a name and an email that parses. *)
Theorem ValidateLabel_correct label :
  (ValidateLabel label = Ok tt <->
     ld_Name label <> "" /\ ld_BundleID label <> "" /\
     Forall (fun c => label_char c = true) (Utf8.runes (ld_Name label)) /\
     Forall contributor_ok (ld_Contributors label)) /\
  (Utf8.ascii_only (ld_Name label) = true -> forall p, ValidateLabel label <> Panic p).
Proof.
  unfold ValidateLabel. split.
  - repeat case_decide; try naive_solver. rewrite <- check_contributors_Ok.
    rewrite <- (check_name_Ok_runes "label").
    unfold mbind, res_bind. destruct (check_name _ _ _ _) as [[]| |]; naive_solver.
  - intros Ha p. repeat case_decide; try done. unfold mbind, res_bind.
    destruct (check_name _ _ _ _) as [[]| |] eqn:E; try done.
    + clear. induction (ld_Contributors label) as [|c cs IH]; simpl; [done|].
      repeat case_decide; try done. by destruct (ParseAddress _).
    + by apply check_name_ascii_no_panic in E.
Qed.

(** A two-byte letter (U+00E9) followed by a character that is refused: the byte
    offset 2 of the refused character is not the number of a rune. *)

Definition accented_name : string := String "195" (String "169" "/").

(** a repository or a label whose name has a multi-byte letter before a
    refused character makes the validator panic instead of returning an error:
    the message indexes the slice of runes with a byte offset. *)
Theorem Validate_multibyte_panic repo label :
  repo_char 233 = true -> label_char 233 = true -> repo_char 47 = false -> label_char 47 = false ->
  rd_Name repo = accented_name -> rd_Description repo <> "" ->
  ld_Name label = accented_name -> ld_BundleID label <> "" ->
  ValidateRepo repo = Panic "index out of range" /\ ValidateLabel label = Panic "index out of range".
Proof.
  intros Hr Hl Hr' Hl' En Hd En' Hb. unfold ValidateRepo, ValidateLabel. rewrite En, En'.
  repeat (rewrite decide_False by done).
  change (Utf8.range accented_name) with [(0, 233%Z); (2, 47%Z)].
  cbn [check_name]. rewrite Hr, Hl, Hr', Hl'. done.
Qed.

End validate.

Definition ascii_digit (c : Z) : bool := (48 <=? c)%Z && (c <=? 57)%Z.

Definition latin_letter (c : Z) : bool :=
  ((97 <=? c)%Z && (c <=? 122)%Z) || ((65 <=? c)%Z && (c <=? 90)%Z) || ((192 <=? c)%Z && (c <=? 255)%Z).

Lemma ValidateRepo_correct_witness :
  ValidateRepo ascii_digit latin_letter (fun c => (c =? 45)%Z)
    (mkRepoDescriptor "my-repo" "d" Time.zero (mkContributor "n" "e")) = Ok tt.
Proof.
  refine (proj2 (proj1 (ValidateRepo_correct _ _ _ (fun _ => false) (fun _ => None) _)) _). split; [done|]. split; [done|].
  vm_compute. repeat constructor.
Defined.

Lemma ValidateLabel_correct_witness :
  ValidateLabel ascii_digit latin_letter (fun c => (c =? 45)%Z) (fun c => (c =? 95)%Z) (fun _ => None)
    (mkLabelDescriptor "my_label" "b" Time.zero [mkContributor "n" "e"]) = Ok tt.
Proof.
  refine (proj2 (proj1 (ValidateLabel_correct _ _ _ _ _ _)) _). split; [done|]. split; [done|].
  split; [vm_compute; repeat constructor|]. by apply Forall_singleton.
Defined.

Lemma Validate_multibyte_panic_witness :
  ValidateRepo ascii_digit latin_letter (fun c => (c =? 45)%Z)
    (mkRepoDescriptor accented_name "d" Time.zero (mkContributor "n" "e")) = Panic "index out of range" /\
  ValidateLabel ascii_digit latin_letter (fun c => (c =? 45)%Z) (fun c => (c =? 95)%Z) (fun _ => None)
    (mkLabelDescriptor accented_name "b" Time.zero []) = Panic "index out of range".
Proof. apply Validate_multibyte_panic; done. Defined.

(** ** Contexts *)

Record Context : Type := mkContext {
  cx_Name : string;
  cx_WAL : string;
  cx_ReadLog : string;
  cx_Blob : string;
  cx_Metadata : string;
  cx_VMetadata : string;
  cx_Version : N
}.

Definition ContextVersion : N := 1.

(** The cases of the switch in order, with the text each adds to the cause. A
    matching case falls through to all the cases after it. *)

Definition context_cases (context : Context) : list (bool * string) :=
  [ (bool_decide (cx_Name context = ""), "Name is empty. ");
    (bool_decide (cx_ReadLog context = ""), "ReadLog is empty. ");
    (bool_decide (cx_Metadata context = ""), "Metadata is empty. ");
    (bool_decide (cx_VMetadata context = ""), "VMetadata is empty. ");
    (bool_decide (cx_Blob context = ""), "Blob is empty. ");
    (bool_decide (cx_WAL context = ""), "WAL is empty. ");
    (bool_decide (ContextVersion < cx_Version context)%N, "Version higher than supported version") ].

Fixpoint fallthrough_switch (cases : list (bool * string)) : string :=
  match cases with
  | [] => ""
  | (true, _) :: _ => foldr (fun c acc => c.2 +:+ acc) "" cases
  | (false, _) :: cases' => fallthrough_switch cases'
  end.

Definition ValidateContext (context : Context) : res unit :=
  let cause := fallthrough_switch (context_cases context) in
  if decide (cause <> "") then Err (ErrMsg ("validation failed, cause = " +:+ cause)) else Ok tt.

Lemma fallthrough_switch_empty cases :
  Forall (fun c => c.2 <> "") cases ->
  fallthrough_switch cases = "" <-> Forall (fun c => c.1 = false) cases.
Proof.
  induction 1 as [|[[|] t] cases Ht _ IH]; cbn [fallthrough_switch].
  - split; auto.
  - rewrite Forall_cons. simpl in *. destruct t; [done|]. rewrite Strings.append_cons. naive_solver.
  - rewrite Forall_cons, IH. naive_solver.
Qed.

(** ValidateContext accepts a context exactly when its name and its five
    stores are set and its version is supported; the switch that falls through
    misses no case. *)
Theorem ValidateContext_correct context :
  (ValidateContext context = Ok tt <->
     cx_Name context <> "" /\ cx_WAL context <> "" /\ cx_ReadLog context <> "" /\ cx_Blob context <> "" /\
     cx_Metadata context <> "" /\ cx_VMetadata context <> "" /\ (cx_Version context <= ContextVersion)%N) /\
  (forall p, ValidateContext context <> Panic p).
Proof.
  unfold ValidateContext. split; [|intros p; by case_decide].
  trans (fallthrough_switch (context_cases context) = "").
  { case_decide; naive_solver. }
  rewrite fallthrough_switch_empty by (unfold context_cases; repeat constructor; done).
  unfold context_cases. rewrite !Forall_cons, Forall_nil. simpl.
  rewrite !bool_decide_eq_false, N.nlt_ge. naive_solver.
Qed.

End Validate.
