(* ===== verification/CafsKeys.v ===== *)
(** * Keys and blobs of the content-addressable file system (pkg/cafs: key.go,
      hasher.go, check_blob.go)

    The blake2b implementation is a third-party package: it is the operation
    [blake2b] of the class [Blake2b], and the only fact used about it is the
    length of its sums. Nothing assumes that it is injective: the theorems that
    need two contents to have different keys say so about those contents. *)

From S2P Require Import Prelude GoLib Errors Storage.

Module CafsKeys.
Import Storage.

(** blake2b.Config as the code fills it: Size is always 64, and the tree
    parameters that vary. *)

Record Tree : Type := mkTree {
  LeafSize : nat;
  NodeOffset : nat;
  NodeDepth : nat;
  IsLastNode : bool
}.

Class Blake2b : Type := blake2b : Tree -> bytes -> bytes.

Definition KeySize : nat := 64.

Class Blake2bLaws `{Blake2b} : Prop := blake2b_length t d : length (blake2b t d) = KeySize.

(** ** key.go *)

(** A key is an array of [KeySize] bytes. *)

Definition Key : Type := bytes.

Definition is_key (k : Key) : Prop := length k = KeySize.

#[export] Instance Key_eq_dec : EqDecision Key.
Proof. unfold Key. apply _. Defined.

#[export] Instance Key_countable : Countable Key.
Proof. unfold Key. apply _. Defined.

Definition BadKeySize : error := ErrMsg "key has invalid size".

(** The copy takes the first bytes of a longer buffer. *)

Definition NewKey (data : bytes) : res Key :=
  let k := take KeySize data in
  if length k =? KeySize then Ok k else Err BadKeySize.

Definition MustNewKey (data : bytes) : res Key :=
  match NewKey data with
  | Ok k => Ok k
  | Err _ => Panic "key has invalid size"
  | Panic p => Panic p
  end.

Definition KeyFromString (kv : string) : res Key :=
  vb ← Hex.DecodeString kv;
  NewKey vb.

Definition Key_String (k : Key) : string := Hex.EncodeToString k.

Definition StringWithPrefix (k : Key) (prefix : string) : string := prefix +:+ Key_String k.

(** ** hasher.go *)

Section hasher.
Context `{HB : Blake2b}.

Definition rootHash (leaves : list Key) (leafSize : nat) : res Key :=
  NewKey (blake2b (mkTree leafSize 0 1 true) (concat leaves)).

Definition RootHash := rootHash.

Definition keyFromBytes (data : bytes) (leafSize : nat) (n : nat) (isLastNode : bool) : res Key :=
  NewKey (blake2b (mkTree leafSize n 0 isLastNode) data).

Definition KeyFromBytes := keyFromBytes.

(** The loop of [leaves]; the fuel is the length of the buffer. *)

Fixpoint leaves_loop (fuel : nat) (data : bytes) : res (list Key) :=
  match data, fuel with
  | [], _ => Ok []
  | _, O => Err BadKeySize
  | _, S f =>
      if length data <? KeySize then Err BadKeySize
      else k ← MustNewKey (take KeySize data);
           ks ← leaves_loop f (drop KeySize data);
           mret (k :: ks)
  end.

Definition leaves (data : bytes) : res (list Key) := leaves_loop (length data) data.

Definition UnverifiedLeafKeys (data : bytes) : res (list Key) :=
  match leaves data with
  | Err _ => Panic "bad key size"
  | r => r
  end.

Definition verificationKey (data : bytes) : res Key :=
  if length data <? KeySize then Err (ErrMsg "provided data is too short to contain a key")
  else MustNewKey (drop (length data - KeySize) data).

Definition verifiedKeys (data : bytes) (leafSize : nat) : res (list Key) :=
  verify ← verificationKey data;
  keys ← leaves (take (length data - KeySize) data);
  checksum ← rootHash keys leafSize;
  if decide (verify <> checksum) then Err (ErrMsg "leaves checksum does not match hash value")
  else mret keys.

Definition LeafKeys (root : Key) (data : bytes) (leafSize : nat) : res (list Key) :=
  verify ← verificationKey data;
  if decide (root <> verify) then Err (ErrMsg "the last hash in the file is not the root key")
  else verifiedKeys data leafSize.

Context {S : Type} `{HS : Store S}.

Definition bytesFromRoot (hash : Key) (prefix : string) : M S bytes := Get (StringWithPrefix hash prefix).

Definition leavesForHash (hash : Key) (leafSize : nat) (prefix : string) : M S (list Key) :=
  b ← bytesFromRoot hash prefix;
  lift (verifiedKeys b leafSize).

Definition LeavesForHash := leavesForHash.

Definition IsRootKey (key : Key) (leafSize : nat) : M S bool :=
  r ← attempt (leavesForHash key leafSize "");
  mret match r with
       | inl keys => 0 <? length keys
       | inr _ => false
       end.

(** ** check_blob.go *)

Definition existsAndValidBlob (pth : string) (data : bytes) : M S (bool * bool) :=
  r ← attempt (GetAttr pth);
  mret match r with
       | inr _ => (false, false)
       | inl attr =>
           if (Size attr =? 0)%Z then (true, true)
           else if (0 <? Size attr)%Z && (0 <? CRC32C attr)%Z
           then (true, negb (Crc32.Checksum data =? CRC32C attr)%Z)
           else (true, false)
       end.

Definition verifyBlob (pth : string) (data : bytes) : M S unit :=
  r ← attempt (GetAttr pth);
  match r with
  | inr e => fail (ErrWrap "could not retrieve blob key" e)
  | inl attr =>
      if negb (Size attr =? Z.of_nat (length data))%Z
      then fail (ErrMsg "verification of blob content failed: sizes differ")
      else if (0 <? CRC32C attr)%Z && negb (Crc32.Checksum data =? CRC32C attr)%Z
      then fail (ErrMsg "verification of blob content failed: CRC32 differ")
      else mret tt
  end.

End hasher.

(** ** Keys *)

Lemma NewKey_key k : is_key k -> NewKey k = Ok k.
Proof.
  unfold is_key, NewKey. intros Hk. rewrite take_ge by lia. by rewrite Hk, Nat.eqb_refl.
Qed.

Lemma NewKey_Ok d k : NewKey d = Ok k -> is_key k /\ k = take KeySize d.
Proof. unfold NewKey. destruct (Nat.eqb_spec (length (take KeySize d)) KeySize); intros; by simplify_eq. Qed.

Lemma MustNewKey_key k : is_key k -> MustNewKey k = Ok k.
Proof. intros Hk. unfold MustNewKey. by rewrite NewKey_key. Qed.

#[export] Instance Key_String_inj : Inj (=) (=) Key_String := Hex.EncodeToString_inj.

Lemma StringWithPrefix_inj p k k' : StringWithPrefix k p = StringWithPrefix k' p -> k = k'.
Proof. unfold StringWithPrefix. by intros H%Strings.string_app_inv_head%(inj Key_String). Qed.

(** A key printed in hexadecimal is read back unchanged, and a string is
    accepted as a key only if it decodes to at least the size of a key: of a
    longer string the first [KeySize] bytes are kept. *)
Theorem KeyFromString_correct :
  (forall k, is_key k -> KeyFromString (Key_String k) = Ok k) /\
  (forall s k, KeyFromString s = Ok k ->
     exists rest, Hex.DecodeString s = Ok (k ++ rest) /\ is_key k) /\
  (forall b, length b < KeySize -> KeyFromString (Key_String b) = Err BadKeySize).
Proof.
  split_and!.
  - intros k Hk. unfold KeyFromString, Key_String. rewrite Hex.DecodeString_EncodeToString. by apply NewKey_key.
  - intros s k. unfold KeyFromString. destruct (Hex.DecodeString s) as [b| |]; simpl; intros H; simplify_eq.
    apply NewKey_Ok in H as [Hk ->]. exists (drop KeySize b). by rewrite take_drop.
  - intros b Hb. unfold KeyFromString, Key_String. rewrite Hex.DecodeString_EncodeToString. simpl.
    unfold NewKey. rewrite take_ge by lia. by destruct (Nat.eqb_spec (length b) KeySize); [lia|].
Qed.

(** ** Sequences of keys *)

Section sequences.
Context `{HB : !Blake2b, HL : !Blake2bLaws}.

Lemma rootHash_Ok ks n : rootHash ks n = Ok (blake2b (mkTree n 0 1 true) (concat ks)).
Proof. apply NewKey_key, blake2b_length. Qed.

Lemma keyFromBytes_Ok d ls n b : keyFromBytes d ls n b = Ok (blake2b (mkTree ls n 0 b) d).
Proof. apply NewKey_key, blake2b_length. Qed.

Lemma leaves_loop_concat f ks :
  Forall is_key ks -> length (concat ks) <= f -> leaves_loop f (concat ks) = Ok ks.
Proof.
  intros H. revert f. induction H as [|k ks Hk H IH]; intros f Hf; [by destruct f|].
  simpl concat in *. rewrite length_app, Hk in Hf. unfold KeySize in Hf.
  destruct f as [|f]; [lia|].
  assert (exists c r, k ++ concat ks = c :: r) as (c & r & Hc).
  { unfold is_key, KeySize in Hk. destruct k; [done|]. eauto. }
  cbn [leaves_loop]. rewrite Hc, <- Hc.
  destruct (Nat.ltb_spec (length (k ++ concat ks)) KeySize) as [Hl|_].
  { rewrite length_app, Hk in Hl. lia. }
  rewrite take_app_exact, drop_app_exact by done.
  rewrite MustNewKey_key by done. simpl. by rewrite IH by lia.
Qed.

Lemma leaves_loop_Ok f data ks :
  leaves_loop f data = Ok ks -> Forall is_key ks /\ data = concat ks.
Proof.
  revert data ks. induction f as [|f IH]; intros data ks; destruct data as [|c data]; intros H;
    try by simplify_eq/=.
  cbn [leaves_loop] in H. set (d := c :: data) in *. clearbody d.
  destruct (Nat.ltb_spec (length d) KeySize); [done|].
  rewrite MustNewKey_key in H by (unfold is_key; rewrite length_take; lia). simpl in H.
  destruct (leaves_loop f (drop KeySize d)) as [ks'| |] eqn:E; simpl in H; try done.
  unfold mret, res_ret in H. injection H as <-.
  apply IH in E as [HF E]. split.
  - constructor; [|done]. unfold is_key. rewrite length_take. lia.
  - simpl. by rewrite <- E, take_drop.
Qed.

Lemma leaves_concat ks : Forall is_key ks -> leaves (concat ks) = Ok ks.
Proof. intros. by apply leaves_loop_concat. Qed.

Lemma leaves_Ok data ks : leaves data = Ok ks <-> Forall is_key ks /\ data = concat ks.
Proof.
  split; [apply leaves_loop_Ok|]. intros [HF ->]. by apply leaves_concat.
Qed.

Lemma verificationKey_app d k : is_key k -> verificationKey (d ++ k) = Ok k.
Proof.
  intros Hk. unfold verificationKey. rewrite length_app, Hk.
  destruct (Nat.ltb_spec (length d + KeySize) KeySize); [lia|].
  rewrite drop_app_exact by lia. by apply MustNewKey_key.
Qed.

(** The content of a root blob: the keys of the leaves, then the root. *)

Definition rootContent (root : Key) (ks : list Key) : bytes := concat ks ++ root.

Lemma verifiedKeys_content ks n :
  Forall is_key ks ->
  verifiedKeys (rootContent (blake2b (mkTree n 0 1 true) (concat ks)) ks) n = Ok ks.
Proof.
  intros HF. unfold verifiedKeys, rootContent.
  rewrite verificationKey_app by apply blake2b_length. simpl.
  rewrite length_app, blake2b_length, take_app_exact by lia.
  rewrite leaves_concat by done. simpl. rewrite rootHash_Ok. simpl.
  by rewrite decide_False by naive_solver.
Qed.

Lemma verifiedKeys_sound data n ks :
  verifiedKeys data n = Ok ks ->
  Forall is_key ks /\ data = rootContent (blake2b (mkTree n 0 1 true) (concat ks)) ks.
Proof.
  unfold verifiedKeys, verificationKey.
  destruct (Nat.ltb_spec (length data) KeySize) as [|Hl]; [done|].
  rewrite MustNewKey_key by (unfold is_key; rewrite length_drop; lia). simpl.
  destruct (leaves (take (length data - KeySize) data)) as [ks'| |] eqn:E; simpl; try done.
  rewrite rootHash_Ok. simpl. case_decide as Hd; [done|]. unfold mret, res_ret. intros ?; simplify_eq.
  apply leaves_Ok in E as [HF E]. split; [done|].
  unfold rootContent. by rewrite <- Hd, <- E, take_drop.
Qed.

(** a buffer is accepted as the content of a root blob exactly when it is
    a sequence of keys followed by the root hash of that sequence; [LeafKeys]
    asks in addition that this hash is the expected root. *)
Theorem verifiedKeys_correct data n ks root :
  (verifiedKeys data n = Ok ks <->
     Forall is_key ks /\ data = rootContent (blake2b (mkTree n 0 1 true) (concat ks)) ks) /\
  (LeafKeys root data n = Ok ks <->
     Forall is_key ks /\ root = blake2b (mkTree n 0 1 true) (concat ks) /\ data = rootContent root ks).
Proof.
  assert (Hv : verifiedKeys data n = Ok ks <->
     Forall is_key ks /\ data = rootContent (blake2b (mkTree n 0 1 true) (concat ks)) ks).
  { split; [apply verifiedKeys_sound|]. intros [HF ->]. by apply verifiedKeys_content. }
  split; [done|]. unfold LeafKeys. split.
  - destruct (verificationKey data) as [v| |] eqn:E; simpl; try done.
    case_decide as Hd; [done|]. subst v. intros [HF ->]%Hv.
    unfold rootContent in E. rewrite verificationKey_app in E by apply blake2b_length. by simplify_eq.
  - intros (HF & -> & ->).
    assert (forall r, is_key r -> verificationKey (rootContent r ks) = Ok r) as Hr by (intros; by apply verificationKey_app).
    rewrite Hr by apply blake2b_length. simpl.
    rewrite decide_False by naive_solver. by apply verifiedKeys_content.
Qed.

End sequences.

(** ** Blobs *)

Section blobs.
Context {S : Type} `{!Store S, !StoreLaws S}.

(** A blob that is found and not to be overwritten is there, and not empty. *)

Lemma existsAndValidBlob_spec pth data s r s' :
  existsAndValidBlob pth data s = (r, s') ->
  objects s' = objects s /\
  (forall found overwrite, r = Ok (found, overwrite) ->
     (found = true -> is_Some (objects s !! pth)) /\
     (found = true -> overwrite = false -> exists d, objects s !! pth = Some d /\ d <> [])).
Proof.
  unfold existsAndValidBlob, mbind, M_bind, attempt, mret, M_ret.
  destruct (GetAttr pth s) as [[a|e|p] s1] eqn:E; intros Heq; simplify_eq;
    apply GetAttr_spec in E as [Ho Ha]; (split; [done|]); intros found overwrite Hr; simplify_eq; [|done].
  destruct (Ha a eq_refl) as (d & Hd & Hsz & _).
  destruct (Z.eqb_spec (Size a) 0); [simplify_eq; rewrite Hd; split; [eauto|done]|].
  assert (d <> []) by (intros ->; simpl in *; lia).
  case_match; simplify_eq; rewrite Hd; eauto.
Qed.

(** On a reliable store the answer is determined by the object. *)

Lemma existsAndValidBlob_absent `{!ReliableStore S} pth data s :
  objects s !! pth = None ->
  exists s', existsAndValidBlob pth data s = (Ok (false, false), s') /\ objects s' = objects s.
Proof.
  intros Hn. destruct (GetAttr_absent pth s Hn) as [e He].
  unfold existsAndValidBlob, mbind, M_bind, attempt, mret, M_ret.
  destruct (GetAttr pth s) as [r s1] eqn:E. simpl in He. subst r. exists s1. split; [done|].
  by apply GetAttr_spec in E as [E _].
Qed.

Lemma existsAndValidBlob_present `{!ReliableStore S} pth data s :
  objects s !! pth = Some data ->
  exists s', existsAndValidBlob pth data s = (Ok (true, bool_decide (data = [])), s') /\ objects s' = objects s.
Proof.
  intros Hd. destruct (GetAttr_present pth s) as [a Ha]; [eauto|].
  unfold existsAndValidBlob, mbind, M_bind, attempt, mret, M_ret.
  destruct (GetAttr pth s) as [r s1] eqn:E. simpl in Ha. subst r. exists s1.
  apply GetAttr_spec in E as [Ho HA]. destruct (HA a eq_refl) as (d & Hd' & Hsz & Hcp & Hcrc).
  rewrite Hd in Hd'. injection Hd' as <-.
  split; [|done]. do 2 f_equal. destruct (Z.eqb_spec (Size a) 0) as [Hz|Hz].
  - rewrite bool_decide_eq_true_2; [done|]. destruct data; [done|]. simpl in *. lia.
  - rewrite bool_decide_eq_false_2 by (intros ->; simpl in *; lia).
    destruct (Z.ltb_spec 0 (CRC32C a)) as [Hc|]; rewrite ?andb_false_r; [|done].
    rewrite <- (Hcrc Hc), Z.eqb_refl. by case_match.
Qed.

Lemma verifyBlob_objects pth data s r s' : verifyBlob pth data s = (r, s') -> objects s' = objects s.
Proof.
  unfold verifyBlob, mbind, M_bind, attempt, fail, mret, M_ret.
  destruct (GetAttr pth s) as [[a|e|p] s1] eqn:E; intros Heq; apply GetAttr_spec in E as [Ho _];
    repeat case_match; simplify_eq; done.
Qed.

Lemma verifyBlob_ok `{!ReliableStore S} pth data s :
  objects s !! pth = Some data ->
  exists s', verifyBlob pth data s = (Ok tt, s') /\ objects s' = objects s.
Proof.
  intros Hd. destruct (GetAttr_present pth s) as [a Ha]; [eauto|].
  unfold verifyBlob, mbind, M_bind, attempt, fail, mret, M_ret.
  destruct (GetAttr pth s) as [r s1] eqn:E. simpl in Ha. subst r. exists s1.
  apply GetAttr_spec in E as [Ho HA]. destruct (HA a eq_refl) as (d & Hd' & Hsz & Hcp & Hcrc).
  rewrite Hd in Hd'. injection Hd' as <-.
  split; [|done]. rewrite Hsz, Z.eqb_refl. simpl.
  destruct (Z.ltb_spec 0 (CRC32C a)) as [Hc|]; [|done].
  by rewrite <- (Hcrc Hc), Z.eqb_refl.
Qed.

End blobs.

(** ** A hash for the witnesses: the tree parameters and the data, cut to size. *)

Definition toy_byte (n : nat) : Byte.byte :=
  match Byte.of_N (N.of_nat n mod 256) with Some b => b | None => Byte.x00 end.

Definition toy_blake2b : Blake2b := fun t d =>
  take KeySize
    ([toy_byte (NodeOffset t); toy_byte (NodeDepth t); (if IsLastNode t then Byte.x01 else Byte.x00);
      toy_byte (length d)] ++ d ++ replicate KeySize Byte.x00).

Lemma toy_blake2b_laws : @Blake2bLaws toy_blake2b.
Proof.
  intros t d. unfold blake2b, toy_blake2b. rewrite length_take, !length_app, length_replicate. simpl length.
  unfold KeySize. lia.
Qed.

End CafsKeys.
