(* ===== verification/CafsWriter.v ===== *)
(** * The writer of the content-addressable file system (pkg/cafs: writer.go)

    [fsWriter] is the Go struct; the goroutines started by [Write] are the
    [job]s of the writer, each with the store call it makes next. An execution
    is a sequence of events: io.Copy hands the next buffer to [Write], or one
    of the running jobs makes its next store call. The bound on the number of
    concurrent jobs only removes executions and is left out: the theorems hold
    for every sequence of events.

    The buffer of the writer is kept as the bytes written to it so far, whose
    number is the field offset of the struct. *)

From S2P Require Import Prelude GoLib Errors Storage CafsKeys.

Module CafsWriter.
Import Storage CafsKeys.

(** A flushing goroutine: the buffer, the number of the leaf, and its next
    store call. *)

Inductive phase : Type := PExists | PPut | PVerify.

Record job : Type := mkJob {
  j_buffer : bytes;
  j_count : nat;
  j_phase : phase
}.

Record blobFlush : Type := mkBlobFlush {
  bf_count : nat;
  bf_key : Key
}.

Record fsWriter : Type := mkWriter {
  w_prefix : string;
  w_leafSize : nat;
  w_leaves : list Key;
  w_buf : bytes;
  w_flushed : bool;
  w_count : nat;
  w_blobFlushes : list blobFlush;
  w_errors : list error;
  w_withVerifyHash : bool;
  w_jobs : list job
}.

Definition newWriter (leafSize : nat) (prefix : string) (withVerifyHash : bool) : fsWriter :=
  mkWriter prefix leafSize [] [] false 0 [] [] withVerifyHash [].

Definition pather (w : fsWriter) (k : Key) : string := StringWithPrefix k (w_prefix w).

Definition set_buf (w : fsWriter) (buf : bytes) : fsWriter :=
  mkWriter (w_prefix w) (w_leafSize w) (w_leaves w) buf (w_flushed w) (w_count w)
    (w_blobFlushes w) (w_errors w) (w_withVerifyHash w) (w_jobs w).

(** "go pFlush(...)" with the full buffer, then the fresh buffer. *)

Definition spawn (w : fsWriter) (buf : bytes) : fsWriter :=
  mkWriter (w_prefix w) (w_leafSize w) (w_leaves w) [] (w_flushed w) (S (w_count w))
    (w_blobFlushes w) (w_errors w) (w_withVerifyHash w) (w_jobs w ++ [mkJob buf (S (w_count w)) PExists]).

(** One turn of the loop of [Write]: the new value of written, and the writer. *)

Definition write_step (p : bytes) (written : nat) (w : fsWriter) : res (nat * fsWriter) :=
  let avail := w_leafSize w - length (w_buf w) in
  let writable := if length p <? avail then length p else avail in
  if writable <? written then Panic "slice bounds out of range"
  else
    let src := take (writable - written) (drop written p) in
    let c := Nat.min avail (length src) in
    let buf := w_buf w ++ take c src in
    let w' := if length buf =? w_leafSize w then spawn w buf else set_buf w buf in
    Ok (written + c, w').

(** [Write] with a bound on the turns of its loop; [None]: the bound is reached. *)

Fixpoint write_loop (fuel : nat) (p : bytes) (written : nat) (w : fsWriter) : option (res fsWriter) :=
  match fuel with
  | O => None
  | S f =>
      if written =? length p then Some (Ok w)
      else match write_step p written w with
           | Ok (written', w') => write_loop f p written' w'
           | Err e => Some (Err e)
           | Panic m => Some (Panic m)
           end
  end.

Definition Write (fuel : nat) (p : bytes) (w : fsWriter) : option (res fsWriter) := write_loop fuel p 0 w.

(** The fuel of an execution: the loop ends within three turns or never. *)

Definition write_fuel : nat := 3.

Section ops.
Context `{HB : Blake2b} {S : Type} `{HS : Store S}.

Definition writeBlob_put (pth : string) (data : bytes) : M S unit := fun s =>
  match putBuffer pth data OverWrite s with
  | (Err e, s') => (Err (ErrWrap ("write segment file: " +:+ pth) e), s')
  | r => r
  end.

Definition writeBlob (withVerify : bool) (pth : string) (data : bytes) : M S unit :=
  '(found, overwrite) ← existsAndValidBlob pth data;
  if (found : bool) && negb overwrite then mret tt
  else
    _ ← writeBlob_put pth data;
    if withVerify then verifyBlob pth data else mret tt.

(** One store call of [pFlush], which runs [writeBlob]: the job goes on, or
    its result is sent. *)

Definition pFlush_step (w : fsWriter) (j : job) : M S (job + blobFlush) :=
  leafKey ← lift (KeyFromBytes (j_buffer j) (w_leafSize w) (j_count j) false);
  let pth := pather w leafKey in
  let sent := inr (mkBlobFlush (j_count j) leafKey) in
  match j_phase j with
  | PExists =>
      '(found, overwrite) ← existsAndValidBlob pth (j_buffer j);
      if (found : bool) && negb overwrite then mret sent
      else mret (inl (mkJob (j_buffer j) (j_count j) PPut))
  | PPut =>
      _ ← writeBlob_put pth (j_buffer j);
      if w_withVerifyHash w then mret (inl (mkJob (j_buffer j) (j_count j) PVerify)) else mret sent
  | PVerify =>
      _ ← verifyBlob pth (j_buffer j);
      mret sent
  end.

(** The loop of [flushThread]: a result is appended to the flushes, an error
    to the errors. *)

Definition set_jobs (w : fsWriter) (jobs : list job) (flushes : list blobFlush) (errs : list error) : fsWriter :=
  mkWriter (w_prefix w) (w_leafSize w) (w_leaves w) (w_buf w) (w_flushed w) (w_count w)
    flushes errs (w_withVerifyHash w) jobs.

Definition flushThread (w : fsWriter) (i : nat) (r : job + blobFlush + error) : fsWriter :=
  match r with
  | inl (inl j) => set_jobs w (<[i:=j]> (w_jobs w)) (w_blobFlushes w) (w_errors w)
  | inl (inr bf) => set_jobs w (delete i (w_jobs w)) (w_blobFlushes w ++ [bf]) (w_errors w)
  | inr e => set_jobs w (delete i (w_jobs w)) (w_blobFlushes w) (w_errors w ++ [e])
  end.

Inductive event : Type :=
| EvCopy
| EvJob (i : nat).

(** An event on the buffers still to be copied, the writer and the store;
    [None]: the event is not possible, or a [Write] does not return. *)

Definition exec_event (e : event) (cs : list bytes) (w : fsWriter) (s : S)
    : option (res (list bytes * fsWriter) * S) :=
  match e with
  | EvCopy =>
      match cs with
      | [] => None
      | c :: cs' =>
          match Write write_fuel c w with
          | None => None
          | Some (Ok w') => Some (Ok (cs', w'), s)
          | Some (Err err) => Some (Err err, s)
          | Some (Panic m) => Some (Panic m, s)
          end
      end
  | EvJob i =>
      match w_jobs w !! i with
      | None => None
      | Some j =>
          match attempt (pFlush_step w j) s with
          | (Ok o, s') => Some (Ok (cs, flushThread w i o), s')
          | (Err err, s') => Some (Err err, s')
          | (Panic m, s') => Some (Panic m, s')
          end
      end
  end.

Fixpoint exec (es : list event) (cs : list bytes) (w : fsWriter) (s : S)
    : option (res (list bytes * fsWriter) * S) :=
  match es with
  | [] => Some (Ok (cs, w), s)
  | e :: es' =>
      match exec_event e cs w s with
      | Some (Ok (cs', w'), s') => exec es' cs' w' s'
      | r => r
      end
  end.

(** [flush]: the last leaf, which is partial. *)

Definition flush (w : fsWriter) (isLastNode : bool) : M S fsWriter :=
  if decide (w_buf w = []) then mret w
  else
    leafKey ← lift (KeyFromBytes (w_buf w) (w_leafSize w) (length (w_leaves w)) isLastNode);
    _ ← writeBlob (w_withVerifyHash w) (pather w leafKey) (w_buf w);
    mret (mkWriter (w_prefix w) (w_leafSize w) (w_leaves w ++ [leafKey]) [] (w_flushed w) (w_count w)
            (w_blobFlushes w) (w_errors w) (w_withVerifyHash w) (w_jobs w)).

(** w.leaves[bf.count-1] = bf.key for every flush. *)

Fixpoint place_leaves (ls : list Key) (bfs : list blobFlush) : res (list Key) :=
  match bfs with
  | [] => Ok ls
  | bf :: bfs' =>
      if (1 <=? bf_count bf) && (bf_count bf <=? length ls)
      then place_leaves (<[bf_count bf - 1 := bf_key bf]> ls) bfs'
      else Panic "index out of range"
  end.

(** [Flush], called when the goroutines are done. *)

Definition Flush (w : fsWriter) : M S (Key * bytes * fsWriter) :=
  match w_errors w with
  | e :: _ => fail e
  | [] =>
      ls ← lift (place_leaves (replicate (length (w_blobFlushes w)) []) (w_blobFlushes w));
      w' ← flush (mkWriter (w_prefix w) (w_leafSize w) ls (w_buf w) true (w_count w)
                    (w_blobFlushes w) (w_errors w) (w_withVerifyHash w) (w_jobs w)) true;
      rhash ← lift (RootHash (w_leaves w') (w_leafSize w'));
      mret (rhash, concat (w_leaves w'), w')
  end.

Definition Close (w : fsWriter) : res fsWriter :=
  if w_flushed w then
    Ok (mkWriter (w_prefix w) (w_leafSize w) (w_leaves w) (w_buf w) false (w_count w)
          (w_blobFlushes w) (w_errors w) (w_withVerifyHash w) (w_jobs w))
  else Err (ErrMsg "stream closed without being flushed").

End ops.

(** ** Write *)

Lemma write_step_part p w :
  length (w_buf w) + length p < w_leafSize w -> write_step p 0 w = Ok (length p, set_buf w (w_buf w ++ p)).
Proof.
  intros Hl. unfold write_step.
  destruct (Nat.ltb_spec (length p) (w_leafSize w - length (w_buf w))); [|lia]. simpl.
  rewrite Nat.sub_0_r, drop_0, take_ge by lia. rewrite Nat.min_r, take_ge by lia.
  destruct (Nat.eqb_spec (length (w_buf w ++ p)) (w_leafSize w)) as [H1|_]; [rewrite length_app in H1; lia|done].
Qed.

Lemma write_step_fill p w :
  length (w_buf w) <= w_leafSize w <= length (w_buf w) + length p ->
  write_step p 0 w =
    Ok (w_leafSize w - length (w_buf w), spawn w (w_buf w ++ take (w_leafSize w - length (w_buf w)) p)).
Proof.
  intros Hl. unfold write_step. set (a := w_leafSize w - length (w_buf w)).
  destruct (Nat.ltb_spec (length p) a); [lia|]. simpl.
  rewrite Nat.sub_0_r, drop_0. rewrite length_take, take_take, !Nat.min_l by lia.
  destruct (Nat.eqb_spec (length (w_buf w ++ take a p)) (w_leafSize w)) as [|H1]; [done|].
  rewrite length_app, length_take in H1. lia.
Qed.

Lemma write_step_rest p written w :
  w_buf w = [] -> written <= length p -> length p <= w_leafSize w -> length p - written < w_leafSize w ->
  write_step p written w = Ok (length p, set_buf w (drop written p)).
Proof.
  intros Hb Hw Hp Hr. unfold write_step. rewrite Hb. simpl. rewrite Nat.sub_0_r.
  replace (if length p <? w_leafSize w then length p else w_leafSize w) with (length p)
    by (destruct (Nat.ltb_spec (length p) (w_leafSize w)); lia).
  destruct (Nat.ltb_spec (length p) written); [lia|].
  rewrite (take_ge (drop written p)) by (rewrite length_drop; lia).
  rewrite length_drop, Nat.min_r, take_ge by (rewrite ?length_drop; lia).
  destruct (Nat.eqb_spec (length (drop written p)) (w_leafSize w)) as [H1|_].
  { rewrite length_drop in H1. lia. }
  do 2 f_equal. lia.
Qed.

(** What one call of [Write] does to the writer. *)

Definition written (p : bytes) (w : fsWriter) : fsWriter :=
  let a := w_leafSize w - length (w_buf w) in
  if length p <? a then set_buf w (w_buf w ++ p)
  else set_buf (spawn w (w_buf w ++ take a p)) (drop a p).

Lemma set_buf_same w : set_buf w (w_buf w) = w.
Proof. by destruct w. Qed.

Lemma Write_returns p w :
  length (w_buf w) < w_leafSize w -> length p <= w_leafSize w ->
  Write write_fuel p w = Some (Ok (written p w)).
Proof.
  intros Hb Hp. unfold Write, write_fuel, written. set (a := w_leafSize w - length (w_buf w)).
  cbn [write_loop]. destruct (Nat.eqb_spec 0 (length p)) as [H0|H0].
  { destruct (Nat.ltb_spec (length p) a); [|lia].
    destruct p; [|done]. by rewrite app_nil_r, set_buf_same. }
  destruct (Nat.ltb_spec (length p) a) as [Ha|Ha].
  { rewrite write_step_part by lia. by rewrite Nat.eqb_refl. }
  rewrite write_step_fill by lia. fold a. destruct (Nat.eqb_spec a (length p)) as [->|Hne].
  { by rewrite drop_all. }
  rewrite write_step_rest by (simpl; lia || done). by rewrite Nat.eqb_refl.
Qed.

Lemma write_loop_stuck fuel p w :
  w_buf w = [] -> 0 < w_leafSize w -> w_leafSize w < length p ->
  write_loop fuel p (w_leafSize w) w = None.
Proof.
  intros Hb HL Hp. induction fuel as [|f IH]; cbn [write_loop]; [done|].
  destruct (Nat.eqb_spec (w_leafSize w) (length p)); [lia|].
  unfold write_step. rewrite Hb. simpl. rewrite Nat.sub_0_r.
  destruct (Nat.ltb_spec (length p) (w_leafSize w)); [lia|].
  rewrite Nat.ltb_irrefl, Nat.sub_diag, take_0. simpl. rewrite Nat.min_0_r, Nat.add_0_r, take_nil. simpl.
  destruct (w_leafSize w) as [|n'] eqn:EL; [lia|].
  replace (set_buf w []) with w; [exact IH|]. by destruct w; simpl in Hb; subst.
Qed.

(** C14: [Write] copies a buffer that is not longer than a leaf entirely: the
    bytes are appended to the leaf being filled, a full leaf is handed to a
    goroutine under the next number, and the loop ends. *)
Theorem Write_correct p w :
  length (w_buf w) < w_leafSize w -> length p <= w_leafSize w ->
  exists w', Write write_fuel p w = Some (Ok w') /\
    length (w_buf w') < w_leafSize w /\
    ((w_jobs w' = w_jobs w /\ w_count w' = w_count w /\ w_buf w' = w_buf w ++ p) \/
     (exists leaf, length leaf = w_leafSize w /\ leaf ++ w_buf w' = w_buf w ++ p /\
        w_count w' = S (w_count w) /\ w_jobs w' = w_jobs w ++ [mkJob leaf (S (w_count w)) PExists])).
Proof.
  intros Hb Hp. exists (written p w). split; [by apply Write_returns|]. unfold written.
  destruct (Nat.ltb_spec (length p) (w_leafSize w - length (w_buf w))); simpl.
  - split; [rewrite length_app; lia|]. by left.
  - split; [rewrite length_drop; lia|]. right.
    exists (w_buf w ++ take (w_leafSize w - length (w_buf w)) p). split_and!; try done.
    + rewrite length_app, length_take. lia.
    + by rewrite <- app_assoc, take_drop.
Qed.

Lemma Write_correct_witness :
  exists w', Write write_fuel [Byte.x01; Byte.x02] (newWriter 2 "" false) = Some (Ok w') /\ w_count w' = 1.
Proof.
  destruct (Write_correct [Byte.x01; Byte.x02] (newWriter 2 "" false)) as (w' & Hw & Hl & _); simpl; [lia..|].
  exists w'. split; [done|]. vm_compute in Hw. by injection Hw as <-.
Defined.

(** a buffer longer than a leaf is not handled: the slice of the source is
    bounded by the room left in place of an end position, so the loop never
    ends when the leaf being filled is empty, and panics otherwise. *)
Theorem Write_long_buffer p w :
  length (w_buf w) < w_leafSize w -> w_leafSize w < length p ->
  (w_buf w = [] -> forall fuel, Write fuel p w = None) /\
  (w_buf w <> [] -> Write write_fuel p w = Some (Panic "slice bounds out of range")).
Proof.
  intros Hb Hp. split.
  - intros H0 [|fuel]; [done|]. unfold Write. cbn [write_loop].
    destruct (Nat.eqb_spec 0 (length p)); [lia|]. rewrite write_step_fill by lia.
    rewrite H0. simpl. rewrite Nat.sub_0_r.
    apply (write_loop_stuck fuel p (spawn w (take (w_leafSize w) p))); simpl; [done|lia..].
  - intros H0. assert (0 < length (w_buf w)) by (destruct (w_buf w); simpl; [done|lia]).
    unfold Write, write_fuel. cbn [write_loop].
    destruct (Nat.eqb_spec 0 (length p)); [lia|]. rewrite write_step_fill by lia.
    set (a := w_leafSize w - length (w_buf w)). set (w1 := spawn w _).
    destruct (Nat.eqb_spec a (length p)); [lia|].
    assert (write_step p a w1 = Ok (w_leafSize w, set_buf w1 (take (w_leafSize w - a) (drop a p)))) as ->.
    { unfold write_step, w1. simpl. rewrite Nat.sub_0_r.
      destruct (Nat.ltb_spec (length p) (w_leafSize w)); [lia|].
      destruct (Nat.ltb_spec (w_leafSize w) a); [lia|].
      rewrite length_take, length_drop, (Nat.min_l (w_leafSize w - a)), Nat.min_r, take_take, Nat.min_id by lia.
      rewrite length_take, length_drop.
      destruct (Nat.eqb_spec ((w_leafSize w - a) `min` (length p - a)) (w_leafSize w)); [lia|].
      do 2 f_equal. lia. }
    destruct (Nat.eqb_spec (w_leafSize w) (length p)); [lia|].
    unfold write_step, w1. simpl. rewrite length_take, length_drop.
    destruct (Nat.ltb_spec (length p) (w_leafSize w - (w_leafSize w - a) `min` (length p - a))); [lia|].
    destruct (Nat.ltb_spec (w_leafSize w - (w_leafSize w - a) `min` (length p - a)) (w_leafSize w)); [done|lia].
Qed.

Lemma Write_long_buffer_witness :
  Write 50 [Byte.x01; Byte.x02; Byte.x03] (newWriter 2 "" false) = None.
Proof.
  exact (proj1 (Write_long_buffer [Byte.x01; Byte.x02; Byte.x03] (newWriter 2 "" false)
                  ltac:(simpl; lia) ltac:(simpl; lia)) eq_refl 50).
Defined.

End CafsWriter.
