(* ===== verification/CafsFlush.v ===== *)
(** * Correctness of the writer under every interleaving (pkg/cafs: writer.go)

    The specification: a content is cut in leaves of the leaf size, the last one
    shorter ([fulls], [tail]); the key of a full leaf is hashed under its number
    from 1, the key of a last partial leaf under the number of the full ones and
    flagged last ([leafBlobs]). The invariant relates any reachable state of the
    writer and its goroutines to the part of the content written so far. *)

From S2P Require Import Prelude GoLib Errors Storage CafsKeys CafsWriter.

Module CafsFlush.
Import Storage CafsKeys CafsWriter.

(** ** Cutting a content in leaves *)

Fixpoint fulls_loop (fuel L : nat) (d : bytes) : list bytes :=
  match fuel with
  | O => []
  | S f => if length d <? L then [] else take L d :: fulls_loop f L (drop L d)
  end.

Definition fulls (L : nat) (d : bytes) : list bytes := fulls_loop (length d) L d.

Definition tail (L : nat) (d : bytes) : bytes := drop (L * length (fulls L d)) d.

Lemma fulls_loop_app f L fs r :
  0 < L -> Forall (fun c => length c = L) fs -> length (concat fs ++ r) <= f -> length r < L ->
  fulls_loop f L (concat fs ++ r) = fs.
Proof.
  intros HL H. revert f. induction H as [|c fs Hc _ IH]; intros f Hf Hr; simpl concat in *.
  - destruct f; [done|]. simpl in *. by destruct (Nat.ltb_spec (length r) L); [|lia].
  - rewrite <- app_assoc, length_app, Hc in Hf. destruct f as [|f]; [lia|].
    cbn [fulls_loop]. rewrite <- app_assoc.
    destruct (Nat.ltb_spec (length (c ++ concat fs ++ r)) L) as [Hl|_].
    { rewrite length_app, Hc in Hl. lia. }
    rewrite take_app_exact, drop_app_exact by done. f_equal. apply IH; lia.
Qed.

(** The cut is the only one with full leaves and a shorter rest. *)

Lemma fulls_unique L fs r :
  0 < L -> Forall (fun c => length c = L) fs -> length r < L ->
  fulls L (concat fs ++ r) = fs /\ tail L (concat fs ++ r) = r.
Proof.
  intros HL Hfs Hr. assert (E : fulls L (concat fs ++ r) = fs) by by apply fulls_loop_app.
  split; [done|]. unfold tail. rewrite E. apply drop_app_exact. by apply length_concat_const.
Qed.

Lemma fulls_loop_length L f d : Forall (fun c => length c = L) (fulls_loop f L d).
Proof.
  revert d. induction f as [|f IH]; intros d; simpl; [constructor|].
  destruct (Nat.ltb_spec (length d) L); constructor; [|apply IH]. rewrite length_take. lia.
Qed.

Lemma fulls_loop_rest L f d :
  0 < L -> length d <= f ->
  exists r, d = concat (fulls_loop f L d) ++ r /\ length r < L.
Proof.
  intros HL. revert d. induction f as [|f IH]; intros d Hf; simpl.
  - exists d. split; [done|]. lia.
  - destruct (Nat.ltb_spec (length d) L); [by exists d|].
    destruct (IH (drop L d)) as (r & Hr & Hl); [rewrite length_drop; lia|].
    exists r. split; [|done]. simpl concat. rewrite <- app_assoc, <- Hr. by rewrite take_drop.
Qed.

Lemma cut_content L d :
  0 < L -> d = concat (fulls L d) ++ tail L d /\ length (tail L d) < L /\
           Forall (fun c => length c = L) (fulls L d).
Proof.
  intros HL. destruct (fulls_loop_rest L (length d) d) as (r & Hr & Hl); [done..|].
  pose proof (fulls_loop_length L (length d) d) as HF. fold (fulls L d) in *.
  destruct (fulls_unique L (fulls L d) r HL HF Hl) as [_ Ht]. rewrite <- Hr in Ht. by rewrite Ht.
Qed.

(** ** The leaves of a content, with their keys *)

Section spec.
Context `{HB : Blake2b}.

Definition leafKey (L n : nat) (last : bool) (c : bytes) : Key := blake2b (mkTree L n 0 last) c.

Definition fullBlobs (L : nat) (fs : list bytes) : list (Key * bytes) :=
  imap (fun i c => (leafKey L (S i) false c, c)) fs.

Definition leafBlobs (L : nat) (d : bytes) : list (Key * bytes) :=
  fullBlobs L (fulls L d) ++
  match tail L d with
  | [] => []
  | t => [(leafKey L (length (fulls L d)) true t, t)]
  end.

Definition leafKeys (L : nat) (d : bytes) : list Key := (leafBlobs L d).*1.

Definition rootKey (L : nat) (d : bytes) : Key := blake2b (mkTree L 0 1 true) (concat (leafKeys L d)).

(** The objects a content is stored in. *)

Definition blobs (prefix : string) (L : nat) (d : bytes) : list (string * bytes) :=
  (fun '(k, c) => (StringWithPrefix k prefix, c)) <$> leafBlobs L d.

Definition objectBlobs (prefix : string) (L : nat) (d : bytes) : list (string * bytes) :=
  blobs prefix L d ++ [(StringWithPrefix (rootKey L d) prefix, rootContent (rootKey L d) (leafKeys L d))].

Lemma fullBlobs_snd L fs : (fullBlobs L fs).*2 = fs.
Proof.
  unfold fullBlobs. rewrite fmap_imap. apply list_eq. intros i. rewrite list_lookup_imap. simpl.
  by destruct (fs !! i).
Qed.

Lemma leafBlobs_content L d : 0 < L -> concat (leafBlobs L d).*2 = d.
Proof.
  intros HL. unfold leafBlobs. rewrite fmap_app, concat_app, fullBlobs_snd.
  destruct (cut_content L d HL) as (Hd & _ & _). rewrite Hd at 3. f_equal.
  destruct (tail L d); [done|]. simpl. by rewrite app_nil_r.
Qed.

Lemma leafBlobs_nonempty L d k c : 0 < L -> (k, c) ∈ leafBlobs L d -> c <> [] /\ length c <= L.
Proof.
  intros HL. unfold leafBlobs. rewrite elem_of_app. intros [Hin|Hin].
  - destruct (cut_content L d HL) as (_ & _ & HF). rewrite Forall_forall in HF.
    assert (Hc : c ∈ (fullBlobs L (fulls L d)).*2) by (apply list_elem_of_fmap; by exists (k, c)).
    rewrite fullBlobs_snd in Hc. apply HF in Hc. split; [by intros ->; simpl in *; lia|lia].
  - destruct (cut_content L d HL) as (_ & Ht & _). destruct (tail L d) as [|b t]; [set_solver|].
    apply list_elem_of_singleton in Hin. simplify_eq. split; [done|]. simpl in *. lia.
Qed.

Lemma leafKeys_keys `{HL : !Blake2bLaws} L d : Forall is_key (leafKeys L d).
Proof.
  unfold leafKeys. apply Forall_forall. intros k (p & -> & Hp)%list_elem_of_fmap.
  unfold leafBlobs in Hp. apply elem_of_app in Hp as [Hp|Hp].
  - unfold fullBlobs in Hp. apply elem_of_lookup_imap in Hp as (i & c & -> & _). apply blake2b_length.
  - destruct (tail L d) as [|b t]; [set_solver|]. apply list_elem_of_singleton in Hp as ->. apply blake2b_length.
Qed.

(** No two different blobs under one name. *)

Definition functional (B : list (string * bytes)) : Prop :=
  forall p c c', (p, c) ∈ B -> (p, c') ∈ B -> c = c'.

(** Every object of the store under one of these names is intact, or empty:
    what [existsAndValidBlob] can tell. *)

Definition intact (B : list (string * bytes)) (m : gmap string bytes) : Prop :=
  forall p c, (p, c) ∈ B -> m !! p = None \/ m !! p = Some [] \/ m !! p = Some c.

Definition stored (B : list (string * bytes)) (m : gmap string bytes) : Prop :=
  forall p c, (p, c) ∈ B -> m !! p = Some c.

Definition untouched (B : list (string * bytes)) (m m' : gmap string bytes) : Prop :=
  forall p, p ∉ B.*1 -> m' !! p = m !! p.

End spec.

(** ** The store calls of a job *)

Section store_calls.
Context {S : Type} `{HS : !Store S, HSL : !StoreLaws S}.
Variable B : list (string * bytes).
Hypothesis B_functional : functional B.

(** A step of the store that only writes the blob [(p, c)] of [B]. *)

Definition blob_step (p : string) (c : bytes) (s s' : S) : Prop :=
  objects s' = objects s \/ objects s' = <[p:=c]> (objects s).

Lemma blob_step_intact p c s s' :
  (p, c) ∈ B -> blob_step p c s s' -> intact B (objects s) -> intact B (objects s').
Proof.
  intros Hin [-> | ->] Hi p' c' Hin'; [by apply Hi|].
  destruct (decide (p' = p)) as [->|Hne].
  - rewrite lookup_insert_eq. right; right. f_equal. by eapply B_functional.
  - rewrite lookup_insert_ne by done. by apply Hi.
Qed.

Lemma blob_step_stored p c s s' p' c' :
  (p, c) ∈ B -> (p', c') ∈ B -> blob_step p c s s' -> objects s !! p' = Some c' -> objects s' !! p' = Some c'.
Proof.
  intros Hin Hin' [-> | ->] Hs; [done|]. destruct (decide (p' = p)) as [->|Hne].
  - rewrite lookup_insert_eq. f_equal. by eapply B_functional.
  - by rewrite lookup_insert_ne.
Qed.

Lemma not_in_names p c p' : (p, c) ∈ B -> p' ∉ B.*1 -> p' <> p.
Proof. intros Hin Hn ->. apply Hn. apply list_elem_of_fmap. by exists (p, c). Qed.

(** The effect of each store call. *)

Lemma exists_step p c s r s' :
  existsAndValidBlob p c s = (r, s') ->
  objects s' = objects s /\
  (forall f o, r = Ok (f, o) -> f && negb o = true -> (p, c) ∈ B -> intact B (objects s) ->
     objects s' !! p = Some c).
Proof.
  intros H. apply existsAndValidBlob_spec in H as [Ho Hr]. split; [done|].
  intros f o -> Hfo Hin Hi. destruct f, o; try done.
  destruct (Hr true false eq_refl) as [_ (d & Hd & Hne)]; [done..|].
  rewrite Ho. destruct (Hi p c Hin) as [?|[?|?]]; congruence.
Qed.

Lemma put_step p c s r s' :
  writeBlob_put p c s = (r, s') ->
  (r = Ok tt -> objects s' = <[p:=c]> (objects s)) /\
  (forall p', p' <> p -> objects s' !! p' = objects s !! p').
Proof.
  unfold writeBlob_put. destruct (putBuffer p c OverWrite s) as [r' s1] eqn:E.
  pose proof (putBuffer_spec p c OverWrite s r' s1 E) as (H1 & H2 & _). intros H.
  destruct r' as [[]|e|m]; simplify_eq; (split; [|done]); try done.
  intros _. by apply H1.
Qed.

End store_calls.

(** ** The invariant of the writer *)

Section invariant.
Context `{HB : !Blake2b, HBL : !Blake2bLaws} {S : Type} `{HS : !Store S, HSL : !StoreLaws S}.
Variables (L : nat) (prefix : string) (content : bytes) (B : list (string * bytes)) (s0 : S).
Hypothesis L_pos : 0 < L.
Hypothesis B_functional : functional B.
Hypothesis B_blobs : forall p c, (p, c) ∈ blobs prefix L content -> (p, c) ∈ B.

Abbreviation path k := (StringWithPrefix k prefix).

Definition leaf_path (n : nat) (c : bytes) : string := path (leafKey L n false c).

(** A job works on the leaf of its number; once past the write, the blob is
    stored. [quiet] says that no error was recorded so far. *)

Definition job_ok (fs : list bytes) (quiet : Prop) (s : S) (j : job) : Prop :=
  1 <= j_count j /\ fs !! (j_count j - 1) = Some (j_buffer j) /\
  (quiet -> j_phase j = PVerify -> objects s !! leaf_path (j_count j) (j_buffer j) = Some (j_buffer j)).

Definition flush_ok (fs : list bytes) (quiet : Prop) (s : S) (bf : blobFlush) : Prop :=
  1 <= bf_count bf /\ exists c, fs !! (bf_count bf - 1) = Some c /\ bf_key bf = leafKey L (bf_count bf) false c /\
  (quiet -> objects s !! leaf_path (bf_count bf) c = Some c).

Record Inv (fs : list bytes) (failed : list nat) (cs : list bytes) (w : fsWriter) (s : S) : Prop := {
  inv_leafSize : w_leafSize w = L;
  inv_prefix : w_prefix w = prefix;
  inv_content : content = concat fs ++ w_buf w ++ concat cs;
  inv_fulls : Forall (fun c => length c = L) fs;
  inv_buf : length (w_buf w) < L;
  inv_count : w_count w = length fs;
  inv_perm : (j_count <$> w_jobs w) ++ (bf_count <$> w_blobFlushes w) ++ failed ≡ₚ seq 1 (length fs);
  inv_failed : length failed = length (w_errors w);
  inv_jobs : Forall (job_ok fs (w_errors w = []) s) (w_jobs w);
  inv_flushes : Forall (flush_ok fs (w_errors w = []) s) (w_blobFlushes w);
  inv_intact : w_errors w = [] -> intact B (objects s);
  inv_untouched : untouched B (objects s0) (objects s)
}.

Lemma pFlush_step_spec w j s r s' :
  w_leafSize w = L -> w_prefix w = prefix ->
  let p := leaf_path (j_count j) (j_buffer j) in
  pFlush_step w j s = (r, s') ->
  (forall p', p' <> p -> objects s' !! p' = objects s !! p') /\
  (forall j', r = Ok (inl j') -> j_count j' = j_count j /\ j_buffer j' = j_buffer j) /\
  (forall bf, r = Ok (inr bf) -> bf = mkBlobFlush (j_count j) (leafKey L (j_count j) false (j_buffer j))) /\
  (forall o, r = Ok o -> (p, j_buffer j) ∈ B -> intact B (objects s) ->
     (j_phase j = PVerify -> objects s !! p = Some (j_buffer j)) ->
     blob_step p (j_buffer j) s s' /\
     ((exists j', o = inl j' /\ j_phase j' <> PVerify) \/ objects s' !! p = Some (j_buffer j))).
Proof.
  intros HwL Hwp p H. unfold pFlush_step, KeyFromBytes in H. rewrite keyFromBytes_Ok, HwL in H.
  unfold mbind, M_bind, lift in H. cbv zeta in H.
  assert (Hp : pather w (blake2b (mkTree L (j_count j) 0 false) (j_buffer j)) = p)
    by (unfold pather; by rewrite Hwp).
  rewrite Hp in H. destruct (j_phase j) eqn:Eph.
  - destruct (existsAndValidBlob p (j_buffer j) s) as [[[f o]|e|m] s1] eqn:E;
      pose proof (exists_step B p (j_buffer j) s _ s1 E) as [Ho Hst].
    + unfold mret, M_ret in H. destruct (f && negb o) eqn:Efo; simplify_eq; rewrite Ho.
      * split_and!; try done; intros; simplify_eq; [done|].
        split; [by left|]. right. rewrite <- Ho. by eapply Hst.
      * split_and!; try done; intros; simplify_eq; [done|].
        split; [by left|]. left. eexists. split; [done|]. done.
    + simplify_eq. rewrite Ho. split_and!; try done; intros; by simplify_eq.
    + simplify_eq. rewrite Ho. split_and!; try done; intros; by simplify_eq.
  - destruct (writeBlob_put p (j_buffer j) s) as [[[]|e|m] s1] eqn:E;
      pose proof (put_step p (j_buffer j) s _ s1 E) as [Ho Hfr].
    + unfold mret, M_ret in H. assert (objects s' = <[p:=j_buffer j]> (objects s)) as Hobj.
      { destruct (w_withVerifyHash w); simplify_eq; by apply Ho. }
      split_and!.
      * intros p' Hp'. by rewrite Hobj, lookup_insert_ne.
      * intros j' Hj'. destruct (w_withVerifyHash w); by simplify_eq.
      * intros j' Hj'. destruct (w_withVerifyHash w); by simplify_eq.
      * intros. split; [by right|]. right. by rewrite Hobj, lookup_insert_eq.
    + simplify_eq. split_and!; try done; intros; by simplify_eq.
    + simplify_eq. split_and!; try done; intros; by simplify_eq.
  - destruct (verifyBlob p (j_buffer j) s) as [[[]|e|m] s1] eqn:E;
      pose proof (verifyBlob_objects p (j_buffer j) s _ s1 E) as Ho;
      unfold mret, M_ret in H; simplify_eq; rewrite Ho; split_and!; try done; intros; simplify_eq; try done.
    split; [by left|]. right. auto.
Qed.

Lemma fulls_prefix fs r : Forall (fun c => length c = L) fs -> fulls L (concat fs ++ r) = fs ++ fulls L r.
Proof.
  intros Hfs. destruct (cut_content L r L_pos) as (Hr & Ht & HF).
  rewrite Hr at 1. rewrite app_assoc, <- concat_app.
  apply fulls_unique; [done| |done]. by apply Forall_app.
Qed.

Lemma leaf_in_B fs r i c :
  content = concat fs ++ r -> Forall (fun c => length c = L) fs -> fs !! i = Some c ->
  (leaf_path (Datatypes.S i) c, c) ∈ B.
Proof.
  intros Hc HF Hi. apply B_blobs. unfold blobs. apply list_elem_of_fmap.
  exists (leafKey L (Datatypes.S i) false c, c). split; [done|].
  unfold leafBlobs. apply elem_of_app. left. unfold fullBlobs. apply elem_of_lookup_imap. exists i, c.
  split; [done|]. rewrite Hc, fulls_prefix by done. by apply lookup_app_l_Some.
Qed.

(** Every event keeps the invariant. *)

Lemma Inv_copy fs failed c cs w s :
  length c <= L -> Inv fs failed (c :: cs) w s -> exists fs', Inv fs' failed cs (written c w) s.
Proof.
  intros Hc [HwL Hwp Hct HF Hb Hn Hp Hfl Hj Hf Hi Hu].
  unfold written. rewrite HwL. destruct (Nat.ltb_spec (length c) (L - length (w_buf w))) as [Hl|Hl].
  - exists fs. split; simpl; try done.
    + rewrite Hct. simpl. by rewrite !app_assoc.
    + rewrite length_app. lia.
  - set (leaf := w_buf w ++ take (L - length (w_buf w)) c).
    assert (Hleaf : length leaf = L) by (unfold leaf; rewrite length_app, length_take; lia).
    assert (Hext : forall i x, fs !! i = Some x -> (fs ++ [leaf]) !! i = Some x)
      by (intros; by apply lookup_app_l_Some).
    exists (fs ++ [leaf]). split; simpl; try done.
    + rewrite Hct, concat_app. simpl. unfold leaf. rewrite !app_nil_r, <- !app_assoc.
      do 2 f_equal. by rewrite app_assoc, take_drop.
    + apply Forall_app. auto.
    + rewrite length_drop. lia.
    + rewrite length_app, Hn. simpl. lia.
    + rewrite fmap_app, length_app, seq_app, <- Hp. simpl. rewrite Hn.
      replace (Datatypes.S (length fs)) with (1 + length fs) by lia. solve_Permutation.
    + rewrite Forall_app, Forall_singleton. split.
      * eapply Forall_impl; [exact Hj|]. intros j (H1 & H2 & H3). split_and!; auto.
      * split_and!; simpl; [lia| |done]. rewrite Hn, Nat.sub_0_r. apply list_lookup_middle. done.
    + eapply Forall_impl; [exact Hf|]. intros bf (H1 & x & H2 & H3 & H4). split; [done|]. eauto.
Qed.

Lemma job_numbers fs failed cs w s i j :
  Inv fs failed cs w s -> w_jobs w !! i = Some j ->
  job_ok fs (w_errors w = []) s j /\ (leaf_path (j_count j) (j_buffer j), j_buffer j) ∈ B.
Proof.
  intros HI Hj. pose proof (inv_jobs _ _ _ _ _ HI) as HJ. rewrite Forall_forall in HJ.
  pose proof (HJ j ltac:(by eapply list_elem_of_lookup_2)) as Hok. split; [done|].
  destruct Hok as (H1 & H2 & _). replace (j_count j) with (Datatypes.S (j_count j - 1)) by lia.
  eapply leaf_in_B; [exact (inv_content _ _ _ _ _ HI)|exact (inv_fulls _ _ _ _ _ HI)|done].
Qed.

(** The jobs and the flushes other than the one that moves are kept, as its
    store call keeps what is stored. *)

Lemma job_ok_mono fs (q q' : Prop) s s' p c j :
  (q' -> q) -> (p, c) ∈ B -> (leaf_path (j_count j) (j_buffer j), j_buffer j) ∈ B ->
  (q' -> blob_step p c s s') -> job_ok fs q s j -> job_ok fs q' s' j.
Proof.
  intros Hq Hpc Hin Hst (H1 & H2 & H3). split_and!; try done. intros Hq' Hv.
  apply (blob_step_stored B B_functional p c s); auto.
Qed.

Lemma flush_ok_mono fs (q q' : Prop) s s' p c bf :
  (forall i x, fs !! i = Some x -> (leaf_path (Datatypes.S i) x, x) ∈ B) ->
  (q' -> q) -> (p, c) ∈ B -> (q' -> blob_step p c s s') -> flush_ok fs q s bf -> flush_ok fs q' s' bf.
Proof.
  intros Hin Hq Hpc Hst (H1 & x & H2 & H3 & H4). split; [done|]. exists x. split_and!; try done.
  intros Hq'. pose proof (Hin _ _ H2) as Hx. replace (Datatypes.S (bf_count bf - 1)) with (bf_count bf) in Hx by lia.
  apply (blob_step_stored B B_functional p c s); auto.
Qed.

Lemma delete_counts (l : list job) i j :
  l !! i = Some j -> j_count <$> l ≡ₚ j_count j :: (j_count <$> delete i l).
Proof. intros H. by rewrite (delete_Permutation l i j H) at 1. Qed.

Lemma Inv_job fs failed cs w s i j r s' :
  Inv fs failed cs w s -> w_jobs w !! i = Some j -> attempt (pFlush_step w j) s = (Ok r, s') ->
  exists failed', Inv fs failed' cs (flushThread w i r) s'.
Proof.
  intros HI Hj H. destruct (job_numbers _ _ _ _ _ _ _ HI Hj) as [(Hj1 & Hj2 & Hj3) HinB].
  pose proof HI as [HwL Hwp Hct HF Hb Hn Hp Hfl HJ HFl Hi Hu].
  assert (HinB' : forall k x, fs !! k = Some x -> (leaf_path (Datatypes.S k) x, x) ∈ B)
    by (intros; by eapply leaf_in_B).
  assert (HJB : Forall (fun j => (leaf_path (j_count j) (j_buffer j), j_buffer j) ∈ B) (w_jobs w)).
  { apply Forall_forall. intros j' [k Hk]%list_elem_of_lookup. by eapply job_numbers. }
  unfold attempt in H. destruct (pFlush_step w j s) as [r0 s1] eqn:E.
  destruct (pFlush_step_spec w j s r0 s1 HwL Hwp E) as (Hfr & Hin & Hout & Hok).
  assert (Hu' : untouched B (objects s0) (objects s1)).
  { intros p' Hp'. rewrite Hfr; [by apply Hu|]. by eapply not_in_names. }
  destruct r0 as [[j'|bf]|e|m]; simplify_eq.
  - destruct (Hin j' eq_refl) as [Hc1 Hc2]. exists failed.
    assert (Hstep : w_errors w = [] -> blob_step (leaf_path (j_count j) (j_buffer j)) (j_buffer j) s s').
    { intros He. eapply Hok; eauto. }
    split; simpl; try done.
    + rewrite list_fmap_insert, Hc1. by rewrite list_insert_id by (rewrite list_lookup_fmap, Hj; done).
    + apply Forall_insert.
      * rewrite Forall_forall in HJ, HJB |- *. intros x Hx.
        by apply (job_ok_mono fs (w_errors w = []) _ s s' _ _ x id HinB); auto.
      * split_and!; rewrite ?Hc1, ?Hc2; try done. intros He Hv.
        destruct (Hok (inl j') eq_refl HinB (Hi He)) as [_ [(j'' & [= <-] & Hne)|Hs]]; [auto|done|done].
    + eapply Forall_impl; [exact HFl|]. intros bf Hbf.
      by apply (flush_ok_mono fs (w_errors w = []) _ s s' _ _ bf HinB' id HinB); auto.
    + intros He. eapply (blob_step_intact B B_functional); eauto.
  - pose proof (Hout bf eq_refl) as ->. exists failed.
    assert (Hstep : w_errors w = [] -> blob_step (leaf_path (j_count j) (j_buffer j)) (j_buffer j) s s').
    { intros He. eapply Hok; eauto. }
    split; simpl; try done.
    + rewrite <- Hp, (delete_counts _ _ _ Hj), fmap_app. simpl. solve_Permutation.
    + apply Forall_delete. rewrite Forall_forall in HJ, HJB |- *. intros x Hx.
        by apply (job_ok_mono fs (w_errors w = []) _ s s' _ _ x id HinB); auto.
    + rewrite Forall_app, Forall_singleton. split.
      * eapply Forall_impl; [exact HFl|]. intros bf Hbf.
      by apply (flush_ok_mono fs (w_errors w = []) _ s s' _ _ bf HinB' id HinB); auto.
      * split; [done|]. exists (j_buffer j). split_and!; try done. simpl. intros He.
        destruct (Hok _ eq_refl HinB (Hi He)) as [_ [(j'' & [=] & _)|Hs]]; auto.
    + intros He. eapply (blob_step_intact B B_functional); eauto.
  - exists (failed ++ [j_count j]). split; simpl; try done.
    + rewrite <- Hp, (delete_counts _ _ _ Hj). solve_Permutation.
    + rewrite !length_app, Hfl. done.
    + apply Forall_delete. eapply Forall_impl; [exact HJ|]. intros x (H1 & H2 & _).
      split_and!; try done. intros He. by apply app_eq_nil in He as [_ ?].
    + eapply Forall_impl; [exact HFl|]. intros bf (H1 & x & H2 & H3 & _). split; [done|]. exists x.
      split_and!; try done. intros He. by apply app_eq_nil in He as [_ ?].
    + intros He. by apply app_eq_nil in He as [_ ?].
Qed.

Lemma exec_Inv es fs failed cs w s cs' w' s' :
  Forall (fun c => length c <= L) cs -> Inv fs failed cs w s ->
  exec es cs w s = Some (Ok (cs', w'), s') -> exists fs' failed', Inv fs' failed' cs' w' s'.
Proof.
  revert fs failed cs w s. induction es as [|e es IH]; intros fs failed cs w s Hcs HI H.
  { simpl in H. simplify_eq. eauto. }
  cbn [exec] in H. destruct e as [|i]; cbn [exec_event] in H.
  - destruct cs as [|c cs1]; [done|]. apply Forall_cons in Hcs as [Hc Hcs].
    pose proof HI as [HwL _ _ _ Hb _ _ _ _ _ _ _].
    rewrite Write_returns in H by lia. destruct (Inv_copy _ _ _ _ _ _ Hc HI) as [fs' HI']. by eapply IH.
  - destruct (w_jobs w !! i) as [j|] eqn:Ej; [|done].
    destruct (attempt (pFlush_step w j) s) as [[o|e|m] s1] eqn:E; [|done..].
    destruct (Inv_job _ _ _ _ _ _ _ _ _ HI Ej E) as [failed' HI']. by eapply IH.
Qed.

(** An execution that stops in a panic of the store has touched no other object. *)

Lemma exec_untouched es fs failed cs w s r s' :
  Forall (fun c => length c <= L) cs -> Inv fs failed cs w s ->
  exec es cs w s = Some (r, s') -> untouched B (objects s0) (objects s').
Proof.
  revert fs failed cs w s. induction es as [|e es IH]; intros fs failed cs w s Hcs HI H.
  { simpl in H. simplify_eq. by destruct HI. }
  cbn [exec] in H. destruct e as [|i]; cbn [exec_event] in H.
  - destruct cs as [|c cs1]; [done|]. apply Forall_cons in Hcs as [Hc Hcs].
    pose proof HI as [HwL _ _ _ Hb _ _ _ _ _ _ _].
    rewrite Write_returns in H by lia. destruct (Inv_copy _ _ _ _ _ _ Hc HI) as [fs' HI']. by eapply IH.
  - destruct (w_jobs w !! i) as [j|] eqn:Ej; [|done].
    destruct (attempt (pFlush_step w j) s) as [ro s1] eqn:E. destruct ro as [o|e|m].
    + destruct (Inv_job _ _ _ _ _ _ _ _ _ HI Ej E) as [failed' HI']. by eapply IH.
    + unfold attempt in E. by destruct (pFlush_step w j s) as [[?|?|?] ?].
    + unfold attempt in E. destruct (pFlush_step w j s) as [ro s2] eqn:Es.
      assert (s' = s2) as -> by (destruct ro; simplify_eq; done).
      destruct (job_numbers _ _ _ _ _ _ _ HI Ej) as [_ Hin]. destruct HI as [HwL Hwp _ _ _ _ _ _ _ _ _ Hu].
      destruct (pFlush_step_spec w j s ro s2 HwL Hwp Es) as (Hfr & _).
      intros p Hp. rewrite Hfr; [by apply Hu|]. by eapply not_in_names.
Qed.

(** ** Flush *)

Lemma place_leaves_spec ls bfs :
  NoDup (bf_count <$> bfs) -> Forall (fun bf => 1 <= bf_count bf <= length ls) bfs ->
  exists ls', place_leaves ls bfs = Ok ls' /\ length ls' = length ls /\
    (forall bf, bf ∈ bfs -> ls' !! (bf_count bf - 1) = Some (bf_key bf)) /\
    (forall i, (forall bf, bf ∈ bfs -> bf_count bf <> Datatypes.S i) -> ls' !! i = ls !! i).
Proof.
  revert ls. induction bfs as [|bf bfs IH]; intros ls Hnd HF; cbn [place_leaves].
  { exists ls. split_and!; try done. set_solver. }
  apply Forall_cons in HF as [Hr HF]. simpl in Hnd. apply NoDup_cons in Hnd as [Hni Hnd].
  replace ((1 <=? bf_count bf) && (bf_count bf <=? length ls)) with true
    by (symmetry; apply andb_true_iff; split; apply Nat.leb_le; lia).
  destruct (IH (<[bf_count bf - 1 := bf_key bf]> ls)) as (ls' & Hp & Hl & Hin & Hout); [done| |].
  { rewrite length_insert. done. }
  rewrite length_insert in Hl. exists ls'. split_and!; try done.
  - intros b [->|Hb]%elem_of_cons; [|by apply Hin]. rewrite Hout.
    + apply list_lookup_insert_eq. lia.
    + intros b' Hb' Heq. apply Hni. apply list_elem_of_fmap. exists b'. split; [lia|done].
  - intros i Hi. rewrite Hout.
    + apply list_lookup_insert_ne. intros Heq. apply (Hi bf); [set_solver|lia].
    + intros b Hb. apply Hi. set_solver.
Qed.

Lemma fullBlobs_lookup fs i : (fullBlobs L fs).*1 !! i = leafKey L (Datatypes.S i) false <$> fs !! i.
Proof.
  unfold fullBlobs. rewrite list_lookup_fmap, list_lookup_imap. by destruct (fs !! i).
Qed.

Lemma Inv_placed fs failed w s :
  Inv fs failed [] w s -> w_jobs w = [] -> w_errors w = [] ->
  place_leaves (replicate (length (w_blobFlushes w)) []) (w_blobFlushes w) = Ok (fullBlobs L fs).*1 /\
  (forall i c, fs !! i = Some c -> objects s !! leaf_path (Datatypes.S i) c = Some c).
Proof.
  intros [HwL Hwp Hct HF Hb Hn Hp Hfl HJ HFl Hi Hu] Hj He.
  rewrite He in Hfl. destruct failed; [|done]. rewrite Hj, app_nil_r in Hp. simpl in Hp.
  assert (Hlen : length (w_blobFlushes w) = length fs).
  { rewrite <- (length_fmap bf_count), (Permutation_length Hp). apply length_seq. }
  assert (Hnum : forall bf, bf ∈ w_blobFlushes w -> 1 <= bf_count bf <= length fs).
  { intros bf Hin. assert (Hc : bf_count bf ∈ bf_count <$> w_blobFlushes w)
      by (apply list_elem_of_fmap; eauto).
    rewrite Hp, elem_of_seq in Hc. lia. }
  assert (Hall : forall i c, fs !! i = Some c -> exists bf, bf ∈ w_blobFlushes w /\ bf_count bf = Datatypes.S i).
  { intros i c Hic. assert (Hc : Datatypes.S i ∈ bf_count <$> w_blobFlushes w).
    { rewrite Hp, elem_of_seq. apply lookup_lt_Some in Hic. lia. }
    apply list_elem_of_fmap in Hc as (bf & Hbf & Hin). eauto. }
  rewrite Forall_forall in HFl. split.
  - destruct (place_leaves_spec (replicate (length (w_blobFlushes w)) []) (w_blobFlushes w))
      as (ls & Hpl & Hll & Hin & _).
    { rewrite Hp. apply NoDup_seq. }
    { apply Forall_forall. intros bf Hbf. rewrite length_replicate, Hlen. by apply Hnum. }
    rewrite Hpl. f_equal. apply list_eq. intros i. rewrite fullBlobs_lookup.
    destruct (fs !! i) as [c|] eqn:Ei.
    + destruct (Hall i c Ei) as (bf & Hbf & Hc). specialize (Hin bf Hbf). rewrite Hc in Hin.
      simpl in Hin. rewrite Nat.sub_0_r in Hin. rewrite Hin. simpl. f_equal.
      destruct (HFl bf Hbf) as (_ & c' & Hc' & -> & _). rewrite Hc in Hc' |- *. simpl in Hc'.
      rewrite Nat.sub_0_r in Hc'. congruence.
    + apply lookup_ge_None in Ei. apply lookup_ge_None. rewrite Hll, length_replicate. lia.
  - intros i c Hic. destruct (Hall i c Hic) as (bf & Hbf & Hc).
    destruct (HFl bf Hbf) as (_ & c' & Hc' & _ & Hst). rewrite Hc in Hc', Hst. simpl in Hc'.
    rewrite Nat.sub_0_r in Hc'. rewrite Hic in Hc'. injection Hc' as <-. auto.
Qed.

(** The whole of [writeBlob], as [flush] and nothing else calls it. *)

Lemma writeBlob_spec v p c s r s' :
  writeBlob v p c s = (r, s') ->
  (forall p', p' <> p -> objects s' !! p' = objects s !! p') /\
  (r = Ok tt -> (p, c) ∈ B -> intact B (objects s) -> blob_step p c s s' /\ objects s' !! p = Some c).
Proof.
  unfold writeBlob, mbind, M_bind, mret, M_ret.
  destruct (existsAndValidBlob p c s) as [[[f o]|e|m] s1] eqn:E1;
    pose proof (exists_step B p c s _ s1 E1) as [Ho1 Hst1]; [|intros H; simplify_eq; by rewrite Ho1..].
  destruct (f && negb o) eqn:Efo; [intros H; simplify_eq; rewrite Ho1; split; [done|]|].
  { intros _ Hin Hi. split; [by left|]. rewrite <- Ho1. by eapply Hst1. }
  destruct (writeBlob_put p c s1) as [[[]|e|m] s2] eqn:E2;
    pose proof (put_step p c s1 _ s2 E2) as [Ho2 Hfr2]; rewrite Ho1 in *;
    [|intros H; simplify_eq; done..].
  rewrite (Ho2 eq_refl) in *. intros H. assert (Hs' : objects s' = <[p:=c]> (objects s)).
  { destruct v; [|simplify_eq; by apply Ho2]. apply verifyBlob_objects in H. rewrite H. by apply Ho2. }
  rewrite Hs'. split; [intros; by rewrite lookup_insert_ne|].
  intros. split; [by right|]. by rewrite lookup_insert_eq.
Qed.

Lemma tail_in_B fs b t :
  content = concat fs ++ b :: t -> Forall (fun c => length c = L) fs -> length (b :: t) < L ->
  (path (leafKey L (length fs) true (b :: t)), b :: t) ∈ B.
Proof.
  intros Hc HF Hl. apply B_blobs. unfold blobs. apply list_elem_of_fmap.
  exists (leafKey L (length fs) true (b :: t), b :: t). split; [done|].
  unfold leafBlobs. rewrite Hc. destruct (fulls_unique L fs (b :: t) L_pos HF Hl) as [-> ->].
  apply elem_of_app. right. by apply list_elem_of_singleton.
Qed.

Lemma leafBlobs_cut fs r :
  content = concat fs ++ r -> Forall (fun c => length c = L) fs -> length r < L ->
  leafBlobs L content = fullBlobs L fs ++
    match r with [] => [] | t => [(leafKey L (length fs) true t, t)] end.
Proof.
  intros Hc HF Hl. unfold leafBlobs. rewrite Hc.
  destruct (fulls_unique L fs r L_pos HF Hl) as [-> ->]. by destruct r.
Qed.

Lemma stored_blobs fs r m :
  content = concat fs ++ r -> Forall (fun c => length c = L) fs -> length r < L ->
  (forall i c, fs !! i = Some c -> m !! leaf_path (Datatypes.S i) c = Some c) ->
  (r <> [] -> m !! path (leafKey L (length fs) true r) = Some r) ->
  stored (blobs prefix L content) m.
Proof.
  intros Hc HF Hl Hfs Hr p c Hin. unfold blobs in Hin.
  apply list_elem_of_fmap in Hin as ([k c'] & Heq & Hin). injection Heq as -> ->.
  rewrite (leafBlobs_cut fs r) in Hin by done. apply elem_of_app in Hin as [Hin|Hin].
  - unfold fullBlobs in Hin. apply elem_of_lookup_imap in Hin as (i & c & Heq & Hi). injection Heq as -> ->.
    by apply Hfs.
  - destruct r as [|b t]; [set_solver|]. apply list_elem_of_singleton in Hin. injection Hin as -> ->.
    by apply Hr.
Qed.

Lemma Flush_untouched fs failed w s r s' :
  Inv fs failed [] w s -> w_jobs w = [] -> Flush w s = (r, s') -> untouched B (objects s0) (objects s').
Proof.
  intros HI Hj H. unfold Flush in H. destruct (w_errors w) eqn:He.
  2: { unfold fail in H. simplify_eq. by destruct HI. }
  destruct (Inv_placed _ _ _ _ HI Hj He) as [Hpl _]. rewrite Hpl in H.
  unfold mbind, M_bind, lift, flush, mret, M_ret in H. cbn [w_buf w_leafSize w_leaves w_prefix w_withVerifyHash pather] in H.
  destruct HI as [HwL Hwp Hct HF Hb Hn Hp Hfl HJ HFl Hi Hu]. rewrite app_nil_r in Hct.
  destruct (w_buf w) as [|b t] eqn:Eb.
  - rewrite decide_True in H by done. cbn [w_leaves w_leafSize] in H. unfold RootHash in H.
    rewrite rootHash_Ok in H. by simplify_eq.
  - rewrite decide_False in H by done. unfold KeyFromBytes in H. rewrite keyFromBytes_Ok in H.
    unfold mbind, M_bind, lift in H.
    match type of H with context [writeBlob ?a1 ?a2 ?a3 s] => destruct (writeBlob a1 a2 a3 s) as [rb s1] eqn:E end. apply writeBlob_spec in E as [Hfr _].
    unfold pather in Hfr. simpl in Hfr. rewrite HwL, Hwp, length_fmap in Hfr.
    assert (length (fullBlobs L fs) = length fs) as Hlf by (unfold fullBlobs; apply length_imap).
    rewrite Hlf in Hfr.
    assert (Hu' : untouched B (objects s0) (objects s1)).
    { intros p' Hp'. rewrite Hfr; [by apply Hu|]. eapply not_in_names; [|done]. by eapply tail_in_B. }
    destruct rb as [[]|e|m]; simplify_eq; try done.
    cbn [w_leaves w_leafSize] in H. unfold RootHash in H. rewrite rootHash_Ok in H. by simplify_eq.
Qed.

Lemma Flush_spec fs failed w s root keys w' s' :
  Inv fs failed [] w s -> w_jobs w = [] -> Flush w s = (Ok (root, keys, w'), s') ->
  root = rootKey L content /\ keys = concat (leafKeys L content) /\
  stored (blobs prefix L content) (objects s') /\ intact B (objects s') /\ w_flushed w' = true.
Proof.
  intros HI Hj H. unfold Flush in H. destruct (w_errors w) eqn:He; [|done].
  destruct (Inv_placed _ _ _ _ HI Hj He) as [Hpl Hst]. rewrite Hpl in H.
  unfold mbind, M_bind, lift, flush, mret, M_ret in H. cbn [w_buf w_leafSize w_leaves w_prefix w_withVerifyHash pather] in H.
  destruct HI as [HwL Hwp Hct HF Hb Hn Hp Hfl HJ HFl Hi Hu]. rewrite app_nil_r in Hct.
  assert (length (fullBlobs L fs).*1 = length fs) as Hlf by (rewrite length_fmap; unfold fullBlobs; apply length_imap).
  pose proof (leafBlobs_cut fs (w_buf w) Hct HF Hb) as Hcut. unfold rootKey, leafKeys. rewrite Hcut.
  destruct (w_buf w) as [|b t] eqn:Eb.
  - rewrite decide_True in H by done. cbn [w_leaves w_leafSize] in H. unfold RootHash in H.
    rewrite rootHash_Ok, HwL in H.
    injection H as Hr1 Hr2 Hr3 Hr4. subst root keys w' s'. rewrite !app_nil_r.
    split_and!; try done; [|by apply Hi]. eapply (stored_blobs fs []); eauto. done.
  - rewrite decide_False in H by done. unfold KeyFromBytes in H. rewrite keyFromBytes_Ok in H.
    unfold mbind, M_bind, lift in H.
    match type of H with context [writeBlob ?a1 ?a2 ?a3 s] => destruct (writeBlob a1 a2 a3 s) as [[[]|e|m] s1] eqn:E end; [|done..].
    cbn [w_leaves w_leafSize] in H. unfold RootHash in H. rewrite rootHash_Ok, HwL in H.
    injection H as Hr1 Hr2 Hr3 Hr4. subst root keys w' s'.
    rewrite ?Hlf, ?HwL in E. rewrite ?Hlf, ?HwL. apply writeBlob_spec in E as [_ Hwr]. unfold pather in Hwr. simpl in Hwr.
    rewrite Hwp in Hwr. pose proof (tail_in_B fs b t Hct HF Hb) as HtB.
    destruct (Hwr eq_refl HtB (Hi He)) as [Hstep Hs].
    rewrite fmap_app. split_and!; try done.
    + eapply (stored_blobs fs (b :: t)); eauto.
      intros i c Hic. eapply (blob_step_stored B B_functional); [exact HtB|by eapply leaf_in_B|exact Hstep|by apply Hst].
    + eapply (blob_step_intact B B_functional); [exact HtB|exact Hstep|by apply Hi].
Qed.

(** The initial state. *)

Lemma Inv_init v cs :
  content = concat cs -> intact B (objects s0) -> Inv [] [] cs (newWriter L prefix v) s0.
Proof. intros Hc Hi. split; simpl; try done; try constructor. Qed.

(** ** On a reliable store *)

Section live.
Context `{HSR : !ReliableStore S}.

Lemma existsAndValidBlob_total p c s : exists fo s', existsAndValidBlob p c s = (Ok fo, s').
Proof.
  unfold existsAndValidBlob, mbind, M_bind, attempt, mret, M_ret.
  destruct (objects s !! p) as [x|] eqn:E.
  - destruct (GetAttr_present p s) as [a Ha]; [eauto|].
    destruct (GetAttr p s) as [r s1]. simpl in Ha. subst r. eauto.
  - destruct (GetAttr_absent p s E) as [e He]. destruct (GetAttr p s) as [r s1]. simpl in He. subst r. eauto.
Qed.

Lemma writeBlob_put_ok p c s : exists s', writeBlob_put p c s = (Ok tt, s') /\ objects s' = <[p:=c]> (objects s).
Proof.
  unfold writeBlob_put. destruct (putBuffer_ok p c OverWrite s) as (s' & -> & Ho); [done|]. eauto.
Qed.

Lemma writeBlob_total v p c s : exists s', writeBlob v p c s = (Ok tt, s').
Proof.
  unfold writeBlob, mbind, M_bind, mret, M_ret.
  destruct (existsAndValidBlob_total p c s) as ([f o] & s1 & ->). destruct (f && negb o); [eauto|].
  destruct (writeBlob_put_ok p c s1) as (s2 & -> & Ho). destruct v; [|eauto].
  destruct (verifyBlob_ok p c s2) as (s3 & -> & _); [|eauto]. by rewrite Ho, lookup_insert_eq.
Qed.

Lemma pFlush_step_total w j s :
  w_leafSize w = L -> w_prefix w = prefix ->
  (j_phase j = PVerify -> objects s !! leaf_path (j_count j) (j_buffer j) = Some (j_buffer j)) ->
  exists o s', pFlush_step w j s = (Ok o, s') /\
    (forall j', o = inl j' -> (j_phase j = PExists /\ j_phase j' = PPut) \/ (j_phase j = PPut /\ j_phase j' = PVerify)).
Proof.
  intros HwL Hwp Hv. unfold pFlush_step, KeyFromBytes. rewrite keyFromBytes_Ok, HwL.
  unfold mbind, M_bind, lift, mret, M_ret. cbv zeta.
  assert (Hp : pather w (blake2b (mkTree L (j_count j) 0 false) (j_buffer j)) = leaf_path (j_count j) (j_buffer j))
    by (unfold pather; by rewrite Hwp).
  rewrite Hp. destruct (j_phase j).
  - destruct (existsAndValidBlob_total (leaf_path (j_count j) (j_buffer j)) (j_buffer j) s) as ([f o] & s1 & ->).
    destruct (f && negb o); eexists _, _; (split; [done|]); intros; simplify_eq; auto.
  - destruct (writeBlob_put_ok (leaf_path (j_count j) (j_buffer j)) (j_buffer j) s) as (s1 & -> & _).
    destruct (w_withVerifyHash w); eexists _, _; (split; [done|]); intros; simplify_eq; auto.
  - destruct (verifyBlob_ok (leaf_path (j_count j) (j_buffer j)) (j_buffer j) s) as (s1 & -> & _); [auto|].
    eexists _, _. split; [done|]. intros; simplify_eq.
Qed.

(** The store calls the jobs still have to make, at most. *)

Definition calls (j : job) : nat :=
  match j_phase j with PExists => 3 | PPut => 2 | PVerify => 1 end.

Definition all_calls (w : fsWriter) : nat := sum_list (calls <$> w_jobs w).

Lemma delete_insert_list {A} (l : list A) i (x : A) : delete i (<[i:=x]> l) = delete i l.
Proof. revert i. induction l as [|y l IH]; intros [|i]; simpl; [done..|]. f_equal. apply IH. Qed.

Lemma Inv_job_total fs failed cs w s i j :
  Inv fs failed cs w s -> w_errors w = [] -> w_jobs w !! i = Some j ->
  exists o s', attempt (pFlush_step w j) s = (Ok (inl o), s') /\
    w_errors (flushThread w i (inl o)) = [] /\ all_calls (flushThread w i (inl o)) < all_calls w.
Proof.
  intros HI He Hj. destruct (job_numbers _ _ _ _ _ _ _ HI Hj) as [(_ & _ & Hv) _].
  destruct (pFlush_step_total w j s) as (o & s' & Hs & Hph).
  { by destruct HI. } { by destruct HI. } { auto. }
  exists o, s'. unfold attempt. rewrite Hs. split; [done|]. unfold all_calls.
  rewrite (delete_Permutation _ _ _ Hj) at 1. rewrite fmap_cons. cbn [sum_list].
  destruct o as [j'|bf]; simpl; (split; [done|]).
  - assert (Hi : i < length (w_jobs w)) by by eapply lookup_lt_Some.
    rewrite (delete_Permutation (<[i:=j']> (w_jobs w)) i j') by by apply list_lookup_insert_eq.
    rewrite delete_insert_list. rewrite fmap_cons. cbn [sum_list].
    unfold id. enough (calls j' < calls j) by lia. unfold calls.
    destruct (Hph j' eq_refl) as [[-> ->]|[-> ->]]; lia.
  - unfold calls. destruct (j_phase j); lia.
Qed.

(** Whatever the execution, it records no error. *)

Lemma exec_quiet es fs failed cs w s r s' :
  Forall (fun c => length c <= L) cs -> Inv fs failed cs w s -> w_errors w = [] ->
  exec es cs w s = Some (r, s') ->
  exists cs' w', r = Ok (cs', w') /\ w_errors w' = [].
Proof.
  revert fs failed cs w s. induction es as [|e es IH]; intros fs failed cs w s Hcs HI He H.
  { simpl in H. simplify_eq. eauto. }
  cbn [exec] in H. destruct e as [|i]; cbn [exec_event] in H.
  - destruct cs as [|c cs1]; [done|]. apply Forall_cons in Hcs as [Hc Hcs].
    pose proof HI as [HwL _ _ _ Hb _ _ _ _ _ _ _].
    rewrite Write_returns in H by lia. destruct (Inv_copy _ _ _ _ _ _ Hc HI) as [fs' HI'].
    eapply IH; [exact Hcs|exact HI'| |exact H]. unfold written. by case_match.
  - destruct (w_jobs w !! i) as [j|] eqn:Ej; [|done].
    destruct (Inv_job_total _ _ _ _ _ _ _ HI He Ej) as (o & s1 & E & He' & _). rewrite E in H.
    destruct (Inv_job _ _ _ _ _ _ _ _ _ HI Ej E) as [failed' HI']. by eapply IH.
Qed.

(** There is a complete execution: copy everything, then run the jobs. *)

Lemma exec_drain n fs failed w s :
  Inv fs failed [] w s -> w_errors w = [] -> all_calls w <= n ->
  exists es w' s', exec es [] w s = Some (Ok ([], w'), s') /\ w_jobs w' = [].
Proof.
  revert fs failed w s. induction n as [|n IH]; intros fs failed w s HI He Hn.
  all: destruct (w_jobs w) as [|j js] eqn:Ej; [by exists [], w, s|].
  all: destruct (Inv_job_total fs failed [] w s 0 j) as (o & s1 & E & He' & Hlt); [done|done|by rewrite Ej|].
  { lia. }
  assert (Hj0 : w_jobs w !! 0 = Some j) by by rewrite Ej.
  destruct (Inv_job _ _ _ _ _ _ _ _ _ HI Hj0 E) as [failed' HI'].
  destruct (IH _ _ _ _ HI' He') as (es & w' & s' & Hes & Hjs); [lia|].
  exists (EvJob 0 :: es), w', s'. split; [|done]. cbn [exec exec_event]. rewrite Hj0, E. done.
Qed.

Lemma exec_complete fs failed cs w s :
  Forall (fun c => length c <= L) cs -> Inv fs failed cs w s -> w_errors w = [] ->
  exists es w' s', exec es cs w s = Some (Ok ([], w'), s') /\ w_jobs w' = [].
Proof.
  revert fs w. induction cs as [|c cs IH]; intros fs w Hcs HI He; [by eapply exec_drain|].
  apply Forall_cons in Hcs as [Hc Hcs]. pose proof HI as [HwL _ _ _ Hb _ _ _ _ _ _ _].
  destruct (Inv_copy _ _ _ _ _ _ Hc HI) as [fs' HI'].
  destruct (IH _ _ Hcs HI') as (es & w' & s' & Hes & Hj); [unfold written; by case_match|].
  exists (EvCopy :: es), w', s'. split; [|done]. cbn [exec exec_event]. by rewrite Write_returns by lia.
Qed.

Lemma Flush_total fs failed w s :
  Inv fs failed [] w s -> w_jobs w = [] -> w_errors w = [] ->
  exists root keys w' s', Flush w s = (Ok (root, keys, w'), s').
Proof.
  intros HI Hj He. unfold Flush. rewrite He.
  destruct (Inv_placed _ _ _ _ HI Hj He) as [Hpl _]. rewrite Hpl.
  unfold mbind, M_bind, lift, flush, mret, M_ret, RootHash, KeyFromBytes. simpl w_buf.
  case_decide; [rewrite rootHash_Ok; eauto 10|]. rewrite keyFromBytes_Ok.
  unfold mbind, M_bind, lift.
  match goal with |- context [writeBlob ?v ?p ?c s] => destruct (writeBlob_total v p c s) as [s1 ->] end.
  rewrite rootHash_Ok. eauto 10.
Qed.

End live.

End invariant.

End CafsFlush.
