(* ===== verification/CafsReader.v ===== *)
(** * The reader of the content-addressable file system (pkg/cafs: reader.go)

    [Read] is the io.Reader, [ReadAt] the io.ReaderAt with its buffer cache,
    [WriteTo] the parallel copy to an io.WriterAt. A blob being read is the
    list of its bytes not yet delivered; how many bytes one call of its Read
    delivers, and whether the end is reported with the last bytes or after
    them, is the parameter [blob_read] (the store is free to choose, call by
    call). Prefetching is left out: [ReadAt] is the code path of a reader whose
    maxFetchAhead is 0, which is the default of the file system. *)

From S2P Require Import Prelude GoLib Errors Storage CafsKeys Lru.

Module CafsReader.
Import Storage CafsKeys Lru.

Definition EOF : error := ErrMsg "EOF".

Inductive read_status : Type := RNil | REOF | RErr (e : error).

(** Number of the call, bytes left, room in the buffer: bytes delivered and
    error. *)

Class BlobReader : Type := blob_read : nat -> nat -> nat -> nat * read_status.

(** The contract of io.Reader, for a reader that does not fail and does not
    return 0 bytes without an error. *)

Class BlobReaderLaws `{BlobReader} : Prop := {
  blob_read_bound t rem room n st : blob_read t rem room = (n, st) -> n <= rem /\ n <= room;
  blob_read_eof t rem room n : blob_read t rem room = (n, REOF) -> n = rem;
  blob_read_progress t rem room n : blob_read t rem room = (n, RNil) -> 0 < room -> 0 < n;
  blob_read_ok t rem room n e : blob_read t rem room <> (n, RErr e)
}.

Record chunkReader : Type := mkReader {
  r_leafSize : nat;
  r_prefix : string;
  r_keys : list Key;
  r_idx : nat;
  r_rdr : option bytes;
  r_readSoFar : nat;
  r_lastChunk : bool;
  r_currLeaf : bytes;
  r_withVerifyHash : bool;
  r_truncation : nat;
  r_calls : nat
}.

Definition newReader (leafSize : nat) (prefix : string) (keys : list Key) (withVerifyHash : bool) (truncation : nat)
    : chunkReader :=
  mkReader leafSize prefix keys 0 None 0 false [] withVerifyHash truncation 0.

Definition r_pather (r : chunkReader) (k : Key) : string := StringWithPrefix k (r_prefix r).

(** data[off:off+len(b)] = b *)

Definition overwrite (data : bytes) (off : nat) (b : bytes) : bytes :=
  take off data ++ b ++ drop (off + length b) data.

Section ops.
Context `{HB : Blake2b} `{HR : BlobReader} {S : Type} `{HS : Store S}.

Definition verifyHash (r : chunkReader) (key : Key) (data : bytes) (offset : nat) (isLastNode : bool) : res unit :=
  leafKey ← KeyFromBytes data (r_leafSize r) offset isLastNode;
  if decide (key <> leafKey) then Err (ErrMsg "hash verification failed") else mret tt.

(** A call of Read: the buffer, the count and the error. *)

Definition read_result : Type := bytes * nat * option error.

(** The state after r.rdr.Read returned the bytes [b]. *)

Definition received (r : chunkReader) (rem b : bytes) : chunkReader :=
  mkReader (r_leafSize r) (r_prefix r) (r_keys r) (r_idx r) (Some rem) (r_readSoFar r) (r_lastChunk r)
    (r_currLeaf r ++ b) (r_withVerifyHash r) (r_truncation r) (Datatypes.S (r_calls r)).

Definition set_readSoFar (r : chunkReader) (n : nat) : chunkReader :=
  mkReader (r_leafSize r) (r_prefix r) (r_keys r) (r_idx r) (r_rdr r) n (r_lastChunk r)
    (r_currLeaf r) (r_withVerifyHash r) (r_truncation r) (r_calls r).

(** The end of the stream of a key. *)

Definition next_key (r : chunkReader) (readSoFar : nat) : chunkReader :=
  mkReader (r_leafSize r) (r_prefix r) (r_keys r) (Datatypes.S (r_idx r)) None readSoFar
    (Datatypes.S (r_idx r) =? length (r_keys r)) (r_currLeaf r) (r_withVerifyHash r) (r_truncation r) (r_calls r).

Definition fresh_leaf (r : chunkReader) : chunkReader :=
  mkReader (r_leafSize r) (r_prefix r) (r_keys r) (r_idx r) (r_rdr r) (r_readSoFar r) (r_lastChunk r)
    [] (r_withVerifyHash r) (r_truncation r) (r_calls r).

(** The verification of a leaf that was read entirely. *)

Definition verifyLeaf (r : chunkReader) (key : Key) : res unit :=
  if r_withVerifyHash r then
    if r_lastChunk r && negb (length (r_currLeaf r) =? r_leafSize r)
    then verifyHash r key (r_currLeaf r) (r_idx r - 1) true
    else verifyHash r key (r_currLeaf r) (r_idx r) false
  else Ok tt.

(** The loop of [Read]; the fuel bounds its turns. *)

Fixpoint read_loop (fuel : nat) (data : bytes) (r : chunkReader) (s : S)
    : option (res (read_result * chunkReader) * S) :=
  match fuel with
  | O => None
  | Datatypes.S f =>
      match r_keys r !! r_idx r with
      | None => Some (Panic "index out of range", s)
      | Some key =>
          let '(opened, s1) :=
            match r_rdr r with
            | Some rem => (Ok rem, s)
            | None => Get (r_pather r key) s
            end in
          match opened with
          | Panic m => Some (Panic m, s1)
          | Err e => Some (Ok ((data, r_readSoFar r, Some e), r), s1)
          | Ok rem =>
              if length data <? r_readSoFar r then Some (Panic "slice bounds out of range", s1)
              else
                let '(n, st) := blob_read (r_calls r) (length rem) (length data - r_readSoFar r) in
                let data' := overwrite data (r_readSoFar r) (take n rem) in
                let r1 := received r (drop n rem) (take n rem) in
                let readSoFar := r_readSoFar r + n in
                match st with
                | RErr e => Some (Ok ((data', n, Some e), set_readSoFar r1 readSoFar), s1)
                | REOF =>
                    let r2 := next_key r1 readSoFar in
                    match verifyLeaf r2 key with
                    | Panic m => Some (Panic m, s1)
                    | Err e => Some (Ok ((data', 0, Some e), r2), s1)
                    | Ok _ =>
                        if r_lastChunk r2 then
                          if n =? length data then Some (Ok ((data', n, None), r2), s1)
                          else Some (Ok ((data', readSoFar, Some EOF), r2), s1)
                        else read_loop f data' (fresh_leaf r2) s1
                    end
                | RNil =>
                    if length data <=? readSoFar
                    then Some (Ok ((data', length data, None), set_readSoFar r1 0), s1)
                    else read_loop f data' (set_readSoFar r1 readSoFar) s1
                end
          end
      end
  end.

Definition Read (fuel : nat) (data : bytes) (r : chunkReader) (s : S)
    : option (res (read_result * chunkReader) * S) :=
  if r_lastChunk r && bool_decide (r_rdr r = None) then Some (Ok ((data, 0, Some EOF), r), s)
  else read_loop fuel data r s.

(** Enough turns: each one delivers a byte, or ends a key, but for the last. *)

Definition read_fuel (data : bytes) (r : chunkReader) : nat := length data + length (r_keys r) + 2.

(** ** ReadAt *)

Definition calculateKeyAndOffset (off leafSize : nat) : nat * nat := (off / leafSize, off mod leafSize).

(** [readLeaf] without prefetching: the blob is read to the buffer of the free
    list, of capacity [cap], until the end or until the buffer is full. *)

Definition readLeaf (r : chunkReader) (cap : nat) (k : Key) (index : nat) : M S bytes :=
  blob ← Get (r_pather r k);
  let buffer := take cap blob in
  if r_withVerifyHash r then
    if (index + 1 =? length (r_keys r)) && negb (length buffer =? r_leafSize r)
    then _ ← lift (verifyHash r k buffer index true); mret buffer
    else _ ← lift (verifyHash r k buffer (index + 1) false); mret buffer
  else mret buffer.

Context {C : Type} `{HC : Lru C string bytes}.

(** The leaf from the cache, or from the store and then added to the cache
    when the copy is done. *)

Definition cachedLeaf (r : chunkReader) (cap : nat) (key : Key) (index : nat) : M (S * C) bytes := fun '(s, c) =>
  match lru_Get (r_pather r key) c with
  | (Some buffer, c') => (Ok buffer, (s, c'))
  | (None, c') =>
      match readLeaf r cap key index s with
      | (Ok buffer, s') => (Ok buffer, (s', (lru_ContainsOrAdd (r_pather r key) buffer c').2))
      | (Err e, s') => (Err e, (s', c'))
      | (Panic m, s') => (Panic m, (s', c'))
      end
  end.

(** The loop of [ReadAt] over the keys from the first one on: the bytes copied
    to data[readBytes:]. With an error the count of the bytes copied before is
    not kept. *)

Fixpoint readAt_loop (r : chunkReader) (cap : nat) (keys : list Key) (index offset room : nat) : M (S * C) bytes :=
  match keys with
  | [] => mret []
  | key :: keys' =>
      buffer ← cachedLeaf r cap key index;
      if length buffer <? offset then panic "slice bounds out of range"
      else
        let copied := take room (drop offset buffer) in
        if room - length copied =? 0 then mret copied
        else rest ← readAt_loop r cap keys' (index + 1) 0 (room - length copied);
             mret (copied ++ rest)
  end.

Definition ReadAt (r : chunkReader) (cap : nat) (bytesToRead off : nat) : M (S * C) bytes :=
  let '(index, offset) := calculateKeyAndOffset off (r_leafSize r) in
  if length (r_keys r) <=? index then mret []
  else readAt_loop r cap (drop index (r_keys r)) index offset bytesToRead.

(** ** WriteTo *)

(** WriteAt of an io.WriterAt such as a file: a gap is filled with zeros. *)

Definition WriteAt (file : bytes) (p : bytes) (off : nat) : bytes :=
  overwrite (file ++ replicate (off + length p - length file) Byte.x00) off p.

(** The goroutine of one key: io.Copy of its blob at the offset of the leaf. *)

Definition leaf_stride (r : chunkReader) : nat :=
  Z.to_nat (Int.uint32 (Z.of_nat (r_leafSize r) - Z.of_nat (r_truncation r))).

Definition write_leaf (r : chunkReader) (i : nat) (file : bytes) : M S bytes :=
  match r_keys r !! i with
  | None => panic "index out of range"
  | Some key =>
      blob ← Get (r_pather r key);
      mret (WriteAt file blob (i * leaf_stride r))
  end.

(** The goroutines run in some order; all of them run, and the first error, if
    any, is the result. *)

Fixpoint write_leaves (r : chunkReader) (order : list nat) (file : bytes) (s : S) : res bytes * S :=
  match order with
  | [] => (Ok file, s)
  | i :: order' =>
      match write_leaf r i file s with
      | (Ok file', s') => write_leaves r order' file' s'
      | (Err e, s') => (Err e, (write_leaves r order' file s').2)
      | (Panic m, s') => (Panic m, s')
      end
  end.

Definition WriteTo (r : chunkReader) (order : list nat) (file : bytes) : M S bytes :=
  if length (r_keys r) =? 0 then mret file else write_leaves r order file.

End ops.

End CafsReader.
