(* ===== verification/CafsRead.v ===== *)
(** * Correctness of the reader (pkg/cafs: reader.go)

    On a store that holds the leaves of a content, a reader over its leaf keys
    delivers the content: through [Read] with any sizes of the buffers and any
    fragmentation of the blobs, through [ReadAt] at any offset with or without
    cached leaves, and through [WriteTo] in any order of its goroutines. *)

From S2P Require Import Prelude GoLib Errors Storage CafsKeys CafsFlush Lru CafsReader.

Module CafsRead.
Import Storage CafsKeys CafsFlush Lru CafsReader.

Section overwrite.

Lemma overwrite_length data off b : off + length b <= length data -> length (overwrite data off b) = length data.
Proof. intros H. unfold overwrite. rewrite !length_app, length_take, length_drop. lia. Qed.

Lemma overwrite_take data off b n :
  off + length b <= length data -> n = off + length b -> take n (overwrite data off b) = take off data ++ b.
Proof.
  intros H ->. unfold overwrite. rewrite app_assoc. apply take_app_exact.
  rewrite length_app, length_take. lia.
Qed.

End overwrite.

Section read.
Context `{HB : !Blake2b, HBL : !Blake2bLaws} `{HR : !BlobReader, HRL : !BlobReaderLaws}.
Context {S : Type} `{HS : !Store S, HSL : !StoreLaws S, HSR : !ReliableStore S}.
Variables (L : nat) (prefix : string) (content : bytes).
Hypothesis L_pos : 0 < L.

Abbreviation bl := (leafBlobs L content).

Abbreviation holds s := (stored (blobs prefix L content) (objects s)).

Lemma leafBlobs_lookup i k c :
  bl !! i = Some (k, c) ->
  (length c = L /\ k = leafKey L (Datatypes.S i) false c) \/
  (Datatypes.S i = length bl /\ length c <> L /\ k = leafKey L i true c).
Proof.
  destruct (cut_content L content L_pos) as (Hc & Ht & HF). unfold leafBlobs.
  set (fs := fulls L content) in *. set (t := tail L content) in *.
  assert (Hlen : length (fullBlobs L fs) = length fs) by apply length_imap.
  intros [Hi|[Hge Hi]]%lookup_app_Some.
  - left. unfold fullBlobs in Hi. rewrite list_lookup_imap in Hi.
    destruct (fs !! i) as [c'|] eqn:E; simpl in Hi; simplify_eq.
    split; [|done]. rewrite Forall_forall in HF. apply HF. by eapply list_elem_of_lookup_2.
  - right. rewrite Hlen in Hi, Hge. destruct t as [|b t'] eqn:Et; [done|].
    destruct (i - length fs) as [|n] eqn:En; [|done]. simpl in Hi. injection Hi as <- <-.
    rewrite length_app, Hlen. simpl in *. split_and!; [lia|lia|]. by replace i with (length fs) by lia.
Qed.

Lemma leaf_nonempty i k c : bl !! i = Some (k, c) -> 0 < length c.
Proof.
  intros Hi. destruct (leafBlobs_nonempty L content k c L_pos) as [Hne _].
  - by eapply list_elem_of_lookup_2.
  - destruct c; [done|]. simpl. lia.
Qed.

Lemma holds_Get s i k c :
  holds s -> bl !! i = Some (k, c) ->
  exists s', Get (StringWithPrefix k prefix) s = (Ok c, s') /\ objects s' = objects s.
Proof.
  intros Hs Hi. apply Get_ok. apply Hs. unfold blobs. apply list_elem_of_fmap.
  exists (k, c). split; [done|]. by eapply list_elem_of_lookup_2.
Qed.

(** The state of a reader that has delivered all but [rest]. *)

Definition RI (r : chunkReader) (rest : bytes) : Prop :=
  r_leafSize r = L /\ r_prefix r = prefix /\ r_keys r = bl.*1 /\
  ((r_lastChunk r = false /\ exists k c, bl !! r_idx r = Some (k, c) /\
      match r_rdr r with
      | None => r_currLeaf r = [] /\ rest = concat (drop (r_idx r) bl).*2
      | Some rem => r_currLeaf r ++ rem = c /\ rest = rem ++ concat (drop (Datatypes.S (r_idx r)) bl).*2
      end) \/
   (r_lastChunk r = true /\ r_rdr r = None /\ rest = [])).

Lemma drop_leaf i k c : bl !! i = Some (k, c) -> concat (drop i bl).*2 = c ++ concat (drop (Datatypes.S i) bl).*2.
Proof. intros Hi. by rewrite (drop_S _ _ _ Hi). Qed.

(** A leaf that was read entirely passes the verification of the reader. *)

Lemma verifyLeaf_ok r k c :
  r_leafSize r = L -> r_keys r = bl.*1 -> 1 <= r_idx r -> bl !! (r_idx r - 1) = Some (k, c) ->
  r_currLeaf r = c -> r_lastChunk r = (r_idx r =? length (r_keys r)) -> verifyLeaf r k = Ok tt.
Proof.
  intros HL Hk Hidx Hi Hc Hlast. unfold verifyLeaf. destruct (r_withVerifyHash r); [|done].
  rewrite Hlast, Hk, length_fmap, HL, Hc.
  unfold verifyHash, KeyFromBytes. rewrite !keyFromBytes_Ok, HL.
  destruct (leafBlobs_lookup _ _ _ Hi) as [[HcL ->]|(Hn & HcL & ->)].
  - rewrite HcL, Nat.eqb_refl, andb_false_r. cbn.
    replace (Datatypes.S (r_idx r - 1)) with (r_idx r) by lia. by rewrite decide_False by naive_solver.
  - replace (r_idx r =? length bl) with true by (symmetry; apply Nat.eqb_eq; lia).
    destruct (Nat.eqb_spec (length c) L); [done|]. cbn. by rewrite decide_False by naive_solver.
Qed.

Lemma last_leaf i : i < length bl -> Datatypes.S i <> length bl -> exists k c, bl !! Datatypes.S i = Some (k, c).
Proof.
  intros Hi Hn. destruct (lookup_lt_is_Some_2 bl (Datatypes.S i)) as [[k c] Hk]; [lia|]. eauto.
Qed.

(** What a call of [Read] gives when [k] bytes are delivered after the first
    [off] of the buffer. *)

Definition delivered (data : bytes) (off : nat) (rest : bytes) (s : S)
    (o : option (res (read_result * chunkReader) * S)) : Prop :=
  let k := Nat.min (length data - off) (length rest) in
  exists data' err r' s', o = Some (Ok ((data', off + k, err), r'), s') /\
    objects s' = objects s /\ length data' = length data /\
    take (off + k) data' = take off data ++ take k rest /\
    RI r' (drop k rest) /\
    ((err = None /\ off + k = length data /\ (r_readSoFar r' = 0 \/ r_lastChunk r' = true)) \/
     (err = Some EOF /\ k = length rest /\ r_lastChunk r' = true)).

Lemma delivered_step data data' off n rest b s s1 o :
  off + length b <= length data -> n = length b -> data' = overwrite data off b -> objects s1 = objects s ->
  delivered data' (off + n) rest s1 o -> delivered data off (b ++ rest) s o.
Proof.
  intros Hl -> -> Hs (d2 & err & r' & s' & -> & Ho & Hd & Ht & HRI & Hcase).
  rewrite overwrite_length in * by done. set (k := Nat.min (length data - (off + length b)) (length rest)) in *.
  assert (Hk : Nat.min (length data - off) (length (b ++ rest)) = length b + k)
    by (rewrite length_app; unfold k; lia).
  unfold delivered. rewrite Hk. exists d2, err, r', s'. rewrite Nat.add_assoc. split_and!; try done.
  - congruence.
  - rewrite Ht, overwrite_take by lia. rewrite <- app_assoc. f_equal.
    rewrite take_app_ge by lia. f_equal. f_equal. lia.
  - rewrite drop_app_ge by lia. by replace (length b + k - length b) with k by lia.
  - rewrite length_app. destruct Hcase as [?|(? & -> & ?)]; [by left|]. right. done.
Qed.

(** The stream of the current key: already open, or opened by this turn. *)

Lemma open_leaf r rest s k c :
  r_prefix r = prefix -> holds s -> bl !! r_idx r = Some (k, c) ->
  match r_rdr r with
  | None => r_currLeaf r = [] /\ rest = concat (drop (r_idx r) bl).*2
  | Some rem => r_currLeaf r ++ rem = c /\ rest = rem ++ concat (drop (Datatypes.S (r_idx r)) bl).*2
  end ->
  exists rem s1,
    (match r_rdr r with Some rem => (Ok rem, s) | None => Get (r_pather r k) s end) = (Ok rem, s1) /\
    objects s1 = objects s /\ r_currLeaf r ++ rem = c /\
    rest = rem ++ concat (drop (Datatypes.S (r_idx r)) bl).*2.
Proof.
  intros Hp Hs Hi H. destruct (r_rdr r) as [rem|].
  - exists rem, s. destruct H as [? ?]. done.
  - destruct (holds_Get s _ _ _ Hs Hi) as (s1 & Hg & Ho). unfold r_pather. rewrite Hp.
    exists c, s1. destruct H as [-> ->]. split_and!; try done. by apply drop_leaf with k.
Qed.

Lemma RI_received r rem b rest k c :
  r_leafSize r = L -> r_prefix r = prefix -> r_keys r = bl.*1 -> r_lastChunk r = false ->
  bl !! r_idx r = Some (k, c) -> r_currLeaf r ++ b ++ rem = c ->
  rest = rem ++ concat (drop (Datatypes.S (r_idx r)) bl).*2 ->
  forall n, RI (set_readSoFar (received r rem b) n) rest.
Proof.
  intros HL Hp Hk Hl Hi Hc Hr n. split_and!; try done. left. split; [done|]. exists k, c. split; [done|].
  simpl. by rewrite <- app_assoc.
Qed.

Lemma drop_last_leaf i : Datatypes.S i = length bl -> concat (drop (Datatypes.S i) bl).*2 = [].
Proof. intros ->. by rewrite drop_all. Qed.

Lemma read_loop_delivers fuel data r s rest :
  RI r rest -> r_lastChunk r = false -> holds s -> r_readSoFar r <= length data ->
  (length data - r_readSoFar r) + (length bl - r_idx r) + 1 <= fuel ->
  delivered data (r_readSoFar r) rest s (read_loop fuel data r s).
Proof.
  revert data r s rest. induction fuel as [|f IH]; intros data r s rest HRI Hlast Hs Hoff Hf; [lia|].
  pose proof HRI as (HL & Hp & Hk & [(_ & k & c & Hi & Hrdr)|(? & _)]); [|congruence].
  cbn [read_loop]. rewrite Hk, list_lookup_fmap, Hi. simpl fmap. cbn iota beta.
  destruct (open_leaf r rest s k c Hp Hs Hi Hrdr) as (rem & s1 & -> & Ho & Hc & Hrest).
  destruct (Nat.ltb_spec (length data) (r_readSoFar r)); [lia|].
  assert (Hs1 : holds s1) by (rewrite Ho; done).
  assert (Hidx : r_idx r < length bl) by by eapply lookup_lt_Some.
  destruct (blob_read (r_calls r) (length rem) (length data - r_readSoFar r)) as [n st] eqn:E.
  destruct (blob_read_bound _ _ _ _ _ E) as [Hn1 Hn2].
  assert (Hb : length (take n rem) = n) by (rewrite length_take; lia).
  assert (Hsplit : rest = take n rem ++ drop n rem ++ concat (drop (Datatypes.S (r_idx r)) bl).*2)
    by (rewrite app_assoc, take_drop; done).
  assert (Hleaf : r_currLeaf r ++ take n rem ++ drop n rem = c) by by rewrite take_drop.
  set (rest' := drop n rem ++ concat (drop (Datatypes.S (r_idx r)) bl).*2) in *.
  assert (HRI1 : forall m, RI (set_readSoFar (received r (drop n rem) (take n rem)) m) rest')
    by (by eapply RI_received).
  destruct st as [| |e]; [| |by apply blob_read_ok in E].
  - destruct (Nat.leb_spec (length data) (r_readSoFar r + n)) as [Hfull|Hmore].
    + rewrite Hsplit. eapply (delivered_step _ _ _ n); [lia|done|done|exact Ho|].
      exists (overwrite data (r_readSoFar r) (take n rem)), None, (set_readSoFar (received r (drop n rem) (take n rem)) 0), s1.
      rewrite overwrite_length by lia.
      replace ((length data - (r_readSoFar r + n)) `min` length rest') with 0 by lia.
      rewrite Nat.add_0_r, take_0, app_nil_r, drop_0. split_and!; try done.
      * by replace (length data) with (r_readSoFar r + n) by lia.
      * left. simpl. split_and!; [done|lia|by left].
    + assert (0 < n) by (eapply blob_read_progress; [exact E|lia]).
      rewrite Hsplit. eapply (delivered_step _ _ _ n); [lia|done|done|exact Ho|].
      apply (IH _ (set_readSoFar (received r (drop n rem) (take n rem)) (r_readSoFar r + n))); simpl;
        rewrite ?overwrite_length by lia; try done; lia.
  - apply blob_read_eof in E. subst n. rewrite drop_all in *.
    assert (Htk : take (length rem) rem = rem) by (apply take_ge; lia). rewrite Htk in *.
    set (r2 := next_key (received r [] rem) (r_readSoFar r + length rem)).
    assert (Hv : verifyLeaf r2 k = Ok tt).
    { rewrite app_nil_r in Hleaf. apply (verifyLeaf_ok r2 k c); try done.
      - simpl. lia.
      - simpl. by rewrite Nat.sub_0_r. }
    rewrite Hv. change (r_lastChunk r2) with (Datatypes.S (r_idx r) =? length (r_keys r)).
    rewrite Hk, length_fmap.
    destruct (Nat.eqb_spec (Datatypes.S (r_idx r)) (length bl)) as [Hend|Hmore].
    + assert (Hr0 : rest' = []) by (unfold rest'; rewrite ?drop_all; by apply drop_last_leaf).
      rewrite Hr0, app_nil_r in Hsplit. subst rest.
      assert (Hl2 : r_lastChunk r2 = true)
        by (change (r_lastChunk r2) with (Datatypes.S (r_idx r) =? length (r_keys r));
            rewrite Hk, length_fmap; by apply Nat.eqb_eq).
      assert (HRI2 : RI r2 []) by (split_and!; try done; by right).
      rewrite Hsplit. rewrite <- (app_nil_r rem) at 1.
      destruct (Nat.eqb_spec (length rem) (length data)) as [Hx|Hx].
      * eapply (delivered_step _ _ _ (length rem)); [lia|done|done|exact Ho|].
        exists (overwrite data (r_readSoFar r) rem), None, r2, s1. simpl length. rewrite Nat.min_0_r, Nat.add_0_r, take_0, app_nil_r, drop_0.
        rewrite overwrite_length by lia. split_and!; try done.
        -- by replace (r_readSoFar r + length rem) with (length rem) by lia.
        -- left. split_and!; [done|lia|by right].
      * eapply (delivered_step _ _ _ (length rem)); [lia|done|done|exact Ho|].
        exists (overwrite data (r_readSoFar r) rem), (Some EOF), r2, s1. simpl length. rewrite Nat.min_0_r, Nat.add_0_r, take_0, app_nil_r, drop_0.
        rewrite overwrite_length by lia. split_and!; try done.
        -- right. done.
    + rewrite Hsplit. eapply (delivered_step _ _ _ (length rem)); [lia|done|done|exact Ho|].
      destruct (last_leaf (r_idx r) Hidx Hmore) as (k' & c' & Hi').
      assert (Hl2 : r_lastChunk (fresh_leaf r2) = false)
        by (change (r_lastChunk (fresh_leaf r2)) with (Datatypes.S (r_idx r) =? length (r_keys r));
            rewrite Hk, length_fmap; by apply Nat.eqb_neq).
      apply (IH _ (fresh_leaf r2)); simpl; rewrite ?overwrite_length by lia; try done; try lia.
      * split_and!; try done. left. split; [exact Hl2|]. exists k', c'. split; [exact Hi'|]. simpl. split; [done|]. unfold rest'. by rewrite ?drop_all.
Qed.

Lemma RI_new v tr : content <> [] -> RI (newReader L prefix bl.*1 v tr) content.
Proof.
  intros Hne. split_and!; try done. left. split; [done|].
  destruct bl as [|[k c] l] eqn:E.
  { exfalso. apply Hne. by rewrite <- (leafBlobs_content L content L_pos), E. }
  exists k, c. split; [done|]. split; [done|]. rewrite <- E. change (r_idx _) with 0.
  by rewrite drop_0, leafBlobs_content.
Qed.

(** A reader that has [rest] left fills the buffer with the first bytes of [rest]
    as far as they reach. *)

Lemma Read_delivers data r s rest :
  RI r rest -> (r_readSoFar r = 0 \/ r_lastChunk r = true) -> holds s ->
  let k := Nat.min (length data) (length rest) in
  exists data' err r' s', Read (read_fuel data r) data r s = Some (Ok ((data', k, err), r'), s') /\
    take k data' = take k rest /\ RI r' (drop k rest) /\ (r_readSoFar r' = 0 \/ r_lastChunk r' = true) /\
    objects s' = objects s /\
    ((err = None /\ k = length data) \/ (err = Some EOF /\ k = length rest)).
Proof.
  intros HRI Hoff Hs k. unfold Read.
  destruct (r_lastChunk r) eqn:El.
  - destruct HRI as (HL & Hp & Hk & [(? & _)|(_ & Hr & Hrest)]); [congruence|].
    rewrite Hr, bool_decide_eq_true_2 by done. simpl. subst rest k. simpl. rewrite Nat.min_0_r.
    exists data, (Some EOF), r, s. split_and!; try done; auto.
    split_and!; try done. by right.
  - destruct Hoff as [Hoff|?]; [|done]. simpl.
    pose proof HRI as (HL & Hp & Hk & _).
    pose proof (read_loop_delivers (read_fuel data r) data r s rest HRI El Hs) as HD.
    rewrite Hoff in HD. unfold read_fuel in HD at 1. rewrite Hk, length_fmap in HD.
    specialize (HD ltac:(lia) ltac:(lia)).
    destruct HD as (d' & err & r' & s' & Heq & Ho & Hlen & Ht & HRI' & Hcase).
    rewrite Nat.sub_0_r in *. fold k in Heq, Ht, HRI', Hcase. simpl in Heq, Ht, HRI'.
    exists d', err, r', s'. split_and!; try done.
    + destruct Hcase as [(? & ? & ?)|(? & ? & ?)]; auto.
    + destruct Hcase as [(? & ? & ?)|(? & ? & ?)]; auto.
Qed.

(** A client that calls [Read] once for each of its buffers, and what each of these
    calls delivers. *)

Fixpoint reads (bufs : list bytes) (r : chunkReader) (s : S) : option (res (list (bytes * option error) * chunkReader) * S) :=
  match bufs with
  | [] => Some (Ok ([], r), s)
  | buf :: bufs' =>
      match Read (read_fuel buf r) buf r s with
      | Some (Ok ((data, n, err), r'), s') =>
          match reads bufs' r' s' with
          | Some (Ok (outs, r''), s'') => Some (Ok ((take n data, err) :: outs, r''), s'')
          | o => o
          end
      | Some (Err e, s') => Some (Err e, s')
      | Some (Panic m, s') => Some (Panic m, s')
      | None => None
      end
  end.

(** The parts of a content, one after the other, that fit in buffers of the
    lengths [ns]. *)

Fixpoint parts (ns : list nat) (c : bytes) : list bytes :=
  match ns with
  | [] => []
  | n :: ns' => take n c :: parts ns' (drop n c)
  end.

(** What a sequence of reads gives that starts with [rest] left: the buffers are
    filled one after the other, and the end is reported when nothing is left,
    and then only. *)

Definition read_back (ns : list nat) (rest : bytes) (outs : list (bytes * option error)) : Prop :=
  outs.*1 = parts ns rest /\
  Forall2 (fun n o => (o.2 = None /\ length o.1 = n) \/ o.2 = Some EOF) ns outs /\
  forall i b, outs !! i = Some (b, Some EOF) -> concat (take (Datatypes.S i) outs.*1) = rest.

Lemma reads_deliver bufs r s rest :
  RI r rest -> (r_readSoFar r = 0 \/ r_lastChunk r = true) -> holds s ->
  exists outs r' s', reads bufs r s = Some (Ok (outs, r'), s') /\ objects s' = objects s /\ read_back (length <$> bufs) rest outs.
Proof.
  revert r s rest. induction bufs as [|buf bufs IH]; intros r s rest HRI Hoff Hs.
  { exists [], r, s. by split_and!. }
  destruct (Read_delivers buf r s rest HRI Hoff Hs) as (data & err & r1 & s1 & E & Ht & HRI1 & Hoff1 & Ho1 & Hend). set (k := Nat.min (length buf) (length rest)) in *.
  destruct (IH r1 s1 (drop k rest) HRI1 Hoff1) as (outs & r2 & s2 & E2 & Ho2 & Hp & Hf & Heof); [by rewrite Ho1|].
  assert (Hk : take (length buf) rest = take k rest /\ drop (length buf) rest = drop k rest).
  { unfold k. destruct (Nat.le_ge_cases (length buf) (length rest)); [by rewrite Nat.min_l|]. rewrite Nat.min_r by done. split; [by rewrite !take_ge|by rewrite !drop_ge]. }
  exists ((take k data, err) :: outs), r2, s2. cbn [reads]. rewrite E, E2, Ht. split; [done|]. split; [congruence|]. split_and!.
  - cbn [fmap list_fmap fst parts]. destruct Hk as [-> ->]. by rewrite Hp.
  - cbn [fmap list_fmap]. constructor; [|done]. cbn. destruct Hend as [[-> Hn]|[-> _]]; [left|by right]. split; [done|]. rewrite length_take. unfold k in Hn |- *. lia.
  - intros [|i] b; cbn [lookup list_lookup].
    + intros [= <- ->]. cbn. rewrite app_nil_r. destruct Hend as [[? _]|[_ Hn]]; [done|]. by rewrite Hn, firstn_all.
    + intros Hi. cbn [fmap list_fmap fst take concat]. change (concat (take k rest :: take (Datatypes.S i) outs.*1) = rest). cbn [concat]. rewrite (Heof i b Hi). by rewrite take_drop.
Qed.

(** C8: [Read] is a correct io.Reader over a content that is not empty: called with
    any sequence of buffers, whatever their lengths and however the store
    fragments the blobs, it delivers the content from its beginning, part after
    part, each call as much as the buffer or the content has; a short count
    comes with EOF, and EOF only when everything is delivered; the loop of each
    call ends; and with hash verification on, the stored leaves pass it. (The
    reader of an empty content panics, see Read_empty_panics.) *)
Theorem Read_correct v tr bufs s :
  content <> [] -> holds s ->
  exists outs r' s', reads bufs (newReader L prefix bl.*1 v tr) s = Some (Ok (outs, r'), s') /\ objects s' = objects s /\
    read_back (length <$> bufs) content outs.
Proof. intros Hne Hs. apply reads_deliver; [by apply RI_new|by left|done]. Qed.

(** a reader of a file without leaves, the empty file, panics at its first
    [Read] in place of reporting the end: it indexes the empty list of keys. *)
Theorem Read_empty_panics v tr data s fuel :
  content = [] ->
  Read (Datatypes.S fuel) data (newReader L prefix bl.*1 v tr) s = Some (Panic "index out of range", s).
Proof.
  intros ->. assert (leafBlobs L [] = []) as ->; [|reflexivity].
  unfold leafBlobs, tail. by rewrite drop_nil.
Qed.

(** ** ReadAt *)

Lemma leaves_before i : i < length bl -> length (concat (take i bl).*2) = L * i.
Proof.
  intros Hi. rewrite (length_concat_const L).
  - rewrite length_fmap, length_take. lia.
  - apply Forall_forall. intros c (p & -> & Hp)%list_elem_of_fmap.
    apply list_elem_of_lookup in Hp as [j Hj]. apply lookup_take_Some in Hj as [Hj Hji].
    destruct p as [k c]. destruct (leafBlobs_lookup j k c Hj) as [[? _]|(? & _)]; [done|lia].
Qed.

Lemma content_from i : i < length bl -> concat (drop i bl).*2 = drop (L * i) content.
Proof.
  intros Hi. rewrite <- (leafBlobs_content L content L_pos) at 2.
  rewrite <- (take_drop i bl) at 2. rewrite fmap_app, concat_app.
  symmetry. apply drop_app_exact. by apply leaves_before.
Qed.

Lemma content_bound : length content <= L * length bl.
Proof. clear HRL HR.
  rewrite <- (leafBlobs_content L content L_pos) at 1.
  assert (H : forall l : list (Key * bytes), (forall k c, (k, c) ∈ l -> length c <= L) ->
              length (concat l.*2) <= L * length l).
  { induction l as [|[k c] l IH]; intros Hl; [simpl; lia|]. rewrite fmap_cons. cbn [concat snd length]. rewrite length_app.
    pose proof (Hl k c ltac:(set_solver)). pose proof (IH ltac:(intros k' c' Hk; apply (Hl k'); set_solver)).
    rewrite Nat.mul_succ_r. lia. }
  apply H. intros k c Hin. by destruct (leafBlobs_nonempty L content k c L_pos Hin).
Qed.

Section readat.
Context {C : Type} `{HC : !Lru C string bytes, HCL : !LruLaws C string bytes}.
Variables (r : chunkReader) (cap : nat).
Hypothesis r_L : r_leafSize r = L.
Hypothesis r_pre : r_prefix r = prefix.
Hypothesis r_ks : r_keys r = bl.*1.
Hypothesis cap_L : L <= cap.
Hypothesis no_collision : functional (blobs prefix L content).

(** The cached leaves are leaves of the content, if their names are. *)

Definition coherent (c : C) : Prop :=
  caches (fun p b => forall d, (p, d) ∈ blobs prefix L content -> b = d) c.

Lemma blob_in i k d : bl !! i = Some (k, d) -> (StringWithPrefix k prefix, d) ∈ blobs prefix L content.
Proof.
  intros Hi. unfold blobs. apply list_elem_of_fmap. exists (k, d). split; [done|]. by eapply list_elem_of_lookup_2.
Qed.

Lemma readLeaf_ok s i k d :
  holds s -> bl !! i = Some (k, d) ->
  exists s', readLeaf r cap k i s = (Ok d, s') /\ objects s' = objects s.
Proof.
  intros Hs Hi. destruct (holds_Get s i k d Hs Hi) as (s1 & Hg & Ho).
  exists s1. split; [|done]. unfold readLeaf, r_pather. rewrite r_pre.
  rewrite (M_bind_step _ _ _ _ _ Hg).
  destruct (leafBlobs_nonempty L content k d L_pos) as [_ Hd]; [by eapply list_elem_of_lookup_2|].
  rewrite (take_ge d) by lia. destruct (r_withVerifyHash r); [|done].
  unfold verifyHash, KeyFromBytes. rewrite !keyFromBytes_Ok, r_L, r_ks, length_fmap.
  destruct (leafBlobs_lookup i k d Hi) as [[HdL ->]|(Hn & HdL & ->)].
  - rewrite HdL, Nat.eqb_refl, andb_false_r. rewrite Nat.add_1_r.
    unfold mbind, M_bind, lift. cbn. by rewrite decide_False by naive_solver.
  - replace (i + 1 =? length bl) with true by (symmetry; apply Nat.eqb_eq; lia).
    destruct (Nat.eqb_spec (length d) L); [done|].
    unfold mbind, M_bind, lift. cbn. by rewrite decide_False by naive_solver.
Qed.

Lemma cachedLeaf_ok s c i k d :
  holds s -> coherent c -> bl !! i = Some (k, d) ->
  exists s' c', cachedLeaf r cap k i (s, c) = (Ok d, (s', c')) /\ objects s' = objects s /\ coherent c'.
Proof.
  intros Hs Hc Hi. unfold cachedLeaf. pose proof (blob_in i k d Hi) as Hin. rewrite <- r_pre in Hin.
  destruct (lru_Get (r_pather r k) c) as [[b|] c1] eqn:E;
    destruct (caches_Get _ c _ _ c1 Hc E) as [Hc1 Hb].
  - exists s, c1. split_and!; try done. do 2 f_equal. apply (Hb b eq_refl). by rewrite <- r_pre.
  - destruct (readLeaf_ok s i k d Hs Hi) as (s1 & -> & Ho).
    destruct (lru_ContainsOrAdd (r_pather r k) d c1) as [b c2] eqn:Ea.
    exists s1, c2. split_and!; try done. eapply caches_Add; [exact Hc1| |exact Ea].
    intros d' Hd'. eapply no_collision; [|exact Hd']. by rewrite <- r_pre at 1.
Qed.

Lemma readAt_loop_ok n i offset room s c k d :
  n = length bl - i -> bl !! i = Some (k, d) -> offset <= length d -> holds s -> coherent c ->
  exists s' c', readAt_loop r cap (drop i bl.*1) i offset room (s, c)
      = (Ok (take room (drop offset (concat (drop i bl).*2))), (s', c')) /\
    objects s' = objects s /\ coherent c'.
Proof.
  revert i offset room s c k d. induction n as [|n IH]; intros i offset room s c k d Hn Hi Hoff Hs Hc.
  { apply lookup_lt_Some in Hi. lia. }
  rewrite (drop_S bl (k, d) i Hi). rewrite (drop_S bl.*1 k i) by by rewrite list_lookup_fmap, Hi.
  cbn [readAt_loop]. destruct (cachedLeaf_ok s c i k d Hs Hc Hi) as (s1 & c1 & Hg & Ho & Hc1).
  rewrite (M_bind_step _ _ _ _ _ Hg). destruct (Nat.ltb_spec (length d) offset); [lia|].
  cbn [fmap list_fmap concat snd]. rewrite drop_app_le by done.
  set (a := drop offset d). destruct (Nat.eqb_spec (room - length (take room a)) 0) as [Hfull|Hmore].
  - exists s1, c1. split_and!; try done. rewrite take_app_le; [done|]. rewrite length_take in Hfull. lia.
  - rewrite length_take in Hmore. rewrite take_app_ge by lia.
    rewrite (take_ge a) in * by lia.
    destruct (decide (Datatypes.S i = length bl)) as [Hend|Hne].
    + rewrite !(drop_ge _ (Datatypes.S i)) by (rewrite ?length_fmap; lia).
      exists s1, c1. cbn. by rewrite take_nil.
    + assert (Hlt : i < length bl) by by eapply lookup_lt_Some.
      destruct (last_leaf i Hlt Hne) as (k' & d' & Hi').
      destruct (IH (Datatypes.S i) 0 (room - length a) s1 c1 k' d') as (s2 & c2 & Hr & Ho2 & Hc2);
        try done; try lia.
      { by rewrite Ho. }
      exists s2, c2. rewrite Nat.add_1_r. rewrite (M_bind_step _ _ _ _ _ Hr).
      rewrite drop_0. split_and!; try done. congruence.
Qed.

Lemma ReadAt_ok n off s c :
  off <= length content -> holds s -> coherent c ->
  exists s' c', ReadAt r cap n off (s, c) = (Ok (take n (drop off content)), (s', c')) /\
    objects s' = objects s /\ coherent c'.
Proof.
  intros Hoff Hs Hc. unfold ReadAt, calculateKeyAndOffset. rewrite r_L, r_ks, length_fmap.
  pose proof (Nat.div_mod off L ltac:(lia)) as Hdm. pose proof (Nat.mod_upper_bound off L ltac:(lia)) as Hm.
  destruct (Nat.leb_spec (length bl) (off / L)) as [Hge|Hlt].
  - exists s, c. split_and!; try done. pose proof content_bound. rewrite (drop_ge content) by nia. by rewrite take_nil.
  - destruct (lookup_lt_is_Some_2 bl (off / L) Hlt) as [[k d] Hi].
    pose proof (content_from _ Hlt) as Hfrom.
    assert (Hrest : drop off content = drop (off mod L) (concat (drop (off / L) bl).*2)).
    { rewrite Hfrom, drop_drop. f_equal. lia. }
    rewrite Hrest. eapply readAt_loop_ok; try done.
    destruct (leafBlobs_lookup _ _ _ Hi) as [[Hd _]|(Hn & _)]; [lia|].
    pose proof (drop_leaf _ _ _ Hi) as Hdl. rewrite Hfrom in Hdl.
    rewrite (drop_last_leaf _ Hn), app_nil_r in Hdl. rewrite <- Hdl, length_drop. lia.
Qed.

(** C10: [ReadAt] delivers exactly the requested part of the content, as far as
    it reaches, from any offset within the content: from cached leaves and
    from the store alike, and the cache stays coherent. *)
Theorem ReadAt_correct n off s c :
  off <= length content -> holds s -> coherent c ->
  exists s' c', ReadAt r cap n off (s, c) = (Ok (take n (drop off content)), (s', c')) /\
    objects s' = objects s /\ coherent c'.
Proof. apply ReadAt_ok. Qed.

(** [ReadAt] beyond the end of the content, at an offset that still falls
    in the last leaf, panics: the leaf is sliced past its length. *)
Theorem ReadAt_beyond_panics n off s c :
  length content < off -> off / L < length bl -> holds s -> coherent c ->
  exists st, ReadAt r cap n off (s, c) = (Panic "slice bounds out of range", st).
Proof.
  intros Hoff Hlt Hs Hc. unfold ReadAt, calculateKeyAndOffset. rewrite r_L, r_ks, length_fmap.
  destruct (Nat.leb_spec (length bl) (off / L)); [lia|].
  pose proof (Nat.div_mod off L ltac:(lia)) as Hdm.
  destruct (lookup_lt_is_Some_2 bl (off / L) Hlt) as [[k d] Hi].
  rewrite (drop_S bl.*1 k) by by rewrite list_lookup_fmap, Hi. cbn [readAt_loop].
  destruct (cachedLeaf_ok s c _ k d Hs Hc Hi) as (s1 & c1 & Hg & Ho & Hc1).
  rewrite (M_bind_step _ _ _ _ _ Hg).
  pose proof (drop_leaf _ _ _ Hi) as Hdl. rewrite (content_from _ Hlt) in Hdl.
  apply (f_equal length) in Hdl. rewrite length_drop, length_app in Hdl.
  destruct (Nat.ltb_spec (length d) (off mod L)) as [|Hd]; [by eexists|].
  exfalso. destruct (decide (length d = 0)) as [H0|H0]; [|nia].
  pose proof (leaf_nonempty _ _ _ Hi). lia.
Qed.

End readat.

(** ** WriteTo *)

Lemma WriteAt_lookup file p off x :
  WriteAt file p off !! x =
    if decide (off <= x < off + length p) then p !! (x - off)
    else if decide (x < length file) then file !! x
    else if decide (x < off + length p) then Some Byte.x00 else None.
Proof.
  unfold WriteAt, overwrite. set (pad := replicate _ _). set (f := file ++ pad).
  assert (Hpad : length pad = off + length p - length file) by apply length_replicate.
  assert (Hf : length f = Nat.max (length file) (off + length p)) by (unfold f; rewrite length_app; lia).
  assert (Hff : forall y, f !! y = if decide (y < length file) then file !! y
                            else if decide (y < off + length p) then Some Byte.x00 else None).
  { intros y. unfold f. case_decide.
    - by rewrite lookup_app_l.
    - rewrite lookup_app_r by lia. case_decide.
      + unfold pad. by rewrite lookup_replicate_2 by lia.
      + apply lookup_ge_None. lia. }
  case_decide as H1.
  - rewrite lookup_app_r by (rewrite length_take; lia). rewrite length_take, Nat.min_l by lia.
    by rewrite lookup_app_l by lia.
  - rewrite <- Hff. destruct (decide (x < off)) as [H2|H2].
    + rewrite lookup_app_l by (rewrite length_take; lia). by rewrite lookup_take_lt by lia.
    + rewrite lookup_app_r by (rewrite length_take; lia). rewrite length_take, Nat.min_l by lia.
      rewrite lookup_app_r by lia. rewrite lookup_drop. f_equal. lia.
Qed.

Section writeto.
Variable r : chunkReader.
Hypothesis r_L : r_leafSize r = L.
Hypothesis r_pre : r_prefix r = prefix.
Hypothesis r_ks : r_keys r = bl.*1.
Hypothesis r_trunc : r_truncation r = 0.
Hypothesis L_32 : (Z.of_nat L < 2 ^ 32)%Z.

Lemma stride : leaf_stride r = L.
Proof. unfold leaf_stride. rewrite r_L, r_trunc, Int.uint32_small by lia. lia. Qed.

(** The leaves of [done] are in place. *)

Definition in_place (done : list nat) (file : bytes) : Prop :=
  length file <= length content /\
  forall i k d x, i ∈ done -> bl !! i = Some (k, d) -> L * i <= x < L * i + length d -> file !! x = content !! x.

Lemma leaf_range i k d :
  bl !! i = Some (k, d) -> L * i + length d <= length content /\ length d <= L /\
  (forall x, L * i <= x < L * i + length d -> d !! (x - L * i) = content !! x).
Proof.
  intros Hi. assert (Hlt : i < length bl) by by eapply lookup_lt_Some.
  pose proof (content_from i Hlt) as Hf. rewrite (drop_leaf _ _ _ Hi) in Hf.
  pose proof (f_equal length Hf) as Hl. rewrite length_app, length_drop in Hl.
  pose proof (leaf_nonempty _ _ _ Hi).
  split; [lia|]. split; [eapply leafBlobs_nonempty; [exact L_pos|by eapply list_elem_of_lookup_2]|].
  intros x Hx. replace x with (L * i + (x - L * i)) at 2 by lia. rewrite <- lookup_drop, <- Hf.
  by rewrite lookup_app_l by lia.
Qed.

Lemma in_place_write done file i k d :
  bl !! i = Some (k, d) -> in_place done file -> in_place (i :: done) (WriteAt file d (L * i)).
Proof. clear HRL HR.
  intros Hi [Hlen Hin]. destruct (leaf_range i k d Hi) as (Hr1 & HdL & Hr2). split.
  - apply Nat.nlt_ge. intros Hlt. destruct (lookup_lt_is_Some_2 _ _ Hlt) as [b Hb].
    rewrite WriteAt_lookup in Hb. repeat case_decide; try lia; try done.
  - intros j k' d' x Hj Hj' Hx. rewrite WriteAt_lookup. case_decide; [auto|].
    destruct (decide (j = i)) as [->|Hne]; [simplify_eq; done|].
    assert (Hjd : j ∈ done) by set_solver. rewrite <- (Hin j k' d' x Hjd Hj' Hx).
    case_decide; [done|]. rewrite (lookup_ge_None_2 file) by lia.
    exfalso. pose proof (Hin j k' d' x Hjd Hj' Hx) as Hfx. rewrite (lookup_ge_None_2 file) in Hfx by lia.
    symmetry in Hfx. apply lookup_ge_None in Hfx. destruct (leaf_range j k' d' Hj'). lia.
Qed.

Lemma write_leaves_ok order done file s :
  Forall (fun i => i < length bl) order -> holds s -> in_place done file ->
  exists file' s', write_leaves r order file s = (Ok file', s') /\
    objects s' = objects s /\ in_place (rev order ++ done) file'.
Proof. clear HRL HR.
  revert done file s. induction order as [|i order IH]; intros done file s HF Hs Hd.
  { by exists file, s. }
  apply Forall_cons in HF as [Hi HF]. destruct (lookup_lt_is_Some_2 bl i Hi) as [[k d] Hid].
  destruct (holds_Get s i k d Hs Hid) as (s1 & Hg & Ho).
  assert (Hw : write_leaf r i file s = (Ok (WriteAt file d (L * i)), s1)).
  { unfold write_leaf, r_pather.
    assert (r_keys r !! i = Some k) as -> by by rewrite r_ks, list_lookup_fmap, Hid.
    rewrite r_pre, stride, (Nat.mul_comm i). by rewrite (M_bind_step _ _ _ _ _ Hg). }
  cbn [write_leaves]. rewrite Hw.
  destruct (IH (i :: done) (WriteAt file d (L * i)) s1) as (f' & s' & He & Ho' & Hd'); try done.
  { by rewrite Ho. }
  { by eapply in_place_write. }
  exists f', s'. split_and!; try done; [congruence|]. simpl. by rewrite <- app_assoc.
Qed.

Lemma leaf_at x : x < length content -> exists i k d, bl !! i = Some (k, d) /\ L * i <= x < L * i + length d.
Proof. clear HRL HR.
  intros Hx. pose proof (Nat.div_mod x L ltac:(lia)) as Hdm. pose proof (Nat.mod_upper_bound x L ltac:(lia)).
  pose proof content_bound. assert (Hlt : x / L < length bl) by (apply Nat.Div0.div_lt_upper_bound; lia).
  destruct (lookup_lt_is_Some_2 bl (x / L) Hlt) as [[k d] Hi]. exists (x / L), k, d. split; [done|].
  split; [lia|]. destruct (leafBlobs_lookup _ _ _ Hi) as [[Hd _]|(Hn & _)]; [lia|].
  pose proof (content_from _ Hlt) as Hf. rewrite (drop_leaf _ _ _ Hi), (drop_last_leaf _ Hn), app_nil_r in Hf.
  rewrite Hf, length_drop. lia.
Qed.

(** The copy, for the use of the clients of the reader. *)

Lemma WriteTo_ok order file s :
  order ≡ₚ seq 0 (length bl) -> length file <= length content -> holds s ->
  exists s', WriteTo r order file s = (Ok content, s') /\ objects s' = objects s.
Proof. clear HRL HR.
  intros Hord Hfile Hs. unfold WriteTo. rewrite r_ks, length_fmap.
  destruct (Nat.eqb_spec (length bl) 0) as [H0|H0].
  { pose proof content_bound as Hb. rewrite H0, Nat.mul_0_r in Hb. exists s. split; [|done].
    destruct content; [|simpl in *; lia]. by destruct file; [|simpl in *; lia]. }
  destruct (write_leaves_ok order [] file s) as (f' & s' & He & Ho & Hl & Hin).
  - apply Forall_forall. intros i Hi. rewrite Hord, elem_of_seq in Hi. lia.
  - done.
  - split; [done|set_solver].
  - exists s'. split; [|done]. rewrite He. do 2 f_equal. apply list_eq. intros x.
    destruct (decide (x < length content)) as [Hx|Hx].
    + destruct (leaf_at x Hx) as (i & k & d & Hi & Hr). eapply Hin; [|exact Hi|exact Hr].
      rewrite app_nil_r, list_elem_of_In, <- in_rev, <- list_elem_of_In, Hord, elem_of_seq.
      apply lookup_lt_Some in Hi. lia.
    + rewrite !lookup_ge_None_2 by lia. done.
Qed.

(** C13: [WriteTo] assembles the content in the destination in whatever order
    its goroutines run, and never fails on a store that holds the leaves. *)
Theorem WriteTo_correct order file s :
  order ≡ₚ seq 0 (length bl) -> length file <= length content -> holds s ->
  exists s', WriteTo r order file s = (Ok content, s') /\ objects s' = objects s.
Proof. apply WriteTo_ok. Qed.

End writeto.

End read.

End CafsRead.
