(* ===== verification/CafsFs.v ===== *)
(** * The content-addressable file system (pkg/cafs: cafs.go, cafs_options.go)

    [defaultFs] is the configuration of the Go struct; its state is the backend
    store and the cache of resolved leaf keys. [Put] runs the writer over an
    execution (a sequence of events of CafsWriter.v), then stores the root
    blob. *)

From S2P Require Import Prelude GoLib Errors Storage CafsKeys CafsWriter CafsFlush Lru CafsReader CafsRead.

Module CafsFs.
Import Storage CafsKeys CafsWriter CafsFlush Lru CafsReader CafsRead.

(** ** Configuration *)

Record defaultFs : Type := mkFs {
  f_leafSize : Z;
  f_prefix : string;
  f_leafTruncation : bool;
  f_concurrentFlushes : Z;
  f_readerConcurrentChunkWrites : Z;
  f_keysCacheSize : Z;
  f_lruSize : Z;
  f_withPrefetch : Z;
  f_withVerifyHash : bool;
  f_withVerifyBlobHash : bool;
  f_withRetry : bool
}.

Definition MiB : Z := 1024 * 1024.

Definition DefaultCacheSize : Z := 50 * MiB.

Definition DefaultLeafSize : Z := 2 * MiB.

Definition MaxLeafSize : Z := 5 * MiB.

Definition DefaultKeysCacheSize : Z := 10000.

Definition defaultsForFs : defaultFs :=
  mkFs DefaultLeafSize "" false 10 3 DefaultKeysCacheSize DefaultCacheSize 0 true false true.

Definition Option : Type := defaultFs -> defaultFs.

Definition LeafSize (sz : Z) : Option := fun w =>
  mkFs sz (f_prefix w) (f_leafTruncation w) (f_concurrentFlushes w) (f_readerConcurrentChunkWrites w)
    (f_keysCacheSize w) (f_lruSize w) (f_withPrefetch w) (f_withVerifyHash w) (f_withVerifyBlobHash w) (f_withRetry w).

Definition LeafTruncation (a : bool) : Option := fun w =>
  mkFs (f_leafSize w) (f_prefix w) a (f_concurrentFlushes w) (f_readerConcurrentChunkWrites w)
    (f_keysCacheSize w) (f_lruSize w) (f_withPrefetch w) (f_withVerifyHash w) (f_withVerifyBlobHash w) (f_withRetry w).

Definition Prefix (prefix : string) : Option := fun w =>
  mkFs (f_leafSize w) prefix (f_leafTruncation w) (f_concurrentFlushes w) (f_readerConcurrentChunkWrites w)
    (f_keysCacheSize w) (f_lruSize w) (f_withPrefetch w) (f_withVerifyHash w) (f_withVerifyBlobHash w) (f_withRetry w).

Definition ConcurrentFlushes (n : Z) : Option := fun w =>
  mkFs (f_leafSize w) (f_prefix w) (f_leafTruncation w) n (f_readerConcurrentChunkWrites w)
    (f_keysCacheSize w) (f_lruSize w) (f_withPrefetch w) (f_withVerifyHash w) (f_withVerifyBlobHash w) (f_withRetry w).

Definition ReaderConcurrentChunkWrites (n : Z) : Option := fun w =>
  mkFs (f_leafSize w) (f_prefix w) (f_leafTruncation w) (f_concurrentFlushes w) n
    (f_keysCacheSize w) (f_lruSize w) (f_withPrefetch w) (f_withVerifyHash w) (f_withVerifyBlobHash w) (f_withRetry w).

Definition CacheSize (size : Z) : Option := fun w =>
  mkFs (f_leafSize w) (f_prefix w) (f_leafTruncation w) (f_concurrentFlushes w) (f_readerConcurrentChunkWrites w)
    (f_keysCacheSize w) (if (size <? 1)%Z then DefaultCacheSize else size) (f_withPrefetch w)
    (f_withVerifyHash w) (f_withVerifyBlobHash w) (f_withRetry w).

Definition Prefetch (ahead : Z) : Option := fun w =>
  mkFs (f_leafSize w) (f_prefix w) (f_leafTruncation w) (f_concurrentFlushes w) (f_readerConcurrentChunkWrites w)
    (f_keysCacheSize w) (f_lruSize w) ahead (f_withVerifyHash w) (f_withVerifyBlobHash w) (f_withRetry w).

Definition VerifyHash (enabled : bool) : Option := fun w =>
  mkFs (f_leafSize w) (f_prefix w) (f_leafTruncation w) (f_concurrentFlushes w) (f_readerConcurrentChunkWrites w)
    (f_keysCacheSize w) (f_lruSize w) (f_withPrefetch w) enabled (f_withVerifyBlobHash w) (f_withRetry w).

Definition KeysCacheSize (keys : Z) : Option := fun w =>
  if (0 <? keys)%Z then
    mkFs (f_leafSize w) (f_prefix w) (f_leafTruncation w) (f_concurrentFlushes w) (f_readerConcurrentChunkWrites w)
      keys (f_lruSize w) (f_withPrefetch w) (f_withVerifyHash w) (f_withVerifyBlobHash w) (f_withRetry w)
  else w.

Definition WithRetry (enabled : bool) : Option := fun w =>
  mkFs (f_leafSize w) (f_prefix w) (f_leafTruncation w) (f_concurrentFlushes w) (f_readerConcurrentChunkWrites w)
    (f_keysCacheSize w) (f_lruSize w) (f_withPrefetch w) (f_withVerifyHash w) (f_withVerifyBlobHash w) enabled.

Definition VerifyBlobHash (enabled : bool) : Option := fun w =>
  mkFs (f_leafSize w) (f_prefix w) (f_leafTruncation w) (f_concurrentFlushes w) (f_readerConcurrentChunkWrites w)
    (f_keysCacheSize w) (f_lruSize w) (f_withPrefetch w) (f_withVerifyHash w) enabled (f_withRetry w).

(** The ceiling of the division, which the float64 computation of the source
    gives exactly for sizes below 2^53. *)

Definition BytesToBuffers (target leafSize : Z) : Z := (target + leafSize - 1) / leafSize.

(** lru.New and lru.NewWithEvict fail for a size that is not positive. *)

Definition New (opts : list Option) : res defaultFs :=
  let f := fold_left (fun f apply => apply f) opts defaultsForFs in
  if (MaxLeafSize <? f_leafSize f)%Z then Err (ErrMsg "exceeds maximum cafs leaf size")
  else if (f_leafSize f <? Z.of_nat KeySize)%Z then Err (ErrMsg "is smaller than the key size")
  else if (BytesToBuffers (f_lruSize f) (f_leafSize f) <=? 0)%Z then Err (ErrMsg "Must provide a positive size")
  else if (f_keysCacheSize f <=? 0)%Z then Err (ErrMsg "Must provide a positive size")
  else Ok f.

Record PutRes : Type := mkPutRes {
  pr_Written : nat;
  pr_Key : Key;
  pr_Keys : bytes;
  pr_Found : bool
}.

(** hasOpts *)

Record hasOpts : Type := mkHasOpts {
  OnlyRoots : bool;
  GatherIncomplete : bool
}.

Definition HasOption : Type := hasOpts -> hasOpts.

Definition HasOnlyRoots : HasOption := fun o => mkHasOpts true (GatherIncomplete o).

Definition HasGatherIncomplete : HasOption := fun _ => mkHasOpts true true.

(** ** Operations *)

Section ops.
Context `{HB : Blake2b} {S : Type} `{HS : Store S} {KC : Type} `{HK : Lru KC Key (list Key)}.

Definition leafSize (d : defaultFs) : nat := Z.to_nat (f_leafSize d).

Definition fs_pather (d : defaultFs) (k : Key) : string := StringWithPrefix k (f_prefix d).

Definition fs_writer (d : defaultFs) : fsWriter :=
  newWriter (leafSize d) (f_prefix d) (f_withVerifyBlobHash d).

Definition makeRootKey (root : Key) (keys : bytes) : bytes := keys ++ root.

Definition verifyFlushed (d : defaultFs) (root : Key) (content : bytes) : M S unit :=
  if negb (f_withVerifyHash d) then mret tt
  else verifyBlob (fs_pather d root) content.

Definition writeRootKey (d : defaultFs) (root : Key) (content : bytes) : M S unit := fun s =>
  match MultiPut [(s, false)] (fs_pather d root) content OverWrite with
  | (Ok _, s' :: _) => verifyFlushed d root content s'
  | (Err e, s' :: _) => (Err e, s')
  | (Panic p, s' :: _) => (Panic p, s')
  | (Ok _, []) => (Ok tt, s)
  | (Err e, []) => (Err e, s)
  | (Panic p, []) => (Panic p, s)
  end.

(** The end of [Put], once the source is copied and the goroutines are done. *)

Definition put_root (d : defaultFs) (w : fsWriter) (written : nat) : M S PutRes :=
  '(root, keys, w') ← Flush w;
  _ ← lift (Close w');
  let content := makeRootKey root keys in
  '(found, overwrite) ← existsAndValidBlob (fs_pather d root) content;
  _ ← (if negb found || overwrite then writeRootKey d root content else mret tt);
  mret (mkPutRes written root keys found).

Definition on_store {A} (m : M S A) : M (S * KC) A := fun '(s, kc) => let '(r, s') := m s in (r, (s', kc)).

Definition cacheKeys (root : Key) (ks : list Key) : M (S * KC) unit := fun '(s, kc) =>
  (Ok tt, (s, (lru_ContainsOrAdd root ks kc).2)).

Definition finishPut (d : defaultFs) (w : fsWriter) (written : nat) : M (S * KC) PutRes :=
  pr ← on_store (put_root d w written);
  ks ← lift (UnverifiedLeafKeys (pr_Keys pr));
  _ ← cacheKeys (pr_Key pr) ks;
  mret pr.

(** [Put] of a source that delivers the buffers [cs], and ends with [srcErr] in
    place of EOF: io.Copy of a source without WriteTo. [None]: the events are not
    a complete execution. *)

Definition Put (d : defaultFs) (es : list event) (cs : list bytes) (srcErr : option error) (st : S * KC)
    : option (res PutRes * (S * KC)) :=
  let '(s, kc) := st in
  match exec es cs (fs_writer d) s with
  | None => None
  | Some (Panic m, s1) => Some (Panic m, (s1, kc))
  | Some (Err e, s1) => Some (Err e, (s1, kc))
  | Some (Ok (cs', w), s1) =>
      match cs', srcErr, w_jobs w with
      | [], Some e, _ => Some (Err e, (s1, kc))
      | [], None, [] => Some (finishPut d w (length (concat cs)) (s1, kc))
      | _, _, _ => None
      end
  end.

Definition fs_reader (d : defaultFs) (hash : Key) : M (S * KC) chunkReader := fun '(s, kc) =>
  let tr := if f_leafTruncation d then 32 * 1024 else 0 in
  let build keys := newReader (leafSize d) (f_prefix d) keys (f_withVerifyHash d) tr in
  match lru_Get hash kc with
  | (Some keys, kc1) => (Ok (build keys), (s, kc1))
  | (None, kc1) =>
      match LeavesForHash hash (leafSize d) (f_prefix d) s with
      | (Ok keys, s1) => (Ok (build keys), (s1, (lru_ContainsOrAdd hash keys kc1).2))
      | (Err e, s1) => (Err e, (s1, kc1))
      | (Panic p, s1) => (Panic p, (s1, kc1))
      end
  end.

Definition Get : defaultFs -> Key -> M (S * KC) chunkReader := fs_reader.

Definition GetAt : defaultFs -> Key -> M (S * KC) chunkReader := fs_reader.

Definition Delete (d : defaultFs) (hash : Key) : M S unit :=
  keys ← LeavesForHash hash (leafSize d) (f_prefix d);
  _ ← for_each keys (fun key => Storage.Delete (Key_String key));
  Storage.Delete (Key_String hash).

Definition Clear (d : defaultFs) : M S unit := Storage.Clear.

(** The filter is run key by key on the store. *)

Fixpoint keys_loop (matches : Key -> M S bool) (v : list string) : M S (list Key) :=
  match v with
  | [] => mret []
  | k :: v' =>
      kk ← lift (KeyFromString k);
      ok ← matches kk;
      rest ← keys_loop matches v';
      mret (if ok : bool then kk :: rest else rest)
  end.

Definition keys (matches : Key -> M S bool) : M S (list Key) :=
  v ← Storage.Keys;
  keys_loop matches v.

Definition matchAnyKey (k : Key) : M S bool := mret true.

Definition matchOnlyObjectRoots (d : defaultFs) (key : Key) : M S bool := IsRootKey key (leafSize d).

Definition Keys (d : defaultFs) : M S (list Key) := keys matchAnyKey.

Definition RootKeys (d : defaultFs) : M S (list Key) := keys (matchOnlyObjectRoots d).

(** The leaves [Has] reports as missing. *)

Fixpoint gather_incomplete (ks : list Key) : M S (list Key) :=
  match ks with
  | [] => mret []
  | k :: ks' =>
      r ← attempt (Storage.Has (Key_String k));
      rest ← gather_incomplete ks';
      mret match r with
           | inl true => rest
           | _ => k :: rest
           end
  end.

Definition Has (d : defaultFs) (key : Key) (cfgs : list HasOption) : M S (bool * list Key) :=
  let opts := fold_left (fun o apply => apply o) cfgs (mkHasOpts false false) in
  has ← Storage.Has (Key_String key);
  if negb has then mret (false, [])
  else if negb (GatherIncomplete opts) && negb (OnlyRoots opts) then mret (has, [])
  else
    r ← attempt (LeavesForHash key (leafSize d) (f_prefix d));
    match r with
    | inr _ => mret (false, [])
    | inl [] => mret (false, [])
    | inl ks =>
        if GatherIncomplete opts then
          missing ← gather_incomplete ks;
          mret (true, missing)
        else mret (true, [])
    end.

End ops.

(** ** Put *)

Section put.
Context `{HB : !Blake2b, HBL : !Blake2bLaws} {S : Type} `{HS : !Store S, HSL : !StoreLaws S}.
Context {KC : Type} `{HK : !Lru KC Key (list Key), HKL : !LruLaws KC Key (list Key)}.

Lemma writeRootKey_spec d root c s r s' :
  writeRootKey d root c s = (r, s') ->
  (forall p, p <> fs_pather d root -> objects s' !! p = objects s !! p) /\
  (r = Ok tt -> objects s' = <[fs_pather d root := c]> (objects s)).
Proof.
  unfold writeRootKey. simpl MultiPut.
  destruct (putBuffer (fs_pather d root) c OverWrite s) as [r0 s1] eqn:E.
  pose proof (putBuffer_spec _ _ _ _ _ _ E) as (Hok & Hfr & _).
  destruct r0 as [[]|e|m]; intros H; [|simplify_eq; done..].
  assert (Ho : objects s' = objects s1).
  { unfold verifyFlushed in H. destruct (negb (f_withVerifyHash d)).
    - unfold mret, M_ret in H. by simplify_eq.
    - by eapply verifyBlob_objects. }
  rewrite Ho. split; [done|]. intros _. by apply Hok.
Qed.

Section one_content.
Variables (d : defaultFs) (content : bytes) (s0 : S).

Abbreviation L := (leafSize d).

Abbreviation B := (objectBlobs (f_prefix d) L content).

Hypothesis L_pos : 0 < L.
Hypothesis no_collision : functional B.

Lemma leaf_blobs_in p c : (p, c) ∈ blobs (f_prefix d) L content -> (p, c) ∈ B.
Proof. intros H. unfold objectBlobs. apply elem_of_app. by left. Qed.

Lemma root_blob_in : (fs_pather d (rootKey L content), rootContent (rootKey L content) (leafKeys L content)) ∈ B.
Proof. unfold objectBlobs. apply elem_of_app. right. by apply list_elem_of_singleton. Qed.

Lemma stored_all m :
  stored (blobs (f_prefix d) L content) m ->
  m !! fs_pather d (rootKey L content) = Some (rootContent (rootKey L content) (leafKeys L content)) ->
  stored B m.
Proof.
  intros Hb Hr p c [Hin|Hin%list_elem_of_singleton]%elem_of_app; [by apply Hb|].
  injection Hin as -> ->. done.
Qed.

Lemma put_root_spec fs failed w s n r s' :
  Inv L (f_prefix d) content B s0 fs failed [] w s -> w_jobs w = [] -> put_root d w n s = (r, s') ->
  untouched B (objects s0) (objects s') /\
  (forall pr, r = Ok pr -> exists found,
     pr = mkPutRes n (rootKey L content) (concat (leafKeys L content)) found /\ stored B (objects s')).
Proof.
  intros HI Hj H. unfold put_root, mbind, M_bind, lift, mret, M_ret in H.
  destruct (Flush w s) as [rf s1] eqn:Ef.
  pose proof (Flush_untouched L (f_prefix d) content B s0 L_pos no_collision leaf_blobs_in fs failed w s rf s1 HI Hj Ef) as Hu1.
  destruct rf as [[[root ks] w']|e|m]; [|simplify_eq; done..].
  destruct (Flush_spec L (f_prefix d) content B s0 L_pos no_collision leaf_blobs_in fs failed w s _ _ _ _ HI Hj Ef)
    as (-> & -> & Hst & Hin & Hfl).
  unfold Close in H. rewrite Hfl in H.
  set (rk := rootKey L content) in *. set (rc := makeRootKey rk (concat (leafKeys L content))) in *.
  destruct (existsAndValidBlob (fs_pather d rk) rc s1) as [[[f o]|e|m] s2] eqn:Ee;
    pose proof (exists_step B _ _ _ _ _ Ee) as [Ho2 Hex]; [|simplify_eq; rewrite Ho2; done..].
  destruct (negb f || o) eqn:Efo.
  - destruct (writeRootKey d rk rc s2) as [rw s3] eqn:Ew.
    destruct (writeRootKey_spec _ _ _ _ _ _ Ew) as [Hfr Hok]. rewrite Ho2 in Hfr, Hok.
    assert (Hu3 : untouched B (objects s0) (objects s3)).
    { intros p Hp. rewrite Hfr; [by apply Hu1|]. eapply not_in_names; [exact root_blob_in|done]. }
    destruct rw as [[]|e|m]; simplify_eq; (split; [done|]); intros pr Hpr; simplify_eq.
    exists f. split; [done|]. rewrite (Hok eq_refl). apply stored_all.
    + intros p c Hp. destruct (decide (p = fs_pather d rk)) as [->|Hne].
      * rewrite lookup_insert_eq. f_equal. eapply no_collision; [exact root_blob_in|by apply leaf_blobs_in].
      * rewrite lookup_insert_ne by done. by apply Hst.
    + by rewrite lookup_insert_eq.
  - simplify_eq. rewrite Ho2. split; [done|]. intros pr Hpr. simplify_eq. exists f. split; [done|].
    apply stored_all; [done|]. rewrite <- Ho2.
    eapply Hex; [done| |exact root_blob_in|done]. by destruct f, o.
Qed.

Lemma UnverifiedLeafKeys_ok : UnverifiedLeafKeys (concat (leafKeys L content)) = Ok (leafKeys L content).
Proof. unfold UnverifiedLeafKeys. by rewrite leaves_concat by apply leafKeys_keys. Qed.

(** The cached keys of this root, if any, are its leaf keys. *)

Definition keys_coherent (kc : KC) : Prop :=
  caches (fun root ks => root = rootKey L content -> ks = leafKeys L content) kc.

Lemma finishPut_spec fs failed w s kc n r s' kc' :
  Inv L (f_prefix d) content B s0 fs failed [] w s -> w_jobs w = [] -> keys_coherent kc ->
  finishPut d w n (s, kc) = (r, (s', kc')) ->
  untouched B (objects s0) (objects s') /\ keys_coherent kc' /\
  (forall pr, r = Ok pr -> exists found,
     pr = mkPutRes n (rootKey L content) (concat (leafKeys L content)) found /\ stored B (objects s')).
Proof.
  intros HI Hj Hc H. unfold finishPut, on_store, mbind, M_bind, lift, cacheKeys, mret, M_ret in H.
  destruct (put_root d w n s) as [r1 s1] eqn:E.
  destruct (put_root_spec _ _ _ _ _ _ _ HI Hj E) as [Hu Hok].
  destruct r1 as [pr|e|m]; [|simplify_eq; done..].
  destruct (Hok pr eq_refl) as (found & -> & Hst). cbn [pr_Keys pr_Key] in H.
  rewrite UnverifiedLeafKeys_ok in H. simplify_eq. split_and!; try done.
  - destruct (lru_ContainsOrAdd (rootKey L content) (leafKeys L content) kc) as [b kc2] eqn:Ea.
    eapply caches_Add; [exact Hc|done|exact Ea].
Qed.

Lemma Put_spec es cs kc r s' kc' :
  content = concat cs -> Forall (fun c => length c <= L) cs ->
  intact B (objects s0) -> keys_coherent kc ->
  Put d es cs None (s0, kc) = Some (r, (s', kc')) ->
  untouched B (objects s0) (objects s') /\ keys_coherent kc' /\
  (forall pr, r = Ok pr -> exists found,
     pr = mkPutRes (length content) (rootKey L content) (concat (leafKeys L content)) found /\
     stored B (objects s')).
Proof.
  intros Hcs HF Hi Hc H. unfold Put in H.
  pose proof (Inv_init L (f_prefix d) content B s0 L_pos (f_withVerifyBlobHash d) cs Hcs Hi) as HI.
  destruct (exec es cs (fs_writer d) s0) as [[re s1]|] eqn:E; [|done].
  pose proof (exec_untouched L (f_prefix d) content B s0 L_pos no_collision leaf_blobs_in es _ _ _ _ _ _ _ HF HI E) as Hu.
  destruct re as [[cs' w]|e|m]; [|injection H as <- <- <-; split_and!; done..].
  destruct (exec_Inv L (f_prefix d) content B s0 L_pos no_collision leaf_blobs_in
              es _ _ _ _ _ _ _ _ HF HI E) as (fs & failed & HI').
  destruct cs' as [|? ?]; [|done]. destruct (w_jobs w) eqn:Ej; [|done].
  injection H as H. rewrite <- Hcs in H. eapply finishPut_spec; [exact HI'|done|exact Hc|exact H].
Qed.

(** C2: [Put] stores a content under every interleaving of its goroutines:
    when it succeeds, the key it returns is the root hash of the leaf keys of
    the content, every leaf and the root blob are in the store intact, and no
    other object was touched; when it fails, no other object was touched
    either. The objects that were already stored under these keys are only
    assumed to be intact or empty. *)
Theorem Put_correct es cs kc r s' kc' :
  content = concat cs -> Forall (fun c => length c <= L) cs ->
  intact B (objects s0) -> keys_coherent kc ->
  Put d es cs None (s0, kc) = Some (r, (s', kc')) ->
  untouched B (objects s0) (objects s') /\ keys_coherent kc' /\
  (forall pr, r = Ok pr -> exists found,
     pr = mkPutRes (length content) (rootKey L content) (concat (leafKeys L content)) found /\
     stored B (objects s')).
Proof. apply Put_spec. Qed.

(** putting a content that is already stored changes no object of the
    store, whatever the execution and whether it succeeds. *)
Theorem Put_deduplicates es cs kc pr s' kc' :
  content = concat cs -> Forall (fun c => length c <= L) cs ->
  stored B (objects s0) -> keys_coherent kc ->
  Put d es cs None (s0, kc) = Some (Ok pr, (s', kc')) -> objects s' = objects s0.
Proof.
  intros Hcs HF Hst Hc H.
  assert (Hi : intact B (objects s0)) by (intros p c Hin; right; right; by apply Hst).
  destruct (Put_spec _ _ _ _ _ _ Hcs HF Hi Hc H) as (Hu & _ & Hok).
  destruct (Hok pr eq_refl) as (found & _ & Hst'). apply map_eq. intros p.
  destruct (decide (p ∈ B.*1)) as [Hp|Hp]; [|by apply Hu].
  apply list_elem_of_fmap in Hp as ([p' c] & -> & Hin). simpl. by rewrite (Hst _ _ Hin), (Hst' _ _ Hin).
Qed.

(** What an operation adds to the cache of keys. *)

Lemma Put_cache es cs kc r s' kc' :
  Put d es cs None (s0, kc) = Some (r, (s', kc')) ->
  kc' = kc \/ exists pr ks, r = Ok pr /\ UnverifiedLeafKeys (pr_Keys pr) = Ok ks /\
    kc' = (lru_ContainsOrAdd (pr_Key pr) ks kc).2.
Proof.
  unfold Put, finishPut, on_store, mbind, M_bind, lift, cacheKeys, mret, M_ret. intros H.
  destruct (exec es cs (fs_writer d) s0) as [[re s1]|]; [|done]. destruct re as [[cs' w]|e|m]; [|simplify_eq; by left..].
  destruct cs'; [|done]. destruct (w_jobs w); [|done].
  destruct (put_root d w (length (concat cs)) s1) as [[pr|e|m] s2]; [|simplify_eq; by left..].
  destruct (UnverifiedLeafKeys (pr_Keys pr)) as [ks|e|m] eqn:E; simplify_eq; [right|by left..]. eauto.
Qed.

Lemma Get_cache k s kc r s' kc' :
  Get d k (s, kc) = (r, (s', kc')) ->
  let '(o, kc1) := lru_Get k kc in
  kc' = kc1 \/ exists ks, (LeavesForHash k L (f_prefix d) s).1 = Ok ks /\ kc' = (lru_ContainsOrAdd k ks kc1).2.
Proof.
  unfold Get, fs_reader. destruct (lru_Get k kc) as [[ks|] kc1]; intros H; [simplify_eq; by left|].
  destruct (LeavesForHash k L (f_prefix d) s) as [[ks|e|m] s1]; simplify_eq; [right|by left..]. eauto.
Qed.

(** ** On a reliable store *)

Section live.
Context `{HSR : !ReliableStore S}.

Lemma writeRootKey_total root c s : exists s', writeRootKey d root c s = (Ok tt, s').
Proof.
  unfold writeRootKey. simpl MultiPut.
  destruct (putBuffer_ok (fs_pather d root) c OverWrite s) as (s1 & -> & Ho); [done|].
  unfold verifyFlushed, mret, M_ret. destruct (negb (f_withVerifyHash d)); [eauto|].
  destruct (verifyBlob_ok (fs_pather d root) c s1) as (s2 & -> & _); [by rewrite Ho, lookup_insert_eq|eauto].
Qed.

Lemma finishPut_total fs failed w s kc n :
  Inv L (f_prefix d) content B s0 fs failed [] w s -> w_jobs w = [] -> w_errors w = [] ->
  exists pr st, finishPut d w n (s, kc) = (Ok pr, st).
Proof.
  intros HI Hj He. unfold finishPut, on_store, put_root, mbind, M_bind, lift, cacheKeys, mret, M_ret.
  destruct (Flush_total L (f_prefix d) content B s0 L_pos no_collision leaf_blobs_in fs failed w s HI Hj He) as (root & ks & w' & s1 & Ef).
  destruct (Flush_spec L (f_prefix d) content B s0 L_pos no_collision leaf_blobs_in fs failed w s _ _ _ _ HI Hj Ef)
    as (-> & -> & _ & _ & Hfl).
  rewrite Ef. unfold Close. rewrite Hfl.
  match goal with |- context [existsAndValidBlob ?p ?c s1] =>
    destruct (existsAndValidBlob_total p c s1) as ([f o] & s2 & ->) end.
  destruct (negb f || o).
  - match goal with |- context [writeRootKey d ?p ?c s2] => destruct (writeRootKey_total p c s2) as [s3 ->] end.
    cbn [pr_Keys pr_Key]. rewrite UnverifiedLeafKeys_ok. eauto.
  - cbn [pr_Keys pr_Key]. rewrite UnverifiedLeafKeys_ok. eauto.
Qed.

Lemma Put_progress cs kc :
  content = concat cs -> Forall (fun c => length c <= L) cs -> intact B (objects s0) ->
  (forall es r st, Put d es cs None (s0, kc) = Some (r, st) -> exists pr, r = Ok pr) /\
  (exists es pr st, Put d es cs None (s0, kc) = Some (Ok pr, st)).
Proof.
  intros Hcs HF Hi.
  pose proof (Inv_init L (f_prefix d) content B s0 L_pos (f_withVerifyBlobHash d) cs Hcs Hi) as HI.
  split.
  - intros es r st H. unfold Put in H.
    destruct (exec es cs (fs_writer d) s0) as [[re s1]|] eqn:E; [|done].
    destruct (exec_quiet L (f_prefix d) content B s0 L_pos no_collision leaf_blobs_in
                es _ _ _ _ _ _ _ HF HI eq_refl E) as (cs' & w & -> & He).
    destruct (exec_Inv L (f_prefix d) content B s0 L_pos no_collision leaf_blobs_in
                es _ _ _ _ _ _ _ _ HF HI E) as (fs & failed & HI').
    destruct cs' as [|? ?]; [|done]. destruct (w_jobs w) eqn:Ej; [|done].
    destruct (finishPut_total fs failed w s1 kc (length (concat cs)) HI' Ej He) as (pr & st' & Hf).
    rewrite Hf in H. injection H as <- <-. eauto.
  - destruct (exec_complete L (f_prefix d) content B s0 L_pos no_collision leaf_blobs_in
                _ _ _ _ _ HF HI eq_refl) as (es & w & s1 & E & Ej).
    destruct (exec_quiet L (f_prefix d) content B s0 L_pos no_collision leaf_blobs_in
                es _ _ _ _ _ _ _ HF HI eq_refl E) as (cs' & w1 & Heq & He). injection Heq as <- <-.
    destruct (exec_Inv L (f_prefix d) content B s0 L_pos no_collision leaf_blobs_in
                es _ _ _ _ _ _ _ _ HF HI E) as (fs & failed & HI').
    destruct (finishPut_total fs failed w s1 kc (length (concat cs)) HI' Ej He) as (pr & st & Hf).
    exists es, pr, st. unfold Put, fs_writer. by rewrite E, Ej, Hf.
Qed.

(** C6: on a reliable store that holds no wrong blob under the names of the content,
    and with buffers not longer than a leaf, [Put] cannot fail: every complete
    execution returns a result, and a complete execution exists. *)
Theorem Put_total cs kc :
  content = concat cs -> Forall (fun c => length c <= L) cs -> intact B (objects s0) ->
  (forall es r st, Put d es cs None (s0, kc) = Some (r, st) -> exists pr, r = Ok pr) /\
  (exists es pr st, Put d es cs None (s0, kc) = Some (Ok pr, st)).
Proof. apply Put_progress. Qed.

(** A reader for a stored content, from the cache of keys or from the root blob. *)

Lemma Get_reader s kc :
  stored B (objects s) -> keys_coherent kc ->
  exists s' kc', Get d (rootKey L content) (s, kc) =
      (Ok (newReader L (f_prefix d) (leafKeys L content) (f_withVerifyHash d)
             (if f_leafTruncation d then 32 * 1024 else 0)), (s', kc')) /\
    objects s' = objects s /\ keys_coherent kc'.
Proof.
  intros Hs Hc. unfold Get, fs_reader.
  destruct (lru_Get (rootKey L content) kc) as [[ks|] kc1] eqn:E;
    destruct (caches_Get _ _ _ _ _ Hc E) as [Hc1 Hv].
  - rewrite (Hv ks eq_refl eq_refl). by exists s, kc1.
  - unfold LeavesForHash, leavesForHash, bytesFromRoot, mbind, M_bind, lift.
    destruct (Get_ok (StringWithPrefix (rootKey L content) (f_prefix d)) s
                (rootContent (rootKey L content) (leafKeys L content))) as (s1 & -> & Ho).
    { apply Hs. apply root_blob_in. }
    assert (verifiedKeys (rootContent (rootKey L content) (leafKeys L content)) L = Ok (leafKeys L content)) as ->
      by (apply verifiedKeys_content, leafKeys_keys).
    destruct (lru_ContainsOrAdd (rootKey L content) (leafKeys L content) kc1) as [b kc2] eqn:Ea.
    exists s1, kc2. split_and!; try done. by eapply caches_Add.
Qed.

(** C3: what was put is read back: after a successful [Put] of a content that is not
    empty, in buffers not longer than a leaf, [Get] of the returned key gives a
    reader, whether the leaf keys come from the cache or from the root blob, and
    [Read], called with any sequence of buffers, delivers the content part after
    part and reports the end when all of it is delivered. *)
Theorem Put_Get_roundtrip `{HBR : !BlobReader, HBRL : !BlobReaderLaws} es cs kc pr s' kc' :
  content = concat cs -> content <> [] -> Forall (fun c => length c <= L) cs ->
  intact B (objects s0) -> keys_coherent kc ->
  Put d es cs None (s0, kc) = Some (Ok pr, (s', kc')) ->
  exists r s'' kc'', Get d (pr_Key pr) (s', kc') = (Ok r, (s'', kc'')) /\
    forall bufs, exists outs r' s3, reads bufs r s'' = Some (Ok (outs, r'), s3) /\ read_back (length <$> bufs) content outs.
Proof.
  intros Hcs Hne HF Hi Hc H.
  destruct (Put_spec _ _ _ _ _ _ Hcs HF Hi Hc H) as (_ & Hc' & Hok).
  destruct (Hok pr eq_refl) as (found & -> & Hst). cbn [pr_Key].
  destruct (Get_reader s' kc' Hst Hc') as (s'' & kc'' & -> & Ho & _).
  exists (newReader L (f_prefix d) (leafKeys L content) (f_withVerifyHash d)
            (if f_leafTruncation d then 32 * 1024 else 0)), s'', kc''. split; [done|]. intros bufs.
  destruct (reads_deliver L (f_prefix d) content L_pos bufs (newReader L (f_prefix d) (leafKeys L content) (f_withVerifyHash d)
    (if f_leafTruncation d then 32 * 1024 else 0)) s'' content) as (outs & r' & s3 & E & _ & Hr).
  - by apply RI_new.
  - by left.
  - rewrite Ho. intros p c Hin. by apply Hst, leaf_blobs_in.
  - by exists outs, r', s3.
Qed.

(** The leaf keys of a stored content. *)

Lemma LeavesForHash_ok s :
  stored B (objects s) ->
  exists s', LeavesForHash (rootKey L content) L (f_prefix d) s = (Ok (leafKeys L content), s') /\
    objects s' = objects s.
Proof.
  intros Hs. unfold LeavesForHash, leavesForHash, bytesFromRoot, mbind, M_bind, lift.
  destruct (Get_ok (StringWithPrefix (rootKey L content) (f_prefix d)) s
              (rootContent (rootKey L content) (leafKeys L content))) as (s1 & -> & Ho).
  { apply Hs. apply root_blob_in. }
  assert (verifiedKeys (rootContent (rootKey L content) (leafKeys L content)) L = Ok (leafKeys L content)) as ->
    by (apply verifiedKeys_content, leafKeys_keys). eauto.
Qed.

Lemma delete_all_ok ks s :
  NoDup ks -> (forall k, k ∈ ks -> is_Some (objects s !! Key_String k)) ->
  exists s', for_each ks (fun key => Storage.Delete (Key_String key)) s = (Ok tt, s') /\
    objects s' = foldr (fun k m => delete (Key_String k) m) (objects s) ks.
Proof.
  revert s. induction ks as [|k ks IH]; intros s Hnd Hin; [by exists s|].
  apply NoDup_cons in Hnd as [Hk Hnd]. cbn [for_each].
  destruct (Delete_ok (Key_String k) s) as (s1 & Hd & Ho); [apply Hin; set_solver|].
  rewrite (M_bind_step _ _ _ _ _ Hd). destruct (IH s1 Hnd) as (s2 & Hf & Ho2).
  { intros k' Hk'. rewrite Ho, lookup_delete_ne; [apply Hin; set_solver|].
    intros Heq%(inj Key_String). by subst. }
  exists s2. split; [done|]. rewrite Ho2, Ho. simpl. clear.
  induction ks as [|k' ks IH]; simpl; [done|]. by rewrite IH, delete_delete.
Qed.

Lemma delete_keys_lookup ks (m : gmap string bytes) p :
  foldr (fun k m => delete (Key_String k) m) m ks !! p =
  if decide (p ∈ Key_String <$> ks) then None else m !! p.
Proof.
  induction ks as [|k ks IH]; cbn [foldr]; [by rewrite decide_False by set_solver|]. rewrite fmap_cons.
  destruct (decide (p = Key_String k)) as [->|Hne].
  - by rewrite lookup_delete_eq, decide_True by set_solver.
  - rewrite lookup_delete_ne, IH by done. repeat case_decide; set_solver.
Qed.

(** with no prefix configured, [Delete] removes the root and all the
    leaves of a stored content, and nothing else. *)
Theorem Delete_correct s :
  f_prefix d = "" -> NoDup (rootKey L content :: leafKeys L content) -> stored B (objects s) ->
  exists s', Delete d (rootKey L content) s = (Ok tt, s') /\
    (forall k, k = rootKey L content \/ k ∈ leafKeys L content -> objects s' !! Key_String k = None) /\
    (forall p, (forall k, k = rootKey L content \/ k ∈ leafKeys L content -> p <> Key_String k) ->
       objects s' !! p = objects s !! p).
Proof.
  intros Hp Hnd Hs. apply NoDup_cons in Hnd as [Hr Hnd]. unfold Delete.
  destruct (LeavesForHash_ok s Hs) as (s1 & Hl & Ho). rewrite (M_bind_step _ _ _ _ _ Hl).
  destruct (delete_all_ok (leafKeys L content) s1 Hnd) as (s2 & Hf & Ho2).
  { intros k (b & -> & Hb)%list_elem_of_fmap. rewrite Ho. destruct b as [k c]. simpl. exists c.
    apply Hs, leaf_blobs_in. unfold blobs. apply list_elem_of_fmap. exists (k, c). rewrite Hp. done. }
  rewrite (M_bind_step _ _ _ _ _ Hf).
  destruct (Delete_ok (Key_String (rootKey L content)) s2) as (s3 & Hd & Ho3).
  { rewrite Ho2, delete_keys_lookup, Ho, decide_False.
    - pose proof (Hs _ _ root_blob_in) as Hrb. unfold fs_pather, StringWithPrefix in Hrb. rewrite Hp in Hrb.
      rewrite Strings.append_nil in Hrb. eauto.
    - intros (k & Heq%(inj Key_String) & Hk)%list_elem_of_fmap. by subst k. }
  exists s3. split; [done|]. rewrite Ho3, Ho2, Ho. split.
  - intros k [->|Hk]; [by rewrite lookup_delete_eq|].
    destruct (decide (Key_String (rootKey L content) = Key_String k)) as [Heq|Hne]; [by rewrite Heq, lookup_delete_eq|].
    rewrite lookup_delete_ne, delete_keys_lookup, decide_True by (done || by apply list_elem_of_fmap; eauto). done.
  - intros p Hne. rewrite lookup_delete_ne by (intros <-; by eapply Hne; [left|]).
    rewrite delete_keys_lookup, decide_False; [done|]. intros (k & -> & Hk)%list_elem_of_fmap. by eapply Hne; [right|].
Qed.

Lemma for_each_delete_ne ks p s r s' :
  (forall k, k ∈ ks -> p <> Key_String k) ->
  for_each ks (fun key => Storage.Delete (Key_String key)) s = (r, s') -> objects s' !! p = objects s !! p.
Proof.
  intros Hne H. eapply (for_each_inv (fun t => objects t !! p = objects s !! p)); [|done|exact H].
  intros k t r' t' Hk Ht Hd. rewrite <- Ht. eapply Delete_ne; [exact Hd|]. auto.
Qed.

(** with a prefix configured, [Delete] leaves the content in place: it
    finds the leaves under the prefix but deletes names without it. *)
Theorem Delete_ignores_prefix s r s' :
  f_prefix d <> "" -> stored B (objects s) -> Delete d (rootKey L content) s = (r, s') -> stored B (objects s').
Proof.
  intros Hp Hs H p c Hin. assert (Hlen : 2 * KeySize < String.length p).
  { unfold objectBlobs, blobs in Hin. apply elem_of_app in Hin as [Hin|Hin].
    - apply list_elem_of_fmap in Hin as ([k c'] & Heq & Hk). injection Heq as -> ->.
      unfold StringWithPrefix, Key_String. rewrite Strings.string_app_length, Hex.length_EncodeToString.
      pose proof (leafKeys_keys L content) as HF. rewrite Forall_forall in HF.
      rewrite (HF k) by (apply list_elem_of_fmap; by exists (k, c')).
      destruct (f_prefix d); [done|]. simpl. lia.
    - apply list_elem_of_singleton in Hin. injection Hin as -> ->.
      unfold StringWithPrefix, Key_String. rewrite Strings.string_app_length, Hex.length_EncodeToString.
      unfold rootKey. rewrite blake2b_length. destruct (f_prefix d); [done|]. simpl. lia. }
  assert (Hne : forall k, is_key k -> p <> Key_String k).
  { intros k Hk ->. unfold Key_String in Hlen. rewrite Hex.length_EncodeToString, Hk in Hlen. lia. }
  rewrite <- (Hs p c Hin). unfold Delete in H.
  destruct (LeavesForHash_ok s Hs) as (s1 & Hl & Ho). rewrite (M_bind_step _ _ _ _ _ Hl), <- Ho in *.
  unfold mbind, M_bind in H.
  destruct (for_each (leafKeys L content) _ s1) as [rf s2] eqn:Ef.
  assert (Hf : objects s2 !! p = objects s1 !! p).
  { eapply for_each_delete_ne; [|exact Ef]. intros k Hk. apply Hne.
    pose proof (leafKeys_keys L content) as HF. rewrite Forall_forall in HF. auto. }
  destruct rf as [[]|e|m]; [|simplify_eq; done..].
  rewrite <- Hf. eapply Delete_ne; [exact H|]. apply Hne. apply blake2b_length.
Qed.

Lemma gather_incomplete_ok ks s :
  exists s', gather_incomplete ks s =
      (Ok (filter (fun k => objects s !! Key_String k = None) ks), s') /\ objects s' = objects s.
Proof.
  revert s. induction ks as [|k ks IH]; intros s; cbn [gather_incomplete]; [by exists s|].
  destruct (Has_ok (Key_String k) s) as (s1 & Hh & Ho).
  destruct (IH s1) as (s2 & Hg & Ho2). rewrite Ho in Hg, Ho2.
  exists s2. split; [|done]. unfold mbind, M_bind, attempt. rewrite Hh, Hg. unfold mret, M_ret.
  rewrite filter_cons. destruct (objects s !! Key_String k) eqn:E.
  - rewrite bool_decide_eq_true_2, decide_False by (eauto || done). done.
  - rewrite bool_decide_eq_false_2, decide_True by (by intros [] || done). done.
Qed.

(** with no prefix, [Has] with the option to gather answers true for the
    root of a stored content that is not empty, with exactly those leaves that
    are missing from the store; a root that is not stored is not found. *)
Theorem Has_correct s :
  f_prefix d = "" -> content <> [] ->
  objects s !! fs_pather d (rootKey L content) = Some (rootContent (rootKey L content) (leafKeys L content)) ->
  (exists s', Has d (rootKey L content) [HasGatherIncomplete] s =
     (Ok (true, filter (fun k => objects s !! Key_String k = None) (leafKeys L content)), s')) /\
  (forall k, objects s !! Key_String k = None -> exists s', Has d k [HasGatherIncomplete] s = (Ok (false, []), s')).
Proof.
  intros Hp Hne Hroot. split.
  - unfold fs_pather, StringWithPrefix in Hroot. rewrite Hp, Strings.append_nil in Hroot.
    unfold Has. destruct (Has_ok (Key_String (rootKey L content)) s) as (s1 & Hh & Ho).
    rewrite (M_bind_step _ _ _ _ _ Hh), Hroot. rewrite bool_decide_eq_true_2 by eauto. simpl.
    unfold mbind, M_bind, attempt, LeavesForHash, leavesForHash, bytesFromRoot, mbind, M_bind, lift.
    unfold StringWithPrefix. rewrite Hp, Strings.append_nil.
    destruct (Get_ok (Key_String (rootKey L content)) s1 (rootContent (rootKey L content) (leafKeys L content)))
      as (s2 & -> & Ho2); [by rewrite Ho|].
    assert (verifiedKeys (rootContent (rootKey L content) (leafKeys L content)) L = Ok (leafKeys L content)) as ->
      by (apply verifiedKeys_content, leafKeys_keys).
    destruct (gather_incomplete_ok (leafKeys L content) s2) as (s3 & Hg & _).
    rewrite Ho2, Ho in Hg. exists s3. destruct (leafKeys L content) as [|k ks] eqn:Ek.
    + exfalso. apply Hne. rewrite <- (leafBlobs_content L content L_pos).
      unfold leafKeys in Ek. apply fmap_nil_inv in Ek. by rewrite Ek.
    + cbn [GatherIncomplete]. by rewrite Hg.
  - intros k Hk. unfold Has. destruct (Has_ok (Key_String k) s) as (s1 & Hh & Ho).
    rewrite (M_bind_step _ _ _ _ _ Hh), Hk. rewrite bool_decide_eq_false_2 by (by intros []). eauto.
Qed.

End live.

End one_content.

End put.

End CafsFs.
