(* ===== verification/CafsIface.v ===== *)
(** * The interface of the content-addressable file system (pkg/cafs: cafs.go)

    What the upload and the download of bundles use of a cafs.Fs: [Put] of the
    content of a reader, and [Get] of the reader of a stored content. The class
    [Cafs] has the operations, with the choices of an execution as an argument;
    [CafsLaws] states what the clients rely on in terms of the blobs the backend
    holds. The implementation of CafsFs.v is an instance of both, for contents
    whose blobs do not collide. *)

From S2P Require Import Prelude GoLib Errors Storage CafsKeys CafsWriter CafsFlush Lru CafsReader CafsRead CafsFs.

Module CafsIface.
Import Storage CafsKeys CafsWriter CafsFlush Lru CafsReader CafsRead CafsFs.

(** [S] is the state of the backend store, [F] that of a file system over it.
    A reader is given to its clients as the [source] it delivers. *)

Class Cafs (S F : Type) : Type := {
  fs_run : Type;
  fs_copy : Type;
  fs_open : defaultFs -> S -> F;
  fs_conf : F -> defaultFs;
  fs_backend : F -> S;
  fs_Put : fs_run -> bytes -> F -> option (res PutRes * F);
  fs_Get : fs_copy -> Key -> F -> option (res source * F)
}.

(** [fs_contents L c]: the content [c] is one of those that may be stored with
    leaves of size [L]; [blobs_ok]: no blob of the store is damaged;
    [holds L s k c]: the content [c] is stored under the key [k]. *)

Class CafsLaws (S F : Type) `{HC : Cafs S F, HSL : StoreLaws S} : Type := {
  fs_contents : nat -> bytes -> Prop;
  blobs_ok : S -> Prop;
  holds : nat -> S -> Key -> bytes -> Prop;
  fs_ok : F -> Prop;
  fs_open_conf d s : fs_conf (fs_open d s) = d;
  fs_open_backend d s : fs_backend (fs_open d s) = s;
  fs_open_ok d s : f_prefix d = "" -> (32 * 1024 <= f_leafSize d < 2 ^ 32)%Z -> blobs_ok s -> fs_ok (fs_open d s);
  fs_ok_blobs f : fs_ok f -> blobs_ok (fs_backend f);
  blobs_ok_objects s s' : objects s' = objects s -> blobs_ok s -> blobs_ok s';
  holds_objects L s s' k c : objects s' = objects s -> holds L s k c -> holds L s' k c;
  holds_key L s k c : holds L s k c -> is_key k;
  fs_Put_ok x c f r f' : fs_ok f -> fs_contents (leafSize (fs_conf f)) c -> fs_Put x c f = Some (r, f') ->
    exists pr, r = Ok pr /\ pr_Written pr = length c /\ holds (leafSize (fs_conf f)) (fs_backend f') (pr_Key pr) c /\
      fs_conf f' = fs_conf f /\ fs_ok f' /\ forall L k c', holds L (fs_backend f) k c' -> holds L (fs_backend f') k c';
  fs_Put_live c f : fs_ok f -> fs_contents (leafSize (fs_conf f)) c -> exists x r f', fs_Put x c f = Some (r, f');
  fs_Get_ok x k c f r f' : fs_ok f -> f_leafTruncation (fs_conf f) = false -> holds (leafSize (fs_conf f)) (fs_backend f) k c ->
    fs_Get x k f = Some (r, f') ->
    r = Ok (NewReader c) /\ fs_conf f' = fs_conf f /\ fs_ok f' /\ objects (fs_backend f') = objects (fs_backend f);
  fs_Get_live k c f : fs_ok f -> f_leafTruncation (fs_conf f) = false -> holds (leafSize (fs_conf f)) (fs_backend f) k c ->
    exists x r f', fs_Get x k f = Some (r, f')
}.

(** ** The implementation *)

(** The leaves of a reader copied in the order [order]: what reaches the
    destination, and the first error. *)

Section copy.
Context {S : Type} `{HS : !Store S}.

Fixpoint copy_leaves (r : chunkReader) (order : list nat) (file : bytes) (s : S) : res source * S :=
  match order with
  | [] => (Ok (NewReader file), s)
  | i :: order' =>
      match write_leaf r i file s with
      | (Ok file', s') => copy_leaves r order' file' s'
      | (Err e, s') =>
          let '(rest, s'') := copy_leaves r order' file s' in (res_map _ _ (fun src => Source (src_data src) (Some e)) rest, s'')
      | (Panic m, s') => (Panic m, s')
      end
  end.

Lemma copy_leaves_ok r order : forall file s f s',
  write_leaves r order file s = (Ok f, s') -> copy_leaves r order file s = (Ok (NewReader f), s').
Proof.
  induction order as [|i order IH]; intros file s f s' H; cbn [write_leaves copy_leaves] in *; [by simplify_eq|].
  destruct (write_leaf r i file s) as [[f1|e|m] s1]; [by apply IH|done..].
Qed.

End copy.

Section impl.
Context `{HB : !Blake2b} {S : Type} `{HS : !Store S} {KC : Type} `{HK : !Lru KC Key (list Key)}.
Variable kc0 : KC.

Record fsState : Type := mkFsState {
  st_conf : defaultFs;
  st_store : S;
  st_keys : KC
}.

(** io.Copy hands the content over in buffers of at most 32 KiB; the goroutines
    of WriteTo run in some order, each leaf once. *)

Definition copyBuffer : nat := Z.to_nat (32 * 1024).

Definition impl_Put (x : list event * list bytes) (c : bytes) (f : fsState) : option (res PutRes * fsState) :=
  let '(es, cs) := x in
  if decide (concat cs = c /\ Forall (fun b => length b <= copyBuffer) cs) then
    match Put (st_conf f) es cs None (st_store f, st_keys f) with
    | Some (r, (s', kc')) => Some (r, mkFsState (st_conf f) s' kc')
    | None => None
    end
  else None.

Definition impl_Get (order : list nat) (k : Key) (f : fsState) : option (res source * fsState) :=
  match Get (st_conf f) k (st_store f, st_keys f) with
  | (Ok r, (s1, kc1)) =>
      if decide (order ≡ₚ seq 0 (length (r_keys r))) then
        let '(src, s2) := copy_leaves r order [] s1 in Some (src, mkFsState (st_conf f) s2 kc1)
      else None
  | (Err e, (s1, kc1)) => Some (Err e, mkFsState (st_conf f) s1 kc1)
  | (Panic p, (s1, kc1)) => Some (Panic p, mkFsState (st_conf f) s1 kc1)
  end.

Definition impl_Cafs : Cafs S fsState := {|
  fs_run := list event * list bytes;
  fs_copy := list nat;
  fs_open d s := mkFsState d s kc0;
  fs_conf := st_conf;
  fs_backend := st_store;
  fs_Put := impl_Put;
  fs_Get := impl_Get
|}.

End impl.

Arguments fsState : clear implicits.

Section laws.
Context `{HB : !Blake2b, HBL : !Blake2bLaws} {S : Type} `{HS : !Store S, HSL : !StoreLaws S, HSR : !ReliableStore S}.
Context {KC : Type} `{HK : !Lru KC Key (list Key), HKL : !LruLaws KC Key (list Key)}.
Variables (kc0 : KC) (U : nat -> bytes -> Prop).

(** The cache of a new file system is empty. *)

Hypothesis kc0_empty : forall k, lru_entries kc0 k = None.

(** The blobs of the contents in use do not collide. *)

Hypothesis no_collision : forall L c L' c' p x x', U L c -> U L' c' ->
  (p, x) ∈ objectBlobs "" L c -> (p, x') ∈ objectBlobs "" L' c' -> x = x'.

Definition impl_blobs_ok (s : S) : Prop := forall L c, U L c -> intact (objectBlobs "" L c) (objects s).

Definition impl_holds (L : nat) (s : S) (k : Key) (c : bytes) : Prop :=
  U L c /\ k = rootKey L c /\ stored (objectBlobs "" L c) (objects s).

Definition keys_ok (L : nat) (kc : KC) : Prop :=
  caches (fun root ks => forall c, U L c -> root = rootKey L c -> ks = leafKeys L c) kc.

Definition impl_ok (f : fsState S KC) : Prop :=
  f_prefix (st_conf f) = "" /\ (32 * 1024 <= f_leafSize (st_conf f) < 2 ^ 32)%Z /\
  impl_blobs_ok (st_store f) /\ keys_ok (leafSize (st_conf f)) (st_keys f).

Lemma functional_one L c : U L c -> functional (objectBlobs "" L c).
Proof. intros Hc p x x' H H'. by eapply (no_collision L c L c). Qed.

(** Storing the blobs of one content damages no other content. *)

Lemma stored_step L c (m m' : gmap string bytes) : U L c -> untouched (objectBlobs "" L c) m m' -> stored (objectBlobs "" L c) m' ->
  (forall L' c', U L' c' -> intact (objectBlobs "" L' c') m -> intact (objectBlobs "" L' c') m') /\
  (forall L' c', U L' c' -> stored (objectBlobs "" L' c') m -> stored (objectBlobs "" L' c') m').
Proof.
  intros Hc Hu Hs.
  assert (Hcase : forall L' c' p x, U L' c' -> (p, x) ∈ objectBlobs "" L' c' -> m' !! p = Some x \/ m' !! p = m !! p).
  { intros L' c' p x Hc' Hin. destruct (decide (p ∈ (objectBlobs "" L c).*1)) as [Hp|Hp]; [|right; by apply Hu].
    apply list_elem_of_fmap in Hp as ([p' y] & -> & Hy). left. cbn [fst] in *. rewrite (Hs _ _ Hy). f_equal. by eapply (no_collision L c L' c'). }
  split; intros L' c' Hc' Hi p x Hin; destruct (Hcase L' c' p x Hc' Hin) as [->| ->]; auto.
Qed.

(** Equal roots have equal leaves. *)

Lemma rootKey_leaves L c c' : U L c -> U L c' -> rootKey L c = rootKey L c' -> leafKeys L c = leafKeys L c'.
Proof.
  intros Hc Hc' He.
  assert (Hr : rootContent (rootKey L c) (leafKeys L c) = rootContent (rootKey L c') (leafKeys L c')).
  { eapply (no_collision L c L c'); [done|done|unfold objectBlobs; apply elem_of_app; right; by apply list_elem_of_singleton|].
    rewrite He. unfold objectBlobs. apply elem_of_app. right. by apply list_elem_of_singleton. }
  unfold rootContent in Hr. rewrite He in Hr. apply app_inv_tail in Hr.
  pose proof (leaves_concat _ (leafKeys_keys L c)) as H1. pose proof (leaves_concat _ (leafKeys_keys L c')) as H2.
  rewrite Hr, H2 in H1. by simplify_eq.
Qed.

Lemma keys_ok_coherent d c kc : U (leafSize d) c -> keys_ok (leafSize d) kc -> keys_coherent d c kc.
Proof. intros Hc Hk k v Hv He. by eapply Hk. Qed.

Lemma keys_ok_add L c kc : U L c -> keys_ok L kc -> keys_ok L (lru_ContainsOrAdd (rootKey L c) (leafKeys L c) kc).2.
Proof.
  intros Hc Hk. destruct (lru_ContainsOrAdd (rootKey L c) (leafKeys L c) kc) as [b kc'] eqn:E. eapply caches_Add; [exact Hk| |exact E].
  intros c' Hc' He. by apply rootKey_leaves.
Qed.

Lemma leafSize_range f : impl_ok f -> copyBuffer <= leafSize (st_conf f) /\ (Z.of_nat (leafSize (st_conf f)) < 2 ^ 32)%Z.
Proof. intros (_ & H & _). unfold leafSize, copyBuffer. lia. Qed.

Lemma Put_buffers f (cs : list bytes) : impl_ok f -> Forall (fun b => length b <= copyBuffer) cs ->
  Forall (fun b => length b <= leafSize (st_conf f)) cs.
Proof. intros Hf HF. eapply Forall_impl; [exact HF|]. intros b Hb. simpl in Hb. pose proof (leafSize_range f Hf). lia. Qed.

Lemma impl_Put_ok x c f r f' :
  let L := leafSize (st_conf f) in
  impl_ok f -> U L c -> impl_Put x c f = Some (r, f') ->
  exists pr, r = Ok pr /\ pr_Written pr = length c /\ impl_holds L (st_store f') (pr_Key pr) c /\
    st_conf f' = st_conf f /\ impl_ok f' /\ forall L' k c', impl_holds L' (st_store f) k c' -> impl_holds L' (st_store f') k c'.
Proof.
  intros L Hf Hc H. pose proof (leafSize_range f Hf) as [Hpos _]. destruct Hf as (Hp & HL & Hb & Hk). destruct x as [es cs].
  unfold impl_Put in H. destruct (decide _) as [[Hcs HF]|]; [|done].
  apply Put_buffers with (f := f) in HF; [|done]. symmetry in Hcs.
  destruct (Put (st_conf f) es cs None (st_store f, st_keys f)) as [[r1 [s1 kc1]]|] eqn:E; [|done]. injection H as -> <-.
  assert (Lpos : 0 < L) by (fold L in Hpos; unfold copyBuffer in Hpos; lia).
  pose proof (functional_one L c Hc) as Hfun. pose proof (Hb L c Hc) as Hi. rewrite <- Hp in Hfun, Hi.
  destruct (Put_progress (st_conf f) c (st_store f) Lpos Hfun cs (st_keys f) Hcs HF Hi) as [Hprog _].
  destruct (Hprog es r (s1, kc1) E) as [pr ->].
  destruct (CafsFs.Put_spec (st_conf f) c (st_store f) Lpos Hfun es cs _ _ _ _ Hcs HF Hi (keys_ok_coherent _ _ _ Hc Hk) E)
    as (Hu & _ & Hok). destruct (Hok pr eq_refl) as (found & -> & Hst). rewrite Hp in Hu, Hst. fold L in Hu, Hst.
  destruct (stored_step L c _ _ Hc Hu Hst) as [Hint Hstd].
  eexists. cbn [st_conf st_store st_keys pr_Key pr_Written]. refine (conj eq_refl (conj eq_refl (conj _ (conj eq_refl (conj _ _))))).
  - done.
  - refine (conj Hp (conj HL (conj _ _))).
    + intros L' c' Hc'. by apply Hint, Hb.
    + destruct (Put_cache _ _ _ _ _ _ _ _ E) as [->|(pr & ks & [= <-] & Hks & ->)]; [done|]. cbn [pr_Keys pr_Key] in *.
      rewrite UnverifiedLeafKeys_ok in Hks. injection Hks as <-. by apply keys_ok_add.
  - intros L' k c' (Hc' & -> & Hs'). split; [done|]. split; [done|]. by apply Hstd.
Qed.

Lemma impl_Put_live c f : impl_ok f -> U (leafSize (st_conf f)) c -> exists x r f', impl_Put x c f = Some (r, f').
Proof.
  intros Hf Hc. pose proof (leafSize_range f Hf) as [Hpos _]. set (L := leafSize (st_conf f)) in *.
  assert (Lpos : 0 < L) by (unfold copyBuffer in Hpos; lia).
  assert (exists cs, c = concat cs /\ Forall (fun b => length b <= copyBuffer) cs) as (cs & Hcs & HF).
  { exists ((fun b => [b]) <$> c). split.
    - clear. induction c as [|b c IH]; [done|]. rewrite fmap_cons. simpl. by rewrite <- IH.
    - apply Forall_fmap, Forall_true. intros b. simpl. unfold copyBuffer. lia. }
  pose proof (Put_buffers f cs Hf HF) as HF'. destruct Hf as (Hp & HL & Hb & Hk).
  pose proof (functional_one L c Hc) as Hfun. pose proof (Hb L c Hc) as Hi. rewrite <- Hp in Hfun, Hi.
  destruct (Put_progress (st_conf f) c (st_store f) Lpos Hfun cs (st_keys f) Hcs HF' Hi) as [_ (es & pr & [s1 kc1] & E)].
  exists (es, cs). unfold impl_Put. rewrite decide_True by done. rewrite E. eauto.
Qed.

(** A stored content is read back whatever the order of the copy. *)

Lemma impl_Get_ok k c f :
  let L := leafSize (st_conf f) in
  impl_ok f -> f_leafTruncation (st_conf f) = false -> impl_holds L (st_store f) k c ->
  (forall order r f', impl_Get order k f = Some (r, f') ->
     r = Ok (NewReader c) /\ st_conf f' = st_conf f /\ impl_ok f' /\ objects (st_store f') = objects (st_store f)) /\
  exists order r f', impl_Get order k f = Some (r, f').
Proof.
  intros L Hf Ht (Hc & -> & Hst). pose proof (leafSize_range f Hf) as [Hpos H32]. fold L in Hpos, H32. destruct Hf as (Hp & HL & Hb & Hk).
  assert (Lpos : 0 < L) by (unfold copyBuffer in Hpos; lia).
  pose proof (functional_one L c Hc) as Hfun. rewrite <- Hp in Hfun, Hst.
  destruct (Get_reader (st_conf f) c (st_store f) (st_keys f) Hst (keys_ok_coherent _ _ _ Hc Hk))
    as (s1 & kc1 & E & Ho & _). rewrite Ht in E. fold L in E.
  assert (Hk1 : keys_ok L kc1).
  { pose proof (Get_cache _ _ _ _ _ _ _ E) as Hcache. destruct (lru_Get (rootKey L c) (st_keys f)) as [o kc2] eqn:El.
    destruct (caches_Get _ _ _ _ _ Hk El) as [Hk2 _]. destruct Hcache as [->|(ks & Hks & ->)]; [done|].
    destruct (LeavesForHash_ok (st_conf f) c (st_store f) Hst) as (s2 & El2 & _). fold L in El2, Hks.
    rewrite El2 in Hks. injection Hks as <-. by apply keys_ok_add. }
  assert (Hcopy : forall order, order ≡ₚ seq 0 (length (leafKeys L c)) -> exists s2,
    copy_leaves (newReader L (f_prefix (st_conf f)) (leafKeys L c) (f_withVerifyHash (st_conf f)) 0) order [] s1 = (Ok (NewReader c), s2) /\
    objects s2 = objects s1).
  { intros order Hord. unfold leafKeys in Hord. rewrite length_fmap in Hord.
    destruct (WriteTo_ok L (f_prefix (st_conf f)) c Lpos
                (newReader L (f_prefix (st_conf f)) (leafKeys L c) (f_withVerifyHash (st_conf f)) 0)
                eq_refl eq_refl eq_refl eq_refl H32 order [] s1 Hord) as (s2 & Hw & Ho2); [simpl; lia| |].
    - rewrite Ho. intros p x Hin. apply Hst. by apply leaf_blobs_in.
    - exists s2. split; [|done]. apply copy_leaves_ok. unfold WriteTo in Hw.
      destruct (Nat.eqb_spec (length (r_keys (newReader L (f_prefix (st_conf f)) (leafKeys L c) (f_withVerifyHash (st_conf f)) 0))) 0) as [H0|H0]; [|done].
      cbn [r_keys newReader] in H0. unfold leafKeys in H0. rewrite length_fmap in H0. rewrite H0 in Hord.
      apply Permutation_nil_r in Hord as ->. exact Hw. }
  unfold impl_Get. rewrite E. cbn [r_keys newReader]. split.
  - intros order r f' H. destruct (decide _) as [Hord|]; [|done].
    destruct (Hcopy order Hord) as (s2 & Hcp & Ho2). rewrite Hcp in H. injection H as <- <-. cbn [st_conf st_store st_keys].
    refine (conj eq_refl (conj eq_refl (conj _ _))); [|by rewrite Ho2, Ho]. refine (conj Hp (conj HL (conj _ Hk1))).
    cbn [st_store]. intros L' c' Hc'. rewrite Ho2, Ho. by apply Hb.
  - exists (seq 0 (length (leafKeys L c))). rewrite decide_True by done.
    destruct (Hcopy _ (Permutation_refl _)) as (s2 & -> & _). eauto.
Qed.

(** The implementation keeps the promises of the interface. *)

Definition impl_CafsLaws : @CafsLaws S (fsState S KC) (impl_Cafs kc0) HS HSL.
Proof.
  refine {| fs_contents := U; blobs_ok := impl_blobs_ok; holds := impl_holds;
            fs_ok := impl_ok : fsState S KC -> Prop |}; cbn [fs_open fs_conf fs_backend impl_Cafs st_conf st_store].
  - done.
  - done.
  - intros d s Hp HL Hb. refine (conj Hp (conj HL (conj Hb _))). intros k v. cbn [st_keys]. by rewrite kc0_empty.
  - by intros f (_ & _ & Hb & _).
  - intros s s' Ho Hb L c Hc. rewrite Ho. by apply Hb.
  - intros L s s' k c Ho (Hc & Hk & Hs). refine (conj Hc (conj Hk _)). by rewrite Ho.
  - intros L s k c (_ & -> & _). apply blake2b_length.
  - intros x c f r f'. apply impl_Put_ok.
  - intros c f. apply impl_Put_live.
  - intros x k c f r f' Hf Ht Hh. by apply impl_Get_ok.
  - intros k c f Hf Ht Hh. by apply (impl_Get_ok k c f).
Defined.

End laws.

End CafsIface.
