(* ===== verification/CafsWitness.v ===== *)
(** * Instances of the theorems on the content-addressable file system

    A content of three bytes in leaves of two, the hash of CafsKeys.v, the
    finite map as store and caches: the hypotheses of each theorem hold there. *)

From S2P Require Import Prelude GoLib Errors Storage CafsKeys CafsWriter CafsFlush Lru CafsReader CafsRead CafsFs.

Module CafsWitness.
Import Storage CafsKeys CafsWriter CafsFlush Lru CafsReader CafsRead CafsFs.

#[local] Existing Instance toy_blake2b.
#[local] Existing Instance toy_blake2b_laws.

(** A blob reader that fills the buffer, and reports the end in a call of its own. *)

Definition full_reads : BlobReader := fun _ rem room =>
  if decide (rem = 0) then (0, REOF) else (Nat.min rem room, RNil).

#[local] Existing Instance full_reads.

Lemma full_reads_laws : BlobReaderLaws.
Proof.
  split; unfold blob_read, full_reads; intros; case_decide; simplify_eq; lia || done.
Qed.

#[local] Existing Instance full_reads_laws.

Definition abc : bytes := [Byte.x01; Byte.x02; Byte.x03].

Definition small_fs (prefix : string) : defaultFs := mkFs 2 prefix false 1 1 10 10 0 true true true.

Definition abc_blobs (prefix : string) : list (string * bytes) := objectBlobs prefix 2 abc.

(** A complete execution: two buffers, and the three store calls of the one
    full leaf, the second buffer being copied in between. *)

Definition abc_events : list event := [EvCopy; EvJob 0; EvCopy; EvJob 0; EvJob 0].

Definition abc_chunks : list bytes := [[Byte.x01; Byte.x02]; [Byte.x03]].

Lemma small_fs_pos prefix : 0 < leafSize (small_fs prefix).
Proof. vm_compute. lia. Qed.

Lemma functional_NoDup (B : list (string * bytes)) : NoDup B.*1 -> functional B.
Proof.
  intros Hnd p c c' H H'. induction B as [|[q x] B IH]; [set_solver|].
  rewrite fmap_cons in Hnd. apply NoDup_cons in Hnd as [Hni Hnd].
  assert (Hin : forall y, (q, y) ∈ B -> False).
  { intros y Hy. apply Hni. apply list_elem_of_fmap. by exists (q, y). }
  apply elem_of_cons in H as [H|H]; apply elem_of_cons in H' as [H'|H']; simplify_eq; try done; [..|auto].
  - by exfalso; eapply Hin.
  - by exfalso; eapply Hin.
Qed.

Lemma abc_functional prefix : prefix = "" \/ prefix = "p/" -> functional (abc_blobs prefix).
Proof.
  intros [->| ->]; apply functional_NoDup; apply (bool_decide_unpack _); vm_compute; exact I.
Qed.

Lemma abc_intact prefix : intact (abc_blobs prefix) (objects (∅ : gmap string bytes)).
Proof. intros p c _. left. exact (lookup_empty (M := gmap string) p). Qed.

Lemma abc_keys_coherent prefix : keys_coherent (small_fs prefix) abc (∅ : gmap Key (list Key)).
Proof. intros k v Hk. change ((∅ : gmap Key (list Key)) !! k = Some v) in Hk. by rewrite lookup_empty in Hk. Qed.

Lemma abc_chunks_ok : abc = concat abc_chunks /\ Forall (fun c => length c <= 2) abc_chunks.
Proof. split; [done|]. repeat constructor. Qed.

(** The store after the execution. *)

Definition abc_put (prefix : string) : option (res PutRes * (gmap string bytes * gmap Key (list Key))) :=
  Put (small_fs prefix) abc_events abc_chunks None (∅, ∅).

Definition abc_stored (prefix : string) : gmap string bytes :=
  list_to_map (abc_blobs prefix).

Lemma abc_stored_ok prefix : prefix = "" \/ prefix = "p/" -> stored (abc_blobs prefix) (objects (abc_stored prefix)).
Proof.
  intros Hp p c Hin. change (abc_stored prefix !! p = Some c). unfold abc_stored.
  apply elem_of_list_to_map_1; [|exact Hin].
  destruct Hp as [->| ->]; apply (bool_decide_unpack _); vm_compute; exact I.
Qed.

Lemma verifiedKeys_correct_witness :
  let ks := leafKeys 2 abc in
  LeafKeys (rootKey 2 abc) (rootContent (rootKey 2 abc) ks) 2 = Ok ks.
Proof.
  apply (verifiedKeys_correct (rootContent (rootKey 2 abc) (leafKeys 2 abc)) 2 (leafKeys 2 abc) (rootKey 2 abc)).
  split; [apply leafKeys_keys|done].
Defined.

(** Buffers of two and eight bytes: the second one gets the last byte. *)

Definition two_bufs : list bytes := [replicate 2 Byte.x00; replicate 8 Byte.x00].

Lemma Read_correct_witness :
  exists outs r' s', reads two_bufs (newReader 2 "" (leafBlobs 2 abc).*1 true 0) (abc_stored "") = Some (Ok (outs, r'), s') /\
    outs.*1 = [[Byte.x01; Byte.x02]; [Byte.x03]].
Proof.
  destruct (Read_correct 2 "" abc ltac:(lia) true 0 two_bufs (abc_stored "")) as (outs & r' & s' & H & _ & Ho & _).
  - done.
  - intros p c Hin. apply (abc_stored_ok ""); [by left|]. unfold abc_blobs, objectBlobs. apply elem_of_app. by left.
  - exists outs, r', s'. split; [exact H|exact Ho].
Defined.

Lemma Read_empty_panics_witness :
  Read 1 [Byte.x00] (newReader 2 "" (leafBlobs 2 []).*1 true 0) (∅ : gmap string bytes)
  = Some (Panic "index out of range", ∅).
Proof. apply (Read_empty_panics 2 "" [] true 0 [Byte.x00] ∅ 0). reflexivity. Defined.

Lemma blobs_stored : stored (blobs "" 2 abc) (objects (abc_stored "")).
Proof. intros p c Hin. apply (abc_stored_ok ""); [by left|]. unfold abc_blobs, objectBlobs. apply elem_of_app. by left. Qed.

Lemma blobs_functional : functional (blobs "" 2 abc).
Proof.
  intros p c c' H H'. eapply (abc_functional "" ltac:(by left)); unfold abc_blobs, objectBlobs;
    apply elem_of_app; left; done.
Qed.

Lemma no_cached_leaves : coherent 2 "" abc (∅ : gmap string bytes).
Proof. intros p b Hb. change ((∅ : gmap string bytes) !! p = Some b) in Hb. by rewrite lookup_empty in Hb. Qed.

Lemma ReadAt_correct_witness :
  exists s' c', ReadAt (newReader 2 "" (leafBlobs 2 abc).*1 true 0) 10 5 1
      (abc_stored "", (∅ : gmap string bytes)) = (Ok [Byte.x02; Byte.x03], (s', c')).
Proof.
  destruct (ReadAt_correct 2 "" abc ltac:(lia) (newReader 2 "" (leafBlobs 2 abc).*1 true 0) 10
              eq_refl eq_refl eq_refl ltac:(lia) blobs_functional 5 1 (abc_stored "") (∅ : gmap string bytes))
    as (s' & c' & H & _).
  - simpl. lia.
  - exact blobs_stored.
  - exact no_cached_leaves.
  - exists s', c'. exact H.
Defined.

Lemma ReadAt_beyond_panics_witness :
  exists st, ReadAt (newReader 3 "" (leafBlobs 3 [Byte.x01]).*1 false 0) 10 5 2
      (list_to_map (blobs "" 3 [Byte.x01]) : gmap string bytes, (∅ : gmap string bytes))
    = (Panic "slice bounds out of range", st).
Proof.
  apply (ReadAt_beyond_panics 3 "" [Byte.x01] ltac:(lia) (newReader 3 "" (leafBlobs 3 [Byte.x01]).*1 false 0) 10
              eq_refl eq_refl eq_refl ltac:(lia)).
  - apply functional_NoDup. apply (bool_decide_unpack _). vm_compute. exact I.
  - simpl. lia.
  - vm_compute. lia.
  - intros p c Hin. change ((list_to_map (blobs "" 3 [Byte.x01]) : gmap string bytes) !! p = Some c).
    apply elem_of_list_to_map_1; [|exact Hin].
    apply (bool_decide_unpack _). vm_compute. exact I.
  - intros p b Hb. change ((∅ : gmap string bytes) !! p = Some b) in Hb. by rewrite lookup_empty in Hb.
Defined.

Lemma WriteTo_correct_witness :
  exists s', WriteTo (newReader 2 "" (leafBlobs 2 abc).*1 true 0) [1; 0] [] (abc_stored "") = (Ok abc, s').
Proof.
  destruct (WriteTo_correct 2 "" abc ltac:(lia) (newReader 2 "" (leafBlobs 2 abc).*1 true 0)
              eq_refl eq_refl eq_refl eq_refl ltac:(lia) [1; 0] [] (abc_stored "")) as (s' & H & _).
  - change (seq 0 (length (leafBlobs 2 abc))) with [0; 1]. apply Permutation_swap.
  - simpl. lia.
  - exact blobs_stored.
  - exists s'. exact H.
Defined.

Definition succeeds {A S K} (o : option (res A * (S * K))) : bool :=
  match o with Some (Ok _, _) => true | _ => false end.

Lemma succeeds_Ok {A S K} (o : option (res A * (S * K))) :
  succeeds o = true -> exists a s k, o = Some (Ok a, (s, k)).
Proof. destruct o as [[[a|e|m] [s k]]|]; simpl; intros H; try done. eauto. Qed.

Lemma abc_put_succeeds : exists pr s kc, abc_put "" = Some (Ok pr, (s, kc)).
Proof. apply succeeds_Ok. vm_compute. reflexivity. Qed.

Lemma abc_reput_succeeds : exists pr s kc,
  Put (small_fs "") [EvCopy; EvCopy; EvJob 0] abc_chunks None (abc_stored "", (∅ : gmap Key (list Key)))
  = Some (Ok pr, (s, kc)).
Proof. apply succeeds_Ok. vm_compute. reflexivity. Qed.

Lemma Put_correct_witness :
  exists pr s' kc', abc_put "" = Some (Ok pr, (s', kc')) /\ pr_Key pr = rootKey 2 abc /\
    stored (abc_blobs "") (objects s').
Proof.
  destruct abc_put_succeeds as (pr & s' & kc' & E).
  destruct (Put_correct (small_fs "") abc ∅ (small_fs_pos "") (abc_functional "" ltac:(by left))
              abc_events abc_chunks ∅ (Ok pr) s' kc' (proj1 abc_chunks_ok) (proj2 abc_chunks_ok)
              (abc_intact "") (abc_keys_coherent "") E) as (_ & _ & Hok).
  destruct (Hok pr eq_refl) as (found & -> & Hst). exists (mkPutRes 3 (rootKey 2 abc) (concat (leafKeys 2 abc)) found), s', kc'.
  split; [exact E|]. split; [reflexivity|exact Hst].
Defined.

Lemma Put_deduplicates_witness :
  exists pr st, Put (small_fs "") [EvCopy; EvCopy; EvJob 0] abc_chunks None (abc_stored "", (∅ : gmap Key (list Key)))
    = Some (Ok pr, st) /\ objects st.1 = objects (abc_stored "").
Proof.
  destruct abc_reput_succeeds as (pr & s' & kc' & E).
  exists pr, (s', kc'). split; [exact E|].
  apply (Put_deduplicates (small_fs "") abc (abc_stored "") (small_fs_pos "") (abc_functional "" ltac:(by left))
           [EvCopy; EvCopy; EvJob 0] abc_chunks ∅ pr s' kc' (proj1 abc_chunks_ok) (proj2 abc_chunks_ok)
           (abc_stored_ok "" ltac:(by left)) (abc_keys_coherent "") E).
Defined.

Lemma Put_total_witness :
  exists es pr st, Put (small_fs "") es abc_chunks None (∅ : gmap string bytes, (∅ : gmap Key (list Key))) = Some (Ok pr, st).
Proof.
  apply (Put_total (small_fs "") abc ∅ (small_fs_pos "") (abc_functional "" ltac:(by left))
           abc_chunks ∅ (proj1 abc_chunks_ok) (proj2 abc_chunks_ok) (abc_intact "")).
Defined.

Lemma Put_Get_roundtrip_witness :
  exists pr s' kc' r st outs r' s3, abc_put "" = Some (Ok pr, (s', kc')) /\ Get (small_fs "") (pr_Key pr) (s', kc') = (Ok r, st) /\
    reads two_bufs r st.1 = Some (Ok (outs, r'), s3) /\ outs.*1 = [[Byte.x01; Byte.x02]; [Byte.x03]].
Proof.
  destruct abc_put_succeeds as (pr & s' & kc' & E).
  destruct (Put_Get_roundtrip (small_fs "") abc ∅ (small_fs_pos "") (abc_functional "" ltac:(by left))
              abc_events abc_chunks ∅ pr s' kc' (proj1 abc_chunks_ok) ltac:(done) (proj2 abc_chunks_ok)
              (abc_intact "") (abc_keys_coherent "") E) as (r & s'' & kc'' & H & Hr).
  destruct (Hr two_bufs) as (outs & r' & s3 & H1 & H2 & _). exists pr, s', kc', r, (s'', kc''), outs, r', s3. split; [exact E|]. split; [exact H|]. split; [exact H1|exact H2].
Defined.

Lemma Delete_correct_witness :
  exists s', Delete (small_fs "") (rootKey 2 abc) (abc_stored "") = (Ok tt, s').
Proof.
  destruct (Delete_correct (small_fs "") abc (small_fs_pos "") (abc_functional "" ltac:(by left)) (abc_stored "") eq_refl) as (s' & H & _).
  - apply (bool_decide_unpack _). vm_compute. exact I.
  - apply (abc_stored_ok ""). by left.
  - exists s'. exact H.
Defined.

Lemma Delete_ignores_prefix_witness :
  stored (abc_blobs "p/") (objects (Delete (small_fs "p/") (rootKey 2 abc) (abc_stored "p/")).2).
Proof.
  apply (Delete_ignores_prefix (small_fs "p/") abc (small_fs_pos "p/") (abc_functional "p/" ltac:(by right)) (abc_stored "p/")
           (Delete (small_fs "p/") (rootKey 2 abc) (abc_stored "p/")).1).
  - done.
  - apply (abc_stored_ok "p/"). by right.
  - apply surjective_pairing.
Defined.

Lemma Has_correct_witness :
  exists s', Has (small_fs "") (rootKey 2 abc) [HasGatherIncomplete] (abc_stored "") =
    (Ok (true, filter (fun k => objects (abc_stored "") !! Key_String k = None) (leafKeys 2 abc)), s').
Proof.
  apply (Has_correct (small_fs "") abc (small_fs_pos "") (abc_stored "") eq_refl).
  - discriminate.
  - apply (abc_stored_ok "" ltac:(by left)). apply root_blob_in.
Defined.

End CafsWitness.
