(* ===== verification/CafsPool.v ===== *)
(** * The pool of leaf buffers (pkg/cafs: freelists.go)

    A leaf buffer is a fixed array with a slice of it; a mutex, the field busy,
    is held by the goroutine that uses the buffer. The free list keeps the
    buffers that can be recycled. Buffers are objects shared by goroutines: they
    live in a heap and are named by numbers. [Release] starts a goroutine that
    waits for the buffer to be idle before it is put in the list; its critical
    section is the step [recycle]. *)

From stdpp Require Import relations.
From S2P Require Import Prelude GoLib Errors Storage CafsKeys Lru CafsReader CafsFs.

Module CafsPool.
Import CafsFs.

(** ** Buffers *)

(** The array has [lb_size] bytes, those after [lb_data] being zero; the slice
    starts at [lb_low] and has [lb_len] bytes, its capacity reaches to the end
    of the array. *)

Record LeafBuffer : Type := mkLeafBuffer {
  lb_size : Z;
  lb_data : bytes;
  lb_low : nat;
  lb_len : nat;
  lb_busy : bool
}.

Definition lb_cap (b : LeafBuffer) : Z := lb_size b - Z.of_nat (lb_low b).

Definition Bytes (b : LeafBuffer) : bytes := resize (lb_len b) Byte.x00 (drop (lb_low b) (lb_data b)).

Definition Copy (val : bytes) (b : LeafBuffer) : LeafBuffer :=
  let n := Z.to_nat (Z.min (Z.of_nat (length val)) (lb_cap b)) in
  mkLeafBuffer (lb_size b) (resize (lb_low b) Byte.x00 (lb_data b) ++ take n val ++ drop (lb_low b + n) (lb_data b)) (lb_low b) n (lb_busy b).

Definition Slice (low high : Z) (b : LeafBuffer) : res LeafBuffer :=
  if decide (0 <= low <= high /\ high <= lb_cap b)%Z
  then Ok (mkLeafBuffer (lb_size b) (lb_data b) (lb_low b + Z.to_nat low) (Z.to_nat (high - low)) (lb_busy b))
  else Panic "slice bounds out of range".

Definition Reset (b : LeafBuffer) : LeafBuffer := mkLeafBuffer (lb_size b) (lb_data b) 0 0 (lb_busy b).

Definition set_busy (busy : bool) (b : LeafBuffer) : LeafBuffer := mkLeafBuffer (lb_size b) (lb_data b) (lb_low b) (lb_len b) busy.

(** The five sizes of buffers. *)

Definition leaf1MB : Z := 1 * MiB.

Definition leaf2MB : Z := 2 * MiB.

Definition leaf3MB : Z := 3 * MiB.

Definition leaf4MB : Z := 4 * MiB.

Definition bufferSize (leafSize : Z) : Z :=
  if (leafSize <=? leaf1MB)%Z then leaf1MB
  else if (leafSize <=? leaf2MB)%Z then leaf2MB
  else if (leafSize <=? leaf3MB)%Z then leaf3MB
  else if (leafSize <=? leaf4MB)%Z then leaf4MB
  else MaxLeafSize.

Definition allocatorFunc (leafSize : Z) : LeafBuffer := Reset (mkLeafBuffer (bufferSize leafSize) [] 0 0 false).

(** unsafe.Sizeof: a slice and a mutex, which take 32 bytes on a 64-bit
    platform, and the array. *)

Definition sizeFunc (leafSize : Z) : Z := Int.uint32 (32 + bufferSize leafSize).

(** ** The free list *)

Record leafFreelist : Type := mkFreelist {
  fl_list : list nat;
  fl_leafSize : Z;
  fl_buffers : Z;
  fl_watermark : Z
}.

Definition newLeafFreelist (leafSize watermark : Z) : res leafFreelist :=
  if (watermark <? 0)%Z then Panic "makeslice: cap out of range" else Ok (mkFreelist [] leafSize 0 watermark).

(** [w_releasing] has the goroutines started by Release that wait. *)

Record world : Type := mkWorld {
  w_pool : option leafFreelist;
  w_heap : gmap nat LeafBuffer;
  w_next : nat;
  w_releasing : list nat
}.

Definition set_pool (l : leafFreelist) (w : world) : world := mkWorld (Some l) (w_heap w) (w_next w) (w_releasing w).

Definition set_heap (h : gmap nat LeafBuffer) (w : world) : world := mkWorld (w_pool w) h (w_next w) (w_releasing w).

Definition set_releasing (r : list nat) (w : world) : world := mkWorld (w_pool w) (w_heap w) (w_next w) r.

Definition Buffers (w : world) : Z := match w_pool w with Some l => fl_buffers l | None => 0 end.

Definition FreeBuffers (w : world) : nat := match w_pool w with Some l => length (fl_list l) | None => 0 end.

Definition Size (w : world) : Z := match w_pool w with Some l => sizeFunc (fl_leafSize l) | None => 0 end.

Definition new_buffer (b : LeafBuffer) (w : world) : nat * world :=
  (w_next w, mkWorld (w_pool w) (<[w_next w := b]> (w_heap w)) (S (w_next w)) (w_releasing w)).

(** The list is a stack: its last element is taken and added at its end. *)

Definition Get (w : world) : nat * world :=
  match w_pool w with
  | None => new_buffer (Reset (allocatorFunc MaxLeafSize)) w
  | Some l =>
      match last (fl_list l) with
      | Some b =>
          (b, set_pool (mkFreelist (take (length (fl_list l) - 1) (fl_list l)) (fl_leafSize l) (fl_buffers l) (fl_watermark l))
                (set_heap (alter Reset b (w_heap w)) w))
      | None =>
          new_buffer (allocatorFunc (fl_leafSize l))
            (set_pool (mkFreelist (fl_list l) (fl_leafSize l) (Int.int64 (fl_buffers l + 1)) (fl_watermark l)) w)
      end
  end.

Definition Release (b : nat) (w : world) : world :=
  match w_pool w with None => w | Some _ => set_releasing (w_releasing w ++ [b]) w end.

Definition busy (w : world) (b : nat) : bool := match w_heap w !! b with Some lb => lb_busy lb | None => false end.

(** Pin takes the mutex of a buffer, and waits ([None]) while it is held. *)

Definition Pin (b : nat) (w : world) : option world :=
  if busy w b then None else Some (set_heap (alter (set_busy true) b (w_heap w)) w).

Definition Unpin (b : nat) (w : world) : res world :=
  if busy w b then Ok (set_heap (alter (set_busy false) b (w_heap w)) w) else Panic "sync: unlock of unlocked mutex".

Definition push (b : nat) (l : leafFreelist) : leafFreelist :=
  if (fl_watermark l <? Z.of_nat (length (fl_list l)))%Z then l
  else mkFreelist (fl_list l ++ [b]) (fl_leafSize l) (fl_buffers l) (fl_watermark l).

Fixpoint remove_one (b : nat) (l : list nat) : list nat :=
  match l with
  | [] => []
  | x :: l' => if decide (x = b) then l' else x :: remove_one b l'
  end.

(** The critical section of a goroutine that releases a buffer: it pins and
    unpins the buffer, then adds it to the list or drops it. *)

Definition recycle (b : nat) (w : world) : option world :=
  match w_pool w with
  | None => None
  | Some l =>
      if decide (b ∈ w_releasing w /\ busy w b = false)
      then Some (set_releasing (remove_one b (w_releasing w)) (set_pool (push b l) w))
      else None
  end.

(** ** Buffers *)

Lemma length_Bytes b : length (Bytes b) = lb_len b.
Proof. apply length_resize. Qed.

Lemma Bytes_Copy val b : (0 <= lb_cap b)%Z -> Bytes (Copy val b) = take (Z.to_nat (lb_cap b)) val.
Proof.
  intros H. unfold Bytes, Copy. cbn [lb_len lb_low lb_data]. rewrite drop_app_length' by (by rewrite length_resize).
  rewrite resize_app by (rewrite length_take; lia). destruct (decide (length val <= Z.to_nat (lb_cap b))).
  - rewrite !take_ge by lia. done.
  - f_equal. lia.
Qed.

Lemma bufferSize_holds leafSize : (leafSize <= MaxLeafSize)%Z -> (leafSize <= bufferSize leafSize)%Z.
Proof.
  intros H. unfold bufferSize. destruct (Z.leb_spec leafSize leaf1MB), (Z.leb_spec leafSize leaf2MB), (Z.leb_spec leafSize leaf3MB),
    (Z.leb_spec leafSize leaf4MB); done.
Qed.

Lemma int64_succ z : Int.int64 (Int.int64 z + 1) = Int.int64 (z + 1).
Proof.
  unfold Int.int64. f_equal. replace ((z + 2 ^ 63) mod 2 ^ 64 - 2 ^ 63 + 1 + 2 ^ 63)%Z with ((z + 2 ^ 63) mod 2 ^ 64 + 1)%Z by lia.
  rewrite Zplus_mod_idemp_l. f_equal. lia.
Qed.

Lemma remove_one_Permutation b l : b ∈ l -> l ≡ₚ b :: remove_one b l.
Proof.
  induction l as [|x l IH]; intros H; [by apply elem_of_nil in H|]. cbn [remove_one]. case_decide as E; [by subst|].
  apply elem_of_cons in H as [->|H]; [done|]. rewrite IH at 1 by done. apply Permutation_swap.
Qed.

(** ** Clients

    [h] is the set of the buffers that clients hold: a client gets a buffer,
    works on the ones it holds, and gives each back once. A buffer that is given
    back may still be pinned. *)

Inductive client_step : world * gset nat -> world * gset nat -> Prop :=
| step_Get w h b w' : Get w = (b, w') -> client_step (w, h) (w', {[b]} ∪ h)
| step_Release w h b : b ∈ h -> client_step (w, h) (Release b w, h ∖ {[b]})
| step_recycle w h b w' : recycle b w = Some w' -> client_step (w, h) (w', h)
| step_Pin w h b w' : b ∈ h -> Pin b w = Some w' -> client_step (w, h) (w', h)
| step_Unpin w h b w' : Unpin b w = Ok w' -> client_step (w, h) (w', h)
| step_Copy w h b val : b ∈ h -> client_step (w, h) (set_heap (alter (Copy val) b (w_heap w)) w, h)
| step_Slice w h b low high lb lb' : b ∈ h -> w_heap w !! b = Some lb -> Slice low high lb = Ok lb' ->
    client_step (w, h) (set_heap (<[b := lb']> (w_heap w)) w, h).

Section invariant.
Variables leafSize watermark : Z.

Definition fresh : world := mkWorld (Some (mkFreelist [] leafSize 0 watermark)) ∅ 0 [].

Definition reachable (w : world) (h : gset nat) : Prop := rtc client_step (fresh, ∅) (w, h).

(** A buffer is in one place: in the list, with a goroutine that releases it,
    or with a client. *)

Record pool_inv (w : world) (h : gset nat) (l : leafFreelist) : Prop := {
  pi_pool : w_pool w = Some l;
  pi_settings : fl_leafSize l = leafSize /\ fl_watermark l = watermark /\ fl_buffers l = Int.int64 (Z.of_nat (w_next w));
  pi_bound : (Z.of_nat (length (fl_list l)) <= watermark + 1)%Z;
  pi_once : NoDup (fl_list l ++ w_releasing w);
  pi_held b : b ∈ h -> b ∉ fl_list l ++ w_releasing w;
  pi_known b : b ∈ h \/ b ∈ fl_list l ++ w_releasing w -> b < w_next w;
  pi_idle b : b ∈ fl_list l -> busy w b = false;
  pi_heap b : is_Some (w_heap w !! b) <-> b < w_next w;
  pi_size b lb : w_heap w !! b = Some lb -> lb_size lb = bufferSize leafSize
}.

Lemma inv_fresh : (0 <= watermark)%Z -> pool_inv fresh ∅ (mkFreelist [] leafSize 0 watermark).
Proof.
  intros H. split; cbn; try done; try lia.
  - constructor.
  - intros b [?%not_elem_of_empty|?%elem_of_nil]; done.
  - intros b. rewrite lookup_empty. split; [by intros []|lia].
Qed.

(** Changing a buffer that is not in the list keeps the invariant. *)

Lemma inv_alter w h l b f :
  pool_inv w h l -> b ∉ fl_list l -> (forall lb, lb_size (f lb) = lb_size lb) -> pool_inv (set_heap (alter f b (w_heap w)) w) h l.
Proof.
  intros [] Hb Hf. split; cbn; try done.
  - intros c Hc. unfold busy. cbn. rewrite lookup_alter_ne by (intros ->; done). by apply pi_idle0.
  - intros c. rewrite <- pi_heap0. destruct (decide (b = c)) as [->|Hne]; [|by rewrite lookup_alter_ne].
    rewrite lookup_alter_eq. apply fmap_is_Some.
  - intros c lb. destruct (decide (b = c)) as [->|Hne]; [|rewrite lookup_alter_ne by done; apply pi_size0].
    rewrite lookup_alter_eq. intros (lb0 & H & ->)%fmap_Some. rewrite Hf. by eapply pi_size0.
Qed.

Lemma inv_Get w h l : pool_inv w h l ->
  exists b w', Get w = (b, w') /\ (exists l', pool_inv w' ({[b]} ∪ h) l') /\ b ∉ h /\ b ∉ w_releasing w /\
    exists lb, w_heap w' !! b = Some lb /\ Bytes lb = [] /\ lb_busy lb = false /\ lb_cap lb = bufferSize leafSize.
Proof.
  intros Hinv. pose proof Hinv as [Hp (H1 & H2 & H3) Hbd Hnd Hheld Hknown Hidle Hheap Hsize]. unfold Get, new_buffer. rewrite Hp.
  destruct (last (fl_list l)) as [b|] eqn:El.
  - apply last_Some in El as [l0 El]. rewrite El in *. rewrite length_app, Nat.add_sub, take_app_length.
    assert ((l0 ++ [b]) ++ w_releasing w ≡ₚ b :: l0 ++ w_releasing w) as Hperm by (rewrite <- app_assoc; symmetry; apply Permutation_middle).
    rewrite Hperm in Hnd. apply NoDup_cons in Hnd as [Hb Hnd].
    assert (b ∈ l0 ++ [b]) as Hin by (apply elem_of_app; right; by left).
    destruct (proj2 (Hheap b)) as [lb Hlb]; [apply Hknown; right; apply elem_of_app; by left|].
    eexists _, _. split; [reflexivity|]. split; [exists (mkFreelist l0 (fl_leafSize l) (fl_buffers l) (fl_watermark l)); split; cbn [w_pool w_heap w_next w_releasing set_pool set_heap fl_list fl_leafSize fl_watermark fl_buffers]; [done|done|..]|split; [|split]].
    + rewrite length_app in Hbd. simpl length in Hbd. lia.
    + done.
    + intros c [->%elem_of_singleton|Hc]%elem_of_union; [done|]. intros Hc'. apply (Hheld c Hc). rewrite <- app_assoc. set_solver.
    + intros c Hc. apply Hknown. rewrite <- app_assoc. set_solver.
    + intros c Hc. unfold busy. cbn. rewrite lookup_alter_ne by (intros ->; set_solver). apply Hidle. set_solver.
    + intros c. rewrite <- Hheap. destruct (decide (b = c)) as [->|Hne]; [|by rewrite lookup_alter_ne]. rewrite lookup_alter_eq. apply fmap_is_Some.
    + intros c lc. destruct (decide (b = c)) as [->|Hne]; [|rewrite lookup_alter_ne by done; apply Hsize].
      rewrite lookup_alter_eq, Hlb. intros [= <-]. exact (Hsize _ _ Hlb).
    + intros Hc. apply (Hheld b Hc). set_solver.
    + set_solver.
    + exists (Reset lb). cbn. rewrite lookup_alter_eq, Hlb. split; [done|]. split; [apply resize_0|]. split; [|unfold lb_cap; cbn; rewrite (Hsize _ _ Hlb); lia].
      specialize (Hidle b Hin). unfold busy in Hidle. by rewrite Hlb in Hidle.
  - apply last_None in El. assert (w_heap w !! w_next w = None) as Hn by (apply eq_None_not_Some; rewrite Hheap; lia).
    eexists _, _. split; [reflexivity|]. split; [exists (mkFreelist (fl_list l) (fl_leafSize l) (Int.int64 (fl_buffers l + 1)) (fl_watermark l)); split; cbn; [done|..]|split; [|split]]; rewrite ?El in *.
    + rewrite H3, int64_succ, H1, H2. split_and!; [done..|]. f_equal. lia.
    + done.
    + done.
    + intros c [->%elem_of_singleton|Hc]%elem_of_union; [|by apply Hheld]. intros Hc. assert (w_next w < w_next w); [|lia]. apply Hknown. by right.
    + intros c [[->%elem_of_singleton|Hc]%elem_of_union|Hc]; [lia|..]; apply Nat.lt_lt_succ_r, Hknown; auto.
    + by intros c ?%elem_of_nil.
    + intros c. destruct (decide (w_next w = c)) as [<-|Hne]; [rewrite lookup_insert_eq; split; [lia|done]|].
      rewrite lookup_insert_ne, Hheap by done. lia.
    + intros c lc. destruct (decide (w_next w = c)) as [<-|Hne]; [rewrite lookup_insert_eq; intros [= <-]; cbn; by rewrite H1|].
      rewrite lookup_insert_ne by done. apply Hsize.
    + intros Hc. assert (w_next w < w_next w); [|lia]. apply Hknown. by left.
    + intros Hc. assert (w_next w < w_next w); [|lia]. apply Hknown. by right.
    + eexists. cbn. rewrite lookup_insert_eq. split; [done|]. split; [done|]. split; [done|]. unfold lb_cap. cbn. rewrite H1. lia.
Qed.

Lemma inv_Release w h l b : pool_inv w h l -> b ∈ h -> pool_inv (Release b w) (h ∖ {[b]}) l.
Proof.
  intros [Hp Hset Hbd Hnd Hheld Hknown Hidle Hheap Hsize] Hb. unfold Release. rewrite Hp.
  assert (fl_list l ++ w_releasing w ++ [b] ≡ₚ b :: fl_list l ++ w_releasing w) as Hperm by (rewrite app_assoc; symmetry; apply Permutation_cons_append).
  split; cbn; try done.
  - rewrite Hperm. apply NoDup_cons. split; [by apply Hheld|done].
  - intros c [Hc Hne]%elem_of_difference. rewrite Hperm. intros [->|Hc']%elem_of_cons; [set_solver|by apply (Hheld c)].
  - intros c. rewrite Hperm. intros [[Hc _]%elem_of_difference|[->|Hc]%elem_of_cons]; apply Hknown; auto.
Qed.

Lemma inv_recycle w h l b w' : pool_inv w h l -> recycle b w = Some w' -> exists l', pool_inv w' h l'.
Proof.
  intros [Hp (H1 & H2 & H3) Hbd Hnd Hheld Hknown Hidle Hheap Hsize]. unfold recycle. rewrite Hp. case_decide as Hc; [|done]. destruct Hc as [Hr Hi].
  intros [= <-]. apply remove_one_Permutation in Hr as Hperm. set (rest := remove_one b (w_releasing w)) in *.
  assert (fl_list l ++ w_releasing w ≡ₚ fl_list l ++ b :: rest) as Hall by (by rewrite Hperm at 1).
  assert (Hin : forall c, c ∈ fl_list l ++ w_releasing w <-> c ∈ fl_list l ++ b :: rest) by (intros c; by rewrite Hall). rewrite Hall in Hnd.
  exists (push b l). unfold push. destruct (Z.ltb_spec (fl_watermark l) (Z.of_nat (length (fl_list l)))).
  - rewrite <- Permutation_middle in Hnd. apply NoDup_cons in Hnd as [_ Hnd]. split; cbn; try done.
    + intros c Hc Hc'. apply (Hheld c Hc), Hin. set_solver.
    + intros c Hc. apply Hknown. rewrite Hin. set_solver.
  - assert (forall r, (fl_list l ++ [b]) ++ r = fl_list l ++ b :: r) as Happ by (intros r; by rewrite <- app_assoc). split; cbn; rewrite ?Happ; try done.
    + rewrite length_app. simpl length. lia.
    + intros c. rewrite <- Hin. apply Hheld.
    + intros c. rewrite <- Hin. apply Hknown.
    + intros c [Hc| ->%list_elem_of_singleton]%elem_of_app; [by apply Hidle|done].
Qed.

Lemma inv_insert w h l b lb lb' : pool_inv w h l -> b ∈ h -> w_heap w !! b = Some lb -> lb_size lb' = lb_size lb ->
  pool_inv (set_heap (<[b := lb']> (w_heap w)) w) h l.
Proof.
  intros [Hp Hset Hbd Hnd Hheld Hknown Hidle Hheap Hsize] Hb Hlb Hs. split; cbn; try done.
  - intros c Hc. unfold busy. cbn. rewrite lookup_insert_ne; [by apply Hidle|]. intros ->. apply (Hheld c Hb). set_solver.
  - intros c. rewrite <- Hheap. destruct (decide (b = c)) as [->|Hne]; [|by rewrite lookup_insert_ne]. rewrite lookup_insert_eq, Hlb. split; eauto.
  - intros c lc. destruct (decide (b = c)) as [->|Hne]; [|rewrite lookup_insert_ne by done; apply Hsize].
    rewrite lookup_insert_eq. intros [= <-]. rewrite Hs. by eapply Hsize.
Qed.

Lemma inv_step w h l w' h' : pool_inv w h l -> client_step (w, h) (w', h') -> exists l', pool_inv w' h' l'.
Proof.
  intros Hinv Hstep. assert (Hout : forall b, b ∈ h -> b ∉ fl_list l) by (intros b Hb Hl; apply (pi_held _ _ _ Hinv b Hb); set_solver).
  inversion Hstep; subst.
  - destruct (inv_Get _ _ _ Hinv) as (b' & w'' & E & H & _). match goal with Hg : Get _ = _ |- _ => rewrite E in Hg; by injection Hg as <- <- end.
  - exists l. by apply inv_Release.
  - by eapply inv_recycle.
  - match goal with H : Pin _ _ = _ |- _ => unfold Pin in H; destruct (busy _ _); [done|]; injection H as <- end. exists l. apply inv_alter; auto.
  - match goal with H : Unpin ?x _ = _ |- _ => rename x into b; unfold Unpin in H; destruct (busy w b) eqn:E; [|done]; injection H as <- end.
    exists l. apply inv_alter; [done| |done]. intros Hl. by rewrite (pi_idle _ _ _ Hinv b Hl) in E.
  - exists l. apply inv_alter; auto.
  - match goal with H : Slice _ _ _ = _ |- _ => unfold Slice in H; case_decide; [|done]; injection H as <- end. exists l. by eapply inv_insert.
Qed.

Lemma reachable_inv w h : (0 <= watermark)%Z -> reachable w h -> exists l, pool_inv w h l.
Proof.
  intros Hw Hr. change (exists l, pool_inv (w, h).1 (w, h).2 l). unfold reachable in Hr. generalize (w, h), Hr. clear w h Hr.
  apply (rtc_ind_r (fun s => exists l, pool_inv s.1 s.2 l)); [eexists; by apply inv_fresh|].
  intros [w h] [w' h'] _ Hstep [l Hl]. by eapply inv_step.
Qed.

(** C28: A buffer that the pool hands out is in no other hands: no client holds
    it and no goroutine is about to recycle it, whatever the interleaving of the
    clients and of the goroutines that release buffers. It is empty, idle, and
    large enough for a leaf. *)
Theorem Get_exclusive w h : (0 <= watermark)%Z -> (leafSize <= MaxLeafSize)%Z -> reachable w h ->
  exists b w', Get w = (b, w') /\ b ∉ h /\ b ∉ w_releasing w /\
    exists lb, w_heap w' !! b = Some lb /\ Bytes lb = [] /\ lb_busy lb = false /\
      forall val, (Z.of_nat (length val) <= leafSize)%Z -> Bytes (Copy val lb) = val.
Proof.
  intros Hw Hs Hr. destruct (reachable_inv w h Hw Hr) as [l Hl]. destruct (inv_Get _ _ _ Hl) as (b & w' & E & _ & Hh & Hre & lb & H1 & H2 & H3 & H4).
  exists b, w'. split_and!; [done..|]. exists lb. split_and!; [done..|]. intros val Hv. pose proof (bufferSize_holds leafSize Hs).
  rewrite Bytes_Copy by (rewrite H4; lia). apply take_ge. lia.
Qed.

(** ** The bound on the free buffers *)

(** A pool at rest, with [n] buffers of which the first [j] are free. *)

Definition at_rest (j n : nat) (w : world) : Prop :=
  (exists l, w_pool w = Some l /\ fl_list l = seq 0 j /\ fl_watermark l = watermark) /\ w_releasing w = [] /\ w_next w = n /\ forall b, busy w b = false.

Lemma gets n : exists w, reachable w (set_seq 0 n) /\ at_rest 0 n w.
Proof.
  induction n as [|n (w & Hr & (l & Hp & Hl & Hw) & Hre & Hn & Hb)].
  - exists fresh. split; [constructor|]. split; [by eexists|]. done.
  - assert (set_seq 0 (S n) = {[n]} ∪ set_seq (C := gset nat) 0 n) as ->.
    { apply set_eq. intros x. rewrite elem_of_union, !elem_of_set_seq, elem_of_singleton. lia. }
    destruct (Get w) as [b w'] eqn:E. exists w'. unfold Get, new_buffer in E. rewrite Hp, Hl in E. cbn in E. injection E as <- <-.
    split; [|split; [|split; [|split]]]; cbn; [|by eexists|done|congruence|].
    + eapply rtc_r; [exact Hr|]. rewrite <- Hn. apply step_Get. unfold Get, new_buffer. by rewrite Hp, Hl.
    + intros c. unfold busy. cbn. destruct (decide (w_next w = c)) as [<-|Hne]; [by rewrite lookup_insert_eq|]. rewrite lookup_insert_ne by done. apply Hb.
Qed.

Lemma releases n j : j <= n -> (Z.of_nat j <= watermark + 1)%Z -> exists w, reachable w (set_seq j (n - j)) /\ at_rest j n w.
Proof.
  induction j as [|j IH]; intros Hj Hw; [replace (n - 0) with n by lia; apply gets|].
  destruct IH as (w & Hr & (l & Hp & Hl & Hwm) & Hre & Hn & Hb); [lia..|]. exists (set_pool (push j l) w). split.
  - eapply rtc_r; [eapply rtc_r; [exact Hr|]|].
    + apply (step_Release w _ j). apply elem_of_set_seq. lia.
    + replace (set_seq j (n - j) ∖ {[j]}) with (set_seq (C := gset nat) (S j) (n - S j)).
      2: { apply set_eq. intros x. rewrite elem_of_difference, !elem_of_set_seq, elem_of_singleton. lia. }
      apply (step_recycle _ _ j). unfold Release, recycle. rewrite Hp. cbn. rewrite Hp, Hre. cbn. rewrite decide_True.
      * rewrite decide_True by done. destruct w; cbn in *; by subst.
      * split; [by left|apply Hb].
  - split; [exists (push j l); split; [done|]|]. 2: { split; [done|]. split; [done|exact Hb]. }
    unfold push. destruct (Z.ltb_spec (fl_watermark l) (Z.of_nat (length (fl_list l)))) as [H|H].
    + rewrite Hl, length_seq in H. lia.
    + cbn [fl_list fl_watermark]. rewrite Hl, seq_S. done.
Qed.

(** C37: The free list keeps at most one buffer more than its watermark, and as
    many as that: the documented high-watermark is exceeded by one. The count of
    buffers is that of the allocations, and no buffer is counted twice. *)
Theorem free_buffers_bounded w h : (0 <= watermark)%Z -> reachable w h ->
  (Z.of_nat (FreeBuffers w) <= watermark + 1)%Z /\ Buffers w = Int.int64 (Z.of_nat (w_next w)) /\
  size h + FreeBuffers w + length (w_releasing w) <= w_next w /\
  exists w' h', reachable w' h' /\ Z.of_nat (FreeBuffers w') = (watermark + 1)%Z.
Proof.
  intros Hw Hr. destruct (reachable_inv w h Hw Hr) as [l [Hp (_ & _ & H3) Hbd Hnd Hheld Hknown _ _ _]].
  unfold FreeBuffers, Buffers at 1. rewrite Hp. split_and!; [done|done| |].
  - rewrite <- Nat.add_assoc, <- length_app. rewrite <- (size_list_to_set (C := gset nat) (fl_list l ++ w_releasing w)) by done.
    rewrite <- size_union by set_solver. etrans; [apply (subseteq_size _ (list_to_set (C := gset nat) (seq 0 (w_next w))))|].
    + intros b Hb. rewrite elem_of_list_to_set, elem_of_seq. split; [lia|]. apply Hknown. set_solver.
    + rewrite size_list_to_set, length_seq by apply NoDup_seq. done.
  - destruct (releases (Z.to_nat (watermark + 1)) (Z.to_nat (watermark + 1))) as (w' & Hr' & (l' & Hp' & Hl' & _) & _); [lia..|].
    exists w', (set_seq (Z.to_nat (watermark + 1)) 0). rewrite Nat.sub_diag in Hr'. split; [done|]. rewrite Hp', Hl', length_seq. lia.
Qed.

End invariant.

(** ** Concrete pools *)

Section witness.

Lemma two_gets : reachable leaf1MB 0 (Get (Get (fresh leaf1MB 0)).2).2 ({[1]} ∪ ({[0]} ∪ ∅)).
Proof. eapply rtc_l; [by apply step_Get|]. eapply rtc_l; [by apply step_Get|]. constructor. Qed.

Lemma Get_exclusive_witness :
  exists b w', Get (Get (Get (fresh leaf1MB 0)).2).2 = (b, w') /\ b ∉ ({[1]} ∪ ({[0]} ∪ ∅) : gset nat).
Proof.
  destruct (Get_exclusive leaf1MB 0 _ _ ltac:(lia) ltac:(vm_compute; discriminate) two_gets) as (b & w' & E & Hb & _). exists b, w'. split; [exact E|exact Hb].
Defined.

Lemma free_buffers_bounded_witness : Buffers (Get (Get (fresh leaf1MB 0)).2).2 = 2%Z.
Proof. exact (proj1 (proj2 (free_buffers_bounded leaf1MB 0 _ _ ltac:(lia) two_gets))). Defined.

End witness.

End CafsPool.
