(* ===== verification/CafsRace.v ===== *)
(** * Concurrent reads of cached leaves (pkg/cafs: reader.go, cafs.go, freelists.go)

    ReadAt is called concurrently on the readers of a file system: they share
    the LRU cache of leaves, the latch that protects lookups and the pool of
    buffers of CafsPool.v. Each goroutine is a program counter over the atomic
    actions of one round of the loop of ReadAt; the goroutines that release
    buffers evicted from the cache are those of the pool. The lru is a
    third-party package: its operations are variables of the section. *)

From S2P Require Import Prelude GoLib Errors Storage CafsKeys Lru CafsReader CafsFs CafsPool.

Module CafsRace.
Import CafsPool.

(** ** Reading a leaf to a buffer

    One round of the loop of readLeaf: the reader writes to the array after the
    slice, which then grows by what was read. *)

Definition read_into (chunk : bytes) (b : LeafBuffer) : res LeafBuffer :=
  let pos := lb_low b + lb_len b in
  Slice 0 (Z.of_nat (lb_len b + length chunk))
    (mkLeafBuffer (lb_size b) (resize pos Byte.x00 (lb_data b) ++ chunk ++ drop (pos + length chunk) (lb_data b)) (lb_low b) (lb_len b) (lb_busy b)).

Fixpoint read_all (chunks : list bytes) (b : LeafBuffer) : res LeafBuffer :=
  match chunks with
  | [] => Ok b
  | chunk :: chunks' => b' ← read_into chunk b; read_all chunks' b'
  end.

Lemma read_into_ok chunk b : (Z.of_nat (lb_len b + length chunk) <= lb_cap b)%Z ->
  exists b', read_into chunk b = Ok b' /\ Bytes b' = Bytes b ++ chunk /\ lb_cap b' = lb_cap b /\ lb_len b' = lb_len b + length chunk /\ lb_busy b' = lb_busy b.
Proof.
  intros H. unfold read_into, Slice. rewrite decide_True by (unfold lb_cap in *; cbn; lia). eexists. split; [done|].
  unfold Bytes, lb_cap. cbn [lb_size lb_data lb_low lb_len lb_busy]. rewrite Nat.add_0_r, Z.sub_0_r, Nat2Z.id. split_and!; [|done..].
  rewrite drop_app_le by (rewrite length_resize; lia). rewrite drop_resize_add.
  rewrite app_assoc. apply resize_app. by rewrite length_app, length_resize.
Qed.

Lemma read_all_ok chunks : forall b, (Z.of_nat (lb_len b + length (concat chunks)) <= lb_cap b)%Z ->
  exists b', read_all chunks b = Ok b' /\ Bytes b' = Bytes b ++ concat chunks /\ lb_busy b' = lb_busy b.
Proof.
  induction chunks as [|chunk chunks IH]; intros b H; [exists b; cbn; by rewrite app_nil_r|]. cbn [concat] in H. rewrite length_app in H.
  destruct (read_into_ok chunk b) as (b1 & E1 & H1 & H2 & H3 & H4); [lia|]. destruct (IH b1) as (b2 & E2 & H5 & H6); [rewrite H2, H3; lia|].
  exists b2. cbn [read_all concat]. unfold mbind, res_bind. rewrite E1. split; [done|]. rewrite H5, H1, app_assoc. split; congruence.
Qed.

(** ** Goroutines *)

Inductive pc : Type :=
| Lock
| Lookup
| PinHit (b : nat)
| UnlockHit (b : nat)
| UnlockMiss
| Acquire
| PinMiss (b : nat)
| Fill (b : nat)
| CopyOut (b : nat) (hit : bool)
| Leave (b : nat) (hit : bool)
| AddToCache (b : nat)
| Done.

Record thread : Type := mkThread {
  t_key : string;
  t_pc : pc;
  t_data : bytes
}.

Section machine.
Context {C : Type}.
Variables (lru_Get : string -> C -> option nat * C) (lru_ContainsOrAdd : string -> nat -> C -> bool * list nat * C).
Variable chunks_of : string -> list bytes.

Record shared : Type := mkShared {
  sh_world : world;
  sh_lru : C;
  sh_latch : bool
}.

Definition slice_of (w : world) (b : nat) : bytes := match w_heap w !! b with Some lb => Bytes lb | None => [] end.

(** addToCacheFunc, with the eviction callback of the cache. *)

Definition addToCache (key : string) (b : nat) (s : shared) : shared :=
  let '(contained, evicted, lru) := lru_ContainsOrAdd key b (sh_lru s) in
  let w := fold_left (fun w e => Release e w) evicted (sh_world s) in
  mkShared (if contained : bool then Release b w else w) lru (sh_latch s).

(** One action of a goroutine that reads one leaf; [None] when it is blocked,
    has ended, or panics. *)

Definition act (t : thread) (s : shared) : option (pc * bytes * shared) :=
  let w := sh_world s in
  match t_pc t with
  | Lock => if sh_latch s then None else Some (Lookup, t_data t, mkShared w (sh_lru s) true)
  | Lookup =>
      let '(found, lru) := lru_Get (t_key t) (sh_lru s) in
      Some (match found with Some b => PinHit b | None => UnlockMiss end, t_data t, mkShared w lru (sh_latch s))
  | PinHit b => w' ← Pin b w; Some (UnlockHit b, t_data t, mkShared w' (sh_lru s) (sh_latch s))
  | UnlockHit b => Some (CopyOut b true, t_data t, mkShared w (sh_lru s) false)
  | UnlockMiss => Some (Acquire, t_data t, mkShared w (sh_lru s) false)
  | Acquire => let '(b, w') := Get w in Some (PinMiss b, t_data t, mkShared w' (sh_lru s) (sh_latch s))
  | PinMiss b => w' ← Pin b w; Some (Fill b, t_data t, mkShared w' (sh_lru s) (sh_latch s))
  | Fill b =>
      lb ← w_heap w !! b;
      match read_all (chunks_of (t_key t)) lb with
      | Ok lb' => Some (CopyOut b false, t_data t, mkShared (set_heap (<[b := lb']> (w_heap w)) w) (sh_lru s) (sh_latch s))
      | _ => None
      end
  | CopyOut b hit => Some (Leave b hit, slice_of w b, s)
  | Leave b hit =>
      match Unpin b w with
      | Ok w' => Some (if hit : bool then Done else AddToCache b, t_data t, mkShared w' (sh_lru s) (sh_latch s))
      | _ => None
      end
  | AddToCache b => Some (Done, t_data t, addToCache (t_key t) b s)
  | Done => None
  end.

(** An execution: which goroutine acts, or which buffer is recycled. *)

Inductive event : Type :=
| Run (i : nat)
| Recycle (b : nat).

Definition step (e : event) (ts : list thread) (s : shared) : option (list thread * shared) :=
  match e with
  | Run i =>
      t ← ts !! i;
      '(p, d, s') ← act t s;
      Some (<[i := mkThread (t_key t) p d]> ts, s')
  | Recycle b => w' ← recycle b (sh_world s); Some (ts, mkShared w' (sh_lru s) (sh_latch s))
  end.

Fixpoint exec (es : list event) (ts : list thread) (s : shared) : option (list thread * shared) :=
  match es with
  | [] => Some (ts, s)
  | e :: es' => '(ts', s') ← step e ts s; exec es' ts' s'
  end.

End machine.

(** ** A cache of one leaf *)

Definition one_Get (key : string) (c : option (string * nat)) : option nat * option (string * nat) :=
  (match c with Some (k, b) => if decide (k = key) then Some b else None | None => None end, c).

Definition one_ContainsOrAdd (key : string) (b : nat) (c : option (string * nat)) : bool * list nat * option (string * nat) :=
  match c with
  | Some (k, b') => if decide (k = key) then (true, [], c) else (false, [b'], Some (key, b))
  | None => (false, [], Some (key, b))
  end.

Definition leaf_of (key : string) : list bytes := [String.list_byte_of_string key].

Definition reading (key : string) : thread := mkThread key Lock [].

Definition four : list thread := [reading "A"; reading "A"; reading "B"; reading "C"].

Definition empty_cache : @shared (option (string * nat)) := mkShared (fresh leaf1MB 4) None false.

(** The second goroutine finds the leaf A in the cache; before it pins the
    buffer, B evicts A, the buffer is recycled, and C is read to it. *)

Definition race : list event :=
  replicate 9 (Run 0) ++ replicate 8 (Run 2) ++ replicate 3 (Run 3) ++ replicate 2 (Run 1) ++
  [Run 2; Recycle 0] ++ replicate 5 (Run 3) ++ replicate 4 (Run 1).

(** C39: Two concurrent calls of ReadAt on other leaves can make a third one
    return, without an error, the bytes of another leaf: the latch covers the
    lookup in the cache and the pin of the buffer that was found, but not the
    additions that evict and recycle it. *)
Theorem ReadAt_race :
  exists es ts s, exec one_Get one_ContainsOrAdd leaf_of es four empty_cache = Some (ts, s) /\
    ts !! 1 = Some (mkThread "A" Done (String.list_byte_of_string "C")).
Proof. exists race. eexists _, _. split; [vm_compute; reflexivity|reflexivity]. Qed.

End CafsRace.
