(* ===== verification/CoreMeta.v ===== *)
(** * Metadata objects (pkg/context, pkg/core: meta_object.go, bundle.go)

    Metadata objects are YAML documents kept in the stores of a context. The
    YAML codec is a third-party package: the class [Yaml] of its two calls for
    a type of documents, with the round trip as its law. [Stores] is the record
    of the five stores of a context; [writeMetadata] and [readMetadata] are the
    two operations of a metaObject. *)

From S2P Require Import Prelude GoLib Errors Storage Model Validate.

(** ** The YAML codec *)

Class Yaml (A : Type) : Type := {
  Marshal : A -> res bytes;
  Unmarshal : bytes -> res A
}.

(** A document that was written reads back as it was; writing one fails at
    most with an error. *)

Class YamlLaws (A : Type) `{Yaml A} : Prop := {
  Unmarshal_Marshal a b : Marshal a = Ok b -> Unmarshal b = Ok a;
  Marshal_total a : exists b, Marshal a = Ok b
}.

(** A codec for the witnesses: the documents are numbered. *)

Section numbered_yaml.
Context {A : Type} `{Countable A}.

Fixpoint put_positive (p : positive) : bytes :=
  match p with
  | xH => []
  | xO p' => Byte.x00 :: put_positive p'
  | xI p' => Byte.x01 :: put_positive p'
  end.

Fixpoint get_positive (b : bytes) : option positive :=
  match b with
  | [] => Some xH
  | Byte.x00 :: b' => xO <$> get_positive b'
  | Byte.x01 :: b' => xI <$> get_positive b'
  | _ => None
  end.

Lemma get_put_positive p : get_positive (put_positive p) = Some p.
Proof. induction p as [p IH|p IH|]; simpl; rewrite ?IH; done. Qed.

Definition numbered_yaml : Yaml A := {|
  Marshal a := Ok (put_positive (encode a));
  Unmarshal b := match get_positive b ≫= decode with Some a => Ok a | None => Err (ErrMsg "yaml") end
|}.

Lemma numbered_Unmarshal a : Unmarshal (Yaml := numbered_yaml) (put_positive (encode a)) = Ok a.
Proof. simpl. rewrite get_put_positive. simpl. by rewrite decode_encode. Qed.

Lemma numbered_yaml_laws : @YamlLaws A numbered_yaml.
Proof.
  split; simpl.
  - intros a b [= <-]. apply numbered_Unmarshal.
  - eauto.
Qed.

End numbered_yaml.

Section codecs.
Import Model.

#[local] Ltac record_eq_dec :=
  unfold EqDecision; intros; unfold Decision; decide equality;
  solve [apply Z.eq_dec | apply N.eq_dec | apply String.string_dec | apply bool_dec | apply decide_rel; apply _].

#[export] Instance Contributor_eq_dec : EqDecision Contributor.
Proof. record_eq_dec. Defined.

#[export] Instance Contributor_countable : Countable Contributor.
Proof.
  apply (inj_countable' (fun c => (c_Name c, c_Email c)) (fun '(n, e) => mkContributor n e)). by intros [].
Defined.

#[export] Instance BundleEntry_countable : Countable BundleEntry.
Proof.
  apply (inj_countable' (fun f => (Hash f, NameWithPath f, FileMode f : Z, be_Size f : Z, Timestamp f : Z))
    (fun '(h, n, m, z, t) => mkBundleEntry h n m z t)). by intros [].
Defined.

#[export] Instance RepoDescriptor_eq_dec : EqDecision RepoDescriptor.
Proof. record_eq_dec. Defined.

#[export] Instance RepoDescriptor_countable : Countable RepoDescriptor.
Proof.
  apply (inj_countable' (fun r => (rd_Name r, rd_Description r, rd_Timestamp r : Z, rd_Contributor r))
    (fun '(n, d, t, c) => mkRepoDescriptor n d t c)). by intros [].
Defined.

#[export] Instance SplitDescriptor_eq_dec : EqDecision SplitDescriptor.
Proof. record_eq_dec. Defined.

#[export] Instance SplitDescriptor_countable : Countable SplitDescriptor.
Proof.
  apply (inj_countable' (fun d => (sd_SplitID d, sd_StartTime d : Z, sd_EndTime d : Z, sd_State d : string,
      sd_Contributors d, sd_GenerationID d, sd_SplitEntriesFileCount d, sd_Tag d))
    (fun '(i, a, b, st, c, g, n, t) => mkSplitDescriptor i a b st c g n t)). by intros [].
Defined.

#[export] Instance DiamondDescriptor_eq_dec : EqDecision DiamondDescriptor.
Proof. record_eq_dec. Defined.

#[export] Instance DiamondDescriptor_countable : Countable DiamondDescriptor.
Proof.
  apply (inj_countable' (fun d => (dd_DiamondID d, dd_StartTime d : Z, dd_EndTime d : Z, dd_State d : string,
      dd_Mode d : string, dd_HasConflicts d, dd_HasCheckpoints d, dd_Tag d, dd_BundleID d, dd_Splits d))
    (fun '(i, a, b, st, m, x, y, t, bid, sp) => mkDiamondDescriptor i a b st m x y t bid sp)). by intros [].
Defined.

#[export] Instance LabelDescriptor_eq_dec : EqDecision LabelDescriptor.
Proof. record_eq_dec. Defined.

#[export] Instance LabelDescriptor_countable : Countable LabelDescriptor.
Proof.
  apply (inj_countable' (fun d => (ld_Name d, ld_BundleID d, ld_Timestamp d : Z, ld_Contributors d))
    (fun '(n, b, t, c) => mkLabelDescriptor n b t c)). by intros [].
Defined.

#[export] Instance BundleDescriptor_eq_dec : EqDecision BundleDescriptor.
Proof. record_eq_dec. Defined.

#[export] Instance BundleDescriptor_countable : Countable BundleDescriptor.
Proof.
  apply (inj_countable' (fun d => (bd_LeafSize d, bd_ID d, bd_Message d, bd_Parents d, bd_Timestamp d : Z,
      bd_Contributors d, bd_BundleEntriesFileCount d, bd_Version d, bd_Deduplication d, bd_RunStage d))
    (fun '(z, i, m, p, t, c, n, v, dd, r) => mkBundleDescriptor z i m p t c n v dd r)). by intros [].
Defined.

End codecs.

Module CoreMeta.
Import Model Storage.

(** ** The stores of a context *)

Record Stores (S : Type) : Type := mkStores {
  Wal : S;
  ReadLog : S;
  Blob : S;
  Metadata : S;
  VMetadata : S
}.

Arguments mkStores {S}.
Arguments Wal {S}.
Arguments ReadLog {S}.
Arguments Blob {S}.
Arguments Metadata {S}.
Arguments VMetadata {S}.

Definition NewStores {S} (wal readLog blob metadata vMetadata : S) : Stores S :=
  mkStores wal readLog blob metadata vMetadata.

Definition SetMetadata {S} (metadata : S) (c : Stores S) : Stores S :=
  mkStores (Wal c) (ReadLog c) (Blob c) metadata (VMetadata c).

Definition SetVMetadata {S} (vMetadata : S) (c : Stores S) : Stores S :=
  mkStores (Wal c) (ReadLog c) (Blob c) (Metadata c) vMetadata.

Definition SetBlob {S} (blob : S) (c : Stores S) : Stores S :=
  mkStores (Wal c) (ReadLog c) blob (Metadata c) (VMetadata c).

(** A call on the store that getMetaStore or getVMetaStore selects: the store
    is a reference, so its new state is the one the context has afterwards. *)

Definition getMetaStore {S A} (m : M S A) : M (Stores S) A := fun c =>
  let '(r, s) := m (Metadata c) in (r, SetMetadata s c).

Definition getVMetaStore {S A} (m : M S A) : M (Stores S) A := fun c =>
  let '(r, s) := m (VMetadata c) in (r, SetVMetadata s c).

Definition getBlobStore {S A} (m : M S A) : M (Stores S) A := fun c =>
  let '(r, s) := m (Blob c) in (r, SetBlob s c).

Definition GetDiamondStore {S A} : M S A -> M (Stores S) A := getVMetaStore.

Definition GetSplitStore {S A} : M S A -> M (Stores S) A := getVMetaStore.

Definition GetRepoStore {S A} : M S A -> M (Stores S) A := getMetaStore.

Section stores.
Context {S : Type} `{HS : !Store S, HSL : !StoreLaws S}.

(** ** metaObject *)

Definition readMetadata (pth : string) : M S bytes := Get pth.

(** The type switch on StoreCRC is the one of [putBuffer]. *)

Definition writeMetadata (pth : string) (noOverwrite : bool) (buffer : bytes) : M S unit :=
  putBuffer pth buffer noOverwrite.

(** ** Contexts in the configuration store *)

Context {HY : Yaml Validate.Context}.
Import Validate.

(** CreateContext wraps the three errors with fmt.Errorf and %w; the message of
    the last one also prints the context. *)

Definition wrap_errorf {A} (m : string) (r : M S A) : M S A := fun s =>
  match r s with
  | (Err e, s') => (Err (ErrWrap m e), s')
  | x => x
  end.

Definition CreateContext (context : Validate.Context) : M S unit :=
  _ ← wrap_errorf ("validation for new context " +:+ cx_Name context +:+ " failed, err") (lift (ValidateContext context));
  b ← wrap_errorf "failed to serialize context" (lift (Marshal context));
  wrap_errorf "failed to write context" (Put (GetPathToContext (cx_Name context)) (NewReader b) NoOverWrite).

Definition GetContext (contextName : string) : M S Validate.Context :=
  b ← Get (GetPathToContext contextName);
  context ← lift (Unmarshal b);
  _ ← lift (ValidateContext context);
  mret context.

End stores.

(** ** A document written at a path *)

Section documents.
Context {S A : Type} `{HS : !Store S, HSL : !StoreLaws S, HY : !Yaml A, HYL : !YamlLaws A}.

Definition document (s : S) (pth : string) (a : A) : Prop :=
  exists b, objects s !! pth = Some b /\ Unmarshal b = Ok a.

Definition write_document (pth : string) (a : A) : M S unit :=
  b ← lift (Marshal a); writeMetadata pth NoOverWrite b.

Definition read_document (pth : string) : M S A :=
  b ← readMetadata pth; lift (Unmarshal b).

(** A successful write adds the document where there was no object. *)

Lemma write_document_Ok pth a s u s' :
  write_document pth a s = (Ok u, s') ->
  objects s !! pth = None /\ document s' pth a /\ (forall p, p <> pth -> objects s' !! p = objects s !! p).
Proof.
  unfold write_document, writeMetadata, lift, mbind, M_bind. destruct (Marshal a) as [b|e|p] eqn:E; try done.
  intros H. destruct (putBuffer_Ok_objects _ _ _ _ _ _ H) as [Ho Hn]. split; [by apply Hn|]. split.
  - exists b. rewrite Ho, lookup_insert_eq. split; [done|]. by eapply Unmarshal_Marshal.
  - intros p Hp. by rewrite Ho, lookup_insert_ne.
Qed.

(** Whatever its result, a write leaves alone the objects that exist. *)

Lemma write_document_keeps pth a s r s' p d :
  write_document pth a s = (r, s') -> objects s !! p = Some d -> objects s' !! p = Some d.
Proof.
  unfold write_document, writeMetadata, lift, mbind, M_bind. destruct (Marshal a) as [b|e|q] eqn:E;
    [|intros [= <- <-]; done..].
  intros (_ & Hne & Hex)%putBuffer_spec Hd. destruct (decide (p = pth)) as [->|Hn].
  - by rewrite Hex by eauto.
  - by rewrite Hne by done.
Qed.

Lemma write_document_exists pth a s :
  is_Some (objects s !! pth) -> (write_document pth a s).1 <> Ok tt /\ objects (write_document pth a s).2 = objects s.
Proof.
  intros Hx. unfold write_document, writeMetadata, lift, mbind, M_bind.
  destruct (Marshal a) as [b|e|q] eqn:E; try done.
  destruct (putBuffer pth b NoOverWrite s) as [r s'] eqn:Ep. destruct (putBuffer_spec _ _ _ _ _ _ Ep) as (Hok & _ & Hex).
  simpl. split; [|by apply Hex]. intros ->. destruct (Hok eq_refl) as [_ Hn]. rewrite Hn in Hx by done. by destruct Hx.
Qed.

Section reliable.
Context {HR : ReliableStore S}.

Lemma write_document_ok pth a s :
  objects s !! pth = None ->
  exists s', write_document pth a s = (Ok tt, s') /\ document s' pth a /\
    (forall p, p <> pth -> objects s' !! p = objects s !! p).
Proof.
  intros Hn. assert (exists s', write_document pth a s = (Ok tt, s')) as [s' E].
  { unfold write_document, writeMetadata, lift, mbind, M_bind. destruct (Marshal_total a) as [b ->].
    destruct (putBuffer_ok pth b NoOverWrite s (fun _ => Hn)) as (s' & -> & _). eauto. }
  exists s'. split; [done|]. by apply write_document_Ok in E as (_ & ? & ?).
Qed.

Lemma read_document_ok pth a s :
  document s pth a -> exists s', read_document pth s = (Ok a, s') /\ objects s' = objects s.
Proof.
  intros (b & Hb & Hu). destruct (Get_ok pth s b Hb) as (s' & E & Ho). exists s'. split; [|done].
  unfold read_document, readMetadata, lift, mbind, M_bind. by rewrite E, Hu.
Qed.

End reliable.

Lemma document_objects pth a s s' : objects s' !! pth = objects s !! pth -> document s pth a -> document s' pth a.
Proof. intros H (b & Hb & Hu). exists b. by rewrite H. Qed.

Lemma document_unique pth a a' s : document s pth a -> document s pth a' -> a = a'.
Proof. intros (b & Hb & Hu) (b' & Hb' & Hu'). congruence. Qed.

Lemma document_is_Some pth a s : document s pth a -> is_Some (objects s !! pth).
Proof. intros (b & Hb & _). eauto. Qed.

End documents.

(** A context that was created is the one GetContext returns; a name is never
    given to two contexts. *)

Section contexts.
Context {S : Type} `{HS : !Store S, HSL : !StoreLaws S, HR : !ReliableStore S}.
Context {HY : Yaml Validate.Context} {HYL : YamlLaws Validate.Context}.
Import Validate.

Lemma CreateContext_roundtrip context (s : S) :
  ValidateContext context = Ok tt ->
  (objects s !! GetPathToContext (cx_Name context) = None ->
     exists s', CreateContext context s = (Ok tt, s') /\ exists s2, GetContext (cx_Name context) s' = (Ok context, s2)) /\
  (is_Some (objects s !! GetPathToContext (cx_Name context)) ->
     (CreateContext context s).1 <> Ok tt /\ objects (CreateContext context s).2 = objects s).
Proof.
  intros Hv. destruct (Marshal_total context) as [b Hb]. set (path := GetPathToContext (cx_Name context)).
  assert (CreateContext context s = wrap_errorf "failed to write context" (Put path (NewReader b) NoOverWrite) s) as ->.
  { unfold CreateContext, mbind, M_bind, wrap_errorf at 1 2, lift. by rewrite Hv, Hb. }
  unfold wrap_errorf. destruct (Put path (NewReader b) NoOverWrite s) as [r s'] eqn:E.
  destruct (Put_spec _ _ _ _ _ _ E) as (Hok & _ & Hex). split.
  - intros Hn. pose proof (Put_total path b NoOverWrite s (fun _ => Hn)) as Ht. rewrite E in Ht. simpl in Ht. subst r.
    exists s'. split; [done|]. destruct (Hok eq_refl) as [Ho _].
    assert (objects s' !! path = Some b) as Hp by (by rewrite Ho, lookup_insert_eq).
    destruct (Get_ok _ _ _ Hp) as (s2 & Eg & _). exists s2. unfold GetContext, mbind, M_bind, lift. fold path.
    rewrite Eg, (Unmarshal_Marshal _ _ Hb), Hv. done.
  - intros Hs. split.
    + destruct r as [[]|e|p]; [|done..]. destruct (Hok eq_refl) as [_ Hn]. rewrite Hn in Hs by done. by destruct Hs.
    + destruct r; simpl; by apply Hex.
Qed.

End contexts.

End CoreMeta.
