(* ===== verification/Pool.v ===== *)
(** * Pools of goroutines

    The uploads and downloads of the core package share one shape. A producer
    goes through a list of tasks; for each it may do some work of its own, skip
    the task, give up with an error, or start a goroutine, of which at most
    [cap] run at the same time (the buffered channel concurrencyControl). A
    consumer receives the results of the goroutines as they come and returns
    the first error; when all the tasks are through it gets the done signal.

    [pool_run] replays an execution given as a sequence of events; the work of
    a goroutine and the reception of its result are one step. The goroutines
    that still run when the consumer has returned an error have no further
    effect in the model. *)

From S2P Require Import Prelude.

Module Pool.

(** [Finish i x]: the goroutine in position [i] among those running finishes,
    with the choices [x] of its own execution. *)

Inductive event (X : Type) : Type :=
| Start
| Finish (i : nat) (x : X).

Arguments Start {X}.
Arguments Finish {X} i x.

Section pool.
Context {W T J X : Type}.
Variables (cap : nat) (prepare : T -> M W (option J)) (work : X -> J -> W -> option (res unit * W)).

(** [None]: the events are not a complete execution. *)

Fixpoint pool_run (es : list (event X)) (todo : list T) (running : list J) (w : W) : option (res unit * W) :=
  match es with
  | [] => match todo, running with [], [] => Some (Ok tt, w) | _, _ => None end
  | Start :: es' =>
      match todo with
      | [] => None
      | t :: todo' =>
          match prepare t w with
          | (Ok None, w') => pool_run es' todo' running w'
          | (Ok (Some j), w') =>
              if decide (length running < cap) then pool_run es' todo' (running ++ [j]) w' else None
          | (Err e, w') => Some (Err e, w')
          | (Panic p, w') => Some (Panic p, w')
          end
      end
  | Finish i x :: es' =>
      match running !! i with
      | None => None
      | Some j =>
          match work x j w with
          | None => None
          | Some (Ok _, w') => pool_run es' todo (delete i running) w'
          | Some (Err e, w') => Some (Err e, w')
          | Some (Panic p, w') => Some (Panic p, w')
          end
      end
  end.

(** ** Invariants

    [I todo running w] holds before every step. *)

Section invariant.
Variable I : list T -> list J -> W -> Prop.

Hypothesis prepare_I : forall t todo running w, I (t :: todo) running w ->
  exists o w', prepare t w = (Ok o, w') /\ I todo (running ++ option_list o) w'.

Hypothesis work_I : forall todo run1 j run2 w x r w', I todo (run1 ++ j :: run2) w ->
  work x j w = Some (r, w') -> r = Ok tt /\ I todo (run1 ++ run2) w'.

(** Every complete execution succeeds and keeps the invariant. *)

Lemma pool_safe es : forall todo running w r w',
  I todo running w -> pool_run es todo running w = Some (r, w') -> r = Ok tt /\ I [] [] w'.
Proof.
  induction es as [|[|i x] es IH]; intros todo running w r w' HI H; cbn [pool_run] in H.
  - destruct todo; [|done]. destruct running; [|done]. by simplify_eq.
  - destruct todo as [|t todo]; [done|].
    destruct (prepare_I t todo running w HI) as (o & w1 & E & HI'). rewrite E in H.
    destruct o as [j|]; [case_decide; [|done]|]; (eapply IH; [|exact H]); [done|]. by rewrite app_nil_r in HI'.
  - destruct (running !! i) as [j|] eqn:Hi; [|done].
    destruct (work x j w) as [[r1 w1]|] eqn:E; [|done].
    rewrite <- (take_drop_middle _ _ _ Hi) in HI. destruct (work_I _ _ _ _ _ _ _ _ HI E) as [-> HI'].
    rewrite <- delete_take_drop in HI'. eapply IH; [exact HI'|exact H].
Qed.

(** When every goroutine can finish, the pool can: one goroutine at a time. *)

Hypothesis work_live : forall todo run1 j run2 w, I todo (run1 ++ j :: run2) w -> exists x r w', work x j w = Some (r, w').

Lemma pool_live : forall todo w, 0 < cap -> I todo [] w -> exists es w', pool_run es todo [] w = Some (Ok tt, w').
Proof.
  intros todo. induction todo as [|t todo IH]; intros w Hcap HI; [by exists [], w|].
  destruct (prepare_I t todo [] w HI) as (o & w1 & E & HI'). cbn [app] in HI'. destruct o as [j|]; cbn [option_list] in HI'.
  - destruct (work_live todo [] j [] w1 HI') as (x & r & w2 & Ex).
    destruct (work_I todo [] j [] w1 x r w2 HI' Ex) as [-> HI2].
    destruct (IH w2 Hcap HI2) as (es & w3 & H3). exists (Start :: Finish 0 x :: es), w3.
    cbn [pool_run]. rewrite E. cbn [length app]. rewrite decide_True by lia. cbn [lookup list_lookup]. rewrite Ex. exact H3.
  - destruct (IH w1 Hcap HI') as (es & w3 & H3). exists (Start :: es), w3. cbn [pool_run]. by rewrite E.
Qed.

End invariant.

(** With no room for a goroutine, a task that needs one is never started. *)

Lemma pool_blocked (es : list (event X)) t todo w :
  cap = 0 -> (forall w, exists j w', prepare t w = (Ok (Some j), w')) -> pool_run es (t :: todo) [] w = None.
Proof.
  intros Hcap Hp. destruct es as [|[|i x] es]; cbn [pool_run]; [done| |done].
  destruct (Hp w) as (j & w' & ->). cbn [length]. by rewrite decide_False by lia.
Qed.

End pool.

(** ** Computations with executions

    [R W A] is the type of a computation whose execution was chosen; it has no
    value when the choice is not a complete execution. *)

Definition R (W A : Type) : Type := W -> option (res A * W).

#[export] Instance R_bind {W} : MBind (R W) := fun A B f m w =>
  match m w with
  | None => None
  | Some (Ok a, w') => f a w'
  | Some (Err e, w') => Some (Err e, w')
  | Some (Panic p, w') => Some (Panic p, w')
  end.

Definition once {W A} (m : M W A) : R W A := fun w => Some (m w).

(** The error of a computation is handed to [f]. *)

Definition wrap_error {W A} (f : error -> error) (m : R W A) : R W A := fun w =>
  match m w with
  | Some (Err e, w') => Some (Err (f e), w')
  | o => o
  end.

(** Every complete execution returns a value that satisfies [Q], and there is one. *)

Definition every_run {E W A} (m : E -> R W A) (w : W) (Q : A -> W -> Prop) : Prop :=
  (forall e r w', m e w = Some (r, w') -> exists a, r = Ok a /\ Q a w') /\ exists e r w', m e w = Some (r, w').

Section every_run.
Context {W : Type}.

Lemma every_mono {E A} (m : E -> R W A) w (P Q : A -> W -> Prop) :
  every_run m w P -> (forall a w', P a w' -> Q a w') -> every_run m w Q.
Proof. intros [Hs Hl] H. split; [|done]. intros e r w' E'. destruct (Hs e r w' E') as (a & -> & HP). eauto. Qed.

Lemma every_bind {E E' A B} (m : E -> R W A) (f : E' -> A -> R W B) w (Q : B -> W -> Prop) :
  every_run m w (fun a w' => every_run (fun e => f e a) w' Q) -> every_run (fun es : E * E' => m es.1 ≫= f es.2) w Q.
Proof.
  unfold mbind, R_bind. intros [Hs (e & r & w1 & E1)]. split.
  - intros [e1 e2] r2 w2 H. cbn [fst snd] in H. destruct (m e1 w) as [[r1 w1']|] eqn:E2; [|done].
    destruct (Hs _ _ _ E2) as (a & -> & Hf & _). by eapply Hf.
  - destruct (Hs _ _ _ E1) as (a & -> & _ & e2 & r2 & w2 & E2). exists (e, e2), r2, w2. cbn [fst snd]. by rewrite E1.
Qed.

Lemma every_once {E A} (m : M W A) w (Q : A -> W -> Prop) a w' :
  E -> m w = (Ok a, w') -> Q a w' -> every_run (fun _ : E => once m) w Q.
Proof.
  intros e Hm HQ. unfold once. split.
  - intros _ r w2 H. rewrite Hm in H. simplify_eq. eauto.
  - exists e, (Ok a), w'. by rewrite Hm.
Qed.

(** A computation that is the same in all executions, before or after the others. *)

Lemma every_bind_once {E A B} (m : M W A) (f : E -> A -> R W B) w a w' (Q : B -> W -> Prop) :
  m w = (Ok a, w') -> every_run (fun e => f e a) w' Q -> every_run (fun e => once m ≫= f e) w Q.
Proof.
  intros Hm [Hs Hl]. unfold every_run, mbind, R_bind, once. cbn beta. rewrite Hm. by split.
Qed.

Lemma every_then_once {E A B} (m : E -> R W A) (f : A -> M W B) w (Q : B -> W -> Prop) :
  every_run m w (fun a w' => exists b w2, f a w' = (Ok b, w2) /\ Q b w2) -> every_run (fun e => m e ≫= fun a => once (f a)) w Q.
Proof.
  intros [Hs (e & r & w1 & E1)]. unfold mbind, R_bind, once. split.
  - intros e2 r2 w2 H. destruct (m e2 w) as [[r1 w1']|] eqn:E2; [|done].
    destruct (Hs _ _ _ E2) as (a & -> & b & w3 & Hf & HQ). rewrite Hf in H. simplify_eq. eauto.
  - destruct (Hs _ _ _ E1) as (a & -> & b & w3 & Hf & HQ). exists e, (Ok b), w3. by rewrite E1, Hf.
Qed.

Lemma every_wrap {E A} f (m : E -> R W A) w (Q : A -> W -> Prop) :
  every_run m w Q -> every_run (fun e => wrap_error f (m e)) w Q.
Proof.
  intros [Hs (e & r & w1 & E1)]. unfold wrap_error. split.
  - intros e2 r2 w2 H. destruct (m e2 w) as [[[a|er|p] w1']|] eqn:E2; simplify_eq; destruct (Hs _ _ _ E2) as (? & ? & ?); simplify_eq; eauto.
  - destruct (Hs _ _ _ E1) as (a & -> & _). exists e, (Ok a), w1. by rewrite E1.
Qed.

(** The pool itself. *)

Lemma every_pool {T J X} cap (prepare : T -> M W (option J)) (work : X -> J -> W -> option (res unit * W))
    (I : list T -> list J -> W -> Prop) todo w :
  (forall t todo running w, I (t :: todo) running w ->
     exists o w', prepare t w = (Ok o, w') /\ I todo (running ++ option_list o) w') ->
  (forall todo run1 j run2 w x r w', I todo (run1 ++ j :: run2) w ->
     work x j w = Some (r, w') -> r = Ok tt /\ I todo (run1 ++ run2) w') ->
  (forall todo run1 j run2 w, I todo (run1 ++ j :: run2) w -> exists x r w', work x j w = Some (r, w')) ->
  0 < cap -> I todo [] w ->
  every_run (fun es => pool_run cap prepare work es todo []) w (fun _ w' => I [] [] w').
Proof.
  intros Hp Hw Hl Hc HI. split.
  - intros es r w' H. destruct (pool_safe _ _ _ I Hp Hw es _ _ _ _ _ HI H) as [-> Hend]. eauto.
  - destruct (pool_live cap _ _ I Hp Hw Hl todo w Hc HI) as (es & w' & H). eauto.
Qed.

End every_run.

End Pool.
