(* ===== verification/StoreRules.v ===== *)
(** * Rules for computations on stores

    [runs m s Q]: the computation [m] started in [s] returns a value, without an
    error or a panic, and the value and the new state satisfy [Q]. There is one
    rule per combinator of the monad and per call of a working store; the proofs
    about the operations of the core package are sequences of these rules.
    [same_objects] relates the states of a context that hold the same objects,
    which is all that reads preserve of an abstract store. *)

From S2P Require Import Prelude GoLib Errors Storage Model CoreMeta.

Module StoreRules.
Import Storage CoreMeta.

Section rules.
Context {S : Type}.

Definition runs {A} (m : M S A) (s : S) (Q : A -> S -> Prop) : Prop :=
  exists a s', m s = (Ok a, s') /\ Q a s'.

Lemma runs_mono {A} (m : M S A) s (P Q : A -> S -> Prop) :
  runs m s P -> (forall a s', P a s' -> Q a s') -> runs m s Q.
Proof. intros (a & s' & E & HP) H. exists a, s'. auto. Qed.

Lemma runs_ret {A} (a : A) s Q : Q a s -> runs (mret a) s Q.
Proof. intros H. by exists a, s. Qed.

Lemma runs_lift {A} (r : res A) a s Q : r = Ok a -> Q a s -> runs (lift r) s Q.
Proof. intros -> H. by exists a, s. Qed.

Lemma runs_bind {A B} (m : M S A) (f : A -> M S B) s Q :
  runs m s (fun a s' => runs (f a) s' Q) -> runs (m ≫= f) s Q.
Proof.
  intros (a & s1 & E & b & s2 & E' & H). exists b, s2. split; [|done].
  unfold mbind, M_bind. by rewrite E.
Qed.

Lemma runs_attempt {A} (m : M S A) s Q : runs m s (fun a => Q (inl a)) -> runs (attempt m) s Q.
Proof. intros (a & s' & E & H). exists (inl a), s'. split; [|done]. unfold attempt. by rewrite E. Qed.

Lemma runs_attempt_Err {A} (m : M S A) s e s' Q : m s = (Err e, s') -> Q (inr e) s' -> runs (attempt m) s Q.
Proof. intros E H. exists (inr e), s'. split; [|done]. unfold attempt. by rewrite E. Qed.

Lemma runs_eq {A} (m : M S A) s a s' Q : m s = (Ok a, s') -> Q a s' -> runs m s Q.
Proof. intros E H. by exists a, s'. Qed.

(** A loop that maintains an invariant over the elements still to come. *)

Lemma runs_for_each {A} (l : list A) (f : A -> M S unit) (I : list A -> S -> Prop) s :
  (forall x rest s, I (x :: rest) s -> runs (f x) s (fun _ s' => I rest s')) ->
  I l s -> runs (for_each l f) s (fun _ s' => I [] s').
Proof.
  intros Hf. revert s. induction l as [|x l IH]; intros s HI; [by apply runs_ret|].
  cbn [for_each]. apply runs_bind. eapply runs_mono; [by apply Hf|]. intros ? s' H. by apply IH.
Qed.

Context `{HS : !Store S, HSL : !StoreLaws S, HR : !ReliableStore S}.

Lemma runs_Get k d s (Q : bytes -> S -> Prop) :
  objects s !! k = Some d -> (forall s', objects s' = objects s -> Q d s') -> runs (Get k) s Q.
Proof. intros Hd H. destruct (Get_ok k s d Hd) as (s' & E & Ho). exists d, s'. auto. Qed.

Lemma runs_Has k s (Q : bool -> S -> Prop) :
  (forall s', objects s' = objects s -> Q (bool_decide (is_Some (objects s !! k))) s') -> runs (Has k) s Q.
Proof. intros H. destruct (Has_ok k s) as (s' & E & Ho). eexists _, s'. eauto. Qed.

Lemma runs_putBuffer k d excl s (Q : unit -> S -> Prop) :
  (excl = true -> objects s !! k = None) ->
  (forall s', objects s' = <[k := d]> (objects s) -> Q tt s') -> runs (putBuffer k d excl) s Q.
Proof. intros He H. destruct (putBuffer_ok k d excl s He) as (s' & E & Ho). exists tt, s'. auto. Qed.

Lemma runs_Put k d excl s (Q : unit -> S -> Prop) :
  (excl = true -> objects s !! k = None) ->
  (forall s', objects s' = <[k := d]> (objects s) -> Q tt s') -> runs (Put k (NewReader d) excl) s Q.
Proof.
  intros He H. pose proof (Put_total k d excl s He) as Ht. destruct (Put k (NewReader d) excl s) as [r s'] eqn:E.
  simpl in Ht. subst r. exists tt, s'. split; [done|]. apply H. eapply Put_spec in E as [E _]. by apply E.
Qed.

Lemma runs_Delete k s (Q : unit -> S -> Prop) :
  is_Some (objects s !! k) -> (forall s', objects s' = delete k (objects s) -> Q tt s') -> runs (Delete k) s Q.
Proof. intros Hk H. destruct (Delete_ok k s Hk) as (s' & E & Ho). exists tt, s'. auto. Qed.

Lemma runs_KeysPrefix {HLL : ListingLaws S} token prefix delim count s (Q : list string * string -> S -> Prop) :
  0 < count ->
  (forall ks next rest s', objects s' = objects s -> remaining (objects s) prefix delim token = ks ++ rest ->
     length ks <= count -> (next = "" -> rest = []) ->
     (next <> "" -> length ks = count /\ remaining (objects s) prefix delim next = rest) -> Q (ks, next) s') ->
  runs (KeysPrefix token prefix delim count) s Q.
Proof.
  intros Hc H. destruct (KeysPrefix_total token prefix delim count s Hc) as (ks & next & Ht).
  destruct (KeysPrefix token prefix delim count s) as [r s'] eqn:E. simpl in Ht. subst r.
  exists (ks, next), s'. split; [done|]. apply KeysPrefix_spec in E as [Ho Hk].
  destruct (Hk ks next eq_refl) as (rest & ? & ? & ? & ?). eauto.
Qed.

End rules.

(** ** The stores of a context *)

Section contexts.
Context {S : Type} `{HS : !Store S, HSL : !StoreLaws S}.

Definition same_objects (c c' : Stores S) : Prop :=
  objects (Metadata c) = objects (Metadata c') /\ objects (VMetadata c) = objects (VMetadata c') /\
  objects (Blob c) = objects (Blob c') /\ objects (Wal c) = objects (Wal c') /\ objects (ReadLog c) = objects (ReadLog c').

#[export] Instance same_objects_equivalence : Equivalence same_objects.
Proof.
  split.
  - by intros c.
  - intros c c' (? & ? & ? & ? & ?). by split_and!.
  - intros c1 c2 c3 (? & ? & ? & ? & ?) (? & ? & ? & ? & ?). split_and!; by etrans.
Qed.

#[export] Instance same_objects_Metadata : Proper (same_objects ==> eq) (fun c => objects (Metadata c)).
Proof. by intros c c' (? & _). Qed.

#[export] Instance same_objects_VMetadata : Proper (same_objects ==> eq) (fun c => objects (VMetadata c)).
Proof. by intros c c' (_ & ? & _). Qed.

Lemma same_meta c c' : same_objects c c' -> objects (Metadata c') = objects (Metadata c).
Proof. by intros (? & _). Qed.

Lemma same_vmeta c c' : same_objects c c' -> objects (VMetadata c') = objects (VMetadata c).
Proof. by intros (_ & ? & _). Qed.

Lemma same_SetMetadata (c : Stores S) s : objects s = objects (Metadata c) -> same_objects c (SetMetadata s c).
Proof. intros H. by split_and!. Qed.

Lemma same_SetVMetadata (c : Stores S) s : objects s = objects (VMetadata c) -> same_objects c (SetVMetadata s c).
Proof. intros H. by split_and!. Qed.

Lemma runs_meta {A} (m : M S A) c (Q : A -> Stores S -> Prop) :
  runs m (Metadata c) (fun a s' => Q a (SetMetadata s' c)) -> runs (getMetaStore m) c Q.
Proof. intros (a & s' & E & H). exists a, (SetMetadata s' c). split; [|done]. unfold getMetaStore. by rewrite E. Qed.

Lemma runs_vmeta {A} (m : M S A) c (Q : A -> Stores S -> Prop) :
  runs m (VMetadata c) (fun a s' => Q a (SetVMetadata s' c)) -> runs (getVMetaStore m) c Q.
Proof. intros (a & s' & E & H). exists a, (SetVMetadata s' c). split; [|done]. unfold getVMetaStore. by rewrite E. Qed.

(** A read returns [a] and leaves the objects of all stores alone. *)

Definition reads {A} (m : M (Stores S) A) (c : Stores S) (a : A) : Prop :=
  runs m c (fun x c' => x = a /\ same_objects c c').

Lemma reads_runs {A} (m : M (Stores S) A) c a (Q : A -> Stores S -> Prop) :
  reads m c a -> (forall c', same_objects c c' -> Q a c') -> runs m c Q.
Proof. intros H HQ. eapply runs_mono; [exact H|]. intros x c' [-> Hs]. auto. Qed.

Lemma reads_bind {A B} (m : M (Stores S) A) (f : A -> M (Stores S) B) c a b :
  reads m c a -> (forall c', same_objects c c' -> reads (f a) c' b) -> reads (m ≫= f) c b.
Proof.
  intros Hm Hf. apply runs_bind. eapply reads_runs; [exact Hm|]. intros c' Hs.
  eapply runs_mono; [by apply Hf|]. intros x c2 [-> Hs2]. split; [done|]. by etrans.
Qed.

Lemma reads_ret {A} (a : A) c : reads (mret a) c a.
Proof. by apply runs_ret. Qed.

Lemma reads_lift {A} (r : res A) a c : r = Ok a -> reads (lift r) c a.
Proof. intros ->. by eapply runs_lift. Qed.

End contexts.

End StoreRules.
