(* ===== verification/Wal.v ===== *)
(** * The write-ahead log (pkg/wal: wal.go, pkg/model: wal.go)

    A log keeps its entries in a store, each under a token that sorts by time;
    the time is the one at which a second store touched an object, so that it
    does not depend on the clocks of the clients. The state is the pair of the
    two stores. ksuid is a third-party package: [NewRandomWithTime], [Parse],
    the time of an identifier, and [FromParts], with 16 zero bytes, are
    variables. ListEntries reads the entries with one goroutine per token and
    collects them as they arrive. *)

From S2P Require Import Prelude GoLib Errors Storage Radix CafsKeys Lru CafsReader CoreMeta StoreRules.

Module Wal.
Import Storage CoreMeta StoreRules CafsReader.

(** ** Entries *)

Record Entry : Type := mkEntry {
  Token : string;
  Payload : string
}.

#[export] Instance Entry_eq_dec : EqDecision Entry.
Proof. solve_decision. Defined.

#[export] Instance Entry_countable : Countable Entry.
Proof. apply (inj_countable' (fun e => (Token e, Payload e)) (fun '(t, p) => mkEntry t p)). by intros []. Defined.

Definition NewEntry (token payload : string) : Entry := mkEntry token payload.

Definition TokenGeneratorPath : string := "WALTokenGeneratorPath".

Definition maxEntriesPerList : Z := 1000.

Definition defaultMaxConcurrency : Z := 1024.

Definition ErrTokenGenUpdate : error := ErrMsg "failed to update the token generator".

Definition ErrTokenGenerate : error := ErrMsg "failed to generate token".

Definition ErrKSUID : error := ErrMsg "failed tp generate ksuid".

Definition ErrAddWALEntry : error := ErrMsg "failed to add wal token entry".

Definition ErrTokenAttributes : error := ErrMsg "failed to get token generator attributes".

Definition ErrMaxCount : error := ErrMsg "max count needs to be greater than 0".

Definition ErrFirstToken : error := ErrMsg "failed to calculate first token".

Definition ErrGetTokens : error := ErrMsg "failed to get tokens".

(** ** The log *)

Record WAL : Type := mkWAL {
  tokenGeneratorPath : string;
  maxConcurrency : Z
}.

Definition Option : Type := WAL -> WAL.

Definition MaxConcurrency (c : Z) : Option := fun w => mkWAL (tokenGeneratorPath w) c.

Definition WithTokenGeneratorPath (path : string) : Option := fun w => mkWAL path (maxConcurrency w).

Definition defaultWAL : WAL := mkWAL TokenGeneratorPath defaultMaxConcurrency.

Definition wrap_with {S A} (e : error) (m : M S A) : M S A :=
  r ← attempt m;
  match r with inl a => mret a | inr err => fail (Errors.Wrap e (Some err)) end.

Section wal.
Context {S : Type} `{HS : !Store S} {T : Type -> Type} {HRX : Radix T} {HY : Yaml Entry} `{HB : BlobReader}.
Variables (NewRandomWithTime : Time.Time -> res string) (Parse : string -> res Time.Time) (FromParts : Time.Time -> res string).

Definition on_mutableStore {A} (m : M S A) : M (S * S) A := fun '(mu, wal) => let '(r, mu') := m mu in (r, (mu', wal)).

Definition on_walStore {A} (m : M S A) : M (S * S) A := fun '(mu, wal) => let '(r, wal') := m wal in (r, (mu, wal')).

(** The error of Put is ignored. *)

Definition New (options : list Option) : M (S * S) WAL :=
  let wal := fold_left (fun w option => option w) options defaultWAL in
  _ ← attempt (on_mutableStore (Put (tokenGeneratorPath wal) (NewReader []) OverWrite));
  mret wal.

Definition updateTokenTimestamp (w : WAL) : M (S * S) unit := on_mutableStore (Touch (tokenGeneratorPath w)).

Definition getToken (w : WAL) : M (S * S) string :=
  _ ← wrap_with ErrTokenGenUpdate (updateTokenTimestamp w);
  attr ← wrap_with ErrTokenAttributes (on_mutableStore (GetAttr (tokenGeneratorPath w)));
  wrap_with ErrKSUID (lift (NewRandomWithTime (Updated attr))).

(** strings.NewReader *)

Definition Add (w : WAL) (p : string) : M (S * S) string :=
  token ← wrap_with ErrTokenGenerate (getToken w);
  let e := mkEntry token p in
  _ ← wrap_with ErrAddWALEntry (on_walStore (Put (Token e) (NewReader (String.list_byte_of_string (Payload e))) NoOverWrite));
  mret (Token e).

(** 10 minutes, in nanoseconds. *)

Definition GetExpirationDuration : Z := 10 * 60 * 1000000000.

Definition ListTokens (fromToken : string) (max : Z) : M (S * S) (list string * string) :=
  if (max <=? 0)%Z then fail (Errors.Wrap ErrMaxCount None)
  else
    k ← lift (Parse fromToken);
    let max := if (maxEntriesPerList <? max)%Z then maxEntriesPerList else max in
    ksuidOld ← wrap_with ErrFirstToken (lift (FromParts (k - GetExpirationDuration * 2)%Z));
    wrap_with ErrGetTokens (on_walStore (KeysPrefix ksuidOld "" "" (Z.to_nat max))).

(** ** Reading entries *)

Definition UnmarshalWAL (b : option bytes) : res Entry :=
  match b with
  | None => Err (ErrMsg "received nil entry to unmarshall")
  | Some b => Unmarshal b
  end.

Definition MarshalWAL (entry : Entry) : res bytes := Marshal entry.

(** The loop over the calls of Read, with a buffer of 1024 bytes that each call
    overwrites: the bytes of the call that reports the end are kept. [None] when
    the end is not reported within the fuel. *)

Fixpoint read_loop (fuel t : nat) (rem : bytes) : option bytes :=
  match fuel with
  | O => None
  | Datatypes.S fuel' =>
      let '(n, st) := blob_read t (length rem) 1024 in
      match st with
      | REOF => Some (take n rem)
      | _ => read_loop fuel' (Datatypes.S t) (drop n rem)
      end
  end.

(** The goroutine of a token. When Get fails, r is nil and "defer r.Close()"
    panics; when the entry cannot be decoded, the error is sent to the channel
    oops, which is nil: the goroutine blocks ([None]). *)

Definition read (fuel : nat) (token : string) : M (S * S) (option Entry) :=
  r ← attempt (on_walStore (Get token));
  match r with
  | inr _ => panic "invalid memory address or nil pointer dereference"
  | inl o =>
      match read_loop fuel 0 o with
      | None => panic "no result within the fuel"
      | Some b =>
          match UnmarshalWAL (Some b) with
          | Ok e => mret (Some e)
          | Err _ => mret None
          | Panic p => panic p
          end
      end
  end.

(** The messages that reach the collector: entries, and the number of entries
    to wait for. *)

Inductive message : Type :=
| MEntry (e : Entry)
| MCount (n : nat).

Record collector : Type := mkCollector {
  entriesMap : T Entry;
  count : nat;
  total : nat
}.

Definition finalize (c : collector) : list Entry := (r_Walk (entriesMap c)).*2.

(** [Ok None]: the collector still waits when there are no more messages. *)

Fixpoint collectParallelResponses (msgs : list message) (c : collector) : res (option (list Entry)) :=
  match msgs with
  | [] => Ok None
  | msg :: msgs' =>
      c' ← match msg with
           | MEntry e =>
               let k := String.list_byte_of_string (Token e) in
               match r_Get k (entriesMap c) with
               | Some _ => Panic ("Received more than one response for token: " +:+ Token e +:+ " string: " +:+ Payload e)
               | None => Ok (mkCollector (r_Insert k e (entriesMap c)) (count c + 1) (total c))
               end
           | MCount n => Ok (mkCollector (entriesMap c) (count c) n)
           end;
      if decide (count c' = total c') then Ok (Some (finalize c')) else collectParallelResponses msgs' c'
  end.

(** The reads, in the order in which they end. *)

Fixpoint issueParallelReads (fuel : nat) (tokens : list string) : M (S * S) (list message) :=
  match tokens with
  | [] => mret []
  | t :: tokens' =>
      e ← read fuel t;
      ms ← issueParallelReads fuel tokens';
      mret (match e with Some e => MEntry e :: ms | None => ms end)
  end.

(** [order] is the order in which the reads end, [pos] the number of entries
    the collector receives before the count. *)

Definition ListEntries (fuel : nat) (order : list string -> list string) (pos : nat) (fromToken : string) (max : Z)
    : M (S * S) (list Entry * string) :=
  if (max <=? 0)%Z then fail (ErrMsg ("max count needs to be greater than 0 : " +:+ (if (max <? 0)%Z then "-" else "") +:+ Strconv.FormatUint (Z.abs_N max) +:+ ", fromToken:" +:+ fromToken))
  else
    r ← attempt (ListTokens fromToken max);
    match r with
    | inr err => fail (ErrMsg ("wal failed to ListEntries: " +:+ Errors.to_string err))
    | inl (tokens, next) =>
        if decide (length tokens = 0) then mret ([], next)
        else
          msgs ← issueParallelReads fuel (order tokens);
          collected ← lift (collectParallelResponses (take pos msgs ++ MCount (length tokens) :: drop pos msgs) (mkCollector r_New 0 0));
          match collected with
          | None => panic "no result: the collector waits for ever"
          | Some entries =>
              if decide (length entries <> length tokens) then panic "received count different than the list of tokens entries"
              else mret (entries, next)
          end
    end.

End wal.

(** ** Additions *)

Section additions.
Context {S : Type} `{HS : !Store S, HSL : !StoreLaws S}.
Variable NewRandomWithTime : Time.Time -> res string.

Lemma getToken_wal w (mu wal : S) r mu' wal' : getToken NewRandomWithTime w (mu, wal) = (r, (mu', wal')) -> wal' = wal.
Proof.
  unfold getToken, updateTokenTimestamp, wrap_with, on_mutableStore, lift, attempt, fail, mbind, M_bind, mret, M_ret.
  destruct (Touch _ mu) as [[u|e|m] mu1]; [|intros [= _ _ <-]; done..]. destruct (GetAttr _ mu1) as [[a|e|m] mu2]; [|intros [= _ _ <-]; done..].
  destruct (NewRandomWithTime _); by intros [= _ _ <-].
Qed.

(** Add writes its payload under the token it returns, which was not in use;
    whatever its result, no entry of the log changes. *)
Theorem Add_correct w p (mu wal : S) r mu' wal' :
  Add NewRandomWithTime w p (mu, wal) = (r, (mu', wal')) ->
  (forall token, r = Ok token -> objects wal !! token = None /\ objects wal' = <[token := String.list_byte_of_string p]> (objects wal)) /\
  (forall q d, objects wal !! q = Some d -> objects wal' !! q = Some d).
Proof.
  unfold Add, wrap_with, attempt, on_walStore, mbind, M_bind, fail, mret, M_ret. destruct (getToken NewRandomWithTime w (mu, wal)) as [r1 [mu1 wal1]] eqn:E1.
  apply getToken_wal in E1 as ->. destruct r1 as [token|e|m]; cbn; [|intros H; simplify_eq; split; [by intros|auto]..].
  destruct (Put token _ NoOverWrite wal) as [r2 wal2] eqn:E2.
  apply Put_spec in E2 as (Hok & Hne & Hex). intros H. assert (wal' = wal2) as -> by (by destruct r2; simplify_eq). split.
  - intros t ->. destruct r2 as [[]|e|m]; [|done..]. simplify_eq. destruct (Hok eq_refl) as [Ho Hn]. split; [by apply Hn|done].
  - intros q d Hq. destruct (decide (q = token)) as [->|Hn]; [|by rewrite Hne]. by rewrite Hex by eauto.
Qed.

End additions.

(** ** Listings *)

Section listings.
Context {S : Type} `{HS : !Store S, HSL : !StoreLaws S, HR : !ReliableStore S} {T : Type -> Type} {HRX : Radix T} {HRL : RadixLaws T}.
Context {HY : Yaml Entry} `{HB : BlobReader}.
Variables (Parse : string -> res Time.Time) (FromParts : Time.Time -> res string).

Let key (e : Entry) : bytes := String.list_byte_of_string (Token e).

Lemma key_inj a b : key a = key b -> Token a = Token b.
Proof. intros H. unfold key in H. apply (f_equal String.string_of_list_byte) in H. by rewrite !String.string_of_list_byte_of_string in H. Qed.

(** The collector has received the entries [es]. *)

Definition holds (c : collector) (es : list Entry) : Prop :=
  count c = length es /\ NoDup (Token <$> es) /\
  forall k e, r_Get (T := T) k (entriesMap c) = Some e <-> e ∈ es /\ k = key e.

Lemma collect_entry e ms c es :
  holds c es -> Token e ∉ Token <$> es ->
  let c' := mkCollector (r_Insert (key e) e (entriesMap c)) (count c + 1) (total c) in
  holds c' (es ++ [e]) /\ collectParallelResponses (MEntry e :: ms) c =
    if decide (count c' = total c') then Ok (Some (finalize c')) else collectParallelResponses ms c'.
Proof.
  intros (Hc & Hnd & Hm) Hn c'. assert (r_Get (key e) (entriesMap c) = None) as Hnone.
  { destruct (r_Get (key e) (entriesMap c)) as [e'|] eqn:E; [|done]. apply Hm in E as [He' Hk%key_inj]. destruct Hn. rewrite Hk. by apply list_elem_of_fmap_2. }
  split; [|cbn [collectParallelResponses]; fold (key e); by rewrite Hnone]. split; [|split].
  - cbn. rewrite length_app, Hc. done.
  - rewrite fmap_app. cbn. rewrite <- Permutation_cons_append. by apply NoDup_cons.
  - intros k e'. cbn. destruct (decide (key e = k)) as [<-|Hk].
    + rewrite r_Get_Insert. rewrite elem_of_app, list_elem_of_singleton. split; [intros [= <-]; by split; [right|]|].
      intros [[He'| ->] Hk%key_inj]; [|done]. destruct Hn. rewrite Hk. by apply list_elem_of_fmap_2.
    + rewrite r_Get_Insert_ne by done. rewrite Hm, elem_of_app, list_elem_of_singleton. split; [by intros [? ?]; auto|].
      intros [[?| ->] ->]; [done|done].
Qed.

(** Entries that do not complete the count. *)

Lemma collect_some es : forall ms c es0,
  holds c es0 -> NoDup (Token <$> es0 ++ es) -> (total c = 0 \/ length es0 + length es < total c) ->
  exists c', holds c' (es0 ++ es) /\ total c' = total c /\ collectParallelResponses ((MEntry <$> es) ++ ms) c = collectParallelResponses ms c'.
Proof.
  induction es as [|e es IH]; intros ms c es0 Hh Hnd Ht; [exists c; by rewrite app_nil_r|].
  assert (Token e ∉ Token <$> es0) as Hn by (rewrite fmap_app, fmap_cons in Hnd; apply NoDup_app in Hnd as (_ & Hd & _); set_solver).
  destruct (collect_entry e ((MEntry <$> es) ++ ms) c es0 Hh Hn) as [Hh' E]. rewrite fmap_cons. cbn [app]. rewrite E. pose proof (proj1 Hh) as Hc.
  rewrite decide_False by (cbn in *; rewrite Hc; destruct Ht; lia).
  destruct (IH ms _ (es0 ++ [e]) Hh') as (c' & H1 & H2 & H3); rewrite <- ?app_assoc in *; [done| |by exists c'].
  rewrite length_app. cbn in *. destruct Ht; [by left|right; lia].
Qed.

(** What a complete collection is: the entries, in the order of the tokens. *)

Lemma finalize_holds c es : holds c es ->
  finalize c ≡ₚ es /\ StronglySorted bytes_le (key <$> finalize c).
Proof.
  intros (_ & Hnd & Hm). unfold finalize. assert (Hkey : forall p, p ∈ r_Walk (entriesMap c) -> p.1 = key p.2 /\ p.2 ∈ es).
  { intros [k e] Hp%r_Walk_spec. by apply Hm in Hp as [? ->]. }
  assert (key <$> (r_Walk (entriesMap c)).*2 = (r_Walk (entriesMap c)).*1) as Hk.
  { rewrite <- list_fmap_compose. apply list_fmap_ext. intros i p Hp%list_elem_of_lookup_2. symmetry. by apply Hkey. }
  split; [|rewrite Hk; apply r_Walk_sorted]. apply NoDup_Permutation.
  - apply (NoDup_fmap_1 key). rewrite Hk. apply r_Walk_NoDup.
  - by eapply NoDup_fmap_1.
  - intros e. rewrite list_elem_of_fmap. split; [by intros (p & -> & [_ ?]%Hkey)|].
    intros He. exists (key e, e). split; [done|]. by apply r_Walk_spec, Hm.
Qed.

Lemma collect_complete es pos :
  NoDup (Token <$> es) -> es <> [] ->
  exists l, collectParallelResponses (take pos (MEntry <$> es) ++ MCount (length es) :: drop pos (MEntry <$> es)) (mkCollector r_New 0 0) = Ok (Some l) /\
    l ≡ₚ es /\ StronglySorted bytes_le (key <$> l).
Proof.
  intros Hnd Hne. rewrite <- !fmap_take, <- !fmap_drop.
  assert (holds (mkCollector r_New 0 0) []) as Hh0.
  { split; [done|]. split; [constructor|]. intros k e. cbn. rewrite r_Get_New. split; [done|]. by intros [?%elem_of_nil _]. }
  assert (NoDup (Token <$> [] ++ take pos es)) as Hnd1.
  { rewrite <- (take_drop pos es), fmap_app in Hnd. by apply NoDup_app in Hnd as (? & _). }
  destruct (collect_some (take pos es) (MCount (length es) :: (MEntry <$> drop pos es)) (mkCollector r_New 0 0) [] Hh0 Hnd1) as (c1 & Hh1 & Ht1 & ->); [by left|].
  cbn [app] in Hh1. cbn [collectParallelResponses mbind res_bind]. set (c2 := mkCollector (entriesMap c1) (count c1) (length es)).
  assert (holds c2 (take pos es)) as Hh2 by exact Hh1. pose proof (proj1 Hh2) as Hc2. rewrite length_take in Hc2.
  change (count _) with (count c2) at 1. change (total _) with (length es). destruct (decide (count c2 = length es)) as [Hall|Hrest].
  - exists (finalize c2). split; [done|]. rewrite take_ge in Hh2 by lia. by apply finalize_holds.
  - assert (exists mid e, drop pos es = mid ++ [e]) as (mid & e & Ed).
    { destruct (exists_last (l := drop pos es)) as (mid & e & ->); [|by exists mid, e]. intros H%(f_equal length). rewrite length_drop in H. cbn in H. lia. }
    assert (Hes : es = (take pos es ++ mid) ++ [e]) by (by rewrite <- app_assoc, <- Ed, take_drop).
    rewrite Ed, fmap_app. cbn [fmap list_fmap app]. rewrite Hes, fmap_app in Hnd. apply NoDup_app in Hnd as (Hnd & Hd & _).
    assert (length es = length (take pos es) + length mid + 1) as Hlen by (rewrite Hes at 1; rewrite !length_app; done).
    destruct (collect_some mid [MEntry e] c2 (take pos es) Hh2 Hnd) as (c3 & Hh3 & Ht3 & ->); [right; cbn; lia|].
    destruct (collect_entry e [] c3 _ Hh3) as [Hh4 ->]; [intros H; apply (Hd _ H); cbn; by left|].
    rewrite decide_True; [|cbn; rewrite (proj1 Hh3), Ht3, length_app; cbn; lia].
    eexists. split; [done|]. rewrite <- Hes in Hh4. by apply finalize_holds.
Qed.

Lemma runs_wal {A} (m : M S A) mu wal (Q : A -> S * S -> Prop) :
  runs m wal (fun a wal' => Q a (mu, wal')) -> runs (on_walStore m) (mu, wal) Q.
Proof. intros (a & w' & E & H). exists a, (mu, w'). split; [|done]. unfold on_walStore. by rewrite E. Qed.

Lemma runs_wrap_with {U A} e (m : M U A) u Q : runs m u Q -> runs (wrap_with e m) u Q.
Proof. intros H. apply runs_bind, runs_attempt. eapply runs_mono; [exact H|]. intros a u' HQ. by apply runs_ret. Qed.

(** What is read under a token. *)

Definition readable (wal : S) (t : string) (e : Entry) : Prop :=
  exists b, objects wal !! t = Some b /\ Unmarshal b = Ok e /\ blob_read 0 (length b) 1024 = (length b, REOF).

Lemma issue_runs fuel (entry : string -> Entry) : 0 < fuel -> forall ts (mu wal : S),
  (forall t, t ∈ ts -> readable wal t (entry t)) ->
  runs (issueParallelReads fuel ts) (mu, wal) (fun ms s' => ms = MEntry <$> (entry <$> ts) /\ objects s'.2 = objects wal).
Proof.
  intros Hf. destruct fuel as [|fuel]; [lia|]. induction ts as [|t ts IH]; intros mu wal Hts; [by apply runs_ret|].
  destruct (Hts t) as (b & Hb & Hu & Hr); [by left|]. cbn [issueParallelReads]. apply runs_bind. unfold read.
  apply runs_bind, runs_attempt, runs_wal. eapply runs_Get; [exact Hb|]. intros w1 Ho1. cbn [read_loop]. rewrite Hr, firstn_all. unfold UnmarshalWAL. rewrite Hu.
  apply runs_ret, runs_bind. eapply runs_mono; [apply IH|].
  - intros t' Ht'. unfold readable. rewrite Ho1. apply Hts. by right.
  - intros ms [mu' w'] [-> Ho']. apply runs_ret. cbn in *. split; [done|congruence].
Qed.

Lemma ListTokens_eq fromToken max (mu wal : S) old start r wal1 :
  (0 < max)%Z -> Parse fromToken = Ok old -> FromParts (old - GetExpirationDuration * 2)%Z = Ok start ->
  KeysPrefix start "" "" (Z.to_nat (Z.min max maxEntriesPerList)) wal = (Ok r, wal1) ->
  ListTokens Parse FromParts fromToken max (mu, wal) = (Ok r, (mu, wal1)).
Proof.
  intros Hmax HP HF HK. unfold ListTokens. destruct (Z.leb_spec max 0); [lia|].
  replace (if (maxEntriesPerList <? max)%Z then maxEntriesPerList else max) with (Z.min max maxEntriesPerList) by (destruct (Z.ltb_spec maxEntriesPerList max); lia).
  unfold wrap_with, attempt, lift, on_walStore, mbind, M_bind, mret, M_ret. by rewrite HP, HF, HK.
Qed.

(** ListEntries returns the entries of the tokens it listed, each once and
    in the order of the tokens, in whatever order the goroutines that read them
    end and whenever the collector learns their number, provided that the
    store delivers each entry with its end in one call of Read. *)
Theorem ListEntries_correct fuel order pos fromToken max (mu wal : S) old tokens next wal1 (entry : string -> Entry) :
  (0 < max)%Z -> Parse fromToken = Ok old ->
  (exists start, FromParts (old - GetExpirationDuration * 2)%Z = Ok start /\
     KeysPrefix start "" "" (Z.to_nat (Z.min max maxEntriesPerList)) wal = (Ok (tokens, next), wal1)) ->
  objects wal1 = objects wal -> NoDup tokens -> order tokens ≡ₚ tokens -> 0 < fuel ->
  (forall t, t ∈ tokens -> Token (entry t) = t /\ readable wal t (entry t)) ->
  runs (ListEntries (T := T) Parse FromParts fuel order pos fromToken max) (mu, wal) (fun out s' =>
    out.2 = next /\ out.1 ≡ₚ entry <$> tokens /\ StronglySorted bytes_le (key <$> out.1) /\ objects s'.2 = objects wal).
Proof.
  intros Hmax HP (start & HF & HK) Ho Hnd Hord Hfuel Htok. unfold ListEntries. destruct (Z.leb_spec max 0); [lia|].
  apply runs_bind, runs_attempt. eapply runs_eq; [by apply (ListTokens_eq fromToken max mu wal old start)|].
  destruct tokens as [|t0 tokens0] eqn:Et; [apply runs_ret; split_and!; [done|done|constructor|done]|]. rewrite <- Et in *.
  rewrite decide_False by (rewrite Et; done). assert (Hin : forall t, t ∈ order tokens <-> t ∈ tokens) by (intros t; by rewrite Hord).
  apply runs_bind. eapply runs_mono; [apply (issue_runs fuel entry Hfuel)|].
  { intros t Ht%Hin. unfold readable. rewrite Ho. by apply Htok. }
  intros ms [mu2 wal2] [-> Ho2]. set (es := entry <$> order tokens).
  assert (Hes : es ≡ₚ entry <$> tokens) by (unfold es; by rewrite Hord).
  assert (length es = length tokens) as Hlen by (by rewrite Hes, length_fmap).
  assert (Token <$> es ≡ₚ tokens) as Htk.
  { unfold es. rewrite <- Hord at 2. rewrite <- list_fmap_compose. rewrite <- (list_fmap_id (order tokens)) at 2. apply Permutation_refl'.
    apply list_fmap_ext. intros i t Ht%list_elem_of_lookup_2. apply Htok. by apply Hin. }
  destruct (collect_complete es pos) as (l & El & Hl & Hs); [by rewrite Htk|intros H'; rewrite H', Et in Hlen; done|].
  rewrite Hlen in El. apply runs_bind. eapply runs_lift; [exact El|]. cbv beta iota.
  rewrite decide_False by (rewrite Hl, Hlen; tauto). apply runs_ret. cbn in *. split_and!; [done|by rewrite Hl|done|congruence].
Qed.

(** A reader that reports the end of its content in a call of its own, as
    files do. *)

Definition ends_alone : Prop := forall t rem room, blob_read t rem room = if decide (rem = 0) then (0, REOF) else (rem `min` room, RNil).

Lemma read_loop_empty fuel : ends_alone -> forall t rem, length rem < fuel -> read_loop fuel t rem = Some [].
Proof.
  intros He. induction fuel as [|fuel IH]; intros t rem Hl; [lia|]. cbn [read_loop]. rewrite He. case_decide as Hr; [by destruct rem|].
  apply IH. rewrite length_drop. lia.
Qed.

(** Every entry is then the one of the empty document. *)

Lemma issue_empty fuel e : ends_alone -> Unmarshal [] = Ok e -> forall ts (mu wal : S),
  (forall t, t ∈ ts -> exists b, objects wal !! t = Some b /\ length b < fuel) ->
  runs (issueParallelReads fuel ts) (mu, wal) (fun ms s' => ms = replicate (length ts) (MEntry e) /\ objects s'.2 = objects wal).
Proof.
  intros He Hu. induction ts as [|t ts IH]; intros mu wal Hts; [by apply runs_ret|].
  destruct (Hts t) as (b & Hb & Hl); [by left|]. cbn [issueParallelReads]. apply runs_bind. unfold read.
  apply runs_bind, runs_attempt, runs_wal. eapply runs_Get; [exact Hb|]. intros w1 Ho1. rewrite (read_loop_empty fuel He) by done. unfold UnmarshalWAL. rewrite Hu.
  apply runs_ret, runs_bind. eapply runs_mono; [apply IH|].
  - intros t' Ht'. rewrite Ho1. apply Hts. by right.
  - intros ms [mu' w'] [-> Ho']. apply runs_ret. cbn in *. split; [done|congruence].
Qed.

(** The collector panics at the second entry of a token. *)

Lemma collect_twice e n total pos : 2 <= n -> n = total ->
  collectParallelResponses (take pos (replicate n (MEntry e)) ++ MCount total :: drop pos (replicate n (MEntry e))) (mkCollector r_New 0 0) =
    Panic ("Received more than one response for token: " +:+ Token e +:+ " string: " +:+ Payload e).
Proof.
  intros Hn <-. destruct n as [|[|n]]; [lia..|].
  destruct pos as [|[|pos]]; cbn -[decide];
    repeat first [rewrite r_Get_New | rewrite r_Get_Insert | progress cbn -[decide] | rewrite decide_False by (cbn; lia)]; done.
Qed.

(** With a store whose readers report the end of an object after its last
    bytes, ListEntries of two tokens or more panics, whatever the objects are:
    every entry is read as the empty document, and the second one has the token
    of the first. *)
Theorem ListEntries_panics fuel order pos fromToken max (mu wal : S) old tokens next wal1 e :
  ends_alone -> Unmarshal [] = Ok e -> (0 < max)%Z -> Parse fromToken = Ok old ->
  (exists start, FromParts (old - GetExpirationDuration * 2)%Z = Ok start /\
     KeysPrefix start "" "" (Z.to_nat (Z.min max maxEntriesPerList)) wal = (Ok (tokens, next), wal1)) ->
  objects wal1 = objects wal -> order tokens ≡ₚ tokens -> 2 <= length tokens ->
  (forall t, t ∈ tokens -> exists b, objects wal !! t = Some b /\ length b < fuel) ->
  (ListEntries (T := T) Parse FromParts fuel order pos fromToken max (mu, wal)).1 =
    Panic ("Received more than one response for token: " +:+ Token e +:+ " string: " +:+ Payload e).
Proof.
  intros He Hu Hmax HP (start & HF & HK) Ho Hord H2 Htok.
  destruct (issue_empty fuel e He Hu (order tokens) mu wal1) as (ms & [mu2 wal2] & Ei & -> & _).
  { intros t Ht. rewrite Ho. apply Htok. by rewrite <- Hord. }
  unfold ListEntries, attempt. destruct (Z.leb_spec max 0); [lia|].
  unfold mbind, M_bind. erewrite (ListTokens_eq fromToken max mu wal); [|done..].
  cbv beta iota. rewrite decide_False by lia. rewrite Ei. unfold lift. rewrite collect_twice; [done|by rewrite Hord..].
Qed.

End listings.

(** ** A concrete log *)

Section witness.

#[local] Existing Instance numbered_yaml.

(** A reader that delivers an object and its end together, and one that reports
    the end in a call of its own. *)

Definition at_once : BlobReader := fun _ rem room => (rem `min` room, if decide (rem <= room) then REOF else RNil).

Definition in_two : BlobReader := fun _ rem room => if decide (rem = 0) then (0, REOF) else (rem `min` room, RNil).

Definition logged (t : string) : Entry := mkEntry t ("p" +:+ t).

Definition a_log : gmap string bytes :=
  {[ "t1" := put_positive (encode (logged "t1")); "t2" := put_positive (encode (logged "t2")) ]}.

Definition an_age (t : string) : res Time.Time := Ok 5%Z.

Definition a_start (t : Time.Time) : res string := Ok "".

Lemma ListEntries_correct_witness :
  runs (ListEntries (T := gmap bytes) (HB := at_once) an_age a_start 1 (fun l => reverse l) 1 "t0" 10) (∅, a_log) (fun out s' =>
    out.2 = "" /\ out.1 ≡ₚ logged <$> ["t1"; "t2"] /\
    StronglySorted bytes_le ((fun e => String.list_byte_of_string (Token e)) <$> out.1) /\ objects s'.2 = objects a_log).
Proof.
  apply (ListEntries_correct (T := gmap bytes) (HB := at_once) an_age a_start 1 (fun l => reverse l) 1 "t0" 10 ∅ a_log 5%Z ["t1"; "t2"] "" a_log logged);
    [lia|done|exists ""; split; [done|vm_compute; reflexivity]|done|repeat (constructor; [set_solver|]); constructor|apply reverse_Permutation|lia|].
  intros t [->|[->|[]%elem_of_nil]%elem_of_cons]%elem_of_cons; (split; [done|]);
    (eexists; split; [vm_compute; reflexivity|split; vm_compute; reflexivity]).
Defined.

Definition a_codec : Yaml Entry := {|
  Marshal e := Marshal (Yaml := numbered_yaml) e;
  Unmarshal b := match b with [] => Ok (mkEntry "" "") | _ => Unmarshal (Yaml := numbered_yaml) b end
|}.

Lemma ListEntries_panics_witness :
  (ListEntries (HY := a_codec) (T := gmap bytes) (HB := in_two) an_age a_start 1000 (fun l => reverse l) 1 "t0" 10 ((∅ : gmap string bytes), a_log)).1 =
    Panic "Received more than one response for token:  string: ".
Proof.
  apply (ListEntries_panics (HY := a_codec) (T := gmap bytes) (HB := in_two) an_age a_start 1000 (fun l => reverse l) 1 "t0" 10 ∅ a_log 5%Z ["t1"; "t2"] "" a_log
    (mkEntry "" "")); [done|done|lia|done|exists ""; split; [done|vm_compute; reflexivity]|done|apply reverse_Permutation|cbn; lia|].
  intros t [->|[->|[]%elem_of_nil]%elem_of_cons]%elem_of_cons; (eexists; split; [vm_compute; reflexivity|vm_compute; lia]).
Defined.

End witness.

End Wal.
