(* ===== verification/CoreIndex.v ===== *)
(** * Index files (pkg/core: index.go, index_iterators.go, bundle_pack.go)

    The file entries of a bundle or of a split are kept in index files of at
    most [entriesPerFile] entries. [pack] receives entries from a channel and
    uploads the index files as they fill up; [downloadAll] starts one download
    per index file and [unpack] forwards their results in the order in which
    they arrive. The iterators over index files are translated with the state
    they share: the inner iterator of a series of splits looks its split up in
    the outer iterator when it is advanced. *)

From S2P Require Import Prelude GoLib Errors Storage Model ModelPaths CoreMeta.

Module CoreIndex.
Import Model Storage CoreMeta.

Record filePacked : Type := mkFilePacked {
  fp_hash : string;
  fp_name : string;
  fp_keys : bytes;
  fp_size : Z;
  fp_duplicate : bool;
  fp_idx : Z;
  fp_snapshot : Time.Time
}.

Definition filePacked2BundleEntry (packedFile : filePacked) : BundleEntry :=
  mkBundleEntry (fp_hash packedFile) (fp_name packedFile) 0 (fp_size packedFile) (fp_snapshot packedFile).

Definition defaultBundleEntriesPerFile : nat := 1000.

(** ** The iterators *)

Inductive patherIterator : Type :=
| downloadBundleIterator (repoID : string) (bundle : BundleDescriptor) (iterated : bool)
| uploadBundleIterator (repoID : string) (bundle : BundleDescriptor) (iterated : bool)
| downloadAllSplitsIterator (repoID diamondID : string) (splits : list SplitDescriptor) (i : nat)
| downloadSplitIterator (repoID diamondID : string) (split : SplitDescriptor) (iterated : bool)
| uploadSplitIterator (repoID diamondID : string) (split : SplitDescriptor) (iterated : bool).

(** The closure an inner iterator holds: it reads the state the outer iterator
    has when it is called. *)

Definition pather : Type := patherIterator -> N -> res string.

Inductive indexIterator : Type :=
| downloadIndexIterator (i max : N) (p : pather)
| uploadIndexIterator (i : N) (p : pather).

Definition newDownloadIndexIterator (max : N) (p : pather) : indexIterator := downloadIndexIterator 0 max p.

Definition newUploadIndexIterator (p : pather) : indexIterator := uploadIndexIterator 0 p.

(** Next of an indexIterator; the empty string ends the series. *)

Definition index_Next (outer : patherIterator) (it : indexIterator) : res string * indexIterator :=
  match it with
  | downloadIndexIterator i max p =>
      if (max <=? i)%N then (Ok "", it) else (p outer i, downloadIndexIterator (i + 1) max p)
  | uploadIndexIterator i p => (p outer i, uploadIndexIterator (i + 1) p)
  end.

Definition bundle_pather (repoID bundleID : string) : pather := fun _ index =>
  Ok (GetArchivePathToBundleFileList repoID bundleID index).

Definition split_pather (repoID diamondID splitID generationID : string) : pather := fun _ index =>
  Ok (GetArchivePathToSplitFileList repoID diamondID splitID generationID index).

(** sp.splits[sp.i-1], where sp is the outer iterator. *)

Definition all_splits_pather : pather := fun outer index =>
  match outer with
  | downloadAllSplitsIterator repoID diamondID splits (S i) =>
      match splits !! i with
      | Some sd => Ok (GetArchivePathToSplitFileList repoID diamondID (sd_SplitID sd) (sd_GenerationID sd) index)
      | None => Panic "index out of range"
      end
  | _ => Panic "index out of range"
  end.

(** Next of a patherIterator. *)

Definition pather_Next (it : patherIterator) : option (string * indexIterator) * patherIterator :=
  match it with
  | downloadBundleIterator repoID bundle iterated =>
      if iterated then (None, it)
      else (Some (bd_ID bundle, newDownloadIndexIterator (bd_BundleEntriesFileCount bundle) (bundle_pather repoID (bd_ID bundle))),
            downloadBundleIterator repoID bundle true)
  | uploadBundleIterator repoID bundle iterated =>
      if iterated then (None, it)
      else (Some (bd_ID bundle, newUploadIndexIterator (bundle_pather repoID (bd_ID bundle))),
            uploadBundleIterator repoID bundle true)
  | downloadAllSplitsIterator repoID diamondID splits i =>
      match splits !! i with
      | None => (None, it)
      | Some sd => (Some (sd_SplitID sd, newDownloadIndexIterator (sd_SplitEntriesFileCount sd) all_splits_pather),
                    downloadAllSplitsIterator repoID diamondID splits (i + 1))
      end
  | downloadSplitIterator repoID diamondID split iterated =>
      if iterated then (None, it)
      else (Some (sd_SplitID split, newDownloadIndexIterator (sd_SplitEntriesFileCount split)
                    (split_pather repoID diamondID (sd_SplitID split) (sd_GenerationID split))),
            downloadSplitIterator repoID diamondID split true)
  | uploadSplitIterator repoID diamondID split iterated =>
      if iterated then (None, it)
      else (Some (sd_SplitID split, newUploadIndexIterator
                    (split_pather repoID diamondID (sd_SplitID split) (sd_GenerationID split))),
            uploadSplitIterator repoID diamondID split true)
  end.

Definition newDownloadBundleIterator (repo : string) (bundle : BundleDescriptor) : patherIterator :=
  downloadBundleIterator repo bundle false.

Definition newUploadBundleIterator (repo : string) (bundle : BundleDescriptor) : patherIterator :=
  uploadBundleIterator repo bundle false.

Definition newDownloadAllSplitsIterator (repo diamondID : string) (splits : list SplitDescriptor) : patherIterator :=
  downloadAllSplitsIterator repo diamondID splits 0.

Definition newDownloadSplitIterator (repo diamondID : string) (split : SplitDescriptor) : patherIterator :=
  downloadSplitIterator repo diamondID split false.

Definition newUploadSplitIterator (repo diamondID : string) (split : SplitDescriptor) : patherIterator :=
  uploadSplitIterator repo diamondID split false.

(** ** fileIndex *)

(** A download started by downloadAll. *)

Record job : Type := mkJob {
  j_id : string;
  j_pth : string;
  j_index : N
}.

Record bundleEntriesRes : Type := mkRes {
  bundleEntries : list BundleEntry;
  idx : N;
  id : string
}.

(** The inner loop of downloadAll. *)

Fixpoint series_loop (fuel : nat) (outer : patherIterator) (id : string) (it : indexIterator) (i : N)
    : option (res (list job)) :=
  match fuel with
  | O => None
  | S fuel' =>
      match index_Next outer it with
      | (Ok pth, it') =>
          if decide (pth = "") then Some (Ok [])
          else match series_loop fuel' outer id it' (i + 1) with
               | Some (Ok js) => Some (Ok (mkJob id pth i :: js))
               | x => x
               end
      | (Err e, _) => Some (Err e)
      | (Panic p, _) => Some (Panic p)
      end
  end.

(** The two loops: the downloads started, in the order of their start. *)

Fixpoint downloadAll (fuel : nat) (outer : patherIterator) : option (res (list job)) :=
  match fuel with
  | O => None
  | S fuel' =>
      match pather_Next outer with
      | (None, _) => Some (Ok [])
      | (Some (id, it), outer') =>
          match series_loop fuel outer' id it 0 with
          | Some (Ok js) =>
              match downloadAll fuel' outer' with
              | Some (Ok js') => Some (Ok (js ++ js'))
              | x => x
              end
          | x => x
          end
      end
  end.

Section fileIndex.
Context {S : Type} `{HS : !Store S} {HY : Yaml (list BundleEntry)}.

Definition uploadIndex (fileList : list BundleEntry) (pth : string) : M S unit :=
  buffer ← lift (Marshal fileList); writeMetadata pth NoOverWrite buffer.

Definition getIndexFile (pth : string) : M S (list BundleEntry) :=
  buffer ← readMetadata pth; lift (Unmarshal buffer).

Definition downloadIndex (j : job) : M S bundleEntriesRes :=
  entries ← getIndexFile (j_pth j); mret (mkRes entries (j_index j) (j_id j)).

(** unpack receives the results of the downloads in the order [order] and
    forwards them to the output channel, until the first error. *)

Fixpoint unpack (order : list job) : M (S * list bundleEntriesRes) unit := fun '(s, output) =>
  match order with
  | [] => (Ok tt, (s, output))
  | j :: order' =>
      match downloadIndex j s with
      | (Ok r, s') => unpack order' (s', output ++ [r])
      | (Err e, s') => (Err e, (s', output))
      | (Panic p, s') => (Panic p, (s', output))
      end
  end.

(** How the input of pack ends: the channel is closed, the done signal is
    sent, or a worker reports an error. *)

Inductive pack_end : Type :=
| InputClosed
| DoneOk
| ErrorHit (e : error).

(** The loop of pack; a file comes with the time at which it is received. On
    an error of the upload the count goes with it. *)

Fixpoint pack_loop (entriesPerFile : nat) (outer : patherIterator) (input : list (filePacked * Time.Time))
    (fin : pack_end) (fileList : list BundleEntry) (uploadPather : indexIterator) (count : N)
    : M S (N * option error) :=
  let upload l (k : indexIterator -> M S (N * option error)) :=
    let '(pth, uploadPather') := index_Next outer uploadPather in
    p ← lift pth;
    r ← attempt (uploadIndex l p);
    match r with inr err => mret (count, Some err) | inl _ => k uploadPather' end in
  match input with
  | (file, now) :: input' =>
      let e := filePacked2BundleEntry file in
      let entry := mkBundleEntry (Hash e) (NameWithPath e) (FileMode e) (be_Size e) now in
      let fileList := fileList ++ [entry] in
      if decide (length fileList = entriesPerFile)
      then upload fileList (fun it => pack_loop entriesPerFile outer input' fin [] it (count + 1)%N)
      else pack_loop entriesPerFile outer input' fin fileList uploadPather count
  | [] =>
      match fin with
      | ErrorHit e => mret (count, Some e)
      | _ =>
          if decide (fileList = []) then mret (count, None)
          else upload fileList (fun _ => mret ((count + 1)%N, None))
      end
  end.

Definition pack (entriesPerFile : nat) (indexPather : patherIterator) (input : list (filePacked * Time.Time))
    (fin : pack_end) : M S (N * option error) :=
  match pather_Next indexPather with
  | (None, _) => mret (0%N, None)
  | (Some (_, uploadPather), outer) => pack_loop entriesPerFile outer input fin [] uploadPather 0
  end.

End fileIndex.

(** ** The entries in chunks *)

Lemma bind_concat {A B} (f : A -> list B) l : mbind f l = concat (f <$> l).
Proof. induction l as [|x l IH]; [done|]. rewrite bind_cons, IH. done. Qed.

Section chunks.
Context {A : Type}.

Definition chunk_at (n : nat) (l : list A) (i : nat) : list A := take n (drop (i * n) l).

Definition nchunks (n : nat) (l : list A) : nat := (length l + n - 1) / n.

Lemma chunk_at_0 n (a l : list A) : length a = n -> chunk_at n (a ++ l) 0 = a.
Proof. intros H. unfold chunk_at. simpl. by apply take_app_length'. Qed.

Lemma chunk_at_S n (a l : list A) i : length a = n -> chunk_at n (a ++ l) (S i) = chunk_at n l i.
Proof.
  intros H. unfold chunk_at. rewrite drop_app_ge by (simpl; lia). do 2 f_equal. simpl. lia.
Qed.

Lemma nchunks_app n (a l : list A) : 0 < n -> length a = n -> nchunks n (a ++ l) = S (nchunks n l).
Proof.
  intros Hn H. unfold nchunks. rewrite length_app, H.
  replace (n + length l + n - 1) with (length l + n - 1 + 1 * n) by lia. rewrite Nat.div_add by lia. lia.
Qed.

Lemma nchunks_small n (l : list A) : length l < n -> nchunks n l = if decide (length l = 0) then 0 else 1.
Proof.
  intros H. unfold nchunks. case_decide.
  - apply Nat.div_small. lia.
  - symmetry. apply (Nat.div_unique _ _ 1 (length l - 1)); lia.
Qed.

(** The chunks, in order, are the list. *)

Lemma chunks_from n (l : list A) k :
  0 < n -> forall i, i + k = nchunks n l -> concat (chunk_at n l <$> seq i k) = drop (i * n) l.
Proof.
  intros Hn. induction k as [|k IH]; intros i Hi.
  - simpl. symmetry. apply drop_ge. unfold nchunks in Hi.
    pose proof (Nat.div_mod (length l + n - 1) n). pose proof (Nat.mod_upper_bound (length l + n - 1) n). nia.
  - cbn [seq fmap list_fmap concat]. rewrite IH by lia. unfold chunk_at.
    replace (S i * n) with (i * n + n) by lia. rewrite <- drop_drop. apply take_drop.
Qed.

Lemma chunks_concat n (l : list A) : 0 < n -> concat (chunk_at n l <$> seq 0 (nchunks n l)) = l.
Proof. intros Hn. by rewrite (chunks_from n l (nchunks n l)). Qed.

End chunks.

(** ** Index files under construction

    [es] are the entries received so far: the full index files are written, the
    other entries are in [fileList]. *)

Section sliced.
Context {S : Type} `{HS : !Store S, HSL : !StoreLaws S} {HY : Yaml (list BundleEntry)}.
Variables (n : nat) (path : nat -> string) (s0 : S).
Hypothesis n_pos : 0 < n.
Hypothesis path_inj : forall i j, path i = path j -> i = j.

Definition sliced (s : S) (fileList es : list BundleEntry) : Prop :=
  let q := length es / n in
  fileList = drop (q * n) es /\
  (forall j, j < q -> document s (path j) (chunk_at n es j)) /\
  (forall j, q <= j -> objects s !! path j = None) /\
  (forall p, (forall j, j < q -> p <> path j) -> objects s !! p = objects s0 !! p).

(** All entries are written. *)

Definition sliced_all (s : S) (es : list BundleEntry) : Prop :=
  (forall j, j < nchunks n es -> document s (path j) (chunk_at n es j)) /\
  (forall p, (forall j, j < nchunks n es -> p <> path j) -> objects s !! p = objects s0 !! p).

(** The store [s'] is [s] with the index file [l] at [path q]. *)

Definition index_added (q : nat) (l : list BundleEntry) (s s' : S) : Prop :=
  document s' (path q) l /\ forall p, p <> path q -> objects s' !! p = objects s !! p.

Lemma chunk_at_snoc (es : list BundleEntry) e j : j < length es / n -> chunk_at n (es ++ [e]) j = chunk_at n es j.
Proof using n_pos.
  intros Hj. unfold chunk_at. pose proof (Nat.div_mod (length es) n ltac:(lia)) as Hd.
  assert (j * n + n <= length es) by nia. rewrite drop_app_le by lia. rewrite take_app_le; [done|]. rewrite length_drop. lia.
Qed.

Lemma full_chunk (es : list BundleEntry) : length (drop (length es / n * n) es) = length es mod n.
Proof using n_pos. rewrite length_drop. pose proof (Nat.div_mod (length es) n ltac:(lia)). lia. Qed.

Lemma sliced_start s : objects s = objects s0 -> (forall j, objects s0 !! path j = None) -> sliced s [] [].
Proof using Type. clear n_pos path_inj. intros Ho Hf. unfold sliced. cbn [length]. rewrite Nat.Div0.div_0_l. split_and!; [done|lia|intros j _; by rewrite Ho|intros p _; by rewrite Ho]. Qed.

Lemma sliced_free s fileList es : sliced s fileList es -> objects s !! path (length es / n) = None.
Proof. intros (_ & _ & Hf & _). by apply Hf. Qed.

(** One more entry. *)

Lemma sliced_add s fileList es e : sliced s fileList es ->
  if decide (length (fileList ++ [e]) = n)
  then length (es ++ [e]) / n = length es / n + 1 /\ forall s', index_added (length es / n) (fileList ++ [e]) s s' -> sliced s' [] (es ++ [e])
  else length (es ++ [e]) / n = length es / n /\ sliced s (fileList ++ [e]) (es ++ [e]).
Proof using n_pos path_inj.
  intros (-> & Hd & Hf & Hp).
  pose proof (Nat.div_mod (length es) n ltac:(lia)) as Hdm. pose proof (Nat.mod_upper_bound (length es) n ltac:(lia)) as Hm.
  pose proof (full_chunk es) as Hlen. set (q := length es / n) in *. set (r := length es mod n) in *.
  rewrite !length_app, Hlen. cbn [length].
  assert (Hdrop : drop (q * n) es ++ [e] = drop (q * n) (es ++ [e])) by (rewrite drop_app_le by lia; done).
  case_decide as Hn.
  - assert (Hq : (length es + 1) / n = q + 1) by (symmetry; apply (Nat.div_unique _ n (q + 1) 0); lia).
    split; [done|]. intros s' [Hdoc Hother]. unfold sliced. rewrite length_app. cbn [length]. rewrite Hq. split_and!.
    + rewrite drop_ge; [done|]. rewrite length_app. cbn [length]. lia.
    + intros j Hj. destruct (decide (j = q)) as [->|Hne].
      * unfold chunk_at. rewrite <- Hdrop, take_ge; [done|]. rewrite length_app, Hlen. cbn [length]. lia.
      * rewrite chunk_at_snoc by (fold q; lia). eapply document_objects; [|apply Hd; lia]. apply Hother. intros H%path_inj. lia.
    + intros j Hj. rewrite Hother by (intros H%path_inj; lia). apply Hf. lia.
    + intros p Hpj. rewrite Hother by (apply Hpj; lia). apply Hp. intros j Hj. apply Hpj. lia.
  - assert (Hq : (length es + 1) / n = q) by (symmetry; apply (Nat.div_unique _ n q (r + 1)); lia).
    split; [done|]. unfold sliced. rewrite length_app. cbn [length]. rewrite Hq. split_and!; [done| |done|done].
    intros j Hj. rewrite chunk_at_snoc by (fold q; lia). by apply Hd.
Qed.

(** The last index file. *)

Lemma sliced_end s fileList es : sliced s fileList es ->
  if decide (length fileList <> 0)
  then nchunks n es = length es / n + 1 /\ forall s', index_added (length es / n) fileList s s' -> sliced_all s' es
  else nchunks n es = length es / n /\ sliced_all s es.
Proof using n_pos path_inj.
  intros (-> & Hd & Hf & Hp).
  pose proof (Nat.div_mod (length es) n ltac:(lia)) as Hdm. pose proof (Nat.mod_upper_bound (length es) n ltac:(lia)) as Hm.
  rewrite full_chunk. set (q := length es / n) in *. set (r := length es mod n) in *. unfold sliced_all, nchunks.
  case_decide as Hr.
  - assert (Hq : (length es + n - 1) / n = q + 1) by (symmetry; apply (Nat.div_unique _ n (q + 1) (r - 1)); lia).
    rewrite Hq. split; [done|]. intros s' [Hdoc Hother]. split.
    + intros j Hj. destruct (decide (j = q)) as [->|Hne].
      * unfold chunk_at. rewrite take_ge; [done|]. unfold q. rewrite full_chunk. fold r. lia.
      * eapply document_objects; [|apply Hd; lia]. apply Hother. intros H%path_inj. lia.
    + intros p Hpj. rewrite Hother by (apply Hpj; lia). apply Hp. intros j Hj. apply Hpj. lia.
  - assert (Hq : (length es + n - 1) / n = q) by (symmetry; apply (Nat.div_unique _ n q (n - 1)); lia). by rewrite Hq.
Qed.

End sliced.

(** ** Uploading *)

Section upload.
Context {S : Type} `{HS : !Store S, HSL : !StoreLaws S, HR : !ReliableStore S}.
Context {HY : Yaml (list BundleEntry)} {HYL : YamlLaws (list BundleEntry)}.
Variables (n : nat) (outer : patherIterator) (p : pather) (path : N -> string).
Hypothesis n_pos : 0 < n.
Hypothesis p_path : forall i, p outer i = Ok (path i).
Hypothesis path_inj : Inj (=) (=) path.

(** The entry for a file received at a time. *)

Definition entry_of (x : filePacked * Time.Time) : BundleEntry :=
  mkBundleEntry (fp_hash x.1) (fp_name x.1) 0 (fp_size x.1) x.2.

(** The number of index files written. *)

Definition written (fin : pack_end) (l : list BundleEntry) : nat :=
  match fin with ErrorHit _ => length l / n | _ => nchunks n l end.

Definition end_error (fin : pack_end) : option error :=
  match fin with ErrorHit e => Some e | _ => None end.

Lemma written_app fin a l : length a = n -> written fin (a ++ l) = Datatypes.S (written fin l).
Proof.
  intros H. unfold written. destruct fin; [by apply nchunks_app..|].
  rewrite length_app, H. replace (n + length l) with (length l + 1 * n) by lia. rewrite Nat.div_add by lia. lia.
Qed.

Lemma uploadIndex_ok l i s :
  objects s !! path i = None ->
  exists s', uploadIndex l (path i) s = (Ok tt, s') /\ document s' (path i) l /\
    (forall q, q <> path i -> objects s' !! q = objects s !! q).
Proof. apply (write_document_ok (path i) l s). Qed.

(** The end of the input: the last, partial index file. *)

Lemma pack_end_spec fin fl count s :
  length fl < n -> (forall i, (count <= i)%N -> objects s !! path i = None) ->
  exists s', pack_loop n outer [] fin fl (uploadIndexIterator count p) count s =
      (Ok ((count + N.of_nat (written fin fl))%N, end_error fin), s') /\
    (forall j, j < written fin fl -> document s' (path (count + N.of_nat j)) (chunk_at n fl j)) /\
    (forall q, (forall j, j < written fin fl -> q <> path (count + N.of_nat j)%N) -> objects s' !! q = objects s !! q).
Proof.
  intros Hlen Hfree.
  assert (written fin fl = 0 /\ pack_loop n outer [] fin fl (uploadIndexIterator count p) count = mret (count, end_error fin) \/
    written fin fl = 1 /\ end_error fin = None /\ pack_loop n outer [] fin fl (uploadIndexIterator count p) count =
      (r ← attempt (uploadIndex fl (path count));
       match r with inr err => mret (count, Some err) | inl _ => mret ((count + 1)%N, None) end))
    as [[Hw ->]|(Hw & He & ->)].
  { cbn [pack_loop index_Next]. rewrite p_path. destruct fin as [| |e]; simpl.
    - rewrite (nchunks_small n fl Hlen). destruct fl; [left|right]; done.
    - rewrite (nchunks_small n fl Hlen). destruct fl; [left|right]; done.
    - left. split; [by apply Nat.div_small|done]. }
  - exists s. rewrite Hw, N.add_0_r. split_and!; [done|lia|done].
  - destruct (uploadIndex_ok fl count s (Hfree _ (N.le_refl _))) as (s' & E & Hd & Hq). exists s'.
    rewrite Hw, He. split_and!.
    + unfold attempt, mbind, M_bind. by rewrite E.
    + intros j Hj. assert (j = 0) as -> by lia. rewrite N.add_0_r.
      unfold chunk_at. cbn [Nat.mul]. rewrite drop_0, (take_ge fl n) by lia. done.
    + intros q Hne. apply Hq. specialize (Hne 0 ltac:(lia)). by rewrite N.add_0_r in Hne.
Qed.

Lemma pack_loop_spec fin input : forall fileList count s,
  length fileList < n -> (forall i, (count <= i)%N -> objects s !! path i = None) ->
  let all := fileList ++ (entry_of <$> input) in
  exists s', pack_loop n outer input fin fileList (uploadIndexIterator count p) count s =
      (Ok ((count + N.of_nat (written fin all))%N, end_error fin), s') /\
    (forall j, j < written fin all -> document s' (path (count + N.of_nat j)) (chunk_at n all j)) /\
    (forall q, (forall j, j < written fin all -> q <> path (count + N.of_nat j)%N) -> objects s' !! q = objects s !! q).
Proof.
  induction input as [|[file now] input IH]; intros fl count s Hlen Hfree all.
  - cbn [fmap list_fmap] in all. unfold all. clear all. rewrite app_nil_r.
    by apply pack_end_spec.
  - cbn [fmap list_fmap] in all. cbn [pack_loop]. change (mkBundleEntry _ _ _ _ now) with (entry_of (file, now)).
    assert (all = (fl ++ [entry_of (file, now)]) ++ (entry_of <$> input)) as Hall by (unfold all; by rewrite <- app_assoc).
    clearbody all. subst all. case_decide as Hfull.
    + destruct (uploadIndex_ok (fl ++ [entry_of (file, now)]) count s (Hfree _ (N.le_refl _))) as (s1 & E & Hd & Hq).
      destruct (IH [] (count + 1)%N s1) as (s' & E' & Hd' & Hq').
      { simpl. lia. }
      { intros i Hi. rewrite Hq; [apply Hfree; lia|]. intros ?%(inj path). lia. }
      cbn [app] in *. exists s'. rewrite written_app by done. split_and!.
      * cbn [index_Next]. rewrite p_path. unfold attempt, lift, mbind, M_bind. rewrite E. rewrite E'. do 3 f_equal. lia.
      * intros [|j] Hj.
        -- rewrite chunk_at_0, N.add_0_r by done. eapply document_objects; [|exact Hd]. apply Hq'.
           intros j _ ?%(inj path). lia.
        -- rewrite chunk_at_S by done. replace (count + N.of_nat (Datatypes.S j))%N with (count + 1 + N.of_nat j)%N by lia.
           apply Hd'. lia.
      * intros q Hne. rewrite Hq', Hq; [done| |].
        -- specialize (Hne 0 ltac:(lia)). by rewrite N.add_0_r in Hne.
        -- intros j Hj. specialize (Hne (Datatypes.S j) ltac:(lia)).
           by replace (count + N.of_nat (Datatypes.S j))%N with (count + 1 + N.of_nat j)%N in Hne by lia.
    + apply (IH (fl ++ [entry_of (file, now)]) count s); [|done]. rewrite length_app in *. simpl in *. lia.
Qed.

End upload.

(** ** Downloading *)

Definition series_jobs (id : string) (path : N -> string) (count : N) : list job :=
  (fun k => mkJob id (path (N.of_nat k)) (N.of_nat k)) <$> seq 0 (N.to_nat count).

Lemma series_loop_spec outer id max p path fuel :
  (forall i, p outer i = Ok (path i)) -> (forall i, path i <> "") -> forall i,
  (i <= max)%N -> N.to_nat (max - i) < fuel ->
  series_loop fuel outer id (downloadIndexIterator i max p) i =
    Some (Ok ((fun k => mkJob id (path (N.of_nat k)) (N.of_nat k)) <$> seq (N.to_nat i) (N.to_nat (max - i)))).
Proof.
  intros Hp Hne. induction fuel as [|fuel IH]; intros i Hi Hf; [lia|]. cbn [series_loop index_Next].
  destruct (N.leb_spec max i).
  - replace (max - i)%N with 0%N by lia. by rewrite decide_True.
  - rewrite Hp, decide_False by apply Hne. rewrite IH by lia.
    replace (N.to_nat (max - i)) with (S (N.to_nat (max - (i + 1)))) by lia. cbn [seq fmap list_fmap].
    rewrite N2Nat.id. replace (N.to_nat (i + 1)) with (S (N.to_nat i)) by lia. done.
Qed.

Lemma series_jobs_spec outer id max p path fuel :
  (forall i, p outer i = Ok (path i)) -> (forall i, path i <> "") -> N.to_nat max < fuel ->
  series_loop fuel outer id (newDownloadIndexIterator max p) 0 = Some (Ok (series_jobs id path max)).
Proof.
  intros Hp Hne Hf. unfold newDownloadIndexIterator. erewrite (series_loop_spec _ _ _ _ path); [|done|done|lia|lia].
  by rewrite N.sub_0_r.
Qed.

Definition split_path (repo diamondID : string) (sd : SplitDescriptor) : N -> string :=
  GetArchivePathToSplitFileList repo diamondID (sd_SplitID sd) (sd_GenerationID sd).

Definition split_jobs (repo diamondID : string) (sd : SplitDescriptor) : list job :=
  series_jobs (sd_SplitID sd) (split_path repo diamondID sd) (sd_SplitEntriesFileCount sd).

(** Enough fuel for the loops over the splits. *)

Definition splits_fuel (splits : list SplitDescriptor) : nat :=
  1 + length splits + sum_list ((fun sd => N.to_nat (sd_SplitEntriesFileCount sd)) <$> splits).

Lemma downloadAll_splits repo diamondID splits : forall rest i fuel,
  drop i splits = rest -> splits_fuel rest <= fuel ->
  downloadAll fuel (downloadAllSplitsIterator repo diamondID splits i) = Some (Ok (mbind (split_jobs repo diamondID) rest)).
Proof.
  unfold splits_fuel. induction rest as [|sd rest IH]; intros i fuel Hd Hf; (destruct fuel as [|fuel]; [simpl in Hf; lia|]);
    cbn [downloadAll pather_Next].
  - assert (splits !! i = None) as ->; [|done]. rewrite <- (Nat.add_0_r i), <- lookup_drop, Hd. done.
  - assert (splits !! i = Some sd) as Hi; [by rewrite <- (Nat.add_0_r i), <- lookup_drop, Hd|]. rewrite Hi.
    cbn [length fmap list_fmap sum_list] in Hf.
    rewrite (series_jobs_spec _ _ _ _ (split_path repo diamondID sd)); [| |done|simpl in Hf; lia].
    2:{ intros k. rewrite Nat.add_1_r. cbn [all_splits_pather]. by rewrite Hi. }
    rewrite (IH (i + 1)).
    + done.
    + rewrite <- drop_drop, Hd. done.
    + simpl in Hf. lia.
Qed.

Section download.
Context {S : Type} `{HS : !Store S, HSL : !StoreLaws S, HR : !ReliableStore S}.
Context {HY : Yaml (list BundleEntry)} {HYL : YamlLaws (list BundleEntry)}.

Definition contents (s : S) (pth : string) : list BundleEntry :=
  match objects s !! pth with
  | Some b => match Unmarshal b with Ok l => l | _ => [] end
  | None => []
  end.

Lemma document_contents s pth l : document s pth l -> contents s pth = l.
Proof. intros (b & Hb & Hu). unfold contents. by rewrite Hb, Hu. Qed.

Definition result_of (s : S) (j : job) : bundleEntriesRes := mkRes (contents s (j_pth j)) (j_index j) (j_id j).

Lemma result_of_objects s s' j : objects s' = objects s -> result_of s' j = result_of s j.
Proof. intros H. unfold result_of, contents. by rewrite H. Qed.

Lemma unpack_spec order : forall s out,
  (forall j, j ∈ order -> exists l, document s (j_pth j) l) ->
  exists s', unpack order (s, out) = (Ok tt, (s', out ++ (result_of s <$> order))) /\ objects s' = objects s.
Proof.
  induction order as [|j order IH]; intros s out Hdoc.
  - exists s. cbn [unpack fmap list_fmap]. by rewrite app_nil_r.
  - destruct (Hdoc j) as [l Hl]; [set_solver|]. destruct (read_document_ok _ _ _ Hl) as (s1 & E & Ho).
    destruct (IH s1 (out ++ [mkRes l (j_index j) (j_id j)])) as (s' & E' & Ho').
    { intros j' Hj'. destruct (Hdoc j') as [l' Hl']; [set_solver|]. exists l'. eapply document_objects; [by rewrite Ho|done]. }
    exists s'. split; [|congruence]. cbn [unpack]. unfold downloadIndex.
    change (getIndexFile (j_pth j)) with (read_document (S := S) (A := list BundleEntry) (j_pth j)).
    unfold mbind, M_bind at 1. rewrite E. cbn [mret M_ret]. rewrite E', <- app_assoc. cbn [app fmap list_fmap].
    replace (result_of s j) with (mkRes l (j_index j) (j_id j)) by (unfold result_of; by rewrite (document_contents _ _ _ Hl)).
    replace (result_of s1 <$> order) with (result_of s <$> order); [done|].
    apply list_fmap_ext. intros _ x _. symmetry. by apply result_of_objects.
Qed.

(** The entries of a series of index files. *)

Lemma series_documents s n id path (l : list BundleEntry) :
  0 < n -> (forall k, k < nchunks n l -> document s (path (N.of_nat k)) (chunk_at n l k)) ->
  (forall j, j ∈ series_jobs id path (N.of_nat (nchunks n l)) -> exists l', document s (j_pth j) l') /\
  mbind (fun r => bundleEntries r) (result_of s <$> series_jobs id path (N.of_nat (nchunks n l))) = l /\
  (forall r, r ∈ result_of s <$> series_jobs id path (N.of_nat (nchunks n l)) -> CoreIndex.id r = id).
Proof.
  intros Hn Hdoc. unfold series_jobs. rewrite Nat2N.id. split_and!.
  - intros j (k & -> & Hk%elem_of_seq)%list_elem_of_fmap. exists (chunk_at n l k). apply Hdoc. lia.
  - rewrite bind_concat, <- !list_fmap_compose. rewrite <- (chunks_concat n l Hn) at 2. f_equal.
    apply list_fmap_ext. intros _ k Hk%list_elem_of_lookup_2%elem_of_seq. simpl. apply document_contents, Hdoc. lia.
  - intros r (j & -> & (k & -> & _)%list_elem_of_fmap)%list_elem_of_fmap. done.
Qed.

Lemma tagged_bind sid (rs : list bundleEntriesRes) : (forall r, r ∈ rs -> id r = sid) ->
  mbind (fun r => (fun e => (id r, e)) <$> bundleEntries r) rs = (fun e => (sid, e)) <$> mbind (fun r => bundleEntries r) rs.
Proof.
  induction rs as [|r rs IH]; intros Hid; [done|]. rewrite !bind_cons, fmap_app, IH, (Hid r) by set_solver. done.
Qed.

Lemma splits_documents s n repo diamondID splits (E : SplitDescriptor -> list BundleEntry) :
  0 < n ->
  (forall sd, sd ∈ splits -> sd_SplitEntriesFileCount sd = N.of_nat (nchunks n (E sd)) /\
     forall k, k < nchunks n (E sd) -> document s (split_path repo diamondID sd (N.of_nat k)) (chunk_at n (E sd) k)) ->
  (forall j, j ∈ mbind (split_jobs repo diamondID) splits -> exists l, document s (j_pth j) l) /\
  mbind (fun r => (fun e => (id r, e)) <$> bundleEntries r) (result_of s <$> mbind (split_jobs repo diamondID) splits) =
    mbind (fun sd => (fun e => (sd_SplitID sd, e)) <$> E sd) splits.
Proof.
  intros Hn. induction splits as [|sd splits IH]; intros Hall; [split; [set_solver|done]|].
  destruct IH as [IH1 IH2]; [intros sd' Hin; apply Hall; set_solver|].
  destruct (Hall sd) as [Hc Hd]; [set_solver|].
  destruct (series_documents s n (sd_SplitID sd) _ _ Hn Hd) as (H1 & H2 & H3). rewrite <- Hc in *.
  split.
  - intros j. rewrite bind_cons. intros [Hj|Hj]%elem_of_app; [by apply H1|by apply IH1].
  - rewrite !bind_cons, fmap_app, bind_app, IH2. f_equal. fold (split_jobs repo diamondID sd) in *.
    rewrite (tagged_bind (sd_SplitID sd)) by done. by rewrite H2.
Qed.

End download.

(** ** Upload and download of one bundle or split *)

Definition bundle_with_count (b : BundleDescriptor) (c : N) : BundleDescriptor :=
  mkBundleDescriptor (bd_LeafSize b) (bd_ID b) (bd_Message b) (bd_Parents b) (bd_Timestamp b) (bd_Contributors b) c
    (bd_Version b) (bd_Deduplication b) (bd_RunStage b).

Definition split_with_count (sd : SplitDescriptor) (c : N) : SplitDescriptor :=
  mkSplitDescriptor (sd_SplitID sd) (sd_StartTime sd) (sd_EndTime sd) (sd_State sd) (sd_Contributors sd)
    (sd_GenerationID sd) c (sd_Tag sd).

(** The iterators that upload the index files of an object and, once their
    number is known, download them; with the identifier of the object and
    the paths of the files. *)

Inductive series : patherIterator -> (N -> patherIterator) -> string -> (N -> string) -> Prop :=
| bundle_series repo b :
    series (newUploadBundleIterator repo b) (fun c => newDownloadBundleIterator repo (bundle_with_count b c))
      (bd_ID b) (GetArchivePathToBundleFileList repo (bd_ID b))
| split_series repo d sd :
    series (newUploadSplitIterator repo d sd) (fun c => newDownloadSplitIterator repo d (split_with_count sd c))
      (sd_SplitID sd) (split_path repo d sd).

Lemma string_app_inv_tail (a b c : string) : a +:+ c = b +:+ c -> a = b.
Proof.
  revert b. induction a as [|x a IH]; intros [|y b] H; [done|..].
  - apply (f_equal String.length) in H. rewrite !Strings.string_app_length in H. simpl in H. lia.
  - apply (f_equal String.length) in H. rewrite !Strings.string_app_length in H. simpl in H. lia.
  - rewrite !Strings.append_cons in H. injection H as -> H. f_equal. by apply IH.
Qed.

Lemma FormatUint_yaml_inj m n : Strconv.FormatUint m +:+ ".yaml" = Strconv.FormatUint n +:+ ".yaml" -> m = n.
Proof.
  intros H%string_app_inv_tail. by apply Strconv.FormatUint_inj.
Qed.

Lemma series_paths it down id path : series it down id path -> Inj (=) (=) path /\ forall i, path i <> "".
Proof.
  intros [repo b|repo d sd]; (split; [|done]); intros m n H;
    unfold GetArchivePathToBundleFileList, split_path, GetArchivePathToSplitFileList in H;
    repeat apply Strings.string_app_inv_head in H; by apply FormatUint_yaml_inj.
Qed.

Lemma series_upload it down id path : series it down id path ->
  exists outer p, pather_Next it = (Some (id, newUploadIndexIterator p), outer) /\ forall i, p outer i = Ok (path i).
Proof. intros [repo b|repo d sd]; (do 2 eexists; split; [reflexivity|]); done. Qed.

Lemma series_download it down id path c fuel : series it down id path -> N.to_nat c + 1 < fuel ->
  downloadAll fuel (down c) = Some (Ok (series_jobs id path c)).
Proof.
  intros Hs Hf. pose proof (series_paths _ _ _ _ Hs) as [_ Hne].
  assert (exists outer p, pather_Next (down c) = (Some (id, newDownloadIndexIterator c p), outer) /\
    pather_Next outer = (None, outer) /\ forall i, p outer i = Ok (path i)) as (outer & p & E & E' & Hp).
  { destruct Hs as [repo b|repo d sd]; (do 2 eexists; split; [reflexivity|]); done. }
  destruct fuel as [|[|fuel]]; [lia..|]. cbn [downloadAll]. rewrite E, (series_jobs_spec _ _ _ _ path), E' by (done || lia).
  by rewrite app_nil_r.
Qed.

Section theorems.
Context {S : Type} `{HS : !Store S, HSL : !StoreLaws S, HR : !ReliableStore S}.
Context {HY : Yaml (list BundleEntry)} {HYL : YamlLaws (list BundleEntry)}.

(** The upload of the entries of a bundle or split, to a store that has none of
    its index files. *)

Lemma pack_run n it down id path input fin s :
  0 < n -> series it down id path -> (forall i, objects s !! path i = None) ->
  let entries := entry_of <$> input in
  let files := written n fin entries in
  exists s', pack n it input fin s = (Ok (N.of_nat files, end_error fin), s') /\
    (forall j, j < files -> document s' (path (N.of_nat j)) (chunk_at n entries j)) /\
    (forall q, (forall j, j < files -> q <> path (N.of_nat j)) -> objects s' !! q = objects s !! q).
Proof.
  intros Hn Hs Hfree entries files. destruct (series_upload _ _ _ _ Hs) as (outer & p & E & Hp).
  destruct (series_paths _ _ _ _ Hs) as [Hinj _]. unfold pack. rewrite E.
  apply (pack_loop_spec n outer p path Hn Hp Hinj fin input [] 0 s); [simpl; lia|auto].
Qed.

(** pack on a working store that has none of the index files writes the
    entries received, in order and [n] per index file, under consecutive
    numbers from 0, touches no other object, and returns the number of index
    files written: all entries when the input is closed or done, the full index
    files and the error when a worker fails. *)
Theorem pack_correct n it down id path input fin s :
  0 < n -> series it down id path -> (forall i, objects s !! path i = None) ->
  let entries := entry_of <$> input in
  let files := written n fin entries in
  exists s', pack n it input fin s = (Ok (N.of_nat files, end_error fin), s') /\
    (forall j, j < files -> document s' (path (N.of_nat j)) (chunk_at n entries j)) /\
    (forall q, (forall j, j < files -> q <> path (N.of_nat j)) -> objects s' !! q = objects s !! q).
Proof. apply pack_run. Qed.

(** C25: the index files of a bundle or split read back as they were written:
    after pack, the downloads for the number of index files it returned
    deliver, in whatever order they complete, every chunk with its number, and
    the chunks in the order of their numbers are the entries packed. *)
Theorem index_roundtrip n it down id path input s :
  0 < n -> series it down id path -> (forall i, objects s !! path i = None) ->
  exists count s', pack n it input InputClosed s = (Ok (count, None), s') /\
  exists jobs, (forall fuel, N.to_nat count + 1 < fuel -> downloadAll fuel (down count) = Some (Ok jobs)) /\
  forall order, order ≡ₚ jobs -> exists s2 out, unpack order (s', []) = (Ok tt, (s2, out)) /\
    exists sorted, out ≡ₚ sorted /\ idx <$> sorted = N.of_nat <$> seq 0 (N.to_nat count) /\
      Forall (fun r => CoreIndex.id r = id) sorted /\ mbind (fun r => bundleEntries r) sorted = entry_of <$> input.
Proof.
  intros Hn Hs Hfree. destruct (series_upload _ _ _ _ Hs) as (outer & p & E & Hp).
  destruct (series_paths _ _ _ _ Hs) as [Hinj _].
  destruct (pack_loop_spec n outer p path Hn Hp Hinj InputClosed input [] 0 s) as (s' & Ep & Hd & _); [simpl; lia|auto|].
  cbn [app] in *. set (entries := entry_of <$> input) in *. cbn [written end_error] in *. rewrite N.add_0_l in Ep.
  exists (N.of_nat (nchunks n entries)), s'. unfold pack. rewrite E. split; [exact Ep|].
  exists (series_jobs id path (N.of_nat (nchunks n entries))). split.
  { intros fuel Hf. by eapply series_download. }
  destruct (series_documents s' n id path entries Hn Hd) as (H1 & H2 & H3).
  intros order Ho. destruct (unpack_spec order s' []) as (s2 & Eu & _).
  { intros j Hj. apply H1. by rewrite <- Ho. }
  exists s2, (result_of s' <$> order). split; [exact Eu|].
  exists (result_of s' <$> series_jobs id path (N.of_nat (nchunks n entries))). split; [by rewrite Ho|]. split_and!.
  - unfold series_jobs. by rewrite <- !list_fmap_compose.
  - apply Forall_forall. exact H3.
  - exact H2.
Qed.

(** The download of the splits of a diamond. *)

Lemma splits_run n repo diamondID splits (E : SplitDescriptor -> list BundleEntry) s fuel :
  0 < n -> splits_fuel splits <= fuel ->
  (forall sd, sd ∈ splits -> sd_SplitEntriesFileCount sd = N.of_nat (nchunks n (E sd)) /\
     forall k, k < nchunks n (E sd) -> document s (split_path repo diamondID sd (N.of_nat k)) (chunk_at n (E sd) k)) ->
  exists jobs, downloadAll fuel (newDownloadAllSplitsIterator repo diamondID splits) = Some (Ok jobs) /\
  forall order, order ≡ₚ jobs -> exists s2 out, unpack order (s, []) = (Ok tt, (s2, out)) /\ objects s2 = objects s /\
    mbind (fun r => (fun e => (CoreIndex.id r, e)) <$> bundleEntries r) out ≡ₚ
    mbind (fun sd => (fun e => (sd_SplitID sd, e)) <$> E sd) splits.
Proof.
  intros Hn Hf Hall. exists (mbind (split_jobs repo diamondID) splits). split; [by apply downloadAll_splits|].
  destruct (splits_documents s n repo diamondID splits E Hn Hall) as [H1 H2].
  intros order Ho. destruct (unpack_spec order s []) as (s2 & Eu & Ho2).
  { intros j Hj. apply H1. by rewrite <- Ho. }
  exists s2, (result_of s <$> order). split; [exact Eu|]. split; [exact Ho2|]. rewrite <- H2, Ho. done.
Qed.

(** Download over the splits of a diamond hands to the merge exactly the
    entries of all the splits, each with the identifier of its split, whatever
    the order in which the index files arrive. *)
Theorem splits_download n repo diamondID splits (E : SplitDescriptor -> list BundleEntry) s fuel :
  0 < n -> splits_fuel splits <= fuel ->
  (forall sd, sd ∈ splits -> sd_SplitEntriesFileCount sd = N.of_nat (nchunks n (E sd)) /\
     forall k, k < nchunks n (E sd) -> document s (split_path repo diamondID sd (N.of_nat k)) (chunk_at n (E sd) k)) ->
  exists jobs, downloadAll fuel (newDownloadAllSplitsIterator repo diamondID splits) = Some (Ok jobs) /\
  forall order, order ≡ₚ jobs -> exists s2 out, unpack order (s, []) = (Ok tt, (s2, out)) /\
    mbind (fun r => (fun e => (CoreIndex.id r, e)) <$> bundleEntries r) out ≡ₚ
    mbind (fun sd => (fun e => (sd_SplitID sd, e)) <$> E sd) splits.
Proof.
  intros Hn Hf Hall. destruct (splits_run n repo diamondID splits E s fuel Hn Hf Hall) as (jobs & Hj & Hu). exists jobs.
  split; [done|]. intros order Ho. destruct (Hu order Ho) as (s2 & out & Eu & _ & Hp). eauto.
Qed.

End theorems.

(** ** A concrete upload *)

Section witness.

#[local] Existing Instance numbered_yaml.

#[local] Existing Instance numbered_yaml_laws.

Definition three_files : list (filePacked * Time.Time) :=
  [(mkFilePacked "h1" "a" [] 1%Z false 0%Z 0%Z, 5%Z); (mkFilePacked "h2" "b" [] 2%Z false 1%Z 0%Z, 6%Z);
   (mkFilePacked "h3" "c" [] 3%Z false 2%Z 0%Z, 7%Z)].

Definition a_split : SplitDescriptor := mkSplitDescriptor "s" 1%Z 0%Z SplitRunning [] "g" 2%N "".

Lemma pack_correct_witness :
  exists s', pack (S := gmap string bytes) 2 (newUploadSplitIterator "r" "d" a_split) three_files InputClosed ∅ = (Ok (2%N, None), s') /\
    document s' (split_path "r" "d" a_split 1) [mkBundleEntry "h3" "c" 0%Z 3%Z 7%Z].
Proof.
  destruct (pack_correct (S := gmap string bytes) 2 _ _ _ _ three_files InputClosed ∅ ltac:(lia) (split_series "r" "d" a_split))
    as (s' & E & Hd & _); [intros i; exact (lookup_empty (M := gmap string) _)|]. exists s'. split; [exact E|]. apply (Hd 1). vm_compute. lia.
Defined.

Lemma index_roundtrip_witness :
  exists count s', pack (S := gmap string bytes) 2 (newUploadSplitIterator "r" "d" a_split) three_files InputClosed ∅ = (Ok (count, None), s').
Proof.
  destruct (index_roundtrip (S := gmap string bytes) 2 _ _ _ _ three_files ∅ ltac:(lia) (split_series "r" "d" a_split))
    as (c & s' & E & _); [intros i; exact (lookup_empty (M := gmap string) _)|]. eauto.
Defined.

(** A store with the two index files of the split. *)

Definition a_store : gmap string bytes :=
  <[split_path "r" "d" a_split 1 := put_positive (encode [mkBundleEntry "h3" "c" 0%Z 3%Z 7%Z])]>
  (<[split_path "r" "d" a_split 0 := put_positive (encode [mkBundleEntry "h1" "a" 0%Z 1%Z 5%Z; mkBundleEntry "h2" "b" 0%Z 2%Z 6%Z])]> ∅).

Lemma splits_download_witness :
  exists jobs, downloadAll 4 (newDownloadAllSplitsIterator "r" "d" [a_split]) = Some (Ok jobs) /\
  forall order, order ≡ₚ jobs -> exists s2 out, unpack (S := gmap string bytes) order (a_store, []) = (Ok tt, (s2, out)) /\
    mbind (fun r => (fun e => (CoreIndex.id r, e)) <$> bundleEntries r) out ≡ₚ
    mbind (fun sd => (fun e => (sd_SplitID sd, e)) <$> (entry_of <$> three_files)) [a_split].
Proof.
  apply (splits_download (S := gmap string bytes) 2 "r" "d" [a_split] (fun _ => entry_of <$> three_files) a_store 4);
    [lia|vm_compute; lia|].
  intros sd Hsd%list_elem_of_singleton. subst sd. split; [reflexivity|]. intros k Hk.
  assert (k = 0 \/ k = 1) as [-> | ->] by (vm_compute in Hk; lia); unfold document, a_store.
  - exists (put_positive (encode [mkBundleEntry "h1" "a" 0%Z 1%Z 5%Z; mkBundleEntry "h2" "b" 0%Z 2%Z 6%Z])). split.
    + cbn [objects mem_StoreLaws]. rewrite lookup_insert_ne by done. apply lookup_insert_eq.
    + apply Unmarshal_Marshal. reflexivity.
  - exists (put_positive (encode [mkBundleEntry "h3" "c" 0%Z 3%Z 7%Z])). split.
    + cbn [objects mem_StoreLaws]. apply lookup_insert_eq.
    + apply Unmarshal_Marshal. reflexivity.
Defined.

End witness.

End CoreIndex.
