(* ===== verification/CoreKeys.v ===== *)
(** * Retrieving keys (pkg/core: keys.go, diamond.go)

    The listings of the core package are pipelines of goroutines over channels.
    The first stages retrieve keys: [fetchKeys] reads the pages of a key
    iterator, [mergeKeys] keeps one key per diamond or split, the final one if
    there is one, [versionedKeys] expands keys to their versions. A channel is the
    list of the events sent on it. A loop that gets no result within its fuel
    is [diverge]. *)

From S2P Require Import Prelude GoLib Errors Storage Model ModelPaths CoreMeta CoreIndex StoreRules.

Module CoreKeys.
Import Model Storage CoreMeta CoreStatus StoreRules.

Definition diverge {T A} : M T A := panic "no result within the fuel".

Record keyBatchEvent : Type := mkKeyBatch {
  kb_keys : list string;
  kb_err : option error
}.

Definition interrupted (room : bool) : list keyBatchEvent :=
  if room then [mkKeyBatch [] (Some ErrInterrupted)] else [].

Section stages.
Context {T : Type}.

(** [stop]: after how many sends the select of a send takes the done signal
    instead, and whether the channel then has room for the last event. *)

Fixpoint fetchKeys (fuel : nat) (iterator : string -> M T (list string * string)) (stop : option (nat * bool))
    (next : string) : M T (list keyBatchEvent) :=
  match fuel with
  | O => diverge
  | S fuel' =>
      r ← attempt (iterator next);
      match r with
      | inr err =>
          match stop with
          | Some (O, room) => mret (interrupted room)
          | _ => mret [mkKeyBatch [] (Some err)]
          end
      | inl (ks, next') =>
          if decide (ks = []) then mret []
          else
            match stop with
            | Some (O, room) => mret (interrupted room)
            | _ =>
                if decide (next' = "") then mret [mkKeyBatch ks None]
                else
                  let stop' := match stop with Some (S n, room) => Some (n, room) | x => x end in
                  evs ← fetchKeys fuel' iterator stop' next';
                  mret (mkKeyBatch ks None :: evs)
            end
      end
  end.

(** The filter applied to the results of an iterator; an error is passed on by
    the monad. *)

Definition basenameKeyFilter (prefix : string) (page : M T (list string * string)) : M T (list string * string) :=
  '(keys, next) ← page;
  mret (filter (fun key => Strings.HasPrefix (Path.Base key) prefix = true) keys, next).

(** keyVersions is KeyVersions of a VersionedStore. *)

Fixpoint expand_versions (keyVersions : string -> M T (list string)) (keys : list string) (err : option error)
    : M T keyBatchEvent :=
  match keys with
  | [] => mret (mkKeyBatch [] err)
  | key :: keys' =>
      r ← attempt (keyVersions key);
      match r with
      | inr erv => expand_versions keyVersions keys' (Some erv)
      | inl versions =>
          ev ← expand_versions keyVersions keys' err;
          mret (mkKeyBatch (((fun v => key +:+ "#" +:+ v) <$> versions) ++ kb_keys ev) (kb_err ev))
      end
  end.

Fixpoint versionedKeys (keyVersions : string -> M T (list string)) (input : list keyBatchEvent) : M T (list keyBatchEvent) :=
  match input with
  | [] => mret []
  | batch :: input' =>
      ev ← expand_versions keyVersions (kb_keys batch) None;
      evs ← versionedKeys keyVersions input';
      mret (ev :: evs)
  end.

End stages.

(** ** mergeKeys *)

Record stateMerge : Type := mkStateMerge {
  isFinal : bool;
  count : nat;
  sm_key : string
}.

Section merge.
Variable ksuid_valid : string -> bool.

(** The body of the inner loop: the states, the filtered keys and the error. *)

Definition merge_key (key : string) (acc : gmap string stateMerge * list string * option error)
    : gmap string stateMerge * list string * option error :=
  let '(states, filtered, err) := acc in
  match GetArchivePathComponents ksuid_valid key with
  | Ok apc =>
      if decide (apc_SplitID apc = "" /\ apc_DiamondID apc = "") then acc
      else
        let id := apc_DiamondID apc +:+ apc_SplitID apc in
        let keyState := default (mkStateMerge false 0 "") (states !! id) in
        let retained := if isFinal keyState && negb (apc_IsFinalState apc) then sm_key keyState else key in
        let keyState' := mkStateMerge (isFinal keyState || apc_IsFinalState apc) (S (count keyState)) retained in
        if (1 <? count keyState') || ((count keyState' =? 1) && negb (isFinal keyState'))
        then (delete id (<[id := keyState']> states), filtered ++ [retained], err)
        else (<[id := keyState']> states, filtered, err)
  | Err erp => (states, filtered, Some erp)
  | Panic p => acc
  end.

Definition merge_batch (states : gmap string stateMerge) (keys : list string)
    : gmap string stateMerge * list string * option error :=
  fold_left (fun acc key => merge_key key acc) keys (states, [], None).

Fixpoint mergeKeys (states : gmap string stateMerge) (input : list keyBatchEvent) : list keyBatchEvent :=
  match input with
  | [] => []
  | batch :: input' =>
      let '(states', filtered, err) := merge_batch states (kb_keys batch) in
      mkKeyBatch filtered err :: mergeKeys states' input'
  end.

End merge.

(** ** The pages of an iterator *)

Section pages.
Context {T : Type} (Inv : T -> Prop) (iterator : string -> M T (list string * string)).
Variables (keep : string -> Prop) (size : nat) (rem : string -> list string).
Context {Hdec : forall k, Decision (keep k)}.
Hypothesis size_pos : 0 < size.

(** The iterator reads the pages of [rem], and keeps some of the keys. *)

Hypothesis iterator_page : forall next t, Inv t ->
  runs (iterator next) t (fun x t' => Inv t' /\ exists page rest, rem next = page ++ rest /\
    x.1 = filter keep page /\ length page <= size /\ (x.2 = "" -> rest = []) /\
    (x.2 <> "" -> length page = size /\ rem x.2 = rest)).

(** No page of [size] keys is without a key that is kept. *)

Definition no_empty_page (l : list string) : Prop :=
  forall i, i * size < length l -> filter keep (CoreIndex.chunk_at size l i) <> [].

Lemma no_empty_page_tail page rest :
  length page = size -> no_empty_page (page ++ rest) -> no_empty_page rest.
Proof.
  intros Hl H i Hi. rewrite <- (CoreIndex.chunk_at_S size page rest) by done. apply H. rewrite length_app. simpl. lia.
Qed.

Lemma fetchKeys_complete fuel : forall next t,
  Inv t -> length (rem next) < fuel -> no_empty_page (rem next) ->
  runs (fetchKeys fuel iterator None next) t (fun evs t' => Inv t' /\
    Forall (fun ev => kb_err ev = None) evs /\ mbind kb_keys evs = filter keep (rem next)).
Proof.
  induction fuel as [|fuel IH]; intros next t Ht Hf Hp; [lia|]. cbn [fetchKeys].
  apply runs_bind, runs_attempt. eapply runs_mono; [by apply iterator_page|].
  intros [ks next'] t' (Ht' & page & rest & Hrem & Hks & Hlen & Hend & Hnext). cbn [fst snd] in *. subst ks.
  assert (Hne : rem next <> [] -> filter keep page <> []).
  { intros Hnn. replace page with (CoreIndex.chunk_at size (rem next) 0).
    - apply Hp. destruct (rem next); [done|simpl; lia].
    - unfold CoreIndex.chunk_at. rewrite Hrem. cbn [Nat.mul]. rewrite drop_0.
      destruct (decide (next' = "")) as [Hn|Hn].
      + rewrite (Hend Hn), app_nil_r. by apply take_ge.
      + apply take_app_exact. by apply Hnext. }
  case_decide as Hempty.
  - apply runs_ret. split; [done|]. split; [done|]. destruct (rem next) as [|k l] eqn:E; [done|]. by destruct (Hne ltac:(done)).
  - case_decide as Hn.
    + apply runs_ret. split; [done|]. split; [by repeat constructor|]. rewrite Hrem, (Hend Hn), app_nil_r.
      cbn [mbind list_bind kb_keys]. by rewrite app_nil_r.
    + destruct (Hnext Hn) as [Hsz Hrest]. apply runs_bind. eapply runs_mono; [apply IH|].
      * done.
      * rewrite Hrest. rewrite Hrem, length_app in Hf. lia.
      * rewrite Hrest. rewrite Hrem in Hp. by eapply no_empty_page_tail.
      * intros evs t2 (Ht2 & Herr & Hk). apply runs_ret. split; [done|]. split; [by constructor|].
        rewrite bind_cons, Hk, Hrest, Hrem. by rewrite filter_app.
Qed.

End pages.

(** The pages of a store, with the keys that a filter keeps. *)

Section store_pages.
Context {S : Type} `{HS : !Store S, HSL : !StoreLaws S, HLL : !ListingLaws S}.
Variables (prefix delim : string) (count : nat).
Hypothesis count_pos : 0 < count.

(** The pages of the store, read through any state [t] that has it. *)

Lemma fetchKeys_all {T} (Inv : T -> Prop) iterator objs fuel t :
  (forall next t, Inv t -> runs (iterator next) t (fun x t' => Inv t' /\ exists rest, remaining objs prefix delim next = x.1 ++ rest /\
     length x.1 <= count /\ (x.2 = "" -> rest = []) /\ (x.2 <> "" -> length x.1 = count /\ remaining objs prefix delim x.2 = rest))) ->
  Inv t -> length (listing objs prefix delim) < fuel ->
  runs (fetchKeys fuel iterator None "") t (fun evs t' =>
    Inv t' /\ Forall (fun ev => kb_err ev = None) evs /\ mbind kb_keys evs = listing objs prefix delim).
Proof.
  intros Hit Ht Hf. eapply runs_mono.
  - apply (fetchKeys_complete Inv _ (fun _ => True) count (remaining objs prefix delim) (Hdec := fun _ => left I) count_pos).
    + intros next t' Ht'. eapply runs_mono; [by apply Hit|]. intros [ks next'] t2 (Ht2 & rest & H). split; [done|]. exists ks, rest.
      rewrite filter_all by (by apply Forall_true). by destruct H as (? & ? & ?).
    + done.
    + by rewrite remaining_start.
    + intros i Hi. rewrite filter_all by (by apply Forall_true). intros Hc. apply (f_equal length) in Hc.
      unfold CoreIndex.chunk_at in Hc. rewrite length_take, length_drop in Hc. simpl in Hc. lia.
  - intros evs s' (Ho & He & Hk). split_and!; [done..|]. rewrite Hk, filter_all by (by apply Forall_true).
    apply remaining_start.
Qed.

Lemma fetchKeys_store fuel s :
  length (listing (objects s) prefix delim) < fuel ->
  runs (fetchKeys fuel (fun next => KeysPrefix next prefix delim count) None "") s (fun evs s' =>
    objects s' = objects s /\ Forall (fun ev => kb_err ev = None) evs /\ mbind kb_keys evs = listing (objects s) prefix delim).
Proof.
  intros Hf. apply (fetchKeys_all (fun s' => objects s' = objects s)); [|done..]. intros next s' Hs'. apply runs_KeysPrefix; [done|].
  intros ks next' rest s2 Ho Hr Hlen Hend Hnext. rewrite Hs' in Ho, Hr, Hnext. split; [done|]. by exists rest.
Qed.

Lemma fetchKeys_meta fuel (c : Stores S) :
  length (listing (objects (Metadata c)) prefix delim) < fuel ->
  runs (fetchKeys fuel (fun next => getMetaStore (KeysPrefix next prefix delim count)) None "") c (fun evs c' =>
    same_objects c c' /\ Forall (fun ev => kb_err ev = None) evs /\ mbind kb_keys evs = listing (objects (Metadata c)) prefix delim).
Proof.
  intros Hf. apply (fetchKeys_all (same_objects c)); [|done..]. intros next c' Hs. apply runs_meta, runs_KeysPrefix; [done|].
  intros ks next' rest s2 Ho Hr Hlen Hend Hnext. rewrite (same_meta _ _ Hs) in Hr, Hnext.
  split; [etrans; [exact Hs|]; by apply same_SetMetadata|]. by exists rest.
Qed.

Lemma fetchKeys_basename fuel base s :
  length (listing (objects s) prefix delim) < fuel ->
  no_empty_page (fun key => Strings.HasPrefix (Path.Base key) base = true) count (listing (objects s) prefix delim) ->
  runs (fetchKeys fuel (fun next => basenameKeyFilter base (KeysPrefix next prefix delim count)) None "") s (fun evs s' =>
    objects s' = objects s /\ Forall (fun ev => kb_err ev = None) evs /\
    mbind kb_keys evs = filter (fun key => Strings.HasPrefix (Path.Base key) base = true) (listing (objects s) prefix delim)).
Proof.
  intros Hf Hp. rewrite <- remaining_start in *.
  apply (fetchKeys_complete (fun s' => objects s' = objects s) _ _ count (remaining (objects s) prefix delim) count_pos);
    [|done..].
  intros next s' Hs'. apply runs_bind, runs_KeysPrefix; [done|]. intros ks next' rest s2 Ho Hr Hlen Hend Hnext.
  rewrite Hs' in Ho, Hr, Hnext. apply runs_ret. split; [done|]. exists ks, rest. done.
Qed.

End store_pages.

(** ** One key per object *)

Section merged.
Variable kv : string -> bool.

(** mergeKeys does not depend on how the keys are cut into batches. *)

Fixpoint merge_flat (states : gmap string stateMerge) (keys : list string) : list string :=
  match keys with
  | [] => []
  | key :: keys' => let '(states', filtered, _) := merge_key kv key (states, [], None) in filtered ++ merge_flat states' keys'
  end.

Lemma merge_key_acc key states filtered err :
  let '(st0, f0, _) := merge_key kv key (states, [], None) in
  exists err', merge_key kv key (states, filtered, err) = (st0, filtered ++ f0, err').
Proof.
  unfold merge_key. destruct (GetArchivePathComponents kv key) as [apc|e|p]; [|rewrite app_nil_r; eauto..].
  case_decide; [rewrite app_nil_r; eauto|]. destruct (_ || _); [eauto|rewrite app_nil_r; eauto].
Qed.

Lemma merge_batch_flat keys : forall states filtered err rest,
  let '(st', f', _) := fold_left (fun acc key => merge_key kv key acc) keys (states, filtered, err) in
  f' ++ merge_flat st' rest = filtered ++ merge_flat states (keys ++ rest).
Proof.
  induction keys as [|key keys IH]; intros states filtered err rest; [done|]. cbn [fold_left app merge_flat].
  pose proof (merge_key_acc key states filtered err) as Hk.
  destruct (merge_key kv key (states, [], None)) as [[st0 f0] e0]. destruct Hk as [err' ->].
  specialize (IH st0 (filtered ++ f0) err' rest).
  destruct (fold_left _ keys _) as [[st' f'] e']. by rewrite IH, <- app_assoc.
Qed.

Lemma mergeKeys_flat input : forall states,
  mbind kb_keys (mergeKeys kv states input) = merge_flat states (mbind kb_keys input).
Proof.
  induction input as [|batch input IH]; intros states; [done|]. cbn [mergeKeys].
  pose proof (merge_batch_flat (kb_keys batch) states [] None (mbind kb_keys input)) as H. unfold merge_batch.
  destruct (fold_left _ _ _) as [[st' f'] e']. rewrite !bind_cons, IH. cbn [kb_keys]. by rewrite H.
Qed.

(** The errors sent on are those of the keys, not those received. *)

Lemma mergeKeys_errors input input' states :
  kb_keys <$> input = kb_keys <$> input' -> mergeKeys kv states input = mergeKeys kv states input'.
Proof.
  revert input' states. induction input as [|b input IH]; intros [|b' input'] states H; try done.
  injection H as Hb H. cbn [mergeKeys]. rewrite Hb. destruct (merge_batch kv states (kb_keys b')) as [[st' f'] e'].
  by rewrite (IH input').
Qed.

(** Keys that parse give no error. *)

Lemma mergeKeys_ok input : forall states,
  Forall (fun k => exists apc, GetArchivePathComponents kv k = Ok apc) (mbind kb_keys input) ->
  Forall (fun ev => kb_err ev = None) (mergeKeys kv states input).
Proof.
  assert (forall keys states filtered, Forall (fun k => exists apc, GetArchivePathComponents kv k = Ok apc) keys ->
    (fold_left (fun acc key => merge_key kv key acc) keys (states, filtered, None)).2 = None) as Hb.
  { induction keys as [|key keys IH]; intros states filtered Hk; [done|]. apply Forall_cons in Hk as [[apc E] Hk].
    cbn [fold_left]. unfold merge_key at 2. rewrite E. case_decide; [by apply IH|]. cbv zeta. case_match; by apply IH. }
  induction input as [|batch input IH]; intros states; [done|]. rewrite bind_cons, Forall_app. intros [H1 H2].
  cbn [mergeKeys]. specialize (Hb (kb_keys batch) states [] H1). unfold merge_batch.
  destruct (fold_left _ _ _) as [[st' f'] e']. constructor; [exact Hb|by apply IH].
Qed.

(** *** The reference: objects with their keys *)

Section objects.
Variables (done_key running_key : string -> string).

Record object : Type := mkObject {
  o_id : string;
  o_done : bool;
  o_running : bool
}.

Definition keys_of (o : object) : list string :=
  (if o_done o then [done_key (o_id o)] else []) ++ (if o_running o then [running_key (o_id o)] else []).

(** The final key if there is one, else the initial one; an object without
    an initial key is not listed. *)

Definition listed_key (o : object) : list string :=
  if o_running o then [if o_done o then done_key (o_id o) else running_key (o_id o)] else [].

(** The keys are those of one diamond, or of the splits of one diamond. *)

Variables (apc_of : string -> bool -> ArchivePathComponents) (named : string -> Prop).
Hypothesis parse_done : forall o, named o -> GetArchivePathComponents kv (done_key o) = Ok (apc_of o true).
Hypothesis parse_running : forall o, named o -> GetArchivePathComponents kv (running_key o) = Ok (apc_of o false).
Hypothesis apc_final : forall o b, apc_IsFinalState (apc_of o b) = b.

Definition state_id (o : string) (b : bool) : string := apc_DiamondID (apc_of o b) +:+ apc_SplitID (apc_of o b).

Hypothesis id_same : forall o b, state_id o b = state_id o false.
Hypothesis id_inj : forall o o', state_id o false = state_id o' false -> o = o'.
Hypothesis id_nonempty : forall o b, named o -> ~ (apc_SplitID (apc_of o b) = "" /\ apc_DiamondID (apc_of o b) = "").

Lemma merge_key_object o b key states filtered err :
  named o -> GetArchivePathComponents kv key = Ok (apc_of o b) ->
  merge_key kv key (states, filtered, err) =
    let keyState := default (mkStateMerge false 0 "") (states !! state_id o false) in
    let retained := if isFinal keyState && negb b then sm_key keyState else key in
    let keyState' := mkStateMerge (isFinal keyState || b) (S (count keyState)) retained in
    if (1 <? count keyState') || ((count keyState' =? 1) && negb (isFinal keyState'))
    then (delete (state_id o false) (<[state_id o false := keyState']> states), filtered ++ [retained], err)
    else (<[state_id o false := keyState']> states, filtered, err).
Proof.
  intros Ho E. unfold merge_key. rewrite E, decide_False by (by apply id_nonempty).
  fold (state_id o b). rewrite (id_same o b), apc_final. done.
Qed.

(** One object, with no state recorded for it. *)

Lemma merge_flat_object o states rest :
  named (o_id o) -> states !! state_id (o_id o) false = None ->
  exists states', merge_flat states (keys_of o ++ rest) = listed_key o ++ merge_flat states' rest /\
    forall i, i <> state_id (o_id o) false -> states' !! i = states !! i.
Proof.
  intros Ho Hn. destruct o as [o d r]. unfold keys_of, listed_key. cbn [o_id o_done o_running] in *.
  destruct d, r; cbn [app merge_flat].
  - rewrite (merge_key_object o true _ _ _ _ Ho (parse_done o Ho)), Hn. cbn -[merge_flat merge_key]. cbn [merge_flat].
    rewrite (merge_key_object o false _ _ _ _ Ho (parse_running o Ho)), lookup_insert_eq. cbn -[merge_flat merge_key].
    eexists. split; [done|]. intros i Hi. rewrite lookup_delete_ne, !lookup_insert_ne by done. done.
  - rewrite (merge_key_object o true _ _ _ _ Ho (parse_done o Ho)), Hn. cbn -[merge_flat merge_key].
    eexists. split; [done|]. intros i Hi. by rewrite lookup_insert_ne by done.
  - rewrite (merge_key_object o false _ _ _ _ Ho (parse_running o Ho)), Hn. cbn -[merge_flat merge_key].
    eexists. split; [done|]. intros i Hi. by rewrite lookup_delete_ne, lookup_insert_ne by done.
  - eexists. split; done.
Qed.

Lemma merge_flat_objects objs : forall states,
  NoDup (o_id <$> objs) -> Forall (fun o => named (o_id o)) objs -> (forall o, o ∈ objs -> states !! state_id (o_id o) false = None) ->
  merge_flat states (mbind keys_of objs) = mbind listed_key objs.
Proof.
  induction objs as [|o objs IH]; intros states Hnd Hn Hst; [done|]. rewrite !bind_cons.
  apply NoDup_cons in Hnd as [Hno Hnd]. apply Forall_cons in Hn as [Ho Hn].
  destruct (merge_flat_object o states (mbind keys_of objs)) as (states' & -> & Hs'); [done|apply Hst; set_solver|].
  f_equal. apply IH; [done..|]. intros o' Ho'. rewrite Hs'; [apply Hst; set_solver|].
  intros Heq%id_inj. apply Hno. apply list_elem_of_fmap. eauto.
Qed.

End objects.

End merged.

End CoreKeys.
