(* ===== verification/DiamondMerge.v ===== *)
(** * Merging the splits of a diamond (pkg/core: diamond_commit.go)

    [mergeSplits] reads the file entries of all the splits, in the order in
    which the concurrent downloads of their index files happen to deliver them,
    keeps the latest version of every file and moves the other versions to a
    location of conflicts or checkpoints. The index is a radix tree, which is a
    third-party package: the class [Radix] of operations with its laws. *)

From S2P Require Import Prelude GoLib Errors Radix Model ModelPaths CoreMeta CoreIndex.

Module DiamondMerge.
Import Model CoreStatus CoreIndex.

Record mergeEntry : Type := mkMergeEntry {
  me_entry : BundleEntry;
  me_ID : string
}.

Definition mergeEntryToFilePacked (e : mergeEntry) : filePacked :=
  mkFilePacked (Hash (me_entry e)) (NameWithPath (me_entry e)) [] (be_Size (me_entry e)) false 0 Time.zero.

(** []byte(name) *)

Definition name_key (name : string) : bytes := String.list_byte_of_string name.

#[export] Instance name_key_inj : Inj (=) (=) name_key.
Proof.
  intros a b H. rewrite <- (String.string_of_list_byte_of_string a), <- (String.string_of_list_byte_of_string b).
  unfold name_key in H. by rewrite H.
Qed.

(** existing.NameWithPath = name *)

Definition rename (f : BundleEntry) (name : string) : BundleEntry :=
  mkBundleEntry (Hash f) name (FileMode f) (be_Size f) (Timestamp f).

(** The renaming function [NewDiamond] selects for a mode; with forbidden
    conflicts it is never called. *)

Definition deconflicter (mode : ConflictMode) : string -> string -> string :=
  if decide (mode = EnableCheckpoints) then GenerateCheckpointPath else GenerateConflictPath.

(** The name of the entry is only logged. *)

Definition forbidden : error := Errors.Wrap ErrCommitGivenUp (Some ErrForbiddenConflict).

Section merge.
Context {T : Type -> Type} {HR : Radix T}.

#[local] Instance index_lookup : Lookup string mergeEntry (T mergeEntry) := fun name t => r_Get (name_key name) t.

#[local] Instance index_insert : Insert string mergeEntry (T mergeEntry) := fun name e t => r_Insert (name_key name) e t.

Record merger : Type := mkMerger {
  mergeIndex : T mergeEntry;
  conflicts : nat;
  merged : nat
}.

Definition emptyMerger : merger := mkMerger r_New 0 0.

(** One entry of the input: the body of the inner loop. *)

Definition merge_file (mode : ConflictMode) (splitID : string) (file : BundleEntry) (st : merger) : res merger :=
  let key := NameWithPath file in
  let n := S (merged st) in
  let index := mergeIndex st in
  match index !! key with
  | None => Ok (mkMerger (<[key := mkMergeEntry file splitID]> index) (conflicts st) n)
  | Some existing =>
      if decide (Hash file = Hash (me_entry existing)) then Ok (mkMerger index (conflicts st) n)
      else if Time.IsZero (Timestamp file) then Panic "dev error: files should have a timing"
      else if Time.After (Timestamp file) (Timestamp (me_entry existing)) then
        if decide (mode = IgnoreConflicts \/ splitID = me_ID existing)
        then Ok (mkMerger (<[key := mkMergeEntry file splitID]> index) (conflicts st) n)
        else if decide (mode = ForbidConflicts) then Err forbidden
        else
          let name := deconflicter mode splitID (NameWithPath (me_entry existing)) in
          let moved := mkMergeEntry (rename (me_entry existing) name) (me_ID existing) in
          Ok (mkMerger (<[key := mkMergeEntry file splitID]> (<[name := moved]> index)) (S (conflicts st)) n)
      else
        if decide (splitID = me_ID existing) then Ok (mkMerger index (conflicts st) n)
        else if decide (mode = EnableConflicts \/ mode = EnableCheckpoints)
        then
          let newEntry := rename file (deconflicter mode splitID (NameWithPath (me_entry existing))) in
          Ok (mkMerger (<[deconflicter mode splitID key := mkMergeEntry newEntry splitID]> index) (S (conflicts st)) n)
        else if decide (mode = ForbidConflicts) then Err forbidden
        else Ok (mkMerger index (conflicts st) n)
  end.

Fixpoint merge_files (mode : ConflictMode) (ins : list (string * BundleEntry)) (st : merger) : res merger :=
  match ins with
  | [] => Ok st
  | (splitID, file) :: ins' => st' ← merge_file mode splitID file st; merge_files mode ins' st'
  end.

(** The two nested loops visit the entries of all batches. *)

Definition entries_of (batches : list (string * list BundleEntry)) : list (string * BundleEntry) :=
  mbind (fun '(id, es) => (fun e => (id, e)) <$> es) batches.

(** The batches of entries, each with its split, as the download delivers
    them; the result are the files sent to the bundle, and the two flags of the
    diamond descriptor. *)

Definition mergeSplits (mode : ConflictMode) (batches : list (string * list BundleEntry))
    : res (list filePacked * bool * bool) :=
  st ← merge_files mode (entries_of batches) emptyMerger;
  mret (mergeEntryToFilePacked <$> (r_Walk (mergeIndex st)).*2,
        (0 <? conflicts st) && negb (bool_decide (mode = EnableCheckpoints)),
        (0 <? conflicts st) && bool_decide (mode = EnableCheckpoints)).

(** ** The inputs

    A split has a file at most once, uploaded with a timestamp; split
    identifiers and the components of file names are plain, and no file is
    located where the merge puts its conflicts. *)

Definition user_name (p : string) : Prop :=
  exists cs, cs <> [] /\ Forall Path.plain cs /\ p = Strings.Join cs /\ IsGeneratedFile p = false.

Record well_formed (ins : list (string * BundleEntry)) : Prop := {
  wf_once : NoDup ((fun '(s, f) => (s, NameWithPath f)) <$> ins);
  wf_split s f : (s, f) ∈ ins -> Path.plain s;
  wf_name s f : (s, f) ∈ ins -> user_name (NameWithPath f);
  wf_time s f : (s, f) ∈ ins -> Timestamp f <> Time.zero
}.

Lemma deconflicter_inj mode s t p q :
  Path.plain s -> Path.plain t -> user_name p -> user_name q ->
  deconflicter mode s p = deconflicter mode t q -> s = t /\ p = q.
Proof.
  intros Hs Ht (a & Ha & Hpa & -> & _) (b & Hb & Hpb & -> & _). unfold deconflicter.
  destruct (ModelPaths.conflict_path_Join s a Hs Ha Hpa) as [E1 E2].
  destruct (ModelPaths.conflict_path_Join t b Ht Hb Hpb) as [E3 E4].
  assert (forall d, Path.plain d -> Strings.Join (d :: s :: a) = Strings.Join (d :: t :: b) ->
            s = t /\ Strings.Join a = Strings.Join b) as Hinj.
  { intros d Hd H. apply ModelPaths.Join_inj_plain in H; try done; try ModelPaths.solve_plain. by simplify_eq. }
  case_decide.
  - rewrite E2, E4. apply Hinj. by vm_compute.
  - rewrite E1, E3. apply Hinj. by vm_compute.
Qed.

Lemma deconflicter_not_user mode s p q :
  Path.plain s -> user_name p -> user_name q -> deconflicter mode s p <> q.
Proof.
  intros Hs (a & Ha & Hpa & -> & _) (_ & _ & _ & _ & Hg) Heq.
  assert (IsGeneratedFile q = true); [|congruence]. rewrite <- Heq.
  destruct (ModelPaths.conflict_path_Join s a Hs Ha Hpa) as [E1 E2]. unfold deconflicter, IsGeneratedFile.
  case_decide.
  - rewrite E2, Path.Join_cons2, ModelPaths.special_dir_joined, orb_true_r. done.
  - rewrite E1, Path.Join_cons2, ModelPaths.special_dir_joined, orb_true_r. done.
Qed.

(** ** The invariant of the merge *)

Context {HL : RadixLaws T}.

Lemma index_lookup_empty name : (r_New : T mergeEntry) !! name = None.
Proof. apply r_Get_New. Qed.

Lemma index_lookup_eq name e (m : T mergeEntry) : <[name := e]> m !! name = Some e.
Proof. apply r_Get_Insert. Qed.

Lemma index_lookup_ne name name' e (m : T mergeEntry) : name <> name' -> <[name := e]> m !! name' = m !! name'.
Proof. intros H. apply r_Get_Insert_ne. by intros ?%(inj name_key). Qed.

Lemma index_lookup_Some name name' e e' (m : T mergeEntry) :
  <[name := e]> m !! name' = Some e' <-> name = name' /\ e = e' \/ name <> name' /\ m !! name' = Some e'.
Proof.
  destruct (decide (name = name')) as [->|Hn].
  - rewrite index_lookup_eq. split; [intros [= ->]; auto|intros [[_ ->]|[? _]]; done].
  - rewrite index_lookup_ne by done. split; [auto|intros [[? _]|[_ ?]]; done].
Qed.

Lemma index_is_Some name name' e (m : T mergeEntry) :
  is_Some (<[name := e]> m !! name') <-> name = name' \/ is_Some (m !! name').
Proof.
  destruct (decide (name = name')) as [->|Hn].
  - rewrite index_lookup_eq. split; eauto.
  - rewrite index_lookup_ne by done. split; [auto|intros [?|?]; done].
Qed.

Section invariant.
Variable mode : ConflictMode.

Abbreviation deconf := (deconflicter mode).

(** [e] is the version of the entry [f] of split [s]. *)

Definition version_of (e : mergeEntry) (s : string) (f : BundleEntry) : Prop :=
  me_ID e = s /\ Hash (me_entry e) = Hash f /\ be_Size (me_entry e) = be_Size f /\
  Timestamp (me_entry e) = Timestamp f.

Record MInv (done : list (string * BundleEntry)) (m : T mergeEntry) : Prop := {
  mi_names k e : m !! k = Some e -> NameWithPath (me_entry e) = k;
  mi_origin k e : m !! k = Some e -> exists s f, (s, f) ∈ done /\ version_of e s f /\
    (k = NameWithPath f \/ exists t, (exists g, (t, g) ∈ done /\ NameWithPath g = NameWithPath f) /\ k = deconf t (NameWithPath f));
  mi_main s f : (s, f) ∈ done -> is_Some (m !! NameWithPath f)
}.

(** Every version is kept, under its name or under a conflict location. *)

Definition kept (done : list (string * BundleEntry)) (m : T mergeEntry) : Prop :=
  forall s f, (s, f) ∈ done -> exists k e, m !! k = Some e /\ Hash (me_entry e) = Hash f /\
    (k = NameWithPath f \/ exists t g, (t, g) ∈ done /\ NameWithPath g = NameWithPath f /\ k = deconf t (NameWithPath f)).

(** The entry of a name is its latest version. *)

Definition latest (done : list (string * BundleEntry)) (m : T mergeEntry) : Prop :=
  forall s f e, (s, f) ∈ done -> m !! NameWithPath f = Some e -> (Timestamp f <= Timestamp (me_entry e))%Z.

(** Contents uploaded under one name differ. *)

Definition distinct_contents (ins : list (string * BundleEntry)) : Prop :=
  forall s f t g, (s, f) ∈ ins -> (t, g) ∈ ins -> NameWithPath f = NameWithPath g -> Hash f = Hash g -> (s, f) = (t, g).

(** Modes that save the losers of a conflict. *)

Definition saves : Prop := mode = EnableConflicts \/ mode = EnableCheckpoints.

Lemma saves_not_others : saves -> mode <> IgnoreConflicts /\ mode <> ForbidConflicts.
Proof. intros [H|H]; rewrite H; done. Qed.

(** All the entries of a name have the same contents. *)

Definition agree (ins : list (string * BundleEntry)) : Prop :=
  forall s f t g, (s, f) ∈ ins -> (t, g) ∈ ins -> NameWithPath f = NameWithPath g -> Hash f = Hash g.

Section step.
Variables (done : list (string * BundleEntry)) (s : string) (f : BundleEntry) (m : T mergeEntry).
Hypothesis wf : well_formed (done ++ [(s, f)]).
Hypothesis inv : MInv done m.

Lemma new_in : (s, f) ∈ done ++ [(s, f)].
Proof. set_solver. Qed.

Lemma old_in x : x ∈ done -> x ∈ done ++ [(s, f)].
Proof. set_solver. Qed.

Lemma split_has_once g : (s, g) ∈ done -> NameWithPath g <> NameWithPath f.
Proof.
  intros Hg Heq. pose proof (wf_once _ wf) as Hnd. rewrite fmap_app in Hnd.
  apply NoDup_app in Hnd as (_ & Hd & _). apply (Hd (s, NameWithPath f)); [|set_solver].
  apply list_elem_of_fmap. exists (s, g). by rewrite Heq.
Qed.

(** The location for the conflict of this split is free. *)

Lemma slot_free : m !! deconf s (NameWithPath f) = None.
Proof.
  destruct (m !! deconf s (NameWithPath f)) as [e|] eqn:E; [exfalso|done].
  destruct (mi_origin _ _ inv _ _ E) as (s0 & f0 & Hin & _ & [Hk|(t & (g & Hg & Hn) & Hk)]).
  - eapply deconflicter_not_user; [| | |exact Hk];
      [eapply (wf_split _ wf), new_in|eapply (wf_name _ wf), new_in|eapply (wf_name _ wf), old_in, Hin].
  - apply deconflicter_inj in Hk as [Hst Hp].
    + rewrite <- Hst in Hg. apply (split_has_once g Hg). congruence.
    + eapply (wf_split _ wf), new_in.
    + eapply (wf_split _ wf), old_in, Hg.
    + eapply (wf_name _ wf), new_in.
    + eapply (wf_name _ wf), old_in, Hin.
Qed.

(** The existing entry of the name comes from another split. *)

Lemma existing_origin e :
  m !! NameWithPath f = Some e -> exists s0 f0, (s0, f0) ∈ done /\ version_of e s0 f0 /\
    NameWithPath f0 = NameWithPath f /\ s0 <> s /\ NameWithPath (me_entry e) = NameWithPath f.
Proof.
  intros E. pose proof (mi_names _ _ inv _ _ E) as Hn.
  destruct (mi_origin _ _ inv _ _ E) as (s0 & f0 & Hin & Hv & [Hk|(t & (g & Hg & _) & Hk)]).
  - exists s0, f0. split_and!; try done. intros Hss. rewrite Hss in Hin. by eapply (split_has_once f0).
  - exfalso. eapply deconflicter_not_user; [| | |exact (eq_sym Hk)].
    + eapply (wf_split _ wf), old_in, Hg.
    + eapply (wf_name _ wf), old_in, Hin.
    + eapply (wf_name _ wf), new_in.
Qed.

Lemma slot_not_main : deconf s (NameWithPath f) <> NameWithPath f.
Proof.
  apply deconflicter_not_user; [eapply (wf_split _ wf), new_in|eapply (wf_name _ wf), new_in..].
Qed.

(** What one entry does to the index. *)

Inductive merge_case (m' : T mergeEntry) : Prop :=
| MFirst : m !! NameWithPath f = None -> m' = <[NameWithPath f := mkMergeEntry f s]> m -> merge_case m'
| MSame e : m !! NameWithPath f = Some e -> Hash f = Hash (me_entry e) -> m' = m -> merge_case m'
| MReplace e : m !! NameWithPath f = Some e -> Hash f <> Hash (me_entry e) -> mode = IgnoreConflicts ->
    (Timestamp (me_entry e) < Timestamp f)%Z -> m' = <[NameWithPath f := mkMergeEntry f s]> m -> merge_case m'
| MNewer e : m !! NameWithPath f = Some e -> Hash f <> Hash (me_entry e) ->
    (Timestamp (me_entry e) < Timestamp f)%Z ->
    m' = <[NameWithPath f := mkMergeEntry f s]>
           (<[deconf s (NameWithPath f) := mkMergeEntry (rename (me_entry e) (deconf s (NameWithPath f))) (me_ID e)]> m) ->
    merge_case m'
| MOlder e : m !! NameWithPath f = Some e -> Hash f <> Hash (me_entry e) ->
    (Timestamp f <= Timestamp (me_entry e))%Z ->
    m' = <[deconf s (NameWithPath f) := mkMergeEntry (rename f (deconf s (NameWithPath f))) s]> m -> merge_case m'
| MDrop e : m !! NameWithPath f = Some e -> Hash f <> Hash (me_entry e) ->
    mode <> EnableConflicts -> mode <> EnableCheckpoints ->
    (Timestamp f <= Timestamp (me_entry e))%Z -> m' = m -> merge_case m'.

Lemma merge_file_case c n st' :
  merge_file mode s f (mkMerger m c n) = Ok st' -> merge_case (mergeIndex st').
Proof.
  unfold merge_file. cbn [mergeIndex conflicts merged].
  destruct (m !! NameWithPath f) as [e|] eqn:E; [|intros H; simplify_eq; by eapply MFirst].
  destruct (existing_origin e E) as (s0 & f0 & Hin & (Hid & _) & Hn & Hne & Hen).
  case_decide; [intros; simplify_eq; by eapply MSame|].
  destruct (Time.IsZero (Timestamp f)); [done|]. unfold Time.After.
  destruct (Z.ltb_spec (Timestamp (me_entry e)) (Timestamp f)).
  - case_decide as Hm; [intros; simplify_eq; destruct Hm as [?|?]; [by eapply MReplace|congruence]|].
    case_decide; [done|]. intros; simplify_eq. cbn [mergeIndex]. rewrite Hen. by eapply MNewer.
  - case_decide; [congruence|]. case_decide.
    + intros; simplify_eq. cbn [mergeIndex]. rewrite Hen. by eapply MOlder.
    + case_decide; [done|]. intros; simplify_eq. eapply MDrop; eauto.
Qed.

Lemma MInv_step m' : merge_case m' -> MInv (done ++ [(s, f)]) m'.
Proof.
  intros Hc. pose proof slot_not_main as Hsm. pose proof slot_free as Hsf.
  assert (Hor : forall k e, m !! k = Some e -> exists s0 f0, (s0, f0) ∈ done ++ [(s, f)] /\ version_of e s0 f0 /\
    (k = NameWithPath f0 \/ exists t, (exists g, (t, g) ∈ done ++ [(s, f)] /\ NameWithPath g = NameWithPath f0) /\
       k = deconf t (NameWithPath f0))).
  { intros k e (s0 & f0 & H1 & H2 & H3)%(mi_origin _ _ inv). exists s0, f0. split; [by apply old_in|].
    split; [done|]. destruct H3 as [?|(t & (g & Hg & Hgn) & Hk)]; [by left|]. right. exists t. split; [|done].
    exists g. split; [by apply old_in|done]. }
  assert (Hnew : version_of (mkMergeEntry f s) s f) by done.
  assert (Hmain : forall e, m !! NameWithPath f = Some e -> forall s1 f1, (s1, f1) ∈ done ++ [(s, f)] ->
            is_Some (m !! NameWithPath f1)).
  { intros e E s1 f1 [H|H]%elem_of_app; [by eapply (mi_main _ _ inv)|]. apply list_elem_of_singleton in H. simplify_eq. eauto. }
  destruct Hc as [E ->|e E _ ->|e E _ _ _ ->|e E _ _ ->|e E _ _ ->|e E _ _ _ _ ->].
  - split.
    + intros k e. rewrite index_lookup_Some. intros [[<- <-]|[_ H]]; [done|by eapply (mi_names _ _ inv)].
    + intros k e. rewrite index_lookup_Some. intros [[<- <-]|[_ H]]; [|by apply Hor].
      exists s, f. split; [apply new_in|]. auto.
    + intros s1 f1 [H|H]%elem_of_app.
      * rewrite index_is_Some. right. by eapply (mi_main _ _ inv).
      * apply list_elem_of_singleton in H. simplify_eq. rewrite index_lookup_eq. eauto.
  - split; [by apply (mi_names _ _ inv)|by apply Hor|by eapply Hmain].
  - split.
    + intros k e'. rewrite index_lookup_Some. intros [[<- <-]|[_ H]]; [done|by eapply (mi_names _ _ inv)].
    + intros k e'. rewrite index_lookup_Some. intros [[<- <-]|[_ H]]; [|by apply Hor].
      exists s, f. split; [apply new_in|]. auto.
    + intros s1 f1 H. rewrite index_is_Some. right. by eapply Hmain.
  - destruct (existing_origin e E) as (s0 & f0 & Hin & (Hid & Hh & Hsz & Hts) & Hn & Hne & Hen). split.
    + intros k e'. rewrite !index_lookup_Some. intros [[<- <-]|[_ [[<- <-]|[_ H]]]]; [done|done|by eapply (mi_names _ _ inv)].
    + intros k e'. rewrite !index_lookup_Some. intros [[<- <-]|[_ [[<- <-]|[_ H]]]]; [| |by apply Hor].
      * exists s, f. split; [apply new_in|]. auto.
      * exists s0, f0. split; [by apply old_in|]. split; [done|]. right. exists s. rewrite Hn. split; [|done].
        exists f. split; [apply new_in|done].
    + intros s1 f1 H. rewrite !index_is_Some. right; right. by eapply Hmain.
  - split.
    + intros k e'. rewrite index_lookup_Some. intros [[<- <-]|[_ H]]; [done|by eapply (mi_names _ _ inv)].
    + intros k e'. rewrite index_lookup_Some. intros [[<- <-]|[_ H]]; [|by apply Hor].
      exists s, f. split; [apply new_in|]. split; [done|]. right. exists s. split; [|done].
      exists f. split; [apply new_in|done].
    + intros s1 f1 H. rewrite index_is_Some. right. by eapply Hmain.
  - split; [by apply (mi_names _ _ inv)|by apply Hor|by eapply Hmain].
Qed.

Lemma kept_step m' : saves -> merge_case m' -> kept done m -> kept (done ++ [(s, f)]) m'.
Proof.
  intros Hs Hc Hk. destruct (saves_not_others Hs) as [Hni _]. pose proof slot_not_main as Hsm. pose proof slot_free as Hsf.
  assert (Hlift : forall p k, (k = p \/ exists t g, (t, g) ∈ done /\ NameWithPath g = p /\ k = deconf t p) ->
     k = p \/ exists t g, (t, g) ∈ done ++ [(s, f)] /\ NameWithPath g = p /\ k = deconf t p).
  { intros p k [?|(t & g & ? & ?)]; [by left|]. right. exists t, g. split; [by apply old_in|done]. }
  assert (Hold : forall m2 : T mergeEntry, (forall k e, m !! k = Some e -> m2 !! k = Some e) ->
     forall s1 f1, (s1, f1) ∈ done -> exists k e, m2 !! k = Some e /\ Hash (me_entry e) = Hash f1 /\
       (k = NameWithPath f1 \/ exists t g, (t, g) ∈ done ++ [(s, f)] /\ NameWithPath g = NameWithPath f1 /\ k = deconf t (NameWithPath f1))).
  { intros m2 Hm s1 f1 (k & e & H1 & H2 & H3)%Hk. exists k, e. auto. }
  assert (Hins : forall k x, m !! k = None -> forall k' e, m !! k' = Some e -> <[k := x]> m !! k' = Some e).
  { intros k x Hn k' e He. rewrite index_lookup_ne; [done|congruence]. }
  assert (Hslot : exists t g, (t, g) ∈ done ++ [(s, f)] /\ NameWithPath g = NameWithPath f /\ deconf s (NameWithPath f) = deconf t (NameWithPath f)).
  { exists s, f. split; [apply new_in|done]. }
  intros s1 f1 [Hin|Hin]%elem_of_app.
  - destruct Hc as [E ->|e E _ ->|e E _ Hmd _ _|e E _ _ ->|e E _ _ ->|e E _ _ _ _ ->]; try (eapply Hold; by eauto).
    destruct (Hk _ _ Hin) as (k & e1 & H1 & H2 & H3).
    destruct (decide (k = NameWithPath f)) as [->|Hne].
    + assert (e1 = e) as -> by congruence.
      assert (NameWithPath f1 = NameWithPath f) as Hn.
      { destruct H3 as [?|(t & g & Hg & Hgn & Hd)]; [done|]. exfalso.
        eapply deconflicter_not_user; [| | |exact (eq_sym Hd)];
          [eapply (wf_split _ wf), old_in, Hg|eapply (wf_name _ wf), old_in, Hin|eapply (wf_name _ wf), new_in]. }
      exists (deconf s (NameWithPath f)), (mkMergeEntry (rename (me_entry e) (deconf s (NameWithPath f))) (me_ID e)).
      rewrite index_lookup_ne, index_lookup_eq by done. split; [done|]. split; [done|]. rewrite Hn. by right.
    + exists k, e1. rewrite index_lookup_ne by done. rewrite (Hins _ _ Hsf _ _ H1). auto.
  - apply list_elem_of_singleton in Hin. injection Hin as -> ->.
    destruct Hc as [E ->|e E Hh ->|e E _ _ _ ->|e E _ _ ->|e E _ _ ->|e E _ Hn1 Hn2 _ ->].
    + exists (NameWithPath f), (mkMergeEntry f s). rewrite index_lookup_eq. auto.
    + exists (NameWithPath f), e. auto.
    + exists (NameWithPath f), (mkMergeEntry f s). rewrite index_lookup_eq. auto.
    + exists (NameWithPath f), (mkMergeEntry f s). rewrite index_lookup_eq. auto.
    + exists (deconf s (NameWithPath f)), (mkMergeEntry (rename f (deconf s (NameWithPath f))) s).
      rewrite index_lookup_eq. auto.
    + destruct Hs; done.
Qed.

(** The entry of this name after the step. *)

Lemma main_after m' : merge_case m' -> exists e, m' !! NameWithPath f = Some e /\
  ((me_entry e = f /\ forall e0, m !! NameWithPath f = Some e0 -> (Timestamp (me_entry e0) < Timestamp f)%Z) \/
   (m !! NameWithPath f = Some e /\ (Hash f = Hash (me_entry e) \/ (Timestamp f <= Timestamp (me_entry e))%Z))).
Proof.
  pose proof slot_not_main as Hsm.
  intros [E ->|e E Hh ->|e E _ _ Ht ->|e E _ Ht ->|e E _ Ht ->|e E _ _ _ Ht ->].
  - eexists. rewrite index_lookup_eq. split; [done|]. left. split; [done|congruence].
  - exists e. auto.
  - eexists. rewrite index_lookup_eq. split; [done|]. left. split; [done|]. intros e0 ?. by assert (e0 = e) as -> by congruence.
  - eexists. rewrite index_lookup_eq. split; [done|]. left. split; [done|]. intros e0 ?. by assert (e0 = e) as -> by congruence.
  - exists e. rewrite index_lookup_ne by done. auto.
  - exists e. auto.
Qed.

(** The entries of other names are untouched. *)

Lemma other_after m' p : merge_case m' -> p <> NameWithPath f -> p <> deconf s (NameWithPath f) -> m' !! p = m !! p.
Proof.
  intros [E ->|e E Hh ->|e E _ _ Ht ->|e E _ Ht ->|e E _ Ht ->|e E _ _ _ Ht ->] H1 H2;
    rewrite ?index_lookup_ne; done.
Qed.

Lemma latest_step m' : distinct_contents (done ++ [(s, f)]) -> merge_case m' -> latest done m -> latest (done ++ [(s, f)]) m'.
Proof.
  intros Hdc Hc Hl. destruct (main_after m' Hc) as (e & E & Hcase).
  assert (Htime : (Timestamp f <= Timestamp (me_entry e))%Z /\
    (m !! NameWithPath f = Some e \/ me_entry e = f /\ forall e0, m !! NameWithPath f = Some e0 -> (Timestamp (me_entry e0) < Timestamp f)%Z)).
  { destruct Hcase as [[-> ?]|[E0 [Hh|?]]]; [split; [lia|auto]| |auto].
    destruct (existing_origin e E0) as (s0 & f0 & Hin & (_ & Hh0 & _) & Hn & Hne & _). exfalso. apply Hne.
    assert ((s0, f0) = (s, f)) as Heq.
    { apply Hdc; [by apply old_in|apply new_in|done|congruence]. }
    congruence. }
  destruct Htime as [Hf Hold]. intros s1 f1 e1 Hin E1.
  destruct (decide (NameWithPath f1 = NameWithPath f)) as [Hn|Hn].
  - rewrite Hn, E in E1. injection E1 as <-. apply elem_of_app in Hin as [Hin|Hin].
    + destruct Hold as [E0|[He Hlt]]; [eapply Hl; [done|by rewrite Hn]|].
      destruct (mi_main _ _ inv _ _ Hin) as [e0 E0]. pose proof (Hl _ _ _ Hin E0) as Hle.
      rewrite Hn in E0. specialize (Hlt _ E0). rewrite He. lia.
    + apply list_elem_of_singleton in Hin. injection Hin as -> ->. done.
  - apply elem_of_app in Hin as [Hin|Hin]; [|apply list_elem_of_singleton in Hin; injection Hin as -> ->; done].
    eapply Hl; [done|]. rewrite <- E1. symmetry. apply other_after; [done..|]. intros Hd.
    eapply deconflicter_not_user; [| | |exact (eq_sym Hd)];
      [eapply (wf_split _ wf), new_in|eapply (wf_name _ wf), new_in|eapply (wf_name _ wf), old_in, Hin].
Qed.

(** Whether the entry agrees with the one of its name. *)

Lemma agree_new : agree done -> (forall e, m !! NameWithPath f = Some e -> Hash f = Hash (me_entry e)) ->
  agree (done ++ [(s, f)]).
Proof.
  intros Ha He. assert (Hnew : forall s1 g, (s1, g) ∈ done -> NameWithPath g = NameWithPath f -> Hash g = Hash f).
  { intros s1 g Hg Hn. destruct (mi_main _ _ inv _ _ Hg) as [e E]. rewrite Hn in E.
    destruct (existing_origin e E) as (s0 & f0 & Hin & (_ & Hh & _) & Hn0 & _).
    rewrite (He e E), Hh. eapply Ha; [done..|congruence]. }
  intros s1 f1 t g [H1|H1]%elem_of_app [H2|H2]%elem_of_app Hn.
  - by eapply Ha.
  - apply list_elem_of_singleton in H2. injection H2 as -> ->. by eapply Hnew.
  - apply list_elem_of_singleton in H1. injection H1 as -> ->. symmetry. by eapply Hnew.
  - apply list_elem_of_singleton in H1, H2. injection H1 as -> ->. injection H2 as -> ->. done.
Qed.

Lemma disagree_new e : m !! NameWithPath f = Some e -> Hash f <> Hash (me_entry e) -> ~ agree (done ++ [(s, f)]).
Proof.
  intros E Hne Ha. destruct (existing_origin e E) as (s0 & f0 & Hin & (_ & Hh & _) & Hn0 & _).
  apply Hne. rewrite Hh. eapply Ha; [apply new_in|by apply old_in|done].
Qed.

(** The outcomes of a step. *)

Lemma merge_file_outcome c n :
  (exists m', merge_file mode s f (mkMerger m c n) = Ok (mkMerger m' c (S n)) /\
     (saves \/ mode = ForbidConflicts -> forall e, m !! NameWithPath f = Some e -> Hash f = Hash (me_entry e))) \/
  (exists m', merge_file mode s f (mkMerger m c n) = Ok (mkMerger m' (S c) (S n)) /\ mode <> ForbidConflicts /\
     exists e, m !! NameWithPath f = Some e /\ Hash f <> Hash (me_entry e)) \/
  (merge_file mode s f (mkMerger m c n) = Err forbidden /\ mode = ForbidConflicts /\
     exists e, m !! NameWithPath f = Some e /\ Hash f <> Hash (me_entry e)).
Proof.
  unfold merge_file. cbn [mergeIndex conflicts merged].
  destruct (m !! NameWithPath f) as [e|] eqn:E; [|left; eexists; split; [done|congruence]].
  destruct (existing_origin e E) as (s0 & f0 & Hin & (Hid & _) & Hn & Hne & Hen).
  case_decide as Hh; [left; eexists; split; [done|intros _ e0 [= <-]; done]|].
  assert (Hex : exists e0, Some e = Some e0 /\ Hash f <> Hash (me_entry e0)) by eauto.
  assert (Time.IsZero (Timestamp f) = false) as ->.
  { unfold Time.IsZero. apply Z.eqb_neq. eapply (wf_time _ wf), new_in. }
  destruct (Time.After _ _).
  - case_decide as Hm.
    { left. eexists. split; [done|]. destruct Hm as [Hm|]; [|congruence]. unfold saves. rewrite Hm.
      intros [[?|?]|?]; done. }
    case_decide; [right; right; auto|]. right; left. eauto.
  - case_decide; [congruence|]. case_decide as Hm.
    { right; left. eexists. split; [done|]. split; [|done]. destruct Hm as [Hm|Hm]; rewrite Hm; done. }
    case_decide; [right; right; auto|]. left. eexists. split; [done|]. intros [?|?]; done.
Qed.

End step.


(** ** The whole input *)

Lemma merge_files_app a b st :
  merge_files mode (a ++ b) st = (st' ← merge_files mode a st; merge_files mode b st').
Proof.
  revert st. induction a as [|[s f] a IH]; intros st; [done|]. cbn [app merge_files].
  destruct (merge_file mode s f st); [|done|done]. apply IH.
Qed.

Lemma well_formed_prefix a b : well_formed (a ++ b) -> well_formed a.
Proof.
  intros [H1 H2 H3 H4]. split.
  - rewrite fmap_app in H1. by apply NoDup_app in H1 as [? _].
  - intros s f ?. apply (H2 s f). set_solver.
  - intros s f ?. apply (H3 s f). set_solver.
  - intros s f ?. apply (H4 s f). set_solver.
Qed.

Lemma agree_prefix a b : agree (a ++ b) -> agree a.
Proof. intros H s f t g ??. apply (H s f t g); set_solver. Qed.

Lemma distinct_prefix a b : distinct_contents (a ++ b) -> distinct_contents a.
Proof. intros H s f t g ??. apply (H s f t g); set_solver. Qed.

Record Merged (ins : list (string * BundleEntry)) (st : merger) : Prop := {
  mg_inv : MInv ins (mergeIndex st);
  mg_kept : saves -> kept ins (mergeIndex st);
  mg_latest : distinct_contents ins -> latest ins (mergeIndex st);
  mg_conflicts : saves -> (conflicts st = 0 <-> agree ins);
  mg_forbid : mode = ForbidConflicts -> agree ins
}.

Lemma Merged_empty : Merged [] emptyMerger.
Proof.
  split.
  - split; [intros k e H|intros k e H|]; [rewrite index_lookup_empty in H; done..|set_solver].
  - intros _ s f H. set_solver.
  - intros _ s f e H. set_solver.
  - intros _. split; [|done]. intros _ s f t g H. set_solver.
  - intros _ s f t g H. set_solver.
Qed.

(** What a well-formed input gives. *)

Lemma merge_files_outcome ins : well_formed ins ->
  (exists st, merge_files mode ins emptyMerger = Ok st /\ Merged ins st) \/
  (merge_files mode ins emptyMerger = Err forbidden /\ mode = ForbidConflicts /\ ~ agree ins).
Proof.
  induction ins as [|[s f] ins IH] using rev_ind; intros wf; [left; eexists; split; [done|apply Merged_empty]|].
  rewrite merge_files_app. destruct (IH (well_formed_prefix _ _ wf)) as [(st & -> & Hm)|(-> & Hmd & Ha)].
  2:{ right. split; [done|]. split; [done|]. contradict Ha. by eapply agree_prefix. }
  destruct st as [m c n], Hm as [Hi Hk Hl Hc Hf]. cbn [mbind res_bind mergeIndex conflicts] in *.
  cbn [merge_files].
  destruct (merge_file_outcome ins s f m wf Hi c n) as [(m' & E & Hag)|[(m' & E & Hnf & e & Ee & Hne)|(E & Hmd & e & Ee & Hne)]];
    rewrite E; cbn [mbind res_bind].
  - left. eexists. split; [done|]. pose proof (merge_file_case ins s f m wf Hi _ _ _ E) as Hcase. cbn [mergeIndex] in Hcase.
    split; cbn [mergeIndex conflicts].
    + by eapply MInv_step.
    + intros Hs. exact (kept_step ins s f m wf Hi m' Hs Hcase (Hk Hs)).
    + intros Hd. exact (latest_step ins s f m wf Hi m' Hd Hcase (Hl (distinct_prefix _ _ Hd))).
    + intros Hs. split; [|intros H; by apply Hc, (agree_prefix _ _ H)].
      intros H. apply (agree_new ins s f m wf Hi); [by apply Hc|apply Hag; by left].
    + intros Hmd. apply (agree_new ins s f m wf Hi); [by apply Hf|apply Hag; by right].
  - left. eexists. split; [done|]. pose proof (merge_file_case ins s f m wf Hi _ _ _ E) as Hcase. cbn [mergeIndex] in Hcase.
    split; cbn [mergeIndex conflicts].
    + by eapply MInv_step.
    + intros Hs. exact (kept_step ins s f m wf Hi m' Hs Hcase (Hk Hs)).
    + intros Hd. exact (latest_step ins s f m wf Hi m' Hd Hcase (Hl (distinct_prefix _ _ Hd))).
    + intros Hs. split; [done|]. intros Ha. by destruct (disagree_new ins s f m wf Hi e Ee Hne).
    + done.
  - right. split; [done|]. split; [done|]. by eapply disagree_new.
Qed.

(** Two splits disagree on a file. *)

Definition has_conflict (ins : list (string * BundleEntry)) : bool :=
  existsb (fun x => existsb (fun y => bool_decide (NameWithPath x.2 = NameWithPath y.2) && bool_decide (Hash x.2 <> Hash y.2)) ins) ins.

Lemma has_conflict_spec ins : has_conflict ins = false <-> agree ins.
Proof.
  unfold has_conflict, agree. rewrite <- not_true_iff_false, existsb_exists. split.
  - intros H s f t g Hf Hg Hn. destruct (decide (Hash f = Hash g)) as [|Hne]; [done|]. exfalso. apply H.
    exists (s, f). rewrite <- list_elem_of_In. split; [done|]. apply existsb_exists. exists (t, g).
    rewrite <- list_elem_of_In. split; [done|]. simpl. rewrite !bool_decide_true by done. done.
  - intros H ([s f] & Hf%list_elem_of_In & ([t g] & Hg%list_elem_of_In & [Hn Hh]%andb_true_iff)%existsb_exists).
    simpl in Hn, Hh. apply bool_decide_eq_true in Hn, Hh. apply Hh. by eapply H.
Qed.

Lemma has_conflict_count ins c : (c = 0 <-> agree ins) -> (0 <? c) = has_conflict ins.
Proof.
  rewrite <- has_conflict_spec. intros H. destruct (Nat.ltb_spec 0 c), (has_conflict ins) eqn:E; try done.
  - assert (c = 0) by (by apply H). lia.
  - assert (true = false) by (apply H; lia). done.
Qed.

Section output.
Variables (ins : list (string * BundleEntry)) (m : T mergeEntry).
Hypothesis inv : MInv ins m.

Lemma walk_names k e : (k, e) ∈ r_Walk m -> k = name_key (NameWithPath (me_entry e)).
Proof.
  intros H%r_Walk_spec. set (name := String.string_of_list_byte k).
  assert (name_key name = k) as Hk by apply String.list_byte_of_string_of_list_byte.
  rewrite <- Hk in *. f_equal. symmetry. by apply (mi_names _ _ inv).
Qed.

Lemma output_keys : (fun p => name_key (fp_name p)) <$> (mergeEntryToFilePacked <$> (r_Walk m).*2) = (r_Walk m).*1.
Proof.
  rewrite <- !list_fmap_compose. apply list_eq. intros i. rewrite !list_lookup_fmap.
  destruct (r_Walk m !! i) as [[k e]|] eqn:E; [|done]. simpl. f_equal. symmetry.
  apply walk_names. by apply list_elem_of_lookup_2 in E.
Qed.

Lemma output_elem p : p ∈ (mergeEntryToFilePacked <$> (r_Walk m).*2) <->
  exists e, m !! fp_name p = Some e /\ p = mergeEntryToFilePacked e.
Proof.
  rewrite list_elem_of_fmap. split.
  - intros (e & -> & ([k e'] & -> & H)%list_elem_of_fmap). exists e'. split; [|done].
    pose proof (walk_names _ _ H) as ->. by apply r_Walk_spec in H.
  - intros (e & E & ->). exists e. split; [done|]. apply list_elem_of_fmap.
    exists (name_key (NameWithPath (me_entry e)), e). split; [done|]. by apply r_Walk_spec.
Qed.

Lemma output_sorted : StronglySorted bytes_le ((fun p => name_key (fp_name p)) <$> (mergeEntryToFilePacked <$> (r_Walk m).*2)) /\
  NoDup ((fun p => fp_name p) <$> (mergeEntryToFilePacked <$> (r_Walk m).*2)).
Proof.
  split; [rewrite output_keys; apply r_Walk_sorted|].
  apply (NoDup_fmap_1 name_key). rewrite <- list_fmap_compose. change (name_key ∘ _) with (fun p => name_key (fp_name p)).
  rewrite output_keys. apply r_Walk_NoDup.
Qed.

End output.

End invariant.

(** ** The merge of a diamond *)

(** The location of a version of [f]: its name, or the location of a conflict
    of a split that has this name too. *)

Definition location (mode : ConflictMode) (ins : list (string * BundleEntry)) (f : BundleEntry) (name : string) : Prop :=
  name = NameWithPath f \/
  exists t g, (t, g) ∈ ins /\ NameWithPath g = NameWithPath f /\ name = deconflicter mode t (NameWithPath f).

(** The merge in a mode that saves the losers of a conflict. *)

Lemma mergeSplits_saves mode batches :
  mode = EnableConflicts \/ mode = EnableCheckpoints -> well_formed (entries_of batches) ->
  exists out, mergeSplits mode batches =
    Ok (out, bool_decide (mode = EnableConflicts) && has_conflict (entries_of batches),
             bool_decide (mode = EnableCheckpoints) && has_conflict (entries_of batches)) /\
  StronglySorted bytes_le ((fun p => name_key (fp_name p)) <$> out) /\ NoDup (fp_name <$> out) /\
  (forall s f, (s, f) ∈ entries_of batches -> exists p, p ∈ out /\ fp_hash p = Hash f /\
     location mode (entries_of batches) f (fp_name p)) /\
  (forall s f, (s, f) ∈ entries_of batches -> exists p, p ∈ out /\ fp_name p = NameWithPath f) /\
  (forall p, p ∈ out -> exists s f, (s, f) ∈ entries_of batches /\ fp_hash p = Hash f /\ fp_size p = be_Size f /\
     location mode (entries_of batches) f (fp_name p)).
Proof.
  intros Hs wf. set (ins := entries_of batches) in *.
  destruct (merge_files_outcome mode ins wf) as [(st & E & [Hi Hk _ Hc _])|(_ & Hf & _)];
    [|by destruct (saves_not_others mode Hs)].
  destruct (output_sorted _ _ _ Hi) as [Hso Hnd].
  eexists. split_and!; [|exact Hso|exact Hnd|..].
  - unfold mergeSplits. fold ins. rewrite E. cbn [mbind res_bind mret res_ret].
    rewrite (has_conflict_count _ _ (Hc Hs)). destruct Hs as [-> | ->]; rewrite ?andb_true_r, ?andb_false_r; done.
  - intros s f (k & e & Ek & Hh & Hl)%(Hk Hs). exists (mergeEntryToFilePacked e).
    pose proof (mi_names _ _ _ Hi _ _ Ek) as Hn. simpl. rewrite Hn. split; [|done]. eapply output_elem; [done|].
    exists e. simpl. rewrite Hn. done.
  - intros s f ([e Ee] & Hin)%(fun H => conj (mi_main _ _ _ Hi _ _ H) H). pose proof (mi_names _ _ _ Hi _ _ Ee) as Hn.
    exists (mergeEntryToFilePacked e). split; [|done]. eapply output_elem; [done|]. exists e. simpl. by rewrite Hn.
  - intros p (e & Ee & ->)%(output_elem _ _ _ Hi _).
    destruct (mi_origin _ _ _ Hi _ _ Ee) as (s & f & Hin & (_ & Hh & Hz & _) & Hl). exists s, f. simpl in *.
    split_and!; [done..|]. destruct Hl as [?|(t & (g & ? & ?) & ?)]; [by left|right; eauto].
Qed.

(** C19: With conflicts or checkpoints enabled, the merge of well-formed splits
    never fails and loses no version of any file: every entry of every split
    has its contents in the bundle, under its own name or under the location
    of a conflict for that name; every name of a split is a file of the bundle;
    the bundle has no other files, one entry per name, in the order of the
    names; and the flags of the diamond tell whether two splits disagree. *)
Theorem mergeSplits_keeps_versions mode batches :
  mode = EnableConflicts \/ mode = EnableCheckpoints -> well_formed (entries_of batches) ->
  exists out, mergeSplits mode batches =
    Ok (out, bool_decide (mode = EnableConflicts) && has_conflict (entries_of batches),
             bool_decide (mode = EnableCheckpoints) && has_conflict (entries_of batches)) /\
  StronglySorted bytes_le ((fun p => name_key (fp_name p)) <$> out) /\ NoDup (fp_name <$> out) /\
  (forall s f, (s, f) ∈ entries_of batches -> exists p, p ∈ out /\ fp_hash p = Hash f /\
     location mode (entries_of batches) f (fp_name p)) /\
  (forall s f, (s, f) ∈ entries_of batches -> exists p, p ∈ out /\ fp_name p = NameWithPath f) /\
  (forall p, p ∈ out -> exists s f, (s, f) ∈ entries_of batches /\ fp_hash p = Hash f /\ fp_size p = be_Size f /\
     location mode (entries_of batches) f (fp_name p)).
Proof. apply mergeSplits_saves. Qed.

(** C20: Whatever the order in which the entries arrive, the bundle has under
    the name of a file the contents and size of its latest version, and nothing
    else, when conflicts are not forbidden and the contents uploaded under one
    name differ. *)
Theorem mergeSplits_latest_wins mode batches s f :
  mode <> ForbidConflicts -> well_formed (entries_of batches) -> distinct_contents (entries_of batches) ->
  (s, f) ∈ entries_of batches ->
  (forall t g, (t, g) ∈ entries_of batches -> NameWithPath g = NameWithPath f -> (t, g) <> (s, f) ->
     Time.Before (Timestamp g) (Timestamp f) = true) ->
  exists out hc hk, mergeSplits mode batches = Ok (out, hc, hk) /\
    forall p, p ∈ out /\ fp_name p = NameWithPath f <->
      p = mkFilePacked (Hash f) (NameWithPath f) [] (be_Size f) false 0 Time.zero.
Proof.
  intros Hmd wf Hd Hin Hlast. set (ins := entries_of batches) in *.
  destruct (merge_files_outcome mode ins wf) as [(st & E & [Hi _ Hl _ _])|(_ & Hf & _)]; [|done].
  unfold mergeSplits. fold ins. rewrite E. cbn [mbind res_bind mret res_ret].
  do 3 eexists. split; [done|].
  destruct (mi_main _ _ _ Hi _ _ Hin) as [e Ee]. pose proof (mi_names _ _ _ Hi _ _ Ee) as Hn.
  assert (mergeEntryToFilePacked e = mkFilePacked (Hash f) (NameWithPath f) [] (be_Size f) false 0 Time.zero) as Hp.
  { pose proof (Hl Hd _ _ _ Hin Ee) as Hle.
    destruct (mi_origin _ _ _ Hi _ _ Ee) as (t & g & Hg & (_ & Hh & Hz & Ht) & [Hk|(t' & (g' & Hg' & _) & Hk)]).
    - destruct (decide ((t, g) = (s, f))) as [[= -> ->]|Hne]; [unfold mergeEntryToFilePacked; by rewrite Hh, Hz, Hn|].
      pose proof (Hlast _ _ Hg (eq_sym Hk) Hne) as Hb%Z.ltb_lt. lia.
    - exfalso. eapply deconflicter_not_user; [| | |exact (eq_sym Hk)];
        [eapply (wf_split _ wf), Hg'|eapply (wf_name _ wf), Hg|eapply (wf_name _ wf), Hin]. }
  intros p. rewrite (output_elem _ _ _ Hi p). split.
  - intros [(e' & Ee' & ->) Hpn]. rewrite Hpn in Ee'. rewrite Ee in Ee'. injection Ee' as <-. done.
  - intros ->. split; [|done]. exists e. done.
Qed.

(** With conflicts forbidden the merge succeeds exactly when all splits
    agree on the contents of the files they share, and then the bundle has one
    file for every name, with the contents the splits agree on; otherwise
    the commit is given up. *)
Theorem mergeSplits_forbid_conflicts batches :
  well_formed (entries_of batches) ->
  if has_conflict (entries_of batches) then mergeSplits ForbidConflicts batches = Err forbidden
  else exists out hc hk, mergeSplits ForbidConflicts batches = Ok (out, hc, hk) /\ NoDup (fp_name <$> out) /\
    forall s f, (s, f) ∈ entries_of batches ->
      exists p, p ∈ out /\ fp_name p = NameWithPath f /\ fp_hash p = Hash f.
Proof.
  intros wf. set (ins := entries_of batches) in *. unfold mergeSplits. fold ins.
  destruct (merge_files_outcome ForbidConflicts ins wf) as [(st & -> & [Hi _ _ _ Ha])|(-> & _ & Ha)].
  - specialize (Ha eq_refl). rewrite (proj2 (has_conflict_spec ins) Ha). cbn [mbind res_bind mret res_ret].
    do 3 eexists. split; [done|]. split; [exact (proj2 (output_sorted _ _ _ Hi))|].
    intros s f Hin. destruct (mi_main _ _ _ Hi _ _ Hin) as [e Ee]. pose proof (mi_names _ _ _ Hi _ _ Ee) as Hn.
    exists (mergeEntryToFilePacked e). split; [eapply output_elem; [done|]; exists e; simpl; by rewrite Hn|].
    split; [done|]. simpl.
    destruct (mi_origin _ _ _ Hi _ _ Ee) as (t & g & Hg & (_ & -> & _) & [Hk|(t' & (g' & Hg' & _) & Hk)]).
    + eapply Ha; eauto.
    + exfalso. eapply deconflicter_not_user; [| | |exact (eq_sym Hk)];
        [eapply (wf_split _ wf), Hg'|eapply (wf_name _ wf), Hg|eapply (wf_name _ wf), Hin].
  - destruct (has_conflict ins) eqn:E; [done|]. by apply has_conflict_spec in E.
Qed.

End merge.

(** ** Concrete merges *)

Definition entry (h n : string) (t : Time.Time) : BundleEntry := mkBundleEntry h n 0%Z 1%Z t.

Definition two_splits : list (string * list BundleEntry) :=
  [("s1", [entry "h1" "a" 5%Z; entry "h2" "dir/b" 3%Z]); ("s2", [entry "h3" "a" 7%Z])].

Lemma two_splits_well_formed : well_formed (entries_of two_splits).
Proof.
  assert (Hp : forall n, n ∈ ["a"; "dir/b"] -> user_name n).
  { intros n [<-|[<-|[]]]%list_elem_of_In; [exists ["a"]|exists ["dir"; "b"]];
      (split_and!; [done|repeat constructor; apply (bool_decide_unpack _); vm_compute; exact I|by vm_compute..]). }
  split.
  - apply (bool_decide_unpack _). vm_compute. exact I.
  - intros s f H. assert (s = "s1" \/ s = "s2") as [->| ->]; [|apply (bool_decide_unpack _); vm_compute; exact I..].
    apply list_elem_of_In in H. destruct H as [[= <- <-]|[[= <- <-]|[[= <- <-]|[]]]]; auto.
  - intros s f H. apply Hp. apply list_elem_of_In in H. apply list_elem_of_In.
    destruct H as [[= <- <-]|[[= <- <-]|[[= <- <-]|[]]]]; vm_compute; auto.
  - intros s f H. apply list_elem_of_In in H. destruct H as [[= <- <-]|[[= <- <-]|[[= <- <-]|[]]]]; done.
Qed.

Lemma two_splits_distinct : distinct_contents (entries_of two_splits).
Proof.
  intros s f t g H1%list_elem_of_In H2%list_elem_of_In.
  destruct H1 as [[= <- <-]|[[= <- <-]|[[= <- <-]|[]]]], H2 as [[= <- <-]|[[= <- <-]|[[= <- <-]|[]]]]; done.
Qed.

Lemma mergeSplits_keeps_versions_witness :
  exists out, mergeSplits (T := gmap bytes) EnableConflicts two_splits = Ok (out, true, false) /\
    exists p, p ∈ out /\ fp_hash p = "h1" /\ location EnableConflicts (entries_of two_splits) (entry "h1" "a" 5%Z) (fp_name p).
Proof.
  destruct (mergeSplits_keeps_versions (T := gmap bytes) EnableConflicts two_splits (or_introl eq_refl) two_splits_well_formed)
    as (out & E & _ & _ & H & _).
  exists out. split; [exact E|]. apply (H "s1" (entry "h1" "a" 5%Z)). apply list_elem_of_In. vm_compute. auto.
Defined.

Lemma mergeSplits_latest_wins_witness :
  exists out hc hk, mergeSplits (T := gmap bytes) IgnoreConflicts two_splits = Ok (out, hc, hk) /\
    forall p, p ∈ out /\ fp_name p = "a" <-> p = mkFilePacked "h3" "a" [] 1%Z false 0%Z Time.zero.
Proof.
  apply (mergeSplits_latest_wins (T := gmap bytes) IgnoreConflicts two_splits "s2" (entry "h3" "a" 7%Z)).
  - done.
  - apply two_splits_well_formed.
  - apply two_splits_distinct.
  - set_solver.
  - intros t g H%list_elem_of_In. destruct H as [[= <- <-]|[[= <- <-]|[[= <- <-]|[]]]]; done.
Defined.

Lemma mergeSplits_forbid_conflicts_witness :
  mergeSplits (T := gmap bytes) ForbidConflicts two_splits = Err forbidden.
Proof. exact (mergeSplits_forbid_conflicts (T := gmap bytes) two_splits two_splits_well_formed). Defined.

(** An entry whose contents equal those already in the index is skipped
    without moving the time of the index entry: three splits that upload one
    file, the second of them the latest, merge to the contents of the third or
    to those of the second depending only on the order in which the first two
    arrive. *)
Theorem mergeSplits_order_dependent :
  let a := ("s1", [entry "h" "x" 1%Z]) in let b := ("s2", [entry "h" "x" 5%Z]) in let c := ("s3", [entry "h'" "x" 3%Z]) in
  [a; b; c] ≡ₚ [b; a; c] /\
  mergeSplits (T := gmap bytes) IgnoreConflicts [a; b; c] = Ok ([mkFilePacked "h'" "x" [] 1%Z false 0%Z Time.zero], false, false) /\
  mergeSplits (T := gmap bytes) IgnoreConflicts [b; a; c] = Ok ([mkFilePacked "h" "x" [] 1%Z false 0%Z Time.zero], false, false).
Proof. split; [apply perm_swap|]. split; vm_compute; reflexivity. Qed.

End DiamondMerge.
