(* ===== verification/CoreRepo.v ===== *)
(** * Repositories (pkg/core: repo_create.go, repo_validate.go, repo.go)

    A repository is a descriptor in the metadata store of a context; it is
    created once, never overwritten, and checked by the operations on bundles,
    labels and diamonds. *)

From S2P Require Import Prelude GoLib Errors Storage Model Validate CoreMeta StoreRules.

Module CoreRepo.
Import Model Storage CoreMeta StoreRules.

(** strings.Contains *)

Fixpoint Contains (s sub : string) : bool :=
  Strings.HasPrefix s sub ||
  match s with
  | EmptyString => false
  | String _ s' => Contains s' sub
  end.

Section repos.
Context {S : Type} `{HS : !Store S} {HY : Yaml RepoDescriptor}.
Variables IsDigit IsLetter IsHyphen : Z -> bool.

Definition RepoExists (repo : string) : M (Stores S) unit :=
  r ← attempt (GetRepoStore (Has (GetArchivePathToRepoDescriptor repo)));
  match r with
  | inr err => fail (ErrMsg ("repo validation failed: Hit err: " +:+ Errors.to_string err))
  | inl exists_ =>
      if exists_ : bool then mret tt
      else fail (ErrMsg ("repo validation: Repo:" +:+ repo +:+ " does not exist"))
  end.

Definition GetRepo (repo : string) : M (Stores S) RepoDescriptor :=
  o ← getMetaStore (Get (GetArchivePathToRepoDescriptor repo));
  lift (Unmarshal o).

(** When Marshal fails, the variable returned is the error of the validation,
    which is nil. *)

Definition CreateRepo (repo : RepoDescriptor) : M (Stores S) unit :=
  _ ← lift (Validate.ValidateRepo IsDigit IsLetter IsHyphen repo);
  m ← attempt (lift (Marshal repo));
  match m with
  | inr _ => mret tt
  | inl r =>
      p ← attempt (GetRepoStore (Put (GetArchivePathToRepoDescriptor (rd_Name repo)) (NewReader r) NoOverWrite));
      match p with
      | inr err =>
          if Contains (Errors.to_string err) "googleapi: Error 412: Precondition Failed, conditionNotMet"
          then fail (ErrMsg ("repo already exists: " +:+ rd_Name repo))
          else fail err
      | inl _ => mret tt
      end
  end.

End repos.

Section facts.
Context {S : Type} `{HS : !Store S, HSL : !StoreLaws S, HY : !Yaml RepoDescriptor}.

(** The stores are left alone but for the metadata store, whose objects are kept. *)

Lemma RepoExists_keeps repo (c : Stores S) r c' :
  RepoExists repo c = (r, c') -> VMetadata c' = VMetadata c /\ objects (Metadata c') = objects (Metadata c).
Proof.
  unfold RepoExists, attempt, GetRepoStore, getMetaStore, mbind, M_bind, mret, M_ret, fail.
  destruct (Has _ (Metadata c)) as [[b|e|p] s] eqn:E; apply Has_spec in E as [Ho _]; simpl; intros H;
    [destruct b|..]; by simplify_eq/=.
Qed.

Lemma reads_RepoExists {HR : ReliableStore S} repo (c : Stores S) :
  is_Some (objects (Metadata c) !! GetArchivePathToRepoDescriptor repo) -> reads (RepoExists repo) c tt.
Proof.
  intros Hs. unfold RepoExists. apply runs_bind, runs_attempt, runs_meta, runs_Has. intros s' Ho.
  rewrite bool_decide_true by exact Hs. apply runs_ret. split; [done|]. by apply same_SetMetadata.
Qed.

Lemma RepoExists_ok {HR : ReliableStore S} repo (c : Stores S) :
  is_Some (objects (Metadata c) !! GetArchivePathToRepoDescriptor repo) ->
  exists c', RepoExists repo c = (Ok tt, c') /\ VMetadata c' = VMetadata c /\ objects (Metadata c') = objects (Metadata c).
Proof.
  intros Hs. destruct (Has_ok (GetArchivePathToRepoDescriptor repo) (Metadata c)) as (s' & E & Ho).
  exists (SetMetadata s' c). split; [|done].
  unfold RepoExists, attempt, GetRepoStore, getMetaStore, mbind, M_bind. by rewrite E, bool_decide_true.
Qed.

Lemma RepoExists_absent {HR : ReliableStore S} repo (c : Stores S) :
  objects (Metadata c) !! GetArchivePathToRepoDescriptor repo = None ->
  exists e c', RepoExists repo c = (Err e, c').
Proof.
  intros Hs. destruct (Has_ok (GetArchivePathToRepoDescriptor repo) (Metadata c)) as (s' & E & Ho).
  do 2 eexists. unfold RepoExists, attempt, GetRepoStore, getMetaStore, mbind, M_bind.
  rewrite E, bool_decide_false; [done|]. rewrite Hs. by intros [? ?].
Qed.

End facts.

Section theorems.
Context {S : Type} `{HS : !Store S, HSL : !StoreLaws S, HR : !ReliableStore S, HY : !Yaml RepoDescriptor}.
Variables IsDigit IsLetter IsHyphen : Z -> bool.

Abbreviation Create := (CreateRepo (S := S) IsDigit IsLetter IsHyphen).

Abbreviation valid := (Validate.ValidateRepo IsDigit IsLetter IsHyphen).

(** CreateRepo of a valid descriptor creates a repository that then
    exists and reads back as it was given, when there is none of that name;
    when there is one, it fails and leaves the stores as they are. *)
Theorem CreateRepo_correct {HYL : YamlLaws RepoDescriptor} repo (c : Stores S) :
  valid repo = Ok tt ->
  let path := GetArchivePathToRepoDescriptor (rd_Name repo) in
  if decide (is_Some (objects (Metadata c) !! path)) then
    (Create repo c).1 <> Ok tt /\ objects (Metadata (Create repo c).2) = objects (Metadata c)
  else exists c', Create repo c = (Ok tt, c') /\
    (exists c2, RepoExists (rd_Name repo) c' = (Ok tt, c2)) /\
    (exists c2, GetRepo (rd_Name repo) c' = (Ok repo, c2)) /\
    (forall p, p <> path -> objects (Metadata c') !! p = objects (Metadata c) !! p).
Proof.
  intros Hv path.
  destruct (Marshal_total repo) as [b Hb].
  assert (forall r s', Put path (NewReader b) NoOverWrite (Metadata c) = (r, s') ->
    (Create repo c).2 = SetMetadata s' c /\ ((Create repo c).1 = Ok tt <-> r = Ok tt)) as Hrun.
  { intros r s' E. unfold CreateRepo, attempt, lift, GetRepoStore, getMetaStore, mbind, M_bind, fail. rewrite Hv, Hb.
    fold path. rewrite E. destruct r as [[]|e|p]; simpl; [done|case_match; done|done]. }
  case_decide as Hx.
  - destruct (Put path (NewReader b) NoOverWrite (Metadata c)) as [r s'] eqn:E.
    destruct (Hrun _ _ eq_refl) as [-> Hok]. destruct (Put_spec _ _ _ _ _ _ E) as (Hput & _ & Hex).
    split; [|simpl; by apply Hex]. intros ->%Hok. destruct (Hput eq_refl) as [_ Hn].
    rewrite Hn in Hx by done. by destruct Hx.
  - apply eq_None_not_Some in Hx. pose proof (Put_total path b NoOverWrite (Metadata c) (fun _ => Hx)) as Ht.
    destruct (Put path (NewReader b) NoOverWrite (Metadata c)) as [r s'] eqn:E. simpl in Ht. subst r.
    destruct (Hrun _ _ eq_refl) as [H2 H1]. exists (SetMetadata s' c).
    destruct (Put_spec _ _ _ _ _ _ E) as (Hput & _ & _). destruct (Hput eq_refl) as [Ho _].
    assert (objects s' !! path = Some b) as Hp by (by rewrite Ho, lookup_insert_eq). split_and!.
    + rewrite <- H2. by rewrite (surjective_pairing (Create repo c)), (proj2 H1).
    + destruct (RepoExists_ok (rd_Name repo) (SetMetadata s' c)) as (c2 & ? & _); [exists b; exact Hp|eauto].
    + destruct (Get_ok _ _ _ Hp) as (s2 & Eg & _). eexists. unfold GetRepo, getMetaStore, lift, mbind, M_bind.
      cbn [Metadata SetMetadata]. fold path. rewrite Eg. by rewrite (Unmarshal_Marshal _ _ Hb).
    + intros p Hne. simpl. by rewrite Ho, lookup_insert_ne.
Qed.

(** When the codec refuses the descriptor, CreateRepo reports success
    although it has created no repository. *)
Theorem CreateRepo_marshal_failure repo (c : Stores S) e :
  valid repo = Ok tt -> Marshal repo = Err e ->
  objects (Metadata c) !! GetArchivePathToRepoDescriptor (rd_Name repo) = None ->
  Create repo c = (Ok tt, c) /\ exists e' c', RepoExists (rd_Name repo) c = (Err e', c').
Proof.
  intros Hv Hm Hn. split; [|by apply RepoExists_absent].
  unfold CreateRepo, attempt, lift, mbind, M_bind. by rewrite Hv, Hm.
Qed.

End theorems.

(** ** Concrete repositories *)

Section witness.

Definition a_repo : RepoDescriptor := mkRepoDescriptor "repo1" "a repository" 1%Z (mkContributor "n" "n@x.org").

Definition no_stores : Stores (gmap string bytes) := NewStores ∅ ∅ ∅ ∅ ∅.

Definition any_char (_ : Z) : bool := true.

Lemma CreateRepo_correct_witness :
  exists c', CreateRepo (HY := numbered_yaml) any_char any_char any_char a_repo no_stores = (Ok tt, c') /\
    exists c2, GetRepo (HY := numbered_yaml) "repo1" c' = (Ok a_repo, c2).
Proof.
  destruct (CreateRepo_correct (HY := numbered_yaml) any_char any_char any_char (HYL := numbered_yaml_laws) a_repo no_stores eq_refl)
    as (c' & E & _ & Hg & _). exists c'. split; [exact E|exact Hg].
Defined.

Definition failing_yaml : Yaml RepoDescriptor := {|
  Marshal _ := Err (ErrMsg "yaml");
  Unmarshal _ := Err (ErrMsg "yaml")
|}.

Lemma CreateRepo_marshal_failure_witness :
  CreateRepo (HY := failing_yaml) any_char any_char any_char a_repo no_stores = (Ok tt, no_stores).
Proof.
  exact (proj1 (CreateRepo_marshal_failure (HY := failing_yaml) any_char any_char any_char a_repo no_stores (ErrMsg "yaml")
    eq_refl eq_refl eq_refl)).
Defined.

End witness.

End CoreRepo.
