(* ===== verification/CoreLabel.v ===== *)
(** * Labels (pkg/core: label.go, label_options.go)

    A label is a document in the versioned metadata store that names a bundle.
    Uploading a label overwrites its previous version, which a versioned store
    keeps. *)

From S2P Require Import Prelude GoLib Errors Storage Model CoreMeta StoreRules CoreRepo.

Module CoreLabel.
Import Model Storage CoreMeta CoreStatus CoreRepo StoreRules.

(** The interface storage.VersionedStore, which some stores implement. *)

Record VersionedStore (S : Type) : Type := mkVersionedStore {
  IsVersioned : M S bool;
  KeyVersions : string -> M S (list string);
  GetVersion : string -> string -> M S bytes
}.

Arguments IsVersioned {S}.
Arguments KeyVersions {S}.
Arguments GetVersion {S}.

Record Label : Type := mkLabel {
  l_Descriptor : LabelDescriptor;
  l_version : string
}.

Definition LabelOption : Type := Label -> Label.

Definition defaultLabel (now : Time.Time) : Label := mkLabel (NewLabelDescriptor now []) "".

Definition NewLabel (now : Time.Time) (opts : list LabelOption) : Label :=
  fold_left (fun l apply_ => apply_ l) opts (defaultLabel now).

Definition WithLabelDescriptor (r : option LabelDescriptor) : LabelOption := fun l =>
  match r with Some d => mkLabel d (l_version l) | None => l end.

Definition LabelWithVersion (version : string) : LabelOption := fun l => mkLabel (l_Descriptor l) version.

(** The name and the time are left out of the document when they are zero, and
    Unmarshal keeps the fields of its target that the document lacks. *)

Definition over (old new : LabelDescriptor) : LabelDescriptor :=
  mkLabelDescriptor (if decide (ld_Name new = "") then ld_Name old else ld_Name new) (ld_BundleID new)
    (if Time.IsZero (ld_Timestamp new) then ld_Timestamp old else ld_Timestamp new) (ld_Contributors new).

Section labels.
Context {S : Type} `{HS : !Store S} {HY : Yaml LabelDescriptor}.
Variable versioned : option (VersionedStore S).

Definition getLabelStore {A} : M S A -> M (Stores S) A := getVMetaStore.

(** The label is uploaded for the repository and the identifier of a bundle. *)

Definition Label_UploadDescriptor (repoID bundleID : string) (label : Label) : M (Stores S) Label :=
  _ ← RepoExists repoID;
  let d := l_Descriptor label in
  let d' := mkLabelDescriptor (ld_Name d) bundleID (ld_Timestamp d) (ld_Contributors d) in
  buffer ← lift (Marshal d');
  _ ← getVMetaStore (putBuffer (GetArchivePathToLabel repoID (ld_Name d)) buffer OverWrite);
  mret (mkLabel d' (l_version label)).

Fixpoint download_versions (archivePath : string) (v : VersionedStore S) (d : LabelDescriptor) (versions : list string)
    : M (Stores S) (list LabelDescriptor) :=
  match versions with
  | [] => mret []
  | version :: versions' =>
      o ← getLabelStore (GetVersion v archivePath version);
      new ← lift (Unmarshal o);
      let d' := over d new in
      ds ← download_versions archivePath v d' versions';
      mret (d' :: ds)
  end.

Definition DownloadDescriptorVersions (repoID : string) (checkRepoExists : bool) (label : Label)
    : M (Stores S) (list LabelDescriptor) :=
  _ ← (if checkRepoExists then RepoExists repoID else mret tt);
  let archivePath := GetArchivePathToLabel repoID (ld_Name (l_Descriptor label)) in
  has ← getLabelStore (Has archivePath);
  if negb has then fail ErrNotFound
  else
    match versioned with
    | None => fail ErrVersionedStoreRequired
    | Some v =>
        versions ← getLabelStore (KeyVersions v archivePath);
        download_versions archivePath v (l_Descriptor label) versions
    end.

Definition Label_DownloadDescriptor (repoID : string) (checkRepoExists : bool) (label : Label) : M (Stores S) Label :=
  _ ← (if checkRepoExists then RepoExists repoID else mret tt);
  let archivePath := GetArchivePathToLabel repoID (ld_Name (l_Descriptor label)) in
  has ← getLabelStore (Has archivePath);
  if negb has then fail ErrNotFound
  else
    o ← (if decide (l_version label <> "") then
           match versioned with
           | None => fail ErrVersionedStoreRequired
           | Some v => getLabelStore (GetVersion v archivePath (l_version label))
           end
         else getLabelStore (Get archivePath));
    new ← lift (Unmarshal o);
    mret (mkLabel (over (l_Descriptor label) new) (l_version label)).

End labels.

Section facts.
Context {S : Type} `{HS : !Store S, HSL : !StoreLaws S, HR : !ReliableStore S}.
Context {HY : Yaml LabelDescriptor} {HYL : YamlLaws LabelDescriptor}.
Variable versioned : option (VersionedStore S).

(** A label reads back as the document over the descriptor asked for. *)

Lemma reads_label repo label ld c :
  l_version label = "" -> document (VMetadata c) (GetArchivePathToLabel repo (ld_Name (l_Descriptor label))) ld ->
  reads (Label_DownloadDescriptor versioned repo false label) c (mkLabel (over (l_Descriptor label) ld) "").
Proof.
  intros Hv (b & Hb & Hu). unfold Label_DownloadDescriptor.
  apply runs_bind, runs_ret, runs_bind, runs_vmeta, runs_Has. intros s1 Ho1.
  rewrite bool_decide_true by eauto. cbn [negb]. rewrite decide_False by tauto.
  apply runs_bind, runs_vmeta. eapply runs_Get; [cbn; rewrite Ho1; exact Hb|]. intros s2 Ho2.
  apply runs_bind. eapply runs_lift; [exact Hu|]. apply runs_ret. split; [by rewrite Hv|].
  etrans; [by apply (same_SetVMetadata c s1)|]. by apply same_SetVMetadata.
Qed.

Definition labels (c : Stores S) (repo name : string) : option LabelDescriptor :=
  match objects (VMetadata c) !! GetArchivePathToLabel repo name with
  | Some b => match Unmarshal b with Ok d => Some d | _ => None end
  | None => None
  end.

(** A label that is uploaded for a bundle, whether or not the name was in
    use, is the one a download then returns, with the identifier of that
    bundle; no other object changes. *)
Theorem label_roundtrip repo bundleID now label c :
  let d := l_Descriptor label in
  let d' := mkLabelDescriptor (ld_Name d) bundleID (ld_Timestamp d) (ld_Contributors d) in
  is_Some (objects (Metadata c) !! GetArchivePathToRepoDescriptor repo) ->
  ld_Name d <> "" -> ld_Timestamp d <> Time.zero ->
  runs (Label_UploadDescriptor repo bundleID label) c (fun label' c' =>
    l_Descriptor label' = d' /\ objects (Metadata c') = objects (Metadata c) /\
    (forall p, p <> GetArchivePathToLabel repo (ld_Name d) -> objects (VMetadata c') !! p = objects (VMetadata c) !! p) /\
    forall checkRepoExists, reads (Label_DownloadDescriptor versioned repo checkRepoExists
      (NewLabel now [WithLabelDescriptor (Some (NewLabelDescriptor now [LabelName (ld_Name d)]))])) c' (mkLabel d' "")).
Proof.
  intros d d' Hrepo Hn Ht. unfold Label_UploadDescriptor. fold d d'. destruct (Marshal_total d') as [b Hb].
  apply runs_bind. eapply reads_runs; [by apply reads_RepoExists|]. intros c1 (Hm & Hv & Hother).
  apply runs_bind. eapply runs_lift; [exact Hb|]. apply runs_bind, runs_vmeta, runs_putBuffer; [done|]. intros s2 Ho2.
  apply runs_ret. split; [done|]. split; [done|]. cbn [VMetadata SetVMetadata Metadata]. split.
  { intros p Hp. rewrite Ho2, lookup_insert_ne by done. by rewrite Hv. }
  assert (forall c', same_objects (SetVMetadata s2 c1) c' -> reads (Label_DownloadDescriptor versioned repo false
      (NewLabel now [WithLabelDescriptor (Some (NewLabelDescriptor now [LabelName (ld_Name d)]))])) c' (mkLabel d' "")) as Hread.
  { intros c' Hc'. assert (d' = over (NewLabelDescriptor now [LabelName (ld_Name d)]) d') as Hd'.
    { unfold over. cbn [ld_Name ld_Timestamp ld_BundleID ld_Contributors d']. rewrite decide_False by done.
      assert (Time.IsZero (ld_Timestamp d) = false) as -> by (by apply Z.eqb_neq). done. }
    rewrite Hd'. apply reads_label; [done|]. exists b. rewrite (same_vmeta _ _ Hc'). cbn.
    rewrite Ho2, lookup_insert_eq. split; [done|]. by apply Unmarshal_Marshal. }
  intros [|]; [|by apply Hread]. eapply reads_bind.
  - apply reads_RepoExists. cbn. by rewrite <- Hm.
  - intros c' Hs. exact (Hread c' Hs).
Qed.

End facts.

Section witness.

#[local] Existing Instance numbered_yaml.

#[local] Existing Instance numbered_yaml_laws.

Definition a_label : Label := NewLabel 3%Z [WithLabelDescriptor (Some (NewLabelDescriptor 3%Z [LabelName "latest"]))].

Definition label_stores : Stores (gmap string bytes) :=
  NewStores ∅ ∅ ∅ {[ GetArchivePathToRepoDescriptor "r" := [] ]} {[ GetArchivePathToLabel "r" "latest" := [] ]}.

Lemma label_roundtrip_witness :
  runs (Label_UploadDescriptor "r" "b7" a_label) label_stores (fun _ c' =>
    reads (Label_DownloadDescriptor None "r" true a_label) c' (mkLabel (mkLabelDescriptor "latest" "b7" 3%Z []) "")).
Proof.
  eapply runs_mono; [apply (label_roundtrip None "r" "b7" 3%Z a_label label_stores); [vm_compute; eauto|done|done]|].
  intros label c' (_ & _ & _ & H). exact (H true).
Defined.

End witness.

End CoreLabel.
