(* ===== verification/CoreListing.v ===== *)
(** * The listing pipeline (pkg/core: options.go, utils.go, watch.go, the *_list.go files)

    The source has five copies of one pipeline: batches of keys are retrieved,
    a pool of workers retrieves the objects of a batch, the objects of a batch
    are sorted and sent on, and the consumer collects them or applies a
    function to them. This file has the settings of a listing and the stages of
    the pipeline, over a worker; the listings themselves are instances of it.

    What depends on the scheduling of the goroutines is a [schedule]: the
    order in which the results of the workers arrive, and when an interruption
    is noticed. *)

From S2P Require Import Prelude GoLib Errors Storage StoreRules CoreKeys.

Module CoreListing.
Import Strings Storage CoreStatus StoreRules CoreKeys.

(** ** Settings *)

Record Settings : Type := mkSettings {
  concurrentList : Z;
  batchSize : Z;
  doneChannel : bool;
  profilingEnabled : bool;
  memProfDir : string;
  labelPrefix : string;
  labelVersions : bool;
  metricsEnabled : bool;
  ignoreCorruptedMetadata : bool;
  retainTags : bool;
  retainSemverTags : bool;
  retainNLatest : Z;
  withMinimalBundle : bool
}.

Definition Option : Type := Settings -> Settings.

Definition defaultBatchSize : Z := 1024.

(** runtime.NumCPU() is a parameter. *)

Definition defaultListConcurrency (NumCPU : Z) : Z := 2 * NumCPU.

Definition ConcurrentList (NumCPU concurrentList : Z) : Option := fun s =>
  mkSettings (if (concurrentList =? 0)%Z then defaultListConcurrency NumCPU else concurrentList)
    (batchSize s) (doneChannel s) (profilingEnabled s) (memProfDir s) (labelPrefix s) (labelVersions s) (metricsEnabled s)
    (ignoreCorruptedMetadata s) (retainTags s) (retainSemverTags s) (retainNLatest s) (withMinimalBundle s).

Definition BatchSize (batchSize : Z) : Option := fun s =>
  mkSettings (concurrentList s) (if (batchSize =? 0)%Z then defaultBatchSize else batchSize)
    (doneChannel s) (profilingEnabled s) (memProfDir s) (labelPrefix s) (labelVersions s) (metricsEnabled s)
    (ignoreCorruptedMetadata s) (retainTags s) (retainSemverTags s) (retainNLatest s) (withMinimalBundle s).

(** A channel is given or not: what is received from it is the schedule's. *)

Definition WithDoneChan (done : bool) : Option := fun s =>
  mkSettings (concurrentList s) (batchSize s) done (profilingEnabled s) (memProfDir s) (labelPrefix s) (labelVersions s)
    (metricsEnabled s) (ignoreCorruptedMetadata s) (retainTags s) (retainSemverTags s) (retainNLatest s) (withMinimalBundle s).

Definition WithMemProf (dir : string) : Option := fun s =>
  mkSettings (concurrentList s) (batchSize s) (doneChannel s) true (if decide (dir <> "") then dir else memProfDir s)
    (labelPrefix s) (labelVersions s) (metricsEnabled s) (ignoreCorruptedMetadata s) (retainTags s) (retainSemverTags s)
    (retainNLatest s) (withMinimalBundle s).

Definition WithMetrics (enabled : bool) : Option := fun s =>
  mkSettings (concurrentList s) (batchSize s) (doneChannel s) (profilingEnabled s) (memProfDir s) (labelPrefix s)
    (labelVersions s) enabled (ignoreCorruptedMetadata s) (retainTags s) (retainSemverTags s) (retainNLatest s)
    (withMinimalBundle s).

Definition WithLabelVersions (enabled : bool) : Option := fun s =>
  mkSettings (concurrentList s) (batchSize s) (doneChannel s) (profilingEnabled s) (memProfDir s) (labelPrefix s)
    enabled (metricsEnabled s) (ignoreCorruptedMetadata s) (retainTags s) (retainSemverTags s) (retainNLatest s)
    (withMinimalBundle s).

Definition WithLabelPrefix (prefix : string) : Option := fun s =>
  mkSettings (concurrentList s) (batchSize s) (doneChannel s) (profilingEnabled s) (memProfDir s) prefix
    (labelVersions s) (metricsEnabled s) (ignoreCorruptedMetadata s) (retainTags s) (retainSemverTags s) (retainNLatest s)
    (withMinimalBundle s).

Definition WithIgnoreCorruptedMetadata (enabled : bool) : Option := fun s =>
  mkSettings (concurrentList s) (batchSize s) (doneChannel s) (profilingEnabled s) (memProfDir s) (labelPrefix s)
    (labelVersions s) (metricsEnabled s) enabled (retainTags s) (retainSemverTags s) (retainNLatest s) (withMinimalBundle s).

Definition WithRetainTags (enabled : bool) : Option := fun s =>
  mkSettings (concurrentList s) (batchSize s) (doneChannel s) (profilingEnabled s) (memProfDir s) (labelPrefix s)
    (labelVersions s) (metricsEnabled s) (ignoreCorruptedMetadata s) enabled (retainSemverTags s) (retainNLatest s)
    (withMinimalBundle s).

Definition WithRetainSemverTags (enabled : bool) : Option := fun s =>
  mkSettings (concurrentList s) (batchSize s) (doneChannel s) (profilingEnabled s) (memProfDir s) (labelPrefix s)
    (labelVersions s) (metricsEnabled s) (ignoreCorruptedMetadata s) (retainTags s) enabled (retainNLatest s)
    (withMinimalBundle s).

Definition WithRetainNLatest (n : Z) : Option := fun s =>
  mkSettings (concurrentList s) (batchSize s) (doneChannel s) (profilingEnabled s) (memProfDir s) (labelPrefix s)
    (labelVersions s) (metricsEnabled s) (ignoreCorruptedMetadata s) (retainTags s) (retainSemverTags s)
    (if (0 <? n)%Z then n else retainNLatest s) (withMinimalBundle s).

Definition WithMinimalBundle (enabled : bool) : Option := fun s =>
  mkSettings (concurrentList s) (batchSize s) (doneChannel s) (profilingEnabled s) (memProfDir s) (labelPrefix s)
    (labelVersions s) (metricsEnabled s) (ignoreCorruptedMetadata s) (retainTags s) (retainSemverTags s) (retainNLatest s)
    enabled.

Definition defaultSettings (NumCPU : Z) : Settings :=
  mkSettings (defaultListConcurrency NumCPU) defaultBatchSize false false "." "" false false false false false 1 false.

(** The loop over the options at the head of every listing. *)

Definition settings_of (NumCPU : Z) (opts : list Option) : Settings :=
  fold_left (fun s bApply => bApply s) opts (defaultSettings NumCPU).

Definition minInt (a b : Z) : Z := if (a <? b)%Z then a else b.

Definition maxInt (a b : Z) : Z := if (b <? a)%Z then a else b.

(** ** sort.Sort

    The result is a permutation; when Less is a strict weak order (what is not
    less is a total preorder), it is sorted. Elements that are not ordered may
    come in any order. *)

Class GoSort : Type := sort_Sort : forall {A : Type}, (A -> A -> bool) -> list A -> list A.

Class GoSortLaws {GS : GoSort} : Prop := {
  sort_Permutation {A} (less : A -> A -> bool) l : sort_Sort less l ≡ₚ l;
  sort_Sorted {A} (less : A -> A -> bool) l :
    Transitive (fun a b => less b a = false) -> Total (fun a b => less b a = false) ->
    StronglySorted (fun a b => less b a = false) (sort_Sort less l)
}.

(** ** The pipeline *)

(** bundlesEvent, reposEvent, labelsEvent, diamondsEvent and splitsEvent. *)

Record batchEvent (A : Type) : Type := mkBatch {
  b_items : list A;
  b_err : option error
}.

Arguments mkBatch {A}.
Arguments b_items {A}.
Arguments b_err {A}.

(** How the goroutines of one listing are scheduled: [order] is the order in
    which the results of the workers for a batch arrive; [keys_stop] and
    [fetch_stop] say after how many batches the stages notice an interruption. *)

Record schedule : Type := mkSchedule {
  order : list string -> list string;
  keys_stop : option (nat * bool);
  fetch_stop : option nat
}.

(** Without a done channel, nothing interrupts the stages. *)

Definition watchForInterrupts (settings : Settings) (sch : schedule) : schedule :=
  if doneChannel settings then sch else mkSchedule (order sch) None None.

Section pipeline.
Context {GS : GoSort} {T A : Type}.
Variables (worker : string -> M T (option A)) (less : A -> A -> bool).

(** The loop that coalesces the results, in the order of their arrival: the
    first error that arrives is the result; a worker may drop a key. The keys
    that were not distributed when an error arrives are not read. *)

Fixpoint coalesce (keys : list string) : M T (list A) :=
  match keys with
  | [] => mret []
  | k :: keys' =>
      x ← worker k;
      xs ← coalesce keys';
      mret (match x with Some a => a :: xs | None => xs end)
  end.

(** With keys and no workers, distributeKeys blocks, and the batch waits for it. *)

Definition fetch_batch (settings : Settings) (sch : schedule) (keys : list string) : M T (list A) :=
  if decide (keys <> [] /\ (minInt (concurrentList settings) (Z.of_nat (length keys)) <= 0)%Z) then diverge
  else
    bds ← coalesce (order sch keys);
    mret (sort_Sort less bds).

Fixpoint fetch_all (settings : Settings) (sch : schedule) (stop : option nat) (input : list keyBatchEvent)
    : M T (list (batchEvent A)) :=
  match stop with
  | Some O => mret [mkBatch [] (Some ErrInterrupted)]
  | _ =>
      match input with
      | [] => mret []
      | keyBatch :: input' =>
          match kb_err keyBatch with
          | Some err => mret [mkBatch [] (Some err)]
          | None =>
              r ← attempt (fetch_batch settings sch (kb_keys keyBatch));
              match r with
              | inr err => mret [mkBatch [] (Some err)]
              | inl batch =>
                  evs ← fetch_all settings sch (pred <$> stop) input';
                  mret (mkBatch batch None :: evs)
              end
          end
      end
  end.

End pipeline.

(** doSelectBundles and its copies, with the consumer that appends the batches:
    the items received before the first error, and that error. *)

Fixpoint doSelect {A} (events : list (batchEvent A)) : list A * option error :=
  match events with
  | [] => ([], None)
  | batch :: events' =>
      match b_err batch with
      | Some err => ([], Some err)
      | None => let '(items, err) := doSelect events' in (b_items batch ++ items, err)
      end
  end.

(** What the pipeline ends with when the applied function has failed and the
    done channel is signalled: the signal comes too late, is reported as an
    interruption, or only cuts the list of keys. *)

Inductive interruption : Type :=
| Unnoticed
| Interrupted
| Truncated.

Definition interrupted_err (i : interruption) (err : option error) : option error :=
  match i with
  | Unnoticed => err
  | Interrupted => Some ErrInterrupted
  | Truncated => None
  end.

(** The common body of the functions ListXxxApply: the objects are retrieved,
    then the function is applied to them one after the other. The function is
    a closure: [V] is the type of the variables it captures. *)

Definition with_variables {T V A} (m : M T A) : M (T * V) A := fun '(t, v) => let '(r, t') := m t in (r, (t', v)).

Definition list_apply {T V A} (events : M T (list (batchEvent A))) (i : interruption) (apply_ : A -> M (T * V) unit)
    : M (T * V) unit :=
  evs ← with_variables events;
  let '(items, err) := doSelect evs in
  r ← attempt (for_each items apply_);
  match r with
  | inl _ => match err with Some e => fail e | None => mret tt end
  | inr applyErr =>
      match interrupted_err i err with
      | Some e => if decide (e = ErrInterrupted) then fail applyErr else fail e
      | None => fail applyErr
      end
  end.

Lemma omap_cons {A B} (f : A -> option B) x l :
  omap f (x :: l) = match f x with Some y => y :: omap f l | None => omap f l end.
Proof. reflexivity. Qed.

(** ** A listing that is not interrupted and whose reads succeed *)

Section complete.
Context {GS : GoSort} {GSL : GoSortLaws} {T A : Type} (Inv : T -> Prop).
Variables (worker : string -> M T (option A)) (less : A -> A -> bool) (get : string -> option A).
Variables (settings : Settings) (sch : schedule).
Hypothesis order_Permutation : forall l, order sch l ≡ₚ l.
Hypothesis concurrent : (0 < concurrentList settings)%Z.

(** The worker reads what [get] says of a key. *)

Definition works (keys : list string) : Prop :=
  forall k t, k ∈ keys -> Inv t -> runs (worker k) t (fun x t' => x = get k /\ Inv t').

Lemma coalesce_complete keys : forall t,
  Inv t -> works keys -> runs (coalesce worker keys) t (fun xs t' => xs = omap get keys /\ Inv t').
Proof.
  induction keys as [|k keys IH]; intros t Ht Hw; [by apply runs_ret|]. cbn [coalesce].
  apply runs_bind. eapply runs_mono; [apply Hw; [set_solver|done]|]. intros x t1 [-> Ht1].
  apply runs_bind. eapply runs_mono; [apply IH; [done|]|]. { intros k' t2 Hk'. apply Hw. set_solver. }
  intros xs t2 [-> Ht2]. apply runs_ret. split; [|done]. rewrite omap_cons. by destruct (get k).
Qed.

Definition sorted_batch (keys : list string) : list A := sort_Sort less (omap get (order sch keys)).

Lemma fetch_batch_complete keys t :
  Inv t -> works keys -> runs (fetch_batch worker less settings sch keys) t (fun xs t' => xs = sorted_batch keys /\ Inv t').
Proof.
  intros Ht Hw. unfold fetch_batch. rewrite decide_False.
  2:{ intros [Hne Hc]. unfold minInt in Hc. destruct keys; [done|]. cbn [length] in Hc.
      destruct (Z.ltb_spec (concurrentList settings) (Z.of_nat (S (length keys)))); lia. }
  apply runs_bind. eapply runs_mono; [apply coalesce_complete; [done|]|].
  { intros k t' Hk. apply Hw. by rewrite <- (order_Permutation keys). }
  intros xs t' [-> Ht']. by apply runs_ret.
Qed.

Lemma fetch_all_complete evs : forall t,
  Inv t -> Forall (fun ev => kb_err ev = None) evs -> works (mbind kb_keys evs) ->
  runs (fetch_all worker less settings sch None evs) t
    (fun out t' => out = (fun ev => mkBatch (sorted_batch (kb_keys ev)) None) <$> evs /\ Inv t').
Proof.
  induction evs as [|ev evs IH]; intros t Ht He Hw; [by apply runs_ret|]. cbn [fetch_all].
  apply Forall_cons in He as [He Hes]. rewrite He.
  apply runs_bind, runs_attempt. eapply runs_mono; [apply fetch_batch_complete; [done|]|].
  { intros k t' Hk. apply Hw. rewrite bind_cons. apply elem_of_app. by left. }
  intros xs t1 [-> Ht1]. apply runs_bind. eapply runs_mono; [apply IH; [done..|]|].
  { intros k t' Hk. apply Hw. rewrite bind_cons. apply elem_of_app. by right. }
  intros out t2 [-> Ht2]. by apply runs_ret.
Qed.

Lemma doSelect_complete (evs : list keyBatchEvent) :
  doSelect ((fun ev => mkBatch (sorted_batch (kb_keys ev)) None) <$> evs) = (mbind (fun ev => sorted_batch (kb_keys ev)) evs, None).
Proof. induction evs as [|ev evs IH]; [done|]. rewrite fmap_cons, bind_cons. cbn [doSelect b_err b_items]. by rewrite IH. Qed.

(** The items are those of the keys, whatever the batches and the order of arrival. *)

Lemma sorted_batch_Permutation keys : sorted_batch keys ≡ₚ omap get keys.
Proof. unfold sorted_batch. rewrite sort_Permutation. by rewrite order_Permutation. Qed.

Lemma listed_Permutation (evs : list keyBatchEvent) :
  mbind (fun ev => sorted_batch (kb_keys ev)) evs ≡ₚ omap get (mbind kb_keys evs).
Proof.
  induction evs as [|ev evs IH]; [done|]. rewrite !bind_cons, omap_app, IH. by rewrite sorted_batch_Permutation.
Qed.

(** When the objects come in a strict order, they are listed in that order. *)

Let le (a b : A) : Prop := less b a = false.

Lemma sorted_batch_eq keys :
  Transitive le -> Total le -> (forall a b, a ∈ omap get keys -> b ∈ omap get keys -> le a b -> le b a -> a = b) ->
  StronglySorted le (omap get keys) -> sorted_batch keys = omap get keys.
Proof.
  intros Htr Hto Hanti Hs. apply (StronglySorted_unique_strong le).
  - intros a b. rewrite (sorted_batch_Permutation keys). apply Hanti.
  - unfold sorted_batch. by apply sort_Sorted.
  - done.
  - apply sorted_batch_Permutation.
Qed.

Lemma listed_sorted (evs : list keyBatchEvent) :
  let keys := mbind kb_keys evs in
  Transitive le -> Total le -> (forall a b, a ∈ omap get keys -> b ∈ omap get keys -> le a b -> le b a -> a = b) ->
  StronglySorted le (omap get keys) -> mbind (fun ev => sorted_batch (kb_keys ev)) evs = omap get keys.
Proof.
  intros keys Htr Hto. unfold keys. clear keys. induction evs as [|ev evs IH]; intros Hanti Hs; [done|].
  rewrite !bind_cons, omap_app in *. apply StronglySorted_app in Hs as (_ & Hs1 & Hs2).
  rewrite IH, sorted_batch_eq; [done|done|done| |done| |done]; intros a b Ha Hb; apply Hanti; set_solver.
Qed.

End complete.

(** ** The applied function *)

(** The items are handed to the function in the order of the listing; nothing
    is applied after a failure, and the error returned is that of the function
    unless the listing itself fails. *)

Lemma list_apply_ok {T V A} (events : M T (list (batchEvent A))) i (apply_ : A -> M (T * V) unit) t v evs t1 items :
  events t = (Ok evs, t1) -> doSelect evs = (items, None) ->
  list_apply events i apply_ (t, v) = for_each items apply_ (t1, v).
Proof.
  intros E Hd. unfold list_apply, with_variables, mbind, M_bind. rewrite E, Hd. unfold attempt.
  destruct (for_each items apply_ (t1, v)) as [[[]|e|p] t2]; [done| |done].
  destruct i; cbn [interrupted_err]; done.
Qed.

(** ** The order of strings and keys *)

Lemma ltb_le a b : String.ltb b a = false <-> String.le a b.
Proof.
  unfold String.le, String.leb, String.ltb. rewrite (String.compare_antisym b a).
  destruct (String.compare a b); simpl; split; done.
Qed.

Lemma Ascii_compare_refl c : Ascii.compare c c = Eq.
Proof. apply N.compare_refl. Qed.

Lemma le_app_head p a b : String.le (p +:+ a) (p +:+ b) <-> String.le a b.
Proof.
  unfold String.le, String.leb. induction p as [|c p IH]; [done|]. rewrite !append_cons. cbn [String.compare].
  by rewrite Ascii_compare_refl.
Qed.

Lemma le_app_tail x : forall a b,
  String.length a = String.length b -> String.le (a +:+ x) (b +:+ x) -> String.le a b.
Proof.
  unfold String.le, String.leb. induction a as [|c a IH]; intros [|d b] Hl H; simpl in Hl; simplify_eq; [done|].
  rewrite !append_cons in H. cbn [String.compare] in *. destruct (Ascii.compare c d); try done. by apply IH.
Qed.

Lemma StronglySorted_fmap_inv {A B} (f : A -> B) (R : relation B) (R' : relation A) l :
  (forall x y, x ∈ l -> y ∈ l -> R (f x) (f y) -> R' x y) -> StronglySorted R (f <$> l) -> StronglySorted R' l.
Proof.
  induction l as [|x l IH]; intros H Hs; [constructor|]. rewrite fmap_cons in Hs. apply StronglySorted_cons in Hs as [Hx Hs].
  apply StronglySorted_cons. split.
  - apply Forall_forall. intros y Hy. apply H; [set_solver..|]. rewrite Forall_forall in Hx. apply Hx. set_solver.
  - apply IH; [|done]. intros a b Ha Hb. apply H; set_solver.
Qed.

Lemma StronglySorted_filter {A} (R : relation A) (P : A -> Prop) `{!forall x, Decision (P x)} l :
  StronglySorted R l -> StronglySorted R (filter P l).
Proof.
  induction 1 as [|x l Hs IH Hx]; [constructor|]. rewrite filter_cons. case_decide; [|done].
  apply StronglySorted_cons. split; [|done]. rewrite Forall_forall in *. intros y [_ Hy]%list_elem_of_filter. auto.
Qed.

Lemma fmap_of_Forall {A B} (f : A -> B) (P : A -> Prop) l :
  Forall (fun y => exists x, y = f x /\ P x) l -> exists xs, l = f <$> xs /\ Forall P xs.
Proof.
  induction 1 as [|y l (x & -> & Hx) _ (xs & -> & Hxs)]; [by exists []|]. exists (x :: xs). by split; [|constructor].
Qed.

(** The keys below a prefix, cut at the next slash, are the names of the
    directories there, in their order when they have the same length. *)

Definition directory (prefix name : string) : string := prefix +:+ name +:+ "/".

Definition in_directories (objs : gmap string bytes) (prefix : string) (n : nat) : Prop :=
  forall k, is_Some (objs !! k) -> HasPrefix k prefix = true ->
    exists name file, k = directory prefix name +:+ file /\ no_slash name /\ String.length name = n.

Lemma upto_slash name file : no_slash name -> upto "/" (name +:+ "/" +:+ file) = name +:+ "/".
Proof.
  unfold no_slash. induction name as [|c name IH]; intros Hn.
  - rewrite !append_nil. change ("/" +:+ file) with (String slash file). cbn [upto]. rewrite decide_True; [done|].
    exact (HasPrefix_app "/" file).
  - simpl in Hn. apply orb_false_iff in Hn as [Hc Hn]. rewrite bool_decide_eq_false in Hc. rewrite (append_cons c name), (append_cons c name "/").
    cbn [upto]. rewrite decide_False, IH; [done|done|]. intros [r Hr]%HasPrefix_spec.
    change ("/" +:+ r) with (String slash r) in Hr. simplify_eq.
Qed.

Lemma truncate_directory prefix name file :
  no_slash name -> truncate prefix "/" (directory prefix name +:+ file) = directory prefix name.
Proof.
  intros Hn. unfold truncate, directory. rewrite decide_False by done. rewrite !string_app_assoc, strip_app.
  by rewrite upto_slash.
Qed.

Lemma directory_inj prefix a b x y :
  no_slash a -> no_slash b -> directory prefix a +:+ x = directory prefix b +:+ y -> a = b.
Proof.
  intros Ha Hb H. apply (f_equal (truncate prefix "/")) in H. rewrite !truncate_directory in H by done.
  apply string_app_inv_head in H. pose proof (strip_suffix_app a "/") as Hs. rewrite H, strip_suffix_app in Hs. congruence.
Qed.

Lemma listing_directories objs prefix n :
  in_directories objs prefix n ->
  exists names, listing objs prefix "/" = directory prefix <$> names /\ NoDup names /\ StronglySorted String.le names /\
    Forall (fun name => no_slash name /\ String.length name = n) names /\
    forall name, no_slash name ->
      name ∈ names <-> exists file, is_Some (objs !! (directory prefix name +:+ file)).
Proof.
  intros Hd. destruct (fmap_of_Forall (directory prefix) (fun name => no_slash name /\ String.length name = n)
    (listing objs prefix "/")) as (names & Hl & Hn).
  { apply Forall_forall. intros k (k' & Hs & Hp & ->)%listing_elem.
    destruct (Hd k' Hs Hp) as (name & file & -> & Hno & Hlen). exists name. by rewrite truncate_directory. }
  exists names. pose proof (listing_NoDup objs prefix "/") as Hnd. rewrite Hl in Hnd. apply NoDup_fmap_1 in Hnd.
  pose proof (listing_sorted objs prefix "/") as Hs. rewrite Hl in Hs. rewrite Forall_forall in Hn. split_and!; [done|done| | |].
  - eapply StronglySorted_fmap_inv; [|exact Hs]. intros a b [_ Ha]%Hn [_ Hb]%Hn Hle.
    unfold directory in Hle. apply le_app_head in Hle. apply le_app_tail in Hle; [done|congruence].
  - by apply Forall_forall.
  - intros name Hno. assert (name ∈ names <-> directory prefix name ∈ listing objs prefix "/") as ->.
    { rewrite Hl, list_elem_of_fmap. split; [by eauto|]. intros (x & Hx & Hin).
      assert (name = x) as ->; [|done]. eapply (directory_inj prefix _ _ ""); [done|by apply Hn|by rewrite Hx]. }
    rewrite listing_elem. split.
    + intros (k' & Hs' & Hp & E). destruct (Hd k' Hs' Hp) as (x & file & -> & Hx & _).
      rewrite truncate_directory in E by done. exists file. by rewrite E.
    + intros [file Hs']. eexists. split; [exact Hs'|]. rewrite truncate_directory by done. split; [|done].
      unfold directory. rewrite !string_app_assoc. apply HasPrefix_app.
Qed.

(** ** A sort of lists *)

#[export] Instance merge_GoSort : GoSort := fun A less =>
  @merge_sort A (fun a b => less b a = false) (fun a b => bool_eq_dec (less b a) false).

#[export] Instance merge_GoSortLaws : GoSortLaws.
Proof.
  split.
  - intros A less l. apply merge_sort_Permutation.
  - intros A less l Htr Hto. by apply StronglySorted_merge_sort.
Qed.

End CoreListing.
