(* ===== verification/CoreList.v ===== *)
(** * Listings of repositories, bundles and contexts
    (pkg/core: repo_list.go, bundle_list.go, context_list.go)

    The listings are instances of the pipeline of [CoreListing]: the worker that
    reads the object of a key, and the iterator over the keys. *)

From S2P Require Import Prelude GoLib Errors Storage Model ModelPaths CoreMeta StoreRules CoreKeys CoreRepo CoreListing.

Module CoreList.
Import Model Storage CoreMeta CoreStatus StoreRules CoreKeys CoreRepo CoreListing.

Definition typicalContextsNum : nat := 16.

Definition maxMetaFilesToProcess : nat := Z.to_nat 1000000.

(** What the workers do with the error of a read: an object that is gone is
    dropped. *)

Definition drop_missing {T A} (m : M T A) : M T (option A) :=
  r ← attempt m;
  match r with
  | inr err => if Errors.Is err StorageStatus.ErrNotExists then mret None else fail err
  | inl a => mret (Some a)
  end.

(** The error of a check made before the stages start is the only event. *)

Definition after_check {T A} (check : M T unit) (stages : M T (list (batchEvent A))) : M T (list (batchEvent A)) :=
  r ← attempt check;
  match r with
  | inr err => mret [mkBatch [] (Some err)]
  | inl _ => stages
  end.

Definition GetBundleStore {S A} : M S A -> M (Stores S) A := getMetaStore.

Section listings.
Context {S : Type} `{HS : !Store S} {GS : GoSort}.
Context {HYR : Yaml RepoDescriptor} {HYB : Yaml BundleDescriptor}.
Variable ksuid_valid : string -> bool.

(** [fuel] bounds the number of pages of keys; [NumCPU] is runtime.NumCPU(). *)

Variables (fuel : nat) (NumCPU : Z).

(** ** Repositories *)

Definition getRepoDescriptorByRepoName (repoName : string) : M (Stores S) RepoDescriptor :=
  let archivePathToRepoDescriptor := GetArchivePathToRepoDescriptor repoName in
  has ← GetRepoStore (Has archivePathToRepoDescriptor);
  if negb has then fail ErrNotFound
  else
    o ← GetRepoStore (Get archivePathToRepoDescriptor);
    rd ← lift (Unmarshal o);
    if decide (rd_Name rd <> repoName)
    then fail (ErrMsg ("repo names in descriptor '" +:+ rd_Name rd +:+ "' and archive path '" +:+ repoName +:+ "' don't match"))
    else mret rd.

Definition GetRepoDescriptorByRepoName (repoName : string) : M (Stores S) RepoDescriptor :=
  getRepoDescriptorByRepoName repoName.

Definition getRepoAsync (k : string) : M (Stores S) (option RepoDescriptor) :=
  apc ← lift (GetArchivePathComponents ksuid_valid k);
  drop_missing (getRepoDescriptorByRepoName (apc_Repo apc)).

Definition fetchRepoBatch (settings : Settings) (sch : schedule) (keys : list string) : M (Stores S) (list RepoDescriptor) :=
  fetch_batch getRepoAsync RepoDescriptors_Less settings sch keys.

Definition fetchRepos (settings : Settings) (sch : schedule) (keysChan : list keyBatchEvent)
    : M (Stores S) (list (batchEvent RepoDescriptor)) :=
  fetch_all getRepoAsync RepoDescriptors_Less settings sch (fetch_stop sch) keysChan.

Definition listReposChan (sch : schedule) (opts : list Option) : M (Stores S) (list (batchEvent RepoDescriptor)) :=
  let settings := settings_of NumCPU opts in
  let sch := watchForInterrupts settings sch in
  let iterator next := GetRepoStore (KeysPrefix next GetArchivePathPrefixToRepos "" (Z.to_nat (batchSize settings))) in
  keysChan ← fetchKeys fuel iterator (keys_stop sch) "";
  fetchRepos settings sch keysChan.

Definition doSelectRepos (reposChan : list (batchEvent RepoDescriptor)) : list RepoDescriptor * option error :=
  doSelect reposChan.

Definition ListRepos (sch : schedule) (opts : list Option) : M (Stores S) (list RepoDescriptor * option error) :=
  reposChan ← listReposChan sch opts;
  mret (doSelectRepos reposChan).

Definition ListReposApply {V} (sch : schedule) (i : interruption) (apply_ : RepoDescriptor -> M (Stores S * V) unit)
    (opts : list Option) : M (Stores S * V) unit :=
  list_apply (listReposChan sch (opts ++ [WithDoneChan true])) i apply_.

(** ** Bundles *)

Definition downloadBundleDescriptor (repo key : string) (settings : Settings) : M S BundleDescriptor :=
  apc ← lift (GetArchivePathComponents ksuid_valid key);
  if withMinimalBundle settings
  then mret (mkBundleDescriptor 0 (apc_BundleID apc) "" [] Time.zero [] 0 0 "" "")
  else
    o ← Get (GetArchivePathToBundle repo (apc_BundleID apc));
    bd ← lift (Unmarshal o);
    if decide (bd_ID bd <> apc_BundleID apc) then
      if negb (ignoreCorruptedMetadata settings)
      then fail (ErrMsg ("bundle IDs in descriptor '" +:+ bd_ID bd +:+ "' and archive path '" +:+ apc_BundleID apc +:+ "' don't match"))
      else mret (mkBundleDescriptor (bd_LeafSize bd) (apc_BundleID apc) (bd_Message bd) (bd_Parents bd) (bd_Timestamp bd)
             (bd_Contributors bd) (bd_BundleEntriesFileCount bd) (bd_Version bd) (bd_Deduplication bd) (bd_RunStage bd))
    else mret bd.

Definition getBundleAsync (repo : string) (settings : Settings) (k : string) : M S (option BundleDescriptor) :=
  drop_missing (downloadBundleDescriptor repo k settings).

Definition fetchBundleBatch (repo : string) (settings : Settings) (sch : schedule) (keys : list string)
    : M S (list BundleDescriptor) :=
  fetch_batch (getBundleAsync repo settings) BundleDescriptors_Less settings sch keys.

Definition fetchBundles (repo : string) (settings : Settings) (sch : schedule) (keysChan : list keyBatchEvent)
    : M S (list (batchEvent BundleDescriptor)) :=
  fetch_all (getBundleAsync repo settings) BundleDescriptors_Less settings sch (fetch_stop sch) keysChan.

Definition listBundlesChan (repo : string) (sch : schedule) (opts : list Option)
    : M (Stores S) (list (batchEvent BundleDescriptor)) :=
  let settings := settings_of NumCPU opts in
  after_check (RepoExists repo)
    (let sch := watchForInterrupts settings sch in
     let iterator next := KeysPrefix next (GetArchivePathPrefixToBundles repo) "/" (Z.to_nat (batchSize settings)) in
     keysChan ← GetBundleStore (fetchKeys fuel iterator (keys_stop sch) "");
     getMetaStore (fetchBundles repo settings sch keysChan)).

Definition doSelectBundles (bundlesChan : list (batchEvent BundleDescriptor)) : list BundleDescriptor * option error :=
  doSelect bundlesChan.

Definition ListBundles (repo : string) (sch : schedule) (opts : list Option)
    : M (Stores S) (list BundleDescriptor * option error) :=
  bundlesChan ← listBundlesChan repo sch opts;
  mret (doSelectBundles bundlesChan).

Definition ListBundlesApply {V} (repo : string) (sch : schedule) (i : interruption)
    (apply_ : BundleDescriptor -> M (Stores S * V) unit) (opts : list Option) : M (Stores S * V) unit :=
  list_apply (listBundlesChan repo sch (opts ++ [WithDoneChan true])) i apply_.

(** The page of keys has no delimiter: its last key is a file of the last bundle. *)

Definition GetLatestBundle (repo : string) : M (Stores S) string :=
  _ ← RepoExists repo;
  '(ks, _) ← getMetaStore (KeysPrefix "" (GetArchivePathPrefixToBundles repo) "" maxMetaFilesToProcess);
  match last ks with
  | None => fail (ErrMsg ("no bundles uploaded to repo: " +:+ repo))
  | Some key =>
      apc ← lift (GetArchivePathComponents ksuid_valid key);
      mret (apc_BundleID apc)
  end.

(** ** Contexts *)

(** The error of a key is dropped: what is wrapped is the error of the page,
    which is nil. *)

Fixpoint context_names (keys : list string) : res (list string) :=
  match keys with
  | [] => Ok []
  | k :: keys' =>
      match GetArchivePathComponents ksuid_valid k with
      | Err _ => Err (Errors.Wrap ErrConfigContext None)
      | Panic p => Panic p
      | Ok c => names ← context_names keys'; mret (apc_Context c :: names)
      end
  end.

Fixpoint list_contexts (n : nat) (next : string) : M S (list string) :=
  match n with
  | O => diverge
  | Datatypes.S n' =>
      r ← attempt (KeysPrefix next GetArchivePathPrefixToContexts "" typicalContextsNum);
      match r with
      | inr err => fail (Errors.Wrap ErrConfigContext (Some err))
      | inl (keys, next') =>
          names ← lift (context_names keys);
          if decide (next' = "") then mret names
          else rest ← list_contexts n' next'; mret (names ++ rest)
      end
  end.

Definition ListContexts : M S (list string) :=
  contexts ← list_contexts fuel "";
  mret (sort_Sort String.ltb contexts).

End listings.

(** ** Bundles of a repository *)

(** A schedule that nothing interrupts. *)

Definition uninterrupted (settings : Settings) (sch : schedule) : Prop :=
  keys_stop (watchForInterrupts settings sch) = None /\ fetch_stop (watchForInterrupts settings sch) = None.

Lemma order_watch settings sch : order (watchForInterrupts settings sch) = order sch.
Proof. unfold watchForInterrupts. by destruct (doneChannel settings). Qed.

(** What the settings and the schedule of a listing must be for it to complete. *)

Record listing_ok (fuel len : nat) (settings : Settings) (sch : schedule) : Prop := {
  ok_fuel : len < fuel;
  ok_workers : (0 < concurrentList settings)%Z;
  ok_batch : (0 < batchSize settings)%Z;
  ok_order : forall l, order sch l ≡ₚ l;
  ok_uninterrupted : uninterrupted settings sch
}.

(** ** Repositories of a context *)

Section repos.
Context {S : Type} `{HS : !Store S, HSL : !StoreLaws S, HR : !ReliableStore S, HLL : !ListingLaws S}.
Context {GS : GoSort} {GSL : GoSortLaws} {HYR : Yaml RepoDescriptor}.
Variables (kv : string -> bool) (fuel : nat) (NumCPU : Z).

(** The objects under the prefix of repositories are descriptors, that carry
    the names of their repositories. *)

Definition repos_ok (s : S) : Prop := forall k b, Strings.HasPrefix k GetArchivePathPrefixToRepos = true -> objects s !! k = Some b ->
  exists d, Unmarshal b = Ok d /\ Strings.no_slash (rd_Name d) /\ k = GetArchivePathToRepoDescriptor (rd_Name d).

Definition repo_got (s : S) (k : string) : option RepoDescriptor :=
  match objects s !! k with
  | Some b => match Unmarshal b with Ok d => Some d | _ => None end
  | None => None
  end.

Lemma parse_repo_path name : Strings.no_slash name ->
  GetArchivePathComponents kv (GetArchivePathToRepoDescriptor name) = Ok (mkArchivePathComponents name "" repoDescriptorFile "" "" "" "" "" false).
Proof. intros Hn. rewrite ModelPaths.repo_path_Join. ModelPaths.parse_pieces. unfold archiveComponents. by repeat (case_decide; try done). Qed.

Lemma repo_descriptor_inj a b : GetArchivePathToRepoDescriptor a = GetArchivePathToRepoDescriptor b -> Strings.no_slash a -> Strings.no_slash b -> a = b.
Proof. intros H Ha Hb. pose proof (parse_repo_path a Ha) as E. rewrite H, parse_repo_path in E by done. congruence. Qed.

Lemma runs_getRepoAsync c0 k (c : Stores S) :
  repos_ok (Metadata c0) -> same_objects c0 c -> Strings.HasPrefix k GetArchivePathPrefixToRepos = true -> is_Some (objects (Metadata c0) !! k) ->
  runs (getRepoAsync kv k) c (fun x c' => x = repo_got (Metadata c0) k /\ same_objects c0 c').
Proof.
  intros Hok Hs Hp [b Hb]. destruct (Hok k b Hp Hb) as (d & Hu & Hn & ->). unfold getRepoAsync, drop_missing, getRepoDescriptorByRepoName, repo_got. rewrite Hb, Hu.
  apply runs_bind. eapply runs_lift; [by apply parse_repo_path|]. cbn [apc_Repo]. apply runs_bind, runs_attempt, runs_bind, runs_meta, runs_Has. intros s1 Ho1.
  rewrite (same_meta _ _ Hs), bool_decide_true by (by rewrite Hb). apply runs_bind, runs_meta. eapply runs_Get; [cbn; by rewrite Ho1, (same_meta _ _ Hs)|]. intros s2 Ho2.
  apply runs_bind. eapply runs_lift; [exact Hu|]. rewrite decide_False by (by intros []). apply runs_ret. cbn. apply runs_ret. split; [done|].
  etrans; [exact Hs|]. etrans; [by apply (same_SetMetadata c s1)|]. by apply same_SetMetadata.
Qed.

(** The descriptors of exactly the repositories of the context, each once. Their
    order is that of the names within a batch only. *)

Lemma ListRepos_lists sch opts (c : Stores S) :
  let settings := settings_of NumCPU opts in
  repos_ok (Metadata c) -> listing_ok fuel (length (listing (objects (Metadata c)) GetArchivePathPrefixToRepos "")) settings sch ->
  exists repos, reads (ListRepos kv fuel NumCPU sch opts) c (repos, None) /\ NoDup (rd_Name <$> repos) /\
    forall d, d ∈ repos <-> Strings.no_slash (rd_Name d) /\ document (Metadata c) (GetArchivePathToRepoDescriptor (rd_Name d)) d.
Proof.
  intros settings Hok [Hfuel Hw Hb Hord [Hks Hfs]]. set (sch' := watchForInterrupts settings sch) in *.
  set (keys := listing (objects (Metadata c)) GetArchivePathPrefixToRepos "") in *. set (got := repo_got (Metadata c)).
  assert (Hkeys : forall k, k ∈ keys <-> Strings.HasPrefix k GetArchivePathPrefixToRepos = true /\ is_Some (objects (Metadata c) !! k)).
  { intros k. apply listing_elem_all. }
  assert (Hgot : forall k d, k ∈ keys -> got k = Some d -> Strings.no_slash (rd_Name d) /\ k = GetArchivePathToRepoDescriptor (rd_Name d) /\ document (Metadata c) k d).
  { intros k d [Hp [b Hkb]]%Hkeys. unfold got, repo_got. destruct (Hok k b Hp Hkb) as (d' & Hu & Hn & ->). rewrite Hkb, Hu. intros [= <-]. split_and!; [done..|]. by exists b. }
  assert (forall l, order sch' l ≡ₚ l) as Hord' by (intros l; unfold sch'; by rewrite order_watch).
  destruct (fetchKeys_meta GetArchivePathPrefixToRepos "" (Z.to_nat (batchSize settings)) ltac:(lia) fuel c Hfuel) as (evs & c1 & E1 & Hs1 & He & Hk).
  assert (Hperm : mbind (fun ev => sorted_batch RepoDescriptors_Less got sch' (kb_keys ev)) evs ≡ₚ omap got keys) by (unfold keys; rewrite <- Hk; by apply listed_Permutation).
  exists (mbind (fun ev => sorted_batch RepoDescriptors_Less got sch' (kb_keys ev)) evs). split; [|split].
  - unfold ListRepos, listReposChan. fold settings sch'. apply runs_bind, runs_bind. rewrite Hks. eapply runs_eq; [exact E1|].
    unfold fetchRepos. rewrite Hfs. eapply runs_mono; [apply (fetch_all_complete (same_objects c) _ _ got settings sch')|]; try done.
    + intros k c' Hk' Hs. rewrite Hk in Hk'. apply Hkeys in Hk' as [Hp Hk']. by apply runs_getRepoAsync.
    + intros out c2 [-> Hs2]. apply runs_ret. split; [|done]. unfold doSelectRepos. by rewrite doSelect_complete.
  - rewrite Hperm. assert (NoDup keys) as Hnd by apply listing_NoDup. clear -Hnd Hgot. induction Hnd as [|k l Hnk Hnd IH]; [constructor|].
    rewrite omap_cons. destruct (got k) as [d|] eqn:E; [|apply IH; intros k' d' Hk'; apply Hgot; by right].
    rewrite fmap_cons. constructor; [|apply IH; intros k' d' Hk'; apply Hgot; by right].
    intros (d' & Heq & (k' & Hk' & E')%list_elem_of_omap)%list_elem_of_fmap. destruct (Hgot k d ltac:(left) E) as (_ & Hd & _), (Hgot k' d' ltac:(by right) E') as (_ & Hd' & _).
    apply Hnk. by rewrite Hd, Heq, <- Hd'.
  - intros d. rewrite Hperm, list_elem_of_omap. split.
    + intros (k & Hk' & E). destruct (Hgot k d Hk' E) as (Hn & -> & Hdoc). done.
    + intros (Hn & b & Hkb & Hu). exists (GetArchivePathToRepoDescriptor (rd_Name d)). split; [|unfold got, repo_got; by rewrite Hkb, Hu].
      apply Hkeys. split; [apply Strings.HasPrefix_spec; by eexists|]. by exists b.
Qed.

End repos.

Section bundles.
Context {S : Type} `{HS : !Store S, HSL : !StoreLaws S, HR : !ReliableStore S, HLL : !ListingLaws S}.
Context {GS : GoSort} {GSL : GoSortLaws} {HYB : Yaml BundleDescriptor}.
Variables (kv : string -> bool) (fuel : nat) (NumCPU : Z) (repo : string) (settings : Settings).
Hypothesis repo_name : Strings.no_slash repo.

Definition minimal_bundle (id : string) : BundleDescriptor := mkBundleDescriptor 0 id "" [] Time.zero [] 0 0 "" "".

(** What a listing gets of a bundle. *)

Definition bundle_got (s : S) (id : string) : option BundleDescriptor :=
  if withMinimalBundle settings then Some (minimal_bundle id)
  else match objects s !! GetArchivePathToBundle repo id with
       | Some b => match Unmarshal b with Ok d => Some d | _ => None end
       | None => None
       end.

(** The objects of the bundles of the repository lie in directories named by
    identifiers of one length, and the descriptors carry their identifiers. *)

Record bundles_ok (s : S) (n : nat) : Prop := {
  ok_directories : in_directories (objects s) (GetArchivePathPrefixToBundles repo) n;
  ok_descriptors : forall id b, Strings.no_slash id -> objects s !! GetArchivePathToBundle repo id = Some b ->
    exists d, Unmarshal b = Ok d /\ bd_ID d = id
}.

Lemma bundle_directory id : directory (GetArchivePathPrefixToBundles repo) id = Strings.Join ["bundles"; repo; id; ""].
Proof.
  unfold directory, GetArchivePathPrefixToBundles. rewrite !Strings.string_app_assoc. simpl Strings.Join.
  by rewrite Strings.string_app_nil_r.
Qed.

Lemma parse_bundle_directory id :
  Strings.no_slash id ->
  GetArchivePathComponents kv (directory (GetArchivePathPrefixToBundles repo) id)
    = Ok (mkArchivePathComponents repo id "" "" "" "" "" "" false).
Proof.
  intros Hid. rewrite bundle_directory. ModelPaths.parse_pieces. unfold archiveComponents. by repeat (case_decide; try done).
Qed.

Lemma bundle_got_ID s n id d : bundles_ok s n -> Strings.no_slash id -> bundle_got s id = Some d -> bd_ID d = id.
Proof.
  intros [_ Hd] Hid. unfold bundle_got. destruct (withMinimalBundle settings); [by intros [= <-]|].
  destruct (objects s !! _) as [b|] eqn:E; [|done]. destruct (Hd id b Hid E) as (d' & -> & ?). by intros [= <-].
Qed.

Lemma runs_getBundleAsync s0 n id s :
  bundles_ok s0 n -> Strings.no_slash id -> objects s = objects s0 ->
  runs (getBundleAsync kv repo settings (directory (GetArchivePathPrefixToBundles repo) id)) s
    (fun x s' => x = bundle_got s0 id /\ objects s' = objects s0).
Proof.
  intros Hok Hid Ho. unfold getBundleAsync, drop_missing, downloadBundleDescriptor, bundle_got.
  destruct (withMinimalBundle settings) eqn:Em.
  { apply runs_bind, runs_attempt, runs_bind. eapply runs_lift; [by apply parse_bundle_directory|]. cbn.
    by apply runs_ret, runs_ret. }
  destruct (objects s0 !! GetArchivePathToBundle repo id) as [b|] eqn:Eb.
  - destruct (ok_descriptors _ _ Hok id b Hid Eb) as (d & Hu & Hd). rewrite Hu.
    apply runs_bind, runs_attempt, runs_bind. eapply runs_lift; [by apply parse_bundle_directory|]. cbn [apc_BundleID].
    apply runs_bind. eapply runs_Get; [by rewrite Ho|]. intros s1 Ho1. apply runs_bind. eapply runs_lift; [exact Hu|].
    rewrite decide_False by tauto. apply runs_ret, runs_ret. split; [done|]. congruence.
  - destruct (Get_none (GetArchivePathToBundle repo id) s) as (e & s1 & Eg & He & Ho1); [by rewrite Ho|].
    apply runs_bind. eapply runs_attempt_Err.
    { unfold mbind, M_bind, lift. rewrite parse_bundle_directory by done. cbn [apc_BundleID]. by rewrite Eg. }
    cbn. rewrite He. apply runs_ret. split; [done|]. congruence.
Qed.

(** The identifiers of the directories, in order. *)

Definition lists (s : S) (ids : list string) : Prop :=
  NoDup ids /\ StronglySorted String.le ids /\ Forall Strings.no_slash ids /\
  forall id, Strings.no_slash id ->
    id ∈ ids <-> exists file, is_Some (objects s !! (directory (GetArchivePathPrefixToBundles repo) id +:+ file)).

Let key_got (s : S) (k : string) : option BundleDescriptor :=
  match GetArchivePathComponents kv k with Ok apc => bundle_got s (apc_BundleID apc) | _ => None end.

Lemma omap_key_got s ids :
  Forall Strings.no_slash ids -> omap (key_got s) (directory (GetArchivePathPrefixToBundles repo) <$> ids) = omap (bundle_got s) ids.
Proof.
  induction 1 as [|id ids Hid _ IH]; [done|]. rewrite fmap_cons, !omap_cons, IH.
  unfold key_got at 1. by rewrite parse_bundle_directory by done.
Qed.

Lemma got_elem s n (ids : list string) d :
  bundles_ok s n -> Forall Strings.no_slash ids ->
  d ∈ omap (bundle_got s) ids <-> bd_ID d ∈ ids /\ bundle_got s (bd_ID d) = Some d.
Proof.
  intros Hok Hno. rewrite Forall_forall in Hno. rewrite list_elem_of_omap. split; [|by eauto].
  intros (id & Hin & E). by rewrite (bundle_got_ID _ _ _ _ Hok (Hno _ Hin) E).
Qed.

Lemma got_sorted s n ids :
  bundles_ok s n -> Forall Strings.no_slash ids -> StronglySorted String.le ids ->
  StronglySorted String.le (bd_ID <$> omap (bundle_got s) ids).
Proof.
  intros Hok Hno Hs. revert Hno. induction Hs as [|id ids Hs IH Hall]; intros Hno; [constructor|]. rewrite omap_cons.
  apply Forall_cons in Hno as [Hid Hno]. destruct (bundle_got s id) as [d|] eqn:E; [|by apply IH].
  rewrite fmap_cons. apply StronglySorted_cons. split; [|by apply IH]. rewrite (bundle_got_ID _ _ _ _ Hok Hid E).
  apply Forall_forall. intros x (d' & -> & [Hin _]%(got_elem _ _ _ _ Hok Hno))%list_elem_of_fmap.
  rewrite Forall_forall in Hall. by apply Hall.
Qed.

Lemma got_NoDup s n ids :
  bundles_ok s n -> Forall Strings.no_slash ids -> NoDup ids -> NoDup (bd_ID <$> omap (bundle_got s) ids).
Proof.
  intros Hok Hno Hs. revert Hno. induction Hs as [|id ids Hni Hs IH]; intros Hno; [constructor|]. rewrite omap_cons.
  apply Forall_cons in Hno as [Hid Hno]. destruct (bundle_got s id) as [d|] eqn:E; [|by apply IH].
  rewrite fmap_cons. apply NoDup_cons. split; [|by apply IH]. rewrite (bundle_got_ID _ _ _ _ Hok Hid E).
  by intros (d' & -> & [Hin _]%(got_elem _ _ _ _ Hok Hno))%list_elem_of_fmap.
Qed.

#[local] Instance Less_Transitive : Transitive (fun a b => BundleDescriptors_Less b a = false).
Proof. intros a b c Ha%ltb_le Hb%ltb_le. apply ltb_le. by etrans. Qed.

#[local] Instance Less_Total : Total (fun a b => BundleDescriptors_Less b a = false).
Proof. intros a b. destruct (total String.le (bd_ID a) (bd_ID b)); [left|right]; by apply ltb_le. Qed.

Lemma listBundlesChan_runs sch opts (c : Stores S) n :
  settings = settings_of NumCPU opts ->
  is_Some (objects (Metadata c) !! GetArchivePathToRepoDescriptor repo) -> bundles_ok (Metadata c) n ->
  listing_ok fuel (length (listing (objects (Metadata c)) (GetArchivePathPrefixToBundles repo) "/")) settings sch ->
  exists ids, lists (Metadata c) ids /\
    runs (listBundlesChan kv fuel NumCPU repo sch opts) c (fun evs c' =>
      same_objects c c' /\ doSelect evs = (omap (bundle_got (Metadata c)) ids, None)).
Proof.
  intros Hset Hrepo Hok [Hfuel Hw Hb Hord [Hks Hfs]].
  destruct (listing_directories _ _ _ (ok_directories _ _ Hok)) as (ids & Hl & Hnd & Hso & Hno & Hin).
  assert (Forall Strings.no_slash ids) as Hno' by (eapply Forall_impl; [exact Hno|]; by intros ? []).
  exists ids. split; [done|]. unfold listBundlesChan, after_check. rewrite <- Hset.
  apply runs_bind, runs_attempt. eapply reads_runs; [by apply reads_RepoExists|]. intros c1 Hs1.
  pose proof (same_meta _ _ Hs1) as Hm1. rewrite Hks. unfold fetchBundles. rewrite Hfs.
  apply runs_bind, runs_meta. eapply runs_mono; [apply fetchKeys_store; [lia|by rewrite Hm1]|].
  intros evs s2 (Ho2 & He & Hk). apply runs_meta. cbn [Metadata SetMetadata].
  set (sch' := watchForInterrupts settings sch).
  assert (forall l, order sch' l ≡ₚ l) as Hord' by (intros l; unfold sch'; by rewrite order_watch).
  rewrite Hm1, Hl in Hk.
  eapply runs_mono; [apply (fetch_all_complete (fun s => objects s = objects (Metadata c)) _ _ (key_got (Metadata c)) settings sch')|].
  - done.
  - done.
  - by rewrite Ho2.
  - done.
  - intros k s' Hk'. rewrite Hk in Hk'. apply list_elem_of_fmap in Hk' as (id & -> & Hid). rewrite Forall_forall in Hno'.
    intros Ho'. unfold key_got. rewrite parse_bundle_directory by auto. by eapply runs_getBundleAsync; eauto.
  - intros out s3 [-> Ho3]. split.
    + etrans; [exact Hs1|]. etrans; [by apply (same_SetMetadata c1 s2)|]. apply same_SetMetadata. cbn. congruence.
    + rewrite doSelect_complete, (listed_sorted _ _ settings sch' Hord' Hw); [by rewrite Hk, omap_key_got|apply _|apply _| |].
      * intros a b. rewrite Hk, omap_key_got by done.
        intros [_ Ha]%(got_elem _ _ _ _ Hok Hno') [_ Hb']%(got_elem _ _ _ _ Hok Hno') Hab%ltb_le Hba%ltb_le.
        assert (bd_ID a = bd_ID b) as Heq by (by apply (anti_symm String.le)). rewrite Heq in Ha. congruence.
      * rewrite Hk, omap_key_got by done. eapply StronglySorted_fmap_inv; [|by eapply got_sorted].
        intros a b _ _. apply ltb_le.
Qed.

Lemma ListBundles_reads sch opts (c : Stores S) n :
  settings = settings_of NumCPU opts ->
  is_Some (objects (Metadata c) !! GetArchivePathToRepoDescriptor repo) -> bundles_ok (Metadata c) n ->
  listing_ok fuel (length (listing (objects (Metadata c)) (GetArchivePathPrefixToBundles repo) "/")) settings sch ->
  exists ids, lists (Metadata c) ids /\
    reads (ListBundles kv fuel NumCPU repo sch opts) c (omap (bundle_got (Metadata c)) ids, None).
Proof.
  intros Hset Hrepo Hok Hl. destruct (listBundlesChan_runs sch opts c n Hset Hrepo Hok Hl) as (ids & Hids & Hr).
  exists ids. split; [done|]. apply runs_bind. eapply runs_mono; [exact Hr|]. intros evs c' [Hs Hd]. by apply runs_ret.
Qed.

(** The function is applied to the bundles that are listed, in that order. *)

Lemma ListBundlesApply_eq {V} sch i opts (apply_ : BundleDescriptor -> M (Stores S * V) unit) (c : Stores S) v n :
  settings = settings_of NumCPU (opts ++ [WithDoneChan true]) ->
  is_Some (objects (Metadata c) !! GetArchivePathToRepoDescriptor repo) -> bundles_ok (Metadata c) n ->
  listing_ok fuel (length (listing (objects (Metadata c)) (GetArchivePathPrefixToBundles repo) "/")) settings sch ->
  exists ids c1, lists (Metadata c) ids /\ same_objects c c1 /\
    ListBundlesApply kv fuel NumCPU repo sch i apply_ opts (c, v) =
      for_each (omap (bundle_got (Metadata c)) ids) apply_ (c1, v).
Proof.
  intros Hset Hrepo Hok Hl.
  destruct (listBundlesChan_runs sch _ c n Hset Hrepo Hok Hl) as (ids & Hids & evs & c1 & E & Hs & Hd).
  exists ids, c1. split_and!; [done..|]. unfold ListBundlesApply. by erewrite list_apply_ok.
Qed.

End bundles.

Section theorems.
Context {S : Type} `{HS : !Store S, HSL : !StoreLaws S, HR : !ReliableStore S, HLL : !ListingLaws S}.
Context {GS : GoSort} {GSL : GoSortLaws} {HYB : Yaml BundleDescriptor}.

(** C15: ListBundles returns, without an error, the descriptors of exactly the
    bundles of the repository, each once and in the order of the identifiers,
    and changes no object. It does so for every batch size, number of workers
    and order in which the results of the workers arrive. *)
Theorem ListBundles_correct kv fuel NumCPU repo sch opts (c : Stores S) n :
  let settings := settings_of NumCPU opts in
  Strings.no_slash repo -> is_Some (objects (Metadata c) !! GetArchivePathToRepoDescriptor repo) ->
  bundles_ok repo (Metadata c) n -> withMinimalBundle settings = false ->
  listing_ok fuel (length (listing (objects (Metadata c)) (GetArchivePathPrefixToBundles repo) "/")) settings sch ->
  exists bundles, reads (ListBundles kv fuel NumCPU repo sch opts) c (bundles, None) /\
    StronglySorted String.le (bd_ID <$> bundles) /\ NoDup (bd_ID <$> bundles) /\
    forall d, d ∈ bundles <-> Strings.no_slash (bd_ID d) /\ document (Metadata c) (GetArchivePathToBundle repo (bd_ID d)) d.
Proof.
  intros settings Hn Hrepo Hok Hmin Hl.
  destruct (ListBundles_reads kv fuel NumCPU repo settings Hn sch opts c n eq_refl Hrepo Hok Hl)
    as (ids & (Hnd & Hso & Hno & Hin) & Hr).
  eexists. split; [exact Hr|]. split_and!; [by eapply got_sorted|by eapply got_NoDup|].
  intros d. rewrite (got_elem _ _ _ _ _ _ Hok Hno). unfold bundle_got, document. rewrite Hmin. rewrite Forall_forall in Hno. split.
  - intros [Hd E]. split; [by apply Hno|]. destruct (objects (Metadata c) !! GetArchivePathToBundle repo (bd_ID d)) as [b|] eqn:Eb; [|done].
    exists b. destruct (Unmarshal b) as [d'|e|p] eqn:Eu; [|done..]. by injection E as ->.
  - intros (Hd & b & Hb & Hu). rewrite Hb, Hu. split; [|done]. apply Hin; [done|]. exists bundleDescriptorFile.
    unfold directory, GetArchivePathPrefixToBundles. rewrite !Strings.string_app_assoc. eauto.
Qed.

End theorems.

(** ** The latest bundle *)

Lemma StronglySorted_last {A} (R : relation A) `{!Reflexive R} l x y :
  StronglySorted R l -> last l = Some x -> y ∈ l -> R y x.
Proof.
  intros Hs (l' & ->)%last_Some Hy. apply elem_of_app in Hy as [Hy|Hy%list_elem_of_singleton]; [|by subst].
  eapply StronglySorted_app_1_elem_of; [exact Hs|done|set_solver].
Qed.

(** Keys in the order of their directories, for directories of one length. *)

Lemma le_directories a b x y :
  String.length a = String.length b -> String.le (a +:+ x) (b +:+ y) -> String.le a b.
Proof.
  unfold String.le, String.leb. revert b. induction a as [|c a IH]; intros [|d b] Hl; simpl in Hl; simplify_eq; [done|].
  rewrite !Strings.append_cons. cbn [String.compare]. destruct (Ascii.compare c d); try done. by apply IH.
Qed.

Section latest.
Context {S : Type} `{HS : !Store S, HSL : !StoreLaws S, HR : !ReliableStore S, HLL : !ListingLaws S}.

(** GetLatestBundle returns the greatest identifier of a bundle that has a
    file in the repository, as long as all the files fit the one page of keys
    it reads; ksuids are ordered by their time. *)
Theorem GetLatestBundle_correct kv repo (c : Stores S) n :
  let prefix := GetArchivePathPrefixToBundles repo in
  let files := listing (objects (Metadata c)) prefix "" in
  is_Some (objects (Metadata c) !! GetArchivePathToRepoDescriptor repo) ->
  in_directories (objects (Metadata c)) prefix n ->
  (forall id file, Strings.no_slash id -> is_Some (objects (Metadata c) !! (directory prefix id +:+ file)) ->
     GetArchivePathComponents kv (directory prefix id +:+ file) = Ok (mkArchivePathComponents repo id file "" "" "" "" "" false)) ->
  length files <= maxMetaFilesToProcess -> files <> [] ->
  exists id file, reads (GetLatestBundle kv repo) c id /\ is_Some (objects (Metadata c) !! (directory prefix id +:+ file)) /\
    forall id' file', Strings.no_slash id' -> is_Some (objects (Metadata c) !! (directory prefix id' +:+ file')) -> String.le id' id.
Proof.
  intros prefix files Hrepo Hdir Hparse Hmax Hne. destruct (last files) as [key|] eqn:Elast; [|by apply last_None in Elast].
  assert (key ∈ files) as (key' & Hs & Hp & Hkey)%listing_elem by (by apply last_Some_elem_of).
  assert (key = key') as -> by exact Hkey. destruct (Hdir key' Hs Hp) as (id & file & -> & Hid & Hlen).
  exists id, file. split_and!; [|done|].
  - unfold GetLatestBundle. eapply reads_bind; [by apply reads_RepoExists|]. intros c1 Hs1.
    apply runs_bind, runs_meta, runs_KeysPrefix; [unfold maxMetaFilesToProcess; lia|].
    intros ks next rest s2 Ho Hr Hks Hend Hnext. rewrite remaining_start, (same_meta _ _ Hs1) in Hr. fold prefix files in Hr.
    assert (rest = []) as ->.
    { destruct (decide (next = "")) as [E|E]; [by apply Hend|]. destruct (Hnext E) as [Hl _].
      apply (f_equal length) in Hr. rewrite length_app in Hr. apply nil_length_inv. lia. }
    rewrite app_nil_r in Hr. subst ks. rewrite Elast. apply runs_bind. eapply runs_lift; [by apply Hparse|].
    apply runs_ret. split; [done|]. by apply same_SetMetadata.
  - intros id' file' Hid' Hs'. assert (directory prefix id' +:+ file' ∈ files) as Hin.
    { apply listing_elem. exists (directory prefix id' +:+ file'). split_and!; [done| |done].
      unfold directory. rewrite !Strings.string_app_assoc. apply Strings.HasPrefix_app. }
    assert (String.le (directory prefix id' +:+ file') (directory prefix id +:+ file)) as Hle.
    { eapply (StronglySorted_last String.le); [apply listing_sorted|exact Elast|exact Hin]. }
    unfold directory in Hle. rewrite !Strings.string_app_assoc in Hle. apply le_app_head in Hle.
    apply le_directories in Hle; [done|]. rewrite Hlen. destruct (Hdir _ Hs') as (id2 & file2 & E & Hno & <-).
    { unfold directory. rewrite !Strings.string_app_assoc. apply Strings.HasPrefix_app. }
    by rewrite (directory_inj _ _ _ _ _ Hid' Hno E).
Qed.

End latest.

(** ** A concrete repository: three bundles, read in pages of two keys, the
    results of a page arriving in the reverse order *)

Section witness.

Definition a_bundle (id : string) : BundleDescriptor := mkBundleDescriptor 2097152 id "m" [] 1%Z [] 1 2 "blake" "".

Definition bundle_file (id : string) : string * bytes :=
  (GetArchivePathToBundle "r" id, put_positive (encode (a_bundle id))).

Definition bundle_files : list (string * bytes) :=
  [(GetArchivePathToRepoDescriptor "r", []); bundle_file "b1"; bundle_file "b2"; bundle_file "b3";
   (GetArchivePathToBundleFileList "r" "b2" 0, [])].

Definition bundle_stores : Stores (gmap string bytes) := NewStores ∅ ∅ ∅ (list_to_map bundle_files) ∅.

Definition backwards : schedule := mkSchedule (fun l => reverse l) None None.

Definition two_by_two : list Option := [BatchSize 2].

Lemma bundle_files_elem k v : objects (Metadata bundle_stores) !! k = Some v -> (k, v) ∈ bundle_files.
Proof. apply elem_of_list_to_map_2. Qed.

#[local] Ltac each_file H := unfold bundle_files in H; repeat (apply elem_of_cons in H as [H|H]); [injection H as -> ->..|by apply elem_of_nil in H].

Lemma bundle_stores_directories : in_directories (objects (Metadata bundle_stores)) (GetArchivePathPrefixToBundles "r") 2.
Proof.
  intros k [v Hv%bundle_files_elem] Hp. each_file Hv.
  - by vm_compute in Hp.
  - by exists "b1", "bundle.yaml".
  - by exists "b2", "bundle.yaml".
  - by exists "b3", "bundle.yaml".
  - by exists "b2", "bundle-files-0.yaml".
Qed.

Lemma backwards_ok len : len < 5 -> listing_ok 5 len (settings_of 1 two_by_two) backwards.
Proof. intros Hl. split; [done|done|done| |done]. intros l. apply reverse_Permutation. Qed.

Lemma strip_bundle_path id :
  Strings.strip_suffix "/bundle.yaml" (GetArchivePathToBundle "r" id) = Some ("bundles/r/" +:+ id).
Proof.
  unfold GetArchivePathToBundle. change ("/" +:+ bundleDescriptorFile) with "/bundle.yaml".
  rewrite <- !Strings.string_app_assoc. apply Strings.strip_suffix_app.
Qed.

Lemma bundle_file_descriptor id b : (GetArchivePathToBundle "r" id, b) ∈ bundle_files -> b = put_positive (encode (a_bundle id)).
Proof.
  assert (forall id', (GetArchivePathToBundle "r" id, b) = bundle_file id' -> b = put_positive (encode (a_bundle id))) as Hfile.
  { intros id' H. pose proof (f_equal fst H) as Hk. pose proof (f_equal snd H) as Hv. cbn [fst snd bundle_file] in Hk, Hv.
    apply (f_equal (Strings.strip_suffix "/bundle.yaml")) in Hk. rewrite !strip_bundle_path in Hk.
    assert ("bundles/r/" +:+ id = "bundles/r/" +:+ id') as ->%Strings.string_app_inv_head by congruence. done. }
  assert (forall k v, Strings.strip_suffix "/bundle.yaml" k = None -> (GetArchivePathToBundle "r" id, b) = (k, v) ->
    b = put_positive (encode (a_bundle id))) as Hother.
  { intros k v Hn H. pose proof (f_equal fst H) as Hk. cbn [fst] in Hk. rewrite <- Hk, strip_bundle_path in Hn. done. }
  unfold bundle_files. rewrite !elem_of_cons, elem_of_nil. intros [H|[H|[H|[H|[H|[]]]]]]; eauto.
  - eapply Hother; [|exact H]. vm_compute. reflexivity.
  - eapply Hother; [|exact H]. vm_compute. reflexivity.
Qed.

Lemma bundle_stores_ok : bundles_ok (HYB := numbered_yaml) "r" (Metadata bundle_stores) 2.
Proof.
  split; [apply bundle_stores_directories|]. intros id b _ ->%bundle_files_elem%bundle_file_descriptor.
  exists (a_bundle id). split; [apply numbered_Unmarshal|reflexivity].
Qed.

Lemma ListBundles_correct_witness :
  exists bundles, reads (ListBundles (HYB := numbered_yaml) (fun _ => true) 5 1 "r" backwards two_by_two) bundle_stores (bundles, None) /\
    StronglySorted String.le (bd_ID <$> bundles) /\ NoDup (bd_ID <$> bundles) /\
    forall d, d ∈ bundles <-> Strings.no_slash (bd_ID d) /\
      document (HY := numbered_yaml) (Metadata bundle_stores) (GetArchivePathToBundle "r" (bd_ID d)) d.
Proof.
  apply (ListBundles_correct (HYB := numbered_yaml) (fun _ => true) 5 1 "r" backwards two_by_two bundle_stores 2).
  - reflexivity.
  - vm_compute. eauto.
  - apply bundle_stores_ok.
  - reflexivity.
  - apply backwards_ok. vm_compute. lia.
Defined.

Lemma bundle_files_parse id file v :
  let key := directory (GetArchivePathPrefixToBundles "r") id +:+ file in
  Strings.no_slash id -> objects (Metadata bundle_stores) !! key = Some v ->
  GetArchivePathComponents (fun _ => true) key = Ok (mkArchivePathComponents "r" id file "" "" "" "" "" false).
Proof.
  intros key Hid Hv%bundle_files_elem. assert (Hfile : forall id' file', Strings.no_slash id' ->
    key = directory (GetArchivePathPrefixToBundles "r") id' +:+ file' -> id = id' /\ file = file').
  { intros id' file' Hid' E. assert (id = id') as -> by (by eapply directory_inj). split; [done|].
    by apply Strings.string_app_inv_head in E. }
  apply (list_elem_of_fmap_2 fst) in Hv. unfold bundle_files in Hv. cbn [fst fmap list_fmap bundle_file] in Hv.
  rewrite !elem_of_cons, elem_of_nil in Hv. destruct Hv as [E|[E|[E|[E|[E|[]]]]]].
  - done.
  - destruct (Hfile "b1" "bundle.yaml" eq_refl E) as [-> ->]. by vm_compute.
  - destruct (Hfile "b2" "bundle.yaml" eq_refl E) as [-> ->]. by vm_compute.
  - destruct (Hfile "b3" "bundle.yaml" eq_refl E) as [-> ->]. by vm_compute.
  - destruct (Hfile "b2" "bundle-files-0.yaml" eq_refl E) as [-> ->]. by vm_compute.
Qed.

Lemma GetLatestBundle_correct_witness :
  exists id file, reads (GetLatestBundle (fun _ => true) "r") bundle_stores id /\
    is_Some (objects (Metadata bundle_stores) !! (directory (GetArchivePathPrefixToBundles "r") id +:+ file)).
Proof.
  destruct (GetLatestBundle_correct (fun _ => true) "r" bundle_stores 2) as (id & file & Hr & Hs & _).
  - vm_compute. eauto.
  - apply bundle_stores_directories.
  - intros id file Hid [v Hv]. exact (bundle_files_parse id file v Hid Hv).
  - transitivity 5; [vm_compute; lia|unfold maxMetaFilesToProcess; lia].
  - by vm_compute.
  - by exists id, file.
Defined.

End witness.

End CoreList.
