(* ===== verification/CoreBundle.v ===== *)
(** * Bundles (pkg/core: bundle.go, bundle_options.go, bundle_pack.go, bundle_diff.go)

    A bundle in memory, the upload of its descriptor and of its index files,
    and the comparison of two bundles. *)

From S2P Require Import Prelude GoLib Errors Storage Model CoreMeta StoreRules CoreIndex CoreRepo.

Module CoreBundle.
Import Model Storage CoreMeta CoreStatus StoreRules CoreIndex CoreRepo.

(** The logger, the metrics and the references to the stores are left out;
    [b_consumable] and [b_context] tell whether the references are set. *)

Record Bundle : Type := mkBundle {
  b_RepoID : string;
  b_BundleID : string;
  b_consumable : bool;
  b_context : bool;
  b_BundleDescriptor : BundleDescriptor;
  b_BundleEntries : list BundleEntry;
  b_SkipOnError : bool;
  b_Retry : bool;
  b_concurrentFileUploads : Z;
  b_concurrentFileDownloads : Z;
  b_concurrentFilelistDownloads : Z;
  b_withVerifyHash : bool;
  b_withVerifyBlobHash : bool
}.

Definition BundleOption : Type := Bundle -> Bundle.

(** bd.ID = id *)

Definition descriptor_with_ID (bd : BundleDescriptor) (id : string) : BundleDescriptor :=
  mkBundleDescriptor (bd_LeafSize bd) id (bd_Message bd) (bd_Parents bd) (bd_Timestamp bd) (bd_Contributors bd)
    (bd_BundleEntriesFileCount bd) (bd_Version bd) (bd_Deduplication bd) (bd_RunStage bd).

Definition descriptor_with_count (bd : BundleDescriptor) (count : N) : BundleDescriptor :=
  mkBundleDescriptor (bd_LeafSize bd) (bd_ID bd) (bd_Message bd) (bd_Parents bd) (bd_Timestamp bd) (bd_Contributors bd)
    count (bd_Version bd) (bd_Deduplication bd) (bd_RunStage bd).

Definition descriptor_with_contributors (bd : BundleDescriptor) (cs : list Contributor) : BundleDescriptor :=
  mkBundleDescriptor (bd_LeafSize bd) (bd_ID bd) (bd_Message bd) (bd_Parents bd) (bd_Timestamp bd) cs
    (bd_BundleEntriesFileCount bd) (bd_Version bd) (bd_Deduplication bd) (bd_RunStage bd).

Definition set_descriptor (b : Bundle) (bd : BundleDescriptor) : Bundle :=
  mkBundle (b_RepoID b) (b_BundleID b) (b_consumable b) (b_context b) bd (b_BundleEntries b) (b_SkipOnError b) (b_Retry b)
    (b_concurrentFileUploads b) (b_concurrentFileDownloads b) (b_concurrentFilelistDownloads b) (b_withVerifyHash b)
    (b_withVerifyBlobHash b).

Definition set_entries (b : Bundle) (es : list BundleEntry) : Bundle :=
  mkBundle (b_RepoID b) (b_BundleID b) (b_consumable b) (b_context b) (b_BundleDescriptor b) es (b_SkipOnError b) (b_Retry b)
    (b_concurrentFileUploads b) (b_concurrentFileDownloads b) (b_concurrentFilelistDownloads b) (b_withVerifyHash b)
    (b_withVerifyBlobHash b).

(** ** Options *)

Definition WithBundleDescriptor (r : option BundleDescriptor) : BundleOption := fun b =>
  match r with Some bd => set_descriptor b bd | None => b end.

Definition Repo (r : string) : BundleOption := fun b =>
  mkBundle r (b_BundleID b) (b_consumable b) (b_context b) (b_BundleDescriptor b) (b_BundleEntries b) (b_SkipOnError b)
    (b_Retry b) (b_concurrentFileUploads b) (b_concurrentFileDownloads b) (b_concurrentFilelistDownloads b)
    (b_withVerifyHash b) (b_withVerifyBlobHash b).

Definition ConsumableStore (store : bool) : BundleOption := fun b =>
  mkBundle (b_RepoID b) (b_BundleID b) store (b_context b) (b_BundleDescriptor b) (b_BundleEntries b) (b_SkipOnError b)
    (b_Retry b) (b_concurrentFileUploads b) (b_concurrentFileDownloads b) (b_concurrentFilelistDownloads b)
    (b_withVerifyHash b) (b_withVerifyBlobHash b).

Definition ContextStores (cs : bool) : BundleOption := fun b =>
  mkBundle (b_RepoID b) (b_BundleID b) (b_consumable b) cs (b_BundleDescriptor b) (b_BundleEntries b) (b_SkipOnError b)
    (b_Retry b) (b_concurrentFileUploads b) (b_concurrentFileDownloads b) (b_concurrentFilelistDownloads b)
    (b_withVerifyHash b) (b_withVerifyBlobHash b).

Definition BundleID (bID : string) : BundleOption := fun b =>
  mkBundle (b_RepoID b) bID (b_consumable b) (b_context b) (b_BundleDescriptor b) (b_BundleEntries b) (b_SkipOnError b)
    (b_Retry b) (b_concurrentFileUploads b) (b_concurrentFileDownloads b) (b_concurrentFilelistDownloads b)
    (b_withVerifyHash b) (b_withVerifyBlobHash b).

Definition SkipMissing (s : bool) : BundleOption := fun b =>
  mkBundle (b_RepoID b) (b_BundleID b) (b_consumable b) (b_context b) (b_BundleDescriptor b) (b_BundleEntries b) s
    (b_Retry b) (b_concurrentFileUploads b) (b_concurrentFileDownloads b) (b_concurrentFilelistDownloads b)
    (b_withVerifyHash b) (b_withVerifyBlobHash b).

Definition ConcurrentFileUploads (n : Z) : BundleOption := fun b =>
  mkBundle (b_RepoID b) (b_BundleID b) (b_consumable b) (b_context b) (b_BundleDescriptor b) (b_BundleEntries b)
    (b_SkipOnError b) (b_Retry b) n (b_concurrentFileDownloads b) (b_concurrentFilelistDownloads b)
    (b_withVerifyHash b) (b_withVerifyBlobHash b).

Definition ConcurrentFileDownloads (n : Z) : BundleOption := fun b =>
  mkBundle (b_RepoID b) (b_BundleID b) (b_consumable b) (b_context b) (b_BundleDescriptor b) (b_BundleEntries b)
    (b_SkipOnError b) (b_Retry b) (b_concurrentFileUploads b) n (b_concurrentFilelistDownloads b)
    (b_withVerifyHash b) (b_withVerifyBlobHash b).

Definition ConcurrentFilelistDownloads (n : Z) : BundleOption := fun b =>
  mkBundle (b_RepoID b) (b_BundleID b) (b_consumable b) (b_context b) (b_BundleDescriptor b) (b_BundleEntries b)
    (b_SkipOnError b) (b_Retry b) (b_concurrentFileUploads b) (b_concurrentFileDownloads b) n
    (b_withVerifyHash b) (b_withVerifyBlobHash b).

Definition BundleWithRetry (enabled : bool) : BundleOption := fun b =>
  mkBundle (b_RepoID b) (b_BundleID b) (b_consumable b) (b_context b) (b_BundleDescriptor b) (b_BundleEntries b)
    (b_SkipOnError b) enabled (b_concurrentFileUploads b) (b_concurrentFileDownloads b) (b_concurrentFilelistDownloads b)
    (b_withVerifyHash b) (b_withVerifyBlobHash b).

Definition BundleWithVerifyHash (enabled : bool) : BundleOption := fun b =>
  mkBundle (b_RepoID b) (b_BundleID b) (b_consumable b) (b_context b) (b_BundleDescriptor b) (b_BundleEntries b)
    (b_SkipOnError b) (b_Retry b) (b_concurrentFileUploads b) (b_concurrentFileDownloads b) (b_concurrentFilelistDownloads b)
    enabled (b_withVerifyBlobHash b).

Definition BundleWithVerifyBlobHash (enabled : bool) : BundleOption := fun b =>
  mkBundle (b_RepoID b) (b_BundleID b) (b_consumable b) (b_context b) (b_BundleDescriptor b) (b_BundleEntries b)
    (b_SkipOnError b) (b_Retry b) (b_concurrentFileUploads b) (b_concurrentFileDownloads b) (b_concurrentFilelistDownloads b)
    (b_withVerifyHash b) enabled.

Definition defaultBundle (now : Time.Time) : Bundle :=
  mkBundle "" "" false false (defaultBundleDescriptor now) [] false false 20 10 10 true false.

Definition NewBundle (now : Time.Time) (opts : list BundleOption) : Bundle :=
  fold_left (fun b apply_ => apply_ b) opts (defaultBundle now).

Definition setBundleID (b : Bundle) (id : string) : Bundle :=
  set_descriptor (BundleID id b) (descriptor_with_ID (b_BundleDescriptor b) id).

(** ksuid.NewRandom is a parameter: the identifier, or its error. *)

Definition InitializeBundleID (random : res string) (b : Bundle) : res Bundle :=
  id ← random; mret (setBundleID b id).

Definition validateBundle (bd : BundleDescriptor) : bool := bool_decide (bd_Deduplication bd <> "").

(** ** Uploads *)

Section uploads.
Context {S : Type} `{HS : !Store S} {HYB : Yaml BundleDescriptor} {HYE : Yaml (list BundleEntry)}.

Definition uploadBundleDescriptor (repoID bundleID : string) (bd : BundleDescriptor) : M (Stores S) unit :=
  if negb (validateBundle bd) then fail (ErrMsg "failed to validate bundle")
  else
    buffer ← lift (Marshal bd);
    getMetaStore (putBuffer (GetArchivePathToBundle repoID bundleID) buffer NoOverWrite).

Definition uploadBundleEntriesFileList (bundle : Bundle) (fileList : list BundleEntry) : M (Stores S) Bundle :=
  buffer ← lift (Marshal fileList);
  let bd := b_BundleDescriptor bundle in
  _ ← getMetaStore (putBuffer
        (GetArchivePathToBundleFileList (b_RepoID bundle) (b_BundleID bundle) (bd_BundleEntriesFileCount bd)) buffer NoOverWrite);
  mret (set_descriptor bundle (descriptor_with_count bd (Z.to_N (Int.uint64 (Z.of_N (bd_BundleEntriesFileCount bd) + 1))))).

(** The loop over the slices of defaultBundleEntriesPerFile entries; the slice
    that reaches the end has the entries that are left. *)

Fixpoint upload_entries (fuel : nat) (fileList : list BundleEntry) (b : Bundle) (i : nat) : M (Stores S) Bundle :=
  match fuel with
  | O => panic "no result within the fuel"
  | Datatypes.S fuel' =>
      if decide (i * defaultBundleEntriesPerFile < length fileList) then
        let firstIdx := i * defaultBundleEntriesPerFile in
        let nextFirstIdx := (i + 1) * defaultBundleEntriesPerFile in
        b' ← uploadBundleEntriesFileList b
               (if decide (nextFirstIdx < length fileList)
                then take (nextFirstIdx - firstIdx) (drop firstIdx fileList) else drop firstIdx fileList);
        upload_entries fuel' fileList b' (i + 1)
      else mret b
  end.

Definition UploadBundleEntries (fuel : nat) (b : Bundle) : M (Stores S) Bundle :=
  b' ← upload_entries fuel (b_BundleEntries b) b 0;
  _ ← uploadBundleDescriptor (b_RepoID b') (b_BundleID b') (b_BundleDescriptor b');
  mret b'.

Definition Exists (b : Bundle) : M (Stores S) bool :=
  getMetaStore (Has (GetArchivePathToBundle (b_RepoID b) (b_BundleID b))).

End uploads.

Section facts.
Context {S : Type} `{HS : !Store S, HSL : !StoreLaws S, HR : !ReliableStore S}.
Context {HYB : Yaml BundleDescriptor} {HYBL : YamlLaws BundleDescriptor}.
Context {HYE : Yaml (list BundleEntry)} {HYEL : YamlLaws (list BundleEntry)}.

(** A bundle with these entries. *)

Definition bundle_with (s : S) (repo id : string) (bd : BundleDescriptor) (entries : list BundleEntry) : Prop :=
  let n := defaultBundleEntriesPerFile in
  document s (GetArchivePathToBundle repo id) bd /\ bd_ID bd = id /\
  bd_BundleEntriesFileCount bd = N.of_nat (nchunks n entries) /\
  forall j, j < nchunks n entries -> document s (GetArchivePathToBundleFileList repo id (N.of_nat j)) (chunk_at n entries j).

(** The keys of a bundle are not in use. *)

Definition fresh_bundle (s : S) (repo id : string) : Prop :=
  objects s !! GetArchivePathToBundle repo id = None /\ forall i, objects s !! GetArchivePathToBundleFileList repo id i = None.

Lemma per_file_pos : 0 < defaultBundleEntriesPerFile.
Proof. unfold defaultBundleEntriesPerFile. lia. Qed.

Lemma bundle_path_not_list repo bid k : GetArchivePathToBundle repo bid <> GetArchivePathToBundleFileList repo bid k.
Proof.
  unfold GetArchivePathToBundle, GetArchivePathToBundleFileList. intros H.
  repeat apply Strings.string_app_inv_head in H. done.
Qed.

Lemma uploadBundleDescriptor_runs repo bid bd (c1 : Stores S) (Q : unit -> Stores S -> Prop) :
  bd_Deduplication bd <> "" -> objects (Metadata c1) !! GetArchivePathToBundle repo bid = None ->
  (forall s', document s' (GetArchivePathToBundle repo bid) bd ->
     (forall q, q <> GetArchivePathToBundle repo bid -> objects s' !! q = objects (Metadata c1) !! q) -> Q tt (SetMetadata s' c1)) ->
  runs (uploadBundleDescriptor repo bid bd) c1 Q.
Proof.
  intros Hd Hn HQ. unfold uploadBundleDescriptor, validateBundle. rewrite bool_decide_true by done. cbn [negb].
  destruct (Marshal_total bd) as [b Hb]. apply runs_bind. eapply runs_lift; [exact Hb|].
  apply runs_meta, runs_putBuffer; [done|]. intros s' Ho. apply HQ.
  - exists b. rewrite Ho, lookup_insert_eq. split; [done|]. by apply Unmarshal_Marshal.
  - intros q Hq. by rewrite Ho, lookup_insert_ne.
Qed.

(** The loop over the slices of the entries: the first [i] index files are
    written, and the descriptor counts them. *)

Lemma bundle_list_inj repo id i j :
  GetArchivePathToBundleFileList repo id i = GetArchivePathToBundleFileList repo id j -> i = j.
Proof.
  unfold GetArchivePathToBundleFileList. intros H. repeat apply Strings.string_app_inv_head in H. by apply FormatUint_yaml_inj.
Qed.

Definition counted (b b' : Bundle) (count : N) : Prop :=
  b' = set_descriptor b (descriptor_with_count (b_BundleDescriptor b) count).

Lemma slice_chunk (l : list BundleEntry) i :
  let n := defaultBundleEntriesPerFile in
  (if decide ((i + 1) * n < length l) then take ((i + 1) * n - i * n) (drop (i * n) l) else drop (i * n) l) = chunk_at n l i.
Proof.
  intros n. unfold chunk_at. case_decide; [f_equal; lia|]. rewrite take_ge; [done|]. rewrite length_drop. lia.
Qed.

Lemma nchunks_lt (l : list BundleEntry) i :
  let n := defaultBundleEntriesPerFile in i * n < length l <-> i < nchunks n l.
Proof.
  intros n. pose proof per_file_pos as Hn. fold n in Hn. unfold nchunks.
  pose proof (Nat.div_mod (length l + n - 1) n ltac:(lia)) as Hd.
  pose proof (Nat.mod_upper_bound (length l + n - 1) n ltac:(lia)) as Hm.
  set (q := (length l + n - 1) / n) in *. clearbody q n. split; intros H.
  - apply Nat.nle_gt. intros Hle. pose proof (Nat.mul_le_mono_l _ _ n Hle). lia.
  - pose proof (Nat.mul_le_mono_l (i + 1) q n ltac:(lia)). lia.
Qed.

Lemma upload_entries_runs (b : Bundle) (l : list BundleEntry) : forall fuel i (b' : Bundle) (c : Stores S),
  let n := defaultBundleEntriesPerFile in let path j := GetArchivePathToBundleFileList (b_RepoID b) (b_BundleID b) (N.of_nat j) in
  (Z.of_nat (nchunks n l) < 2 ^ 64)%Z -> counted b b' (N.of_nat i) -> i <= nchunks n l -> nchunks n l - i < fuel ->
  (forall j, i <= j -> objects (Metadata c) !! path j = None) ->
  runs (upload_entries fuel l b' i) c (fun b2 c2 =>
    counted b b2 (N.of_nat (nchunks n l)) /\ c2 = SetMetadata (Metadata c2) c /\
    (forall j, i <= j < nchunks n l -> document (Metadata c2) (path j) (chunk_at n l j)) /\
    (forall q, (forall j, i <= j -> q <> path j) -> objects (Metadata c2) !! q = objects (Metadata c) !! q)).
Proof.
  induction fuel as [|fuel IH]; intros i b' c n path Hbig Hb Hi Hf Hfree; [lia|]. cbn [upload_entries].
  destruct (decide (i * defaultBundleEntriesPerFile < length l)) as [Hlt|Hge].
  - apply nchunks_lt in Hlt. fold n in Hlt. rewrite slice_chunk. fold n.
    unfold uploadBundleEntriesFileList. destruct (Marshal_total (chunk_at n l i)) as [buf Hbuf].
    apply runs_bind, runs_bind. eapply runs_lift; [exact Hbuf|].
    unfold counted in Hb. subst b'. cbn [b_RepoID b_BundleID b_BundleDescriptor set_descriptor bd_BundleEntriesFileCount descriptor_with_count]. fold (path i).
    apply runs_bind, runs_meta, runs_putBuffer; [intros _; by apply Hfree|]. intros s1 Ho1. apply runs_ret.
    eapply runs_mono; [apply (IH (i + 1)); [done| |fold n; lia|fold n; lia|]|].
    + unfold counted, set_descriptor, descriptor_with_count. cbn. f_equal. f_equal. rewrite Int.uint64_small by lia. lia.
    + intros j Hj. cbn [Metadata SetMetadata]. rewrite Ho1, lookup_insert_ne; [apply Hfree; lia|]. intros H%bundle_list_inj. lia.
    + fold n path. intros b2 c2 (H1 & H2 & H3 & H4). split_and!; [done|done| |].
      * intros j Hj. destruct (decide (j = i)) as [->|Hne]; [|apply H3; lia].
        exists buf. rewrite H4 by (intros j Hj' H%bundle_list_inj; lia). cbn [Metadata SetMetadata].
        rewrite Ho1, lookup_insert_eq. split; [done|by apply Unmarshal_Marshal].
      * intros q Hq. rewrite H4 by (intros j Hj; apply Hq; lia). cbn [Metadata SetMetadata].
        rewrite Ho1, lookup_insert_ne; [done|]. intros <-. by apply (Hq i).
  - assert (i = nchunks n l) as -> by (pose proof (nchunks_lt l i) as Hlt; cbv zeta in Hlt; fold n in Hlt, Hge; lia).
    apply runs_ret. split_and!; [done|by destruct c|lia|done].
Qed.

(** Uploading the entries of a bundle writes the same documents as the
    pipeline of an upload does: the descriptor, with the number of index
    files, and in index file number j the j-th slice of a thousand entries; no
    other object changes. *)
Theorem UploadBundleEntries_correct fuel (b : Bundle) (c : Stores S) :
  let n := defaultBundleEntriesPerFile in let repo := b_RepoID b in let id := b_BundleID b in let es := b_BundleEntries b in
  fresh_bundle (Metadata c) repo id -> bd_ID (b_BundleDescriptor b) = id -> bd_Deduplication (b_BundleDescriptor b) <> "" ->
  bd_BundleEntriesFileCount (b_BundleDescriptor b) = 0%N -> nchunks n es < fuel -> (Z.of_nat (nchunks n es) < 2 ^ 64)%Z ->
  runs (UploadBundleEntries fuel b) c (fun b' c' =>
    bundle_with (Metadata c') repo id (b_BundleDescriptor b') es /\ c' = SetMetadata (Metadata c') c /\
    forall q, q <> GetArchivePathToBundle repo id -> (forall k, q <> GetArchivePathToBundleFileList repo id k) ->
      objects (Metadata c') !! q = objects (Metadata c) !! q).
Proof.
  intros n repo id es [Hfd Hfl] Hid Hdd H0 Hfuel Hbig. unfold UploadBundleEntries. apply runs_bind. fold es.
  eapply runs_mono; [apply (upload_entries_runs b es fuel 0 b c Hbig); [|lia|fold n; lia|intros j _; apply Hfl]|].
  { unfold counted, set_descriptor, descriptor_with_count. change (N.of_nat 0) with 0%N. rewrite <- H0. by destruct b as [? ? ? ? [] ? ? ? ? ? ? ? ?]. }
  intros b2 c2 (Hb2 & Hv & Hdocs & Hq). fold n repo id in Hdocs, Hq. unfold counted in Hb2. subst b2.
  cbn [b_RepoID b_BundleID b_BundleDescriptor set_descriptor]. fold n repo id. apply runs_bind, uploadBundleDescriptor_runs.
  - done.
  - rewrite Hq by (intros j _; apply bundle_path_not_list). apply Hfd.
  - intros s' Hd Hq'. apply runs_ret. cbn [Metadata SetMetadata]. split; [|split; [by rewrite Hv|]].
    + split; [done|]. split; [done|]. split; [done|]. intros j Hj. eapply document_objects; [|apply Hdocs; split; [lia|exact Hj]]. apply Hq'. intros Heq. symmetry in Heq. by apply bundle_path_not_list in Heq.
    + intros q Hn1 Hn2. rewrite Hq' by done. apply Hq. intros j _. apply Hn2.
Qed.

End facts.

(** ** Differences *)

Inductive DiffEntryType : Type :=
| DiffEntryTypeAdd
| DiffEntryTypeDel
| DiffEntryTypeDif.

Definition DiffEntryType_String (det : DiffEntryType) : string :=
  match det with
  | DiffEntryTypeAdd => "A"
  | DiffEntryTypeDel => "D"
  | DiffEntryTypeDif => "U"
  end.

Definition zeroBundleEntry : BundleEntry := mkBundleEntry "" "" 0 0 Time.zero.

Record DiffEntry : Type := mkDiffEntry {
  de_Type : DiffEntryType;
  de_Name : string;
  de_Existing : BundleEntry;
  de_Additional : BundleEntry
}.

Definition entries_map (es : list BundleEntry) : gmap string BundleEntry :=
  fold_left (fun m e => <[NameWithPath e := e]> m) es ∅.

(** The order in which the two maps are iterated is not specified: [order1]
    and [order2] list their keys. *)

Definition diffBundles (existing additional : list BundleEntry) (order1 order2 : list string) : list DiffEntry :=
  let bundleEntriesExisting := entries_map existing in
  let bundleEntriesAdditional := entries_map additional in
  omap (fun name =>
    e ← bundleEntriesExisting !! name;
    match bundleEntriesAdditional !! name with
    | Some a => if decide (Hash a <> Hash e) then Some (mkDiffEntry DiffEntryTypeDif name e a) else None
    | None => Some (mkDiffEntry DiffEntryTypeDel name e zeroBundleEntry)
    end) order1 ++
  omap (fun name =>
    a ← bundleEntriesAdditional !! name;
    match bundleEntriesExisting !! name with
    | Some _ => None
    | None => Some (mkDiffEntry DiffEntryTypeAdd name zeroBundleEntry a)
    end) order2.

(** What a difference does to the contents of a bundle. *)

Definition patch (m : gmap string string) (d : DiffEntry) : gmap string string :=
  match de_Type d with
  | DiffEntryTypeAdd | DiffEntryTypeDif => <[de_Name d := Hash (de_Additional d)]> m
  | DiffEntryTypeDel => delete (de_Name d) m
  end.

Definition contents (es : list BundleEntry) : gmap string string := Hash <$> entries_map es.

Definition patched (d : DiffEntry) : option string :=
  match de_Type d with DiffEntryTypeAdd | DiffEntryTypeDif => Some (Hash (de_Additional d)) | DiffEntryTypeDel => None end.

Lemma patch_lookup m d k : patch m d !! k = if decide (de_Name d = k) then patched d else m !! k.
Proof.
  unfold patch, patched. case_decide as Hk; destruct (de_Type d); subst;
    by rewrite ?lookup_insert_eq, ?lookup_delete_eq, ?lookup_insert_ne, ?lookup_delete_ne by done.
Qed.

Lemma patch_all_other ds k : forall m, k ∉ de_Name <$> ds -> fold_left patch ds m !! k = m !! k.
Proof.
  induction ds as [|d ds IH]; intros m Hk; [done|]. rewrite fmap_cons, not_elem_of_cons in Hk. cbn.
  rewrite IH by tauto. rewrite patch_lookup, decide_False; [done|]. intros Heq. by apply (proj1 Hk).
Qed.

Lemma patch_all_in ds d : forall m, NoDup (de_Name <$> ds) -> d ∈ ds -> fold_left patch ds m !! de_Name d = patched d.
Proof.
  induction ds as [|d' ds IH]; intros m Hnd Hd; [by apply not_elem_of_nil in Hd|]. rewrite fmap_cons, NoDup_cons in Hnd.
  apply elem_of_cons in Hd as [<-|Hd]; cbn; [|apply IH; [tauto|done]].
  rewrite patch_all_other by tauto. by rewrite patch_lookup, decide_True.
Qed.

Section diff.
Variables (existing additional : list BundleEntry) (order1 order2 : list string).
Hypothesis order1_keys : order1 ≡ₚ elements (dom (entries_map existing)).
Hypothesis order2_keys : order2 ≡ₚ elements (dom (entries_map additional)).

Lemma order1_elem k : k ∈ order1 <-> is_Some (entries_map existing !! k).
Proof. by rewrite order1_keys, elem_of_elements, elem_of_dom. Qed.

Lemma order2_elem k : k ∈ order2 <-> is_Some (entries_map additional !! k).
Proof. by rewrite order2_keys, elem_of_elements, elem_of_dom. Qed.

(** The entries of a comparison, each name at most once. *)

Lemma diff_elem d : d ∈ diffBundles existing additional order1 order2 <->
  let k := de_Name d in
  match entries_map existing !! k, entries_map additional !! k with
  | Some e, Some a => Hash a <> Hash e /\ d = mkDiffEntry DiffEntryTypeDif k e a
  | Some e, None => d = mkDiffEntry DiffEntryTypeDel k e zeroBundleEntry
  | None, Some a => d = mkDiffEntry DiffEntryTypeAdd k zeroBundleEntry a
  | None, None => False
  end.
Proof.
  unfold diffBundles. rewrite elem_of_app, !list_elem_of_omap. setoid_rewrite order1_elem. setoid_rewrite order2_elem. cbv zeta. split.
  - intros [(k & [e He] & H)|(k & [a Ha] & H)]; rewrite ?He, ?Ha in H; cbn in H.
    + destruct (entries_map additional !! k) as [a|] eqn:Ea; [case_decide; [|done]|]; injection H as <-; cbn; by rewrite He, Ea.
    + destruct (entries_map existing !! k) as [e|] eqn:Ee; [done|]. injection H as <-. cbn. by rewrite Ee, Ha.
  - set (k := de_Name d). destruct (entries_map existing !! k) as [e|] eqn:Ee.
    + intros H. left. exists k. rewrite Ee. split; [eauto|]. cbn. destruct (entries_map additional !! k) as [a|].
      * destruct H as [Hne Hd]. rewrite decide_True by done. by rewrite <- Hd.
      * by rewrite <- H.
    + destruct (entries_map additional !! k) as [a|] eqn:Ea; [|done]. intros H. right. exists k. rewrite Ea, Ee. split; [eauto|]. cbn. by rewrite <- H.
Qed.

Lemma omap_names (f : string -> option DiffEntry) (l : list string) :
  (forall k d, f k = Some d -> de_Name d = k) -> de_Name <$> omap f l = filter (fun k => is_Some (f k)) l.
Proof.
  intros Hf. induction l as [|k l IH]; [done|]. rewrite filter_cons. cbn. destruct (f k) as [d|] eqn:E.
  - rewrite decide_True by eauto. rewrite fmap_cons, IH. by rewrite (Hf _ _ E).
  - rewrite decide_False by (by intros [? ?]). done.
Qed.

Lemma diff_names : NoDup (de_Name <$> diffBundles existing additional order1 order2).
Proof.
  unfold diffBundles. rewrite fmap_app, !omap_names.
  - apply NoDup_app. split_and!.
    + apply NoDup_filter. rewrite order1_keys. apply NoDup_elements.
    + intros k [_ H1%order1_elem]%list_elem_of_filter [H2 _]%list_elem_of_filter.
      destruct H1 as [e He]. destruct H2 as [d Hd]. rewrite He in Hd. by destruct (entries_map additional !! k).
    + apply NoDup_filter. rewrite order2_keys. apply NoDup_elements.
  - intros k d H. destruct (entries_map additional !! k); [|done]. cbn in H. destruct (entries_map existing !! k); [done|].
    by injection H as <-.
  - intros k d H. destruct (entries_map existing !! k); [|done]. cbn in H. destruct (entries_map additional !! k); [case_decide; [|done]|]; by injection H as <-.
Qed.

(** C35: The comparison of two bundles is a minimal patch: applied to the
    contents of the existing bundle it gives those of the additional one,
    whatever the order in which Go iterates over the two maps; no name is
    reported twice, and each reported name does differ. *)
Theorem diffBundles_patch :
  let diff := diffBundles existing additional order1 order2 in
  fold_left patch diff (contents existing) = contents additional /\
  NoDup (de_Name <$> diff) /\
  (forall k, k ∈ de_Name <$> diff <-> contents existing !! k <> contents additional !! k).
Proof.
  intros diff. assert (forall k, k ∉ de_Name <$> diff -> contents existing !! k = contents additional !! k) as Hout.
  { intros k Hk. unfold contents. rewrite !lookup_fmap.
    assert (forall d, de_Name d = k -> d ∈ diff -> False) as Hno by (intros d <- Hd; apply Hk; by apply list_elem_of_fmap_2).
    destruct (entries_map existing !! k) as [e|] eqn:Ee, (entries_map additional !! k) as [a|] eqn:Ea; try done.
    - destruct (decide (Hash a = Hash e)) as [Heq|Hne]; [cbn; by rewrite Heq|]. exfalso.
      eapply (Hno (mkDiffEntry DiffEntryTypeDif k e a)); [done|]. apply diff_elem. cbn. by rewrite Ee, Ea.
    - exfalso. eapply (Hno (mkDiffEntry DiffEntryTypeDel k e zeroBundleEntry)); [done|]. apply diff_elem. cbn. by rewrite Ee, Ea.
    - exfalso. eapply (Hno (mkDiffEntry DiffEntryTypeAdd k zeroBundleEntry a)); [done|]. apply diff_elem. cbn. by rewrite Ee, Ea. }
  assert (forall d, d ∈ diff -> patched d = contents additional !! de_Name d /\ contents existing !! de_Name d <> contents additional !! de_Name d) as Hin.
  { intros d Hd%diff_elem. unfold contents, patched. rewrite !lookup_fmap. cbv zeta in Hd.
    destruct (entries_map existing !! de_Name d) as [e|], (entries_map additional !! de_Name d) as [a|]; try done;
      [destruct Hd as [? ->]|rewrite Hd..]; (split; [done|]); cbn; congruence. }
  split; [|split; [apply diff_names|]].
  - apply map_eq. intros k. destruct (decide (k ∈ de_Name <$> diff)) as [(d & -> & Hd)%list_elem_of_fmap|Hk].
    + rewrite patch_all_in by (done || apply diff_names). by apply Hin.
    + rewrite patch_all_other by done. by apply Hout.
  - intros k. split; [intros (d & -> & Hd)%list_elem_of_fmap; by apply Hin|].
    intros Hne. destruct (decide (k ∈ de_Name <$> diff)) as [|Hk]; [done|]. by apply Hout in Hk.
Qed.

End diff.

Lemma UploadBundleEntries_correct_witness :
  let e := mkBundleEntry "h" "a" 0%Z 1%Z 1%Z in
  let b := set_entries (setBundleID (Repo "r" (NewBundle 1%Z [])) "b") [e] in
  runs (UploadBundleEntries (HYB := numbered_yaml) (HYE := numbered_yaml) 5 b) (NewStores ∅ ∅ ∅ (∅ : gmap string bytes) ∅) (fun b' c' =>
    bundle_with (HYB := numbered_yaml) (HYE := numbered_yaml) (Metadata c') "r" "b" (b_BundleDescriptor b') [e]).
Proof.
  intros e b. eapply runs_mono; [apply (UploadBundleEntries_correct (HYB := numbered_yaml) (HYBL := numbered_yaml_laws)
    (HYE := numbered_yaml) (HYEL := numbered_yaml_laws) 5 b (NewStores ∅ ∅ ∅ (∅ : gmap string bytes) ∅))|].
  - by split.
  - done.
  - done.
  - done.
  - vm_compute. lia.
  - vm_compute. reflexivity.
  - intros b' c' (H & _). exact H.
Defined.

Lemma diffBundles_patch_witness :
  let e h n := mkBundleEntry h n 0%Z 1%Z 1%Z in
  fold_left patch (diffBundles [e "1" "a"; e "2" "b"] [e "3" "b"; e "4" "c"] ["b"; "a"] ["b"; "c"])
    (contents [e "1" "a"; e "2" "b"]) = contents [e "3" "b"; e "4" "c"].
Proof.
  intros e. apply (diffBundles_patch [e "1" "a"; e "2" "b"] [e "3" "b"; e "4" "c"] ["b"; "a"] ["b"; "c"]).
  - apply NoDup_Permutation; [by apply (bool_decide_unpack _)|apply NoDup_elements|]. intros k. rewrite elem_of_elements. cbn. set_solver.
  - apply NoDup_Permutation; [by apply (bool_decide_unpack _)|apply NoDup_elements|]. intros k. rewrite elem_of_elements. cbn. set_solver.
Defined.

End CoreBundle.
