(* ===== verification/CoreUpload.v ===== *)
(** * Upload of the files of a bundle (pkg/core: bundle.go, bundle_pack.go)

    The files of a consumable store are put in the content-addressable file
    system by a pool of goroutines; their entries are collected in index files
    as the results come in, and the descriptor of the bundle is written last.

    The state is a [world]: the stores of a context and one consumable store.
    The file system of CafsIface.v is opened on the blob store for the time of
    the upload. *)

From S2P Require Import Prelude GoLib Errors Storage Model CafsKeys CafsFs CafsIface CoreMeta Pool StoreRules CoreIndex CoreRepo CoreBundle.

Module CoreUpload.
Import Model Storage CoreMeta CoreStatus CafsKeys CafsIface Pool StoreRules CoreIndex CoreRepo CoreBundle.

Record world (S C : Type) : Type := mkWorld {
  w_stores : Stores S;
  w_consumable : C
}.

Arguments mkWorld {S C}.
Arguments w_stores {S C}.
Arguments w_consumable {S C}.

(** A call through a store reference of a bundle; a reference that is not set
    is a nil interface. *)

Definition nil_dereference : string := "invalid memory address or nil pointer dereference".

Definition contextStores {S C A} (b : Bundle) (m : M (Stores S) A) : M (world S C) A := fun w =>
  if b_context b then let '(r, c) := m (w_stores w) in (r, mkWorld c (w_consumable w))
  else (Panic nil_dereference, w).

Definition consumableStore {S C A} (b : Bundle) (m : M C A) : M (world S C) A := fun w =>
  if b_consumable b then let '(r, c) := m (w_consumable w) in (r, mkWorld (w_stores w) c)
  else (Panic nil_dereference, w).

(** ** The definitions *)

Definition fileUploadsPerFlush : Z := 4.

Section upload.
Context {S C F : Type} `{HS : !Store S, HC : !Store C, HF : !Cafs S F}.
Context {HYB : Yaml BundleDescriptor} {HYE : Yaml (list BundleEntry)}.

Definition skipFile (b : Bundle) (file : string) : M (world S C) bool :=
  r ← attempt (consumableStore b (Has file));
  let exist := match r with inl e => e | inr _ => true end in
  mret (IsGeneratedFile file || (b_SkipOnError b && negb exist)).

(** The state of an upload: the stores, the file system, the bundle with the
    number of index files written so far, and the entries of the next one. *)

Record uploading : Type := mkUploading {
  up_world : world S C;
  up_fs : F;
  up_bundle : Bundle;
  up_fileList : list BundleEntry
}.

Definition in_world {A} (m : M (world S C) A) : M uploading A := fun u =>
  let '(r, w) := m (up_world u) in (r, mkUploading w (up_fs u) (up_bundle u) (up_fileList u)).

(** The loop body of uploadBundleFiles: a file is skipped, or its reader is
    opened and handed to a goroutine. *)

Definition openFile (bundle : Bundle) (task : nat * string) : M uploading (option (nat * string * bytes)) :=
  let '(fileIdx, file) := task in
  skip ← in_world (skipFile bundle file);
  if skip : bool then mret None
  else
    fileReader ← attempt (in_world (consumableStore bundle (Get file)));
    match fileReader with
    | inr err => if b_SkipOnError bundle then mret None else fail err
    | inl content => mret (Some (fileIdx, file, content))
    end.

(** The reception of an uploaded file by uploadBundle. *)

Definition receiveFile (bundleEntriesPerFile : nat) (f : filePacked) : M uploading unit := fun u =>
  let fileList := up_fileList u ++ [filePacked2BundleEntry f] in
  if decide (length fileList = bundleEntriesPerFile) then
    match contextStores (up_bundle u) (uploadBundleEntriesFileList (up_bundle u) fileList) (up_world u) with
    | (Ok b, w) => (Ok tt, mkUploading w (up_fs u) b [])
    | (Err e, w) => (Err e, mkUploading w (up_fs u) (up_bundle u) fileList)
    | (Panic p, w) => (Panic p, mkUploading w (up_fs u) (up_bundle u) fileList)
    end
  else (Ok tt, mkUploading (up_world u) (up_fs u) (up_bundle u) fileList).

Definition packed (pr : CafsFs.PutRes) (file : string) (fileIdx : nat) : filePacked :=
  mkFilePacked (Key_String (CafsFs.pr_Key pr)) file (CafsFs.pr_Keys pr) (Int.uint64 (Z.of_nat (CafsFs.pr_Written pr)))
    (CafsFs.pr_Found pr) (Z.of_nat fileIdx) Time.zero.

(** A goroutine and the reception of what it sends. *)

Definition uploadBundleFile (bundleEntriesPerFile : nat) (x : fs_run) (job : nat * string * bytes) (u : uploading)
    : option (res unit * uploading) :=
  let '(fileIdx, file, content) := job in
  match fs_Put x content (up_fs u) with
  | None => None
  | Some (r, f) =>
      let u' := mkUploading (up_world u) f (up_bundle u) (up_fileList u) in
      match r with
      | Ok putRes => Some (receiveFile bundleEntriesPerFile (packed putRes file fileIdx) u')
      | Err e => Some (Err e, u')
      | Panic p => Some (Panic p, u')
      end
  end.

Definition uploadBundleFiles (bundleEntriesPerFile : nat) (es : list (event fs_run)) (bundle : Bundle) (files : list string)
    (u : uploading) : option (res unit * uploading) :=
  if (b_concurrentFileUploads bundle <? 0)%Z then Some (Panic "makechan: size out of range", u)
  else pool_run (Z.to_nat (b_concurrentFileUploads bundle)) (openFile bundle) (uploadBundleFile bundleEntriesPerFile) es
         (imap pair files) [] u.

(** The blob store is the backend of the file system. *)

Definition closed (u : uploading) : world S C :=
  mkWorld (SetBlob (fs_backend (up_fs u)) (w_stores (up_world u))) (w_consumable (up_world u)).

Definition uploadOptions (bundle : Bundle) : list CafsFs.Option :=
  let bd := b_BundleDescriptor bundle in
  [CafsFs.LeafSize (bd_LeafSize bd);
   CafsFs.ConcurrentFlushes (b_concurrentFileUploads bundle `quot` fileUploadsPerFlush);
   CafsFs.LeafTruncation (bd_Version bd <? 1)%N;
   CafsFs.WithRetry (b_Retry bundle);
   CafsFs.VerifyHash (b_withVerifyHash bundle);
   CafsFs.VerifyBlobHash (b_withVerifyBlobHash bundle)].

(** The part of uploadBundle before the goroutines are started. *)

Definition uploadStart (getKeys : option (res (list string))) (random : res string) (bundle : Bundle)
    : M (world S C) (list string * CafsFs.defaultFs * Bundle) :=
  files ← match getKeys with Some r => lift r | None => consumableStore bundle Keys end;
  cafsArchive ← lift (CafsFs.New (uploadOptions bundle));
  bundle' ← (if decide (b_BundleID bundle = "") then lift (InitializeBundleID random bundle) else mret bundle);
  mret (files, cafsArchive, bundle').

(** The part after the done signal. *)

Definition uploadEnd (bundle : Bundle) (fileList : list BundleEntry) : M (world S C) Bundle :=
  b ← (if decide (length fileList <> 0) then contextStores bundle (uploadBundleEntriesFileList bundle fileList) else mret bundle);
  _ ← contextStores b (uploadBundleDescriptor (b_RepoID b) (b_BundleID b) (b_BundleDescriptor b));
  mret b.

(** [None]: the events are not a complete execution. *)

Definition uploadBundle (bundleEntriesPerFile : nat) (getKeys : option (res (list string))) (random : res string)
    (es : list (event fs_run)) (bundle : Bundle) (w : world S C) : option (res Bundle * world S C) :=
  match uploadStart getKeys random bundle w with
  | (Err e, w1) => Some (Err e, w1)
  | (Panic p, w1) => Some (Panic p, w1)
  | (Ok (files, d, b), w1) =>
      match uploadBundleFiles bundleEntriesPerFile es b files (mkUploading w1 (fs_open d (Blob (w_stores w1))) b []) with
      | None => None
      | Some (Ok _, u) => Some (uploadEnd (up_bundle u) (up_fileList u) (closed u))
      | Some (Err e, u) => Some (Err e, closed u)
      | Some (Panic p, u) => Some (Panic p, closed u)
      end
  end.

(** ksuid.Parse is a parameter: the canonical form of an identifier, or an error. *)

Variable parse : string -> res string.

Definition preserveID (bundle : Bundle) : M (world S C) Bundle :=
  if decide (b_BundleID bundle = "") then mret bundle
  else
    p ← attempt (lift (parse (b_BundleID bundle)));
    match p with
    | inr err => fail (Errors.Wrap ErrInvalidKsuid (Some err))
    | inl id =>
        let b := setBundleID bundle id in
        exists_ ← contextStores b (Exists b);
        if exists_ : bool then fail (Errors.Wrap ErrBundleIDExists (Some (ErrMsg ("bundleID: " +:+ id)))) else mret b
    end.

Definition implUpload (entriesPerFile : nat) (getKeys : option (res (list string))) (random : res string)
    (es : list (event fs_run)) (bundle : Bundle) (w : world S C) : option (res Bundle * world S C) :=
  match (_ ← contextStores bundle (RepoExists (b_RepoID bundle)); preserveID bundle) w with
  | (Ok b, w1) => uploadBundle entriesPerFile getKeys random es b w1
  | (Err e, w1) => Some (Err e, w1)
  | (Panic p, w1) => Some (Panic p, w1)
  end.

Definition Upload (random : res string) (es : list (event fs_run)) (bundle : Bundle) : world S C -> option (res Bundle * world S C) :=
  implUpload defaultBundleEntriesPerFile None random es bundle.

Definition UploadSpecificKeys (getKeys : res (list string)) (random : res string) (es : list (event fs_run)) (bundle : Bundle)
    : world S C -> option (res Bundle * world S C) :=
  implUpload defaultBundleEntriesPerFile (Some getKeys) random es bundle.

End upload.

Arguments uploading : clear implicits.

(** ** Rules *)

Section rules.
Context {S C : Type}.

Lemma runs_context {A} b (m : M (Stores S) A) (w : world S C) Q :
  b_context b = true -> runs m (w_stores w) (fun a c => Q a (mkWorld c (w_consumable w))) -> runs (contextStores b m) w Q.
Proof. intros Hb (a & c & E & H). exists a, (mkWorld c (w_consumable w)). split; [|done]. unfold contextStores. by rewrite Hb, E. Qed.

Lemma runs_consumable {A} b (m : M C A) (w : world S C) Q :
  b_consumable b = true -> runs m (w_consumable w) (fun a c => Q a (mkWorld (w_stores w) c)) -> runs (consumableStore b m) w Q.
Proof. intros Hb (a & c & E & H). exists a, (mkWorld (w_stores w) c). split; [|done]. unfold consumableStore. by rewrite Hb, E. Qed.

Lemma runs_in_world {F A} (m : M (world S C) A) (u : uploading S C F) Q :
  runs m (up_world u) (fun a w => Q a (mkUploading w (up_fs u) (up_bundle u) (up_fileList u))) -> runs (in_world m) u Q.
Proof. intros (a & w & E & H). eexists a, _. split; [|exact H]. unfold in_world. by rewrite E. Qed.

End rules.

(** ** The index files under construction *)

Section index.
Context {S : Type} `{HS : !Store S, HSL : !StoreLaws S, HR : !ReliableStore S}.
Context {HYB : Yaml BundleDescriptor} {HYBL : YamlLaws BundleDescriptor}.
Context {HYE : Yaml (list BundleEntry)} {HYEL : YamlLaws (list BundleEntry)}.
Variables (n : nat) (b0 : Bundle) (c0 : Stores S).
Hypothesis n_pos : 0 < n.

Abbreviation path j := (GetArchivePathToBundleFileList (b_RepoID b0) (b_BundleID b0) (N.of_nat j)).

(** [es] are the entries received so far. *)

Definition indexed (c : Stores S) (b : Bundle) (fileList es : list BundleEntry) : Prop :=
  counted b0 b (N.of_nat (length es / n)) /\ sliced n (fun j => path j) (Metadata c0) (Metadata c) fileList es /\ VMetadata c = VMetadata c0.

Lemma path_inj i j : path i = path j -> i = j.
Proof. intros H%bundle_list_inj. lia. Qed.

(** Writing the index file number [q], which holds the entries [l]. *)

Lemma write_index c b (q : nat) l (Q : Bundle -> Stores S -> Prop) :
  counted b0 b (N.of_nat q) -> (Z.of_nat q + 1 < 2 ^ 64)%Z -> objects (Metadata c) !! path q = None ->
  (forall s' b', counted b0 b' (N.of_nat (q + 1)) -> index_added (fun j => path j) q l (Metadata c) s' -> Q b' (SetMetadata s' c)) ->
  runs (uploadBundleEntriesFileList b l) c Q.
Proof.
  intros Hb Hq Hn HQ. unfold counted in Hb. subst b. unfold uploadBundleEntriesFileList.
  destruct (Marshal_total l) as [buf Hbuf]. apply runs_bind. eapply runs_lift; [exact Hbuf|].
  cbn [b_RepoID b_BundleID b_BundleDescriptor set_descriptor bd_BundleEntriesFileCount descriptor_with_count].
  apply runs_bind, runs_meta, runs_putBuffer; [by intros _|]. intros s1 Ho1. apply runs_ret. apply HQ.
  - unfold counted, set_descriptor, descriptor_with_count. cbn. do 2 f_equal. rewrite Int.uint64_small by lia. lia.
  - split; [|intros p Hp; by rewrite Ho1, lookup_insert_ne by congruence].
    exists buf. rewrite Ho1, lookup_insert_eq. split; [done|by apply Unmarshal_Marshal].
Qed.

Lemma slices_few (es : list BundleEntry) : length es / n <= length es.
Proof. apply Nat.Div0.div_le_upper_bound. nia. Qed.

(** One more entry. *)

Lemma indexed_add c b fileList es e (Q : Bundle -> list BundleEntry -> Stores S -> Prop) :
  indexed c b fileList es -> (Z.of_nat (length es) + 1 < 2 ^ 64)%Z ->
  (forall c' b' fl', indexed c' b' fl' (es ++ [e]) -> Q b' fl' c') ->
  if decide (length (fileList ++ [e]) = n) then runs (uploadBundleEntriesFileList b (fileList ++ [e])) c (fun b' c' => Q b' [] c')
  else Q b (fileList ++ [e]) c.
Proof.
  intros (Hb & Hs & Hv) Hbig HQ. pose proof (slices_few es) as Hfew.
  pose proof (sliced_add n _ (Metadata c0) n_pos path_inj _ _ _ e Hs) as Hadd. case_decide; destruct Hadd as [Hq Hadd].
  - apply (write_index c b (length es / n)); [done|lia|exact (sliced_free _ _ _ _ _ _ Hs)|]. intros s' b' Hb' Ha. apply HQ. unfold indexed. rewrite Hq. auto.
  - apply HQ. unfold indexed. by rewrite Hq.
Qed.

(** The last index file. *)

Lemma indexed_end c b fileList es (Q : Bundle -> Stores S -> Prop) :
  indexed c b fileList es -> (Z.of_nat (length es) + 1 < 2 ^ 64)%Z ->
  (forall s' b', counted b0 b' (N.of_nat (nchunks n es)) -> sliced_all n (fun j => path j) (Metadata c0) s' es -> Q b' (SetMetadata s' c)) ->
  if decide (length fileList <> 0) then runs (uploadBundleEntriesFileList b fileList) c Q else Q b c.
Proof.
  intros (Hb & Hs & Hv) Hbig HQ. pose proof (slices_few es) as Hfew.
  pose proof (sliced_end n _ (Metadata c0) n_pos path_inj _ _ _ Hs) as Hend. case_decide; destruct Hend as [Hq Hend]; rewrite Hq in HQ.
  - apply (write_index c b (length es / n)); [done|lia|exact (sliced_free _ _ _ _ _ _ Hs)|]. auto.
  - destruct c as [wal rl bl md vm]. by apply (HQ md b).
Qed.

End index.

(** ** The upload *)

Section facts.
Context {S C F : Type} `{HS : !Store S, HSL : !StoreLaws S, HR : !ReliableStore S}.
Context `{HC : !Store C, HCL : !StoreLaws C, HCR : !ReliableStore C}.
Context `{HF : !Cafs S F, HFL : !CafsLaws S F}.
Context {HYB : Yaml BundleDescriptor} {HYBL : YamlLaws BundleDescriptor}.
Context {HYE : Yaml (list BundleEntry)} {HYEL : YamlLaws (list BundleEntry)}.

(** [e] is the entry of a file of [con], and its content is in the blob store. *)

Definition archived (L : nat) (con : gmap string bytes) (blob : S) (e : BundleEntry) : Prop :=
  exists k c, con !! NameWithPath e = Some c /\ Hash e = Key_String k /\ be_Size e = Int.uint64 (Z.of_nat (length c)) /\
    holds L blob k c.

(** The files of [files] that an upload takes. *)

Definition uploaded (con : gmap string bytes) (files : list string) : list string :=
  filter (fun k => IsGeneratedFile k = false /\ is_Some (con !! k)) files.

(** An upload copes with this file. *)

Definition uploadable (b : Bundle) (con : gmap string bytes) (k : string) : Prop :=
  IsGeneratedFile k = true \/ b_SkipOnError b = true \/ is_Some (con !! k).

(** Opening a file: it is skipped, or its content is handed to a goroutine. *)

Lemma skipFile_runs b0 k (w : world S C) (Q : bool -> world S C -> Prop) : b_consumable b0 = true ->
  (forall c', objects c' = objects (w_consumable w) ->
     Q (IsGeneratedFile k || (b_SkipOnError b0 && negb (bool_decide (is_Some (objects (w_consumable w) !! k))))) (mkWorld (w_stores w) c')) ->
  runs (skipFile b0 k) w Q.
Proof.
  intros Hb HQ. unfold skipFile. apply runs_bind, runs_attempt, runs_consumable; [done|]. apply runs_Has. intros c' Ho.
  apply runs_ret. by apply HQ.
Qed.

Lemma openFile_runs b0 i k (u : uploading S C F) : b_consumable b0 = true -> uploadable b0 (objects (w_consumable (up_world u))) k ->
  runs (openFile b0 (i, k)) u (fun o u' => exists c', objects c' = objects (w_consumable (up_world u)) /\
    u' = mkUploading (mkWorld (w_stores (up_world u)) c') (up_fs u) (up_bundle u) (up_fileList u) /\
    match o with
    | None => uploaded (objects (w_consumable (up_world u))) [k] = []
    | Some j => exists c, j = (i, k, c) /\ objects (w_consumable (up_world u)) !! k = Some c /\ IsGeneratedFile k = false
    end).
Proof.
  intros Hb Hk. unfold openFile. apply runs_bind, runs_in_world, skipFile_runs; [done|]. intros c1 Hc1. set (con := objects (w_consumable (up_world u))) in *.
  unfold uploaded. rewrite filter_cons, filter_nil. destruct (IsGeneratedFile k) eqn:Hg; cbn [orb].
  { apply runs_ret. exists c1. rewrite decide_False by (intros [? _]; done). done. }
  destruct (con !! k) as [c|] eqn:Hc; cycle 1.
  { destruct Hk as [?|[Hk|[? ?]]]; [congruence| |congruence]. rewrite Hk, bool_decide_false by (by intros [? ?]). cbn [andb negb].
    apply runs_ret. exists c1. rewrite decide_False; [done|]. intros [_ [? ?]]. done. }
  rewrite bool_decide_true by done. rewrite andb_false_r.
  apply runs_bind, runs_attempt, runs_in_world, runs_consumable; [done|]. apply (runs_Get k c); [cbn; by rewrite Hc1|].
  intros c2 Hc2. apply runs_ret. exists c2. cbn in Hc2. split_and!; [by rewrite Hc2|done|by exists c].
Qed.

Section run.
Variables (n : nat) (b0 : Bundle) (w0 : world S C) (d : CafsFs.defaultFs) (files : list string).
Hypothesis n_pos : 0 < n.
Hypothesis b0_context : b_context b0 = true.
Hypothesis b0_consumable : b_consumable b0 = true.

Abbreviation con := (objects (w_consumable w0)).
Abbreviation L := (CafsFs.leafSize d).

Hypothesis contents_ok : forall k c, con !! k = Some c -> IsGeneratedFile k = false -> fs_contents L c.
Hypothesis few_files : (Z.of_nat (length files) + 1 < 2 ^ 64)%Z.

Definition job_name (j : nat * string * bytes) : string := j.1.2.

Definition job_ok (j : nat * string * bytes) : Prop := con !! job_name j = Some j.2 /\ fs_contents L j.2.

Definition uploading_ok (todo : list (nat * string)) (running : list (nat * string * bytes)) (u : uploading S C F) : Prop :=
  exists es,
    indexed n b0 (w_stores w0) (w_stores (up_world u)) (up_bundle u) (up_fileList u) es /\
    objects (w_consumable (up_world u)) = con /\ fs_ok (up_fs u) /\ fs_conf (up_fs u) = d /\
    Forall (archived L con (fs_backend (up_fs u))) es /\
    (forall L' k c, holds L' (Blob (w_stores w0)) k c -> holds L' (fs_backend (up_fs u)) k c) /\
    Forall job_ok running /\ Forall (uploadable b0 con) todo.*2 /\
    (NameWithPath <$> es) ++ (job_name <$> running) ++ uploaded con todo.*2 ≡ₚ uploaded con files.

Lemma uploaded_cons (k : string) ks : uploaded con (k :: ks) = uploaded con [k] ++ uploaded con ks.
Proof. unfold uploaded. by rewrite <- filter_app. Qed.

Lemma openFile_ok t todo running u : uploading_ok (t :: todo) running u ->
  exists o u', openFile b0 t u = (Ok o, u') /\ uploading_ok todo (running ++ option_list o) u'.
Proof.
  destruct t as [i k]. intros (es & Hix & Hcon & Hfs & Hcf & Har & Hh & Hrun & Htodo & Hperm).
  cbn [fmap list_fmap snd] in Htodo, Hperm. apply Forall_cons in Htodo as [Hk Htodo]. rewrite uploaded_cons in Hperm.
  destruct (openFile_runs b0 i k u b0_consumable) as (o & u' & E & c' & Hc' & -> & Ho); [by rewrite Hcon|]. exists o. eexists. split; [exact E|].
  rewrite Hcon in Hc', Ho. exists es. cbn [up_world up_fs up_bundle up_fileList w_stores w_consumable].
  refine (conj Hix (conj Hc' (conj Hfs (conj Hcf (conj Har (conj Hh (conj _ (conj Htodo _)))))))); destruct o as [j|]; cbn [option_list].
  - destruct Ho as (c & -> & Hc & Hg). apply Forall_app. split; [done|]. apply Forall_singleton. split; [done|]. by eapply contents_ok.
  - by rewrite app_nil_r.
  - destruct Ho as (c & -> & Hc & Hg). rewrite <- Hperm, fmap_app, <- app_assoc. unfold uploaded at 2. rewrite filter_cons, filter_nil, decide_True by (split; [done|by eexists]). done.
  - rewrite Ho in Hperm. by rewrite app_nil_r.
Qed.

Lemma archived_mono (s s' : S) es :
  (forall L' k c, holds L' s k c -> holds L' s' k c) -> Forall (archived L con s) es -> Forall (archived L con s') es.
Proof. intros Hh Ha. eapply Forall_impl; [exact Ha|]. intros e (k & c & ? & ? & ? & ?). exists k, c. auto. Qed.

Lemma receiveFile_ok f (u : uploading S C F) es :
  indexed n b0 (w_stores w0) (w_stores (up_world u)) (up_bundle u) (up_fileList u) es -> (Z.of_nat (length es) + 1 < 2 ^ 64)%Z ->
  runs (receiveFile n f) u (fun _ u' =>
    indexed n b0 (w_stores w0) (w_stores (up_world u')) (up_bundle u') (up_fileList u') (es ++ [filePacked2BundleEntry f]) /\
    w_consumable (up_world u') = w_consumable (up_world u) /\ up_fs u' = up_fs u).
Proof.
  intros Hix Hbig. set (e := filePacked2BundleEntry f).
  pose proof (indexed_add n b0 (w_stores w0) n_pos _ _ _ _ e
    (fun b' fl' c' => indexed n b0 (w_stores w0) c' b' fl' (es ++ [e])) Hix Hbig (fun _ _ _ H => H)) as Hadd.
  assert (Hctx : b_context (up_bundle u) = true) by (destruct Hix as (-> & _); done).
  unfold runs, receiveFile. fold e. case_decide.
  - destruct Hadd as (b' & c' & E & H'). unfold contextStores. rewrite Hctx, E. eexists _, _. split; [done|]. done.
  - eexists _, _. split; [done|]. done.
Qed.

Lemma uploadBundleFile_ok todo run1 j run2 u x r u' :
  uploading_ok todo (run1 ++ j :: run2) u -> uploadBundleFile n x j u = Some (r, u') ->
  r = Ok tt /\ uploading_ok todo (run1 ++ run2) u'.
Proof.
  destruct j as [[i k] c]. intros (es & Hix & Hcon & Hfs & Hcf & Har & Hh & Hrun & Htodo & Hperm) H.
  apply Forall_app in Hrun as [Hrun1 Hrun2]. apply Forall_cons in Hrun2 as [[Hk Hc] Hrun2]. cbn [fst snd job_name] in Hk, Hc.
  unfold uploadBundleFile in H. destruct (fs_Put x c (up_fs u)) as [[r1 f1]|] eqn:E; [|done].
  rewrite <- Hcf in Hc. destruct (fs_Put_ok x c (up_fs u) r1 f1 Hfs Hc E) as (pr & -> & Hw & Hhold & Hcf1 & Hfs1 & Hmono).
  rewrite Hcf in Hhold, Hcf1.
  assert (Hlen : length es + 1 <= length files).
  { apply Permutation_length in Hperm. rewrite !length_app, !length_fmap, length_app in Hperm. cbn [length] in Hperm.
    pose proof (length_filter (fun k => IsGeneratedFile k = false /\ is_Some (con !! k)) files). unfold uploaded in Hperm at 2. lia. }
  destruct (receiveFile_ok (packed pr k i) (mkUploading (up_world u) f1 (up_bundle u) (up_fileList u)) es Hix ltac:(lia))
    as ([] & u2 & Er & Hix2 & Hc2 & Hf2). rewrite Er in H. injection H as <- <-. split; [done|].
  cbn [up_fs up_world] in Hc2, Hf2. exists (es ++ [filePacked2BundleEntry (packed pr k i)]). rewrite Hf2, Hc2.
  refine (conj Hix2 (conj Hcon (conj Hfs1 (conj Hcf1 (conj _ (conj _ (conj _ (conj Htodo _)))))))).
  - apply Forall_app. split; [by eapply archived_mono|]. apply Forall_singleton. exists (CafsFs.pr_Key pr), c. cbn. by rewrite Hw.
  - auto.
  - by apply Forall_app.
  - rewrite <- Hperm. rewrite !fmap_app, fmap_cons. cbn. solve_Permutation.
Qed.

Lemma uploadBundleFile_live todo run1 j run2 u :
  uploading_ok todo (run1 ++ j :: run2) u -> exists x r u', uploadBundleFile n x j u = Some (r, u').
Proof.
  destruct j as [[i k] c]. intros (es & _ & _ & Hfs & Hcf & _ & _ & Hrun & _).
  apply Forall_app in Hrun as [_ Hrun2]. apply Forall_cons in Hrun2 as [[_ Hc] _]. cbn [fst snd] in Hc. rewrite <- Hcf in Hc.
  destruct (fs_Put_live c (up_fs u) Hfs Hc) as (x & r & f & E). exists x. unfold uploadBundleFile. rewrite E.
  destruct r; [|eauto..]. destruct (receiveFile n (packed a k i) _) as [r u']. eauto.
Qed.

End run.

(** The names of the entries, for an upload of some files and for one of all. *)

Definition uploads (files : list string) (con : gmap string bytes) (names : list string) : Prop := names ≡ₚ uploaded con files.

Definition uploads_all (con : gmap string bytes) (names : list string) : Prop :=
  NoDup names /\ forall k, k ∈ names <-> IsGeneratedFile k = false /\ is_Some (con !! k).

(** What an upload leaves behind. *)

Definition upload_post (names : list string -> Prop) (bundle : Bundle) (id : string) (w : world S C) (b' : Bundle) (w' : world S C) : Prop :=
  let repo := b_RepoID bundle in
  exists entries,
    b_BundleDescriptor b' = descriptor_with_count (descriptor_with_ID (b_BundleDescriptor bundle) id)
      (N.of_nat (nchunks defaultBundleEntriesPerFile entries)) /\
    bundle_with (Metadata (w_stores w')) repo id (b_BundleDescriptor b') entries /\
    names (NameWithPath <$> entries) /\
    Forall (archived (CafsFs.leafSize (CafsFs.LeafSize (bd_LeafSize (b_BundleDescriptor bundle)) CafsFs.defaultsForFs))
              (objects (w_consumable w)) (Blob (w_stores w'))) entries /\
    (forall q, q <> GetArchivePathToBundle repo id -> (forall k, q <> GetArchivePathToBundleFileList repo id k) ->
       objects (Metadata (w_stores w')) !! q = objects (Metadata (w_stores w)) !! q) /\
    objects (VMetadata (w_stores w')) = objects (VMetadata (w_stores w)) /\ objects (w_consumable w') = objects (w_consumable w) /\
    blobs_ok (Blob (w_stores w')) /\
    (forall L k c, holds L (Blob (w_stores w)) k c -> holds L (Blob (w_stores w')) k c).

(** What an upload needs: the references are set, the descriptor is complete
    and counts no index file yet, and the leaves are large enough for the
    buffers of io.Copy. *)

Definition upload_ready (bundle : Bundle) (w : world S C) : Prop :=
  let bd := b_BundleDescriptor bundle in
  b_context bundle = true /\ b_consumable bundle = true /\ (0 < b_concurrentFileUploads bundle)%Z /\
  bd_Deduplication bd <> "" /\ bd_BundleEntriesFileCount bd = 0%N /\
  (32 * 1024 <= bd_LeafSize bd <= CafsFs.MaxLeafSize)%Z /\ blobs_ok (Blob (w_stores w)) /\
  forall k c, objects (w_consumable w) !! k = Some c -> IsGeneratedFile k = false -> fs_contents (Z.to_nat (bd_LeafSize bd)) c.

Lemma New_options (bundle : Bundle) :
  (32 * 1024 <= bd_LeafSize (b_BundleDescriptor bundle) <= CafsFs.MaxLeafSize)%Z ->
  exists d, CafsFs.New (uploadOptions bundle) = Ok d /\ CafsFs.f_leafSize d = bd_LeafSize (b_BundleDescriptor bundle) /\
    CafsFs.f_prefix d = "".
Proof.
  intros HL. unfold CafsFs.New. cbn [uploadOptions fold_left]. eexists. rewrite !(proj2 (Z.ltb_ge _ _)), !(proj2 (Z.leb_gt _ _)).
  - split; [reflexivity|]. done.
  - done.
  - cbn. unfold CafsFs.BytesToBuffers. apply Z.div_str_pos. unfold CafsFs.MaxLeafSize, CafsFs.DefaultCacheSize, CafsFs.MiB in *. lia.
  - cbn. unfold KeySize. lia.
  - cbn. lia.
Qed.

Lemma uploadEnd_runs n b0 c0 (w : world S C) b fileList es (Q : Bundle -> world S C -> Prop) :
  let path j := GetArchivePathToBundleFileList (b_RepoID b0) (b_BundleID b0) (N.of_nat j) in
  let desc := GetArchivePathToBundle (b_RepoID b0) (b_BundleID b0) in
  0 < n -> b_context b0 = true -> bd_Deduplication (b_BundleDescriptor b0) <> "" -> objects (Metadata c0) !! desc = None ->
  indexed n b0 c0 (w_stores w) b fileList es -> (Z.of_nat (length es) + 1 < 2 ^ 64)%Z ->
  (forall b' s', counted b0 b' (N.of_nat (nchunks n es)) -> document s' desc (b_BundleDescriptor b') ->
     (forall j, j < nchunks n es -> document s' (path j) (chunk_at n es j)) ->
     (forall p, p <> desc -> (forall j, p <> path j) -> objects s' !! p = objects (Metadata c0) !! p) ->
     Q b' (mkWorld (SetMetadata s' (w_stores w)) (w_consumable w))) ->
  runs (uploadEnd b fileList) w Q.
Proof.
  intros path desc Hn Hctx Hdd Hfree Hix Hbig HQ. unfold uploadEnd.
  assert (Hb : b_context b = true) by (destruct Hix as (-> & _); done).
  pose proof (indexed_end n b0 c0 Hn (w_stores w) b fileList es (fun b' c' =>
    runs (_ ← contextStores b' (uploadBundleDescriptor (b_RepoID b') (b_BundleID b') (b_BundleDescriptor b')); mret b')
      (mkWorld c' (w_consumable w)) Q) Hix Hbig) as Hend.
  assert (Hlast : if decide (length fileList <> 0) then runs (uploadBundleEntriesFileList b fileList) (w_stores w) (fun b' c' =>
      runs (_ ← contextStores b' (uploadBundleDescriptor (b_RepoID b') (b_BundleID b') (b_BundleDescriptor b')); mret b')
        (mkWorld c' (w_consumable w)) Q)
    else runs (_ ← contextStores b (uploadBundleDescriptor (b_RepoID b) (b_BundleID b) (b_BundleDescriptor b)); mret b)
        (mkWorld (w_stores w) (w_consumable w)) Q).
  { apply Hend. intros s' b' Hc [Hdocs Hother]. unfold counted in Hc. subst b'.
    apply runs_bind, runs_context; [done|]. apply uploadBundleDescriptor_runs; [done| |].
    - cbn. fold desc. by rewrite Hother by (intros j _; apply bundle_path_not_list).
    - intros s2 Hd2 Ho2. apply runs_ret. cbn in Hd2, Ho2. fold desc in Hd2, Ho2. apply HQ; [done|done| |].
      + intros j Hj. eapply document_objects; [|by apply Hdocs]. apply Ho2. intros H. by symmetry in H; apply bundle_path_not_list in H.
      + intros p Hp1 Hp2. rewrite Ho2 by done. apply Hother. intros j _. apply Hp2. }
  apply runs_bind. clear Hend. case_decide.
  - by apply runs_context.
  - apply runs_ret. by destruct w.
Qed.

Lemma uploadStart_runs getKeys files random id (bundle : Bundle) (w : world S C) :
  upload_ready bundle w ->
  (if decide (b_BundleID bundle = "") then random = Ok id else b_BundleID bundle = id /\ bd_ID (b_BundleDescriptor bundle) = id) ->
  (getKeys = Some (Ok files) \/ getKeys = None /\ (Keys (w_consumable w)).1 = Ok files) ->
  runs (uploadStart getKeys random bundle) w (fun '(fs, d, b) w' =>
    fs = files /\ b = setBundleID bundle id /\ CafsFs.f_leafSize d = bd_LeafSize (b_BundleDescriptor bundle) /\
    CafsFs.f_prefix d = "" /\ w_stores w' = w_stores w /\ objects (w_consumable w') = objects (w_consumable w)).
Proof.
  intros (Hctx & Hcon & _ & _ & _ & HL & _) Hid Hk. destruct (New_options bundle HL) as (d & Hd & Hls & Hp).
  unfold uploadStart. apply runs_bind.
  assert (Hkeys : runs (match getKeys with Some r => lift r | None => consumableStore bundle Keys end) w (fun fs w' =>
    fs = files /\ w_stores w' = w_stores w /\ objects (w_consumable w') = objects (w_consumable w))).
  { destruct Hk as [->|[-> Hk]]; [by eapply runs_lift|]. apply runs_consumable; [done|].
    destruct (Keys (w_consumable w)) as [r c'] eqn:E. cbn in Hk. subst r. eapply runs_eq; [exact E|]. by apply Keys_spec in E as [? _]. }
  eapply runs_mono; [exact Hkeys|]. intros fs w' (-> & Hw & Ho). apply runs_bind. eapply runs_lift; [exact Hd|]. apply runs_bind.
  assert (Hb : runs (if decide (b_BundleID bundle = "") then lift (InitializeBundleID random bundle) else mret bundle) w'
    (fun b w2 => b = setBundleID bundle id /\ w2 = w')).
  { case_decide.
    - subst random. by eapply runs_lift.
    - destruct Hid as [<- Hid]. apply runs_ret. split; [|done]. unfold setBundleID, set_descriptor, BundleID, descriptor_with_ID. cbn.
      destruct bundle as [? ? ? ? [] ? ? ? ? ? ? ? ?]. cbn in *. by subst. }
  eapply runs_mono; [exact Hb|]. intros b w2 [-> ->]. by apply runs_ret.
Qed.

Lemma imap_pair_snd (files : list string) : (imap pair files).*2 = files.
Proof.
  rewrite fmap_imap. transitivity (imap (fun _ (x : string) => x) files); [by apply imap_ext|].
  apply list_eq. intros i. rewrite list_lookup_imap. by destruct (files !! i).
Qed.

Lemma uploading_start n b0 (w : world S C) d files :
  0 < n -> bd_BundleEntriesFileCount (b_BundleDescriptor b0) = 0%N -> fresh_bundle (Metadata (w_stores w)) (b_RepoID b0) (b_BundleID b0) ->
  CafsFs.f_prefix d = "" -> (32 * 1024 <= CafsFs.f_leafSize d < 2 ^ 32)%Z -> blobs_ok (Blob (w_stores w)) ->
  Forall (uploadable b0 (objects (w_consumable w))) files ->
  uploading_ok n b0 w d files (imap pair files) [] (mkUploading w (fs_open d (Blob (w_stores w))) b0 []).
Proof.
  intros Hn H0 [_ Hfl] Hp HL Hb Hup.
  exists []. cbn [up_world up_fs up_bundle up_fileList]. rewrite fs_open_conf, fs_open_backend, imap_pair_snd.
  refine (conj _ (conj eq_refl (conj _ (conj eq_refl (conj _ (conj _ (conj _ (conj Hup _)))))))).
  - split; [|split; [|done]].
    + cbn [length]. rewrite Nat.Div0.div_0_l. unfold counted, set_descriptor, descriptor_with_count. destruct b0 as [? ? ? ? [] ? ? ? ? ? ? ? ?]. cbn in *. by rewrite H0.
    + apply sliced_start; [done|]. intros j. apply Hfl.
  - by apply fs_open_ok.
  - constructor.
  - done.
  - constructor.
  - done.
Qed.

Lemma uploading_end bundle id (w w1 : world S C) d files u :
  b_context bundle = true -> bd_Deduplication (b_BundleDescriptor bundle) <> "" ->
  fresh_bundle (Metadata (w_stores w)) (b_RepoID bundle) id ->
  w_stores w1 = w_stores w -> objects (w_consumable w1) = objects (w_consumable w) ->
  CafsFs.leafSize d = Z.to_nat (bd_LeafSize (b_BundleDescriptor bundle)) -> (Z.of_nat (length files) + 1 < 2 ^ 64)%Z ->
  uploading_ok defaultBundleEntriesPerFile (setBundleID bundle id) w1 d files [] [] u ->
  runs (uploadEnd (up_bundle u) (up_fileList u)) (closed u) (upload_post (uploads files (objects (w_consumable w))) bundle id w).
Proof.
  intros Hctx Hdd [Hfd _] Hw1 Ho1 HLs Hfew (es & Hix & Hcon & Hfs & Hcf & Har & Hh & _ & _ & Hperm).
  cbn in Hperm. rewrite app_nil_r in Hperm.
  assert (Hlen : length es <= length files).
  { apply Permutation_length in Hperm. rewrite length_fmap in Hperm. unfold uploaded in Hperm.
    pose proof (length_filter (fun k => IsGeneratedFile k = false /\ is_Some (objects (w_consumable w1) !! k)) files). lia. }
  assert (Hv : VMetadata (w_stores (up_world u)) = VMetadata (w_stores w)) by (rewrite <- Hw1; apply Hix).
  rewrite Hw1 in Hix, Hh. rewrite Ho1 in Hcon, Har, Hperm. rewrite HLs in Har.
  apply (uploadEnd_runs defaultBundleEntriesPerFile (setBundleID bundle id) (w_stores w) (closed u) (up_bundle u) (up_fileList u) es);
    [apply per_file_pos|done|done|exact Hfd|exact Hix|lia|].
  intros b' s' Hb' Hd Hl Hq. exists es. unfold counted in Hb'. subst b'. cbn in Hd, Hl, Hq. unfold closed. cbn.
  refine (conj eq_refl (conj _ (conj Hperm (conj Har (conj _ (conj (f_equal objects Hv) (conj Hcon (conj _ Hh)))))))).
  - exact (conj Hd (conj eq_refl (conj eq_refl Hl))).
  - intros q Hq1 Hq2. apply Hq; [done|]. intros j. apply Hq2.
  - by apply fs_ok_blobs.
Qed.

Lemma uploadBundle_run getKeys files random id (bundle : Bundle) (w : world S C) :
  upload_ready bundle w -> fresh_bundle (Metadata (w_stores w)) (b_RepoID bundle) id ->
  (if decide (b_BundleID bundle = "") then random = Ok id else b_BundleID bundle = id /\ bd_ID (b_BundleDescriptor bundle) = id) ->
  (getKeys = Some (Ok files) \/ getKeys = None /\ (Keys (w_consumable w)).1 = Ok files) ->
  Forall (uploadable bundle (objects (w_consumable w))) files -> (Z.of_nat (length files) + 1 < 2 ^ 64)%Z ->
  every_run (fun es => uploadBundle defaultBundleEntriesPerFile getKeys random es bundle) w (upload_post (uploads files (objects (w_consumable w))) bundle id w).
Proof.
  intros Hready Hfresh Hid Hk Hup Hfew. set (n := defaultBundleEntriesPerFile). pose proof per_file_pos as Hn. fold n in Hn.
  destruct (uploadStart_runs getKeys files random id bundle w Hready Hid Hk) as ([[fs d] b0] & w1 & E & -> & Hb0 & Hls & Hp & Hw1 & Ho1).
  destruct Hready as (Hctx & Hcon & Hcap & Hdd & H0 & HL & Hblobs & Hcont).
  assert (Hflags : b_context b0 = true /\ b_consumable b0 = true /\ b_concurrentFileUploads b0 = b_concurrentFileUploads bundle) by by subst b0.
  destruct Hflags as (Hctx0 & Hcon0 & Hcap0).
  assert (HL' : (32 * 1024 <= CafsFs.f_leafSize d < 2 ^ 32)%Z) by (rewrite Hls; unfold CafsFs.MaxLeafSize, CafsFs.MiB in HL; lia).
  assert (HLs : CafsFs.leafSize d = Z.to_nat (bd_LeafSize (b_BundleDescriptor bundle))) by (unfold CafsFs.leafSize; by rewrite Hls).
  assert (Hc1 : forall k c, objects (w_consumable w1) !! k = Some c -> IsGeneratedFile k = false -> fs_contents (CafsFs.leafSize d) c)
    by (rewrite Ho1, HLs; exact Hcont).
  assert (Hstart : uploading_ok n b0 w1 d files (imap pair files) [] (mkUploading w1 (fs_open d (Blob (w_stores w1))) b0 [])).
  { apply uploading_start; [done| | |done|done| |]; subst b0; rewrite ?Hw1, ?Ho1; done. }
  set (u0 := mkUploading w1 (fs_open d (Blob (w_stores w1))) b0 []) in *.
  assert (Hpool : every_run (fun es => uploadBundleFiles n es b0 files) u0 (fun _ u => uploading_ok n b0 w1 d files [] [] u)).
  { unfold uploadBundleFiles. rewrite (proj2 (Z.ltb_ge _ _)) by lia. apply every_pool; [|..|lia|exact Hstart].
    - by apply openFile_ok.
    - by apply uploadBundleFile_ok.
    - apply uploadBundleFile_live. }
  destruct Hpool as [Hsafe (es & r & u & Ep)]. unfold every_run, uploadBundle. rewrite E. fold u0 n. split.
  - intros es' r' w' H. destruct (uploadBundleFiles n es' b0 files u0) as [[r1 u1]|] eqn:Ep'; [|done].
    destruct (Hsafe _ _ _ Ep') as (a & -> & Hend).
    subst b0. destruct (uploading_end bundle id w w1 d files u1) as (b' & w2 & Eu & Hpost); try done. rewrite Eu in H. simplify_eq. eauto.
  - exists es. rewrite Ep. destruct (Hsafe _ _ _ Ep) as (a & -> & _). destruct (uploadEnd _ _ _) as [r' w']. eauto.
Qed.

Section theorem.
Variable parse : string -> res string.

Lemma implUpload_run getKeys files random id (bundle : Bundle) (w : world S C) :
  upload_ready bundle w -> fresh_bundle (Metadata (w_stores w)) (b_RepoID bundle) id -> id <> "" ->
  is_Some (objects (Metadata (w_stores w)) !! GetArchivePathToRepoDescriptor (b_RepoID bundle)) ->
  (if decide (b_BundleID bundle = "") then random else parse (b_BundleID bundle)) = Ok id ->
  (getKeys = Some (Ok files) \/ getKeys = None /\ (Keys (w_consumable w)).1 = Ok files) ->
  Forall (uploadable bundle (objects (w_consumable w))) files -> (Z.of_nat (length files) + 1 < 2 ^ 64)%Z ->
  every_run (fun es => implUpload parse defaultBundleEntriesPerFile getKeys random es bundle) w (upload_post (uploads files (objects (w_consumable w))) bundle id w).
Proof.
  intros Hready Hfresh Hne Hrepo Hid Hk Hup Hfew.
  assert (Hprep : runs (_ ← contextStores bundle (RepoExists (b_RepoID bundle)); preserveID parse bundle) w (fun b w2 =>
    b = (if decide (b_BundleID bundle = "") then bundle else setBundleID bundle id) /\
    same_objects (w_stores w) (w_stores w2) /\ w_consumable w2 = w_consumable w)).
  { destruct Hready as (Hctx & _). apply runs_bind, runs_context; [done|].
    eapply reads_runs; [by apply reads_RepoExists|]. intros c' Hs. unfold preserveID.
    case_decide; [by apply runs_ret|]. apply runs_bind, runs_attempt. eapply runs_lift; [exact Hid|].
    apply runs_bind, runs_context; [done|]. unfold Exists. apply runs_meta, runs_Has. intros s2 Ho2. cbn.
    rewrite bool_decide_false; [|cbn; rewrite (same_meta _ _ Hs); destruct Hfresh as [-> _]; by intros [? ?]].
    apply runs_ret. split; [done|]. split; [|done]. cbn. etrans; [exact Hs|]. by apply same_SetMetadata. }
  destruct Hprep as (b & w2 & E & Hb & Hs & Hc2).
  unfold every_run, implUpload. rewrite E. pose proof Hs as (Hsm & Hsv & Hsb & _).
  destruct (uploadBundle_run getKeys files random id b w2) as [Hsafe Hlive].
  - assert (Hready2 : upload_ready bundle w2).
    { destruct Hready as (? & ? & ? & ? & ? & ? & Hb1 & ?). unfold upload_ready. rewrite Hc2. split_and!; try done; [lia..|].
      by eapply blobs_ok_objects. }
    subst b. by case_decide.
  - subst b. unfold fresh_bundle. rewrite <- Hsm. by case_decide.
  - subst b. case_decide as Hd; [by rewrite decide_True|]. rewrite decide_False by done. done.
  - by rewrite Hc2.
  - rewrite Hc2. subst b. by case_decide.
  - done.
  - split; [|exact Hlive]. intros es r w' H. destruct (Hsafe es r w' H) as (b' & -> & Hpost). exists b'. split; [done|].
    assert (Hpost2 : upload_post (uploads files (objects (w_consumable w2))) bundle id w2 b' w') by (subst b; by case_decide). clear Hpost.
    destruct Hpost2 as (entries & H1 & H2 & H3 & H4 & H5 & H6 & H7 & H8 & H9). exists entries. rewrite Hc2 in H3, H4, H7.
    refine (conj H1 (conj H2 (conj H3 (conj H4 (conj _ (conj _ (conj H7 (conj H8 _)))))))).
    + intros q Hq1 Hq2. rewrite H5 by done. by rewrite Hsm.
    + by rewrite H6, Hsv.
    + intros L k c Hh. apply H9. by eapply holds_objects.
Qed.

Lemma Upload_run files random id (bundle : Bundle) (w : world S C) :
  upload_ready bundle w -> fresh_bundle (Metadata (w_stores w)) (b_RepoID bundle) id -> id <> "" ->
  is_Some (objects (Metadata (w_stores w)) !! GetArchivePathToRepoDescriptor (b_RepoID bundle)) ->
  (if decide (b_BundleID bundle = "") then random else parse (b_BundleID bundle)) = Ok id ->
  (Keys (w_consumable w)).1 = Ok files -> (Z.of_nat (length files) + 1 < 2 ^ 64)%Z ->
  every_run (fun es => Upload parse random es bundle) w (upload_post (uploads_all (objects (w_consumable w))) bundle id w).
Proof.
  intros Hready Hfresh Hne Hrepo Hid Hk Hfew. set (con := objects (w_consumable w)).
  assert (NoDup files /\ forall k, k ∈ files <-> is_Some (con !! k)) as [Hnd Hin].
  { destruct (Keys (w_consumable w)) as [rk ck] eqn:E. apply Keys_spec in E as [_ Hkeys]. by apply Hkeys. }
  eapply every_mono; [apply (implUpload_run None files random id bundle w); try done|].
  { by right. }
  { apply Forall_forall. intros k Hf%Hin. right. by right. }
  intros b' w' (entries & H1 & H2 & H3 & Hrest). exists entries. refine (conj H1 (conj H2 (conj _ Hrest))). unfold uploads in H3. fold con in H3. split.
  - rewrite H3. by apply NoDup_filter.
  - intros k. rewrite H3. unfold uploaded. rewrite list_elem_of_filter, Hin. tauto.
Qed.

(** C4: Upload archives a directory: on working stores, under every interleaving of
    its goroutines, it succeeds, and then the repository has a bundle with one
    entry for each file of the consumable store that datamon did not generate,
    and no other; the hash of each entry is the key under which the blob store
    holds the content of the file; every other object of the metadata stores and
    the consumable store are as they were, and the blob store still has every
    content that it had. Such an execution exists. *)
Theorem Upload_correct files random id (bundle : Bundle) (w : world S C) :
  upload_ready bundle w -> fresh_bundle (Metadata (w_stores w)) (b_RepoID bundle) id -> id <> "" ->
  is_Some (objects (Metadata (w_stores w)) !! GetArchivePathToRepoDescriptor (b_RepoID bundle)) ->
  (if decide (b_BundleID bundle = "") then random else parse (b_BundleID bundle)) = Ok id ->
  (Keys (w_consumable w)).1 = Ok files -> (Z.of_nat (length files) + 1 < 2 ^ 64)%Z ->
  let con := objects (w_consumable w) in
  every_run (fun es => Upload parse random es bundle) w (fun b' w' => exists entries,
    bundle_with (Metadata (w_stores w')) (b_RepoID bundle) id (b_BundleDescriptor b') entries /\
    NoDup (NameWithPath <$> entries) /\
    (forall k, k ∈ NameWithPath <$> entries <-> IsGeneratedFile k = false /\ is_Some (con !! k)) /\
    Forall (archived (Z.to_nat (bd_LeafSize (b_BundleDescriptor bundle))) con (Blob (w_stores w'))) entries /\
    (forall q, q <> GetArchivePathToBundle (b_RepoID bundle) id ->
       (forall i, q <> GetArchivePathToBundleFileList (b_RepoID bundle) id i) ->
       objects (Metadata (w_stores w')) !! q = objects (Metadata (w_stores w)) !! q) /\
    objects (VMetadata (w_stores w')) = objects (VMetadata (w_stores w)) /\ objects (w_consumable w') = con /\
    (forall L k c, holds L (Blob (w_stores w)) k c -> holds L (Blob (w_stores w')) k c)).
Proof.
  intros Hready Hfresh Hne Hrepo Hid Hk Hfew con. eapply every_mono; [by eapply Upload_run|].
  intros b' w' (entries & _ & H2 & [Hnd Hin] & H4 & H5 & H6 & H7 & _ & H9). by exists entries.
Qed.

End theorem.

End facts.

End CoreUpload.
