(* ===== verification/CoreDownload.v ===== *)
(** * Download of bundles (pkg/core: bundle.go, bundle_unpack.go)

    The descriptor and the index files of a bundle are read from the metadata
    store, or from a consumable store they were published to before; the files
    are read from the content-addressable file system and written to the
    consumable store by a pool of goroutines. *)

From S2P Require Import Prelude GoLib Errors Storage Model CafsKeys CafsFs CafsIface CoreMeta Pool StoreRules CoreIndex CoreRepo CoreBundle CoreUpload.

Module CoreDownload.
Import Model Storage CoreMeta CoreStatus CafsKeys CafsIface Pool StoreRules CoreIndex CoreRepo CoreBundle CoreUpload.

Definition fileDownloadsPerConcurrentChunks : Z := 3.

(** ** Metadata in a consumable store *)

Definition getBundleIDFromPath (path : string) : res string :=
  info ← GetConsumableStorePathMetadata path;
  if decide (cm_Type info <> ConsumableStorePathTypeDescriptor) then mret "" else mret (cm_BundleID info).

Fixpoint findBundleID (keys : list string) : res string :=
  match keys with
  | [] => Err (ErrMsg "didn't find bundle descriptor")
  | key :: keys' =>
      bundleID ← getBundleIDFromPath key;
      if decide (bundleID <> "") then mret bundleID else findBundleID keys'
  end.

Record consumableStoreMetadataKeysInfo : Type := mkKeysInfo {
  ki_bundleID : string;
  ki_descriptor : string;
  ki_filelists : list string
}.

(** The loop of getConsumableStoreMetadataKeysInfo; the keys that are no metadata
    paths are passed over, an index that is no number is an error. *)

Fixpoint scanKeys (keys : list string) (info : consumableStoreMetadataKeysInfo) : res consumableStoreMetadataKeysInfo :=
  match keys with
  | [] => mret info
  | key :: keys' =>
      match metaRe key with
      | None => scanKeys keys' info
      | Some _ =>
          i ← GetConsumableStorePathMetadata key;
          match cm_Type i with
          | ConsumableStorePathTypeDescriptor =>
              if decide (ki_bundleID info <> "") then Err (ErrMsg "expected at most one descriptor")
              else scanKeys keys' (mkKeysInfo (cm_BundleID i) key (ki_filelists info))
          | ConsumableStorePathTypeFileList =>
              scanKeys keys' (mkKeysInfo (ki_bundleID info) (ki_descriptor info) (ki_filelists info ++ [key]))
          end
      end
  end.

Definition keysInfo (keys : list string) : res consumableStoreMetadataKeysInfo :=
  info ← scanKeys keys (mkKeysInfo "" "" []);
  if decide (ki_bundleID info = "") then Err (ErrMsg "bundle id not found") else mret info.

(** yaml.Unmarshal decodes a document onto the value it is given: the fields
    that are tagged "omitempty" are missing from the document when they are
    zero, and then keep the value they had. *)

Definition unmarshalOnto (old new : BundleDescriptor) : BundleDescriptor :=
  mkBundleDescriptor (bd_LeafSize new) (bd_ID new) (bd_Message new)
    (if decide (bd_Parents new = []) then bd_Parents old else bd_Parents new)
    (if decide (bd_Timestamp new = Time.zero) then bd_Timestamp old else bd_Timestamp new)
    (bd_Contributors new) (bd_BundleEntriesFileCount new)
    (if decide (bd_Version new = 0%N) then bd_Version old else bd_Version new)
    (if decide (bd_Deduplication new = "") then bd_Deduplication old else bd_Deduplication new)
    (if decide (bd_RunStage new = "") then bd_RunStage old else bd_RunStage new).

(** copy(l[start:], src); a start beyond the end panics. *)

Definition copyAt {A} (l : list A) (start : nat) (src : list A) : res (list A) :=
  if decide (start <= length l)
  then Ok (take start l ++ take (length l - start) src ++ drop (start + length src) l)
  else Panic "slice bounds out of range".

Section download.
Context {S C F : Type} `{HS : !Store S, HC : !Store C, HF : !Cafs S F}.
Context {HYB : Yaml BundleDescriptor} {HYE : Yaml (list BundleEntry)}.

Definition setBundleIDFromConsumableStore (bundle : Bundle) : M (world S C) Bundle :=
  keys ← consumableStore bundle Keys;
  bundleID ← lift (findBundleID keys);
  mret (BundleID bundleID bundle).

Definition getConsumableStoreMetadataKeysInfo (bundle : Bundle) : M (world S C) consumableStoreMetadataKeysInfo :=
  keys ← consumableStore bundle Keys;
  lift (keysInfo keys).

(** storage.ReadTee from the metadata store to the consumable store. *)

Definition readTee (src dst : string) : M (world S C) bytes := fun w =>
  let '(r, (m, c)) := ReadTee src dst (Metadata (w_stores w), w_consumable w) in
  (r, mkWorld (SetMetadata m (w_stores w)) c).

Definition publish_error : error := ErrMsg "can't publish without both meta and consumable stores".

Definition unpackBundleDescriptor (publish : bool) (bundle : Bundle) : M (world S C) Bundle :=
  let archivePathToBundle := GetArchivePathToBundle (b_RepoID bundle) (b_BundleID bundle) in
  bundleDescriptorBuffer ←
    (if publish then
       if negb (b_context bundle) || negb (b_consumable bundle) then fail publish_error
       else
         consumablePathToBundle ← lift (GetConsumablePathToBundle (b_BundleID bundle));
         readTee archivePathToBundle consumablePathToBundle
     else if b_context bundle then
       has ← contextStores bundle (getMetaStore (Has archivePathToBundle));
       if negb has then fail ErrNotFound
       else contextStores bundle (getMetaStore (Get archivePathToBundle))
     else
       consumablePathToBundle ← lift (GetConsumablePathToBundle (b_BundleID bundle));
       consumableStore bundle (Get consumablePathToBundle));
  bd ← lift (Unmarshal bundleDescriptorBuffer);
  mret (set_descriptor bundle (unmarshalOnto (b_BundleDescriptor bundle) bd)).

(** ** Index files *)

Definition downloadBundleFileListFile (publish : bool) (bundle : Bundle) (i : N) : M (world S C) (list BundleEntry) :=
  let archivePathToBundleFileList := GetArchivePathToBundleFileList (b_RepoID bundle) (b_BundleID bundle) i in
  consumablePathToBundleFileList ← lift (GetConsumablePathToBundleFileList (b_BundleID bundle) i);
  bundleEntriesBuffer ←
    (if publish then
       if negb (b_context bundle) || negb (b_consumable bundle) then fail publish_error
       else readTee archivePathToBundleFileList consumablePathToBundleFileList
     else if b_context bundle then contextStores bundle (getMetaStore (Get archivePathToBundleFileList))
     else consumableStore bundle (Get consumablePathToBundleFileList));
  lift (Unmarshal bundleEntriesBuffer).

(** The reception of index file number [idx] by unpackBundleFileList. *)

Definition receiveFileList (bundleEntriesPerFile : nat) (count idx : N) (es bundleEntries : list BundleEntry) : res (list BundleEntry) :=
  bundleEntries' ← copyAt bundleEntries (N.to_nat idx * bundleEntriesPerFile) es;
  if decide (idx + 1 = count)%N then
    if decide (bundleEntriesPerFile < length es)
    then Err (ErrMsg "is greater than expected number of bundle entries")
    else mret (take (length bundleEntries' - (bundleEntriesPerFile - length es)) bundleEntries')
  else if decide (length es <> bundleEntriesPerFile) then Err (ErrMsg "is not expected number of bundle entries")
  else mret bundleEntries'.

(** The entries are kept beside the stores until all index files are there. *)

Definition fileListJob (publish : bool) (bundleEntriesPerFile : nat) (bundle : Bundle) (_ : unit) (idx : N)
    (st : world S C * list BundleEntry) : option (res unit * (world S C * list BundleEntry)) :=
  let '(w, bundleEntries) := st in
  Some match downloadBundleFileListFile publish bundle idx w with
       | (Ok es, w') =>
           match receiveFileList bundleEntriesPerFile (bd_BundleEntriesFileCount (b_BundleDescriptor bundle)) idx es bundleEntries with
           | Ok bundleEntries' => (Ok tt, (w', bundleEntries'))
           | Err e => (Err e, (w', bundleEntries))
           | Panic p => (Panic p, (w', bundleEntries))
           end
       | (Err e, w') => (Err e, (w', bundleEntries))
       | (Panic p, w') => (Panic p, (w', bundleEntries))
       end.

Definition unpackBundleFileList (publish : bool) (bundleEntriesPerFile : nat) (es : list (event unit)) (bundle : Bundle)
    : R (world S C) Bundle := fun w =>
  let count := bd_BundleEntriesFileCount (b_BundleDescriptor bundle) in
  let maxBundleEntries := Int.uint64 (Z.of_N count * Z.of_nat bundleEntriesPerFile) in
  if (b_concurrentFilelistDownloads bundle <? 0)%Z then Some (Panic "makechan: size out of range", w)
  else if (2 ^ 63 <=? maxBundleEntries)%Z then Some (Panic "makeslice: len out of range", w)
  else
    match pool_run (Z.to_nat (b_concurrentFilelistDownloads bundle)) (fun idx => mret (Some idx))
            (fileListJob publish bundleEntriesPerFile bundle) es (N.of_nat <$> seq 0 (N.to_nat count)) []
            (w, replicate (Z.to_nat maxBundleEntries) zeroBundleEntry) with
    | None => None
    | Some (Ok _, (w', bundleEntries)) => Some (Ok (set_entries bundle bundleEntries), w')
    | Some (Err e, (w', _)) => Some (Err e, w')
    | Some (Panic p, (w', _)) => Some (Panic p, w')
    end.

Definition implPublishMetadata (publish : bool) (entriesPerFile : nat) (es : list (event unit)) (bundle : Bundle) : R (world S C) Bundle :=
  b ← once (if decide (b_BundleID bundle <> "") then mret bundle
            else if b_consumable bundle then setBundleIDFromConsumableStore bundle
            else fail ErrNoBundleIDWithConsumable);
  b' ← once (unpackBundleDescriptor publish b);
  unpackBundleFileList publish entriesPerFile es b'.

Definition PublishMetadata (es : list (event unit)) (bundle : Bundle) : R (world S C) Bundle :=
  implPublishMetadata true defaultBundleEntriesPerFile es bundle.

Definition DownloadMetadata (es : list (event unit)) (bundle : Bundle) : R (world S C) Bundle :=
  implPublishMetadata false defaultBundleEntriesPerFile es bundle.

Definition PopulateFiles (es : list (event unit)) (bundle : Bundle) : R (world S C) Bundle :=
  b ← once (if b_consumable bundle && b_context bundle then fail ErrAmbiguousBundle
            else if b_consumable bundle then
              if decide (b_BundleID bundle = "") then setBundleIDFromConsumableStore bundle else mret bundle
            else if b_context bundle then
              _ ← contextStores bundle (RepoExists (b_RepoID bundle)); mret bundle
            else fail ErrInvalidBundle);
  implPublishMetadata false defaultBundleEntriesPerFile es b.

(** ** Files *)

(** [dl_backend] tells whether the file system has a backend. *)

Record downloading : Type := mkDownloading {
  dl_world : world S C;
  dl_fs : F;
  dl_backend : bool
}.

Definition in_download {A} (m : M (world S C) A) : M downloading A := fun u =>
  let '(r, w) := m (dl_world u) in (r, mkDownloading w (dl_fs u) (dl_backend u)).

Definition readFile (x : fs_copy) (k : Key) : R downloading source := fun u =>
  if negb (dl_backend u) then Some (Panic nil_dereference, u)
  else
    match fs_Get x k (dl_fs u) with
    | None => None
    | Some (r, f) => Some (r, mkDownloading (dl_world u) f (dl_backend u))
    end.

Definition downloadBundleEntrySyncMaybeOverwrite (bundle : Bundle) (overwrite : bool) (x : fs_copy) (bundleEntry : BundleEntry)
    : R downloading unit :=
  key ← once (lift (KeyFromString (Hash bundleEntry)));
  reader ← readFile x key;
  once (in_download (consumableStore bundle (
    _ ← (if overwrite then Delete (NameWithPath bundleEntry) else mret tt);
    Put (NameWithPath bundleEntry) reader NoOverWrite))).

Definition downloadBundleEntrySync (bundle : Bundle) (x : fs_copy) (bundleEntry : BundleEntry) : R downloading unit :=
  downloadBundleEntrySyncMaybeOverwrite bundle false x bundleEntry.

Definition deleteBundleEntrySync (bundle : Bundle) (bundleEntry : BundleEntry) : R downloading unit :=
  once (in_download (consumableStore bundle (Delete (NameWithPath bundleEntry)))).

(** The goroutine of a difference. *)

Definition applyDiff (bundleDest : Bundle) (x : fs_copy) (de : DiffEntry) : R downloading unit :=
  match de_Type de with
  | DiffEntryTypeAdd => downloadBundleEntrySync bundleDest x (de_Additional de)
  | DiffEntryTypeDel => deleteBundleEntrySync bundleDest (de_Existing de)
  | DiffEntryTypeDif => downloadBundleEntrySyncMaybeOverwrite bundleDest true x (de_Additional de)
  end.

(** A predicate selects the entries to download; no predicate selects all. *)

Definition selectEntry (selectionPredicate : option (string -> res bool)) (b : BundleEntry) : M downloading (option BundleEntry) :=
  match selectionPredicate with
  | None => mret (Some b)
  | Some p => ok ← lift (p (NameWithPath b)); mret (if ok : bool then Some b else None)
  end.

(** The order in which the maps of a comparison are iterated is part of the
    execution. *)

Definition downloadBundleEntries (bundle : Bundle) (selectionPredicate : option (string -> res bool)) (bundleDest : option Bundle)
    (order1 order2 : list string) (es : list (event fs_copy)) : R downloading unit :=
  let cap := Z.to_nat (Z.max 1 (b_concurrentFileDownloads bundle)) in
  match bundleDest with
  | None => pool_run cap (selectEntry selectionPredicate) (downloadBundleEntrySync bundle) es (b_BundleEntries bundle) []
  | Some dest =>
      let diff := diffBundles (b_BundleEntries dest) (b_BundleEntries bundle) order1 order2 in
      pool_run cap (fun de => mret (Some de)) (applyDiff dest) es diff []
  end.

Definition downloadOptions (bundle : Bundle) : list CafsFs.Option :=
  let bd := b_BundleDescriptor bundle in
  [CafsFs.LeafSize (bd_LeafSize bd);
   CafsFs.LeafTruncation (bd_Version bd <? 1)%N;
   CafsFs.ReaderConcurrentChunkWrites (b_concurrentFileDownloads bundle `quot` fileDownloadsPerConcurrentChunks);
   CafsFs.VerifyHash (b_withVerifyHash bundle)].

(** A download with the file system of the bundle. *)

Definition with_fs {A} (bundle : Bundle) (m : R downloading A) : R (world S C) A := fun w =>
  match CafsFs.New (downloadOptions bundle) with
  | Err e => Some (Err e, w)
  | Panic p => Some (Panic p, w)
  | Ok d =>
      match m (mkDownloading w (fs_open d (Blob (w_stores w))) (b_context bundle)) with
      | None => None
      | Some (r, u) => Some (r, mkWorld (SetBlob (fs_backend (dl_fs u)) (w_stores (dl_world u))) (w_consumable (dl_world u)))
      end
  end.

(** The metadata of the destination is replaced by that of the source. *)

Definition rewriteMetadata (now : Time.Time) (bundle bundleDest : Bundle) (es : list (event unit)) : R (world S C) unit :=
  _ ← once (info ← getConsumableStoreMetadataKeysInfo bundleDest;
            consumableStore bundleDest (
              _ ← Delete (ki_descriptor info);
              for_each (ki_filelists info) Delete));
  _ ← PublishMetadata es (NewBundle now [Repo (b_RepoID bundle); ContextStores (b_context bundle);
        ConsumableStore (b_consumable bundleDest); BundleID (b_BundleID bundle)]);
  once (mret tt).

Definition unpackDataFiles (bundle : Bundle) (bundleDest : option Bundle) (selectionPredicate : option (string -> res bool))
    (now : Time.Time) (order1 order2 : list string) (es : list (event fs_copy)) (es' : list (event unit)) : R (world S C) unit :=
  _ ← with_fs bundle (downloadBundleEntries bundle selectionPredicate bundleDest order1 order2 es);
  match bundleDest with
  | None => once (mret tt)
  | Some dest => rewriteMetadata now bundle dest es'
  end.

(** The loop of unpackDataFile; the downloads are given with their executions. *)

Fixpoint downloadNamed (bundle : Bundle) (file : string) (entries : list BundleEntry) (foundFile : bool) (xs : list fs_copy)
    : R downloading bool :=
  match entries with
  | [] => match xs with [] => once (mret foundFile) | _ => fun _ => None end
  | b :: entries' =>
      if decide (file <> NameWithPath b) then downloadNamed bundle file entries' foundFile xs
      else match xs with
           | [] => fun _ => None
           | x :: xs' => _ ← downloadBundleEntrySync bundle x b; downloadNamed bundle file entries' true xs'
           end
  end.

Definition unpackDataFile (bundle : Bundle) (file : string) (xs : list fs_copy) : R (world S C) unit :=
  with_fs bundle (
    foundFile ← downloadNamed bundle file (b_BundleEntries bundle) false xs;
    once (if foundFile : bool then mret tt
          else fail (ErrMsg ("didn't find file '" +:+ file +:+ "' in bundle '" +:+ b_BundleID bundle +:+ "'")))).

(** ** The operations *)

(** An error of the files is reported as one of the metadata, too. *)

Definition implPublish (entriesPerFile : nat) (selectionPredicate : option (string -> res bool)) (now : Time.Time)
    (es : list (event unit) * list (event fs_copy)) (bundle : Bundle) : R (world S C) Bundle :=
  wrap_error (fun e => Errors.Wrap ErrPublishMetadata (Some e)) (
    b ← implPublishMetadata true entriesPerFile es.1 bundle;
    _ ← unpackDataFiles b None selectionPredicate now [] [] es.2 [];
    once (mret b)).

Definition Publish (now : Time.Time) (es : list (event unit) * list (event fs_copy)) (bundle : Bundle) : R (world S C) Bundle :=
  implPublish defaultBundleEntriesPerFile (Some (fun _ => Ok true)) now es bundle.

Definition PublishSelectBundleEntries (selectionPredicate : option (string -> res bool)) (now : Time.Time)
    (es : list (event unit) * list (event fs_copy)) (bundle : Bundle) : R (world S C) Bundle :=
  implPublish defaultBundleEntriesPerFile selectionPredicate now es bundle.

Definition PublishFile (file : string) (es : list (event unit) * list fs_copy) (bundle : Bundle) : R (world S C) Bundle :=
  b ← PublishMetadata es.1 bundle;
  _ ← unpackDataFile b file es.2;
  once (mret b).

Definition Diff (order1 order2 : list string) (es : list (event unit) * list (event unit)) (existing additional : Bundle)
    : R (world S C) (list DiffEntry) :=
  e ← PopulateFiles es.1 existing;
  a ← PopulateFiles es.2 additional;
  once (mret (diffBundles (b_BundleEntries e) (b_BundleEntries a) order1 order2)).

(** The source of an update is read from the context, the destination from the
    consumable store. *)

Definition Update (now : Time.Time) (order1 order2 : list string)
    (es : list (event unit) * list (event unit) * list (event fs_copy) * list (event unit)) (bundleSrc bundleDest : Bundle)
    : R (world S C) unit :=
  src ← implPublishMetadata false defaultBundleEntriesPerFile es.1.1.1 bundleSrc;
  dest ← implPublishMetadata false defaultBundleEntriesPerFile es.1.1.2 bundleDest;
  unpackDataFiles src (Some dest) None now order1 order2 es.1.2 es.2.

End download.

Arguments downloading : clear implicits.

(** ** Index files: the invariant *)

Lemma copyAt_lookup {A} (l src : list A) start l' :
  copyAt l start src = Ok l' -> start + length src <= length l ->
  length l' = length l /\ forall i, l' !! i = if decide (start <= i < start + length src) then src !! (i - start) else l !! i.
Proof.
  unfold copyAt. case_decide; [|done]. intros [= <-] Hs. rewrite (take_ge src) by lia. split.
  - rewrite !length_app, length_take, length_drop. lia.
  - intros i. destruct (decide (i < start)) as [Hi|Hi].
    + rewrite lookup_app_l by (rewrite length_take; lia). rewrite decide_False by lia. by rewrite lookup_take_lt.
    + rewrite lookup_app_r by (rewrite length_take; lia). rewrite length_take, Nat.min_l by lia. case_decide.
      * by rewrite lookup_app_l by lia.
      * rewrite lookup_app_r, lookup_drop by lia. f_equal. lia.
Qed.

Section filelists.
Variables (n : nat) (entries : list BundleEntry).
Hypothesis n_pos : 0 < n.

Abbreviation m := (nchunks n entries).

(** The entries of the index files of [done] are in place; the slice is cut to
    its length when the last index file comes. *)

Definition in_place (done : list nat) (be : list BundleEntry) : Prop :=
  length be = (if decide (m - 1 ∈ done) then length entries else m * n) /\
  forall i, i < length entries -> i / n ∈ done -> be !! i = entries !! i.

Lemma chunks_bounds : (m - 1) * n <= length entries <= m * n /\ (0 < m -> (m - 1) * n < length entries).
Proof.
  unfold nchunks. pose proof (Nat.div_mod (length entries + n - 1) n ltac:(lia)) as Hd.
  pose proof (Nat.mod_upper_bound (length entries + n - 1) n ltac:(lia)) as Hm. set (q := (length entries + n - 1) / n) in *.
  clearbody q. destruct q as [|q]; cbn [Nat.sub] in *; nia.
Qed.

Lemma chunk_length j : j < m -> length (chunk_at n entries j) = Nat.min n (length entries - j * n) /\ j * n < length entries /\
  (j + 1 < m -> length (chunk_at n entries j) = n).
Proof.
  intros Hj. pose proof chunks_bounds as [H1 H2]. assert (Hl : length (chunk_at n entries j) = Nat.min n (length entries - j * n)).
  { unfold chunk_at. by rewrite length_take, length_drop. }
  split; [done|]. split; [nia|]. intros Hj2. rewrite Hl. assert ((j + 1) * n <= (m - 1) * n) by (apply Nat.mul_le_mono_r; lia). lia.
Qed.

Lemma receiveFileList_ok done be j :
  j < m -> j ∉ done -> in_place done be ->
  exists be', receiveFileList n (N.of_nat m) (N.of_nat j) (chunk_at n entries j) be = Ok be' /\ in_place (j :: done) be'.
Proof.
  intros Hj Hnew [Hlen Hin]. destruct (chunk_length j Hj) as (Hl & Hlt & Hfull). pose proof chunks_bounds as [[H1 H2] H3].
  assert (Hbe : length entries <= length be) by (rewrite Hlen; case_decide; lia).
  unfold receiveFileList. rewrite Nnat.Nat2N.id.
  assert (exists be1, copyAt be (j * n) (chunk_at n entries j) = Ok be1) as [be1 E].
  { unfold copyAt. rewrite decide_True by lia. eauto. }
  rewrite E. cbn [mbind res_bind]. destruct (copyAt_lookup _ _ _ _ E ltac:(lia)) as [Hl1 Hlk].
  assert (Hin1 : forall i, i < length entries -> i / n ∈ j :: done -> be1 !! i = entries !! i).
  { intros i Hi Hd. rewrite Hlk. destruct (decide (j * n <= i < j * n + length (chunk_at n entries j))) as [Hr|Hr].
    - unfold chunk_at. rewrite lookup_take_lt, lookup_drop by lia. f_equal. lia.
    - apply elem_of_cons in Hd as [Hd|Hd]; [|by apply Hin]. exfalso. apply Hr.
      pose proof (Nat.div_mod i n ltac:(lia)). pose proof (Nat.mod_upper_bound i n ltac:(lia)). rewrite Hd in *. lia. }
  destruct (decide (N.of_nat j + 1 = N.of_nat m)%N) as [Hlast|Hlast].
  - assert (Hmn : m * n = (m - 1) * n + n) by (destruct m; [lia|]; cbn [Nat.sub]; nia).
    rewrite decide_False by lia. eexists. split; [reflexivity|]. assert (j = m - 1) as -> by lia. split.
    + rewrite decide_True by set_solver. rewrite length_take, Hl1, Hlen, decide_False by done. rewrite Hl. lia.
    + intros i Hi Hd. rewrite lookup_take_lt; [by apply Hin1|]. rewrite Hl1, Hlen, decide_False by done. rewrite Hl. lia.
  - rewrite decide_False by (rewrite Hfull by lia; lia). eexists. split; [reflexivity|]. split; [|done].
    rewrite Hl1, Hlen. destruct (decide (m - 1 ∈ done)); [by rewrite decide_True by set_solver|].
    rewrite decide_False; [done|]. rewrite elem_of_cons. intros [?|?]; [lia|done].
Qed.

Section run.
Context {S C : Type} `{HS : !Store S, HC : !Store C} {HYE : Yaml (list BundleEntry)}.
Variables (publish : bool) (bundle : Bundle).
Hypothesis count_m : bd_BundleEntriesFileCount (b_BundleDescriptor bundle) = N.of_nat m.

(** [ok done w]: the stores after the index files of [done] were read. *)

Variable ok : list nat -> world S C -> Prop.
Hypothesis job_ok : forall j done w, j < m -> j ∉ done -> ok done w ->
  runs (downloadBundleFileListFile publish bundle (N.of_nat j)) w (fun es w' => es = chunk_at n entries j /\ ok (j :: done) w').

Definition unpacking (todo running : list N) (st : world S C * list BundleEntry) : Prop :=
  exists done, (N.of_nat <$> done) ++ running ++ todo ≡ₚ N.of_nat <$> seq 0 m /\ ok done st.1 /\ in_place done st.2.

Lemma fileListJob_ok todo run1 j run2 st x r st' :
  unpacking todo (run1 ++ j :: run2) st -> fileListJob publish n bundle x j st = Some (r, st') ->
  r = Ok tt /\ unpacking todo (run1 ++ run2) st'.
Proof.
  destruct st as [w be]. intros (done & Hperm & Hok & Hin) H. cbn [fst snd] in *.
  assert (Hj : j ∈ N.of_nat <$> seq 0 m) by (rewrite <- Hperm; set_solver).
  apply list_elem_of_fmap in Hj as (i & -> & Hi%elem_of_seq).
  assert (Hnew : i ∉ done).
  { intros Hd. assert (Hnd : NoDup ((N.of_nat <$> done) ++ (run1 ++ N.of_nat i :: run2) ++ todo)).
    { rewrite Hperm. apply NoDup_fmap_2; [apply _|apply NoDup_seq]. }
    apply NoDup_app in Hnd as (_ & Hnd & _). apply (Hnd (N.of_nat i)); [|set_solver]. apply list_elem_of_fmap. eauto. }
  destruct (job_ok i done w ltac:(lia) Hnew Hok) as (es & w' & E & -> & Hok').
  destruct (receiveFileList_ok done be i ltac:(lia) Hnew Hin) as (be' & Er & Hin').
  unfold fileListJob in H. rewrite E, count_m, Er in H. simplify_eq. split; [done|].
  exists (i :: done). split; [|done]. rewrite <- Hperm, fmap_cons. solve_Permutation.
Qed.

Lemma unpacking_end st : unpacking [] [] st -> exists done, done ≡ₚ seq 0 m /\ ok done st.1 /\ st.2 = entries.
Proof.
  destruct st as [w be]. intros (done & Hperm & Hok & Hlen & Hin). cbn [fst snd] in *. rewrite !app_nil_r in Hperm.
  exists done. assert (Hd : done ≡ₚ seq 0 m).
  { apply NoDup_Permutation; [|apply NoDup_seq|].
    - apply (NoDup_fmap_1 N.of_nat). rewrite Hperm. apply NoDup_fmap_2; [apply _|apply NoDup_seq].
    - intros j. pose proof (list_elem_of_fmap_inj N.of_nat done j) as H1. pose proof (list_elem_of_fmap_inj N.of_nat (seq 0 m) j) as H2.
      rewrite <- H1, Hperm. done. }
  split; [done|]. split; [done|]. pose proof chunks_bounds as [[H1 H2] H3].
  assert (Hl : length be = length entries).
  { rewrite Hlen. destruct (decide (0 < m)) as [Hm|Hm]; [|case_decide; lia].
    rewrite decide_True; [done|]. rewrite Hd, elem_of_seq. lia. }
  apply list_eq. intros i. destruct (decide (i < length entries)) as [Hi|Hi]; [|by rewrite !lookup_ge_None_2 by lia].
  apply Hin; [done|]. rewrite Hd, elem_of_seq. split; [lia|]. apply Nat.Div0.div_lt_upper_bound. lia.
Qed.

(** The index files give back the entries, in whatever order they arrive. *)

Lemma unpackBundleFileList_run (w : world S C) :
  (0 < b_concurrentFilelistDownloads bundle)%Z -> (Z.of_nat (m * n) < 2 ^ 63)%Z -> ok [] w ->
  every_run (fun es => unpackBundleFileList publish n es bundle) w (fun b w' =>
    b = set_entries bundle entries /\ exists done, done ≡ₚ seq 0 m /\ ok done w').
Proof.
  intros Hcap Hbig Hok. set (st := (w, replicate (m * n) zeroBundleEntry)).
  assert (Hstart : unpacking (N.of_nat <$> seq 0 m) [] st).
  { exists []. split; [done|]. split; [done|]. split; [|intros i _ Hi; by apply not_elem_of_nil in Hi].
    rewrite decide_False by set_solver. apply length_replicate. }
  pose proof (every_pool (Z.to_nat (b_concurrentFilelistDownloads bundle)) (fun idx : N => mret (Some idx)) (fileListJob publish n bundle)
    unpacking (N.of_nat <$> seq 0 m) st) as Hpool.
  destruct Hpool as [Hsafe (es & r & st' & Ep)]; [|exact fileListJob_ok| |lia|exact Hstart|].
  - intros j todo running st' (done & Hperm & H'). exists (Some j), st'. split; [done|]. exists done. split; [|done].
    rewrite <- Hperm. cbn [option_list]. solve_Permutation.
  - intros todo run1 j run2 st' _. exists tt. unfold fileListJob. destruct st' as [w1 l].
    match goal with |- exists r w', Some ?x = _ => destruct x as [r1 st1] end. eauto.
  - unfold every_run, unpackBundleFileList. rewrite (proj2 (Z.ltb_ge _ _)) by lia. rewrite count_m.
    replace (Z.of_N (N.of_nat m) * Z.of_nat n)%Z with (Z.of_nat (m * n)) by lia. rewrite Int.uint64_small by lia.
    rewrite (proj2 (Z.leb_gt _ _)) by lia. rewrite Nat2Z.id, Nnat.Nat2N.id. fold st. split.
    + intros es' r' w' H. destruct (pool_run _ _ _ es' _ _ st) as [[r1 [w1 be]]|] eqn:E; [|done].
      destruct (Hsafe _ _ _ E) as ([] & -> & Hend%unpacking_end). cbn [fst snd] in Hend. destruct Hend as (done & Hd & Hok' & ->).
      simplify_eq. eexists. split; [done|]. split; [done|]. eauto.
    + exists es. rewrite Ep. destruct (Hsafe _ _ _ Ep) as ([] & -> & _). destruct st'. eauto.
Qed.

End run.

End filelists.

End CoreDownload.
