(* ===== verification/CorePublish.v ===== *)
(** * Publication of bundles: theorems (pkg/core: bundle.go, bundle_unpack.go)

    Publish writes the metadata and the files of an archived bundle to a
    consumable store; what Upload archived, Publish restores. *)

From S2P Require Import Prelude GoLib Errors Storage Localfs Model ModelPaths CafsKeys CafsFs CafsIface CoreMeta Pool StoreRules CoreIndex CoreRepo CoreBundle CoreUpload CoreDownload.

Module CorePublish.
Import Model ModelPaths Storage CoreMeta CoreStatus CafsKeys CafsIface Pool StoreRules CoreIndex CoreRepo CoreBundle CoreUpload CoreDownload.

(** ** Consumable paths *)

Definition consumable_descriptor (id : string) : string := ".datamon/" +:+ id +:+ ".yaml".

Definition consumable_list (id : string) (i : N) : string :=
  ".datamon/" +:+ id +:+ "-bundle-files-" +:+ Strconv.FormatUint i +:+ ".yaml".

(** An identifier the consumable paths accept: no newline, and not itself of the
    form of an index file; the identifiers of a ksuid are alphanumeric. *)

Definition plain_id (id : string) : Prop := no_newline id = true /\ flRe id = None.

Lemma consumable_descriptor_ok id : plain_id id -> GetConsumablePathToBundle id = Ok (consumable_descriptor id).
Proof.
  intros [Hid Hfl]. unfold GetConsumablePathToBundle.
  assert (GetConsumableStorePathMetadata (".datamon/" +:+ id +:+ ".yaml")
          = Ok (mkConsumableStorePathMetadata ConsumableStorePathTypeDescriptor id 0)) as ->.
  { unfold GetConsumableStorePathMetadata. by rewrite metaRe_path, Hfl. }
  cbn. repeat (case_decide; [naive_solver|]). done.
Qed.

Lemma consumable_list_ok id i : plain_id id -> (Z.of_N i <= Strconv.max_int64)%Z ->
  GetConsumablePathToBundleFileList id i = Ok (consumable_list id i).
Proof.
  intros [Hid _] Hi. unfold GetConsumablePathToBundleFileList. pose proof (filelist_meta id i Hid) as H.
  rewrite Strconv.Atoi_FormatUint in H by done. cbn in H. rewrite Int.uint64_small in H by (unfold Strconv.max_int64 in Hi; lia).
  rewrite H. cbn. repeat (case_decide; [naive_solver|]). done.
Qed.

Lemma consumable_list_inj id i j : consumable_list id i = consumable_list id j -> i = j.
Proof. unfold consumable_list. intros H. repeat apply Strings.string_app_inv_head in H. by apply FormatUint_yaml_inj. Qed.

Lemma consumable_descriptor_not_list id i : consumable_descriptor id <> consumable_list id i.
Proof. unfold consumable_descriptor, consumable_list. intros H. repeat apply Strings.string_app_inv_head in H. done. Qed.

Lemma consumable_generated id i : IsGeneratedFile (consumable_descriptor id) = true /\ IsGeneratedFile (consumable_list id i) = true.
Proof. split; unfold IsGeneratedFile, datamon_dir, consumable_descriptor, consumable_list; by rewrite Strings.HasPrefix_app. Qed.

Section publish.
Context {S C F : Type} `{HS : !Store S, HSL : !StoreLaws S, HR : !ReliableStore S}.
Context `{HC : !Store C, HCL : !StoreLaws C, HCR : !ReliableStore C}.
Context `{HF : !Cafs S F, HFL : !CafsLaws S F}.
Context {HYB : Yaml BundleDescriptor} {HYBL : YamlLaws BundleDescriptor}.
Context {HYE : Yaml (list BundleEntry)} {HYEL : YamlLaws (list BundleEntry)}.

Abbreviation meta w := (objects (Metadata (w_stores w))).
Abbreviation con w := (objects (w_consumable w)).

Lemma runs_readTee src dst d (w : world S C) (Q : bytes -> world S C -> Prop) :
  meta w !! src = Some d -> con w !! dst = None ->
  (forall m c, objects m = meta w -> objects c = <[dst := d]> (con w) -> Q d (mkWorld (SetMetadata m (w_stores w)) c)) ->
  runs (readTee src dst) w Q.
Proof.
  intros Hs Hd HQ. unfold runs, readTee, ReadTee. destruct (Get_ok src (Metadata (w_stores w)) d Hs) as (m & -> & Hm).
  pose proof (Put_total dst d NoOverWrite (w_consumable w) (fun _ => Hd)) as Hput.
  destruct (Put dst (NewReader d) NoOverWrite (w_consumable w)) as [r c] eqn:E. cbn in Hput. subst r.
  apply Put_spec in E as [E _]. destruct (E eq_refl) as [Ho _]. eauto 10.
Qed.

(** ** The metadata *)

(** [done]: the index files published so far. *)

Definition lists_published (bundle : Bundle) (w0 : world S C) (done : list nat) (w : world S C) : Prop :=
  let path j := GetArchivePathToBundleFileList (b_RepoID bundle) (b_BundleID bundle) (N.of_nat j) in
  let cpath j := consumable_list (b_BundleID bundle) (N.of_nat j) in
  same_objects (w_stores w0) (w_stores w) /\
  (forall j, j ∈ done -> con w !! cpath j = meta w0 !! path j) /\
  (forall p, (forall j, j ∈ done -> p <> cpath j) -> con w !! p = con w0 !! p).

Lemma publish_list_ok (bundle : Bundle) n entries (w0 : world S C) j done w :
  b_context bundle = true -> b_consumable bundle = true -> plain_id (b_BundleID bundle) -> (Z.of_nat j <= Strconv.max_int64)%Z ->
  document (Metadata (w_stores w0)) (GetArchivePathToBundleFileList (b_RepoID bundle) (b_BundleID bundle) (N.of_nat j)) (chunk_at n entries j) ->
  con w0 !! consumable_list (b_BundleID bundle) (N.of_nat j) = None ->
  j ∉ done -> lists_published bundle w0 done w ->
  runs (downloadBundleFileListFile true bundle (N.of_nat j)) w (fun es w' =>
    es = chunk_at n entries j /\ lists_published bundle w0 (j :: done) w').
Proof.
  intros Hctx Hcon Hid Hj (buf & Hbuf & Hun) Hfree Hnew (Hs & Hpub & Hother). unfold downloadBundleFileListFile.
  apply runs_bind. eapply runs_lift; [apply consumable_list_ok; [done|lia]|]. rewrite Hctx, Hcon. cbn [negb orb].
  apply runs_bind. eapply runs_readTee.
  - rewrite (same_meta _ _ Hs). exact Hbuf.
  - rewrite Hother; [exact Hfree|]. intros i Hi H%consumable_list_inj. assert (i = j) by lia. by subst.
  - intros m c Hm Hc. eapply runs_lift; [exact Hun|]. split; [done|]. unfold lists_published. cbn [w_stores w_consumable]. split_and!.
    + etrans; [exact Hs|]. by apply same_SetMetadata.
    + intros i [->|Hi]%elem_of_cons.
      * by rewrite Hc, lookup_insert_eq.
      * rewrite Hc, lookup_insert_ne; [by apply Hpub|]. intros H%consumable_list_inj. assert (i = j) by lia. by subst.
    + intros p Hp. rewrite Hc, lookup_insert_ne; [apply Hother; set_solver|]. intros <-. apply (Hp j); [set_solver|done].
Qed.

(** The descriptor and the index files of a bundle in a consumable store. *)

Definition metadata_published (bundle : Bundle) (m : nat) (w0 w : world S C) : Prop :=
  let id := b_BundleID bundle in let repo := b_RepoID bundle in
  same_objects (w_stores w0) (w_stores w) /\
  con w !! consumable_descriptor id = meta w0 !! GetArchivePathToBundle repo id /\
  (forall j, j < m -> con w !! consumable_list id (N.of_nat j) = meta w0 !! GetArchivePathToBundleFileList repo id (N.of_nat j)) /\
  (forall p, p <> consumable_descriptor id -> (forall j, j < m -> p <> consumable_list id (N.of_nat j)) -> con w !! p = con w0 !! p).

Definition unpacked (bundle : Bundle) (bd : BundleDescriptor) (entries : list BundleEntry) : Bundle :=
  set_entries (set_descriptor bundle (unmarshalOnto (b_BundleDescriptor bundle) bd)) entries.

Lemma publish_metadata_run (bundle : Bundle) bd entries (w : world S C) :
  let id := b_BundleID bundle in let m := nchunks defaultBundleEntriesPerFile entries in
  b_context bundle = true -> b_consumable bundle = true -> (0 < b_concurrentFilelistDownloads bundle)%Z ->
  id <> "" -> plain_id id -> bundle_with (Metadata (w_stores w)) (b_RepoID bundle) id bd entries ->
  con w !! consumable_descriptor id = None -> (forall i, con w !! consumable_list id i = None) ->
  (Z.of_nat (m * defaultBundleEntriesPerFile) < 2 ^ 63)%Z ->
  every_run (fun es => implPublishMetadata true defaultBundleEntriesPerFile es bundle) w (fun b w' =>
    b = unpacked bundle bd entries /\ metadata_published bundle m w w').
Proof.
  intros id m Hctx Hcon Hcap Hne Hid (Hdesc & _ & Hcount & Hlists) Hfd Hfl Hbig. set (n := defaultBundleEntriesPerFile) in *.
  pose proof per_file_pos as Hn. fold n in Hn. unfold implPublishMetadata. rewrite decide_True by done.
  eapply every_bind_once; [done|]. destruct Hdesc as (buf & Hbuf & Hun).
  assert (Hd : runs (unpackBundleDescriptor true bundle) w (fun b w1 =>
    b = set_descriptor bundle (unmarshalOnto (b_BundleDescriptor bundle) bd) /\ same_objects (w_stores w) (w_stores w1) /\
    con w1 = <[consumable_descriptor id := buf]> (con w))).
  { unfold unpackBundleDescriptor. rewrite Hctx, Hcon. cbn [negb orb]. apply runs_bind, runs_bind.
    eapply runs_lift; [by apply consumable_descriptor_ok|]. eapply runs_readTee; [exact Hbuf|exact Hfd|].
    intros mt c Hm Hc. apply runs_bind. eapply runs_lift; [exact Hun|]. apply runs_ret. split; [done|]. split; [|done].
    cbn. by apply same_SetMetadata. }
  destruct Hd as (b & w1 & E & -> & Hs1 & Hc1). eapply every_bind_once; [exact E|].
  set (b1 := set_descriptor bundle (unmarshalOnto (b_BundleDescriptor bundle) bd)).
  eapply every_mono; [apply (unpackBundleFileList_run n entries Hn true b1 Hcount (lists_published b1 w1))|].
  - intros j done w2 Hj Hnew Hok. apply publish_list_ok; try done.
    + pose proof (Nat.mul_le_mono_l 1 n m Hn). fold m in Hj. unfold Strconv.max_int64. lia.
    + eapply document_objects; [|by apply Hlists]. by rewrite (same_meta _ _ Hs1).
    + rewrite Hc1, lookup_insert_ne; [apply Hfl|]. apply consumable_descriptor_not_list.
  - done.
  - done.
  - split_and!; [done| |done]. intros j Hj. by apply not_elem_of_nil in Hj.
  - intros b2 w2 (-> & done & Hdone & Hs2 & Hpub & Hother). split; [done|].
    assert (Hs : same_objects (w_stores w) (w_stores w2)) by (by etrans). cbn in Hpub, Hother. fold id in Hpub, Hother.
    refine (conj Hs (conj _ (conj _ _))).
    + rewrite Hother by (intros j _; apply consumable_descriptor_not_list). fold id. by rewrite Hc1, lookup_insert_eq, Hbuf.
    + intros j Hj. fold id. rewrite Hpub by (rewrite Hdone, elem_of_seq; fold m; lia). by rewrite (same_meta _ _ Hs1).
    + intros p Hp1 Hp2. fold id in Hp1, Hp2. rewrite Hother, Hc1, lookup_insert_ne; [done|done|].
      intros j Hj. rewrite Hdone, elem_of_seq in Hj. apply Hp2. fold m in Hj. lia.
Qed.

(** ** The files *)

Section files.
Variables (bundle : Bundle) (w0 : world S C) (d : CafsFs.defaultFs) (sel : string -> bool) (cont : BundleEntry -> bytes).

Abbreviation entries := (b_BundleEntries bundle).
Abbreviation L := (CafsFs.leafSize d).

Hypothesis dest_consumable : b_consumable bundle = true.
Hypothesis d_whole : CafsFs.f_leafTruncation d = false.
Hypothesis names_distinct : NoDup (NameWithPath <$> entries).
Hypothesis names_free : forall e, e ∈ entries -> con w0 !! NameWithPath e = None.

(** The content of an entry is in the blob store, under the hash of the entry. *)

Definition fetchable (Lf : nat) (blob : S) (c : bytes) (e : BundleEntry) : Prop :=
  exists k, Hash e = Key_String k /\ holds Lf blob k c.

Hypothesis entries_fetchable : forall e, e ∈ entries -> fetchable L (Blob (w_stores w0)) (cont e) e.

Definition selected (es : list BundleEntry) : list BundleEntry := filter (fun e => sel (NameWithPath e) = true) es.

(** The files of [done] are downloaded. *)

Definition files_done (done : list BundleEntry) (w : world S C) : Prop :=
  same_objects (w_stores w0) (w_stores w) /\
  (forall e, e ∈ done -> con w !! NameWithPath e = Some (cont e)) /\
  (forall p, p ∉ NameWithPath <$> done -> con w !! p = con w0 !! p).

Definition files_ok (todo running : list BundleEntry) (u : downloading S C F) : Prop :=
  dl_backend u = true /\ fs_ok (dl_fs u) /\ fs_conf (dl_fs u) = d /\
  objects (fs_backend (dl_fs u)) = objects (Blob (w_stores w0)) /\
  exists done, done ++ running ++ selected todo ≡ₚ selected entries /\ files_done done (dl_world u).

Lemma selectEntry_ok pred e todo running u :
  (forall s, match pred with None => sel s = true | Some p => p s = Ok (sel s) end) -> files_ok (e :: todo) running u ->
  exists o u', selectEntry pred e u = (Ok o, u') /\ files_ok todo (running ++ option_list o) u'.
Proof.
  intros Hpred (Hb & Hf & Hc & Ho & done & Hperm & Hdone). unfold selected in Hperm. rewrite filter_cons in Hperm.
  exists (if sel (NameWithPath e) then Some e else None), u. split.
  - unfold selectEntry. specialize (Hpred (NameWithPath e)). destruct pred as [p|]; unfold mbind, M_bind, lift, mret, M_ret; by rewrite Hpred.
  - refine (conj Hb (conj Hf (conj Hc (conj Ho _)))). exists done. split; [|done]. rewrite <- Hperm.
    destruct (sel (NameWithPath e)); cbn [option_list].
    + rewrite decide_True by done. unfold selected. solve_Permutation.
    + rewrite decide_False by done. by rewrite app_nil_r.
Qed.

(** One download; the entry is one of those that were not there yet. *)

Lemma download_entry_ok e done x u r u' :
  dl_backend u = true -> fs_ok (dl_fs u) -> fs_conf (dl_fs u) = d -> objects (fs_backend (dl_fs u)) = objects (Blob (w_stores w0)) ->
  e ∈ entries -> NameWithPath e ∉ NameWithPath <$> done -> files_done done (dl_world u) ->
  downloadBundleEntrySync bundle x e u = Some (r, u') ->
  r = Ok tt /\ dl_backend u' = true /\ fs_ok (dl_fs u') /\ fs_conf (dl_fs u') = d /\
  objects (fs_backend (dl_fs u')) = objects (Blob (w_stores w0)) /\ files_done (e :: done) (dl_world u').
Proof.
  intros Hb Hf Hc Ho He Hnew (Hs & Hin & Hother) H. destruct (entries_fetchable e He) as (k & Hk & Hh).
  unfold downloadBundleEntrySync, downloadBundleEntrySyncMaybeOverwrite, mbind, R_bind, once, lift, readFile in H.
  rewrite Hk, (proj1 KeyFromString_correct k) in H by (by eapply holds_key). rewrite Hb in H. cbn [negb] in H.
  destruct (fs_Get x k (dl_fs u)) as [[r1 f1]|] eqn:E; [|done].
  rewrite <- Hc in d_whole. destruct (fs_Get_ok x k (cont e) (dl_fs u) r1 f1 Hf d_whole) as (-> & Hc1 & Hf1 & Ho1); [|exact E|].
  { rewrite Hc. by eapply holds_objects. }
  unfold in_download, consumableStore in H. rewrite dest_consumable in H. cbn [dl_world dl_fs dl_backend] in H.
  assert (Hfree : con (dl_world u) !! NameWithPath e = None) by (rewrite Hother by done; by apply names_free).
  change (M_bind unit unit (fun _ => Put (NameWithPath e) (NewReader (cont e)) NoOverWrite) (mret tt) (w_consumable (dl_world u)))
    with (Put (NameWithPath e) (NewReader (cont e)) NoOverWrite (w_consumable (dl_world u))) in H.
  pose proof (Put_total (NameWithPath e) (cont e) NoOverWrite (w_consumable (dl_world u)) (fun _ => Hfree)) as Hput.
  destruct (Put _ _ _ _) as [r2 c2] eqn:Ep. cbn in Hput. subst r2. apply Put_spec in Ep as [Ep _]. destruct (Ep eq_refl) as [Hc2 _].
  injection H as <- <-. cbn [dl_world dl_fs dl_backend]. refine (conj eq_refl (conj eq_refl (conj Hf1 (conj _ (conj _ (conj Hs (conj _ _))))))); cbn [w_stores w_consumable].
  - by rewrite Hc1.
  - by rewrite Ho1.
  - intros e' [->|He']%elem_of_cons; rewrite Hc2; [by rewrite lookup_insert_eq|]. rewrite lookup_insert_ne; [by apply Hin|].
    intros Heq. apply Hnew. rewrite Heq. apply list_elem_of_fmap. eauto.
  - intros p Hp. rewrite Hc2, lookup_insert_ne; [apply Hother; set_solver|]. set_solver.
Qed.

Lemma selected_distinct done running todo e run2 :
  done ++ (running ++ e :: run2) ++ selected todo ≡ₚ selected entries ->
  e ∈ entries /\ NameWithPath e ∉ NameWithPath <$> done.
Proof.
  intros Hperm. split.
  - assert (He : e ∈ selected entries) by (rewrite <- Hperm; set_solver). by apply list_elem_of_filter in He as [_ He].
  - assert (Hnd : NoDup (NameWithPath <$> selected entries)).
    { eapply sublist_NoDup; [exact names_distinct|]. apply fmap_sublist, sublist_filter. }
    rewrite <- Hperm, fmap_app in Hnd. apply NoDup_app in Hnd as (_ & Hnd & _). intros Hd. apply (Hnd _ Hd).
    apply list_elem_of_fmap. exists e. split; [done|]. set_solver.
Qed.

Lemma files_work_ok todo run1 e run2 u x r u' :
  files_ok todo (run1 ++ e :: run2) u -> downloadBundleEntrySync bundle x e u = Some (r, u') ->
  r = Ok tt /\ files_ok todo (run1 ++ run2) u'.
Proof.
  intros (Hb & Hf & Hc & Ho & done & Hperm & Hdone) H. destruct (selected_distinct _ _ _ _ _ Hperm) as [He Hnew].
  destruct (download_entry_ok e done x u r u' Hb Hf Hc Ho He Hnew Hdone H) as (-> & Hb' & Hf' & Hc' & Ho' & Hdone').
  split; [done|]. refine (conj Hb' (conj Hf' (conj Hc' (conj Ho' _)))). exists (e :: done). split; [|done].
  rewrite <- Hperm. solve_Permutation.
Qed.

Lemma files_live todo run1 e run2 u :
  files_ok todo (run1 ++ e :: run2) u -> exists x r u', downloadBundleEntrySync bundle x e u = Some (r, u').
Proof.
  intros (Hb & Hf & Hc & Ho & done & Hperm & Hdone). destruct (selected_distinct _ _ _ _ _ Hperm) as [He _].
  destruct (entries_fetchable e He) as (k & Hk & Hh). rewrite <- Hc in d_whole.
  destruct (fs_Get_live k (cont e) (dl_fs u) Hf d_whole) as (x & r & f & E). { rewrite Hc. by eapply holds_objects. }
  exists x. unfold downloadBundleEntrySync, downloadBundleEntrySyncMaybeOverwrite, mbind, R_bind, once, lift, readFile.
  rewrite Hk, (proj1 KeyFromString_correct k) by (by eapply holds_key). rewrite Hb, E. cbn [negb].
  destruct r; [|eauto..]. destruct (in_download _ _) as [r u']. eauto.
Qed.

End files.

Lemma New_download (bundle : Bundle) :
  (32 * 1024 <= bd_LeafSize (b_BundleDescriptor bundle) <= CafsFs.MaxLeafSize)%Z ->
  exists d, CafsFs.New (downloadOptions bundle) = Ok d /\ CafsFs.f_leafSize d = bd_LeafSize (b_BundleDescriptor bundle) /\
    CafsFs.f_prefix d = "" /\ CafsFs.f_leafTruncation d = (bd_Version (b_BundleDescriptor bundle) <? 1)%N.
Proof.
  intros HL. unfold CafsFs.New. cbn [downloadOptions fold_left]. eexists. rewrite !(proj2 (Z.ltb_ge _ _)), !(proj2 (Z.leb_gt _ _)).
  - split; [reflexivity|]. done.
  - done.
  - cbn. unfold CafsFs.BytesToBuffers. apply Z.div_str_pos. unfold CafsFs.MaxLeafSize, CafsFs.DefaultCacheSize, CafsFs.MiB in *. lia.
  - cbn. unfold KeySize. lia.
  - cbn. lia.
Qed.

(** A bundle in memory whose files can be fetched. *)

Definition download_ready (bundle : Bundle) (cont : BundleEntry -> bytes) (w : world S C) : Prop :=
  let bd := b_BundleDescriptor bundle in
  b_context bundle = true /\ b_consumable bundle = true /\ (1 <= bd_Version bd)%N /\
  (32 * 1024 <= bd_LeafSize bd <= CafsFs.MaxLeafSize)%Z /\ blobs_ok (Blob (w_stores w)) /\
  NoDup (NameWithPath <$> b_BundleEntries bundle) /\
  (forall e, e ∈ b_BundleEntries bundle -> con w !! NameWithPath e = None) /\
  (forall e, e ∈ b_BundleEntries bundle -> fetchable (Z.to_nat (bd_LeafSize bd)) (Blob (w_stores w)) (cont e) e).

Lemma unpackDataFiles_run bundle pred sel now cont (w : world S C) :
  download_ready bundle cont w -> (forall s, match pred with None => sel s = true | Some p => p s = Ok (sel s) end) ->
  every_run (fun es => unpackDataFiles bundle None pred now [] [] es []) w (fun _ w' =>
    files_done w cont (selected sel (b_BundleEntries bundle)) w').
Proof.
  intros (Hctx & Hcon & Hver & HL & Hblobs & Hnd & Hfree & Hfetch) Hpred.
  destruct (New_download bundle HL) as (d & Hd & Hls & Hp & Htr).
  assert (Htr' : CafsFs.f_leafTruncation d = false) by (rewrite Htr; apply N.ltb_ge; lia).
  assert (HL' : (32 * 1024 <= CafsFs.f_leafSize d < 2 ^ 32)%Z) by (rewrite Hls; unfold CafsFs.MaxLeafSize, CafsFs.MiB in HL; lia).
  rewrite <- Hls in Hfetch. fold (CafsFs.leafSize d) in Hfetch.
  set (u0 := mkDownloading w (fs_open d (Blob (w_stores w))) (b_context bundle)).
  assert (Hstart : files_ok bundle w d sel cont (b_BundleEntries bundle) [] u0).
  { refine (conj Hctx (conj _ (conj _ (conj _ _)))); cbn.
    - by apply fs_open_ok.
    - by rewrite fs_open_conf.
    - by rewrite fs_open_backend.
    - exists []. split; [done|]. split; [done|]. split; [|done]. intros e He. by apply not_elem_of_nil in He. }
  pose proof (every_pool (Z.to_nat (Z.max 1 (b_concurrentFileDownloads bundle))) (selectEntry pred) (downloadBundleEntrySync bundle)
    (files_ok bundle w d sel cont) (b_BundleEntries bundle) u0) as Hpool.
  unfold unpackDataFiles. apply every_then_once. destruct Hpool as [Hsafe (es & r & u & E)]; [| | |lia|exact Hstart|].
  - intros e todo running u. by apply selectEntry_ok.
  - intros todo run1 e run2 u x r u'. by apply files_work_ok.
  - intros todo run1 e run2 u. by apply files_live.
  - unfold every_run, with_fs. rewrite Hd. fold u0. split.
    + intros es' r' w' H. destruct (downloadBundleEntries bundle pred None [] [] es' u0) as [[r1 u1]|] eqn:E'; [|done].
      destruct (Hsafe _ _ _ E') as ([] & -> & Hb & Hf & Hc & Ho & done & Hperm & Hs & Hin & Hother). injection H as <- <-.
      cbn in Hperm. rewrite app_nil_r in Hperm. exists tt. split; [done|]. eexists _, _. split; [reflexivity|].
      unfold files_done. cbn [w_stores w_consumable]. split; [|split].
      * destruct Hs as (? & ? & ? & ? & ?). refine (conj _ (conj _ (conj _ (conj _ _)))); done.
      * intros e He. apply Hin. by rewrite Hperm.
      * intros p Hp'. apply Hother. by rewrite Hperm.
    + exists es. change (downloadBundleEntries bundle pred None [] [] es u0) with
        (pool_run (Z.to_nat (Z.max 1 (b_concurrentFileDownloads bundle))) (selectEntry pred) (downloadBundleEntrySync bundle) es (b_BundleEntries bundle) [] u0).
      rewrite E. eauto.
Qed.

(** ** Publish *)

(** What publishing the entries that [sel] selects leaves in a consumable store. *)

Definition published (bundle : Bundle) (entries : list BundleEntry) (sel : string -> bool) (cont : BundleEntry -> bytes)
    (w w' : world S C) : Prop :=
  let id := b_BundleID bundle in let repo := b_RepoID bundle in let m := nchunks defaultBundleEntriesPerFile entries in
  same_objects (w_stores w) (w_stores w') /\
  con w' !! consumable_descriptor id = meta w !! GetArchivePathToBundle repo id /\
  (forall j, j < m -> con w' !! consumable_list id (N.of_nat j) = meta w !! GetArchivePathToBundleFileList repo id (N.of_nat j)) /\
  (forall e, e ∈ selected sel entries -> con w' !! NameWithPath e = Some (cont e)) /\
  (forall p, p <> consumable_descriptor id -> (forall j, j < m -> p <> consumable_list id (N.of_nat j)) ->
     p ∉ NameWithPath <$> selected sel entries -> con w' !! p = con w !! p).

(** An archived bundle, and a consumable store that has none of its files. *)

Definition publish_ready (bundle : Bundle) (bd : BundleDescriptor) (entries : list BundleEntry) (cont : BundleEntry -> bytes)
    (w : world S C) : Prop :=
  let id := b_BundleID bundle in
  b_context bundle = true /\ b_consumable bundle = true /\ (0 < b_concurrentFilelistDownloads bundle)%Z /\
  id <> "" /\ plain_id id /\ bundle_with (Metadata (w_stores w)) (b_RepoID bundle) id bd entries /\
  (1 <= bd_Version bd)%N /\ (32 * 1024 <= bd_LeafSize bd <= CafsFs.MaxLeafSize)%Z /\ blobs_ok (Blob (w_stores w)) /\
  con w !! consumable_descriptor id = None /\ (forall i, con w !! consumable_list id i = None) /\
  NoDup (NameWithPath <$> entries) /\
  (forall e, e ∈ entries -> IsGeneratedFile (NameWithPath e) = false /\ con w !! NameWithPath e = None /\
     fetchable (Z.to_nat (bd_LeafSize bd)) (Blob (w_stores w)) (cont e) e) /\
  (Z.of_nat (nchunks defaultBundleEntriesPerFile entries * defaultBundleEntriesPerFile) < 2 ^ 63)%Z.

Lemma not_generated_metadata e id i :
  IsGeneratedFile e = false -> e <> consumable_descriptor id /\ e <> consumable_list id i.
Proof. intros H. destruct (consumable_generated id i) as [H1 H2]. split; intros ->; congruence. Qed.

Lemma implPublish_run now pred sel bundle bd entries cont (w : world S C) :
  publish_ready bundle bd entries cont w -> (forall s, match pred with None => sel s = true | Some p => p s = Ok (sel s) end) ->
  every_run (fun es => implPublish defaultBundleEntriesPerFile pred now es bundle) w (fun b w' =>
    b = unpacked bundle bd entries /\ published bundle entries sel cont w w').
Proof.
  intros (Hctx & Hcon & Hcap & Hne & Hid & Hbw & Hver & HL & Hblobs & Hfd & Hfl & Hnd & He & Hbig) Hpred.
  unfold implPublish. apply every_wrap.
  apply (every_bind (fun e1 => implPublishMetadata true defaultBundleEntriesPerFile e1 bundle)
           (fun e2 b => _ ← unpackDataFiles b None pred now [] [] e2 []; once (mret b))).
  eapply every_mono; [by apply publish_metadata_run|]. intros b w1 (-> & Hs & Hd & Hl & Hother).
  apply (every_then_once (fun e2 => unpackDataFiles (unpacked bundle bd entries) None pred now [] [] e2 [])).
  eapply every_mono; [apply (unpackDataFiles_run _ pred sel now cont)|]; [|done|].
  - refine (conj Hctx (conj Hcon (conj _ (conj HL (conj _ (conj Hnd (conj _ _))))))); cbn.
    + case_decide; [lia|done].
    + eapply blobs_ok_objects; [|exact Hblobs]. by destruct Hs as (_ & _ & ? & _).
    + intros e Hin. destruct (He e Hin) as (Hg & Hfree & _). rewrite Hother; [done| |].
      * by destruct (not_generated_metadata _ (b_BundleID bundle) 0 Hg).
      * intros j _. by destruct (not_generated_metadata _ (b_BundleID bundle) (N.of_nat j) Hg).
    + intros e Hin. destruct (He e Hin) as (_ & _ & k & Hk & Hh). exists k. split; [done|]. eapply holds_objects; [|exact Hh].
      by destruct Hs as (_ & _ & ? & _).
  - intros [] w2 (Hs2 & Hin & Hother2). eexists _, _. split; [reflexivity|]. split; [done|].
    assert (Hgen : forall p, IsGeneratedFile p = true -> con w2 !! p = con w1 !! p).
    { intros p Hp. apply Hother2. intros (e & -> & Hel)%list_elem_of_fmap. apply list_elem_of_filter in Hel as [_ Hel].
      destruct (He e Hel) as (Hg & _). congruence. }
    refine (conj _ (conj _ (conj _ (conj Hin _)))).
    + by etrans.
    + rewrite Hgen; [done|]. apply (consumable_generated _ 0).
    + intros j Hj. rewrite Hgen; [by apply Hl|]. apply consumable_generated.
    + intros p Hp1 Hp2 Hp3. rewrite Hother2 by done. by apply Hother.
Qed.

(** C5: Publish restores an archived bundle: on working stores, in whatever order its
    goroutines run, it succeeds, and then the consumable store has the descriptor
    and the index files of the bundle, and under the name of each entry the
    content that the blob store holds for it; every other file and all the stores
    of the context are as they were; the bundle in memory has the entries in
    their order. Such an execution exists. *)
Theorem Publish_correct now bundle bd entries cont (w : world S C) :
  publish_ready bundle bd entries cont w ->
  every_run (fun es => Publish now es bundle) w (fun b w' =>
    b = unpacked bundle bd entries /\ published bundle entries (fun _ => true) cont w w').
Proof. intros Hr. by apply implPublish_run. Qed.

(** ** Round trip *)

Lemma nchunks_mul n (l : list BundleEntry) : 0 < n -> nchunks n l * n <= length l + n.
Proof.
  intros Hn. unfold nchunks. pose proof (Nat.div_mod (length l + n - 1) n ltac:(lia)). pose proof (Nat.mod_upper_bound (length l + n - 1) n ltac:(lia)). lia.
Qed.

Lemma selected_all es : selected (fun _ => true) es = es.
Proof. unfold selected. induction es as [|e es IH]; [done|]. rewrite filter_cons, decide_True by done. by rewrite IH. Qed.

(** What was uploaded can be downloaded to an empty store. *)

Lemma uploaded_publish_ready (ub pb : Bundle) id (w w' : world S C) c0 b' files entries :
  let bd := b_BundleDescriptor b' in
  upload_ready ub w -> (1 <= bd_Version (b_BundleDescriptor ub))%N -> plain_id id -> id <> "" ->
  b_context pb = true -> b_consumable pb = true -> (0 < b_concurrentFilelistDownloads pb)%Z ->
  b_RepoID pb = b_RepoID ub -> b_BundleID pb = id -> objects c0 = ∅ ->
  (forall k, k ∈ files <-> is_Some (con w !! k)) -> (Z.of_nat (length files) + 1000 < 2 ^ 63)%Z ->
  bd = descriptor_with_count (descriptor_with_ID (b_BundleDescriptor ub) id) (N.of_nat (nchunks defaultBundleEntriesPerFile entries)) ->
  bundle_with (Metadata (w_stores w')) (b_RepoID ub) id bd entries ->
  uploads_all (con w) (NameWithPath <$> entries) ->
  Forall (archived (Z.to_nat (bd_LeafSize (b_BundleDescriptor ub))) (con w) (Blob (w_stores w'))) entries ->
  blobs_ok (Blob (w_stores w')) ->
  publish_ready pb bd entries (fun e => default [] (con w !! NameWithPath e)) (mkWorld (w_stores w') c0).
Proof.
  intros bd Hup Hver Hpl Hne Hctx Hcon Hcap Hrepo Hid Hc0 Hfiles Hfew Hbd Hbw [Hnd Hnames] Har Hblobs.
  destruct Hup as (_ & _ & _ & _ & _ & HL & _). unfold publish_ready. cbn [w_stores w_consumable]. rewrite Hid, Hrepo, Hc0, Hbd. rewrite Hbd in Hbw.
  cbn [bd_LeafSize bd_Version descriptor_with_count descriptor_with_ID].
  refine (conj Hctx (conj Hcon (conj Hcap (conj Hne (conj Hpl (conj Hbw (conj Hver (conj HL (conj Hblobs (conj _ (conj _ (conj Hnd (conj _ _))))))))))))).
  - apply lookup_empty.
  - intros i. apply lookup_empty.
  - intros e He. assert (Hn : NameWithPath e ∈ NameWithPath <$> entries) by (apply list_elem_of_fmap; eauto).
    apply Hnames in Hn as [Hg _]. split; [done|]. split; [apply lookup_empty|]. rewrite Forall_forall in Har.
    destruct (Har e He) as (k & c & Hk & Hh & _ & Hold). exists k. rewrite Hk. done.
  - assert (Hlen : length (NameWithPath <$> entries) <= length files).
    { apply submseteq_length, NoDup_submseteq; [done|]. intros k Hk%Hnames. apply Hfiles. apply Hk. }
    rewrite length_fmap in Hlen. pose proof (nchunks_mul defaultBundleEntriesPerFile entries per_file_pos) as Hm.
    set (x := nchunks defaultBundleEntriesPerFile entries * defaultBundleEntriesPerFile) in *. clearbody x.
    unfold defaultBundleEntriesPerFile in Hm. lia.
Qed.

(** C1: What is uploaded comes back: after Upload of a consumable store, Publish of
    the new bundle to an empty consumable store restores every file that datamon
    did not generate, with its content, and adds no other such file; whatever
    the interleavings of the two operations. *)
Theorem Upload_Publish_roundtrip parse files random id now (ub pb : Bundle) (w : world S C) (c0 : C) :
  upload_ready ub w -> fresh_bundle (Metadata (w_stores w)) (b_RepoID ub) id -> id <> "" ->
  is_Some (meta w !! GetArchivePathToRepoDescriptor (b_RepoID ub)) ->
  (if decide (b_BundleID ub = "") then random else parse (b_BundleID ub)) = Ok id ->
  (Keys (w_consumable w)).1 = Ok files -> (Z.of_nat (length files) + 1000 < 2 ^ 63)%Z ->
  (1 <= bd_Version (b_BundleDescriptor ub))%N -> plain_id id ->
  b_context pb = true -> b_consumable pb = true -> (0 < b_concurrentFilelistDownloads pb)%Z ->
  b_RepoID pb = b_RepoID ub -> b_BundleID pb = id -> objects c0 = ∅ ->
  every_run (fun es => Upload parse random es ub) w (fun _ w' =>
    every_run (fun es => Publish now es pb) (mkWorld (w_stores w') c0) (fun _ w'' =>
      forall k, IsGeneratedFile k = false -> con w'' !! k = con w !! k)).
Proof.
  intros Hready Hfresh Hne Hrepo Hidr Hk Hfew Hver Hpl Hctx Hcon Hcap Hpr Hpid Hc0.
  assert (Hfiles : forall k, k ∈ files <-> is_Some (con w !! k)).
  { destruct (Keys (w_consumable w)) as [rk ck] eqn:E. apply Keys_spec in E as [_ Hkeys]. by apply Hkeys. }
  eapply every_mono; [eapply Upload_run; [done..|lia]|].
  intros b' w' (entries & Hbd & Hbw & Hnames & Har & _ & _ & _ & Hblobs & _).
  pose proof (uploaded_publish_ready ub pb id w w' c0 b' files entries) as Hpub.
  eapply every_mono; [eapply (implPublish_run now _ (fun _ => true)); [by apply Hpub|by intros s]|].
  intros b w'' (_ & _ & _ & _ & Hin & Hother) k Hg. rewrite selected_all in Hin, Hother. cbn [w_consumable] in Hother.
  destruct Hnames as [_ Hnames]. destruct (con w !! k) as [c|] eqn:Hc.
  - assert (Hkn : k ∈ NameWithPath <$> entries) by (apply Hnames; rewrite Hc; eauto).
    apply list_elem_of_fmap in Hkn as (e & -> & He). by rewrite (Hin e He), Hc.
  - rewrite Hother, Hc0; [apply lookup_empty| | |].
    + by destruct (not_generated_metadata k (b_BundleID pb) 0 Hg).
    + intros j _. by destruct (not_generated_metadata k (b_BundleID pb) (N.of_nat j) Hg).
    + intros [_ [? Hs]]%Hnames. congruence.
Qed.

(** ** Limits *)

(** With ConcurrentFilelistDownloads(0) the index files of a bundle are never
    read: no execution of the download of the metadata of a bundle that has
    files ends. *)
Theorem unpackBundleFileList_hangs publish n es (bundle : Bundle) (w : world S C) :
  b_concurrentFilelistDownloads bundle = 0%Z -> (0 < bd_BundleEntriesFileCount (b_BundleDescriptor bundle))%N ->
  (Int.uint64 (Z.of_N (bd_BundleEntriesFileCount (b_BundleDescriptor bundle)) * Z.of_nat n) < 2 ^ 63)%Z ->
  unpackBundleFileList publish n es bundle w = None.
Proof.
  intros Hcap Hcount Hmax. unfold unpackBundleFileList. rewrite Hcap. cbn [Z.ltb Z.compare Z.to_nat].
  rewrite (proj2 (Z.leb_gt _ _)) by lia.
  destruct (N.to_nat (bd_BundleEntriesFileCount (b_BundleDescriptor bundle))) as [|m] eqn:E; [lia|]. cbn [seq fmap list_fmap].
  rewrite pool_blocked; [done|done|]. intros st. by eexists _, _.
Qed.

(** A descriptor of version 0 has no version field, and is decoded over the
    descriptor of the bundle in memory, which NewBundle gives the current
    version: the version 0 is lost, and with it the truncation of the leaves
    that the file system applies to such bundles. *)
Theorem version_zero_is_lost (bundle : Bundle) bd (w : world S C) :
  b_context bundle = true -> bd_Version (b_BundleDescriptor bundle) = CurrentBundleVersion ->
  document (Metadata (w_stores w)) (GetArchivePathToBundle (b_RepoID bundle) (b_BundleID bundle)) bd -> bd_Version bd = 0%N ->
  runs (unpackBundleDescriptor false bundle) w (fun b _ =>
    bd_Version (b_BundleDescriptor b) = CurrentBundleVersion /\
    forall d, CafsFs.New (downloadOptions b) = Ok d -> CafsFs.f_leafTruncation d = false).
Proof.
  intros Hctx Hv (buf & Hbuf & Hun) H0. unfold unpackBundleDescriptor. rewrite Hctx. apply runs_bind, runs_bind, runs_context; [done|].
  apply runs_meta, runs_Has. intros s1 Ho1. rewrite bool_decide_true by (rewrite Hbuf; eauto). cbn [negb].
  apply runs_context; [done|]. apply runs_meta. eapply runs_Get; [cbn; by rewrite Ho1|]. intros s2 Ho2. cbn.
  apply runs_bind. eapply runs_lift; [exact Hun|]. apply runs_ret. cbn [b_BundleDescriptor set_descriptor unmarshalOnto bd_Version].
  rewrite decide_True by done. split; [done|]. intros d Hd. unfold CafsFs.New in Hd. cbn [downloadOptions fold_left] in Hd.
  repeat case_match; simplify_eq. cbn. rewrite decide_True by done. by rewrite Hv.
Qed.

(** The search for the descriptor gives up at the first key that is no metadata,
    although the keys of a consumable store are the files of the bundle, too: a
    file that is listed before the directory .datamon hides the descriptor. *)
Theorem setBundleID_stops_at_files (bundle : Bundle) (w : world S C) k keys :
  b_consumable bundle = true -> (Keys (w_consumable w)).1 = Ok (k :: keys) -> metaRe k = None ->
  exists e w', setBundleIDFromConsumableStore bundle w = (Err e, w').
Proof.
  intros Hcon Hk Hm. unfold setBundleIDFromConsumableStore, consumableStore, mbind, M_bind, lift. rewrite Hcon.
  destruct (Keys (w_consumable w)) as [r c]. cbn in Hk. subst r. cbn [findBundleID].
  unfold getBundleIDFromPath, GetConsumableStorePathMetadata. rewrite Hm. cbn. eauto.
Qed.

End publish.

(** ** Download to a local directory *)

Section local.
Context {S F A : Type} `{HS : !Store S, HF : !Cafs S F} `{HA : !Localfs.Afero A, HAL : !Localfs.AferoLaws A}.
Variables (attempts : nat) (again : source -> source).

#[local] Instance directory_store : Store (Localfs.localFS A) := Localfs.local_Store attempts again.

(** A download to a local directory reports success although the blobs could not
    be read: when the reader of an entry breaks off with an error, because a leaf
    is missing, say, the part of the content that was copied becomes the file,
    and the download of the entry succeeds. *)
Theorem download_hides_read_errors (bundle : Bundle) x e k d err f (u : downloading S (Localfs.localFS A) F) a1 a2 a3 :
  let name := NameWithPath e in let fs := Localfs.l_fs (w_consumable (dl_world u)) in
  b_consumable bundle = true -> dl_backend u = true -> KeyFromString (Hash e) = Ok k ->
  fs_Get x k (dl_fs u) = Some (Ok (Source d (Some err)), f) ->
  (if decide (Localfs.Dir name <> "") then Localfs.af_MkdirAll (Localfs.Dir name) fs = (Ok tt, a1) else a1 = fs) ->
  Localfs.af_OpenFile name true a1 = (Ok tt, a2) -> Localfs.af_Write name d a2 = (Ok tt, a3) ->
  (forall a, (Localfs.af_Close name a).1 = Ok tt) -> (forall d a p, (Localfs.af_Write name d a).1 <> Panic p) ->
  exists u', downloadBundleEntrySync bundle x e u = Some (Ok tt, u') /\
    Localfs.files (Localfs.l_fs (w_consumable (dl_world u'))) !! name = Some d.
Proof.
  intros name fs Hcon Hb Hk Hget Hm Ho Hw Hc Hp.
  destruct (Localfs.local_Put_opened attempts again name (Source d (Some err)) true (w_consumable (dl_world u)) a1 a2 Hm Ho Hc Hp)
    as (l' & Hput & Hfile). specialize (Hfile a3 Hw).
  unfold downloadBundleEntrySync, downloadBundleEntrySyncMaybeOverwrite, mbind, R_bind, once, lift, readFile.
  rewrite Hk, Hb. cbn [negb]. rewrite Hget. unfold in_download, consumableStore. rewrite Hcon. cbn [dl_world dl_fs dl_backend].
  eexists. split.
  - unfold M_bind, mret, M_ret. cbn [Put directory_store Localfs.local_Store]. fold name. change NoOverWrite with true. rewrite Hput. reflexivity.
  - exact Hfile.
Qed.

End local.

End CorePublish.
