(* ===== verification/CorePublishWitness.v ===== *)
(** * A concrete directory for the theorems of CoreUpload and CorePublish

    Three files: one with three bytes, an empty one, and one that datamon
    generated; leaves of 32 KiB, the hash of CafsKeys.v, finite maps for the
    stores and the cache. *)

From S2P Require Import Prelude GoLib Errors Storage Localfs Model CafsKeys CafsFlush Lru CafsFs CafsIface CafsWitness CoreMeta Pool StoreRules CoreIndex CoreRepo CoreBundle CoreUpload CoreDownload CorePublish.

Module CorePublishWitness.
Import Model Storage CafsKeys CafsFlush Lru CafsIface CoreMeta Pool StoreRules CoreIndex CoreRepo CoreBundle CoreUpload CoreDownload CorePublish.

#[local] Existing Instance numbered_yaml.

#[local] Existing Instance numbered_yaml_laws.

#[local] Existing Instance toy_blake2b.

#[local] Existing Instance toy_blake2b_laws.

Abbreviation store := (gmap string bytes).

Definition three_bytes : bytes := [Byte.x01; Byte.x02; Byte.x03].

Definition directory : store := <["a/x" := three_bytes]> (<["b" := []]> {[".datamon/old.yaml" := [Byte.x09]]}).

Definition leaf : Z := 32 * 1024.

Definition universe (L : nat) (c : bytes) : Prop := L = Z.to_nat leaf /\ c ∈ [three_bytes; []].

Definition universe_blobs : list (string * bytes) := mbind (objectBlobs "" (Z.to_nat leaf)) [three_bytes; []].

Lemma universe_functional : functional universe_blobs.
Proof. apply CafsWitness.functional_NoDup. apply (bool_decide_unpack _). vm_compute. exact I. Qed.

Lemma universe_no_collision L c L' c' p x x' : universe L c -> universe L' c' ->
  (p, x) ∈ objectBlobs "" L c -> (p, x') ∈ objectBlobs "" L' c' -> x = x'.
Proof.
  intros [-> Hc] [-> Hc'] H H'. apply (universe_functional p); apply list_elem_of_bind; eauto.
Qed.

Definition no_keys : gmap Key (list Key) := ∅.

#[local] Instance the_cafs : Cafs store (fsState store (gmap Key (list Key))) := impl_Cafs no_keys.

#[local] Instance the_laws : CafsLaws store (fsState store (gmap Key (list Key))) :=
  impl_CafsLaws no_keys universe (fun k => lookup_empty k) universe_no_collision.

Definition descriptor : BundleDescriptor := mkBundleDescriptor leaf "" "first" [] 1%Z [] 0 2 "blake" "".

Definition source_bundle : Bundle :=
  NewBundle 1%Z [WithBundleDescriptor (Some descriptor); Repo "r"; ContextStores true; ConsumableStore true].

Definition target_bundle : Bundle :=
  NewBundle 1%Z [Repo "r"; ContextStores true; ConsumableStore true; BundleID "1INzQ5TV4vAAfU2PbRFgPfnzEwR"].

Definition id : string := "1INzQ5TV4vAAfU2PbRFgPfnzEwR".

Definition start : world store store :=
  mkWorld (NewStores ∅ ∅ ∅ {[GetArchivePathToRepoDescriptor "r" := []]} ∅) directory.

Lemma start_ready : upload_ready source_bundle start.
Proof.
  refine (conj eq_refl (conj eq_refl (conj eq_refl (conj _ (conj eq_refl (conj _ (conj _ _))))))).
  - done.
  - cbn. unfold leaf, CafsFs.MaxLeafSize, CafsFs.MiB. lia.
  - intros L c _ p x _. left. exact (lookup_empty (M := gmap string) p).
  - intros k c Hk Hg. split; [done|]. unfold start, directory in Hk. cbn in Hk.
    apply lookup_insert_Some in Hk as [[_ <-]|[_ Hk]]; [set_solver|]. apply lookup_insert_Some in Hk as [[_ <-]|[_ Hk]]; [set_solver|].
    apply lookup_singleton_Some in Hk as [<- _]. done.
Qed.

Lemma start_fresh : fresh_bundle (Metadata (w_stores start)) "r" id.
Proof.
  split; [done|]. intros i. apply lookup_singleton_ne. unfold GetArchivePathToBundleFileList, GetArchivePathToRepoDescriptor.
  intros H. by apply (f_equal (String.get 0)) in H.
Qed.

Definition parse_ok (s : string) : res string := Ok s.

Definition file_names : list string := (map_to_list directory).*1.

Lemma Upload_correct_witness :
  every_run (fun es => Upload parse_ok (Ok id) es source_bundle) start (fun b' w' => exists entries,
    bundle_with (Metadata (w_stores w')) "r" id (b_BundleDescriptor b') entries /\ length entries = 2).
Proof.
  eapply every_mono; [apply (Upload_correct parse_ok file_names (Ok id) id source_bundle start)|].
  - exact start_ready.
  - exact start_fresh.
  - done.
  - by eexists.
  - done.
  - done.
  - vm_compute. done.
  - intros b' w' (entries & Hb & Hnd & Hin & _). exists entries. split; [exact Hb|].
    assert (Hp : NameWithPath <$> entries ≡ₚ ["a/x"; "b"]).
    { apply NoDup_Permutation; [done|apply (bool_decide_unpack _); vm_compute; exact I|]. intros k. rewrite Hin. split.
      - intros [Hg [c Hk]]. unfold start, directory in Hk. cbn in Hk.
        apply lookup_insert_Some in Hk as [[<- _]|[_ Hk]]; [set_solver|]. apply lookup_insert_Some in Hk as [[<- _]|[_ Hk]]; [set_solver|].
        apply lookup_singleton_Some in Hk as [<- _]. done.
      - intros Hk. apply elem_of_cons in Hk as [->|Hk%list_elem_of_singleton]; [|subst k]; (split; [reflexivity|by eexists]). }
    apply Permutation_length in Hp. by rewrite length_fmap in Hp.
Defined.

Lemma Upload_Publish_roundtrip_witness :
  every_run (fun es => Upload parse_ok (Ok id) es source_bundle) start (fun _ w' =>
    every_run (fun es => Publish 1%Z es target_bundle) (mkWorld (w_stores w') (∅ : store)) (fun _ w'' =>
      objects (w_consumable w'') !! "a/x" = Some three_bytes /\ objects (w_consumable w'') !! "b" = Some [])).
Proof.
  eapply every_mono; [apply (Upload_Publish_roundtrip parse_ok file_names (Ok id) id 1%Z source_bundle target_bundle start ∅)|].
  - exact start_ready.
  - exact start_fresh.
  - done.
  - by eexists.
  - done.
  - done.
  - vm_compute. done.
  - done.
  - done.
  - done.
  - done.
  - done.
  - done.
  - done.
  - done.
  - intros b w' H. eapply every_mono; [exact H|]. intros b2 w'' Hk. split; by rewrite Hk.
Defined.

(** An archive with one bundle of one file. *)

Definition one_entry : list BundleEntry :=
  [mkBundleEntry (Key_String (rootKey (Z.to_nat leaf) three_bytes)) "a/x" 0%Z 3%Z Time.zero].

Definition one_descriptor : BundleDescriptor := mkBundleDescriptor leaf id "first" [] 1%Z [] 1 2 "blake" "".

Definition one_blobs : list (string * bytes) := objectBlobs "" (Z.to_nat leaf) three_bytes.

Definition archive : world store store :=
  mkWorld (NewStores ∅ ∅ (list_to_map one_blobs)
    (<[GetArchivePathToBundle "r" id := put_positive (encode one_descriptor)]>
      {[GetArchivePathToBundleFileList "r" id 0 := put_positive (encode one_entry)]}) ∅) ∅.

Lemma one_blobs_stored : stored one_blobs (objects (Blob (w_stores archive))).
Proof.
  intros p c Hin. change ((list_to_map one_blobs : store) !! p = Some c). apply elem_of_list_to_map_1; [|exact Hin].
  apply (bool_decide_unpack _). vm_compute. exact I.
Qed.

Lemma three_bytes_known : universe (Z.to_nat leaf) three_bytes.
Proof. split; [reflexivity|apply list_elem_of_here]. Qed.

Lemma archive_intact L c : universe L c -> intact (objectBlobs "" L c) (objects (Blob (w_stores archive))).
Proof.
  intros [-> Hc] p x Hin. destruct (objects (Blob (w_stores archive)) !! p) as [y|] eqn:E; [|by left]. right. right. f_equal.
  apply elem_of_list_to_map_2 in E.
  exact (universe_no_collision _ _ _ _ p y x three_bytes_known (conj eq_refl Hc) E Hin).
Qed.

Lemma archive_ready : publish_ready target_bundle one_descriptor one_entry (fun _ => three_bytes) archive.
Proof.
  refine (conj eq_refl (conj eq_refl (conj eq_refl (conj _ (conj _ (conj _ (conj _ (conj _ (conj archive_intact
    (conj eq_refl (conj _ (conj _ (conj _ _))))))))))))).
  - done.
  - done.
  - refine (conj _ (conj eq_refl (conj eq_refl _))).
    + eexists. split; [apply lookup_insert_eq|apply numbered_Unmarshal].
    + intros j Hj. change (j < 1) in Hj. assert (j = 0) as -> by lia. eexists.
      split; [|apply (numbered_Unmarshal one_entry)]. reflexivity.
  - cbn. lia.
  - cbn. unfold leaf, CafsFs.MaxLeafSize, CafsFs.MiB. lia.
  - intros i. exact (lookup_empty (M := gmap string) _).
  - apply NoDup_singleton.
  - intros e ->%list_elem_of_singleton. refine (conj eq_refl (conj eq_refl _)). exists (rootKey (Z.to_nat leaf) three_bytes).
    split; [reflexivity|]. exact (conj three_bytes_known (conj eq_refl one_blobs_stored)).
  - done.
Qed.

Lemma Publish_correct_witness :
  every_run (fun es => Publish 1%Z es target_bundle) archive (fun _ w' => objects (w_consumable w') !! "a/x" = Some three_bytes).
Proof.
  eapply every_mono; [apply (Publish_correct 1%Z target_bundle one_descriptor one_entry (fun _ => three_bytes) archive); exact archive_ready|].
  intros b w' (_ & _ & _ & _ & Hin & _). apply (Hin (mkBundleEntry (Key_String (rootKey (Z.to_nat leaf) three_bytes)) "a/x" 0%Z 3%Z Time.zero)).
  apply list_elem_of_filter. split; [done|]. apply list_elem_of_here.
Defined.

(** ** Limits *)

Lemma unpackBundleFileList_hangs_witness :
  unpackBundleFileList true 1000 [Start; Finish 0 tt]
    (ConcurrentFilelistDownloads 0 (set_descriptor target_bundle one_descriptor)) archive = None.
Proof. apply unpackBundleFileList_hangs; [reflexivity|reflexivity|reflexivity]. Defined.

Definition old_descriptor : BundleDescriptor := mkBundleDescriptor leaf id "first" [] 1%Z [] 0 0 "blake" "".

Definition old_archive : world store store :=
  mkWorld (NewStores ∅ ∅ ∅ {[GetArchivePathToBundle "r" id := put_positive (encode old_descriptor)]} ∅) ∅.

Lemma version_zero_is_lost_witness :
  runs (unpackBundleDescriptor false target_bundle) old_archive (fun b _ => bd_Version (b_BundleDescriptor b) = 2%N).
Proof.
  eapply runs_mono; [apply (version_zero_is_lost target_bundle old_descriptor old_archive)|].
  - reflexivity.
  - reflexivity.
  - eexists. split; [apply lookup_singleton_eq|apply (numbered_Unmarshal old_descriptor)].
  - reflexivity.
  - intros b w' [Hv _]. exact Hv.
Defined.

(** A file of a conflict. *)

Definition conflict_only : world store store :=
  mkWorld (NewStores ∅ ∅ ∅ ∅ ∅) {[".conflicts/s/a" := three_bytes]}.

Lemma setBundleID_stops_at_files_witness :
  exists e w', setBundleIDFromConsumableStore target_bundle conflict_only = (Err e, w').
Proof. apply (setBundleID_stops_at_files target_bundle conflict_only ".conflicts/s/a" []); reflexivity. Defined.

(** ** A missing leaf *)

Definition root_only : store :=
  {[Key_String (rootKey 2 three_bytes) := rootContent (rootKey 2 three_bytes) (leafKeys 2 three_bytes)]}.

Definition small_fs : CafsFs.defaultFs := CafsFs.LeafSize 2 CafsFs.defaultsForFs.

Definition empty_directory : Localfs.localFS store := Localfs.New ∅ [].

#[local] Existing Instance Localfs.mem_afero.

#[local] Existing Instance Localfs.mem_afero_laws.

Definition half_gone : downloading store (Localfs.localFS store) (fsState store (gmap Key (list Key))) :=
  mkDownloading (mkWorld (NewStores ∅ ∅ root_only ∅ ∅) empty_directory) (fs_open small_fs root_only) true.

Definition the_entry : BundleEntry := mkBundleEntry (Key_String (rootKey 2 three_bytes)) "a/x" 0%Z 3%Z Time.zero.

Lemma fst_Some {A B} (o : option (A * B)) a : fst <$> o = Some a -> exists b, o = Some (a, b).
Proof. destruct o as [[a' b]|]; [|done]. intros [= ->]. eauto. Qed.

Lemma download_hides_read_errors_witness :
  exists u', @downloadBundleEntrySync store (Localfs.localFS store) (fsState store (gmap Key (list Key)))
      (directory_store 3 (fun s => s)) the_cafs target_bundle [1; 0] the_entry half_gone = Some (Ok tt, u') /\
    Localfs.files (Localfs.l_fs (w_consumable (dl_world u'))) !! "a/x" = Some [].
Proof.
  assert (Hg : exists f, @fs_Get store (fsState store (gmap Key (list Key))) the_cafs [1; 0] (rootKey 2 three_bytes) (dl_fs half_gone)
                         = Some (Ok (Source [] (Some StorageStatus.ErrNotExists)), f)).
  { apply fst_Some. vm_compute. reflexivity. }
  destruct Hg as [f Hg].
  eapply (download_hides_read_errors (HF := the_cafs) 3 (fun s => s) target_bundle [1; 0] the_entry (rootKey 2 three_bytes) []
            StorageStatus.ErrNotExists f half_gone ∅ (<["a/x" := []]> ∅) (<["a/x" := []]> ∅)).
  - reflexivity.
  - reflexivity.
  - vm_compute. reflexivity.
  - exact Hg.
  - reflexivity.
  - reflexivity.
  - vm_compute. reflexivity.
  - reflexivity.
  - done.
Defined.

End CorePublishWitness.
