(* ===== verification/CoreLabelList.v ===== *)
(** * Listing labels (pkg/core: label_list.go)

    The listing of the labels of a repository, or of all the versions of its
    labels, through the pipeline of [CoreListing]. *)

From S2P Require Import Prelude GoLib Errors Storage Model ModelPaths CoreMeta StoreRules CoreKeys CoreRepo CoreLabel CoreListing CoreList.

Module CoreLabelList.
Import Model Storage CoreMeta CoreStatus StoreRules CoreKeys CoreRepo CoreLabel CoreListing CoreList.

(** strings.Split(k, "#") *)

Fixpoint split_hash (s : string) : list string :=
  match s with
  | EmptyString => [EmptyString]
  | String c s' =>
      if decide (c = "#"%char) then EmptyString :: split_hash s'
      else match split_hash s' with
           | [] => [String c EmptyString]
           | h :: t => String c h :: t
           end
  end.

Definition with_name (d : LabelDescriptor) (name : string) : LabelDescriptor :=
  mkLabelDescriptor name (ld_BundleID d) (ld_Timestamp d) (ld_Contributors d).

Lemma with_name_same d name : ld_Name d = name -> with_name d name = d.
Proof. intros <-. by destruct d. Qed.

Section listings.
Context {S : Type} `{HS : !Store S} {GS : GoSort} {HYL : Yaml LabelDescriptor}.
Variable ksuid_valid : string -> bool.
Variable versioned : option (VersionedStore S).

(** [fuel] bounds the number of pages of keys, [now] is the time new label
    descriptors are given. *)

Variables (fuel : nat) (NumCPU : Z) (now : Time.Time).

Definition getLabelAsync (repo : string) (withVersions : bool) (key : string) : M (Stores S) (option LabelDescriptor) :=
  '(k, version) ← (if withVersions then
                     match split_hash key with
                     | [k; version] => mret (k, version)
                     | _ => panic "dev error: unexpected internal format for versioned keys"
                     end
                   else mret (key, ""));
  apc ← lift (GetArchivePathComponents ksuid_valid k);
  let labelName := apc_LabelName apc in
  let label := NewLabel now [WithLabelDescriptor (Some (NewLabelDescriptor now [LabelName labelName])); LabelWithVersion version] in
  label' ← Label_DownloadDescriptor versioned repo false label;
  let d := l_Descriptor label' in
  if decide (ld_Name d = "") then mret (Some (with_name d labelName))
  else if decide (ld_Name d <> labelName)
  then fail (ErrMsg ("label names in descriptor '" +:+ ld_Name d +:+ "' and archive path '" +:+ labelName +:+ "' don't match"))
  else mret (Some d).

Definition fetchLabelBatch (repo : string) (settings : Settings) (sch : schedule) (keys : list string)
    : M (Stores S) (list LabelDescriptor) :=
  fetch_batch (getLabelAsync repo (labelVersions settings)) LabelDescriptors_Less settings sch keys.

Definition fetchLabels (repo : string) (settings : Settings) (sch : schedule) (keysChan : list keyBatchEvent)
    : M (Stores S) (list (batchEvent LabelDescriptor)) :=
  fetch_all (getLabelAsync repo (labelVersions settings)) LabelDescriptors_Less settings sch (fetch_stop sch) keysChan.

(** With versions, the store must be a versioned one; the error of
    IsVersioned is not reported. *)

Definition check_versioned (settings : Settings) : M (Stores S) unit :=
  if negb (labelVersions settings) then mret tt
  else match versioned with
       | None => fail (Errors.WrapMessage ErrVersionedStoreRequired "<nil> does not implement VersionedStore")
       | Some vstore =>
           r ← attempt (getLabelStore (IsVersioned vstore));
           match r with
           | inl true => mret tt
           | _ => fail (Errors.WrapMessage ErrVersionedStoreRequired "bucket does not enable versioning")
           end
       end.

Definition listLabelsChan (repo : string) (sch : schedule) (opts : list Option)
    : M (Stores S) (list (batchEvent LabelDescriptor)) :=
  let settings := settings_of NumCPU opts in
  after_check (_ ← check_versioned settings; RepoExists repo)
    (let sch := watchForInterrupts settings sch in
     let iterator next :=
       KeysPrefix next (GetArchivePathPrefixToLabels repo [labelPrefix settings]) "" (Z.to_nat (batchSize settings)) in
     keysChan ← getLabelStore (
       unversionedKeys ← fetchKeys fuel iterator (keys_stop sch) "";
       match labelVersions settings, versioned with
       | true, Some vstore => versionedKeys (KeyVersions vstore) unversionedKeys
       | _, _ => mret unversionedKeys
       end);
     fetchLabels repo settings sch keysChan).

Definition doSelectLabels (labelsChan : list (batchEvent LabelDescriptor)) : list LabelDescriptor * option error :=
  doSelect labelsChan.

Definition ListLabels (repo : string) (sch : schedule) (opts : list Option)
    : M (Stores S) (list LabelDescriptor * option error) :=
  labelsChan ← listLabelsChan repo sch opts;
  mret (doSelectLabels labelsChan).

Definition ListLabelsApply {V} (repo : string) (sch : schedule) (i : interruption)
    (apply_ : LabelDescriptor -> M (Stores S * V) unit) (opts : list Option) : M (Stores S * V) unit :=
  list_apply (listLabelsChan repo sch (opts ++ [WithDoneChan true])) i apply_.

End listings.

(** ** The labels of a repository *)

Lemma parse_label kv repo name :
  Strings.no_slash repo -> Strings.no_slash name ->
  GetArchivePathComponents kv (GetArchivePathToLabel repo name) = Ok (mkArchivePathComponents repo "" labelDescriptorFile name "" "" "" "" false).
Proof. intros Hr Hn. rewrite ModelPaths.label_path_Join. ModelPaths.parse_pieces. unfold archiveComponents. by repeat (case_decide; try done). Qed.

Lemma label_path_inj repo a b :
  Strings.no_slash repo -> Strings.no_slash a -> Strings.no_slash b -> GetArchivePathToLabel repo a = GetArchivePathToLabel repo b -> a = b.
Proof.
  intros Hr Ha Hb H. pose proof (parse_label (fun _ => true) repo a Hr Ha) as Hp.
  rewrite H, (parse_label (fun _ => true) repo b Hr Hb) in Hp. congruence.
Qed.

Section labels.
Context {S : Type} `{HS : !Store S, HSL : !StoreLaws S, HR : !ReliableStore S, HLL : !ListingLaws S}.
Context {GS : GoSort} {GSL : GoSortLaws} {HYL : Yaml LabelDescriptor}.
Variables (kv : string -> bool) (versioned : option (VersionedStore S)) (fuel : nat) (NumCPU : Z) (now : Time.Time) (repo : string).
Hypothesis repo_name : Strings.no_slash repo.

Let area := GetArchivePathPrefixToLabels repo [].

(** Under the prefix of the labels there are only label descriptors, with the
    name of their key or without a name. *)

Definition labels_ok (s : S) : Prop :=
  forall k, is_Some (objects s !! k) -> Strings.HasPrefix k area = true ->
    exists name ld, Strings.no_slash name /\ k = GetArchivePathToLabel repo name /\ document s k ld /\
      (ld_Name ld = "" \/ ld_Name ld = name).

(** What a listing gets of a label. *)

Definition label_got (s : S) (name : string) : option LabelDescriptor :=
  match objects s !! GetArchivePathToLabel repo name with
  | Some b => match Unmarshal b with Ok ld => Some (over (NewLabelDescriptor now [LabelName name]) ld) | _ => None end
  | None => None
  end.

Lemma label_path_area name : Strings.HasPrefix (GetArchivePathToLabel repo name) area = true.
Proof. apply Strings.HasPrefix_app. Qed.

Lemma over_name name ld : (ld_Name ld = "" \/ ld_Name ld = name) -> ld_Name (over (NewLabelDescriptor now [LabelName name]) ld) = name.
Proof. intros [H|H]; unfold over; cbn [ld_Name]; [by rewrite decide_True|]. case_decide; cbn; congruence. Qed.

Lemma label_got_name s name ld : labels_ok s -> Strings.no_slash name -> label_got s name = Some ld -> ld_Name ld = name.
Proof.
  intros Hok Hn. unfold label_got. destruct (objects s !! _) as [b|] eqn:Eb; [|done].
  destruct (Hok _ (ex_intro _ b Eb) (label_path_area name)) as (n' & ld' & Hn' & Hk & (b' & Hb & Hu) & Hname).
  apply label_path_inj in Hk as <-; [|done..]. rewrite Eb in Hb. injection Hb as <-. rewrite Hu. intros [= <-]. by apply over_name.
Qed.

Lemma label_got_present s name : labels_ok s -> Strings.no_slash name ->
  is_Some (objects s !! GetArchivePathToLabel repo name) <-> is_Some (label_got s name).
Proof.
  intros Hok Hn. unfold label_got. destruct (objects s !! _) as [b|] eqn:Eb; [|done].
  destruct (Hok _ (ex_intro _ b Eb) (label_path_area name)) as (n' & ld' & Hn' & Hk & (b' & Hb & Hu) & _).
  rewrite Eb in Hb. injection Hb as <-. rewrite Hu. split; eauto.
Qed.

Lemma runs_getLabelAsync (c0 c : Stores S) name :
  labels_ok (VMetadata c0) -> Strings.no_slash name -> same_objects c0 c ->
  is_Some (objects (VMetadata c0) !! GetArchivePathToLabel repo name) ->
  runs (getLabelAsync kv versioned now repo false (GetArchivePathToLabel repo name)) c
    (fun x c' => x = label_got (VMetadata c0) name /\ same_objects c0 c').
Proof.
  intros Hok Hn Hs [b Hb]. destruct (Hok _ (ex_intro _ b Hb) (label_path_area name)) as (n' & ld & Hn' & Hk & (b' & Hb' & Hu) & Hname).
  apply label_path_inj in Hk as <-; [|done..]. rewrite Hb in Hb'. injection Hb' as <-.
  unfold getLabelAsync. apply runs_bind, runs_ret, runs_bind. eapply runs_lift; [by apply parse_label|]. cbn [apc_LabelName].
  apply runs_bind. eapply reads_runs.
  { apply (reads_label versioned repo _ ld); [done|]. exists b. rewrite (same_vmeta _ _ Hs). split; [exact Hb|exact Hu]. }
  intros c1 Hs1. cbn [l_Descriptor].
  assert (label_got (VMetadata c0) name = Some (over (NewLabelDescriptor now [LabelName name]) ld)) as -> by (unfold label_got; by rewrite Hb, Hu).
  change (l_Descriptor (NewLabel now _)) with (NewLabelDescriptor now [LabelName name]).
  pose proof (over_name name ld Hname) as Ho.
  destruct (decide (ld_Name (over (NewLabelDescriptor now [LabelName name]) ld) = "")) as [E|E].
  - apply runs_ret. split; [|by etrans]. f_equal. by apply with_name_same.
  - rewrite decide_False by tauto. apply runs_ret. split; [done|by etrans].
Qed.

Let key_got (s : S) (k : string) : option LabelDescriptor :=
  match GetArchivePathComponents kv k with Ok apc => label_got s (apc_LabelName apc) | _ => None end.

(** The names of the labels whose keys start with a prefix. *)

Definition label_names (s : S) (prefix : string) (names : list string) : Prop :=
  NoDup names /\ Forall Strings.no_slash names /\
  forall name, Strings.no_slash name -> name ∈ names <->
    is_Some (objects s !! GetArchivePathToLabel repo name) /\ Strings.HasPrefix (name +:+ "/" +:+ labelDescriptorFile) prefix = true.

Lemma listing_labels s prefix :
  labels_ok s -> exists names, listing (objects s) (GetArchivePathPrefixToLabels repo [prefix]) "" = GetArchivePathToLabel repo <$> names /\
    label_names s prefix names.
Proof.
  intros Hok. assert (GetArchivePathPrefixToLabels repo [prefix] = area +:+ prefix) as Hpre.
  { unfold area, GetArchivePathPrefixToLabels. cbn [Strings.Join]. by rewrite !Strings.string_app_nil_r, !Strings.string_app_assoc. }
  destruct (fmap_of_Forall (GetArchivePathToLabel repo) Strings.no_slash (listing (objects s) (GetArchivePathPrefixToLabels repo [prefix]) ""))
    as (names & Hl & Hn).
  { apply Forall_forall. intros k (k' & Hs & Hp & ->)%listing_elem. unfold truncate. rewrite decide_True by done.
    rewrite Hpre in Hp. apply Strings.HasPrefix_spec in Hp as [r ->]. rewrite Strings.string_app_assoc in Hs |- *.
    destruct (Hok _ Hs (Strings.HasPrefix_app _ _)) as (name & _ & Hno & Hk & _). eauto. }
  exists names. split; [done|]. pose proof (listing_NoDup (objects s) (GetArchivePathPrefixToLabels repo [prefix]) "") as Hnd.
  rewrite Hl in Hnd. apply NoDup_fmap_1 in Hnd. split_and!; [done..|]. intros name Hname. rewrite Forall_forall in Hn.
  assert (name ∈ names <-> GetArchivePathToLabel repo name ∈ listing (objects s) (GetArchivePathPrefixToLabels repo [prefix]) "") as ->.
  { rewrite Hl, list_elem_of_fmap. split; [by eauto|]. intros (n' & H & Hin). apply label_path_inj in H as ->; auto. }
  rewrite listing_elem. unfold truncate. rewrite Hpre. split.
  - intros (k' & Hs & Hp & Hk). rewrite decide_True in Hk by done. subst k'. split; [done|].
    apply Strings.HasPrefix_spec in Hp as [r Hr]. unfold GetArchivePathToLabel in Hr. fold area in Hr.
    rewrite Strings.string_app_assoc in Hr. apply Strings.string_app_inv_head in Hr. rewrite Hr. apply Strings.HasPrefix_app.
  - intros [Hs Hp]. exists (GetArchivePathToLabel repo name). rewrite decide_True by done. split_and!; [done| |done].
    apply Strings.HasPrefix_spec in Hp as [r Hr]. unfold GetArchivePathToLabel. fold area. rewrite Hr, <- Strings.string_app_assoc.
    apply Strings.HasPrefix_app.
Qed.

Lemma listLabelsChan_runs sch opts (c : Stores S) :
  let settings := settings_of NumCPU opts in let prefix := labelPrefix settings in
  labelVersions settings = false ->
  is_Some (objects (Metadata c) !! GetArchivePathToRepoDescriptor repo) -> labels_ok (VMetadata c) ->
  listing_ok fuel (length (listing (objects (VMetadata c)) (GetArchivePathPrefixToLabels repo [prefix]) "")) settings sch ->
  runs (listLabelsChan kv versioned fuel NumCPU now repo sch opts) c (fun evs c' =>
    same_objects c c' /\ exists names l, label_names (VMetadata c) prefix names /\ doSelect evs = (l, None) /\
      l ≡ₚ omap (label_got (VMetadata c)) names).
Proof.
  intros settings prefix Hv Hrepo Hok [Hfuel Hw Hb Hord [Hks Hfs]]. destruct (listing_labels _ prefix Hok) as (names & Hl & Hnames).
  unfold listLabelsChan, after_check, check_versioned. fold settings. fold prefix. rewrite Hv. cbn [negb].
  apply runs_bind, runs_attempt, runs_bind, runs_ret. eapply reads_runs; [by apply reads_RepoExists|].
  intros c1 Hs1. pose proof (same_vmeta _ _ Hs1) as Hm1. rewrite Hks. unfold fetchLabels. rewrite Hfs, Hv.
  apply runs_bind, runs_vmeta, runs_bind. eapply runs_mono; [apply fetchKeys_store; [lia|by rewrite Hm1]|].
  intros evs s2 (Ho2 & He & Hk). apply runs_ret. rewrite Hm1, Hl in Hk. set (sch' := watchForInterrupts settings sch).
  assert (forall l, order sch' l ≡ₚ l) as Hord' by (intros l; unfold sch'; by rewrite order_watch).
  eapply runs_mono; [apply (fetch_all_complete (fun c' => same_objects c c') _ _ (key_got (VMetadata c)) settings sch')|].
  - done.
  - done.
  - etrans; [exact Hs1|]. apply same_SetVMetadata. by rewrite Ho2.
  - done.
  - intros k c' Hk' Hs'. rewrite Hk in Hk'. apply list_elem_of_fmap in Hk' as (name & -> & Hin).
    destruct Hnames as (_ & Hno & Hiff). rewrite Forall_forall in Hno. specialize (Hno name Hin).
    unfold key_got. rewrite parse_label by done. cbn [apc_LabelName]. apply runs_getLabelAsync; [done..|]. by apply Hiff.
  - intros out c3 [-> Hs3]. split; [done|]. eexists names, _. split_and!; [done|apply doSelect_complete|].
    rewrite (listed_Permutation _ _ sch' Hord'), Hk. destruct Hnames as (_ & Hno & _). clear -Hno repo_name.
    induction Hno as [|name names Hn _ IH]; [done|]. rewrite fmap_cons, !omap_cons. unfold key_got at 1. rewrite parse_label by done.
    cbn [apc_LabelName]. destruct (label_got _ name); by rewrite IH.
Qed.

Lemma label_got_elem s prefix (names : list string) ld :
  labels_ok s -> label_names s prefix names ->
  ld ∈ omap (label_got s) names <->
  Strings.no_slash (ld_Name ld) /\ Strings.HasPrefix (ld_Name ld +:+ "/" +:+ labelDescriptorFile) prefix = true /\ label_got s (ld_Name ld) = Some ld.
Proof.
  intros Hok (_ & Hno & Hin). rewrite Forall_forall in Hno. rewrite list_elem_of_omap. split.
  - intros (name & Hn & E). rewrite (label_got_name _ _ _ Hok (Hno _ Hn) E). split; [by apply Hno|]. split; [|done]. by apply Hin; [apply Hno|].
  - intros (Hn & Hp & E). exists (ld_Name ld). split; [|done]. apply Hin; [done|]. split; [|done]. apply label_got_present; eauto.
Qed.

Lemma label_got_NoDup s prefix (names : list string) :
  labels_ok s -> label_names s prefix names -> NoDup (ld_Name <$> omap (label_got s) names).
Proof.
  intros Hok (Hnd & Hno & _). induction Hnd as [|name names Hni Hnd IH]; [constructor|]. apply Forall_cons in Hno as [Hn Hno].
  rewrite omap_cons. destruct (label_got s name) as [ld|] eqn:E; [|by apply IH]. rewrite fmap_cons. apply NoDup_cons. split; [|by apply IH].
  rewrite (label_got_name _ _ _ Hok Hn E). intros (ld' & -> & (n' & Hin & E')%list_elem_of_omap)%list_elem_of_fmap.
  rewrite Forall_forall in Hno. by rewrite (label_got_name _ _ _ Hok (Hno _ Hin) E') in Hni.
Qed.

Lemma ListLabels_runs sch opts (c : Stores S) :
  let settings := settings_of NumCPU opts in let prefix := labelPrefix settings in
  labelVersions settings = false ->
  is_Some (objects (Metadata c) !! GetArchivePathToRepoDescriptor repo) -> labels_ok (VMetadata c) ->
  listing_ok fuel (length (listing (objects (VMetadata c)) (GetArchivePathPrefixToLabels repo [prefix]) "")) settings sch ->
  runs (ListLabels kv versioned fuel NumCPU now repo sch opts) c (fun out c' =>
    same_objects c c' /\ out.2 = None /\ NoDup (ld_Name <$> out.1) /\
    forall ld, ld ∈ out.1 <-> Strings.no_slash (ld_Name ld) /\
      Strings.HasPrefix (ld_Name ld +:+ "/" +:+ labelDescriptorFile) prefix = true /\ label_got (VMetadata c) (ld_Name ld) = Some ld).
Proof.
  intros settings prefix Hv Hrepo Hok Hl. apply runs_bind. eapply runs_mono; [by apply listLabelsChan_runs|].
  intros evs c' (Hs & names & l & Hn & Hsel & Hp). apply runs_ret. unfold doSelectLabels. rewrite Hsel. cbn [fst snd].
  split_and!; [done|done| |].
  - rewrite Hp. by eapply label_got_NoDup.
  - intros ld. rewrite Hp. by apply label_got_elem.
Qed.

End labels.

End CoreLabelList.
