(* ===== verification/CoreDelete.v ===== *)
(** * Deletion and squashing (pkg/core: delete.go, delete_options.go, repo_squash.go)

    The removal of labels, bundles, repositories and file entries, and the
    reduction of a repository to its latest bundles. Every listing an operation
    makes has its own schedule. *)

From S2P Require Import Prelude GoLib Errors Storage Model ModelPaths CoreMeta StoreRules CoreIndex CoreKeys CoreRepo CoreLabel CoreListing CoreList CoreBundle CoreLabelList.

Module CoreDelete.
Import Model Storage CoreMeta CoreStatus StoreRules CoreIndex CoreKeys CoreRepo CoreLabel CoreListing CoreList CoreBundle CoreLabelList.

(** ** Options *)

Record deleteOptions : Type := mkDeleteOptions {
  skipCheckRepo : bool;
  skipDeleteLabel : bool;
  ignoreBundleError : bool
}.

Definition DeleteOption : Type := deleteOptions -> deleteOptions.

Definition deleteOptionsWithDefaults (opts : list DeleteOption) : deleteOptions :=
  fold_left (fun o apply_ => apply_ o) opts (mkDeleteOptions false false false).

Definition WithDeleteSkipCheckRepo (skip : bool) : DeleteOption := fun o =>
  mkDeleteOptions skip (skipDeleteLabel o) (ignoreBundleError o).

Definition WithDeleteSkipDeleteLabel (skip : bool) : DeleteOption := fun o =>
  mkDeleteOptions (skipCheckRepo o) skip (ignoreBundleError o).

Definition WithDeleteIgnoreBundleError (enabled : bool) : DeleteOption := fun o =>
  mkDeleteOptions (skipCheckRepo o) (skipDeleteLabel o) enabled.

(** fmt.Errorf("...: %v", err) *)

Definition Errorf (msg : string) (err : error) : error := ErrMsg (msg +:+ ": " +:+ Errors.to_string err).

Definition annotate {S A} (msg : string) (m : M S A) : M S A :=
  r ← attempt m;
  match r with inl a => mret a | inr err => fail (Errorf msg err) end.

(** A result that is kept, or dropped when errors are ignored. *)

Definition unless_ignored {S} (ignore : bool) (msg : string) (m : M S unit) : M S unit :=
  r ← attempt m;
  match r with
  | inr err => if ignore then mret tt else fail (Errorf msg err)
  | inl _ => mret tt
  end.

(** A listing whose error ends the operation. *)

Definition listed {S A} (msg : error -> error) (m : M S (list A * option error)) : M S (list A) :=
  '(items, err) ← m;
  match err with Some e => fail (msg e) | None => mret items end.

Section deletion.
Context {S : Type} `{HS : !Store S} {GS : GoSort}.
Context {HYL : Yaml LabelDescriptor} {HYB : Yaml BundleDescriptor} {HYE : Yaml (list BundleEntry)}.
Variable ksuid_valid : string -> bool.
Variable versioned : option (VersionedStore S).

(** [fuel] bounds the pages of the listings and the index files that are
    removed until an error is met. *)

Variables (fuel : nat) (NumCPU : Z) (now : Time.Time).

Definition check_repo (repo : string) (options : deleteOptions) : M (Stores S) unit :=
  if negb (skipCheckRepo options) then annotate ("cannot find repo: " +:+ repo) (RepoExists repo) else mret tt.

Definition DeleteLabel (repo name : string) (opts : list DeleteOption) : M (Stores S) unit :=
  let options := deleteOptionsWithDefaults opts in
  _ ← check_repo repo options;
  annotate ("cannot delete label " +:+ name +:+ " for repo " +:+ repo) (getVMetaStore (Delete (GetArchivePathToLabel repo name))).

(** The loop that deletes index files until Delete returns an error. *)

Fixpoint delete_until_error (n : nat) (repo bundleID : string) (i : N) : M S unit :=
  match n with
  | O => diverge
  | Datatypes.S n' =>
      r ← attempt (Delete (GetArchivePathToBundleFileList repo bundleID i));
      match r with
      | inl _ => delete_until_error n' repo bundleID (Z.to_N (Int.uint64 (Z.of_N i + 1)))
      | inr _ => mret tt
      end
  end.

Definition upto_count (count : N) : list N := N.of_nat <$> seq 0 (N.to_nat count).

Definition delete_index_files (repo bundleID : string) (count : N) (ignore : bool) : M S unit :=
  if decide (count = 0%N /\ ignore = true) then delete_until_error fuel repo bundleID 0
  else for_each (upto_count count) (fun i =>
    let path := GetArchivePathToBundleFileList repo bundleID i in
    unless_ignored ignore ("cannot delete file list " +:+ path +:+ " on bundle " +:+ bundleID +:+ " in repo " +:+ repo) (Delete path)).

Definition delete_labels_of (repo bundleID : string) (sch : schedule) (opts : list DeleteOption) (ignore : bool) : M (Stores S) unit :=
  labels ← listed (Errorf ("cannot list labels in repo " +:+ repo)) (ListLabels ksuid_valid versioned fuel NumCPU now repo sch []);
  for_each labels (fun l =>
    if decide (ld_BundleID l = bundleID)
    then unless_ignored ignore ("cannot delete label " +:+ ld_Name l +:+ " on bundle " +:+ bundleID +:+ " in repo " +:+ repo)
           (DeleteLabel repo (ld_Name l) opts)
    else mret tt).

Definition DeleteBundle (repo bundleID : string) (sch : schedule) (opts : list DeleteOption) : M (Stores S) unit :=
  let options := deleteOptionsWithDefaults opts in
  let ignore := ignoreBundleError options in
  _ ← check_repo repo options;
  let pth := GetArchivePathToBundle repo bundleID in
  r ← attempt (getMetaStore (downloadBundleDescriptor ksuid_valid repo pth (defaultSettings NumCPU)));
  bundle ← match r with
           | inl bundle => mret bundle
           | inr err =>
               if ignore then mret zeroBundleDescriptor
               else fail (Errorf ("cannot retrieve bundle metadata from bundle: " +:+ bundleID +:+ " in repo " +:+ repo) err)
           end;
  _ ← (if negb (skipDeleteLabel options) then delete_labels_of repo bundleID sch opts ignore else mret tt);
  _ ← getMetaStore (delete_index_files repo bundleID (bd_BundleEntriesFileCount bundle) ignore);
  unless_ignored ignore ("cannot delete bundle descriptor for " +:+ bundleID +:+ " in repo " +:+ repo) (getMetaStore (Delete pth)).

(** [sch1] is the schedule of the listing of the bundles, [sch2] of the labels. *)

Definition DeleteRepo (repo : string) (sch1 sch2 : schedule) (opts : list DeleteOption) : M (Stores S) unit :=
  let options := deleteOptionsWithDefaults opts in
  _ ← check_repo repo options;
  bundles ← listed (Errorf ("cannot list bundles in repo " +:+ repo)) (ListBundles ksuid_valid fuel NumCPU repo sch1 []);
  let bopts := opts ++ [WithDeleteSkipCheckRepo true; WithDeleteSkipDeleteLabel true; WithDeleteIgnoreBundleError true] in
  _ ← for_each bundles (fun b =>
        annotate ("cannot delete bundle " +:+ bd_ID b +:+ " in repo " +:+ repo) (DeleteBundle repo (bd_ID b) sch2 bopts));
  labels ← listed (Errorf ("cannot list labels in repo " +:+ repo)) (ListLabels ksuid_valid versioned fuel NumCPU now repo sch2 []);
  _ ← for_each labels (fun l =>
        annotate ("cannot delete label " +:+ ld_Name l +:+ " on bundle " +:+ ld_BundleID l +:+ " in repo " +:+ repo)
          (DeleteLabel repo (ld_Name l) [WithDeleteSkipCheckRepo true]));
  annotate ("cannot delete repo: " +:+ repo) (GetRepoStore (Delete (GetArchivePathToRepoDescriptor repo))).

(** ** Removal of entries *)

(** The entries that stay, and whether one was removed. *)

Definition retained_entries (toDelete : list string) (entries : list BundleEntry) : list BundleEntry * bool :=
  (filter (fun e => NameWithPath e ∉ toDelete) entries, existsb (fun e => bool_decide (NameWithPath e ∈ toDelete)) entries).

Definition delete_entries_in (repo bundleID : string) (toDelete : list string) (i : N) : M S unit :=
  let path := GetArchivePathToBundleFileList repo bundleID i in
  let where_ := "file list index " +:+ Strconv.FormatUint i +:+ " for bundle " +:+ bundleID +:+ " in repo " +:+ repo in
  buffer ← annotate ("cannot retrieve " +:+ where_) (Get path);
  entries ← annotate ("cannot unmarshal " +:+ where_) (lift (Unmarshal buffer));
  let '(newEntries, listModified) := retained_entries toDelete entries in
  if listModified : bool then
    buffer' ← annotate ("cannot marshal " +:+ where_) (lift (Marshal newEntries));
    annotate ("cannot overwrite " +:+ where_) (Put path (NewReader buffer') OverWrite)
  else mret tt.

(** The error of downloadBundleDescriptor is reported as the one of the
    listing, which is nil. *)

Definition DeleteEntriesFromRepo (repo : string) (toDelete : list string) (sch : schedule) : M (Stores S) unit :=
  _ ← annotate ("cannot find repo: " +:+ repo) (RepoExists repo);
  bundles ← listed (Errorf ("cannot list bundles in repo " +:+ repo)) (ListBundles ksuid_valid fuel NumCPU repo sch []);
  for_each bundles (fun b =>
    let bundleID := bd_ID b in
    r ← attempt (getMetaStore (downloadBundleDescriptor ksuid_valid repo (GetArchivePathToBundle repo bundleID) (defaultSettings NumCPU)));
    match r with
    | inr _ => fail (ErrMsg ("cannot download metadata for bundle " +:+ bundleID +:+ " in repo " +:+ repo +:+ ": <nil>"))
    | inl bundle =>
        getMetaStore (for_each (upto_count (bd_BundleEntriesFileCount bundle)) (delete_entries_in repo bundleID toDelete))
    end).

(** ** Squashing *)

(** semver.ParseTolerant is a parameter: whether it accepts a name. *)

Variable semver_ParseTolerant : string -> bool.

Definition labels_index (settings : Settings) (labels : list LabelDescriptor) : gset string :=
  list_to_set (ld_BundleID <$> filter (fun l => retainTags settings || semver_ParseTolerant (ld_Name l) = true) labels).

(** bundles[:len(bundles)-settings.retainNLatest] *)

Definition slice_to {A} (l : list A) (n : Z) : res (list A) :=
  if decide (0 <= n <= Z.of_nat (length l))%Z then Ok (take (Z.to_nat n) l) else Panic "slice bounds out of range".

Definition squash_options : list DeleteOption :=
  [WithDeleteSkipCheckRepo true; WithDeleteSkipDeleteLabel true; WithDeleteIgnoreBundleError true].

(** The variable bundlesIndex, filled by the function that ListBundlesApply applies. *)

Definition bundles_index (repoName : string) (sch : schedule) (i : interruption) (opts : list Option) : M (Stores S) (gset string) := fun c =>
  match ListBundlesApply ksuid_valid fuel NumCPU repoName sch i
          (fun bundle '(c, index) => (Ok tt, (c, {[bd_ID bundle]} ∪ index))) opts (c, (∅ : gset string)) with
  | (Ok _, (c', index)) => (Ok index, c')
  | (Err e, (c', _)) => (Err e, c')
  | (Panic p, (c', _)) => (Panic p, c')
  end.

(** The two listings of bundles and the two of labels have their schedules. *)

Definition RepoSquash (repoName : string) (sch1 sch2 : schedule) (i : interruption) (opts : list Option) : M (Stores S) unit :=
  _ ← annotate ("cannot find repo: " +:+ repoName) (RepoExists repoName);
  let opts := opts ++ [WithMinimalBundle true] in
  bundles ← listed Datatypes.id (ListBundles ksuid_valid fuel NumCPU repoName sch1 opts);
  let settings := settings_of NumCPU opts in
  let retain := if (retainNLatest settings =? 0)%Z then 1%Z else retainNLatest settings in
  if decide (Z.of_nat (length bundles) < retain + 1)%Z then mret tt
  else
    let tags := retainTags settings || retainSemverTags settings in
    labelsIndex ← (if tags : bool then
                     labels ← listed Datatypes.id (ListLabels ksuid_valid versioned fuel NumCPU now repoName sch2 opts);
                     mret (labels_index settings labels)
                   else mret ∅);
    old ← lift (slice_to bundles (Z.of_nat (length bundles) - retain));
    _ ← for_each old (fun bundle =>
          if decide (tags = true /\ bd_ID bundle ∈ labelsIndex) then mret tt
          else DeleteBundle repoName (bd_ID bundle) sch2 squash_options);
    bundlesIndex ← bundles_index repoName sch1 i opts;
    labels ← listed (Errorf ("cannot list labels in repo " +:+ repoName)) (ListLabels ksuid_valid versioned fuel NumCPU now repoName sch2 []);
    for_each labels (fun l =>
      if decide (ld_BundleID l ∈ bundlesIndex) then mret tt
      else annotate ("cannot delete label " +:+ ld_Name l +:+ " on bundle " +:+ ld_BundleID l +:+ " in repo " +:+ repoName)
             (DeleteLabel repoName (ld_Name l) [WithDeleteSkipCheckRepo true])).

End deletion.

(** ** What deletions leave *)

Section removal.

(** The objects that are not under a prefix. *)

Definition outside (prefix : string) (m : gmap string bytes) : gmap string bytes :=
  filter (fun kv => Strings.HasPrefix kv.1 prefix = false) m.

Lemma outside_lookup prefix m q : outside prefix m !! q = if Strings.HasPrefix q prefix then None else m !! q.
Proof.
  unfold outside. destruct (Strings.HasPrefix q prefix) eqn:E.
  - apply map_lookup_filter_None_2. right. intros b _. cbn [fst]. congruence.
  - destruct (m !! q) as [b|] eqn:Eb; [by apply map_lookup_filter_Some_2|]. apply map_lookup_filter_None_2. by left.
Qed.

Definition bundle_area (repo id : string) : string := directory (GetArchivePathPrefixToBundles repo) id.

Definition in_area (repo : string) (ids : list string) (q : string) : bool := existsb (fun id => Strings.HasPrefix q (bundle_area repo id)) ids.

Definition without_bundles (repo : string) (ids : list string) (m : gmap string bytes) : gmap string bytes :=
  fold_left (fun m id => outside (bundle_area repo id) m) ids m.

Lemma without_bundles_lookup repo ids q : forall m, without_bundles repo ids m !! q = if in_area repo ids q then None else m !! q.
Proof.
  unfold without_bundles, in_area. induction ids as [|id ids IH]; intros m; [done|]. cbn. rewrite IH, outside_lookup.
  destruct (Strings.HasPrefix q (bundle_area repo id)); cbn; by destruct (existsb _ ids).
Qed.

Lemma in_area_true repo ids q : in_area repo ids q = true <-> exists id, id ∈ ids /\ Strings.HasPrefix q (bundle_area repo id) = true.
Proof. unfold in_area. rewrite existsb_exists. setoid_rewrite list_elem_of_In. done. Qed.

Lemma area_disjoint repo id id' q :
  Strings.no_slash id -> Strings.no_slash id' ->
  Strings.HasPrefix q (bundle_area repo id) = true -> Strings.HasPrefix q (bundle_area repo id') = true -> id = id'.
Proof. intros Hn Hn' [r ->]%Strings.HasPrefix_spec [r' H]%Strings.HasPrefix_spec. by eapply directory_inj. Qed.

Lemma bundle_path_area repo id : GetArchivePathToBundle repo id = bundle_area repo id +:+ bundleDescriptorFile.
Proof. unfold bundle_area, directory, GetArchivePathPrefixToBundles, GetArchivePathToBundle. by rewrite !Strings.string_app_assoc. Qed.

Lemma list_path_area repo id i : exists file, GetArchivePathToBundleFileList repo id i = bundle_area repo id +:+ file.
Proof.
  eexists. unfold bundle_area, directory, GetArchivePathPrefixToBundles, GetArchivePathToBundleFileList. by rewrite !Strings.string_app_assoc.
Qed.

End removal.

Section facts.
Context {S : Type} `{HS : !Store S, HSL : !StoreLaws S, HR : !ReliableStore S}.
Context {HYL : Yaml LabelDescriptor} {HYB : Yaml BundleDescriptor}.
Variables (kv : string -> bool) (versioned : option (VersionedStore S)) (fuel : nat) (NumCPU : Z) (now : Time.Time).

(** A bundle whose directory holds its descriptor, its index files and
    nothing else. *)

Record whole_bundle (s : S) (repo id : string) (bd : BundleDescriptor) : Prop := {
  wb_descriptor : document s (GetArchivePathToBundle repo id) bd /\ bd_ID bd = id;
  wb_index : (0 < bd_BundleEntriesFileCount bd)%N /\
    forall i, (i < bd_BundleEntriesFileCount bd)%N -> is_Some (objects s !! GetArchivePathToBundleFileList repo id i);
  wb_only q : is_Some (objects s !! q) -> Strings.HasPrefix q (bundle_area repo id) = true ->
    q = GetArchivePathToBundle repo id \/
    exists i, (i < bd_BundleEntriesFileCount bd)%N /\ q = GetArchivePathToBundleFileList repo id i
}.

Lemma runs_annotate {T A} msg (m : M T A) t Q : runs m t Q -> runs (annotate msg m) t Q.
Proof. intros H. apply runs_bind, runs_attempt. eapply runs_mono; [exact H|]. intros a t' HQ. by apply runs_ret. Qed.

Lemma runs_unless_ignored {T} ignore msg (m : M T unit) t Q : runs m t Q -> runs (unless_ignored ignore msg m) t Q.
Proof. intros H. apply runs_bind, runs_attempt. eapply runs_mono; [exact H|]. intros [] t' HQ. by apply runs_ret. Qed.

Lemma runs_check_repo repo options (c : Stores S) (Q : unit -> Stores S -> Prop) :
  is_Some (objects (Metadata c) !! GetArchivePathToRepoDescriptor repo) \/ skipCheckRepo options = true ->
  (forall c', same_objects c c' -> Q tt c') -> runs (check_repo repo options) c Q.
Proof.
  intros Hrepo HQ. unfold check_repo. destruct (skipCheckRepo options) eqn:E; cbn [negb]; [by apply runs_ret, HQ|].
  destruct Hrepo as [Hrepo|]; [|done]. apply runs_annotate. eapply reads_runs; [by apply reads_RepoExists|done].
Qed.

Lemma runs_DeleteLabel repo name opts (c : Stores S) (Q : unit -> Stores S -> Prop) :
  skipCheckRepo (deleteOptionsWithDefaults opts) = true -> is_Some (objects (VMetadata c) !! GetArchivePathToLabel repo name) ->
  (forall s', objects s' = delete (GetArchivePathToLabel repo name) (objects (VMetadata c)) -> Q tt (SetVMetadata s' c)) ->
  runs (DeleteLabel repo name opts) c Q.
Proof.
  intros Hsk Hn HQ. unfold DeleteLabel, check_repo. rewrite Hsk. apply runs_bind, runs_ret, runs_annotate, runs_vmeta, runs_Delete; done.
Qed.

(** The index files of a bundle, one after the other. *)

Lemma delete_list_runs repo id ignore : forall (l : list N) (s : S),
  NoDup l -> (forall i, i ∈ l -> is_Some (objects s !! GetArchivePathToBundleFileList repo id i)) ->
  runs (for_each l (fun i =>
    let path := GetArchivePathToBundleFileList repo id i in
    unless_ignored ignore ("cannot delete file list " +:+ path +:+ " on bundle " +:+ id +:+ " in repo " +:+ repo) (Delete path))) s
    (fun _ s' => forall q, objects s' !! q =
       if decide (q ∈ GetArchivePathToBundleFileList repo id <$> l) then None else objects s !! q).
Proof.
  induction l as [|i l IH]; intros s Hnd Hall; [by apply runs_ret|]. apply NoDup_cons in Hnd as [Hni Hnd]. cbn [for_each].
  apply runs_bind, runs_unless_ignored, runs_Delete; [apply Hall; set_solver|]. intros s1 Ho1.
  eapply runs_mono; [apply IH; [done|]|].
  - intros j Hj. rewrite Ho1, lookup_delete_ne; [apply Hall; set_solver|]. by intros ->%bundle_list_inj.
  - intros [] s2 Ho2 q. rewrite Ho2, fmap_cons, Ho1. destruct (decide (q = GetArchivePathToBundleFileList repo id i)) as [->|Hq].
    + rewrite lookup_delete_eq, (decide_True (P := _ ∈ _ :: _)) by set_solver. by case_decide.
    + rewrite lookup_delete_ne by done. by repeat case_decide; set_solver.
Qed.

Lemma elem_upto i count : i ∈ upto_count count <-> (i < count)%N.
Proof.
  unfold upto_count. rewrite list_elem_of_fmap. setoid_rewrite elem_of_seq. split.
  - intros (n & -> & Hn). lia.
  - intros Hi. exists (N.to_nat i). lia.
Qed.

Lemma NoDup_upto count : NoDup (upto_count count).
Proof. apply NoDup_fmap_2; [apply _|]. apply NoDup_seq. Qed.

Lemma runs_downloadBundleDescriptor repo id bd (s : S) (Q : BundleDescriptor -> S -> Prop) :
  Strings.no_slash repo -> Strings.no_slash id -> document s (GetArchivePathToBundle repo id) bd -> bd_ID bd = id ->
  (forall s', objects s' = objects s -> Q bd s') ->
  runs (downloadBundleDescriptor kv repo (GetArchivePathToBundle repo id) (defaultSettings NumCPU)) s Q.
Proof.
  intros Hr Hn (b & Hb & Hu) Hid HQ. unfold downloadBundleDescriptor. apply runs_bind.
  eapply runs_lift; [rewrite ModelPaths.bundle_path_Join; ModelPaths.parse_pieces; unfold archiveComponents; by repeat (case_decide; try done)|].
  cbn [apc_BundleID withMinimalBundle defaultSettings]. apply runs_bind. eapply runs_Get; [exact Hb|]. intros s1 Ho.
  apply runs_bind. eapply runs_lift; [exact Hu|]. rewrite decide_False by tauto. by apply runs_ret, HQ.
Qed.

(** A bundle that is deleted leaves nothing in its directory. *)

Lemma runs_DeleteBundle {GS : GoSort} repo id bd sch opts (c : Stores S) :
  Strings.no_slash repo -> Strings.no_slash id -> whole_bundle (Metadata c) repo id bd ->
  skipCheckRepo (deleteOptionsWithDefaults opts) = true -> skipDeleteLabel (deleteOptionsWithDefaults opts) = true ->
  runs (DeleteBundle kv versioned fuel NumCPU now repo id sch opts) c (fun _ c' =>
    objects (Metadata c') = outside (bundle_area repo id) (objects (Metadata c)) /\ objects (VMetadata c') = objects (VMetadata c)).
Proof.
  intros Hr Hn [[Hdoc Hid] [Hpos Hidx] Honly] Hs1 Hs2. unfold DeleteBundle, check_repo. rewrite Hs1, Hs2. cbn [negb].
  set (ignore := ignoreBundleError _). apply runs_bind, runs_ret, runs_bind, runs_attempt, runs_meta.
  apply (runs_downloadBundleDescriptor repo id bd); [done..|]. intros s1 Ho1. apply runs_bind, runs_ret, runs_bind, runs_ret.
  apply runs_bind, runs_meta. unfold delete_index_files. rewrite decide_False by lia.
  eapply runs_mono; [apply delete_list_runs; [apply NoDup_upto|]|].
  { intros i Hi%elem_upto. cbn. rewrite Ho1. by apply Hidx. }
  intros [] s2 Ho2. cbn [Metadata SetMetadata] in Ho2.
  assert (forall i, GetArchivePathToBundleFileList repo id i <> GetArchivePathToBundle repo id) as Hne
    by (intros i H; symmetry in H; by apply bundle_path_not_list in H).
  apply runs_unless_ignored, runs_meta, runs_Delete.
  { cbn [Metadata SetMetadata]. rewrite Ho2, decide_False, Ho1; [by apply document_is_Some in Hdoc|].
    intros (i & H & _)%list_elem_of_fmap. by apply (Hne i). }
  intros s3 Ho3. cbn [Metadata SetMetadata VMetadata] in *. split; [|done]. apply map_eq. intros q. rewrite Ho3, outside_lookup.
  destruct (decide (q = GetArchivePathToBundle repo id)) as [->|Hq].
  { rewrite lookup_delete_eq, bundle_path_area. by rewrite Strings.HasPrefix_app. }
  rewrite lookup_delete_ne by done. rewrite Ho2, Ho1. case_decide as Hin.
  - apply list_elem_of_fmap in Hin as (i & -> & _). destruct (list_path_area repo id i) as [file ->]. by rewrite Strings.HasPrefix_app.
  - destruct (Strings.HasPrefix q (bundle_area repo id)) eqn:Hp; [|done]. destruct (objects (Metadata c) !! q) as [b|] eqn:Eb; [|done].
    exfalso. destruct (Honly q) as [->|(i & Hi & ->)]; [by rewrite Eb|done|done|]. apply Hin, list_elem_of_fmap_2, elem_upto, Hi.
Qed.

End facts.

(** ** Loops of deletions *)

Section loops.
Context {S : Type} `{HS : !Store S, HSL : !StoreLaws S, HR : !ReliableStore S} {HYB : Yaml BundleDescriptor}.

Lemma whole_bundle_area (s s' : S) repo id bd :
  (forall file, objects s' !! (bundle_area repo id +:+ file) = objects s !! (bundle_area repo id +:+ file)) ->
  whole_bundle s repo id bd -> whole_bundle s' repo id bd.
Proof.
  intros Hsame [[Hdoc Hid] [Hpos Hidx] Honly]. split.
  - split; [|done]. eapply document_objects; [|exact Hdoc]. rewrite bundle_path_area. apply Hsame.
  - split; [done|]. intros i Hi. destruct (list_path_area repo id i) as [file Hf]. rewrite Hf, Hsame, <- Hf. by apply Hidx.
  - intros q Hq Hp. apply Honly; [|done]. apply Strings.HasPrefix_spec in Hp as [file ->]. by rewrite Hsame in Hq.
Qed.

Lemma whole_bundle_outside (s s' : S) repo id id' bd :
  Strings.no_slash id -> Strings.no_slash id' -> id <> id' -> objects s' = outside (bundle_area repo id') (objects s) ->
  whole_bundle s repo id bd -> whole_bundle s' repo id bd.
Proof.
  intros Hn Hn' Hne Ho. apply whole_bundle_area. intros file. rewrite Ho, outside_lookup.
  destruct (Strings.HasPrefix _ (bundle_area repo id')) eqn:E; [|done].
  exfalso. apply Hne. eapply area_disjoint; [done..| |exact E]. apply Strings.HasPrefix_app.
Qed.

(** A loop that deletes the bundles that are not to be kept. *)

Lemma removes_bundles repo (keep : string -> Prop) `{!forall id, Decision (keep id)} (f : BundleDescriptor -> M (Stores S) unit) :
  forall (l : list BundleDescriptor) (c : Stores S),
  (forall b c, b ∈ l -> (exists bd, whole_bundle (Metadata c) repo (bd_ID b) bd) ->
     runs (f b) c (fun _ c' => objects (VMetadata c') = objects (VMetadata c) /\
       objects (Metadata c') = if decide (keep (bd_ID b)) then objects (Metadata c) else outside (bundle_area repo (bd_ID b)) (objects (Metadata c)))) ->
  NoDup (bd_ID <$> l) -> (forall b, b ∈ l -> Strings.no_slash (bd_ID b) /\ exists bd, whole_bundle (Metadata c) repo (bd_ID b) bd) ->
  runs (for_each l f) c (fun _ c' => objects (VMetadata c') = objects (VMetadata c) /\
    objects (Metadata c') = without_bundles repo (filter (fun id => ~ keep id) (bd_ID <$> l)) (objects (Metadata c))).
Proof.
  induction l as [|b l IH]; intros c Hf Hnd Hall; [by apply runs_ret|]. rewrite fmap_cons in *. apply NoDup_cons in Hnd as [Hni Hnd].
  cbn [for_each]. apply runs_bind. eapply runs_mono; [apply Hf; [set_solver|apply Hall; set_solver]|]. intros [] c1 [Hv1 Hm1].
  destruct (Hall b) as [Hb _]; [set_solver|].
  eapply runs_mono; [apply IH; [intros b' c' Hb'; apply Hf; set_solver|done|]|].
  - intros b' Hb'. destruct (Hall b') as [Hn' [bd Hw]]; [set_solver|]. split; [done|]. exists bd. case_decide as Hk.
    + destruct Hw as [[Hdoc Hid] [Hp Hx] Ho]. split; [split; [by eapply document_objects; [rewrite Hm1|]|done]| |].
      * split; [done|]. intros i Hi. rewrite Hm1. by apply Hx.
      * intros q. rewrite Hm1. apply Ho.
    + eapply whole_bundle_outside; [done|exact Hb| |exact Hm1|exact Hw]. intros Heq. apply Hni. rewrite <- Heq. by apply list_elem_of_fmap_2.
  - intros [] c2 [Hv2 Hm2]. split; [congruence|]. rewrite Hm2, Hm1, filter_cons. by case_decide; case_decide.
Qed.

(** A loop that deletes the labels that are not to be kept. *)

Lemma removes_labels repo (keep : LabelDescriptor -> Prop) `{!forall l, Decision (keep l)} (f : LabelDescriptor -> M (Stores S) unit) :
  let path l := GetArchivePathToLabel repo (ld_Name l) in
  forall (l : list LabelDescriptor) (c : Stores S),
  (forall x c, x ∈ l -> is_Some (objects (VMetadata c) !! path x) ->
     runs (f x) c (fun _ c' => objects (Metadata c') = objects (Metadata c) /\
       objects (VMetadata c') = if decide (keep x) then objects (VMetadata c) else delete (path x) (objects (VMetadata c)))) ->
  NoDup (path <$> l) -> (forall x, x ∈ l -> is_Some (objects (VMetadata c) !! path x)) ->
  runs (for_each l f) c (fun _ c' => objects (Metadata c') = objects (Metadata c) /\
    forall q, objects (VMetadata c') !! q =
      if decide (q ∈ path <$> filter (fun x => ~ keep x) l) then None else objects (VMetadata c) !! q).
Proof.
  intros path. induction l as [|x l IH]; intros c Hf Hnd Hall; [by apply runs_ret|]. rewrite fmap_cons in Hnd. apply NoDup_cons in Hnd as [Hni Hnd].
  cbn [for_each]. apply runs_bind. eapply runs_mono; [apply Hf; [set_solver|apply Hall; set_solver]|]. intros [] c1 [Hm1 Hv1].
  eapply runs_mono; [apply IH; [intros y c' Hy; apply Hf; set_solver|done|]|].
  - intros y Hy. rewrite Hv1. case_decide; [apply Hall; set_solver|]. rewrite lookup_delete_ne; [apply Hall; set_solver|].
    intros Heq. apply Hni. rewrite Heq. by apply list_elem_of_fmap_2.
  - intros [] c2 [Hm2 Hv2]. split; [congruence|]. intros q. rewrite Hv2, Hv1, filter_cons.
    destruct (decide (keep x)) as [Hk|Hk]; [by rewrite (decide_False (P := ~ keep x)) by tauto|].
    rewrite (decide_True (P := ~ keep x)) by done. rewrite fmap_cons. destruct (decide (q = path x)) as [->|Hq].
    + rewrite lookup_delete_eq, (decide_True (P := _ ∈ _ :: _)) by set_solver. by case_decide.
    + rewrite lookup_delete_ne by done. by repeat case_decide; set_solver.
Qed.

End loops.

(** ** Repositories *)

Section repositories.
Context {S : Type} `{HS : !Store S, HSL : !StoreLaws S, HR : !ReliableStore S, HLL : !ListingLaws S}.
Context {GS : GoSort} {GSL : GoSortLaws} {HYL : Yaml LabelDescriptor} {HYB : Yaml BundleDescriptor}.
Variables (kv : string -> bool) (versioned : option (VersionedStore S)) (fuel : nat) (NumCPU : Z) (now : Time.Time) (repo : string).
Hypothesis repo_name : Strings.no_slash repo.

(** A repository all of whose bundles are whole. *)

Record repo_ok (c : Stores S) (n : nat) : Prop := {
  ro_exists : is_Some (objects (Metadata c) !! GetArchivePathToRepoDescriptor repo);
  ro_bundles : bundles_ok repo (Metadata c) n;
  ro_labels : labels_ok repo (VMetadata c);
  ro_whole id : Strings.no_slash id -> (exists file, is_Some (objects (Metadata c) !! (bundle_area repo id +:+ file))) ->
    exists bd, whole_bundle (Metadata c) repo id bd
}.

Definition bundles_listing (c : Stores S) : list string := listing (objects (Metadata c)) (GetArchivePathPrefixToBundles repo) "/".

Definition labels_listing (c : Stores S) (prefix : string) : list string :=
  listing (objects (VMetadata c)) (GetArchivePathPrefixToLabels repo [prefix]) "".

Lemma area_prefix id q : Strings.HasPrefix q (bundle_area repo id) = true -> Strings.HasPrefix q (GetArchivePathPrefixToBundles repo) = true.
Proof.
  intros [r ->]%Strings.HasPrefix_spec. unfold bundle_area, directory. rewrite !Strings.string_app_assoc. apply Strings.HasPrefix_app.
Qed.

Lemma repo_path_not_bundle : Strings.HasPrefix (GetArchivePathToRepoDescriptor repo) (GetArchivePathPrefixToBundles repo) = false.
Proof. reflexivity. Qed.

(** Removing every bundle that is listed removes all objects of bundles. *)

Lemma without_all (s : S) n ids :
  bundles_ok repo s n -> lists repo s ids -> without_bundles repo ids (objects s) = outside (GetArchivePathPrefixToBundles repo) (objects s).
Proof.
  intros [Hdir _] (_ & _ & Hno & Hin). apply map_eq. intros q. rewrite without_bundles_lookup, outside_lookup.
  destruct (in_area repo ids q) eqn:E.
  - apply in_area_true in E as (id & _ & ->%area_prefix). done.
  - destruct (Strings.HasPrefix q (GetArchivePathPrefixToBundles repo)) eqn:Hp; [|done].
    destruct (objects s !! q) as [b|] eqn:Eb; [|done]. exfalso. apply not_true_iff_false in E. apply E, in_area_true.
    destruct (Hdir q) as (id & file & -> & Hid & _); [by rewrite Eb|done|]. exists id. split; [|apply Strings.HasPrefix_app].
    apply Hin; [done|]. exists file. by rewrite Eb.
Qed.

Lemma label_names_all (s : S) (labels : list LabelDescriptor) :
  labels_ok repo s ->
  (forall ld, ld ∈ labels <-> Strings.no_slash (ld_Name ld) /\
     Strings.HasPrefix (ld_Name ld +:+ "/" +:+ labelDescriptorFile) "" = true /\ label_got now repo s (ld_Name ld) = Some ld) ->
  forall q, is_Some (objects s !! q) -> Strings.HasPrefix q (GetArchivePathPrefixToLabels repo []) = true ->
    exists ld, ld ∈ labels /\ q = GetArchivePathToLabel repo (ld_Name ld).
Proof.
  intros Hok Hin q Hq Hp. destruct (Hok q Hq Hp) as (name & _ & Hn & -> & _).
  apply (label_got_present now repo) in Hq as [ld Hld]; [|done..]. exists ld.
  pose proof (label_got_name now repo repo_name _ _ _ Hok Hn Hld) as Hname. rewrite Hname. split; [|done]. apply Hin. rewrite Hname.
  split_and!; [done| |done]. by destruct (name +:+ "/" +:+ labelDescriptorFile).
Qed.

Lemma labels_ok_objects (s s' : S) : objects s' = objects s -> labels_ok repo s -> labels_ok repo s'.
Proof. intros Ho H k. unfold document. rewrite Ho. apply H. Qed.

(** The labels that are listed without a prefix, and the loop that deletes
    those that are not kept. *)

Lemma runs_delete_labels (keep : string -> Prop) `{!forall id, Decision (keep id)} msg f (labels : list LabelDescriptor) (c : Stores S) :
  (forall l, f l = if decide (keep (ld_BundleID l)) then mret tt
    else annotate (msg l) (DeleteLabel repo (ld_Name l) [WithDeleteSkipCheckRepo true])) ->
  labels_ok repo (VMetadata c) -> NoDup (ld_Name <$> labels) ->
  (forall ld, ld ∈ labels <-> Strings.no_slash (ld_Name ld) /\
     Strings.HasPrefix (ld_Name ld +:+ "/" +:+ labelDescriptorFile) "" = true /\ label_got now repo (VMetadata c) (ld_Name ld) = Some ld) ->
  runs (for_each labels f) c (fun _ c' =>
    objects (Metadata c') = objects (Metadata c) /\
    (forall q, Strings.HasPrefix q (GetArchivePathPrefixToLabels repo []) = false -> objects (VMetadata c') !! q = objects (VMetadata c) !! q) /\
    (forall name ld, Strings.no_slash name -> label_got now repo (VMetadata c) name = Some ld ->
       objects (VMetadata c') !! GetArchivePathToLabel repo name =
         if decide (keep (ld_BundleID ld)) then objects (VMetadata c) !! GetArchivePathToLabel repo name else None) /\
    (forall q, objects (VMetadata c) !! q = None -> objects (VMetadata c') !! q = None)).
Proof.
  intros Hf Hok Hnd Hin.
  assert (Hinj : forall a b, a ∈ labels -> b ∈ labels -> GetArchivePathToLabel repo (ld_Name a) = GetArchivePathToLabel repo (ld_Name b) -> a = b).
  { intros a b (Ha & _ & Ea)%Hin (Hb & _ & Eb)%Hin Heq. apply label_path_inj in Heq; [|done..]. rewrite Heq in Ea. congruence. }
  eapply runs_mono; [apply (removes_labels repo (fun l => keep (ld_BundleID l)))|].
  - intros x c' Hx Hsome. rewrite Hf. destruct (decide (keep (ld_BundleID x))); [by apply runs_ret|].
    apply runs_annotate, runs_DeleteLabel; [done|done|]. intros s' Ho. by split.
  - apply NoDup_fmap_2_strong; [done|]. by eapply NoDup_fmap_1.
  - intros x (Hx & _ & Ex)%Hin. apply (label_got_present now repo); eauto.
  - intros [] c' [Hm Hv]. split; [done|]. split; [|split; [|intros q Hq; rewrite Hv; by case_decide]].
    + intros q Hq. rewrite Hv, decide_False; [done|]. intros (x & -> & _)%list_elem_of_fmap. by rewrite label_path_area in Hq.
    + intros name ld Hn Hld. pose proof (label_got_name now repo repo_name _ _ _ Hok Hn Hld) as Hname. subst name.
      assert (ld ∈ labels) as Hl by (apply Hin; split_and!; [done|by destruct (ld_Name ld +:+ "/" +:+ labelDescriptorFile)|done]).
      rewrite Hv. destruct (decide (keep (ld_BundleID ld))) as [Hk|Hk].
      * rewrite decide_False; [done|]. intros (x & Heq & [Hnk Hx]%list_elem_of_filter)%list_elem_of_fmap. by rewrite <- (Hinj _ _ Hl Hx Heq) in Hnk.
      * rewrite decide_True; [done|]. apply list_elem_of_fmap. exists ld. split; [done|]. by apply list_elem_of_filter.
Qed.

Lemma whole_bundle_objects (s s' : S) id bd : objects s' = objects s -> whole_bundle s repo id bd -> whole_bundle s' repo id bd.
Proof.
  intros Ho [[H1 H2] [H3 H4] H5]. split; [split; [|done]|split; [done|]|]; rewrite ?Ho; auto. eapply document_objects; [|exact H1]. by rewrite Ho.
Qed.

Lemma repo_ok_same (c c' : Stores S) n : same_objects c c' -> repo_ok c n -> repo_ok c' n.
Proof.
  intros Hs [H1 [H2 H3] H4 H5]. pose proof (same_meta _ _ Hs) as Hm. pose proof (same_vmeta _ _ Hs) as Hv. split.
  - by rewrite Hm.
  - split; rewrite Hm; done.
  - intros k. unfold document. rewrite Hv. apply H4.
  - intros id Hid. rewrite Hm. intros [bd Hw]%H5; [|done]. exists bd. by eapply whole_bundle_objects.
Qed.

(** The bundles that are listed: of every bundle there is one descriptor, in
    the order of the identifiers. *)

Lemma runs_list_bundles msg sch opts (c : Stores S) n (Q : list BundleDescriptor -> Stores S -> Prop) :
  repo_ok c n -> listing_ok fuel (length (bundles_listing c)) (settings_of NumCPU opts) sch ->
  (forall bundles c', same_objects c c' -> lists repo (Metadata c) (bd_ID <$> bundles) -> Q bundles c') ->
  runs (listed msg (ListBundles kv fuel NumCPU repo sch opts)) c Q.
Proof.
  intros [Hex Hb _ Hwhole] Hl HQ.
  destruct (ListBundles_reads kv fuel NumCPU repo (settings_of NumCPU opts) repo_name sch opts c n eq_refl Hex Hb Hl) as (ids & Hids & Hr).
  unfold listed. apply runs_bind. eapply reads_runs; [exact Hr|]. intros c' Hs. apply runs_ret, HQ; [done|].
  assert (bd_ID <$> omap (bundle_got repo (settings_of NumCPU opts) (Metadata c)) ids = ids) as ->; [|done].
  destruct Hids as (_ & _ & Hno & Hin). assert (Hall : forall id, id ∈ ids -> exists d, bundle_got repo (settings_of NumCPU opts) (Metadata c) id = Some d /\ bd_ID d = id).
  { intros id Hid. rewrite Forall_forall in Hno. specialize (Hno id Hid). unfold bundle_got.
    destruct (withMinimalBundle _); [by eexists|]. destruct (Hwhole id Hno) as [bd [[(b & Hb' & Hu) Hid'] _ _]]; [by apply Hin|].
    exists bd. by rewrite Hb', Hu. }
  clear -Hall. induction ids as [|id ids IH]; [done|]. rewrite omap_cons. destruct (Hall id) as (d & -> & Hd); [set_solver|].
  rewrite fmap_cons, Hd, IH; [done|]. intros id' Hid'. apply Hall. set_solver.
Qed.

Lemma listed_whole (c : Stores S) n (bundles : list BundleDescriptor) b :
  repo_ok c n -> lists repo (Metadata c) (bd_ID <$> bundles) -> b ∈ bundles ->
  Strings.no_slash (bd_ID b) /\ exists bd, whole_bundle (Metadata c) repo (bd_ID b) bd.
Proof.
  intros Hok (_ & _ & Hno & Hin) Hb. rewrite Forall_forall in Hno. assert (bd_ID b ∈ bd_ID <$> bundles) as Hid by (by apply list_elem_of_fmap_2).
  split; [by apply Hno|]. apply (ro_whole _ _ Hok); [by apply Hno|]. by apply Hin; [apply Hno|].
Qed.

Lemma DeleteRepo_runs sch1 sch2 opts (c : Stores S) n :
  repo_ok c n ->
  listing_ok fuel (length (bundles_listing c)) (defaultSettings NumCPU) sch1 ->
  listing_ok fuel (length (labels_listing c "")) (defaultSettings NumCPU) sch2 ->
  runs (DeleteRepo kv versioned fuel NumCPU now repo sch1 sch2 opts) c (fun _ c' =>
    objects (Metadata c') =
      delete (GetArchivePathToRepoDescriptor repo) (outside (GetArchivePathPrefixToBundles repo) (objects (Metadata c))) /\
    objects (VMetadata c') = outside (GetArchivePathPrefixToLabels repo []) (objects (VMetadata c))).
Proof.
  intros Hok Hl1 Hl2. unfold DeleteRepo. apply runs_bind, runs_check_repo; [left; apply Hok|]. intros c1 Hs1.
  pose proof (repo_ok_same _ _ _ Hs1 Hok) as Hok1. pose proof (same_meta _ _ Hs1) as Hm1. pose proof (same_vmeta _ _ Hs1) as Hv1.
  apply runs_bind. eapply runs_list_bundles; [exact Hok1|unfold bundles_listing; by rewrite Hm1|]. intros bundles c2 Hs2 Hids.
  pose proof (repo_ok_same _ _ _ Hs2 Hok1) as Hok2. pose proof (same_meta _ _ Hs2) as Hm2. pose proof (same_vmeta _ _ Hs2) as Hv2.
  apply runs_bind. eapply runs_mono; [apply (removes_bundles repo (fun _ => False))|].
  - intros b c' Hb [bd Hw]. rewrite decide_False by tauto. apply runs_annotate. destruct (listed_whole c1 n bundles b Hok1 Hids Hb) as [Hn _].
    eapply runs_mono; [by eapply runs_DeleteBundle; [| |exact Hw| |]; unfold deleteOptionsWithDefaults; rewrite ?fold_left_app|].
    intros [] c'' [H1 H2]. by split.
  - apply Hids.
  - intros b Hb. destruct (listed_whole c1 n bundles b Hok1 Hids Hb) as [Hn [bd Hw]]. split; [done|]. exists bd. by eapply whole_bundle_objects.
  - intros [] c3 [Hv3 Hm3]. rewrite filter_all in Hm3 by (apply Forall_forall; tauto).
    rewrite Hm2, (without_all _ n) in Hm3; [|apply Hok1|done].
    assert (is_Some (objects (Metadata c3) !! GetArchivePathToRepoDescriptor repo)) as Hex3.
    { rewrite Hm3, outside_lookup, repo_path_not_bundle, Hm1. apply Hok. }
    assert (labels_ok repo (VMetadata c3)) as Hlab3.
    { intros k. unfold document. rewrite Hv3, Hv2. apply (ro_labels _ _ Hok1). }
    apply runs_bind. unfold listed. apply runs_bind. eapply runs_mono.
    { apply (ListLabels_runs kv versioned fuel NumCPU now repo repo_name sch2 [] c3); [done|done|done|]. rewrite Hv3, Hv2, Hv1. exact Hl2. }
    intros [labels err] c4 (Hs4 & Herr & Hnd & Hin). cbn [fst snd] in *. subst err. apply runs_ret.
    pose proof (same_meta _ _ Hs4) as Hm4. pose proof (same_vmeta _ _ Hs4) as Hv4.
    apply runs_bind. eapply runs_mono; [eapply (runs_delete_labels (fun _ => False)); [|by apply (labels_ok_objects (VMetadata c3))|done|]|].
    { intros l. by rewrite decide_False by tauto. }
    { intros ld. rewrite Hin. unfold label_got. by rewrite Hv4. }
    intros [] c5 (Hm5 & Hout & Hgone & Habs). apply runs_annotate, runs_meta, runs_Delete; [by rewrite Hm5, Hm4|]. intros s6 Ho6.
    cbn [Metadata VMetadata SetMetadata]. split; [by rewrite Ho6, Hm5, Hm4, Hm3, Hm1|].
    apply map_eq. intros q. rewrite outside_lookup. assert (objects (VMetadata c4) = objects (VMetadata c)) as Hv40 by congruence.
    destruct (Strings.HasPrefix q _) eqn:Hp; [|by rewrite Hout, Hv40]. destruct (objects (VMetadata c4) !! q) as [b|] eqn:Eb.
    + destruct (labels_ok_objects _ _ Hv4 Hlab3 q) as (name & _ & Hn & -> & _); [by rewrite Eb|done|].
      destruct (proj1 (label_got_present now repo _ _ (labels_ok_objects _ _ Hv4 Hlab3) Hn)) as [ld Hld]; [by rewrite Eb|].
      rewrite (Hgone _ _ Hn Hld). by rewrite decide_False by tauto.
    + by apply Habs.
Qed.

(** DeleteRepo removes the descriptor of the repository, every object of
    its bundles and every label, and no other object of the metadata stores;
    in particular, the diamonds and splits of the repository stay. *)
Theorem DeleteRepo_correct sch1 sch2 opts (c : Stores S) n :
  repo_ok c n ->
  listing_ok fuel (length (bundles_listing c)) (defaultSettings NumCPU) sch1 ->
  listing_ok fuel (length (labels_listing c "")) (defaultSettings NumCPU) sch2 ->
  runs (DeleteRepo kv versioned fuel NumCPU now repo sch1 sch2 opts) c (fun _ c' =>
    objects (Metadata c') =
      delete (GetArchivePathToRepoDescriptor repo) (outside (GetArchivePathPrefixToBundles repo) (objects (Metadata c))) /\
    objects (VMetadata c') = outside (GetArchivePathPrefixToLabels repo []) (objects (VMetadata c))).
Proof. apply DeleteRepo_runs. Qed.

(** ** Squashing *)

Lemma listing_length_mono (m m' : gmap string bytes) prefix delim :
  (forall q, is_Some (m' !! q) -> is_Some (m !! q)) -> length (listing m' prefix delim) <= length (listing m prefix delim).
Proof.
  intros Hsub. apply submseteq_length, NoDup_submseteq; [apply listing_NoDup|]. intros k.
  rewrite !listing_elem. intros (k' & Hk & Hp & ->). exists k'. auto.
Qed.

Lemma listing_ok_mono len len' settings sch : len' <= len -> listing_ok fuel len settings sch -> listing_ok fuel len' settings sch.
Proof. intros Hle [H1 H2 H3 H4 H5]. split; [lia|done..]. Qed.

Lemma bundles_ok_sub (s s' : S) n :
  (forall q b, objects s' !! q = Some b -> objects s !! q = Some b) -> bundles_ok repo s n -> bundles_ok repo s' n.
Proof.
  intros Hsub [H1 H2]. split.
  - intros k [b Hb] Hp. apply H1; [|done]. exists b. by apply Hsub.
  - intros id b Hid Hb. by apply H2, Hsub.
Qed.

Lemma collect_index {T : Type} (l : list BundleDescriptor) (t : T) : forall X : gset string,
  for_each l (fun b => (fun '(t, index) => (Ok tt, (t, {[bd_ID b]} ∪ index))) : M (T * gset string) unit) (t, X)
    = (Ok tt, (t, list_to_set (bd_ID <$> l) ∪ X)).
Proof.
  induction l as [|b l IH]; intros X; cbn [for_each].
  - unfold mret, M_ret. do 2 f_equal. set_solver.
  - unfold mbind, M_bind. rewrite IH. do 2 f_equal. rewrite fmap_cons. set_solver.
Qed.

(** What is left of the bundles when those of [gone] are removed. *)

Lemma lists_without (s s' : S) (ids ids' gone : list string) :
  lists repo s ids -> lists repo s' ids' -> objects s' = without_bundles repo gone (objects s) -> (forall id, id ∈ gone -> id ∈ ids) ->
  forall id, id ∈ ids' <-> id ∈ ids /\ id ∉ gone.
Proof.
  intros (_ & _ & Hno & Hin) (_ & _ & Hno' & Hin') Ho Hsub id. rewrite Forall_forall in Hno, Hno'.
  assert (Hlook : forall file, Strings.no_slash id -> objects s' !! (bundle_area repo id +:+ file) =
    if decide (id ∈ gone) then None else objects s !! (bundle_area repo id +:+ file)).
  { intros file Hid. rewrite Ho, without_bundles_lookup. destruct (in_area repo gone (bundle_area repo id +:+ file)) eqn:E.
    - apply in_area_true in E as (id2 & H2 & Hp). rewrite decide_True; [done|].
      by rewrite (area_disjoint repo id id2 _ Hid (Hno _ (Hsub _ H2)) (Strings.HasPrefix_app _ _) Hp).
    - rewrite decide_False; [done|]. intros Hg. apply not_true_iff_false in E. apply E, in_area_true. exists id.
      split; [done|apply Strings.HasPrefix_app]. }
  split.
  - intros Hid. pose proof (Hno' _ Hid) as Hn. apply Hin' in Hid as [file Hf]; [|done]. fold (bundle_area repo id) in Hf. rewrite Hlook in Hf by done.
    case_decide; [by destruct Hf|]. split; [|done]. apply Hin; [done|]. by exists file.
  - intros [Hid Hg]. pose proof (Hno _ Hid) as Hn. apply Hin in Hid as [file Hf]; [|done]. apply Hin'; [done|]. exists file.
    fold (bundle_area repo id). by rewrite Hlook, decide_False.
Qed.

Lemma runs_bundles_index sch i opts (c : Stores S) n :
  let settings := settings_of NumCPU ((opts ++ [WithMinimalBundle true]) ++ [WithDoneChan true]) in
  is_Some (objects (Metadata c) !! GetArchivePathToRepoDescriptor repo) -> bundles_ok repo (Metadata c) n ->
  listing_ok fuel (length (bundles_listing c)) settings sch ->
  runs (bundles_index kv fuel NumCPU repo sch i (opts ++ [WithMinimalBundle true])) c (fun index c' =>
    same_objects c c' /\ exists ids, lists repo (Metadata c) ids /\ index = list_to_set ids).
Proof.
  intros settings Hex Hok Hl. unfold bundles_index.
  destruct (ListBundlesApply_eq kv fuel NumCPU repo settings repo_name sch i (opts ++ [WithMinimalBundle true])
    (fun b => fun '(c, index) => (Ok tt, (c, {[bd_ID b]} ∪ index))) c (∅ : gset string) n eq_refl Hex Hok Hl) as (ids & c1 & Hids & Hs & E).
  eexists (list_to_set ids), c1. rewrite E. erewrite collect_index. split.
  - do 2 f_equal. rewrite union_empty_r_L. f_equal. clear. induction ids as [|id ids IH]; [done|]. rewrite omap_cons. unfold bundle_got at 1.
    assert (withMinimalBundle settings = true) as -> by (unfold settings, settings_of; by rewrite !fold_left_app).
    rewrite fmap_cons. by rewrite IH.
  - split; [done|]. by exists ids.
Qed.

Variable semver : string -> bool.

Section squash.
Variables (sch1 sch2 : schedule) (i : interruption) (opts : list Option) (c : Stores S) (n : nat).
Let opts' := opts ++ [WithMinimalBundle true].
Let settings := settings_of NumCPU opts'.
Let N := Z.to_nat (retainNLatest settings).
Let tags := retainTags settings || retainSemverTags settings.

(** The bundles that are kept: the latest ones and those with a tag that is retained. *)

Definition tagged (id : string) : Prop :=
  tags = true /\ exists name ld, Strings.no_slash name /\ label_got now repo (VMetadata c) name = Some ld /\
    Strings.HasPrefix (name +:+ "/" +:+ labelDescriptorFile) (labelPrefix settings) = true /\
    retainTags settings || semver name = true /\ ld_BundleID ld = id.

Definition latest (ids : list string) (id : string) : Prop := id ∈ drop (length ids - N) ids.

Record squash_ok : Prop := {
  sq_repo : repo_ok c n;
  sq_retain : (0 < retainNLatest settings)%Z;
  sq_versions : labelVersions settings = false;
  sq_list1 : listing_ok fuel (length (bundles_listing c)) settings sch1;
  sq_list2 : listing_ok fuel (length (bundles_listing c)) (settings_of NumCPU (opts' ++ [WithDoneChan true])) sch1;
  sq_list3 : listing_ok fuel (length (labels_listing c (labelPrefix settings))) settings sch2;
  sq_list4 : listing_ok fuel (length (labels_listing c "")) (defaultSettings NumCPU) sch2
}.

Hypothesis ok : squash_ok.

(** The set of the bundles with a tag that is retained. *)

Lemma runs_labels_index (c1 : Stores S) :
  same_objects c c1 ->
  runs (if tags : bool then
          labels ← listed Datatypes.id (ListLabels kv versioned fuel NumCPU now repo sch2 opts');
          mret (labels_index semver settings labels)
        else mret ∅) c1 (fun index c2 => same_objects c c2 /\ forall id, tags = true /\ id ∈ index <-> tagged id).
Proof.
  intros Hs. pose proof (same_vmeta _ _ Hs) as Hv. destruct tags eqn:Et.
  2:{ apply runs_ret. split; [done|]. intros id. unfold tagged. rewrite Et. naive_solver. }
  apply runs_bind. unfold listed. apply runs_bind. eapply runs_mono.
  { apply (ListLabels_runs kv versioned fuel NumCPU now repo repo_name sch2 opts' c1).
    - apply ok.
    - rewrite (same_meta _ _ Hs). apply ok.
    - eapply labels_ok_objects; [exact Hv|]. apply ok.
    - rewrite Hv. apply ok. }
  intros [labels err] c2 (Hs2 & Herr & _ & Hin). cbn [fst snd] in *. subst err. apply runs_ret, runs_ret. split; [by etrans|].
  intros id. unfold labels_index, tagged. rewrite Et, elem_of_list_to_set, list_elem_of_fmap. split.
  - intros [_ (ld & -> & [Hsem Hld]%list_elem_of_filter)]. apply Hin in Hld as (Hn & Hp & Hg). split; [done|].
    exists (ld_Name ld), ld. split_and!; try done. unfold label_got in *. by rewrite <- Hv.
  - intros [_ (name & ld & Hn & Hg & Hp & Hsem & <-)]. split; [done|]. exists ld. split; [done|].
    assert (ld_Name ld = name) as Hname by (eapply (label_got_name now repo repo_name); [apply ok|done|exact Hg]).
    apply list_elem_of_filter. rewrite Hin, Hname. split_and!; try done. unfold label_got in *. by rewrite Hv.
Qed.

Lemma elem_take_drop (l : list string) k id : NoDup l -> id ∈ l -> id ∈ take k l <-> id ∉ drop k l.
Proof.
  intros Hnd Hid. rewrite <- (take_drop k l) in Hnd, Hid. apply NoDup_app in Hnd as (_ & Hd & _).
  apply elem_of_app in Hid. split; [apply Hd|]. tauto.
Qed.

(** The bundles that go: the old ones without a tag that is retained. *)

Lemma runs_squash_bundles (bundles : list BundleDescriptor) (index : gset string) (c1 : Stores S) :
  let ids := bd_ID <$> bundles in
  same_objects c c1 -> lists repo (Metadata c) ids -> (forall id, tags = true /\ id ∈ index <-> tagged id) ->
  runs (for_each (take (length bundles - N) bundles) (fun bundle =>
          if decide (tags = true /\ bd_ID bundle ∈ index) then mret tt
          else DeleteBundle kv versioned fuel NumCPU now repo (bd_ID bundle) sch2 squash_options)) c1 (fun _ c2 =>
    objects (VMetadata c2) = objects (VMetadata c) /\ exists gone, objects (Metadata c2) = without_bundles repo gone (objects (Metadata c)) /\
      forall id, id ∈ gone <-> id ∈ ids /\ ~ (latest ids id \/ tagged id)).
Proof.
  intros ids Hs Hids Htag. pose proof (repo_ok_same _ _ _ Hs (sq_repo ok)) as Hok1. pose proof Hids as (Hnd & _ & _ & _).
  assert (Hin : forall b, b ∈ take (length bundles - N) bundles -> b ∈ bundles) by (intros b; apply elem_of_subseteq, subseteq_take).
  eapply runs_mono; [apply (removes_bundles repo (fun id => tags = true /\ id ∈ index))|].
  - intros b c' Hb [bd Hw]. case_decide; [by apply runs_ret|]. destruct (listed_whole c n bundles b (sq_repo ok) Hids (Hin _ Hb)) as [Hn _].
    eapply runs_mono; [by eapply runs_DeleteBundle|]. intros [] c'' [H1 H2]. by split.
  - rewrite fmap_take. eapply sublist_NoDup; [exact Hnd|apply sublist_take].
  - intros b Hb. destruct (listed_whole c n bundles b (sq_repo ok) Hids (Hin _ Hb)) as [Hn [bd Hw]]. split; [done|]. exists bd.
    eapply whole_bundle_objects; [|exact Hw]. by rewrite (same_meta _ _ Hs).
  - intros [] c2 [Hv2 Hm2]. split; [by rewrite Hv2, (same_vmeta _ _ Hs)|]. eexists. split; [by rewrite Hm2, (same_meta _ _ Hs)|].
    intros id. rewrite list_elem_of_filter, Htag, fmap_take. fold ids. unfold latest.
    replace (length ids) with (length bundles) by (unfold ids; by rewrite length_fmap). split.
    + intros [Hnt Hid]. assert (id ∈ ids) as Hi by (by eapply elem_of_subseteq; [apply subseteq_take|]).
      split; [done|]. intros [Hl|]; [|done]. by apply (elem_take_drop ids (length bundles - N) id Hnd Hi) in Hid.
    + intros [Hi Hno]. split; [tauto|]. apply elem_take_drop; [done..|]. tauto.
Qed.

(** The labels whose bundle is gone go as well. *)

Lemma runs_squash_labels (ids gone : list string) (c1 : Stores S) :
  lists repo (Metadata c) ids -> (forall id, id ∈ gone -> id ∈ ids) ->
  objects (VMetadata c1) = objects (VMetadata c) -> objects (Metadata c1) = without_bundles repo gone (objects (Metadata c)) ->
  runs (bundlesIndex ← bundles_index kv fuel NumCPU repo sch1 i opts';
        labels ← listed (Errorf ("cannot list labels in repo " +:+ repo)) (ListLabels kv versioned fuel NumCPU now repo sch2 []);
        for_each labels (fun l =>
          if decide (ld_BundleID l ∈ bundlesIndex) then mret tt
          else annotate ("cannot delete label " +:+ ld_Name l +:+ " on bundle " +:+ ld_BundleID l +:+ " in repo " +:+ repo)
                 (DeleteLabel repo (ld_Name l) [WithDeleteSkipCheckRepo true]))) c1 (fun _ c2 =>
    objects (Metadata c2) = objects (Metadata c1) /\
    (forall q, Strings.HasPrefix q (GetArchivePathPrefixToLabels repo []) = false -> objects (VMetadata c2) !! q = objects (VMetadata c) !! q) /\
    (forall name ld, Strings.no_slash name -> label_got now repo (VMetadata c) name = Some ld ->
       objects (VMetadata c2) !! GetArchivePathToLabel repo name =
         if decide (ld_BundleID ld ∈ ids /\ ld_BundleID ld ∉ gone) then objects (VMetadata c) !! GetArchivePathToLabel repo name else None)).
Proof.
  intros Hids Hsub Hv1 Hm1. pose proof (sq_repo ok) as Hok.
  assert (Hsubm : forall q b, objects (Metadata c1) !! q = Some b -> objects (Metadata c) !! q = Some b).
  { intros q b. rewrite Hm1, without_bundles_lookup. by destruct (in_area repo gone q). }
  assert (is_Some (objects (Metadata c1) !! GetArchivePathToRepoDescriptor repo)) as Hex1.
  { rewrite Hm1, without_bundles_lookup. destruct (in_area repo gone _) eqn:E; [|apply Hok].
    apply in_area_true in E as (id & _ & Hp%area_prefix). by rewrite repo_path_not_bundle in Hp. }
  apply runs_bind. eapply runs_mono; [apply (runs_bundles_index sch1 i opts c1 n)|].
  { done. }
  { eapply bundles_ok_sub; [exact Hsubm|]. apply Hok. }
  { eapply listing_ok_mono; [|apply (sq_list2 ok)]. apply listing_length_mono. intros q [b Hb]. exists b. by apply Hsubm. }
  intros index c2 (Hs2 & ids' & Hids' & ->). pose proof (lists_without _ _ _ _ _ Hids Hids' Hm1 Hsub) as Hiff.
  assert (objects (VMetadata c2) = objects (VMetadata c)) as Hv2 by (by rewrite (same_vmeta _ _ Hs2)).
  pose proof (labels_ok_objects _ _ Hv2 (ro_labels _ _ Hok)) as Hlab2.
  apply runs_bind. unfold listed. apply runs_bind. eapply runs_mono.
  { apply (ListLabels_runs kv versioned fuel NumCPU now repo repo_name sch2 [] c2); [done|by rewrite (same_meta _ _ Hs2)|done|].
    rewrite Hv2. apply (sq_list4 ok). }
  intros [labels err] c3 (Hs3 & Herr & Hnd & Hin). cbn [fst snd] in *. subst err. apply runs_ret.
  assert (objects (VMetadata c3) = objects (VMetadata c)) as Hv3 by (by rewrite (same_vmeta _ _ Hs3)).
  eapply runs_mono; [apply (runs_delete_labels (fun id => id ∈ (list_to_set ids' : gset string))
    (fun l => "cannot delete label " +:+ ld_Name l +:+ " on bundle " +:+ ld_BundleID l +:+ " in repo " +:+ repo))|].
  { done. }
  { by apply (labels_ok_objects (VMetadata c2)), Hlab2; rewrite Hv3, Hv2. }
  { done. }
  { intros ld. rewrite Hin. unfold label_got. by rewrite Hv2, Hv3. }
  intros [] c4 (Hm4 & Hout & Hlook & _). rewrite Hv3 in Hout. split_and!.
  - by rewrite Hm4, (same_meta _ _ Hs3), (same_meta _ _ Hs2).
  - exact Hout.
  - intros name ld Hn Hg. rewrite (Hlook name ld Hn) by (unfold label_got in *; by rewrite Hv3). rewrite Hv3.
    apply decide_ext. by rewrite elem_of_list_to_set, Hiff.
Qed.

(** C29: RepoSquash keeps the latest bundles of a repository, as many as it is
    asked to, and, with tags retained, those a retained label points to; it
    removes every object of the other bundles, and then every label that does
    not point to a bundle that is left. A repository with no more bundles than
    are retained is left alone. No other object of the metadata stores changes. *)
Theorem RepoSquash_correct :
  runs (RepoSquash kv versioned fuel NumCPU now semver repo sch1 sch2 i opts) c (fun _ c' =>
    exists ids, lists repo (Metadata c) ids /\ let kept id := latest ids id \/ tagged id in
    (forall id file, id ∈ ids -> kept id -> objects (Metadata c') !! (bundle_area repo id +:+ file) = objects (Metadata c) !! (bundle_area repo id +:+ file)) /\
    (forall id file, id ∈ ids -> ~ kept id -> objects (Metadata c') !! (bundle_area repo id +:+ file) = None) /\
    (forall q, Strings.HasPrefix q (GetArchivePathPrefixToBundles repo) = false -> objects (Metadata c') !! q = objects (Metadata c) !! q) /\
    (forall q, Strings.HasPrefix q (GetArchivePathPrefixToLabels repo []) = false -> objects (VMetadata c') !! q = objects (VMetadata c) !! q) /\
    (length ids <= N -> objects (VMetadata c') = objects (VMetadata c)) /\
    (N < length ids -> forall name ld, Strings.no_slash name -> label_got now repo (VMetadata c) name = Some ld ->
       let left := ld_BundleID ld ∈ ids /\ kept (ld_BundleID ld) in
       (left -> objects (VMetadata c') !! GetArchivePathToLabel repo name = objects (VMetadata c) !! GetArchivePathToLabel repo name) /\
       (~ left -> objects (VMetadata c') !! GetArchivePathToLabel repo name = None))).
Proof.
  pose proof (sq_repo ok) as Hok. pose proof (sq_retain ok) as Hret. unfold RepoSquash. fold opts' settings.
  apply runs_bind, runs_annotate. eapply reads_runs; [apply reads_RepoExists, Hok|]. intros c1 Hs1.
  apply runs_bind. eapply runs_list_bundles; [by eapply repo_ok_same| |].
  { unfold bundles_listing. rewrite (same_meta _ _ Hs1). apply (sq_list1 ok). }
  intros bundles c2 Hs2 Hids. assert (same_objects c c2) as Hs02 by (by etrans).
  set (ids := bd_ID <$> bundles) in *. assert (lists repo (Metadata c) ids) as Hids0.
  { unfold lists in *. by rewrite (same_meta _ _ Hs1) in Hids. }
  assert (length ids = length bundles) as Hlen by apply length_fmap.
  assert ((if (retainNLatest settings =? 0)%Z then 1%Z else retainNLatest settings) = retainNLatest settings) as ->.
  { destruct (Z.eqb_spec (retainNLatest settings) 0); lia. }
  destruct (decide (Z.of_nat (length bundles) < retainNLatest settings + 1)%Z) as [Hfew|Hmany].
  { apply runs_ret. exists ids. split; [done|]. assert (length ids <= N) as HN by (unfold N; lia).
    rewrite (same_meta _ _ Hs02), (same_vmeta _ _ Hs02).
    refine (conj _ (conj _ (conj _ (conj _ (conj _ _))))); try done; [|lia].
    intros id file Hid []. left. unfold latest. by replace (length ids - N) with 0 by lia. }
  apply runs_bind. fold tags. eapply runs_mono; [by apply runs_labels_index|]. intros index c3 [Hs3 Htag].
  apply runs_bind. eapply runs_lift; [unfold slice_to; rewrite decide_True by lia; reflexivity|].
  replace (Z.to_nat (Z.of_nat (length bundles) - retainNLatest settings)) with (length bundles - N) by (unfold N; lia).
  apply runs_bind. eapply runs_mono; [by apply runs_squash_bundles|]. intros [] c4 (Hv4 & gone & Hm4 & Hgone).
  eapply runs_mono; [apply (runs_squash_labels ids gone c4); [done|intros id H; by apply Hgone|done|done]|].
  intros [] c5 (Hm5 & Hout & Hlabels). exists ids. split; [done|]. rewrite Hm5, Hm4. pose proof Hids0 as (_ & _ & Hno & _). rewrite Forall_forall in Hno.
  assert (Harea : forall id file, id ∈ ids -> in_area repo gone (bundle_area repo id +:+ file) = true <-> id ∈ gone).
  { intros id file Hid. rewrite in_area_true. split.
    - intros (id2 & H2 & Hp). pose proof (proj1 (proj1 (Hgone id2) H2)) as Hid2.
      by rewrite (area_disjoint repo id id2 _ (Hno _ Hid) (Hno _ Hid2) (Strings.HasPrefix_app _ _) Hp).
    - intros H. exists id. split; [done|apply Strings.HasPrefix_app]. }
  refine (conj _ (conj _ (conj _ (conj Hout (conj _ _))))).
  - intros id file Hid Hk. rewrite without_bundles_lookup. destruct (in_area repo gone _) eqn:E; [|done].
    apply Harea, Hgone in E; [|done]. tauto.
  - intros id file Hid Hk. rewrite without_bundles_lookup. by rewrite (proj2 (Harea id file Hid)) by (by apply Hgone).
  - intros q Hq. rewrite without_bundles_lookup. destruct (in_area repo gone q) eqn:E; [|done].
    apply in_area_true in E as (id & _ & Hp%area_prefix). congruence.
  - unfold N. lia.
  - intros _ name ld Hn Hg. rewrite (Hlabels name ld Hn Hg). split; intros H.
    + rewrite decide_True; [done|]. rewrite Hgone. tauto.
    + rewrite decide_False; [done|]. rewrite Hgone. tauto.
Qed.

End squash.

End repositories.

(** ** Removal of entries *)

Section entries.
Context {S : Type} `{HS : !Store S, HSL : !StoreLaws S, HR : !ReliableStore S, HLL : !ListingLaws S}.
Context {GS : GoSort} {GSL : GoSortLaws} {HYL : Yaml LabelDescriptor} {HYB : Yaml BundleDescriptor}.
Context {HYE : Yaml (list BundleEntry)} {HYEL : YamlLaws (list BundleEntry)}.
Variables (kv : string -> bool) (fuel : nat) (NumCPU : Z) (repo : string) (toDelete : list string).
Hypothesis repo_name : Strings.no_slash repo.

Definition stays (es : list BundleEntry) : list BundleEntry := filter (fun e => NameWithPath e ∉ toDelete) es.

Lemma stays_all es : existsb (fun e => bool_decide (NameWithPath e ∈ toDelete)) es = false -> stays es = es.
Proof.
  intros H. apply filter_all, Forall_forall. intros e He Hin. apply not_true_iff_false in H. apply H, existsb_exists.
  exists e. rewrite <- list_elem_of_In, bool_decide_eq_true. done.
Qed.

Lemma delete_entries_in_runs id i es (s : S) (Q : unit -> S -> Prop) :
  document s (GetArchivePathToBundleFileList repo id i) es ->
  (forall s', document s' (GetArchivePathToBundleFileList repo id i) (stays es) ->
     (forall q, q <> GetArchivePathToBundleFileList repo id i -> objects s' !! q = objects s !! q) -> Q tt s') ->
  runs (delete_entries_in repo id toDelete i) s Q.
Proof.
  intros (b & Hb & Hu) HQ. unfold delete_entries_in. apply runs_bind, runs_annotate. eapply runs_Get; [exact Hb|]. intros s1 Ho1.
  apply runs_bind, runs_annotate. eapply runs_lift; [exact Hu|]. unfold retained_entries.
  destruct (existsb _ es) eqn:E.
  - fold (stays es). destruct (Marshal_total (stays es)) as [b' Hb'].
    apply runs_bind, runs_annotate. eapply runs_lift; [exact Hb'|]. apply runs_annotate, runs_Put; [done|]. intros s2 Ho2. apply HQ.
    + exists b'. rewrite Ho2, lookup_insert_eq. split; [done|by apply Unmarshal_Marshal].
    + intros q Hq. by rewrite Ho2, lookup_insert_ne, Ho1.
  - apply runs_ret, HQ; [|intros q _; by rewrite Ho1]. rewrite stays_all by done. exists b. by rewrite Ho1.
Qed.

(** The index files of one bundle. *)

Lemma delete_entries_runs id (E : N -> list BundleEntry) : forall (l : list N) (s : S),
  NoDup l -> (forall i, i ∈ l -> document s (GetArchivePathToBundleFileList repo id i) (E i)) ->
  runs (for_each l (delete_entries_in repo id toDelete)) s (fun _ s' =>
    (forall i, i ∈ l -> document s' (GetArchivePathToBundleFileList repo id i) (stays (E i))) /\
    (forall q, (forall i, i ∈ l -> q <> GetArchivePathToBundleFileList repo id i) -> objects s' !! q = objects s !! q)).
Proof.
  induction l as [|i l IH]; intros s Hnd Hall; [apply runs_ret; by split; [intros i ?%elem_of_nil|]|]. apply NoDup_cons in Hnd as [Hni Hnd].
  cbn [for_each]. apply runs_bind. eapply delete_entries_in_runs; [apply Hall; by left|]. intros s1 Hd1 Hq1.
  eapply runs_mono; [apply IH; [done|]|].
  - intros j Hj. eapply document_objects; [|apply Hall; by right]. apply Hq1. by intros ->%bundle_list_inj.
  - intros [] s2 [Hd2 Hq2]. split.
    + intros j Hj. apply elem_of_cons in Hj as [->|Hj]; [|by apply Hd2]. eapply document_objects; [|exact Hd1].
      apply Hq2. intros j Hj Heq%bundle_list_inj. by subst.
    + intros q Hq. rewrite Hq2 by (intros j Hj; apply Hq; by right). apply Hq1, Hq. by left.
Qed.

Lemma list_path_other id id' i j :
  Strings.no_slash id -> Strings.no_slash id' -> id <> id' ->
  GetArchivePathToBundleFileList repo id i <> GetArchivePathToBundleFileList repo id' j.
Proof.
  intros Hn Hn' Hne H. destruct (list_path_area repo id i) as [f Hf], (list_path_area repo id' j) as [f' Hf'].
  apply Hne. eapply directory_inj; [done..|]. rewrite Hf, Hf' in H. exact H.
Qed.

Lemma bundle_path_not_any_list id id' j :
  Strings.no_slash id -> Strings.no_slash id' -> GetArchivePathToBundle repo id <> GetArchivePathToBundleFileList repo id' j.
Proof.
  intros Hn Hn' H. destruct (decide (id = id')) as [->|Hne]; [by apply bundle_path_not_list in H|].
  destruct (list_path_area repo id' j) as [f' Hf']. apply Hne. eapply directory_inj; [done..|]. rewrite bundle_path_area, Hf' in H. exact H.
Qed.

(** All bundles. *)

Lemma all_entries_runs (E : string -> N -> list BundleEntry) : forall (l : list BundleDescriptor) (c : Stores S),
  NoDup (bd_ID <$> l) ->
  (forall b, b ∈ l -> Strings.no_slash (bd_ID b) /\ exists bd, document (Metadata c) (GetArchivePathToBundle repo (bd_ID b)) bd /\ bd_ID bd = bd_ID b /\
     forall i, (i < bd_BundleEntriesFileCount bd)%N -> document (Metadata c) (GetArchivePathToBundleFileList repo (bd_ID b) i) (E (bd_ID b) i)) ->
  runs (for_each l (fun b =>
    r ← attempt (getMetaStore (downloadBundleDescriptor kv repo (GetArchivePathToBundle repo (bd_ID b)) (defaultSettings NumCPU)));
    match r with
    | inr _ => fail (ErrMsg ("cannot download metadata for bundle " +:+ bd_ID b +:+ " in repo " +:+ repo +:+ ": <nil>"))
    | inl bundle => getMetaStore (for_each (upto_count (bd_BundleEntriesFileCount bundle)) (delete_entries_in repo (bd_ID b) toDelete))
    end)) c (fun _ c' =>
    objects (VMetadata c') = objects (VMetadata c) /\
    (forall b bd i, b ∈ l -> document (Metadata c) (GetArchivePathToBundle repo (bd_ID b)) bd -> (i < bd_BundleEntriesFileCount bd)%N ->
       document (Metadata c') (GetArchivePathToBundleFileList repo (bd_ID b) i) (stays (E (bd_ID b) i))) /\
    (forall q, (forall b i, b ∈ l -> q <> GetArchivePathToBundleFileList repo (bd_ID b) i) -> objects (Metadata c') !! q = objects (Metadata c) !! q)).
Proof.
  induction l as [|b l IH]; intros c Hnd Hall; [apply runs_ret; split_and!; [done|by intros b bd i ?%elem_of_nil|done]|].
  rewrite fmap_cons in Hnd. apply NoDup_cons in Hnd as [Hni Hnd]. destruct (Hall b) as (Hn & bd & Hdoc & Hid & HE); [by left|].
  cbn [for_each]. apply runs_bind, runs_bind, runs_attempt, runs_meta. eapply runs_downloadBundleDescriptor; [done|done|exact Hdoc|done|].
  intros s1 Ho1. apply runs_meta. eapply runs_mono; [apply (delete_entries_runs (bd_ID b) (E (bd_ID b))); [apply NoDup_upto|]|].
  { intros i Hi%elem_upto. eapply document_objects; [|by apply HE]. cbn [Metadata SetMetadata]. by rewrite Ho1. }
  cbn [Metadata SetMetadata]. intros [] s2 [Hd2 Hq2].
  assert (Hother : forall b', b' ∈ l -> Strings.no_slash (bd_ID b') /\ bd_ID b' <> bd_ID b).
  { intros b' Hb'. split; [apply (Hall b'); by right|]. intros Heq. apply Hni. rewrite <- Heq. by apply list_elem_of_fmap_2. }
  assert (Hkeep : forall q, (forall i, q <> GetArchivePathToBundleFileList repo (bd_ID b) i) -> objects s2 !! q = objects (Metadata c) !! q).
  { intros q Hq. rewrite Hq2 by (intros i _; apply Hq). by rewrite Ho1. }
  eapply runs_mono; [apply IH; [done|]|]; cbn [Metadata VMetadata SetMetadata].
  - intros b' Hb'. destruct (Hall b') as (Hn' & bd' & Hdoc' & Hid' & HE'); [by right|]. split; [done|]. exists bd'.
    destruct (Hother b' Hb') as [_ Hne]. split_and!; [|done|].
    + eapply document_objects; [|exact Hdoc']. apply Hkeep. intros i. by apply bundle_path_not_any_list.
    + intros i Hi. eapply document_objects; [|by apply HE']. apply Hkeep. intros j. by apply list_path_other.
  - intros [] c3 (Hv3 & Hd3 & Hq3). split; [done|]. split.
    + intros b' bd' i Hb' Hdoc' Hi. apply elem_of_cons in Hb' as [->|Hb'].
      * rewrite (document_unique _ _ _ _ Hdoc' Hdoc) in Hi. eapply document_objects; [|by apply Hd2, elem_upto].
        apply Hq3. intros b'' j Hb''. destruct (Hother b'' Hb''). apply list_path_other; [done..|]. by apply not_eq_sym.
      * apply (Hd3 b' bd' i); [done| |done]. eapply document_objects; [|exact Hdoc']. apply Hkeep. intros j.
        destruct (Hother b' Hb'). by apply bundle_path_not_any_list.
    + intros q Hq. rewrite Hq3 by (intros b' j Hb'; apply Hq; by right). apply Hkeep. intros j. apply Hq. by left.
Qed.

(** DeleteEntriesFromRepo removes the entries with the given names from
    every index file of every bundle of a repository, keeps the other entries
    in their order, and changes no other object. *)
Theorem DeleteEntriesFromRepo_correct sch (c : Stores S) n (E : string -> N -> list BundleEntry) :
  repo_ok repo c n -> listing_ok fuel (length (bundles_listing repo c)) (defaultSettings NumCPU) sch ->
  (forall id bd i, Strings.no_slash id -> whole_bundle (Metadata c) repo id bd -> (i < bd_BundleEntriesFileCount bd)%N ->
     document (Metadata c) (GetArchivePathToBundleFileList repo id i) (E id i)) ->
  runs (DeleteEntriesFromRepo kv fuel NumCPU repo toDelete sch) c (fun _ c' =>
    objects (VMetadata c') = objects (VMetadata c) /\
    (forall id bd i, Strings.no_slash id -> whole_bundle (Metadata c) repo id bd -> (i < bd_BundleEntriesFileCount bd)%N ->
       document (Metadata c') (GetArchivePathToBundleFileList repo id i) (filter (fun e => NameWithPath e ∉ toDelete) (E id i))) /\
    (forall q, (forall id i, Strings.no_slash id -> q <> GetArchivePathToBundleFileList repo id i) ->
       objects (Metadata c') !! q = objects (Metadata c) !! q)).
Proof.
  intros Hok Hl HE. unfold DeleteEntriesFromRepo. apply runs_bind, runs_annotate. eapply reads_runs; [apply reads_RepoExists, Hok|].
  intros c1 Hs1. apply runs_bind. eapply runs_list_bundles; [done|by eapply repo_ok_same|unfold bundles_listing; by rewrite (same_meta _ _ Hs1)|].
  intros bundles c2 Hs2 Hids. assert (same_objects c c2) as Hs02 by (by etrans).
  pose proof (same_meta _ _ Hs02) as Hm. pose proof (repo_ok_same repo _ _ _ Hs1 Hok) as Hok1.
  assert (Hd : forall {A} `{Yaml A} p (a : A), document (Metadata c2) p a <-> document (Metadata c) p a) by (intros; unfold document; by rewrite Hm).
  assert (Hw : forall b, b ∈ bundles -> Strings.no_slash (bd_ID b) /\ exists bd, whole_bundle (Metadata c) repo (bd_ID b) bd).
  { intros b Hb. destruct (listed_whole repo c1 n bundles b Hok1 Hids Hb) as (Hn & bd & Hw). split; [done|]. exists bd.
    eapply whole_bundle_objects; [|exact Hw]. by rewrite (same_meta _ _ Hs1). }
  eapply runs_mono; [apply (all_entries_runs E); [apply Hids|]|].
  - intros b Hb. destruct (Hw b Hb) as (Hn & bd & Hwb). split; [done|]. exists bd. rewrite Hd. destruct (wb_descriptor _ _ _ _ Hwb) as [H1 H2].
    split_and!; [done..|]. intros i Hi. apply Hd. by eapply HE.
  - intros [] c3 (Hv3 & Hd3 & Hq3). split; [by rewrite Hv3, (same_vmeta _ _ Hs02)|]. split.
    + intros id bd i Hn Hwb Hi. destruct (wb_descriptor _ _ _ _ Hwb) as [Hdoc Hid].
      assert (id ∈ bd_ID <$> bundles) as (b & -> & Hb)%list_elem_of_fmap.
      { apply Hids; [done|]. exists bundleDescriptorFile. fold (bundle_area repo id). rewrite <- bundle_path_area, (same_meta _ _ Hs1).
        destruct Hdoc as (buf & Hbuf & _). by exists buf. }
      apply (Hd3 b bd i); [done|by apply Hd|done].
    + intros q Hq. rewrite Hq3, Hm; [done|]. intros b i Hb. apply Hq. by apply Hw.
Qed.

End entries.

End CoreDelete.
