(* ===== verification/CoreDeleteWitness.v ===== *)
(** * A concrete repository for the theorems of [CoreDelete]

    Three bundles with one index file each, and two labels: one on the first
    bundle, one on the last. *)

From S2P Require Import Prelude GoLib Errors Storage Model ModelPaths CoreMeta StoreRules CoreKeys CoreRepo CoreLabel CoreListing CoreList CoreBundle CoreLabelList CoreDelete.

Module CoreDeleteWitness.
Import Model Storage CoreMeta StoreRules CoreKeys CoreRepo CoreLabel CoreListing CoreList CoreBundle CoreLabelList CoreDelete.

#[local] Existing Instance numbered_yaml.

#[local] Existing Instance numbered_yaml_laws.

Definition all_valid (_ : string) : bool := true.

Definition some_entries (id : string) (_ : N) : list BundleEntry := [mkBundleEntry "h" "a" 0%Z 1%Z 1%Z; mkBundleEntry "h" id 0%Z 1%Z 1%Z].

Definition files_of (id : string) : list (string * bytes) :=
  [(GetArchivePathToBundle "r" id, put_positive (encode (a_bundle id)));
   (GetArchivePathToBundleFileList "r" id 0, put_positive (encode (some_entries id 0)))].

Definition three : list string := ["b1"; "b2"; "b3"].

Definition the_repo : RepoDescriptor := mkRepoDescriptor "r" "a repository" 1%Z (mkContributor "n" "n@x.org").

Definition meta_files : list (string * bytes) := (GetArchivePathToRepoDescriptor "r", put_positive (encode the_repo)) :: mbind files_of three.

Definition on_bundle (name id : string) : LabelDescriptor := mkLabelDescriptor name id 1%Z [].

Definition label_files : list (string * bytes) :=
  [(GetArchivePathToLabel "r" "old", put_positive (encode (on_bundle "old" "b1")));
   (GetArchivePathToLabel "r" "new", put_positive (encode (on_bundle "new" "b3")))].

Definition stores : Stores (gmap string bytes) := NewStores ∅ ∅ ∅ (list_to_map meta_files) (list_to_map label_files).

Lemma meta_elem k v : objects (Metadata stores) !! k = Some v -> (k, v) ∈ meta_files.
Proof. apply elem_of_list_to_map_2. Qed.

Lemma label_elem k v : objects (VMetadata stores) !! k = Some v -> (k, v) ∈ label_files.
Proof. apply elem_of_list_to_map_2. Qed.

(** A key of the repository is a file of one of the three bundles. *)

Lemma meta_cases k v : (k, v) ∈ meta_files -> Strings.HasPrefix k (GetArchivePathPrefixToBundles "r") = true ->
  exists id, id ∈ three /\ (k, v) ∈ files_of id.
Proof.
  intros H Hp. apply elem_of_cons in H as [H|H]; [apply (f_equal fst) in H; cbn [fst] in H; subst k; by vm_compute in Hp|].
  apply list_elem_of_bind in H as (id & H & Hid). by exists id.
Qed.

Lemma three_plain id : id ∈ three -> Strings.no_slash id /\ String.length id = 2.
Proof. intros H. unfold three in H. repeat (apply elem_of_cons in H as [->|H]; [done|]). by apply elem_of_nil in H. Qed.

Lemma files_area id k v : (k, v) ∈ files_of id -> exists file, k = bundle_area "r" id +:+ file.
Proof.
  intros H. unfold files_of in H. apply elem_of_cons in H as [H|H]; [|apply elem_of_cons in H as [H|H]; [|by apply elem_of_nil in H]];
    apply (f_equal fst) in H; cbn [fst] in H; subst k; [|apply list_path_area]. eexists. apply bundle_path_area.
Qed.

Lemma present id k v : id ∈ three -> (k, v) ∈ files_of id -> objects (Metadata stores) !! k = Some v.
Proof.
  intros Hid H. unfold three in Hid. unfold files_of in H.
  repeat (apply elem_of_cons in Hid as [->|Hid]; [repeat (apply elem_of_cons in H as [[= -> ->]|H]; [vm_compute; reflexivity|]); by apply elem_of_nil in H|]).
  by apply elem_of_nil in Hid.
Qed.

Lemma in_bundle k v id : Strings.no_slash id -> objects (Metadata stores) !! k = Some v ->
  Strings.HasPrefix k (bundle_area "r" id) = true -> id ∈ three /\ (k, v) ∈ files_of id.
Proof.
  intros Hn H%meta_elem Hp. destruct (meta_cases k v H) as (id' & Hid' & Hk).
  { apply Strings.HasPrefix_spec in Hp as [r ->]. unfold bundle_area, directory. rewrite !Strings.string_app_assoc. apply Strings.HasPrefix_app. }
  destruct (files_area id' k v Hk) as [file ->].
  assert (id = id') as ->; [|done]. eapply area_disjoint; [done|by apply three_plain|exact Hp|apply Strings.HasPrefix_app].
Qed.

Lemma three_whole id : id ∈ three -> whole_bundle (Metadata stores) "r" id (a_bundle id).
Proof.
  intros Hid. split.
  - split; [|done]. exists (put_positive (encode (a_bundle id))). split; [|apply numbered_Unmarshal]. apply (present id); [done|by left].
  - split; [done|]. intros i Hi. assert (i = 0%N) as -> by (cbn in Hi; lia). eexists. apply (present id); [done|]. right. by left.
  - intros q [v Hv] Hp. apply (in_bundle q v id) in Hp as [_ H]; [|by apply three_plain|done]. unfold files_of in H.
    apply elem_of_cons in H as [[= -> _]|H]; [by left|]. apply elem_of_cons in H as [[= -> _]|H]; [|by apply elem_of_nil in H].
    right. by exists 0%N.
Qed.

Lemma stores_bundles_ok : bundles_ok "r" (Metadata stores) 2.
Proof.
  split.
  - intros k [v Hv%meta_elem] Hp. destruct (meta_cases k v Hv Hp) as (id & Hid & Hk). destruct (files_area id k v Hk) as [file ->].
    exists id, file. by destruct (three_plain id Hid).
  - intros id b Hn Hb. destruct (in_bundle _ _ id Hn Hb) as [Hid _]; [rewrite bundle_path_area; apply Strings.HasPrefix_app|].
    rewrite (present id _ (put_positive (encode (a_bundle id)))) in Hb; [|done|by left]. injection Hb as <-.
    exists (a_bundle id). split; [apply numbered_Unmarshal|done].
Qed.

Lemma stores_labels_ok : labels_ok "r" (VMetadata stores).
Proof.
  intros k [v Hv%label_elem] _. unfold label_files in Hv.
  apply elem_of_cons in Hv as [Hv|Hv]; [exists "old", (on_bundle "old" "b1")|
    apply elem_of_cons in Hv as [Hv|Hv]; [exists "new", (on_bundle "new" "b3")|by apply elem_of_nil in Hv]];
    apply (f_equal fst) in Hv; cbn [fst] in Hv; subst k; (split; [done|split; [done|split; [|by right]]]);
    eexists; (split; [vm_compute; reflexivity|vm_compute; reflexivity]).
Qed.

Lemma stores_repo_ok : repo_ok "r" stores 2.
Proof.
  split.
  - vm_compute. eauto.
  - apply stores_bundles_ok.
  - apply stores_labels_ok.
  - intros id Hn [file [v Hv]]. exists (a_bundle id). apply three_whole. by eapply in_bundle; [|exact Hv|apply Strings.HasPrefix_app].
Qed.

Definition by_two : list Option := [BatchSize 2; WithRetainSemverTags true].

Lemma backwards_default len : len < 9 -> listing_ok 9 len (defaultSettings 1) backwards.
Proof. intros Hl. split; [done|done|done| |done]. intros l. apply reverse_Permutation. Qed.

Lemma DeleteRepo_correct_witness :
  runs (DeleteRepo all_valid None 9 1 2%Z "r" backwards backwards []) stores (fun _ c' =>
    objects (Metadata c') !! GetArchivePathToBundle "r" "b1" = None /\ objects (VMetadata c') !! GetArchivePathToLabel "r" "new" = None).
Proof.
  eapply runs_mono; [apply (DeleteRepo_correct all_valid None 9 1 2%Z "r" eq_refl backwards backwards [] stores 2 stores_repo_ok)|].
  - apply backwards_default. vm_compute. lia.
  - apply backwards_default. vm_compute. lia.
  - intros u c' [Hm Hv]. rewrite Hm, Hv. split; vm_compute; reflexivity.
Defined.

Lemma by_two_ok : squash_ok 9 1 "r" backwards backwards by_two stores 2.
Proof.
  split; [apply stores_repo_ok|done|done|..]; (split; [vm_compute; lia|done|done|intros l; apply reverse_Permutation|done]).
Qed.

(** One bundle is retained, and those with a label called "old". *)

Lemma RepoSquash_correct_witness :
  runs (RepoSquash all_valid None 9 1 2%Z (fun name => bool_decide (name = "old")) "r" backwards backwards Unnoticed by_two) stores (fun _ c' =>
    exists ids, lists "r" (Metadata stores) ids /\
      forall id file, id ∈ ids -> id ∈ drop (length ids - 1) ids ->
        objects (Metadata c') !! (bundle_area "r" id +:+ file) = objects (Metadata stores) !! (bundle_area "r" id +:+ file)).
Proof.
  eapply runs_mono; [apply (RepoSquash_correct all_valid None 9 1 2%Z "r" eq_refl (fun name => bool_decide (name = "old")) backwards backwards
    Unnoticed by_two stores 2 by_two_ok)|].
  intros u c' (ids & Hids & Hkept & _). exists ids. split; [exact Hids|]. intros id file Hid Hl. apply Hkept; [exact Hid|left; exact Hl].
Defined.

Lemma DeleteEntriesFromRepo_correct_witness :
  runs (DeleteEntriesFromRepo all_valid 9 1 "r" ["a"] backwards) stores (fun _ c' =>
    document (Metadata c') (GetArchivePathToBundleFileList "r" "b2" 0) [mkBundleEntry "h" "b2" 0%Z 1%Z 1%Z]).
Proof.
  eapply runs_mono; [apply (DeleteEntriesFromRepo_correct all_valid 9 1 "r" ["a"] eq_refl backwards stores 2 some_entries stores_repo_ok)|].
  - apply backwards_default. vm_compute. lia.
  - intros id bd i Hn Hw Hi. destruct (wb_descriptor _ _ _ _ Hw) as [(b & Hb & Hu) _].
    destruct (in_bundle _ _ id Hn Hb) as [Hid _]; [rewrite bundle_path_area; apply Strings.HasPrefix_app|].
    rewrite (present id _ (put_positive (encode (a_bundle id)))) in Hb; [|exact Hid|left]. injection Hb as <-.
    rewrite numbered_Unmarshal in Hu. injection Hu as <-. assert (i = 0%N) as -> by (cbn in Hi; lia).
    exists (put_positive (encode (some_entries id 0))). split; [|apply numbered_Unmarshal]. apply (present id); [exact Hid|]. right. left.
  - intros u c' (_ & Hd & _). apply (Hd "b2" (a_bundle "b2") 0%N); [reflexivity| |reflexivity]. apply three_whole. right. left.
Defined.

End CoreDeleteWitness.
