(* ===== verification/CoreRename.v ===== *)
(** * Renaming of repositories (pkg/core: rename.go)

    A repository is renamed by creating the new one, copying the descriptors
    and index files of the bundles and the labels, and deleting the old one.
    Every listing an operation makes has its own schedule. *)

From S2P Require Import Prelude GoLib Errors Storage Model ModelPaths Validate CoreMeta StoreRules CoreIndex CoreKeys CoreRepo CoreLabel CoreListing CoreList CoreBundle CoreLabelList CoreDelete CoreDeleteWitness.

Module CoreRename.
Import Model Storage CoreMeta CoreStatus StoreRules CoreIndex CoreKeys CoreRepo CoreLabel CoreListing CoreList CoreBundle CoreLabelList CoreDelete.

(** The function that is applied to a listing captures no variable here. *)

Definition without_variables {T A} (m : M (T * unit) A) : M T A := fun t =>
  let '(r, (t', _)) := m (t, tt) in (r, t').

Section renaming.
Context {S : Type} `{HS : !Store S} {GS : GoSort}.
Context {HYR : Yaml RepoDescriptor} {HYL : Yaml LabelDescriptor} {HYB : Yaml BundleDescriptor}.
Variable ksuid_valid : string -> bool.
Variable versioned : option (VersionedStore S).
Variables IsDigit IsLetter IsHyphen : Z -> bool.
Variables (fuel : nat) (NumCPU : Z) (now : Time.Time).

(** The copy of an index file. The error of Get is kept in the variable ee but
    it is e, the nil error of the previous call, that is tested: the nil reader
    is then dereferenced. *)

Definition copy_file_list (repo newRepo bundleID : string) (i : N) : M S unit :=
  r ← attempt (Get (GetArchivePathToBundleFileList repo bundleID i));
  match r with
  | inr _ => panic "invalid memory address or nil pointer dereference"
  | inl buffer => putBuffer (GetArchivePathToBundleFileList newRepo bundleID i) buffer NoOverWrite
  end.

Definition copy_bundle (repo newRepo : string) (bundle : BundleDescriptor) : M (Stores S) unit :=
  let b := NewBundle now [ContextStores true; WithBundleDescriptor (Some bundle); Repo newRepo; BundleID (bd_ID bundle)] in
  _ ← uploadBundleDescriptor (b_RepoID b) (b_BundleID b) (b_BundleDescriptor b);
  getMetaStore (for_each (upto_count (bd_BundleEntriesFileCount bundle)) (copy_file_list repo newRepo (bd_ID bundle))).

Definition copy_label (newRepo : string) (label : LabelDescriptor) : M (Stores S) unit :=
  let l := NewLabel now [WithLabelDescriptor (Some label)] in
  let b := NewBundle now [ContextStores true; BundleID (ld_BundleID label); Repo newRepo] in
  _ ← Label_UploadDescriptor (b_RepoID b) (b_BundleID b) l;
  mret tt.

Definition with_repo_name (desc : RepoDescriptor) (name : string) : RepoDescriptor :=
  mkRepoDescriptor name (rd_Description desc) (rd_Timestamp desc) (rd_Contributor desc).

(** [sch1] and [sch2] are the schedules of the listings of bundles and labels,
    with their interruptions, and the last two those of the deletion. *)

Definition RenameRepo (repo newRepo : string) (sch1 sch2 sch3 sch4 : schedule) (i1 i2 : interruption) : M (Stores S) unit :=
  _ ← annotate ("cannot find repo: " +:+ repo) (RepoExists repo);
  r ← attempt (RepoExists newRepo);
  match r with
  | inl _ => fail (ErrMsg ("new repo " +:+ newRepo +:+ " already exists"))
  | inr _ =>
      desc ← annotate ("cannot retrieve repo metadata for " +:+ repo) (GetRepo repo);
      _ ← annotate ("cannot create new repo " +:+ newRepo) (CreateRepo IsDigit IsLetter IsHyphen (with_repo_name desc newRepo));
      _ ← annotate ("cannot copy bundles in repo " +:+ repo)
            (without_variables (ListBundlesApply ksuid_valid fuel NumCPU repo sch1 i1 (fun b => with_variables (copy_bundle repo newRepo b)) []));
      _ ← annotate ("cannot copy labels in repo " +:+ repo)
            (without_variables (ListLabelsApply ksuid_valid versioned fuel NumCPU now repo sch2 i2 (fun l => with_variables (copy_label newRepo l)) []));
      annotate "new repo has been created, but couldn't remove original repo" (DeleteRepo ksuid_valid versioned fuel NumCPU now repo sch3 sch4 [])
  end.

End renaming.

(** ** Loops without variables *)

Lemma for_each_plain {T A} (f : A -> M T unit) : forall (l : list A) t,
  without_variables (for_each l (fun x => with_variables (f x))) t = for_each l f t.
Proof.
  induction l as [|x l IH]; intros t; [done|]. unfold without_variables in *. cbn [for_each]. unfold mbind, M_bind, with_variables at 1.
  destruct (f x t) as [[[]|e|p] t1]; [apply IH|done..].
Qed.

Lemma runs_plain {T A} (m : M (T * unit) unit) (f : A -> M T unit) (l : list A) t t1 Q :
  m (t, tt) = for_each l (fun x => with_variables (f x)) (t1, tt) -> runs (for_each l f) t1 Q -> runs (without_variables m) t Q.
Proof.
  intros E (u & t2 & E2 & HQ). exists u, t2. split; [|done]. rewrite <- for_each_plain in E2. unfold without_variables in *. by rewrite E.
Qed.

(** ** Directories of repositories *)

Lemma bundles_prefix_inj a b x y :
  Strings.no_slash a -> Strings.no_slash b -> GetArchivePathPrefixToBundles a +:+ x = GetArchivePathPrefixToBundles b +:+ y -> a = b /\ x = y.
Proof.
  intros Ha Hb H. assert (a = b) as ->; [exact (directory_inj "bundles/" a b x y Ha Hb H)|]. split; [done|]. by apply Strings.string_app_inv_head in H.
Qed.

Lemma labels_prefix_inj a b x y :
  Strings.no_slash a -> Strings.no_slash b -> GetArchivePathPrefixToLabels a [] +:+ x = GetArchivePathPrefixToLabels b [] +:+ y -> a = b /\ x = y.
Proof.
  unfold GetArchivePathPrefixToLabels. cbn [Strings.Join]. rewrite !Strings.string_app_nil_r. intros Ha Hb H.
  assert (a = b) as ->; [exact (directory_inj "labels/" a b x y Ha Hb H)|]. split; [done|]. by apply Strings.string_app_inv_head in H.
Qed.

Lemma other_bundles repo newRepo q :
  Strings.no_slash repo -> Strings.no_slash newRepo -> repo <> newRepo ->
  Strings.HasPrefix q (GetArchivePathPrefixToBundles newRepo) = true -> Strings.HasPrefix q (GetArchivePathPrefixToBundles repo) = false.
Proof.
  intros Hr Hn Hne [r ->]%Strings.HasPrefix_spec. apply not_true_iff_false. intros [r' H]%Strings.HasPrefix_spec.
  apply Hne. symmetry. exact (proj1 (bundles_prefix_inj _ _ _ _ Hn Hr H)).
Qed.

Lemma other_labels repo newRepo q :
  Strings.no_slash repo -> Strings.no_slash newRepo -> repo <> newRepo ->
  Strings.HasPrefix q (GetArchivePathPrefixToLabels newRepo []) = true -> Strings.HasPrefix q (GetArchivePathPrefixToLabels repo []) = false.
Proof.
  intros Hr Hn Hne [r ->]%Strings.HasPrefix_spec. apply not_true_iff_false. intros [r' H]%Strings.HasPrefix_spec.
  apply Hne. symmetry. exact (proj1 (labels_prefix_inj _ _ _ _ Hn Hr H)).
Qed.

Lemma repo_path_inj a b :
  GetArchivePathToRepoDescriptor a = GetArchivePathToRepoDescriptor b -> a = b.
Proof. unfold GetArchivePathToRepoDescriptor. intros H. apply Strings.string_app_inv_head in H. by apply string_app_inv_tail in H. Qed.

Definition list_file (i : N) : string := bundleFilesIndexPrefix +:+ Strconv.FormatUint i +:+ ".yaml".

Lemma list_path_file repo id i : GetArchivePathToBundleFileList repo id i = bundle_area repo id +:+ list_file i.
Proof. unfold bundle_area, directory, GetArchivePathPrefixToBundles, GetArchivePathToBundleFileList, list_file. by rewrite !Strings.string_app_assoc. Qed.

Lemma area_in_bundles repo id file : exists x, bundle_area repo id +:+ file = GetArchivePathPrefixToBundles repo +:+ x.
Proof. eexists. unfold bundle_area, directory. by rewrite !Strings.string_app_assoc. Qed.

Lemma areas_differ a b id id' x y :
  Strings.no_slash a -> Strings.no_slash b -> a <> b -> bundle_area a id +:+ x <> bundle_area b id' +:+ y.
Proof.
  intros Ha Hb Hne H. destruct (area_in_bundles a id x) as [x' Hx], (area_in_bundles b id' y) as [y' Hy]. rewrite Hx, Hy in H.
  by apply bundles_prefix_inj in H as [].
Qed.

(** ** Copies *)

Section copies.
Context {S : Type} `{HS : !Store S, HSL : !StoreLaws S, HR : !ReliableStore S}.
Context {HYB : Yaml BundleDescriptor} {HYBL : YamlLaws BundleDescriptor}.
Variables (now : Time.Time) (repo newRepo : string).
Hypotheses (repo_name : Strings.no_slash repo) (new_name : Strings.no_slash newRepo) (renamed : repo <> newRepo).

Lemma copy_lists_runs id : forall (l : list N) (s : S),
  NoDup l -> (forall i, i ∈ l -> is_Some (objects s !! (bundle_area repo id +:+ list_file i))) ->
  (forall i, i ∈ l -> objects s !! (bundle_area newRepo id +:+ list_file i) = None) ->
  runs (for_each l (copy_file_list repo newRepo id)) s (fun _ s' =>
    (forall i, i ∈ l -> objects s' !! (bundle_area newRepo id +:+ list_file i) = objects s !! (bundle_area repo id +:+ list_file i)) /\
    (forall q, (forall i, i ∈ l -> q <> bundle_area newRepo id +:+ list_file i) -> objects s' !! q = objects s !! q)).
Proof.
  induction l as [|i l IH]; intros s Hnd Hold Hnew; [apply runs_ret; by split; [intros i ?%elem_of_nil|]|].
  apply NoDup_cons in Hnd as [Hni Hnd]. destruct (Hold i) as [b Hb]; [by left|].
  assert (Hinj : forall j, bundle_area newRepo id +:+ list_file i = bundle_area newRepo id +:+ list_file j -> i = j).
  { intros j. rewrite <- !list_path_file. apply bundle_list_inj. }
  cbn [for_each]. apply runs_bind. unfold copy_file_list at 1. apply runs_bind, runs_attempt. rewrite !list_path_file.
  eapply runs_Get; [exact Hb|]. intros s1 Ho1. apply runs_putBuffer; [intros _; rewrite Ho1; apply Hnew; by left|]. intros s2 Ho2.
  rewrite Ho1 in Ho2. eapply runs_mono; [apply IH; [done|..]|].
  - intros j Hj. rewrite Ho2, lookup_insert_ne by (by apply not_eq_sym, areas_differ). apply Hold. by right.
  - intros j Hj. rewrite Ho2, lookup_insert_ne; [apply Hnew; by right|]. intros ->%Hinj. done.
  - intros [] s3 [H1 H2]. split.
    + intros j Hj. apply elem_of_cons in Hj as [->|Hj].
      * rewrite H2, Ho2, lookup_insert_eq; [done|]. intros j Hj ->%Hinj. done.
      * rewrite H1, Ho2, lookup_insert_ne by (done || by apply not_eq_sym, areas_differ). done.
    + intros q Hq. rewrite H2 by (intros j Hj; apply Hq; by right). rewrite Ho2, lookup_insert_ne; [done|]. apply not_eq_sym, Hq. by left.
Qed.

(** What a copied bundle is. *)

Definition copied (s s' : S) (id : string) (bd : BundleDescriptor) : Prop :=
  document s' (GetArchivePathToBundle newRepo id) bd /\
  forall file, file <> bundleDescriptorFile -> objects s' !! (bundle_area newRepo id +:+ file) = objects s !! (bundle_area repo id +:+ file).

Lemma copy_bundle_runs bd (c : Stores S) :
  whole_bundle (Metadata c) repo (bd_ID bd) bd -> bd_Deduplication bd <> "" ->
  (forall file, objects (Metadata c) !! (bundle_area newRepo (bd_ID bd) +:+ file) = None) ->
  runs (copy_bundle now repo newRepo bd) c (fun _ c' =>
    objects (VMetadata c') = objects (VMetadata c) /\ copied (Metadata c) (Metadata c') (bd_ID bd) bd /\
    (forall q, Strings.HasPrefix q (bundle_area newRepo (bd_ID bd)) = false -> objects (Metadata c') !! q = objects (Metadata c) !! q)).
Proof.
  set (id := bd_ID bd). intros [[Hdoc _] [_ Hidx] Honly] Hd Hfree. unfold copy_bundle. cbn [NewBundle fold_left].
  apply runs_bind. apply uploadBundleDescriptor_runs; [done|cbn; rewrite bundle_path_area; apply Hfree|]. fold id. cbn [b_RepoID b_BundleID b_BundleDescriptor].
  intros s1 Hdoc1 Hq1. change (b_RepoID _) with newRepo in *. change (b_BundleID _) with id in *. change (b_BundleDescriptor _) with bd in Hdoc1.
  rewrite bundle_path_area in Hdoc1, Hq1.
  assert (Hlist : forall i, list_file i <> bundleDescriptorFile).
  { intros i H. apply (bundle_path_not_list repo id i). by rewrite bundle_path_area, list_path_file, H. }
  assert (Hsame : forall file, objects s1 !! (bundle_area repo id +:+ file) = objects (Metadata c) !! (bundle_area repo id +:+ file)).
  { intros file. apply Hq1. by apply areas_differ. }
  apply runs_meta. eapply runs_mono; [apply (copy_lists_runs id); [apply NoDup_upto|..]|]; cbn [Metadata SetMetadata].
  - intros i Hi%elem_upto. rewrite Hsame, <- list_path_file. by apply Hidx.
  - intros i _. rewrite Hq1; [apply Hfree|]. intros H%Strings.string_app_inv_head. by apply (Hlist i).
  - intros [] s2 [H1 H2]. cbn [Metadata VMetadata SetMetadata]. split; [done|]. split; [split|].
    + rewrite bundle_path_area. eapply document_objects; [|exact Hdoc1]. apply H2. intros i _ H%Strings.string_app_inv_head. by apply (Hlist i).
    + intros file Hf. destruct (objects (Metadata c) !! (bundle_area repo id +:+ file)) as [b|] eqn:Eb.
      * destruct (Honly _ (ex_intro _ b Eb) (Strings.HasPrefix_app _ _)) as [H|(i & Hi & H)].
        { rewrite bundle_path_area in H. by apply Strings.string_app_inv_head in H. }
        rewrite list_path_file in H. apply Strings.string_app_inv_head in H as ->. by rewrite H1, Hsame by (by apply elem_upto).
      * rewrite H2; [rewrite Hq1; [apply Hfree|]; by intros H%Strings.string_app_inv_head|].
        intros i Hi%elem_upto ->%Strings.string_app_inv_head. apply Hidx in Hi as [b Hb]. rewrite list_path_file in Hb. congruence.
    + intros q Hq. rewrite H2, Hq1; [done|..]; [|intros i _]; intros ->; by rewrite Strings.HasPrefix_app in Hq.
Qed.

Lemma copy_bundles_runs : forall (l : list BundleDescriptor) (c : Stores S),
  NoDup (bd_ID <$> l) ->
  (forall b, b ∈ l -> Strings.no_slash (bd_ID b) /\ whole_bundle (Metadata c) repo (bd_ID b) b /\ bd_Deduplication b <> "" /\
     forall file, objects (Metadata c) !! (bundle_area newRepo (bd_ID b) +:+ file) = None) ->
  runs (for_each l (copy_bundle now repo newRepo)) c (fun _ c' =>
    objects (VMetadata c') = objects (VMetadata c) /\ (forall b, b ∈ l -> copied (Metadata c) (Metadata c') (bd_ID b) b) /\
    (forall q, (forall b, b ∈ l -> Strings.HasPrefix q (bundle_area newRepo (bd_ID b)) = false) ->
       objects (Metadata c') !! q = objects (Metadata c) !! q)).
Proof.
  induction l as [|b l IH]; intros c Hnd Hall; [apply runs_ret; split; [done|split; [by intros b ?%elem_of_nil|done]]|].
  rewrite fmap_cons in Hnd. apply NoDup_cons in Hnd as [Hni Hnd]. destruct (Hall b) as (Hb & Hw & Hd & Hfree); [by left|].
  assert (Hother : forall b', b' ∈ l -> Strings.no_slash (bd_ID b') /\ forall file, Strings.HasPrefix (bundle_area newRepo (bd_ID b') +:+ file) (bundle_area newRepo (bd_ID b)) = false).
  { intros b' Hb'. destruct (Hall b') as (Hn' & _); [by right|]. split; [done|]. intros file. apply not_true_iff_false. intros Hp.
    apply Hni. rewrite (area_disjoint newRepo (bd_ID b) (bd_ID b') _ Hb Hn' Hp (Strings.HasPrefix_app _ _)). by apply list_elem_of_fmap_2. }
  assert (Hold : forall id file, Strings.HasPrefix (bundle_area repo id +:+ file) (bundle_area newRepo (bd_ID b)) = false).
  { intros id file. apply not_true_iff_false. intros [x H]%Strings.HasPrefix_spec. revert H. by apply areas_differ. }
  cbn [for_each]. apply runs_bind. eapply runs_mono; [by apply copy_bundle_runs|]. intros [] c1 (Hv1 & Hc1 & Hq1).
  eapply runs_mono; [apply IH; [done|]|].
  - intros b' Hb'. destruct (Hall b') as (Hn' & Hw' & Hd' & Hfree'); [by right|]. split; [done|]. split; [|split; [done|]].
    + eapply whole_bundle_area; [|exact Hw']. intros file. apply Hq1, Hold.
    + intros file. rewrite Hq1; [apply Hfree'|]. by apply Hother.
  - intros [] c2 (Hv2 & Hc2 & Hq2). split; [congruence|]. split.
    + intros b' Hb'. apply elem_of_cons in Hb' as [->|Hb'].
      * assert (forall file, objects (Metadata c2) !! (bundle_area newRepo (bd_ID b) +:+ file) = objects (Metadata c1) !! (bundle_area newRepo (bd_ID b) +:+ file)) as Hk.
        { intros file. apply Hq2. intros b' Hb'. apply not_true_iff_false. intros Hp.
          apply Hni. rewrite (area_disjoint newRepo (bd_ID b) (bd_ID b') _ Hb (proj1 (Hother b' Hb')) (Strings.HasPrefix_app _ _) Hp).
          by apply list_elem_of_fmap_2. }
        destruct Hc1 as [H1 H2]. split; [|intros file Hf; by rewrite Hk, H2]. eapply document_objects; [|exact H1]. rewrite bundle_path_area. apply Hk.
      * destruct (Hc2 b' Hb') as [H1 H2]. split; [done|]. intros file Hf. rewrite H2 by done. apply Hq1, Hold.
    + intros q Hq. rewrite Hq2 by (intros b' Hb'; apply Hq; by right). apply Hq1, Hq. by left.
Qed.

End copies.

(** Copies of labels. *)

Section labels.
Context {S : Type} `{HS : !Store S, HSL : !StoreLaws S, HR : !ReliableStore S}.
Context {HYL : Yaml LabelDescriptor} {HYLL : YamlLaws LabelDescriptor}.
Variables (now : Time.Time) (newRepo : string).
Hypothesis new_name : Strings.no_slash newRepo.

Lemma copy_label_runs ld (c : Stores S) :
  is_Some (objects (Metadata c) !! GetArchivePathToRepoDescriptor newRepo) ->
  runs (copy_label now newRepo ld) c (fun _ c' =>
    objects (Metadata c') = objects (Metadata c) /\ document (VMetadata c') (GetArchivePathToLabel newRepo (ld_Name ld)) ld /\
    (forall q, q <> GetArchivePathToLabel newRepo (ld_Name ld) -> objects (VMetadata c') !! q = objects (VMetadata c) !! q)).
Proof.
  intros Hr. unfold copy_label, Label_UploadDescriptor. cbn. apply runs_bind, runs_bind. eapply reads_runs; [by apply reads_RepoExists|].
  intros c1 Hs1. destruct ld as [name id ts cs]; cbn [ld_Name ld_BundleID ld_Timestamp ld_Contributors].
  destruct (Marshal_total (mkLabelDescriptor name id ts cs)) as [b Hb]. apply runs_bind. eapply runs_lift; [exact Hb|].
  apply runs_bind, runs_vmeta, runs_putBuffer; [done|]. intros s2 Ho2. apply runs_ret, runs_ret. cbn.
  split; [by rewrite (same_meta _ _ Hs1)|]. split.
  - exists b. rewrite Ho2, lookup_insert_eq. split; [done|by apply Unmarshal_Marshal].
  - intros q Hq. by rewrite Ho2, lookup_insert_ne, (same_vmeta _ _ Hs1).
Qed.

Lemma copy_labels_runs : forall (l : list LabelDescriptor) (c : Stores S),
  is_Some (objects (Metadata c) !! GetArchivePathToRepoDescriptor newRepo) ->
  NoDup (ld_Name <$> l) -> Forall Strings.no_slash (ld_Name <$> l) ->
  runs (for_each l (copy_label now newRepo)) c (fun _ c' =>
    objects (Metadata c') = objects (Metadata c) /\ (forall x, x ∈ l -> document (VMetadata c') (GetArchivePathToLabel newRepo (ld_Name x)) x) /\
    (forall q, (forall x, x ∈ l -> q <> GetArchivePathToLabel newRepo (ld_Name x)) -> objects (VMetadata c') !! q = objects (VMetadata c) !! q)).
Proof.
  induction l as [|x l IH]; intros c Hr Hnd Hno; [apply runs_ret; split; [done|split; [by intros b ?%elem_of_nil|done]]|].
  rewrite fmap_cons in Hnd, Hno. apply NoDup_cons in Hnd as [Hni Hnd]. apply Forall_cons in Hno as [Hx Hno].
  assert (Hne : forall y, y ∈ l -> GetArchivePathToLabel newRepo (ld_Name x) <> GetArchivePathToLabel newRepo (ld_Name y)).
  { intros y Hy H. rewrite Forall_forall in Hno. apply label_path_inj in H; [|done|done|by apply Hno, list_elem_of_fmap_2].
    apply Hni. rewrite H. by apply list_elem_of_fmap_2. }
  cbn [for_each]. apply runs_bind. eapply runs_mono; [by apply copy_label_runs|]. intros [] c1 (Hm1 & Hd1 & Hq1).
  eapply runs_mono; [apply IH; [by rewrite Hm1|done|done]|]. intros [] c2 (Hm2 & Hd2 & Hq2). split; [congruence|]. split.
  - intros y Hy. apply elem_of_cons in Hy as [->|Hy]; [|by apply Hd2]. eapply document_objects; [|exact Hd1]. by apply Hq2.
  - intros q Hq. rewrite Hq2 by (intros y Hy; apply Hq; by right). apply Hq1, Hq. by left.
Qed.

End labels.

(** ** Repositories *)

Section repositories.
Context {S : Type} `{HS : !Store S, HSL : !StoreLaws S, HR : !ReliableStore S, HLL : !ListingLaws S}.
Context {GS : GoSort} {GSL : GoSortLaws}.
Context {HYR : Yaml RepoDescriptor} {HYRL : YamlLaws RepoDescriptor} {HYL : Yaml LabelDescriptor} {HYLL : YamlLaws LabelDescriptor}.
Context {HYB : Yaml BundleDescriptor} {HYBL : YamlLaws BundleDescriptor}.
Variables (kv : string -> bool) (versioned : option (VersionedStore S)) (IsDigit IsLetter IsHyphen : Z -> bool).
Variables (fuel : nat) (NumCPU : Z) (now : Time.Time) (repo newRepo : string).
Hypotheses (repo_name : Strings.no_slash repo) (new_name : Strings.no_slash newRepo).

Let listing_settings : Settings := settings_of NumCPU [WithDoneChan true].

(** The part of the stores that belongs to a repository. *)

Record same_repo (c c' : Stores S) : Prop := {
  sr_descriptor : objects (Metadata c') !! GetArchivePathToRepoDescriptor repo = objects (Metadata c) !! GetArchivePathToRepoDescriptor repo;
  sr_bundles x : objects (Metadata c') !! (GetArchivePathPrefixToBundles repo +:+ x) = objects (Metadata c) !! (GetArchivePathPrefixToBundles repo +:+ x);
  sr_labels x : objects (VMetadata c') !! (GetArchivePathPrefixToLabels repo [] +:+ x) = objects (VMetadata c) !! (GetArchivePathPrefixToLabels repo [] +:+ x)
}.

Lemma same_repo_area c c' id file :
  same_repo c c' -> objects (Metadata c') !! (bundle_area repo id +:+ file) = objects (Metadata c) !! (bundle_area repo id +:+ file).
Proof. intros Hs. destruct (area_in_bundles repo id file) as [x ->]. apply (sr_bundles _ _ Hs). Qed.

Lemma same_repo_ok c c' n : same_repo c c' -> repo_ok repo c n -> repo_ok repo c' n.
Proof.
  intros Hs [Hex [Hdir Hdesc] Hlab Hwhole]. split.
  - by rewrite (sr_descriptor _ _ Hs).
  - split.
    + intros k Hk Hp. apply Hdir; [|done]. apply Strings.HasPrefix_spec in Hp as [x ->]. by rewrite (sr_bundles _ _ Hs) in Hk.
    + intros id b Hid. rewrite bundle_path_area, (same_repo_area _ _ _ _ Hs), <- bundle_path_area. by apply Hdesc.
  - intros k Hk Hp. destruct (Hlab k) as (name & ld & H1 & H2 & H3 & H4); [|done|]; apply Strings.HasPrefix_spec in Hp as [x ->].
    + by rewrite (sr_labels _ _ Hs) in Hk.
    + exists name, ld. split_and!; [done..| |done]. eapply document_objects; [|exact H3]. apply (sr_labels _ _ Hs).
  - intros id Hid [file Hf]. rewrite (same_repo_area _ _ _ _ Hs) in Hf. destruct (Hwhole id Hid) as [bd Hw]; [by exists file|].
    exists bd. eapply whole_bundle_area; [|exact Hw]. intros f. by apply same_repo_area.
Qed.

Lemma listing_length_area (m m' : gmap string bytes) prefix p delim :
  (forall x, m' !! (prefix +:+ x) = m !! (prefix +:+ x)) -> p = prefix ->
  length (listing m' p delim) <= length (listing m p delim).
Proof.
  intros Hsame ->. apply submseteq_length, NoDup_submseteq; [apply listing_NoDup|]. intros k. rewrite !listing_elem.
  intros (k' & Hk & Hp & ->). exists k'. split; [|done]. apply Strings.HasPrefix_spec in Hp as [x ->]. by rewrite Hsame in Hk.
Qed.

Lemma same_repo_listings c c' : same_repo c c' ->
  length (bundles_listing repo c') <= length (bundles_listing repo c) /\ length (labels_listing repo c' "") <= length (labels_listing repo c "").
Proof.
  intros Hs. split; eapply listing_length_area; [apply (sr_bundles _ _ Hs)|done|apply (sr_labels _ _ Hs)|done].
Qed.

(** ** The stages *)

Lemma CreateRepo_runs rd (c : Stores S) :
  Validate.ValidateRepo IsDigit IsLetter IsHyphen rd = Ok tt ->
  objects (Metadata c) !! GetArchivePathToRepoDescriptor (rd_Name rd) = None ->
  runs (CreateRepo IsDigit IsLetter IsHyphen rd) c (fun _ c' =>
    objects (VMetadata c') = objects (VMetadata c) /\ document (Metadata c') (GetArchivePathToRepoDescriptor (rd_Name rd)) rd /\
    (forall q, q <> GetArchivePathToRepoDescriptor (rd_Name rd) -> objects (Metadata c') !! q = objects (Metadata c) !! q)).
Proof.
  intros Hv Hn. destruct (Marshal_total rd) as [b Hb]. unfold CreateRepo. apply runs_bind. eapply runs_lift; [exact Hv|].
  apply runs_bind, runs_attempt. eapply runs_lift; [exact Hb|]. apply runs_bind, runs_attempt, runs_meta, runs_Put; [done|].
  intros s1 Ho1. apply runs_ret. cbn. split; [done|]. split.
  - exists b. rewrite Ho1, lookup_insert_eq. split; [done|by apply Unmarshal_Marshal].
  - intros q Hq. by rewrite Ho1, lookup_insert_ne.
Qed.

Hypothesis renamed : repo <> newRepo.

Lemma bundle_got_document (s : S) id bd :
  bundle_got repo listing_settings s id = Some bd <-> document s (GetArchivePathToBundle repo id) bd.
Proof.
  unfold bundle_got, document. change (withMinimalBundle listing_settings) with false. cbn [negb]. destruct (objects s !! _) as [b|].
  - split.
    + intros H. exists b. split; [done|]. by destruct (Unmarshal b); simplify_eq.
    + intros (b' & [= <-] & ->). done.
  - split; [done|]. by intros (b & ? & _).
Qed.

(** The function is applied to every bundle of the repository, once. *)

Lemma apply_bundles sch i (f : BundleDescriptor -> M (Stores S) unit) (c : Stores S) n :
  repo_ok repo c n -> listing_ok fuel (length (bundles_listing repo c)) listing_settings sch ->
  exists l c1, same_objects c c1 /\ NoDup (bd_ID <$> l) /\
    (forall b, b ∈ l <-> Strings.no_slash (bd_ID b) /\ whole_bundle (Metadata c) repo (bd_ID b) b) /\
    forall Q, runs (for_each l f) c1 Q ->
      runs (without_variables (ListBundlesApply kv fuel NumCPU repo sch i (fun b => with_variables (f b)) [])) c Q.
Proof.
  intros Hok Hl. pose proof (ro_bundles _ _ _ Hok) as Hb.
  destruct (ListBundlesApply_eq kv fuel NumCPU repo listing_settings repo_name sch i [] (fun b => with_variables (f b)) c tt n
    eq_refl (ro_exists _ _ _ Hok) Hb Hl) as (ids & c1 & (Hnd & _ & Hno & Hin) & Hs1 & E).
  eexists _, c1. split; [done|]. split; [by eapply got_NoDup|]. split; [|intros Q; by apply runs_plain].
  intros b. rewrite (got_elem _ _ _ n) by done. rewrite bundle_got_document. rewrite Forall_forall in Hno. split.
  - intros [Hid Hdoc]. specialize (Hno _ Hid). split; [done|].
    destruct (ro_whole _ _ _ Hok (bd_ID b) Hno) as [bd Hw]; [by apply Hin|].
    by rewrite (document_unique _ _ _ _ Hdoc (proj1 (wb_descriptor _ _ _ _ Hw))) at 2.
  - intros [Hn Hw]. destruct (wb_descriptor _ _ _ _ Hw) as [Hdoc _]. split; [|done]. apply Hin; [done|]. exists bundleDescriptorFile.
    fold (bundle_area repo (bd_ID b)). rewrite <- bundle_path_area. by eapply document_is_Some.
Qed.

Lemma copy_all_bundles sch i (c : Stores S) n :
  repo_ok repo c n -> listing_ok fuel (length (bundles_listing repo c)) listing_settings sch ->
  (forall id bd, Strings.no_slash id -> document (Metadata c) (GetArchivePathToBundle repo id) bd -> bd_Deduplication bd <> "") ->
  (forall x, objects (Metadata c) !! (GetArchivePathPrefixToBundles newRepo +:+ x) = None) ->
  runs (without_variables (ListBundlesApply kv fuel NumCPU repo sch i (fun b => with_variables (copy_bundle now repo newRepo b)) [])) c (fun _ c' =>
    objects (VMetadata c') = objects (VMetadata c) /\
    (forall id file, Strings.no_slash id -> file <> bundleDescriptorFile ->
       objects (Metadata c') !! (bundle_area newRepo id +:+ file) = objects (Metadata c) !! (bundle_area repo id +:+ file)) /\
    (forall id bd, Strings.no_slash id ->
       document (Metadata c') (GetArchivePathToBundle newRepo id) bd <-> document (Metadata c) (GetArchivePathToBundle repo id) bd) /\
    (forall q, Strings.HasPrefix q (GetArchivePathPrefixToBundles newRepo) = false -> objects (Metadata c') !! q = objects (Metadata c) !! q)).
Proof.
  intros Hok Hl Hded Hfree. destruct (apply_bundles sch i (copy_bundle now repo newRepo) c n Hok Hl) as (l & c1 & Hs1 & Hnd & Hl1 & Hrun).
  pose proof (same_meta _ _ Hs1) as Hm1. apply Hrun. eapply runs_mono; [apply copy_bundles_runs; [done..|]|].
  - intros b [Hn Hw]%Hl1. split; [done|]. split; [by eapply whole_bundle_objects|]. split; [by eapply Hded, Hw|].
    intros file. destruct (area_in_bundles newRepo (bd_ID b) file) as [x ->]. rewrite Hm1. apply Hfree.
  - intros [] c2 (Hv2 & Hc2 & Hq2). rewrite Hm1 in Hq2. split; [by rewrite Hv2, (same_vmeta _ _ Hs1)|].
    assert (Hcase : forall id, Strings.no_slash id -> (exists b, b ∈ l /\ bd_ID b = id) \/
      ((forall file, objects (Metadata c) !! (bundle_area repo id +:+ file) = None) /\
       forall file, objects (Metadata c2) !! (bundle_area newRepo id +:+ file) = None)).
    { intros id Hid. destruct (decide (id ∈ bd_ID <$> l)) as [Hi|Hi]; [left; by apply list_elem_of_fmap in Hi as (b & -> & ?); eauto|].
      right. split; intros file.
      - apply eq_None_not_Some. intros H. destruct (ro_whole _ _ _ Hok id Hid) as [bd Hw]; [by exists file|].
        pose proof (proj2 (wb_descriptor _ _ _ _ Hw)) as <-. apply Hi, list_elem_of_fmap_2, Hl1. done.
      - rewrite Hq2; [destruct (area_in_bundles newRepo id file) as [x ->]; apply Hfree|]. intros b Hb'. apply not_true_iff_false. intros Hp.
        destruct (proj1 (Hl1 b) Hb') as [Hn _]. apply Hi. rewrite (area_disjoint newRepo id (bd_ID b) _ Hid Hn (Strings.HasPrefix_app _ _) Hp).
        by apply list_elem_of_fmap_2. }
    split; [|split].
    + intros id file Hid Hf. destruct (Hcase id Hid) as [(b & Hb' & <-)|[-> ->]]; [|done]. destruct (Hc2 b Hb') as [_ H]. by rewrite H, Hm1.
    + intros id bd Hid. destruct (Hcase id Hid) as [(b & Hb' & <-)|[H1 H2]].
      * destruct (Hc2 b Hb') as [Hd2 _]. apply Hl1 in Hb' as [_ [[Hd1 _] _ _]].
        split; intros H; [by rewrite (document_unique _ _ _ _ H Hd2)|by rewrite (document_unique _ _ _ _ H Hd1)].
      * rewrite !bundle_path_area. split; intros (b & Hb' & _); congruence.
    + intros q Hq. apply Hq2. intros b _. apply not_true_iff_false. intros Hp%area_prefix. congruence.
Qed.

Lemma copy_all_labels sch i (c : Stores S) n :
  repo_ok repo c n -> listing_ok fuel (length (labels_listing repo c "")) listing_settings sch ->
  is_Some (objects (Metadata c) !! GetArchivePathToRepoDescriptor newRepo) ->
  (forall x, objects (VMetadata c) !! (GetArchivePathPrefixToLabels newRepo [] +:+ x) = None) ->
  runs (without_variables (ListLabelsApply kv versioned fuel NumCPU now repo sch i (fun l => with_variables (copy_label now newRepo l)) [])) c (fun _ c' =>
    objects (Metadata c') = objects (Metadata c) /\
    (forall name ld, Strings.no_slash name ->
       document (VMetadata c') (GetArchivePathToLabel newRepo name) ld <-> label_got now repo (VMetadata c) name = Some ld) /\
    (forall q, Strings.HasPrefix q (GetArchivePathPrefixToLabels newRepo []) = false -> objects (VMetadata c') !! q = objects (VMetadata c) !! q)).
Proof.
  intros Hok Hl Hex Hfree. pose proof (ro_labels _ _ _ Hok) as Hlab.
  destruct (listLabelsChan_runs kv versioned fuel NumCPU now repo repo_name sch [WithDoneChan true] c eq_refl (ro_exists _ _ _ Hok) Hlab Hl)
    as (evs & c1 & E & Hs1 & names & l & Hnames & Hsel & Hperm).
  eapply runs_plain; [eapply list_apply_ok; [exact E|exact Hsel]|].
  assert (Hin : forall ld, ld ∈ l <-> Strings.no_slash (ld_Name ld) /\ label_got now repo (VMetadata c) (ld_Name ld) = Some ld).
  { intros ld. rewrite Hperm, label_got_elem by done. split; [by intros (? & _ & ?)|]. intros [? ?]. split_and!; [done| |done].
    by destruct (ld_Name ld +:+ "/" +:+ labelDescriptorFile). }
  eapply runs_mono; [apply copy_labels_runs; [done|by rewrite (same_meta _ _ Hs1)|rewrite Hperm; by eapply label_got_NoDup|]|].
  { apply Forall_forall. intros name (ld & -> & H)%list_elem_of_fmap. by apply Hin. }
  intros [] c2 (Hm2 & Hd2 & Hq2). rewrite (same_vmeta _ _ Hs1) in Hq2. split; [by rewrite Hm2, (same_meta _ _ Hs1)|]. split.
  - intros name ld Hn. split.
    + intros Hdoc. destruct (label_got now repo (VMetadata c) name) as [ld'|] eqn:El.
      * pose proof (label_got_name now repo repo_name _ _ _ Hlab Hn El) as Hname. subst name.
        f_equal. eapply document_unique; [apply Hd2, Hin; done|done].
      * exfalso. destruct Hdoc as (b & Hb & _). rewrite Hq2 in Hb.
        -- unfold GetArchivePathToLabel in Hb. rewrite Hfree in Hb. done.
        -- intros x [Hx Hg]%Hin Heq. apply label_path_inj in Heq; [|done..]. subst name. congruence.
    + intros Hg. pose proof (label_got_name now repo repo_name _ _ _ Hlab Hn Hg) as <-. by apply Hd2, Hin.
  - intros q Hq. apply Hq2. intros x _ ->. unfold GetArchivePathToLabel in Hq. by rewrite Strings.HasPrefix_app in Hq.
Qed.

(** The new repository has copies of the bundles and labels; nothing else changes. *)

Record copies (c c' : Stores S) : Prop := {
  cp_descriptors id bd : Strings.no_slash id ->
    document (Metadata c') (GetArchivePathToBundle newRepo id) bd <-> document (Metadata c) (GetArchivePathToBundle repo id) bd;
  cp_files id file : Strings.no_slash id -> file <> bundleDescriptorFile ->
    objects (Metadata c') !! (bundle_area newRepo id +:+ file) = objects (Metadata c) !! (bundle_area repo id +:+ file);
  cp_labels name ld : Strings.no_slash name ->
    document (VMetadata c') (GetArchivePathToLabel newRepo name) ld <-> label_got now repo (VMetadata c) name = Some ld;
  cp_meta q : Strings.HasPrefix q (GetArchivePathPrefixToBundles newRepo) = false -> objects (Metadata c') !! q = objects (Metadata c) !! q;
  cp_vmeta q : Strings.HasPrefix q (GetArchivePathPrefixToLabels newRepo []) = false -> objects (VMetadata c') !! q = objects (VMetadata c) !! q
}.

Lemma repo_path_elsewhere r r' : Strings.HasPrefix (GetArchivePathToRepoDescriptor r) (GetArchivePathPrefixToBundles r') = false.
Proof. reflexivity. Qed.

Lemma bundles_elsewhere r r' x : GetArchivePathPrefixToBundles r +:+ x <> GetArchivePathToRepoDescriptor r'.
Proof. intros H. by pose proof (repo_path_elsewhere r' r) as Hp; rewrite <- H, Strings.HasPrefix_app in Hp. Qed.

Lemma copies_same_repo c c' :
  (forall q, Strings.HasPrefix q (GetArchivePathPrefixToBundles newRepo) = false -> objects (Metadata c') !! q = objects (Metadata c) !! q) ->
  (forall q, Strings.HasPrefix q (GetArchivePathPrefixToLabels newRepo []) = false -> objects (VMetadata c') !! q = objects (VMetadata c) !! q) ->
  same_repo c c'.
Proof.
  intros Hm Hv. split; [apply Hm, repo_path_elsewhere|intros x; apply Hm|intros x; apply Hv].
  - eapply (other_bundles newRepo repo); [done..|by apply not_eq_sym|apply Strings.HasPrefix_app].
  - eapply (other_labels newRepo repo); [done..|by apply not_eq_sym|apply Strings.HasPrefix_app].
Qed.

Lemma runs_copies sch1 sch2 i1 i2 msg1 msg2 (k : M (Stores S) unit) (c : Stores S) n Q :
  repo_ok repo c n -> listing_ok fuel (length (bundles_listing repo c)) listing_settings sch1 ->
  listing_ok fuel (length (labels_listing repo c "")) listing_settings sch2 ->
  (forall id bd, Strings.no_slash id -> document (Metadata c) (GetArchivePathToBundle repo id) bd -> bd_Deduplication bd <> "") ->
  is_Some (objects (Metadata c) !! GetArchivePathToRepoDescriptor newRepo) ->
  (forall x, objects (Metadata c) !! (GetArchivePathPrefixToBundles newRepo +:+ x) = None) ->
  (forall x, objects (VMetadata c) !! (GetArchivePathPrefixToLabels newRepo [] +:+ x) = None) ->
  (forall c', copies c c' -> runs k c' Q) ->
  runs (_ ← annotate msg1 (without_variables (ListBundlesApply kv fuel NumCPU repo sch1 i1 (fun b => with_variables (copy_bundle now repo newRepo b)) []));
        _ ← annotate msg2 (without_variables (ListLabelsApply kv versioned fuel NumCPU now repo sch2 i2 (fun l => with_variables (copy_label now newRepo l)) []));
        k) c Q.
Proof.
  intros Hok Hl1 Hl2 Hded Hex Hnb Hnl Hk. apply runs_bind, runs_annotate. eapply runs_mono; [by eapply copy_all_bundles|].
  intros [] c1 (Hv1 & Hf1 & Hd1 & Hq1). assert (same_repo c c1) as Hs1 by (apply copies_same_repo; [done|intros q _; by rewrite Hv1]).
  apply runs_bind, runs_annotate. eapply runs_mono; [apply (copy_all_labels sch2 i2 c1 n)|].
  - by eapply same_repo_ok.
  - eapply listing_ok_mono; [apply same_repo_listings, Hs1|done].
  - by rewrite Hq1.
  - by rewrite Hv1.
  - intros [] c2 (Hm2 & Hl & Hq2). apply Hk. split.
    + intros id bd Hid. rewrite <- Hd1 by done. unfold document. by rewrite Hm2.
    + intros id file. rewrite Hm2. apply Hf1.
    + intros name ld Hname. rewrite Hl by done. unfold label_got. by rewrite Hv1.
    + intros q. rewrite Hm2. apply Hq1.
    + intros q Hq. by rewrite Hq2, Hv1.
Qed.

End repositories.

Section theorems.
Context {S : Type} `{HS : !Store S, HSL : !StoreLaws S, HR : !ReliableStore S, HLL : !ListingLaws S}.
Context {GS : GoSort} {GSL : GoSortLaws}.
Context {HYR : Yaml RepoDescriptor} {HYRL : YamlLaws RepoDescriptor} {HYL : Yaml LabelDescriptor} {HYLL : YamlLaws LabelDescriptor}.
Context {HYB : Yaml BundleDescriptor} {HYBL : YamlLaws BundleDescriptor}.
Variables (kv : string -> bool) (versioned : option (VersionedStore S)) (IsDigit IsLetter IsHyphen : Z -> bool).
Variables (fuel : nat) (NumCPU : Z) (now : Time.Time) (repo newRepo : string).

(** A repository that can be renamed: its bundles are whole and valid, the new
    name is valid, and nothing is stored under it. *)

Record rename_ok (c : Stores S) (n : nat) (desc : RepoDescriptor) (sch1 sch2 sch3 sch4 : schedule) : Prop := {
  rn_names : Strings.no_slash repo /\ Strings.no_slash newRepo;
  rn_repo : repo_ok repo c n;
  rn_descriptor : document (Metadata c) (GetArchivePathToRepoDescriptor repo) desc;
  rn_valid : Validate.ValidateRepo IsDigit IsLetter IsHyphen (with_repo_name desc newRepo) = Ok tt;
  rn_bundles id bd : Strings.no_slash id -> document (Metadata c) (GetArchivePathToBundle repo id) bd -> bd_Deduplication bd <> "";
  rn_absent : objects (Metadata c) !! GetArchivePathToRepoDescriptor newRepo = None;
  rn_no_bundle x : objects (Metadata c) !! (GetArchivePathPrefixToBundles newRepo +:+ x) = None;
  rn_no_label x : objects (VMetadata c) !! (GetArchivePathPrefixToLabels newRepo [] +:+ x) = None;
  rn_listings : listing_ok fuel (length (bundles_listing repo c)) (settings_of NumCPU [WithDoneChan true]) sch1 /\
    listing_ok fuel (length (labels_listing repo c "")) (settings_of NumCPU [WithDoneChan true]) sch2 /\
    listing_ok fuel (length (bundles_listing repo c)) (defaultSettings NumCPU) sch3 /\
    listing_ok fuel (length (labels_listing repo c "")) (defaultSettings NumCPU) sch4
}.

Lemma runs_RepoExists_absent r (c : Stores S) (Q : unit + error -> Stores S -> Prop) :
  objects (Metadata c) !! GetArchivePathToRepoDescriptor r = None ->
  (forall e c', objects (Metadata c') = objects (Metadata c) -> objects (VMetadata c') = objects (VMetadata c) -> Q (inr e) c') ->
  runs (attempt (RepoExists r)) c Q.
Proof.
  intros Hn HQ. destruct (RepoExists_absent r c Hn) as (e & c' & E). eapply runs_attempt_Err; [exact E|].
  apply RepoExists_keeps in E as [Hv Hm]. apply HQ; [done|by rewrite Hv].
Qed.

Lemma runs_GetRepo r desc (c : Stores S) (Q : RepoDescriptor -> Stores S -> Prop) :
  document (Metadata c) (GetArchivePathToRepoDescriptor r) desc ->
  (forall c', same_objects c c' -> Q desc c') -> runs (GetRepo r) c Q.
Proof.
  intros (b & Hb & Hu) HQ. unfold GetRepo. apply runs_bind, runs_meta. eapply runs_Get; [exact Hb|]. intros s1 Ho.
  eapply runs_lift; [exact Hu|]. apply HQ. by apply same_SetMetadata.
Qed.

(** The state [c'] after the renaming, from the state [c] before: the new
    repository has the descriptor, the bundles with their index files and the
    labels of the old one, nothing is left of these in the old one, and no other
    object has changed. *)

Record renamed_to (c c' : Stores S) (desc : RepoDescriptor) : Prop := {
  rt_repo : document (Metadata c') (GetArchivePathToRepoDescriptor newRepo) (with_repo_name desc newRepo);
  rt_bundles id bd : Strings.no_slash id ->
    document (Metadata c') (GetArchivePathToBundle newRepo id) bd <-> document (Metadata c) (GetArchivePathToBundle repo id) bd;
  rt_files id file : Strings.no_slash id -> file <> bundleDescriptorFile ->
    objects (Metadata c') !! (bundle_area newRepo id +:+ file) = objects (Metadata c) !! (bundle_area repo id +:+ file);
  rt_labels name ld : Strings.no_slash name ->
    document (VMetadata c') (GetArchivePathToLabel newRepo name) ld <-> label_got now repo (VMetadata c) name = Some ld;
  rt_no_repo : objects (Metadata c') !! GetArchivePathToRepoDescriptor repo = None;
  rt_no_bundle x : objects (Metadata c') !! (GetArchivePathPrefixToBundles repo +:+ x) = None;
  rt_no_label x : objects (VMetadata c') !! (GetArchivePathPrefixToLabels repo [] +:+ x) = None;
  rt_other_meta q :
    (forall r, r = repo \/ r = newRepo -> q <> GetArchivePathToRepoDescriptor r /\ Strings.HasPrefix q (GetArchivePathPrefixToBundles r) = false) ->
    objects (Metadata c') !! q = objects (Metadata c) !! q;
  rt_other_vmeta q :
    (forall r, r = repo \/ r = newRepo -> Strings.HasPrefix q (GetArchivePathPrefixToLabels r []) = false) ->
    objects (VMetadata c') !! q = objects (VMetadata c) !! q
}.

Lemma renaming_outcome (c c4 c5 c6 : Stores S) desc :
  Strings.no_slash repo -> Strings.no_slash newRepo -> repo <> newRepo ->
  document (Metadata c4) (GetArchivePathToRepoDescriptor newRepo) (with_repo_name desc newRepo) ->
  (forall q, q <> GetArchivePathToRepoDescriptor newRepo -> objects (Metadata c4) !! q = objects (Metadata c) !! q) ->
  objects (VMetadata c4) = objects (VMetadata c) -> same_repo repo c c4 -> copies now repo newRepo c4 c5 ->
  objects (Metadata c6) = delete (GetArchivePathToRepoDescriptor repo) (outside (GetArchivePathPrefixToBundles repo) (objects (Metadata c5))) ->
  objects (VMetadata c6) = outside (GetArchivePathPrefixToLabels repo []) (objects (VMetadata c5)) ->
  renamed_to c c6 desc.
Proof.
  intros Hr Hn Hne Hd4 Hq4 Hv4 Hs4 H5 Hm6 Hv6.
  assert (Hb4 : forall id bd, document (Metadata c4) (GetArchivePathToBundle repo id) bd <-> document (Metadata c) (GetArchivePathToBundle repo id) bd).
  { intros id bd. unfold document. rewrite bundle_path_area. by rewrite (same_repo_area _ _ _ _ _ Hs4). }
  assert (Hmeta : forall q, q <> GetArchivePathToRepoDescriptor repo -> Strings.HasPrefix q (GetArchivePathPrefixToBundles repo) = false ->
    objects (Metadata c6) !! q = objects (Metadata c5) !! q).
  { intros q Hq Hp. by rewrite Hm6, lookup_delete_ne, outside_lookup, Hp by done. }
  assert (Harea : forall id file, objects (Metadata c6) !! (bundle_area newRepo id +:+ file) = objects (Metadata c5) !! (bundle_area newRepo id +:+ file)).
  { intros id file. destruct (area_in_bundles newRepo id file) as [x ->]. apply Hmeta; [apply bundles_elsewhere|].
    eapply other_bundles; [done..|apply Strings.HasPrefix_app]. }
  split.
  - eapply document_objects; [|exact Hd4]. rewrite Hmeta; [|by intros ->%repo_path_inj|apply repo_path_elsewhere].
    apply (cp_meta _ _ _ _ _ H5), repo_path_elsewhere.
  - intros id bd Hid. rewrite <- Hb4, <- (cp_descriptors _ _ _ _ _ H5) by done. unfold document. rewrite bundle_path_area. by rewrite Harea.
  - intros id file Hid Hf. rewrite Harea, (cp_files _ _ _ _ _ H5) by done. by apply same_repo_area.
  - intros name ld Hname. unfold label_got. rewrite <- Hv4. fold (label_got now repo (VMetadata c4) name).
    rewrite <- (cp_labels _ _ _ _ _ H5) by done. unfold document. rewrite Hv6, outside_lookup.
    by rewrite (other_labels repo newRepo) by (done || apply label_path_area).
  - by rewrite Hm6, lookup_delete_eq.
  - intros x. rewrite Hm6, lookup_delete_ne by (apply not_eq_sym, bundles_elsewhere). by rewrite outside_lookup, Strings.HasPrefix_app.
  - intros x. by rewrite Hv6, outside_lookup, Strings.HasPrefix_app.
  - intros q Hq. destruct (Hq repo) as [H1 H2]; [by left|]. destruct (Hq newRepo) as [H3 H4]; [by right|].
    rewrite Hmeta, (cp_meta _ _ _ _ _ H5), Hq4 by done. done.
  - intros q Hq. rewrite Hv6, outside_lookup, (Hq repo), (cp_vmeta _ _ _ _ _ H5), Hv4; auto.
Qed.

(** C33: RenameRepo gives the new repository the descriptor, the bundles with
    their index files, and the labels of the old one, removes all of these from
    the old one, and changes no other object; the diamonds of the repository
    keep the old name. It does so for every order in which the workers of its
    four listings answer. *)
Theorem RenameRepo_correct sch1 sch2 sch3 sch4 i1 i2 (c : Stores S) n desc :
  rename_ok c n desc sch1 sch2 sch3 sch4 ->
  runs (RenameRepo kv versioned IsDigit IsLetter IsHyphen fuel NumCPU now repo newRepo sch1 sch2 sch3 sch4 i1 i2) c
    (fun _ c' => renamed_to c c' desc).
Proof.
  intros [[Hr Hn] Hok Hdesc Hvalid Hded Habs Hnb Hnl (Hl1 & Hl2 & Hl3 & Hl4)].
  assert (repo <> newRepo) as Hne by (intros ->; destruct (ro_exists _ _ _ Hok) as [b Hb]; congruence).
  unfold RenameRepo. apply runs_bind, runs_annotate. eapply reads_runs; [apply reads_RepoExists, Hok|]. intros c1 Hs1.
  pose proof (same_meta _ _ Hs1) as Hm1. pose proof (same_vmeta _ _ Hs1) as Hv1.
  apply runs_bind, runs_RepoExists_absent; [by rewrite Hm1|]. intros e c2 Hm2 Hv2.
  apply runs_bind, runs_annotate. eapply runs_GetRepo; [unfold document; rewrite Hm2, Hm1; exact Hdesc|]. intros c3 Hs3.
  assert (objects (Metadata c3) = objects (Metadata c)) as Hm3 by (rewrite (same_meta _ _ Hs3); congruence).
  assert (objects (VMetadata c3) = objects (VMetadata c)) as Hv3 by (rewrite (same_vmeta _ _ Hs3); congruence). clear Hs1 Hm1 Hv1 Hm2 Hv2 Hs3.
  apply runs_bind, runs_annotate. eapply runs_mono; [apply CreateRepo_runs; [exact Hvalid|cbn; by rewrite Hm3]|]. intros [] c4 (Hv4 & Hd4 & Hq4).
  cbn [rd_Name with_repo_name] in Hd4, Hq4. rewrite Hm3 in Hq4. rewrite Hv3 in Hv4. clear c1 c2 c3 Hm3 Hv3 e.
  assert (same_repo repo c c4) as Hs4.
  { split; [apply Hq4; by intros ->%repo_path_inj|intros x; apply Hq4, bundles_elsewhere|intros x; by rewrite Hv4]. }
  pose proof (same_repo_listings repo _ _ Hs4) as [Hlen1 Hlen2].
  apply (runs_copies kv versioned fuel NumCPU now repo newRepo Hr Hn Hne sch1 sch2 i1 i2 _ _ _ c4 n).
  - by eapply same_repo_ok.
  - by eapply listing_ok_mono.
  - by eapply listing_ok_mono.
  - intros id bd Hid Hd. apply (Hded id); [done|]. eapply document_objects; [|exact Hd]. rewrite bundle_path_area. by rewrite (same_repo_area _ _ _ _ _ Hs4).
  - exact (document_is_Some _ _ _ Hd4).
  - intros x. rewrite Hq4 by apply bundles_elsewhere. apply Hnb.
  - intros x. rewrite Hv4. apply Hnl.
  - intros c5 H5. assert (same_repo repo c c5) as Hs5.
    { destruct (copies_same_repo repo newRepo Hr Hn Hne c4 c5 (cp_meta _ _ _ _ _ H5) (cp_vmeta _ _ _ _ _ H5)), Hs4. split; congruence. }
    pose proof (same_repo_listings repo _ _ Hs5) as [Hlen3 Hlen4].
    apply runs_annotate. eapply runs_mono; [apply (DeleteRepo_runs kv versioned fuel NumCPU now repo Hr sch3 sch4 [] c5 n)|].
    + by eapply same_repo_ok.
    + by eapply listing_ok_mono.
    + by eapply listing_ok_mono.
    + intros [] c6 [Hm6 Hv6]. by eapply renaming_outcome.
Qed.

(** An index file that a descriptor counts and the store does not hold makes
    the copy of the bundle panic, after the descriptor has been copied. *)
Theorem copy_bundle_panics bd (c : Stores S) :
  bd_Deduplication bd <> "" -> (0 < bd_BundleEntriesFileCount bd)%N ->
  objects (Metadata c) !! GetArchivePathToBundle newRepo (bd_ID bd) = None ->
  GetArchivePathToBundleFileList repo (bd_ID bd) 0 <> GetArchivePathToBundle newRepo (bd_ID bd) ->
  objects (Metadata c) !! GetArchivePathToBundleFileList repo (bd_ID bd) 0 = None ->
  exists msg, (copy_bundle now repo newRepo bd c).1 = Panic msg /\
    document (Metadata (copy_bundle now repo newRepo bd c).2) (GetArchivePathToBundle newRepo (bd_ID bd)) bd.
Proof.
  intros Hd Hc Hn Hne Hl. destruct (uploadBundleDescriptor_runs newRepo (bd_ID bd) bd c (fun _ c' =>
    document (Metadata c') (GetArchivePathToBundle newRepo (bd_ID bd)) bd /\ objects (Metadata c') !! GetArchivePathToBundleFileList repo (bd_ID bd) 0 = None))
    as ([] & c1 & E & Hdoc & Hl1); [done|done| |].
  { intros s' H1 H2. split; [done|]. cbn. by rewrite H2. }
  destruct (Get_none _ _ Hl1) as (e & s2 & Eg & _ & Ho2). eexists.
  assert (copy_file_list repo newRepo (bd_ID bd) 0 (Metadata c1) = (Panic "invalid memory address or nil pointer dereference", s2)) as Ef.
  { unfold copy_file_list, mbind, M_bind, attempt. by rewrite Eg. }
  unfold copy_bundle. cbn [NewBundle fold_left].
  change (b_RepoID _) with newRepo. change (b_BundleID _) with (bd_ID bd). change (b_BundleDescriptor _) with bd.
  unfold mbind, M_bind. rewrite E. replace (upto_count (bd_BundleEntriesFileCount bd)) with (0%N :: (N.of_nat <$> seq 1 (N.to_nat (bd_BundleEntriesFileCount bd) - 1))).
  - unfold getMetaStore. cbn [for_each]. unfold mbind, M_bind. rewrite Ef. split; [done|]. eapply document_objects; [|exact Hdoc]. cbn. by rewrite Ho2.
  - unfold upto_count. destruct (N.to_nat (bd_BundleEntriesFileCount bd)) as [|k] eqn:Ek; [lia|]. cbn. by rewrite Nat.sub_0_r.
Qed.

End theorems.

(** ** A concrete renaming *)

Section witness.
Import CoreDeleteWitness.

#[local] Existing Instance numbered_yaml.

#[local] Existing Instance numbered_yaml_laws.

Lemma backwards_done len : len < 9 -> listing_ok 9 len (settings_of 1 [WithDoneChan true]) backwards.
Proof. intros Hl. split; [done|done|done| |done]. intros l. apply reverse_Permutation. Qed.

Lemma stores_rename_ok : rename_ok any_char any_char any_char 9 1 "r" "s" stores 2 the_repo backwards backwards backwards backwards.
Proof.
  split.
  - done.
  - apply stores_repo_ok.
  - exists (put_positive (encode the_repo)). split; [vm_compute; reflexivity|apply numbered_Unmarshal].
  - reflexivity.
  - intros id bd Hn (b & Hb & Hu). destruct (in_bundle _ _ id Hn Hb) as [Hid _]; [rewrite bundle_path_area; apply Strings.HasPrefix_app|].
    rewrite (present id _ (put_positive (encode (a_bundle id)))) in Hb; [|done|by left]. injection Hb as <-.
    rewrite numbered_Unmarshal in Hu. by injection Hu as <-.
  - vm_compute. reflexivity.
  - intros x. apply eq_None_not_Some. intros [v Hv%meta_elem]. apply elem_of_cons in Hv as [Hv|Hv]; [by apply (f_equal fst) in Hv|].
    apply list_elem_of_bind in Hv as (id & Hv & _). unfold files_of in Hv.
    repeat (apply elem_of_cons in Hv as [Hv|Hv]; [by apply (f_equal fst) in Hv|]). by apply elem_of_nil in Hv.
  - intros x. apply eq_None_not_Some. intros [v Hv%label_elem]. unfold label_files in Hv.
    repeat (apply elem_of_cons in Hv as [Hv|Hv]; [by apply (f_equal fst) in Hv|]). by apply elem_of_nil in Hv.
  - split_and!; [apply backwards_done|apply backwards_done|apply backwards_default|apply backwards_default]; vm_compute; lia.
Qed.

Lemma RenameRepo_correct_witness :
  runs (RenameRepo all_valid None any_char any_char any_char 9 1 2%Z "r" "s" backwards backwards backwards backwards Unnoticed Unnoticed) stores (fun _ c' =>
    document (Metadata c') (GetArchivePathToBundle "s" "b2") (a_bundle "b2") /\ objects (Metadata c') !! GetArchivePathToRepoDescriptor "r" = None).
Proof.
  eapply runs_mono; [apply (RenameRepo_correct all_valid None any_char any_char any_char 9 1 2%Z "r" "s" backwards backwards backwards backwards
    Unnoticed Unnoticed stores 2 the_repo stores_rename_ok)|].
  intros u c' H. split; [|exact (rt_no_repo _ _ _ _ _ _ H)]. apply (rt_bundles _ _ _ _ _ _ H); [reflexivity|].
  apply (wb_descriptor _ _ _ _ (three_whole "b2" ltac:(right; left))).
Defined.

Lemma copy_bundle_panics_witness :
  exists msg, (copy_bundle 1%Z "r" "s" (a_bundle "b9") stores).1 = Panic msg.
Proof.
  destruct (copy_bundle_panics 1%Z "r" "s" (a_bundle "b9") stores) as (msg & E & _);
    [discriminate|reflexivity|vm_compute; reflexivity|vm_compute; discriminate|vm_compute; reflexivity|]. exists msg. exact E.
Defined.

End witness.

End CoreRename.
