(* ===== verification/CoreDiamond.v ===== *)
(** * The lifecycle of diamonds and splits (pkg/core: diamond.go,
    diamond_ops.go, diamond_options.go, diamond_commit.go, split.go,
    split_ops.go, split_options.go)

    A diamond has two possible descriptors in the versioned metadata store: the
    initial one, written when it is created, and the final one, written by the
    commit or the cancellation that terminates it. Splits are organised in the
    same way. Descriptors are written without overwriting and never deleted by
    these operations, which is what makes the state of a diamond progress in
    one direction only under concurrent clients. *)

From stdpp Require Import relations.
From S2P Require Import Prelude GoLib Errors Storage Model CoreMeta CoreIndex CoreRepo DiamondMerge.

Module CoreDiamond.
Import Model Storage CoreMeta CoreRepo CoreStatus StorageStatus.

(** What the constructors of descriptors read: a random ksuid, the clock. *)

Record draw : Type := mkDraw {
  random_ksuid : string;
  time_Now : Time.Time
}.

(** ** Diamonds *)

(** The fields of the embedded Bundle these operations use. *)

Record Diamond : Type := mkDiamond {
  d_RepoID : string;
  d_BundleID : string;
  d_BundleDescriptor : BundleDescriptor;
  d_DiamondDescriptor : DiamondDescriptor;
  d_deconflicter : option (string -> string -> res string)
}.

Definition DiamondOption : Type := Diamond -> Diamond.

Definition setDescriptor (b : Diamond) (desc : DiamondDescriptor) : Diamond :=
  mkDiamond (d_RepoID b) (d_BundleID b) (d_BundleDescriptor b) desc (d_deconflicter b).

Definition WithDiamondDescriptor (desc : option DiamondDescriptor) : DiamondOption := fun b =>
  match desc with Some d => setDescriptor b d | None => b end.

Definition DiamondRepo (r : string) : DiamondOption := fun b =>
  mkDiamond r (d_BundleID b) (d_BundleDescriptor b) (d_DiamondDescriptor b) (d_deconflicter b).

Definition DiamondMessage (m : string) : DiamondOption := fun b =>
  mkDiamond (d_RepoID b) (d_BundleID b) (Message m (d_BundleDescriptor b)) (d_DiamondDescriptor b) (d_deconflicter b).

Definition defaultDiamond (w : draw) (repo : string) : Diamond :=
  mkDiamond repo "" (defaultBundleDescriptor (time_Now w)) (defaultDiamondDescriptor (random_ksuid w) (time_Now w)) None.

(** The renaming function selected when the options give none. *)

Definition select_deconflicter (mode : ConflictMode) (a b : string) : res string :=
  if decide (mode = EnableCheckpoints) then Ok (GenerateCheckpointPath a b)
  else if decide (mode = ForbidConflicts) then Panic "dev error: must not call deconflicter"
  else Ok (GenerateConflictPath a b).

Definition NewDiamond (w : draw) (repo : string) (opts : list DiamondOption) : Diamond :=
  let diamond := fold_left (fun d apply_ => apply_ d) opts (defaultDiamond w repo) in
  match d_deconflicter diamond with
  | Some _ => diamond
  | None => mkDiamond (d_RepoID diamond) (d_BundleID diamond) (d_BundleDescriptor diamond) (d_DiamondDescriptor diamond)
              (Some (select_deconflicter (dd_Mode (d_DiamondDescriptor diamond))))
  end.

(** The state with the time of a transition to a terminal state. *)

Definition Diamond_WithState (state : DiamondState) (now : Time.Time) (d : Diamond) : Diamond :=
  let dd := d_DiamondDescriptor d in
  if decide (state = dd_State dd) then d
  else setDescriptor d (mkDiamondDescriptor (dd_DiamondID dd) (dd_StartTime dd)
    (if decide (state = DiamondDone \/ state = DiamondCanceled) then now else dd_EndTime dd)
    state (dd_Mode dd) (dd_HasConflicts dd) (dd_HasCheckpoints dd) (dd_Tag dd) (dd_BundleID dd) (dd_Splits dd)).

(** ** Splits *)

Record Split : Type := mkSplit {
  s_RepoID : string;
  s_BundleDescriptor : BundleDescriptor;
  s_SplitDescriptor : SplitDescriptor;
  s_DiamondID : string;
  s_mustExist : bool
}.

Definition SplitOption : Type := Split -> Split.

Definition setSplitDescriptor (s : Split) (d : SplitDescriptor) : Split :=
  mkSplit (s_RepoID s) (s_BundleDescriptor s) d (s_DiamondID s) (s_mustExist s).

Definition WithSplitDescriptor (d : option SplitDescriptor) : SplitOption := fun s =>
  match d with Some d => setSplitDescriptor s d | None => s end.

Definition SplitMustExist (b : bool) : SplitOption := fun s =>
  mkSplit (s_RepoID s) (s_BundleDescriptor s) (s_SplitDescriptor s) (s_DiamondID s) b.

Definition defaultSplit (w : draw) (repo diamondID : string) : Split :=
  mkSplit repo (defaultBundleDescriptor (time_Now w)) (defaultSplitDescriptor (random_ksuid w) (time_Now w)) diamondID false.

Definition NewSplit (w : draw) (repo diamondID : string) (opts : list SplitOption) : Split :=
  fold_left (fun s apply_ => apply_ s) opts (defaultSplit w repo diamondID).

(** getKeys with a filter: the keys the filter keeps. *)

Definition filtered_keys (filter_ : option (string -> bool)) (keys : res (list string)) : res (list string) :=
  match filter_ with
  | None => keys
  | Some f => ks ← keys; mret (filter (fun k => f k = true) ks)
  end.

Definition Split_WithState (state : SplitState) (now : Time.Time) (s : Split) : Split :=
  let sd := s_SplitDescriptor s in
  if decide (state = sd_State sd /\ state <> SplitRunning) then s
  else setSplitDescriptor s (mkSplitDescriptor (sd_SplitID sd)
    (if decide (state = SplitRunning) then now else sd_StartTime sd)
    (if decide (state = SplitRunning) then Time.zero else if decide (state = SplitDone) then now else sd_EndTime sd)
    state (sd_Contributors sd) (sd_GenerationID sd) (sd_SplitEntriesFileCount sd) (sd_Tag sd)).

Section operations.
Context {S : Type} `{HS : !Store S} {HYD : Yaml DiamondDescriptor} {HYS : Yaml SplitDescriptor}.

(** The metaObject of diamonds and splits is the versioned metadata store. *)

Definition Diamond_downloadDescriptor (d : Diamond) : M S Diamond :=
  let id := dd_DiamondID (d_DiamondDescriptor d) in
  r ← attempt (readMetadata (GetArchivePathToFinalDiamond (d_RepoID d) id));
  buffer ← match r with
           | inl buffer => mret buffer
           | inr err =>
               if negb (Errors.Is err ErrNotExists) then fail err
               else readMetadata (GetArchivePathToInitialDiamond (d_RepoID d) id)
           end;
  desc ← lift (Unmarshal buffer);
  mret (setDescriptor d desc).

Definition Diamond_uploadDescriptor (d : Diamond) : M S unit :=
  let dd := d_DiamondDescriptor d in
  buffer ← lift (Marshal dd);
  writeMetadata (GetArchivePathToDiamond (d_RepoID d) (dd_DiamondID dd) (dd_State dd)) NoOverWrite buffer.

(** What the constructors draw here is replaced by the option and the download. *)

Definition GetDiamond (w : draw) (repo diamondID : string) (opts : list DiamondOption) : M (Stores S) DiamondDescriptor :=
  let desc := NewDiamondDescriptor (random_ksuid w) (time_Now w) [DiamondID diamondID] in
  let d := NewDiamond w repo (WithDiamondDescriptor (Some desc) :: opts) in
  _ ← RepoExists repo;
  d' ← GetDiamondStore (Diamond_downloadDescriptor d);
  mret (d_DiamondDescriptor d').

Definition DiamondExists (repo diamondID : string) : M (Stores S) unit :=
  r ← attempt (GetDiamondStore (Has (GetArchivePathToInitialDiamond repo diamondID)));
  match r with
  | inr err => fail (Errors.Wrap (Errors.New "failed to retrieve diamond from store") (Some err))
  | inl exists_ =>
      if exists_ : bool then mret tt
      else fail (Errors.WrapMessage (Errors.New "diamond validation")
             ("diamond " +:+ diamondID +:+ " doesn't exist for repo " +:+ repo +:+ " "))
  end.

(** The states are quoted in the messages. *)

Definition diamondReady (w : draw) (repo diamondID : string) : M (Stores S) unit :=
  diamond ← GetDiamond w repo diamondID [];
  if decide (dd_State diamond = DiamondInitialized) then mret tt
  else if negb (DiamondState_IsValid (dd_State diamond))
  then fail (Errors.WrapMessage (Errors.New "diamond is not ready") ("invalid metadata for state: " +:+ dd_State diamond))
  else fail (Errors.WrapMessage (Errors.New "diamond is not ready") ("diamond state is: " +:+ dd_State diamond +:+ ":")).

(** errors.New(m).Wrap(err) on the error of a call *)

Definition wrap_error {A B} (e : error) (m : M A B) : M A B := fun s =>
  match m s with
  | (Err err, s') => (Err (Errors.Wrap e (Some err)), s')
  | x => x
  end.

Definition CreateDiamond (w : draw) (repo : string) (opts : list DiamondOption) : M (Stores S) DiamondDescriptor :=
  let d := NewDiamond w repo opts in
  if decide (dd_DiamondID (d_DiamondDescriptor d) = "") then fail (Errors.New "a diamond must have a diamondID")
  else
    _ ← RepoExists repo;
    _ ← wrap_error (Errors.New "cannot update diamond descriptor") (GetDiamondStore (Diamond_uploadDescriptor d));
    mret (d_DiamondDescriptor d).

Definition Cancel (now : Time.Time) (d : Diamond) : M (Stores S) Diamond :=
  d ← GetDiamondStore (Diamond_downloadDescriptor d);
  let state := dd_State (d_DiamondDescriptor d) in
  if decide (state = DiamondCanceled \/ state = DiamondDone)
  then fail (Errors.WrapMessage (Errors.New "diamond is already terminated") ("diamond state: " +:+ state))
  else
    let d' := Diamond_WithState DiamondCanceled now d in
    _ ← GetDiamondStore (Diamond_uploadDescriptor d');
    mret d'.

(** The deferred end of implCommit: without an error, the descriptor is
    uploaded as done; the error of the upload is the result. *)

Definition implCommit_end (now : Time.Time) (err : option error) (d : Diamond) : M (Stores S) Diamond :=
  match err with
  | Some e => fail e
  | None =>
      let d' := Diamond_WithState DiamondDone now d in
      _ ← GetDiamondStore (Diamond_uploadDescriptor d');
      mret d'
  end.

Definition Split_downloadDescriptor (s : Split) : M S Split :=
  let id := sd_SplitID (s_SplitDescriptor s) in
  r ← attempt (readMetadata (GetArchivePathToFinalSplit (s_RepoID s) (s_DiamondID s) id));
  buffer ← match r with
           | inl buffer => mret buffer
           | inr err =>
               if negb (Errors.Is err ErrNotExists) then fail err
               else readMetadata (GetArchivePathToInitialSplit (s_RepoID s) (s_DiamondID s) id)
           end;
  desc ← lift (Unmarshal buffer);
  mret (setSplitDescriptor s desc).

(** The number of index files of the bundle is copied to the descriptor. *)

Definition synced (s : Split) : Split :=
  setSplitDescriptor s (CoreIndex.split_with_count (s_SplitDescriptor s) (bd_BundleEntriesFileCount (s_BundleDescriptor s))).

Definition Split_uploadDescriptor (s : Split) : M S Split :=
  let s' := synced s in
  let sd := s_SplitDescriptor s' in
  buffer ← lift (Marshal sd);
  _ ← writeMetadata (GetArchivePathToSplit (s_RepoID s') (s_DiamondID s') (sd_SplitID sd) (sd_State sd)) NoOverWrite buffer;
  mret s'.

Definition GetSplit (w : draw) (repo diamondID splitID : string) (opts : list SplitOption) : M (Stores S) SplitDescriptor :=
  let desc := NewSplitDescriptor (random_ksuid w) (time_Now w) [SplitID splitID] in
  let s := NewSplit w repo diamondID (WithSplitDescriptor (Some desc) :: opts) in
  s' ← GetSplitStore (Split_downloadDescriptor s);
  mret (s_SplitDescriptor s').

(** The second call of NewSplit draws anew. *)

Definition CreateSplit (w w' : draw) (repo diamondID : string) (opts : list SplitOption) : M (Stores S) SplitDescriptor :=
  let s := NewSplit w repo diamondID opts in
  if decide (diamondID = "") then fail (Errors.New "diamondID is required to create a split")
  else
    _ ← wrap_error (Errors.New "cannot create split on inexistant repo") (RepoExists repo);
    _ ← wrap_error (Errors.New "cannot create split") (diamondReady w repo diamondID);
    r ← attempt (GetSplitStore (Split_downloadDescriptor s));
    match r with
    | inl s1 =>
        let sd := s_SplitDescriptor s1 in
        if decide (sd_State sd = SplitDone)
        then fail (Errors.WrapMessage ErrSplitAlreadyDone ("diamond ID: " +:+ diamondID +:+ ", split ID " +:+ sd_SplitID sd +:+
                     ", split state: " +:+ sd_State sd))
        else mret sd
    | inr err =>
        if negb (Errors.Is err StorageStatus.ErrNotExists) && negb (Errors.Is err StorageStatus.ErrNotFound) then fail err
        else if s_mustExist s
        then fail (Errors.WrapMessage ErrSplitMustExist ("diamond ID: " +:+ diamondID +:+ ", split ID: " +:+ sd_SplitID (s_SplitDescriptor s)))
        else
          let s2 := NewSplit w' repo diamondID opts in
          s3 ← wrap_error ErrSplitUpdate (GetSplitStore (Split_uploadDescriptor s2));
          mret (s_SplitDescriptor s3)
    end.

End operations.

(** ** Calls on the store

    All that concurrent clients do to the versioned metadata store is a
    sequence of reads and of writes that do not overwrite. *)

Section calls.
Context {S : Type} `{HS : !Store S, HSL : !StoreLaws S}.

Inductive call_step : S -> S -> Prop :=
| call_Get k s r s' : Get k s = (r, s') -> call_step s s'
| call_Has k s r s' : Has k s = (r, s') -> call_step s s'
| call_write pth b s r s' : putBuffer pth b NoOverWrite s = (r, s') -> call_step s s'.

Lemma call_step_mono s s' : call_step s s' -> objects s ⊆ objects s'.
Proof.
  intros [k ? r ? E|k ? r ? E|pth b ? r ? E].
  - by apply Get_spec in E as [-> _].
  - by apply Has_spec in E as [-> _].
  - apply map_subseteq_spec. intros k d Hd. apply putBuffer_spec in E as (_ & Hne & Hex).
    destruct (decide (k = pth)) as [->|Hn]; [by rewrite Hex by eauto|by rewrite Hne].
Qed.

Lemma calls_mono s s' : rtc call_step s s' -> objects s ⊆ objects s'.
Proof. induction 1 as [|x y z Hxy _ IH]; [done|]. etrans; [by apply call_step_mono|done]. Qed.

(** A computation all of whose effects are related by [R]. *)

Definition effects {T A} (R : T -> T -> Prop) (m : M T A) : Prop :=
  forall s r s', m s = (r, s') -> R s s'.

Section combinators.
Context {T : Type} (R : T -> T -> Prop) `{!PreOrder R}.

Lemma effects_lift {A} (r : res A) : effects R (lift r).
Proof. intros s r' s' [= <- <-]. reflexivity. Qed.

Lemma effects_ret {A} (a : A) : effects R (mret a).
Proof. intros s r' s' [= <- <-]. reflexivity. Qed.

Lemma effects_fail {A} (e : error) : effects (A := A) R (fail e).
Proof. intros s r' s' [= <- <-]. reflexivity. Qed.

Lemma effects_bind {A B} (m : M T A) (f : A -> M T B) :
  effects R m -> (forall a, effects R (f a)) -> effects R (m ≫= f).
Proof.
  intros Hm Hf s r s'. unfold mbind, M_bind. destruct (m s) as [[a|e|p] s1] eqn:E; intros H.
  - transitivity s1; [by eapply Hm|by eapply Hf].
  - injection H as <- <-. by eapply Hm.
  - injection H as <- <-. by eapply Hm.
Qed.

Lemma effects_attempt {A} (m : M T A) : effects R m -> effects R (attempt m).
Proof.
  intros Hm s r s'. unfold attempt. destruct (m s) as [[a|e|p] s1] eqn:E; intros [= <- <-]; by eapply Hm.
Qed.

Lemma effects_wrap {A} e (m : M T A) : effects R m -> effects R (wrap_error e m).
Proof.
  intros Hm s r s'. unfold wrap_error. destruct (m s) as [[a|e'|p] s1] eqn:E; intros [= <- <-]; by eapply Hm.
Qed.

End combinators.

Abbreviation calls := (rtc call_step).

Definition vcalls (c c' : Stores S) : Prop := rtc call_step (VMetadata c) (VMetadata c').

#[export] Instance vcalls_preorder : PreOrder vcalls.
Proof. unfold vcalls. split; [intros c; reflexivity|intros c c1 c2; apply transitivity]. Qed.

Lemma effects_read k : effects calls (readMetadata k).
Proof. intros s r s' E. apply rtc_once. by eapply call_Get. Qed.

Lemma effects_write k b : effects calls (writeMetadata k NoOverWrite b).
Proof. intros s r s' E. apply rtc_once. by eapply call_write. Qed.

Lemma effects_Has k : effects calls (Has k).
Proof. intros s r s' E. apply rtc_once. by eapply call_Has. Qed.

Lemma effects_diamond_store {A} (m : M S A) : effects calls m -> effects vcalls (GetDiamondStore m).
Proof.
  intros Hm c r c'. unfold GetDiamondStore, getVMetaStore. destruct (m (VMetadata c)) as [r' s'] eqn:E.
  intros [= <- <-]. by eapply Hm.
Qed.

Lemma effects_split_store {A} (m : M S A) : effects calls m -> effects vcalls (GetSplitStore m).
Proof. apply effects_diamond_store. Qed.

Lemma effects_RepoExists repo : effects vcalls (RepoExists repo).
Proof. intros c r c' [Hv _]%RepoExists_keeps. unfold vcalls. by rewrite Hv. Qed.

End calls.

(** Follows the structure of an operation down to its store calls. *)

Ltac solve_effects :=
  repeat first
    [ progress intros
    | apply effects_RepoExists
    | apply effects_bind; [apply _|..]
    | apply effects_diamond_store
    | apply effects_split_store
    | apply effects_attempt
    | apply effects_wrap
    | apply effects_lift; apply _
    | apply effects_ret; apply _
    | apply effects_fail; apply _
    | apply effects_read
    | apply effects_write
    | apply effects_Has
    | case_match ].

(** ** The phases of a diamond *)

Inductive phase : Type :=
| Absent
| Initial (b : bytes)
| Final (b : bytes).

(** The transitions clients can observe. *)

Inductive progress : phase -> phase -> Prop :=
| progress_stay p : progress p p
| progress_create b : progress Absent (Initial b)
| progress_terminate b b' : progress (Initial b) (Final b')
| progress_jump b : progress Absent (Final b).

Section lifecycle.
Context {S : Type} `{HS : !Store S, HSL : !StoreLaws S} {HYD : Yaml DiamondDescriptor} {HYS : Yaml SplitDescriptor}.
Context {HYE : Yaml (list BundleEntry)}.

(** The descriptor downloadDescriptor reads: the final one first. *)

Definition phase_of (final initial : string) (s : S) : phase :=
  match objects s !! final with
  | Some b => Final b
  | None => match objects s !! initial with Some b => Initial b | None => Absent end
  end.

Definition diamond_phase (repo id : string) : S -> phase :=
  phase_of (GetArchivePathToFinalDiamond repo id) (GetArchivePathToInitialDiamond repo id).

Definition split_phase (repo d id : string) : S -> phase :=
  phase_of (GetArchivePathToFinalSplit repo d id) (GetArchivePathToInitialSplit repo d id).

Lemma phase_progress final initial s s' :
  objects s ⊆ objects s' -> progress (phase_of final initial s) (phase_of final initial s').
Proof.
  intros Hsub. unfold phase_of.
  pose proof (fun k b => lookup_weaken (objects s) (objects s') k b) as Hw.
  destruct (objects s !! final) as [b|] eqn:E1.
  { rewrite (Hw _ _ E1 Hsub). constructor. }
  destruct (objects s !! initial) as [b|] eqn:E2.
  { rewrite (Hw _ _ E2 Hsub). destruct (objects s' !! final); constructor. }
  destruct (objects s' !! final); [constructor|]. destruct (objects s' !! initial); constructor.
Qed.

(** The operations on diamonds and splits, with the upload of index files. *)

Inductive operation : forall A, M (Stores S) A -> Prop :=
| op_GetDiamond w repo id opts : operation _ (GetDiamond w repo id opts)
| op_DiamondExists repo id : operation _ (DiamondExists repo id)
| op_CreateDiamond w repo opts : operation _ (CreateDiamond w repo opts)
| op_Cancel now d : operation _ (Cancel now d)
| op_implCommit_end now err d : operation _ (implCommit_end now err d)
| op_GetSplit w repo d id opts : operation _ (GetSplit w repo d id opts)
| op_CreateSplit w w' repo d opts : operation _ (CreateSplit w w' repo d opts)
| op_pack n it input fin : operation _ (GetDiamondStore (CoreIndex.pack n it input fin))
| op_split_done now s : operation _ (GetSplitStore (Split_uploadDescriptor (Split_WithState SplitDone now s))).

Lemma effects_Diamond_download d : effects (rtc call_step) (Diamond_downloadDescriptor d : M S _).
Proof. unfold Diamond_downloadDescriptor. solve_effects. Qed.

Lemma effects_Diamond_upload d : effects (rtc call_step) (Diamond_uploadDescriptor d : M S _).
Proof. unfold Diamond_uploadDescriptor. solve_effects. Qed.

Lemma effects_Split_download s : effects (rtc call_step) (Split_downloadDescriptor s : M S _).
Proof. unfold Split_downloadDescriptor. solve_effects. Qed.

Lemma effects_Split_upload s : effects (rtc call_step) (Split_uploadDescriptor s : M S _).
Proof. unfold Split_uploadDescriptor. solve_effects. Qed.

Lemma effects_pack_loop n outer input fin : forall fileList it count,
  effects (rtc call_step) (CoreIndex.pack_loop n outer input fin fileList it count : M S _).
Proof.
  assert (Hup : forall l it (k : CoreIndex.indexIterator -> M S (N * option error)) count,
    (forall it', effects (rtc call_step) (k it')) ->
    effects (rtc call_step) (let '(pth, it') := CoreIndex.index_Next outer it in
      p ← lift pth; r ← attempt (CoreIndex.uploadIndex l p);
      match r with inr err => mret (count, Some err) | inl _ => k it' end)).
  { intros l it k count Hk. destruct (CoreIndex.index_Next outer it) as [pth it']. unfold CoreIndex.uploadIndex.
    solve_effects; apply Hk. }
  induction input as [|[file now] input IH]; intros fl it count; cbn [CoreIndex.pack_loop].
  - destruct fin; [case_decide; [solve_effects|apply Hup; intros; solve_effects]..|solve_effects].
  - case_decide; [apply Hup; intros; apply IH|apply IH].
Qed.

Lemma effects_pack n it input fin : effects (rtc call_step) (CoreIndex.pack n it input fin : M S _).
Proof.
  unfold CoreIndex.pack. destruct (CoreIndex.pather_Next it) as [[[id it']|] outer]; [apply effects_pack_loop|solve_effects].
Qed.

Ltac solve_op :=
  repeat first
    [ apply effects_Diamond_download
    | apply effects_Diamond_upload
    | apply effects_Split_download
    | apply effects_Split_upload
    | apply effects_pack
    | progress solve_effects ].

Lemma effects_operation A (m : M (Stores S) A) : operation A m -> effects vcalls m.
Proof.
  destruct 1; unfold GetDiamond, DiamondExists, CreateDiamond, Cancel, implCommit_end, GetSplit, CreateSplit, diamondReady, GetDiamond;
    solve_op.
Qed.

(** C26: Under any interleaving of the reads and of the writes without overwriting
    of any number of clients, and whatever calls fail, a diamond and a split only
    progress: created once, terminated at most once, and the final descriptor
    never changes; and every operation on diamonds and splits makes no other
    calls on the versioned metadata store than reads and writes that do not
    overwrite. *)
Theorem lifecycle_progress :
  (forall A (m : M (Stores S) A) c r c', operation A m -> m c = (r, c') -> rtc call_step (VMetadata c) (VMetadata c')) /\
  (forall s s' repo id, rtc call_step s s' -> progress (diamond_phase repo id s) (diamond_phase repo id s')) /\
  (forall s s' repo d id, rtc call_step s s' -> progress (split_phase repo d id s) (split_phase repo d id s')).
Proof.
  split_and!.
  - intros A m c r c' Hop E. by eapply (effects_operation A m Hop).
  - intros s s' repo id Hc. by apply phase_progress, calls_mono.
  - intros s s' repo d id Hc. by apply phase_progress, calls_mono.
Qed.

End lifecycle.

(** ** The operations on a working store *)

Section download.
Context {S A X : Type} `{HS : !Store S, HSL : !StoreLaws S, HR : !ReliableStore S, HY : !Yaml A, HYL : !YamlLaws A}.
Variables (final initial : string) (k : A -> X).

(** The common shape of the two downloadDescriptor. *)

Definition final_first : M S X :=
  r ← attempt (readMetadata final);
  buffer ← match r with
           | inl buffer => mret buffer
           | inr err => if negb (Errors.Is err ErrNotExists) then fail err else readMetadata initial
           end;
  desc ← lift (Unmarshal buffer);
  mret (k desc).

Lemma final_first_final s a :
  document s final a -> exists s', final_first s = (Ok (k a), s') /\ objects s' = objects s.
Proof.
  intros (b & Hb & Hu). destruct (Get_ok _ _ _ Hb) as (s' & E & Ho). exists s'. split; [|done].
  unfold final_first, attempt, readMetadata, lift, mbind, M_bind. rewrite E. simpl. by rewrite Hu.
Qed.

Lemma final_first_initial s a :
  objects s !! final = None -> document s initial a ->
  exists s', final_first s = (Ok (k a), s') /\ objects s' = objects s.
Proof.
  intros Hn (b & Hb & Hu). destruct (Get_none _ _ Hn) as (e & s1 & E & He & Ho). rewrite <- Ho in Hb.
  destruct (Get_ok _ _ _ Hb) as (s' & E' & Ho'). exists s'. split; [|congruence].
  unfold final_first, attempt, readMetadata, lift, mbind, M_bind. rewrite E, He. simpl. by rewrite E', Hu.
Qed.

Lemma final_first_absent s :
  objects s !! final = None -> objects s !! initial = None ->
  exists e s', final_first s = (Err e, s') /\ Errors.Is e ErrNotExists = true /\ objects s' = objects s.
Proof.
  intros Hn Hi. destruct (Get_none _ _ Hn) as (e & s1 & E & He & Ho). rewrite <- Ho in Hi.
  destruct (Get_none _ _ Hi) as (e' & s' & E' & He' & Ho'). exists e', s'. split; [|split; [done|congruence]].
  unfold final_first, attempt, readMetadata, lift, mbind, M_bind. rewrite E, He. simpl. by rewrite E'.
Qed.

End download.

Section reliable.
Context {S : Type} `{HS : !Store S, HSL : !StoreLaws S, HR : !ReliableStore S}.
Context {HYD : Yaml DiamondDescriptor} {HYDL : YamlLaws DiamondDescriptor}.
Context {HYS : Yaml SplitDescriptor} {HYSL : YamlLaws SplitDescriptor}.

Definition repo_exists (repo : string) (c : Stores S) : Prop :=
  is_Some (objects (Metadata c) !! GetArchivePathToRepoDescriptor repo).

Definition final_diamond (repo id : string) (c : Stores S) (dd : DiamondDescriptor) : Prop :=
  document (VMetadata c) (GetArchivePathToFinalDiamond repo id) dd.

Definition initial_diamond (repo id : string) (c : Stores S) (dd : DiamondDescriptor) : Prop :=
  objects (VMetadata c) !! GetArchivePathToFinalDiamond repo id = None /\
  document (VMetadata c) (GetArchivePathToInitialDiamond repo id) dd.

Definition no_diamond (repo id : string) (c : Stores S) : Prop :=
  objects (VMetadata c) !! GetArchivePathToFinalDiamond repo id = None /\
  objects (VMetadata c) !! GetArchivePathToInitialDiamond repo id = None.

Lemma GetDiamond_descriptor w repo id :
  id <> "" -> let d := NewDiamond w repo [WithDiamondDescriptor (Some (NewDiamondDescriptor (random_ksuid w) (time_Now w) [DiamondID id]))] in
  d_RepoID d = repo /\ dd_DiamondID (d_DiamondDescriptor d) = id.
Proof. intros Hid. unfold NewDiamondDescriptor, DiamondID. simpl. rewrite decide_True by done. done. Qed.

(** GetDiamond reads the final descriptor if there is one, else the initial one. *)

Lemma GetDiamond_ok w repo id c dd :
  id <> "" -> repo_exists repo c -> final_diamond repo id c dd \/ initial_diamond repo id c dd ->
  exists c', GetDiamond w repo id [] c = (Ok dd, c') /\
    objects (VMetadata c') = objects (VMetadata c) /\ objects (Metadata c') = objects (Metadata c).
Proof.
  intros Hid Hrepo Hdoc. destruct (RepoExists_ok _ _ Hrepo) as (c1 & E1 & Hv1 & Hm1).
  unfold GetDiamond. destruct (GetDiamond_descriptor w repo id Hid) as [Hr Hi].
  set (d := NewDiamond _ _ _) in *. clearbody d.
  assert (exists s', (Diamond_downloadDescriptor d : M S _) (VMetadata c1) = (Ok (setDescriptor d dd), s') /\
    objects s' = objects (VMetadata c1)) as (s' & E & Ho).
  { rewrite Hv1. destruct Hdoc as [Hf|[Hn Hd]].
    - apply (final_first_final _ _ (setDescriptor d)). by rewrite Hr, Hi.
    - apply (final_first_initial _ _ (setDescriptor d)); by rewrite Hr, Hi. }
  exists (SetVMetadata s' c1). unfold mbind, M_bind. rewrite E1. unfold GetDiamondStore, getVMetaStore. rewrite E.
  split; [done|]. simpl. split; congruence.
Qed.

Lemma diamondReady_ok w repo id c dd :
  id <> "" -> repo_exists repo c -> initial_diamond repo id c dd -> dd_State dd = DiamondInitialized ->
  exists c', diamondReady w repo id c = (Ok tt, c') /\
    objects (VMetadata c') = objects (VMetadata c) /\ objects (Metadata c') = objects (Metadata c).
Proof.
  intros Hid Hrepo Hdoc Hst. destruct (GetDiamond_ok w repo id c dd) as (c' & E & H); [auto..|].
  exists c'. split; [|done]. unfold diamondReady, mbind, M_bind. by rewrite E, decide_True.
Qed.

Lemma diamondReady_terminated w repo id c dd :
  id <> "" -> repo_exists repo c -> final_diamond repo id c dd -> dd_State dd <> DiamondInitialized ->
  exists e c', diamondReady w repo id c = (Err e, c') /\ objects (VMetadata c') = objects (VMetadata c).
Proof.
  intros Hid Hrepo Hdoc Hst. destruct (GetDiamond_ok w repo id c dd) as (c' & E & Ho & _); [auto..|].
  unfold diamondReady, mbind, M_bind. rewrite E, decide_False by done. case_match; eauto.
Qed.

(** On a working store, CreateDiamond for an existing repository writes
    the initial descriptor of a new diamond, which GetDiamond then returns and
    which is ready for splits; when the diamond exists it fails and changes
    nothing. *)
Theorem CreateDiamond_correct w repo opts c :
  let d := NewDiamond w repo opts in let dd := d_DiamondDescriptor d in let id := dd_DiamondID dd in
  d_RepoID d = repo -> id <> "" -> dd_State dd = DiamondInitialized -> repo_exists repo c ->
  (no_diamond repo id c -> exists c', CreateDiamond w repo opts c = (Ok dd, c') /\
     (forall w', exists c2, GetDiamond w' repo id [] c' = (Ok dd, c2)) /\
     (forall w', exists c2, diamondReady w' repo id c' = (Ok tt, c2))) /\
  (is_Some (objects (VMetadata c) !! GetArchivePathToInitialDiamond repo id) ->
     (forall dd', (CreateDiamond w repo opts c).1 <> Ok dd') /\
     objects (VMetadata (CreateDiamond w repo opts c).2) = objects (VMetadata c)).
Proof.
  intros d dd id Hr Hid Hst Hrepo. destruct (RepoExists_ok _ _ Hrepo) as (c1 & E1 & Hv1 & Hm1).
  assert (GetArchivePathToDiamond (d_RepoID d) id (dd_State dd) = GetArchivePathToInitialDiamond repo id) as Hpath.
  { rewrite Hr, Hst. done. }
  assert (forall r s', write_document (GetArchivePathToInitialDiamond repo id) dd (VMetadata c) = (r, s') ->
    (CreateDiamond w repo opts c).2 = SetVMetadata s' c1 /\
    (r = Ok tt -> (CreateDiamond w repo opts c).1 = Ok dd) /\ (r <> Ok tt -> forall x, (CreateDiamond w repo opts c).1 <> Ok x)) as Hrun.
  { intros r s' E. assert (CreateDiamond w repo opts c =
      (match r with
       | Ok _ => Ok dd
       | Err e => Err (Errors.Wrap (Errors.New "cannot update diamond descriptor") (Some e))
       | Panic p => Panic p
       end, SetVMetadata s' c1)) as ->; [|destruct r as [[]|e|p]; done].
    unfold CreateDiamond. fold d dd. fold id. rewrite decide_False by done.
    unfold mbind, M_bind, wrap_error, GetDiamondStore, getVMetaStore. rewrite E1, Hv1.
    change (Diamond_uploadDescriptor d (VMetadata c)) with (write_document (GetArchivePathToDiamond (d_RepoID d) id (dd_State dd)) dd (VMetadata c)).
    rewrite Hpath, E. by destruct r as [[]|e|p]. }
  split.
  - intros [Hnf Hni]. destruct (write_document_ok (GetArchivePathToInitialDiamond repo id) dd (VMetadata c) Hni) as (s' & E & Hdoc & Hoth).
    destruct (Hrun _ _ E) as (H2 & H1 & _). exists (SetVMetadata s' c1).
    split; [by rewrite (surjective_pairing (CreateDiamond w repo opts c)), H2, H1|].
    assert (initial_diamond repo id (SetVMetadata s' c1) dd) as Hinit.
    { split; [|done]. simpl. rewrite Hoth, Hnf; [done|]. intros H.
      unfold GetArchivePathToFinalDiamond, GetArchivePathToInitialDiamond in H. repeat apply Strings.string_app_inv_head in H. done. }
    assert (repo_exists repo (SetVMetadata s' c1)) as Hrepo' by (unfold repo_exists; simpl; by rewrite Hm1).
    split; intros w'.
    + destruct (GetDiamond_ok w' repo id (SetVMetadata s' c1) dd) as (c2 & ? & _); eauto.
    + destruct (diamondReady_ok w' repo id (SetVMetadata s' c1) dd) as (c2 & ? & _); eauto.
  - intros Hex. destruct (write_document_exists _ dd _ Hex) as [Hne Ho].
    destruct (write_document _ dd (VMetadata c)) as [r s'] eqn:E. destruct (Hrun _ _ eq_refl) as (H2 & _ & H3).
    split; [by apply H3|]. by rewrite H2.
Qed.

Lemma diamond_final_path repo id state :
  state <> DiamondInitialized -> GetArchivePathToDiamond repo id state = GetArchivePathToFinalDiamond repo id.
Proof. intros H. unfold GetArchivePathToDiamond. by rewrite decide_False. Qed.

Definition terminated (dd : DiamondDescriptor) : Prop := dd_State dd = DiamondDone \/ dd_State dd = DiamondCanceled.

Lemma terminated_not_initialized dd : terminated dd -> dd_State dd <> DiamondInitialized.
Proof. by intros [-> | ->]. Qed.

(** A final descriptor that is there stays. *)

Lemma upload_refused d s :
  terminated (d_DiamondDescriptor d) -> is_Some (objects s !! GetArchivePathToFinalDiamond (d_RepoID d) (dd_DiamondID (d_DiamondDescriptor d))) ->
  ((Diamond_uploadDescriptor d : M S _) s).1 <> Ok tt /\ objects ((Diamond_uploadDescriptor d : M S _) s).2 = objects s.
Proof.
  intros Ht%terminated_not_initialized Hs. unfold Diamond_uploadDescriptor. rewrite diamond_final_path by done.
  exact (write_document_exists _ (d_DiamondDescriptor d) s Hs).
Qed.

Lemma Cancel_run now d c s' r :
  (Diamond_downloadDescriptor d : M S _) (VMetadata c) = (r, s') ->
  Cancel now d c =
  match r with
  | Ok d1 =>
      let state := dd_State (d_DiamondDescriptor d1) in
      if decide (state = DiamondCanceled \/ state = DiamondDone)
      then (Err (Errors.WrapMessage (Errors.New "diamond is already terminated") ("diamond state: " +:+ state)), SetVMetadata s' c)
      else (let d' := Diamond_WithState DiamondCanceled now d1 in
            _ ← GetDiamondStore (Diamond_uploadDescriptor d'); mret d') (SetVMetadata s' c)
  | Err e => (Err e, SetVMetadata s' c)
  | Panic p => (Panic p, SetVMetadata s' c)
  end.
Proof.
  intros E. unfold Cancel. unfold mbind at 1, M_bind at 1. unfold GetDiamondStore at 1, getVMetaStore. rewrite E.
  destruct r as [d1|e|p]; [|done..]. case_decide; done.
Qed.

(** Cancel of an initialized diamond writes its final descriptor, in the
    canceled state and with the time of the cancellation, and keeps every other
    field and object. *)
Theorem Cancel_correct now d dd c :
  let repo := d_RepoID d in let id := dd_DiamondID (d_DiamondDescriptor d) in
  initial_diamond repo id c dd -> dd_DiamondID dd = id -> dd_State dd = DiamondInitialized ->
  let canceled := mkDiamondDescriptor id (dd_StartTime dd) now DiamondCanceled (dd_Mode dd) (dd_HasConflicts dd)
    (dd_HasCheckpoints dd) (dd_Tag dd) (dd_BundleID dd) (dd_Splits dd) in
  exists c', Cancel now d c = (Ok (setDescriptor d canceled), c') /\ final_diamond repo id c' canceled /\
    forall p, p <> GetArchivePathToFinalDiamond repo id -> objects (VMetadata c') !! p = objects (VMetadata c) !! p.
Proof.
  intros repo id [Hn Hd] Hid Hst canceled.
  destruct (final_first_initial _ _ (setDescriptor d) (VMetadata c) dd Hn Hd) as (s1 & E & Ho).
  rewrite (Cancel_run now d c s1 _ E). cbn [d_DiamondDescriptor setDescriptor]. rewrite Hst, decide_False by (intros [?|?]; done).
  assert (Diamond_WithState DiamondCanceled now (setDescriptor d dd) = setDescriptor d canceled) as ->.
  { unfold Diamond_WithState. cbn [d_DiamondDescriptor setDescriptor]. rewrite decide_False by (rewrite Hst; done).
    rewrite decide_True by auto. unfold canceled. by rewrite Hid. }
  rewrite <- Ho in Hn. destruct (write_document_ok _ canceled s1 Hn) as (s2 & E2 & Hdoc & Hoth).
  exists (SetVMetadata s2 (SetVMetadata s1 c)). split_and!.
  - unfold mbind, M_bind, GetDiamondStore, getVMetaStore.
    change (Diamond_uploadDescriptor (setDescriptor d canceled) (VMetadata (SetVMetadata s1 c)))
      with (write_document (GetArchivePathToFinalDiamond repo id) canceled s1). by rewrite E2.
  - exact Hdoc.
  - intros p Hp. simpl. by rewrite Hoth, Ho.
Qed.

Lemma Cancel_terminated now d c dd :
  final_diamond (d_RepoID d) (dd_DiamondID (d_DiamondDescriptor d)) c dd -> terminated dd ->
  exists e c', Cancel now d c = (Err e, c') /\ objects (VMetadata c') = objects (VMetadata c).
Proof.
  intros Hf Ht. destruct (final_first_final _ (GetArchivePathToInitialDiamond (d_RepoID d) (dd_DiamondID (d_DiamondDescriptor d)))
    (setDescriptor d) (VMetadata c) dd Hf) as (s1 & E & Ho).
  rewrite (Cancel_run now d c s1 _ E). cbn [d_DiamondDescriptor setDescriptor]. rewrite decide_True; [eauto|]. destruct Ht; auto.
Qed.

(** A terminated diamond accepts nothing more: it is not ready, no split
    can be created for it and it cannot be canceled; all three leave the
    versioned metadata store as it is. *)
Theorem terminated_refuses w w' now repo id c dd opts d :
  id <> "" -> repo_exists repo c -> final_diamond repo id c dd -> terminated dd ->
  d_RepoID d = repo -> dd_DiamondID (d_DiamondDescriptor d) = id ->
  (exists e c', diamondReady w repo id c = (Err e, c') /\ objects (VMetadata c') = objects (VMetadata c)) /\
  (exists e c', CreateSplit w w' repo id opts c = (Err e, c') /\ objects (VMetadata c') = objects (VMetadata c)) /\
  (exists e c', Cancel now d c = (Err e, c') /\ objects (VMetadata c') = objects (VMetadata c)).
Proof.
  intros Hid Hrepo Hf Ht Hr Hi. pose proof (terminated_not_initialized _ Ht) as Hst. split_and!.
  - by eapply diamondReady_terminated.
  - destruct (RepoExists_ok _ _ Hrepo) as (c1 & E1 & Hv1 & Hm1).
    destruct (diamondReady_terminated w repo id c1 dd) as (e & c2 & E2 & Ho); [done| | |done|].
    { unfold repo_exists. by rewrite Hm1. }
    { unfold final_diamond. by rewrite Hv1. }
    do 2 eexists. unfold CreateSplit. rewrite decide_False by done.
    unfold mbind, M_bind, wrap_error. rewrite E1, E2. split; [done|]. congruence.
  - apply (Cancel_terminated now d c dd); [by rewrite Hr, Hi|done].
Qed.

(** C27: A diamond is terminated once. When the upload of its final descriptor, as
    done or as canceled, has succeeded, then, after whatever reads and writes
    without overwriting of other clients on the versioned metadata store, this
    descriptor is in place, and every other way to terminate the diamond fails
    and changes no object of that store: the upload of a final descriptor,
    Cancel, and the end of a commit, whose bundle may be there already. *)
Theorem terminal_once d1 s s1 c :
  let repo := d_RepoID d1 in let id := dd_DiamondID (d_DiamondDescriptor d1) in
  terminated (d_DiamondDescriptor d1) -> (Diamond_uploadDescriptor d1 : M S _) s = (Ok tt, s1) -> rtc call_step s1 (VMetadata c) ->
  final_diamond repo id c (d_DiamondDescriptor d1) /\
  forall d2, d_RepoID d2 = repo -> dd_DiamondID (d_DiamondDescriptor d2) = id ->
    (terminated (d_DiamondDescriptor d2) -> ((Diamond_uploadDescriptor d2 : M S _) (VMetadata c)).1 <> Ok tt /\
       objects ((Diamond_uploadDescriptor d2 : M S _) (VMetadata c)).2 = objects (VMetadata c)) /\
    (forall now, exists e c', Cancel now d2 c = (Err e, c') /\ objects (VMetadata c') = objects (VMetadata c)) /\
    (forall now err, (forall d', (implCommit_end now err d2 c).1 <> Ok d') /\ objects (VMetadata (implCommit_end now err d2 c).2) = objects (VMetadata c)).
Proof.
  intros repo id Ht E Hc. pose proof (terminated_not_initialized _ Ht) as Hst.
  assert (Hf : final_diamond repo id c (d_DiamondDescriptor d1)).
  { unfold Diamond_uploadDescriptor in E. rewrite diamond_final_path in E by done.
    apply (write_document_Ok _ (d_DiamondDescriptor d1)) in E as (_ & (b & Hb & Hu) & _). exists b. split; [|done]. exact (lookup_weaken _ _ _ _ Hb (calls_mono _ _ Hc)). }
  split; [done|]. intros d2 Hr Hi. rewrite <- Hr, <- Hi in Hf.
  assert (Hs : is_Some (objects (VMetadata c) !! GetArchivePathToFinalDiamond (d_RepoID d2) (dd_DiamondID (d_DiamondDescriptor d2)))) by (destruct Hf as (b & Hb & _); by eexists).
  split_and!.
  - intros Ht2. by apply upload_refused.
  - intros now. by eapply Cancel_terminated.
  - intros now [e|]; [done|]. unfold implCommit_end, GetDiamondStore, getVMetaStore, mbind, M_bind. set (d' := Diamond_WithState DiamondDone now d2).
    assert (terminated (d_DiamondDescriptor d') /\ d_RepoID d' = d_RepoID d2 /\ dd_DiamondID (d_DiamondDescriptor d') = dd_DiamondID (d_DiamondDescriptor d2)) as (Ht' & Hr' & Hi').
    { unfold d', Diamond_WithState. case_decide as Hd; [split; [by left|done]|]. split; [by left|done]. }
    rewrite <- Hr', <- Hi' in Hs. destruct (upload_refused d' (VMetadata c) Ht' Hs) as [Hne Ho].
    destruct (Diamond_uploadDescriptor d' (VMetadata c)) as [[[]|e|m] s']; done.
Qed.

(** Up to the download of the split descriptor, for a diamond that is ready. *)

Lemma CreateSplit_run w w' repo d dd opts c :
  d <> "" -> repo_exists repo c -> initial_diamond repo d c dd -> dd_State dd = DiamondInitialized ->
  let s := NewSplit w repo d opts in
  exists c1, objects (VMetadata c1) = objects (VMetadata c) /\
  forall r s', (Split_downloadDescriptor s : M S _) (VMetadata c1) = (r, s') ->
  CreateSplit w w' repo d opts c =
  match r with
  | Ok s1 =>
      let sd := s_SplitDescriptor s1 in
      (if decide (sd_State sd = SplitDone)
       then Err (Errors.WrapMessage ErrSplitAlreadyDone ("diamond ID: " +:+ d +:+ ", split ID " +:+ sd_SplitID sd +:+
                   ", split state: " +:+ sd_State sd))
       else Ok sd, SetVMetadata s' c1)
  | Err err =>
      if negb (Errors.Is err StorageStatus.ErrNotExists) && negb (Errors.Is err StorageStatus.ErrNotFound)
      then (Err err, SetVMetadata s' c1)
      else if s_mustExist s
      then (Err (Errors.WrapMessage ErrSplitMustExist ("diamond ID: " +:+ d +:+ ", split ID: " +:+ sd_SplitID (s_SplitDescriptor s))),
            SetVMetadata s' c1)
      else (s3 ← wrap_error ErrSplitUpdate (GetSplitStore (Split_uploadDescriptor (NewSplit w' repo d opts)));
            mret (s_SplitDescriptor s3)) (SetVMetadata s' c1)
  | Panic p => (Panic p, SetVMetadata s' c1)
  end.
Proof.
  intros Hd Hrepo Hi Hst s. destruct (RepoExists_ok _ _ Hrepo) as (c0 & E0 & Hv0 & Hm0).
  destruct (diamondReady_ok w repo d c0 dd) as (c1 & E1 & Hv1 & _); [done| | |done|].
  { unfold repo_exists. by rewrite Hm0. }
  { unfold initial_diamond. by rewrite Hv0. }
  exists c1. split; [congruence|]. intros r s' E. unfold CreateSplit. rewrite decide_False by done. fold s.
  unfold mbind at 1, M_bind at 1. unfold wrap_error at 1. rewrite E0.
  unfold mbind at 1, M_bind at 1. unfold wrap_error at 1. rewrite E1.
  unfold mbind at 1, M_bind at 1. unfold attempt, GetSplitStore at 1, getVMetaStore. rewrite E.
  destruct r as [s1|e|p]; [|repeat case_match; done|done]. simpl. case_decide; done.
Qed.

Definition split_initial_path (repo d : string) (s : Split) : string :=
  GetArchivePathToInitialSplit repo d (sd_SplitID (s_SplitDescriptor s)).

Definition split_final_path (repo d : string) (s : Split) : string :=
  GetArchivePathToFinalSplit repo d (sd_SplitID (s_SplitDescriptor s)).

(** CreateSplit for a ready diamond, in every case: a split that is done
    is refused; a split that is running is returned as it is, to be restarted;
    a split that does not exist is refused when it must exist, and otherwise
    created with its initial descriptor. Only the last case writes. *)
Theorem CreateSplit_correct w w' repo d dd opts c :
  d <> "" -> repo_exists repo c -> initial_diamond repo d c dd -> dd_State dd = DiamondInitialized ->
  let s := NewSplit w repo d opts in let s2 := synced (NewSplit w' repo d opts) in
  s_RepoID s = repo -> s_DiamondID s = d -> s_RepoID s2 = repo -> s_DiamondID s2 = d ->
  s_SplitDescriptor s2 = s_SplitDescriptor s -> sd_State (s_SplitDescriptor s) = SplitRunning ->
  let initial := split_initial_path repo d s in let final := split_final_path repo d s in
  (forall sd, document (VMetadata c) final sd -> sd_State sd = SplitDone ->
     exists e c', CreateSplit w w' repo d opts c = (Err e, c') /\ Errors.Is e ErrSplitAlreadyDone = true /\
       objects (VMetadata c') = objects (VMetadata c)) /\
  (forall sd, objects (VMetadata c) !! final = None -> document (VMetadata c) initial sd -> sd_State sd = SplitRunning ->
     exists c', CreateSplit w w' repo d opts c = (Ok sd, c') /\ objects (VMetadata c') = objects (VMetadata c)) /\
  (objects (VMetadata c) !! final = None -> objects (VMetadata c) !! initial = None -> s_mustExist s = true ->
     exists e c', CreateSplit w w' repo d opts c = (Err e, c') /\ Errors.Is e ErrSplitMustExist = true /\
       objects (VMetadata c') = objects (VMetadata c)) /\
  (objects (VMetadata c) !! final = None -> objects (VMetadata c) !! initial = None -> s_mustExist s = false ->
     exists c', CreateSplit w w' repo d opts c = (Ok (s_SplitDescriptor s), c') /\
       document (VMetadata c') initial (s_SplitDescriptor s) /\
       forall p, p <> initial -> objects (VMetadata c') !! p = objects (VMetadata c) !! p).
Proof.
  intros Hd Hrepo Hi Hst s s2 Hr Hs Hr2 Hs2 Hsame Hrun initial final.
  destruct (CreateSplit_run w w' repo d dd opts c Hd Hrepo Hi Hst) as (c1 & Ho1 & Hcs). fold s in Hcs.
  change (Split_downloadDescriptor s) with (final_first (S := S) (GetArchivePathToFinalSplit (s_RepoID s) (s_DiamondID s) (sd_SplitID (s_SplitDescriptor s)))
    (GetArchivePathToInitialSplit (s_RepoID s) (s_DiamondID s) (sd_SplitID (s_SplitDescriptor s))) (setSplitDescriptor s)) in Hcs.
  rewrite Hr, Hs in Hcs. fold (split_initial_path repo d s) (split_final_path repo d s) in Hcs. fold initial final in Hcs.
  rewrite <- Ho1. split_and!.
  - intros sd Hdoc Hdone. apply (document_objects _ _ _ (VMetadata c1)) in Hdoc; [|by rewrite Ho1].
    destruct (final_first_final _ initial (setSplitDescriptor s) _ _ Hdoc) as (s' & E & Ho).
    rewrite (Hcs _ _ E). cbn [s_SplitDescriptor setSplitDescriptor]. rewrite decide_True by done.
    do 2 eexists. split; [done|]. split; [apply Errors.Is_wrap_outer|done].
  - intros sd Hnf Hdoc Hrs. apply (document_objects _ _ _ (VMetadata c1)) in Hdoc; [|by rewrite Ho1].
    destruct (final_first_initial _ _ (setSplitDescriptor s) _ _ Hnf Hdoc) as (s' & E & Ho).
    rewrite (Hcs _ _ E). cbn [s_SplitDescriptor setSplitDescriptor]. rewrite decide_False by (rewrite Hrs; done). eauto.
  - intros Hnf Hni Hm. destruct (final_first_absent _ _ (setSplitDescriptor s) _ Hnf Hni) as (e & s' & E & He & Ho).
    rewrite (Hcs _ _ E), He, Hm. cbn [negb andb]. do 2 eexists. split; [done|]. split; [apply Errors.Is_wrap_outer|done].
  - intros Hnf Hni Hm. destruct (final_first_absent _ _ (setSplitDescriptor s) _ Hnf Hni) as (e & s' & E & He & Ho).
    rewrite (Hcs _ _ E), He, Hm. cbn [negb andb]. rewrite <- Ho in Hni.
    destruct (write_document_ok initial (s_SplitDescriptor s) s' Hni) as (s3 & E3 & Hdoc & Hoth).
    exists (SetVMetadata s3 (SetVMetadata s' c1)). split_and!.
    + unfold mbind, M_bind, wrap_error, GetSplitStore, getVMetaStore. cbn [VMetadata SetVMetadata].
      assert ((Split_uploadDescriptor (NewSplit w' repo d opts) : M S _) s' = (Ok s2, s3)) as ->; [|by rewrite <- Hsame].
      unfold Split_uploadDescriptor. fold s2. rewrite Hsame, Hr2, Hs2, Hrun.
      unfold write_document in E3. unfold mbind, M_bind in E3 |- *. destruct (lift (Marshal (s_SplitDescriptor s)) s') as [[b|?|?] s0]; [|done..].
      change (GetArchivePathToSplit repo d (sd_SplitID (s_SplitDescriptor s)) SplitRunning) with initial. by rewrite E3.
    + exact Hdoc.
    + intros p Hp. simpl. by rewrite Hoth, Ho.
Qed.

End reliable.

(** ** A concrete diamond *)

Section witness.

#[local] Existing Instance numbered_yaml.

#[local] Existing Instance numbered_yaml_laws.

Abbreviation mem := (gmap string bytes).

Definition w0 : draw := mkDraw "id1" 10%Z.

Definition dd0 : DiamondDescriptor := defaultDiamondDescriptor "id1" 10%Z.

Definition sd0 : SplitDescriptor := defaultSplitDescriptor "split1" 10%Z.

Definition with_repo (v : mem) : Stores mem :=
  NewStores ∅ ∅ ∅ {[ GetArchivePathToRepoDescriptor "r" := [] ]} v.

Definition with_initial : Stores mem :=
  with_repo {[ GetArchivePathToInitialDiamond "r" "id1" := put_positive (encode dd0) ]}.

Definition canceled0 : DiamondDescriptor := mkDiamondDescriptor "id1" 10%Z 11%Z DiamondCanceled EnableConflicts false false "" "" [].

Definition with_final : Stores mem :=
  with_repo {[ GetArchivePathToFinalDiamond "r" "id1" := put_positive (encode canceled0) ]}.

Definition d0 : Diamond := NewDiamond w0 "r" [].

Lemma with_initial_diamond : initial_diamond "r" "id1" with_initial dd0.
Proof.
  split; [reflexivity|]. exists (put_positive (encode dd0)). split; [apply lookup_insert_eq|by apply Unmarshal_Marshal].
Qed.

Lemma repo_exists_r v : repo_exists "r" (with_repo v).
Proof. exists []. apply lookup_insert_eq. Qed.

Lemma CreateDiamond_correct_witness :
  exists c', CreateDiamond w0 "r" [] (with_repo ∅) = (Ok dd0, c') /\
    exists c2, GetDiamond w0 "r" "id1" [] c' = (Ok dd0, c2).
Proof.
  destruct (CreateDiamond_correct (S := mem) w0 "r" [] (with_repo ∅) eq_refl ltac:(done) eq_refl (repo_exists_r ∅)) as [H _].
  destruct H as (c' & E & Hg & _); [split; reflexivity|]. exists c'. split; [exact E|exact (Hg w0)].
Defined.

Lemma terminal_once_witness :
  exists s1 e c', (Diamond_uploadDescriptor (setDescriptor d0 canceled0) : M mem _) ∅ = (Ok tt, s1) /\
    ((Diamond_uploadDescriptor (Diamond_WithState DiamondDone 12%Z d0) : M mem _) s1).1 <> Ok tt /\
    Cancel 12%Z d0 (with_repo s1) = (Err e, c').
Proof.
  eexists. destruct (terminal_once (S := mem) (setDescriptor d0 canceled0) ∅ _ (with_repo _) ltac:(right; reflexivity) eq_refl (rtc_refl _ _)) as [_ H].
  destruct (H (Diamond_WithState DiamondDone 12%Z d0) eq_refl eq_refl) as [H1 _]. destruct (H d0 eq_refl eq_refl) as (_ & H2 & _). destruct (H2 12%Z) as (e & c' & E & _).
  exists e, c'. split; [reflexivity|]. split; [apply H1; left; reflexivity|exact E].
Defined.

Lemma Cancel_correct_witness :
  exists c', Cancel 11%Z d0 with_initial = (Ok (setDescriptor d0 canceled0), c') /\ final_diamond "r" "id1" c' canceled0.
Proof.
  destruct (Cancel_correct (S := mem) 11%Z d0 dd0 with_initial with_initial_diamond eq_refl eq_refl) as (c' & E & Hf & _).
  exists c'. split; [exact E|exact Hf].
Defined.

Lemma terminated_refuses_witness :
  exists e c', CreateSplit w0 w0 "r" "id1" [] with_final = (Err e, c') /\ objects (VMetadata c') = objects (VMetadata with_final).
Proof.
  refine (proj1 (proj2 (terminated_refuses (S := mem) w0 w0 11%Z "r" "id1" with_final canceled0 [] d0 _ (repo_exists_r _) _ _ eq_refl eq_refl)));
    [done| |right; reflexivity].
  exists (put_positive (encode canceled0)). split; [apply lookup_insert_eq|by apply Unmarshal_Marshal].
Defined.

Lemma CreateSplit_correct_witness :
  exists c', CreateSplit w0 (mkDraw "other" 20%Z) "r" "id1" [WithSplitDescriptor (Some sd0)] with_initial = (Ok sd0, c') /\
    document (VMetadata c') (GetArchivePathToInitialSplit "r" "id1" "split1") sd0.
Proof.
  destruct (CreateSplit_correct (S := mem) w0 (mkDraw "other" 20%Z) "r" "id1" dd0 [WithSplitDescriptor (Some sd0)] with_initial)
    as (_ & _ & _ & H); [done|apply repo_exists_r|apply with_initial_diamond|reflexivity..|].
  destruct H as (c' & E & Hd & _); [reflexivity..|]. exists c'. split; [exact E|exact Hd].
Defined.

End witness.

End CoreDiamond.
