(* ===== verification/CoreListDiamonds.v ===== *)
(** * Listings of diamonds and splits (pkg/core: diamond_list.go, split_list.go)

    The keys of the descriptors of a diamond or split are merged to one before
    the object is read: the final descriptor hides the initial one. *)

From S2P Require Import Prelude GoLib Errors Storage Model ModelPaths CoreMeta CoreIndex StoreRules CoreKeys CoreRepo CoreListing CoreList CoreDiamond.

Module CoreListDiamonds.
Import Model Storage CoreMeta CoreStatus StoreRules CoreKeys CoreRepo CoreListing CoreList CoreDiamond.

Section listings.
Context {S : Type} `{HS : !Store S} {GS : GoSort}.
Context {HYD : Yaml DiamondDescriptor} {HYS : Yaml SplitDescriptor}.
Variable ksuid_valid : string -> bool.

(** [fuel] bounds the number of pages of keys; [NumCPU] is runtime.NumCPU(). *)

Variables (fuel : nat) (NumCPU : Z).

(** ** Diamonds *)

Definition readDiamond (repo k : string) : M S DiamondDescriptor :=
  apc ← lift (GetArchivePathComponents ksuid_valid k);
  let src := if apc_IsFinalState apc then GetArchivePathToFinalDiamond repo (apc_DiamondID apc)
             else GetArchivePathToInitialDiamond repo (apc_DiamondID apc) in
  o ← Get src;
  sd ← lift (Unmarshal o);
  if decide (dd_DiamondID sd <> apc_DiamondID apc)
  then fail (ErrMsg ("diamond IDs in descriptor '" +:+ dd_DiamondID sd +:+ "' and archive path '" +:+ apc_DiamondID apc +:+ "' don't match"))
  else mret sd.

Definition getDiamondAsync (repo k : string) : M S (option DiamondDescriptor) := drop_missing (readDiamond repo k).

Definition fetchDiamondBatch (repo : string) (settings : Settings) (sch : schedule) (keys : list string)
    : M S (list DiamondDescriptor) :=
  fetch_batch (getDiamondAsync repo) DiamondDescriptors_Less settings sch keys.

Definition fetchDiamonds (repo : string) (settings : Settings) (sch : schedule) (keysChan : list keyBatchEvent)
    : M S (list (batchEvent DiamondDescriptor)) :=
  fetch_all (getDiamondAsync repo) DiamondDescriptors_Less settings sch (fetch_stop sch) keysChan.

Definition listDiamondsChan (repo : string) (sch : schedule) (opts : list Option)
    : M (Stores S) (list (batchEvent DiamondDescriptor)) :=
  let settings := settings_of NumCPU opts in
  after_check (RepoExists repo)
    (let sch := watchForInterrupts settings sch in
     let iterator next := basenameKeyFilter "diamond-"
       (KeysPrefix next (GetArchivePathPrefixToDiamonds repo) "" (Z.to_nat (batchSize settings))) in
     unfilteredKeysChan ← GetDiamondStore (fetchKeys fuel iterator (keys_stop sch) "");
     let keysChan := mergeKeys ksuid_valid ∅ unfilteredKeysChan in
     GetDiamondStore (fetchDiamonds repo settings sch keysChan)).

Definition doSelectDiamonds (diamondsChan : list (batchEvent DiamondDescriptor)) : list DiamondDescriptor * option error :=
  doSelect diamondsChan.

Definition ListDiamonds (repo : string) (sch : schedule) (opts : list Option)
    : M (Stores S) (list DiamondDescriptor * option error) :=
  diamondsChan ← listDiamondsChan repo sch opts;
  mret (doSelectDiamonds diamondsChan).

Definition ListDiamondsApply {V} (repo : string) (sch : schedule) (i : interruption)
    (apply_ : DiamondDescriptor -> M (Stores S * V) unit) (opts : list Option) : M (Stores S * V) unit :=
  list_apply (listDiamondsChan repo sch (opts ++ [WithDoneChan true])) i apply_.

(** ** Splits *)

Definition readSplit (repo k : string) : M S SplitDescriptor :=
  apc ← lift (GetArchivePathComponents ksuid_valid k);
  let src := if apc_IsFinalState apc then GetArchivePathToFinalSplit repo (apc_DiamondID apc) (apc_SplitID apc)
             else GetArchivePathToInitialSplit repo (apc_DiamondID apc) (apc_SplitID apc) in
  o ← Get src;
  sd ← lift (Unmarshal o);
  if decide (sd_SplitID sd <> apc_SplitID apc)
  then fail (ErrMsg ("split IDs in descriptor '" +:+ sd_SplitID sd +:+ "' and archive path '" +:+ apc_SplitID apc +:+ "' don't match"))
  else mret sd.

Definition getSplitAsync (repo k : string) : M S (option SplitDescriptor) := drop_missing (readSplit repo k).

Definition fetchSplitBatch (repo : string) (settings : Settings) (sch : schedule) (keys : list string)
    : M S (list SplitDescriptor) :=
  fetch_batch (getSplitAsync repo) SplitDescriptors_Less settings sch keys.

Definition fetchSplits (repo : string) (settings : Settings) (sch : schedule) (keysChan : list keyBatchEvent)
    : M S (list (batchEvent SplitDescriptor)) :=
  fetch_all (getSplitAsync repo) SplitDescriptors_Less settings sch (fetch_stop sch) keysChan.

Definition listSplitsChan (repo diamondID : string) (sch : schedule) (opts : list Option)
    : M (Stores S) (list (batchEvent SplitDescriptor)) :=
  let settings := settings_of NumCPU opts in
  after_check (_ ← RepoExists repo; DiamondExists repo diamondID)
    (let sch := watchForInterrupts settings sch in
     let iterator next := basenameKeyFilter "split-"
       (KeysPrefix next (GetArchivePathPrefixToSplits repo diamondID) "" (Z.to_nat (batchSize settings))) in
     unfilteredKeysChan ← GetSplitStore (fetchKeys fuel iterator (keys_stop sch) "");
     let keysChan := mergeKeys ksuid_valid ∅ unfilteredKeysChan in
     GetSplitStore (fetchSplits repo settings sch keysChan)).

Definition doSelectSplits (splitsChan : list (batchEvent SplitDescriptor)) : list SplitDescriptor * option error :=
  doSelect splitsChan.

Definition ListSplits (repo diamondID : string) (sch : schedule) (opts : list Option)
    : M (Stores S) (list SplitDescriptor * option error) :=
  splitsChan ← listSplitsChan repo diamondID sch opts;
  mret (doSelectSplits splitsChan).

Definition ListSplitsApply {V} (repo diamondID : string) (sch : schedule) (i : interruption)
    (apply_ : SplitDescriptor -> M (Stores S * V) unit) (opts : list Option) : M (Stores S * V) unit :=
  list_apply (listSplitsChan repo diamondID sch (opts ++ [WithDoneChan true])) i apply_.

End listings.

(** ** The keys of the objects below a prefix

    An object has a directory below the prefix with up to two descriptors. The
    keys of the descriptors are listed object by object, the final one first. *)

Section area.
Variables (prefix base final_file initial_file : string) (objs : gmap string bytes) (named : string -> Prop).

Definition done_key (id : string) : string := directory prefix id +:+ final_file.

Definition running_key (id : string) : string := directory prefix id +:+ initial_file.

Hypothesis named_no_slash : forall id, named id -> Strings.no_slash id.
Hypothesis files_le : String.le final_file initial_file.
Hypothesis files_ne : final_file <> initial_file.

(** The keys that the filter on the base name keeps. *)

Definition is_descriptor (k : string) : Prop := Strings.HasPrefix (Path.Base k) base = true.

#[local] Instance is_descriptor_dec k : Decision (is_descriptor k).
Proof. unfold is_descriptor. apply _. Defined.

Hypothesis area : forall k, is_Some (objs !! k) -> Strings.HasPrefix k prefix = true -> is_descriptor k ->
  exists id, named id /\ (k = done_key id \/ k = running_key id).
Hypothesis descriptor_done : forall id, named id -> is_descriptor (done_key id).
Hypothesis descriptor_running : forall id, named id -> is_descriptor (running_key id).

Definition object_of (id : string) : object :=
  mkObject id (bool_decide (is_Some (objs !! done_key id))) (bool_decide (is_Some (objs !! running_key id))).

Definition directory_le (a b : string) : Prop := String.le (a +:+ "/") (b +:+ "/").

#[local] Instance directory_le_dec : RelDecision directory_le.
Proof. intros a b. unfold directory_le. apply _. Defined.

#[local] Instance directory_le_trans : Transitive directory_le.
Proof. intros a b c. unfold directory_le. apply transitivity. Qed.

#[local] Instance directory_le_total : Total directory_le.
Proof. intros a b. unfold directory_le. apply total. apply _. Qed.

(** Distinct directories order all their files. *)

Lemma directory_le_files a b x y :
  Strings.no_slash a -> Strings.no_slash b -> a <> b -> directory_le a b -> String.le (a +:+ "/" +:+ x) (b +:+ "/" +:+ y).
Proof.
  unfold Strings.no_slash, directory_le, String.le, String.leb. revert b.
  induction a as [|c a IH]; intros [|d b] Ha Hb Hne H; simpl in Ha, Hb; try done.
  - apply orb_false_iff in Hb as [Hd _]. rewrite bool_decide_eq_false in Hd.
    rewrite !Strings.append_nil, !Strings.append_cons in *. cbn [String.compare] in *. destruct (Ascii.compare "/" d) eqn:E; try done. by apply Ascii.compare_eq_iff in E.
  - apply orb_false_iff in Ha as [Hc _]. rewrite bool_decide_eq_false in Hc.
    rewrite !Strings.append_nil, !Strings.append_cons in *. cbn [String.compare] in *. destruct (Ascii.compare c "/") eqn:E; try done. by apply Ascii.compare_eq_iff in E.
  - apply orb_false_iff in Ha as [Hc Ha]. apply orb_false_iff in Hb as [Hd Hb].
    rewrite (Strings.append_cons c a), (Strings.append_cons d b) in *. cbn [String.compare] in *.
    destruct (Ascii.compare c d) eqn:E; try done.
    apply Ascii.compare_eq_iff in E as ->. apply IH; try done. congruence.
Qed.

Lemma keys_of_elem k id :
  k ∈ keys_of done_key running_key (object_of id) <-> is_Some (objs !! k) /\ (k = done_key id \/ k = running_key id).
Proof.
  unfold keys_of, object_of. cbn [o_done o_running o_id]. rewrite elem_of_app.
  do 2 case_bool_decide; rewrite ?list_elem_of_singleton, ?elem_of_nil; naive_solver.
Qed.

Lemma keys_of_file k id : k ∈ keys_of done_key running_key (object_of id) -> exists file, k = directory prefix id +:+ file.
Proof. intros [_ [-> | ->]]%keys_of_elem; unfold done_key, running_key; eauto. Qed.

Lemma keys_of_sorted id : StronglySorted String.le (keys_of done_key running_key (object_of id)).
Proof.
  unfold keys_of. destruct (o_done _), (o_running _); cbn [app]; repeat constructor.
  unfold done_key, running_key. by apply le_app_head.
Qed.

Lemma keys_sorted ids :
  Forall named ids -> NoDup ids -> StronglySorted directory_le ids ->
  StronglySorted String.le (mbind (keys_of done_key running_key) (object_of <$> ids)).
Proof.
  induction ids as [|id ids IH]; intros Hn Hnd Hs; [constructor|]. rewrite fmap_cons, bind_cons.
  apply Forall_cons in Hn as [Hid Hn]. apply NoDup_cons in Hnd as [Hni Hnd]. apply StronglySorted_cons in Hs as [Hle Hs].
  apply StronglySorted_app. split_and!; [|apply keys_of_sorted|by apply IH].
  intros k k' (file & ->)%keys_of_file (o & Hk' & (id' & -> & Hin)%list_elem_of_fmap)%list_elem_of_bind.
  apply keys_of_file in Hk' as [file' ->]. unfold directory. rewrite !Strings.string_app_assoc. apply le_app_head.
  rewrite Forall_forall in Hn, Hle. apply directory_le_files; auto. by intros ->.
Qed.

Lemma keys_NoDup ids :
  Forall named ids -> NoDup ids -> NoDup (mbind (keys_of done_key running_key) (object_of <$> ids)).
Proof.
  induction ids as [|id ids IH]; intros Hn Hnd; [constructor|]. rewrite fmap_cons, bind_cons.
  apply Forall_cons in Hn as [Hid Hn]. apply NoDup_cons in Hnd as [Hni Hnd]. apply NoDup_app. split_and!; [| |by apply IH].
  - unfold keys_of. assert (done_key id <> running_key id).
    { unfold done_key, running_key. intros H%Strings.string_app_inv_head. done. }
    destruct (o_done _), (o_running _); cbn [app object_of o_id]; repeat (apply NoDup_cons; split); set_solver by eauto using NoDup_nil_2.
  - intros k (file & ->)%keys_of_file (o & Hk' & (id' & -> & Hin)%list_elem_of_fmap)%list_elem_of_bind.
    apply keys_of_file in Hk' as [file' E]. rewrite Forall_forall in Hn. apply directory_inj in E; [by subst|auto..].
Qed.

(** The listing is the keys of the objects that have one. *)

Lemma area_listing :
  exists ids, NoDup ids /\ Forall named ids /\
    filter is_descriptor (listing objs prefix "") = mbind (keys_of done_key running_key) (object_of <$> ids) /\
    forall id, named id -> id ∈ ids <-> is_Some (objs !! done_key id) \/ is_Some (objs !! running_key id).
Proof.
  set (l := filter is_descriptor (listing objs prefix "")).
  assert (Hl : forall k, k ∈ l <-> is_Some (objs !! k) /\ exists id, named id /\ (k = done_key id \/ k = running_key id)).
  { intros k. unfold l. rewrite list_elem_of_filter, listing_elem. split.
    - intros (Hd & k' & Hs & Hp & E). assert (k = k') as -> by exact E. split; [done|]. by apply area.
    - intros (Hs & id & Hid & Hk). assert (Strings.HasPrefix k prefix = true /\ is_descriptor k) as [Hp Hd].
      { destruct Hk as [-> | ->]; (split; [|by auto]); unfold done_key, running_key, directory;
          rewrite !Strings.string_app_assoc; apply Strings.HasPrefix_app. }
      split; [done|]. exists k. done. }
  destruct (fmap_of_Forall (fun p : string * bool => if p.2 then done_key p.1 else running_key p.1) (fun p => named p.1) l)
    as (ps & Hps & Hnamed).
  { apply Forall_forall. intros k (_ & id & Hid & [-> | ->])%Hl; [by exists (id, true)|by exists (id, false)]. }
  set (ids := merge_sort directory_le (elements (list_to_set (C := gset string) ps.*1))).
  assert (Hids : forall id, id ∈ ids <-> id ∈ ps.*1).
  { intros id. unfold ids. by rewrite merge_sort_Permutation, elem_of_elements, elem_of_list_to_set. }
  assert (Hn : Forall named ids).
  { apply Forall_forall. intros id (p & -> & Hp)%Hids%list_elem_of_fmap. rewrite Forall_forall in Hnamed. by apply Hnamed. }
  assert (Hnd : NoDup ids). { unfold ids. rewrite merge_sort_Permutation. apply NoDup_elements. }
  assert (Hin : forall id, named id -> id ∈ ids <-> is_Some (objs !! done_key id) \/ is_Some (objs !! running_key id)).
  { intros id Hid. rewrite Hids. split.
    - intros (p & -> & Hp)%list_elem_of_fmap. assert ((if p.2 then done_key p.1 else running_key p.1) ∈ l) as [Hs _]%Hl.
      { rewrite Hps. apply list_elem_of_fmap. eauto. }
      destruct p.2; auto.
    - intros Hs. assert (exists k, k ∈ l /\ (k = done_key id \/ k = running_key id)) as (k & Hk & Hkey).
      { destruct Hs as [Hs|Hs]; eexists; (split; [apply Hl; split; [exact Hs|]|]); eauto. }
      rewrite Hps in Hk. apply list_elem_of_fmap in Hk as (p & -> & Hp). apply list_elem_of_fmap. exists p. split; [|done].
      rewrite Forall_forall in Hnamed. specialize (Hnamed p Hp).
      destruct Hkey as [E|E], p.2; unfold done_key, running_key in E; apply directory_inj in E; auto. }
  exists ids. split_and!; [done..| |done].
  apply (StronglySorted_unique String.le).
  - unfold l. apply StronglySorted_filter, listing_sorted.
  - apply keys_sorted; [done..|]. apply StronglySorted_merge_sort; apply _.
  - apply NoDup_Permutation; [apply NoDup_filter, listing_NoDup|by apply keys_NoDup|].
    intros k. rewrite Hl, list_elem_of_bind. split.
    + intros (Hs & id & Hid & Hk). exists (object_of id). rewrite keys_of_elem. split; [done|]. apply list_elem_of_fmap.
      exists id. split; [done|]. apply Hin; [done|]. destruct Hk as [-> | ->]; auto.
    + intros (o & Hk & (id & -> & Hid)%list_elem_of_fmap). apply keys_of_elem in Hk as [Hs Hk]. split; [done|].
      rewrite Forall_forall in Hn. eauto.
Qed.

(** The key under which an object is read, once the keys are merged. *)

Definition shown_key (id : string) : string :=
  if bool_decide (is_Some (objs !! done_key id)) then done_key id else running_key id.

Lemma listed_keys ids :
  mbind (listed_key done_key running_key) (object_of <$> ids) =
    shown_key <$> filter (fun id => is_Some (objs !! running_key id)) ids.
Proof.
  induction ids as [|id ids IH]; [done|]. rewrite fmap_cons, bind_cons, IH, filter_cons.
  unfold listed_key, shown_key, object_of. cbn [o_id o_done o_running]. case_decide as Hr.
  - by rewrite (bool_decide_true _ Hr).
  - by rewrite (bool_decide_false _ Hr).
Qed.

(** What mergeKeys makes of the listing: one key for every object with an
    initial descriptor, whatever the batches. *)

Variables (kv : string -> bool) (apc_of : string -> bool -> ArchivePathComponents).
Hypothesis parse_done : forall id, named id -> GetArchivePathComponents kv (done_key id) = Ok (apc_of id true).
Hypothesis parse_running : forall id, named id -> GetArchivePathComponents kv (running_key id) = Ok (apc_of id false).
Hypothesis apc_final : forall id b, apc_IsFinalState (apc_of id b) = b.
Hypothesis id_same : forall id b, state_id apc_of id b = state_id apc_of id false.
Hypothesis id_inj : forall id id', state_id apc_of id false = state_id apc_of id' false -> id = id'.
Hypothesis id_nonempty : forall id b, named id -> ~ (apc_SplitID (apc_of id b) = "" /\ apc_DiamondID (apc_of id b) = "").

Lemma mergeKeys_listing evs :
  mbind kb_keys evs = filter is_descriptor (listing objs prefix "") ->
  exists ids, NoDup ids /\ Forall named ids /\ (forall id, named id -> id ∈ ids <-> is_Some (objs !! running_key id)) /\
    Forall (fun ev => kb_err ev = None) (mergeKeys kv ∅ evs) /\ mbind kb_keys (mergeKeys kv ∅ evs) = shown_key <$> ids.
Proof.
  intros Hk. destruct area_listing as (ids & Hnd & Hn & Hl & Hin). rewrite Hl in Hk.
  exists (filter (fun id => is_Some (objs !! running_key id)) ids). split_and!.
  - by apply NoDup_filter.
  - apply Forall_forall. intros id [_ Hid]%list_elem_of_filter. rewrite Forall_forall in Hn. by apply Hn.
  - intros id Hid. rewrite list_elem_of_filter, Hin by done. tauto.
  - apply mergeKeys_ok. rewrite Hk. apply Forall_forall.
    intros k (o & Hko & (id & -> & Hid)%list_elem_of_fmap)%list_elem_of_bind. rewrite Forall_forall in Hn.
    apply keys_of_elem in Hko as [_ [-> | ->]]; eauto.
  - rewrite mergeKeys_flat, Hk, <- listed_keys.
    apply (merge_flat_objects kv done_key running_key apc_of named); try done.
    + rewrite <- list_fmap_compose. unfold object_of, compose. cbn [o_id]. by rewrite list_fmap_id.
    + apply Forall_fmap. exact Hn.
Qed.

End area.

(** ** The splits of a diamond *)

Section splits.
Context {S : Type} `{HS : !Store S, HSL : !StoreLaws S, HR : !ReliableStore S, HLL : !ListingLaws S}.
Context {GS : GoSort} {GSL : GoSortLaws} {HYS : Yaml SplitDescriptor}.
Variables (kv : string -> bool) (fuel : nat) (NumCPU : Z) (repo d : string).
Hypothesis repo_name : Strings.no_slash repo.
Hypothesis diamond_name : Strings.no_slash d.
Hypothesis diamond_ksuid : kv d = true.

Let prefix := GetArchivePathPrefixToSplits repo d.

Definition split_named (id : string) : Prop := Strings.no_slash id /\ id <> "".

(** Below the prefix there are descriptors and index files of splits, and the
    descriptors carry their identifiers. *)

Record splits_ok (s : S) : Prop := {
  ok_area : forall k, is_Some (objects s !! k) -> Strings.HasPrefix k prefix = true ->
    exists id, split_named id /\
      (k = GetArchivePathToFinalSplit repo d id \/ k = GetArchivePathToInitialSplit repo d id \/
       exists (g : string) (index : N), Strings.no_slash g /\ k = GetArchivePathToSplitFileList repo d id g index);
  ok_split_descriptors : forall id b, split_named id ->
    (objects s !! GetArchivePathToFinalSplit repo d id = Some b \/ objects s !! GetArchivePathToInitialSplit repo d id = Some b) ->
    exists sd, Unmarshal b = Ok sd /\ sd_SplitID sd = id
}.

Lemma final_split_key id : GetArchivePathToFinalSplit repo d id = done_key prefix splitFinalDescriptorFile id.
Proof.
  unfold done_key, directory, prefix, GetArchivePathPrefixToSplits, GetArchivePathToFinalSplit.
  by rewrite !Strings.string_app_assoc.
Qed.

Lemma initial_split_key id : GetArchivePathToInitialSplit repo d id = running_key prefix splitInitialDescriptorFile id.
Proof.
  unfold running_key, directory, prefix, GetArchivePathPrefixToSplits, GetArchivePathToInitialSplit.
  by rewrite !Strings.string_app_assoc.
Qed.

Definition split_apc (id : string) (final : bool) : ArchivePathComponents :=
  mkArchivePathComponents repo "" (if final then splitFinalDescriptorFile else splitInitialDescriptorFile) "" "" d id "" final.

Lemma parse_split_key id (final : bool) :
  split_named id -> GetArchivePathComponents kv
    (if final then GetArchivePathToFinalSplit repo d id else GetArchivePathToInitialSplit repo d id) = Ok (split_apc id final).
Proof.
  intros [Hid Hne].
  assert (forall file, GetArchivePathComponents kv (Strings.Join ["diamonds"; repo; d; "splits"; id; file]) = Ok
    (mkArchivePathComponents repo "" file "" "" d id "" (bool_decide (file = splitFinalDescriptorFile))) \/
    (file <> splitInitialDescriptorFile /\ file <> splitFinalDescriptorFile)) as Hp.
  { intros file. destruct (decide (file = splitInitialDescriptorFile \/ file = splitFinalDescriptorFile)) as [Hf|Hf]; [|tauto].
    left. assert (Strings.no_slash file) by (by destruct Hf as [-> | ->]).
    ModelPaths.parse_pieces. unfold archiveComponents. cbn -[decide]. rewrite diamond_ksuid. cbn -[decide].
    rewrite (decide_False (P := id = "")) by done. by destruct Hf as [-> | ->]. }
  destruct final.
  - destruct (Hp splitFinalDescriptorFile) as [E|[_ Hc]]; [exact E|by destruct Hc].
  - destruct (Hp splitInitialDescriptorFile) as [E|[Hc _]]; [exact E|by destruct Hc].
Qed.

Lemma Base_split_key id file : Strings.no_slash id -> Path.plain file -> Path.Base (directory prefix id +:+ file) = file.
Proof.
  intros Hid Hf. replace (directory prefix id +:+ file) with (Strings.Join (["diamonds"; repo; d; "splits"; id] ++ [file])).
  - apply Path.Base_last; [|done]. repeat (apply Forall_cons; split); done.
  - unfold directory, prefix, GetArchivePathPrefixToSplits. rewrite !Strings.string_app_assoc. reflexivity.
Qed.

Lemma split_area s k :
  splits_ok s -> is_Some (objects s !! k) -> Strings.HasPrefix k prefix = true -> is_descriptor "split-" k ->
  exists id, split_named id /\
    (k = done_key prefix splitFinalDescriptorFile id \/ k = running_key prefix splitInitialDescriptorFile id).
Proof.
  intros Hok Hs Hp Hd. destruct (ok_area _ Hok k Hs Hp) as (id & Hid & [-> |[-> |(g & index & Hg & ->)]]).
  - exists id. rewrite final_split_key. auto.
  - exists id. rewrite initial_split_key. auto.
  - unfold is_descriptor in Hd. rewrite ModelPaths.splitlist_path_Join in Hd.
    change ["diamonds"; repo; d; "splits"; id; g; bundleFilesIndexPrefix +:+ Strconv.FormatUint index +:+ ".yaml"]
      with (["diamonds"; repo; d; "splits"; id; g] ++ [bundleFilesIndexPrefix +:+ Strconv.FormatUint index +:+ ".yaml"]) in Hd.
    rewrite Path.Base_last in Hd; [done|repeat (apply Forall_cons; split); try done; apply Hid|].
    split_and!; try done. apply ModelPaths.index_file_no_slash.
Qed.

(** The descriptor that is shown of a split: the final one if there is one. *)

Definition split_got (s : S) (id : string) : option SplitDescriptor :=
  match objects s !! GetArchivePathToFinalSplit repo d id with
  | Some b => match Unmarshal b with Ok sd => Some sd | _ => None end
  | None => match objects s !! GetArchivePathToInitialSplit repo d id with
            | Some b => match Unmarshal b with Ok sd => Some sd | _ => None end
            | None => None
            end
  end.

Definition split_key (s : S) (id : string) : string := shown_key prefix splitFinalDescriptorFile splitInitialDescriptorFile (objects s) id.

Lemma split_key_parse s id :
  split_named id ->
  GetArchivePathComponents kv (split_key s id) = Ok (split_apc id (bool_decide (is_Some (objects s !! GetArchivePathToFinalSplit repo d id)))).
Proof.
  intros Hid. unfold split_key, shown_key. rewrite <- final_split_key, <- initial_split_key.
  case_bool_decide as Hf; [by apply (parse_split_key id true)|by apply (parse_split_key id false)].
Qed.

Lemma runs_getSplitAsync s0 id s :
  splits_ok s0 -> split_named id -> is_Some (objects s0 !! GetArchivePathToInitialSplit repo d id) -> objects s = objects s0 ->
  runs (getSplitAsync kv repo (split_key s0 id)) s (fun x s' => x = split_got s0 id /\ objects s' = objects s0).
Proof.
  intros Hok Hid [b1 Hb1] Ho. unfold getSplitAsync, drop_missing, readSplit, split_got.
  apply runs_bind, runs_attempt, runs_bind. eapply runs_lift; [by apply split_key_parse|].
  cbn [split_apc apc_IsFinalState apc_DiamondID apc_SplitID].
  assert (forall pth b, objects s0 !! pth = Some b ->
    (objects s0 !! GetArchivePathToFinalSplit repo d id = Some b \/ objects s0 !! GetArchivePathToInitialSplit repo d id = Some b) ->
    runs (o ← Get pth; sd ← lift (Unmarshal o); if decide (sd_SplitID sd <> id)
       then fail (ErrMsg ("split IDs in descriptor '" +:+ sd_SplitID sd +:+ "' and archive path '" +:+ id +:+ "' don't match")) else mret sd) s
      (fun sd s' => runs (mret (Some sd)) s' (fun x s'' =>
         x = match Unmarshal b with Ok sd => Some sd | _ => None end /\ objects s'' = objects s0))) as Hread.
  { intros pth b Hb Hor. destruct (ok_split_descriptors _ Hok id b Hid Hor) as (sd & Hu & Hsd).
    apply runs_bind. eapply runs_Get; [by rewrite Ho|]. intros s1 Ho1. apply runs_bind. eapply runs_lift; [exact Hu|].
    rewrite decide_False by tauto. apply runs_ret, runs_ret. rewrite Hu. split; [done|]. congruence. }
  destruct (objects s0 !! GetArchivePathToFinalSplit repo d id) as [b|] eqn:Ef.
  - rewrite bool_decide_true by eauto. by apply Hread; [|left].
  - rewrite bool_decide_false by (by intros [? ?]). rewrite Hb1. by apply Hread; [|right].
Qed.

Lemma reads_DiamondExists (c : Stores S) :
  is_Some (objects (VMetadata c) !! GetArchivePathToInitialDiamond repo d) -> reads (DiamondExists repo d) c tt.
Proof.
  intros Hs. unfold DiamondExists. apply runs_bind, runs_attempt, runs_vmeta, runs_Has. intros s' Ho.
  rewrite bool_decide_true by exact Hs. apply runs_ret. split; [done|]. by apply same_SetVMetadata.
Qed.

(** The splits that are listed. *)

Definition split_ids (s : S) (ids : list string) : Prop :=
  NoDup ids /\ Forall split_named ids /\
  forall id, split_named id -> id ∈ ids <-> is_Some (objects s !! GetArchivePathToInitialSplit repo d id).

Definition splits_page (s : S) (size : nat) : Prop :=
  no_empty_page (fun key => Strings.HasPrefix (Path.Base key) "split-" = true) size (listing (objects s) prefix "").

Let key_got (s : S) (k : string) : option SplitDescriptor :=
  match GetArchivePathComponents kv k with Ok apc => split_got s (apc_SplitID apc) | _ => None end.

Lemma omap_split_key_got s ids :
  Forall split_named ids -> omap (key_got s) (split_key s <$> ids) = omap (split_got s) ids.
Proof.
  induction 1 as [|id ids Hid _ IH]; [done|]. rewrite fmap_cons, !omap_cons, IH. unfold key_got at 1.
  by rewrite split_key_parse by done.
Qed.

Lemma listSplitsChan_runs sch opts (c : Stores S) :
  let settings := settings_of NumCPU opts in
  is_Some (objects (Metadata c) !! GetArchivePathToRepoDescriptor repo) ->
  is_Some (objects (VMetadata c) !! GetArchivePathToInitialDiamond repo d) -> splits_ok (VMetadata c) ->
  splits_page (VMetadata c) (Z.to_nat (batchSize settings)) ->
  listing_ok fuel (length (listing (objects (VMetadata c)) prefix "")) settings sch ->
  runs (listSplitsChan kv fuel NumCPU repo d sch opts) c (fun evs c' =>
    same_objects c c' /\ exists ids l, split_ids (VMetadata c) ids /\ doSelect evs = (l, None) /\
      l ≡ₚ omap (split_got (VMetadata c)) ids).
Proof.
  intros settings Hrepo Hdiamond Hok Hpage [Hfuel Hw Hb Hord [Hks Hfs]]. unfold listSplitsChan, after_check. fold settings.
  apply runs_bind, runs_attempt. eapply reads_runs.
  { eapply reads_bind; [by apply reads_RepoExists|]. intros c1 Hs1. apply reads_DiamondExists. by rewrite (same_vmeta _ _ Hs1). }
  intros c1 Hs1. pose proof (same_vmeta _ _ Hs1) as Hm1. rewrite Hks. unfold fetchSplits. rewrite Hfs.
  apply runs_bind, runs_vmeta. eapply runs_mono; [apply fetchKeys_basename; [lia|by rewrite Hm1..]|].
  intros evs s2 (Ho2 & He & Hk). apply runs_vmeta. cbn [VMetadata SetVMetadata]. rewrite Hm1 in Hk.
  destruct (mergeKeys_listing prefix "split-" splitFinalDescriptorFile splitInitialDescriptorFile (objects (VMetadata c)) split_named)
    with (kv := kv) (apc_of := split_apc) (evs := evs) as (ids & Hnd & Hn & Hin & Herr & Hkeys); try done.
  { by intros id []. }
  { intros k. by apply split_area. }
  { intros id [Hid _]. unfold is_descriptor, done_key. by rewrite Base_split_key. }
  { intros id [Hid _]. unfold is_descriptor, running_key. by rewrite Base_split_key. }
  { intros id Hid. rewrite <- final_split_key. by apply (parse_split_key id true). }
  { intros id Hid. rewrite <- initial_split_key. by apply (parse_split_key id false). }
  { intros id id'. unfold state_id, split_apc. cbn [apc_DiamondID apc_SplitID]. apply Strings.string_app_inv_head. }
  { intros id b [_ Hne] [E _]. done. }
  set (sch' := watchForInterrupts settings sch).
  assert (forall l, order sch' l ≡ₚ l) as Hord' by (intros l; unfold sch'; by rewrite order_watch).
  assert (split_ids (VMetadata c) ids) as Hids.
  { split_and!; [done..|]. intros id Hid. rewrite initial_split_key. by apply Hin. }
  eapply runs_mono; [apply (fetch_all_complete (fun s => objects s = objects (VMetadata c)) _ _ (key_got (VMetadata c)) settings sch')|].
  - done.
  - done.
  - by rewrite Ho2.
  - done.
  - intros k s' Hk' Ho'. rewrite Hkeys in Hk'. apply list_elem_of_fmap in Hk' as (id & -> & Hid).
    rewrite Forall_forall in Hn. specialize (Hn id Hid). fold (split_key (VMetadata c) id).
    unfold key_got. rewrite split_key_parse by done. apply runs_getSplitAsync; [done..| |done]. by apply (proj2 (proj2 Hids)).
  - intros out s3 [-> Ho3]. split.
    + etrans; [exact Hs1|]. etrans; [by apply (same_SetVMetadata c1 s2)|]. apply same_SetVMetadata. cbn. congruence.
    + eexists ids, _. split_and!; [done|apply doSelect_complete|]. rewrite (listed_Permutation _ _ sch' Hord'), Hkeys.
      by rewrite (omap_split_key_got (VMetadata c)).
Qed.

(** The splits of a diamond are the ones with an initial descriptor. *)

Definition shown_split (s : S) (sd : SplitDescriptor) : Prop :=
  let id := sd_SplitID sd in
  split_named id /\ is_Some (objects s !! GetArchivePathToInitialSplit repo d id) /\
  (document s (GetArchivePathToFinalSplit repo d id) sd \/
   objects s !! GetArchivePathToFinalSplit repo d id = None /\ document s (GetArchivePathToInitialSplit repo d id) sd).

Lemma split_got_elem s (ids : list string) sd :
  splits_ok s -> split_ids s ids -> sd ∈ omap (split_got s) ids <-> shown_split s sd.
Proof.
  intros Hok (Hnd & Hn & Hin). rewrite Forall_forall in Hn. rewrite list_elem_of_omap. unfold shown_split, split_got, document. split.
  - intros (id & Hid & E). pose proof (ok_split_descriptors _ Hok id) as Hd. pose proof (Hn _ Hid) as Hnm.
    destruct (objects s !! GetArchivePathToFinalSplit repo d id) as [b|] eqn:Ef.
    + destruct (Hd b Hnm (or_introl eq_refl)) as (sd' & Hu & Hsd). rewrite Hu in E. injection E as ->. rewrite Hsd, Ef.
      split_and!; [done|by apply (Hin id Hnm)|]. left. by exists b.
    + destruct (objects s !! GetArchivePathToInitialSplit repo d id) as [b|] eqn:Ei; [|done].
      destruct (Hd b Hnm (or_intror eq_refl)) as (sd' & Hu & Hsd). rewrite Hu in E. injection E as ->. rewrite Hsd, Ef, Ei.
      split_and!; [done|by eauto|]. right. split; [done|]. by exists b.
  - intros (Hnm & Hi & Hdoc). exists (sd_SplitID sd). split; [by apply (Hin _ Hnm)|].
    destruct Hdoc as [(b & -> & ->)|(-> & b & -> & ->)]; done.
Qed.

Lemma split_got_NoDup s (ids : list string) :
  splits_ok s -> split_ids s ids -> NoDup (sd_SplitID <$> omap (split_got s) ids).
Proof.
  intros Hok (Hnd & Hn & _). revert Hn. induction Hnd as [|id ids Hni Hnd IH]; intros Hn; [constructor|].
  apply Forall_cons in Hn as [Hid Hn]. rewrite omap_cons.
  assert (Hgot : forall id sd, split_named id -> split_got s id = Some sd -> sd_SplitID sd = id).
  { intros id' sd Hid'. pose proof (ok_split_descriptors _ Hok id') as Hd. unfold split_got.
    destruct (objects s !! GetArchivePathToFinalSplit repo d id') as [b|] eqn:Ef.
    - destruct (Hd b Hid' (or_introl eq_refl)) as (sd' & -> & Hsd). by intros [= <-].
    - destruct (objects s !! GetArchivePathToInitialSplit repo d id') as [b|] eqn:Ei; [|done].
      destruct (Hd b Hid' (or_intror eq_refl)) as (sd' & -> & Hsd). by intros [= <-]. }
  destruct (split_got s id) as [sd|] eqn:E; [|by apply IH]. rewrite fmap_cons. apply NoDup_cons. split; [|by apply IH].
  rewrite (Hgot _ _ Hid E). intros (sd' & -> & (id' & Hin & E')%list_elem_of_omap)%list_elem_of_fmap.
  rewrite Forall_forall in Hn. by rewrite (Hgot _ _ (Hn _ Hin) E') in Hni.
Qed.

End splits.

Section theorems.
Context {S : Type} `{HS : !Store S, HSL : !StoreLaws S, HR : !ReliableStore S, HLL : !ListingLaws S}.
Context {GS : GoSort} {GSL : GoSortLaws} {HYS : Yaml SplitDescriptor}.

(** ListSplits returns, without an error, every split of the diamond once:
    the final descriptor of a split that has one and the initial descriptor of
    the others, whatever the size of the pages, the number of workers and the
    order in which their results arrive, as long as no page of keys is without
    a descriptor. *)
Theorem ListSplits_correct kv fuel NumCPU repo d sch opts (c : Stores S) :
  let settings := settings_of NumCPU opts in
  Strings.no_slash repo -> Strings.no_slash d -> kv d = true ->
  is_Some (objects (Metadata c) !! GetArchivePathToRepoDescriptor repo) ->
  is_Some (objects (VMetadata c) !! GetArchivePathToInitialDiamond repo d) ->
  splits_ok repo d (VMetadata c) -> splits_page repo d (VMetadata c) (Z.to_nat (batchSize settings)) ->
  listing_ok fuel (length (listing (objects (VMetadata c)) (GetArchivePathPrefixToSplits repo d) "")) settings sch ->
  runs (ListSplits kv fuel NumCPU repo d sch opts) c (fun out c' =>
    same_objects c c' /\ out.2 = None /\ NoDup (sd_SplitID <$> out.1) /\
    forall sd, sd ∈ out.1 <-> shown_split repo d (VMetadata c) sd).
Proof.
  intros settings Hr Hd Hkv Hrepo Hdiamond Hok Hpage Hl. apply runs_bind.
  eapply runs_mono; [by apply (listSplitsChan_runs kv fuel NumCPU repo d Hr Hd Hkv sch opts c)|].
  intros evs c' (Hs & ids & l & Hids & Hsel & Hp). apply runs_ret. unfold doSelectSplits. rewrite Hsel. cbn [fst snd].
  split_and!; [done|done| |].
  - rewrite Hp. by apply (split_got_NoDup repo d).
  - intros sd. rewrite Hp. by apply (split_got_elem repo d).
Qed.

End theorems.

Lemma Forall_not_filter {A} (P : A -> Prop) `{!forall x, Decision (P x)} l :
  Forall (fun x => ~ P x) l -> filter P l = [].
Proof. induction 1 as [|x l Hx _ IH]; [done|]. by rewrite filter_cons_False. Qed.

Section errors.
Context {S : Type} `{HS : !Store S} {GS : GoSort} {GSL : GoSortLaws} {HYS : Yaml SplitDescriptor}.

Lemma fetch_batch_nil {T A} (worker : string -> M T (option A)) less settings sch t :
  (forall l, order sch l ≡ₚ l) -> fetch_batch worker less settings sch [] t = (Ok [], t).
Proof.
  intros Hord. unfold fetch_batch. rewrite decide_False by naive_solver.
  assert (order sch [] = []) as -> by (by apply Permutation_nil_r, Hord).
  unfold mbind, M_bind, coalesce, mret, M_ret. do 2 f_equal. apply Permutation_nil_r, sort_Permutation.
Qed.

(** An error of the store while the keys of the splits are listed is lost:
    ListSplits returns no split and no error, so that a diamond looks empty. *)
Theorem ListSplits_loses_errors kv fuel NumCPU repo d sch opts (c c1 : Stores S) e s2 :
  let settings := settings_of NumCPU opts in
  doneChannel settings = false -> (forall l, order sch l ≡ₚ l) ->
  (_ ← RepoExists repo; DiamondExists repo d) c = (Ok tt, c1) ->
  KeysPrefix "" (GetArchivePathPrefixToSplits repo d) "" (Z.to_nat (batchSize settings)) (VMetadata c1) = (Err e, s2) ->
  ListSplits kv (Datatypes.S fuel) NumCPU repo d sch opts c = (Ok ([], None), SetVMetadata s2 c1).
Proof.
  intros settings Hdone Hord Hcheck Hk. unfold ListSplits, listSplitsChan, after_check, fetchSplits. fold settings.
  assert (watchForInterrupts settings sch = mkSchedule (order sch) None None) as -> by (unfold watchForInterrupts; by rewrite Hdone).
  cbn [keys_stop fetch_stop fetchKeys]. unfold mbind, M_bind, attempt at 1. unfold mbind, M_bind in Hcheck. rewrite Hcheck.
  unfold GetSplitStore, getVMetaStore, basenameKeyFilter, attempt, mbind, M_bind. rewrite Hk.
  cbn [mret M_ret mergeKeys merge_batch kb_keys fold_left fetch_all kb_err VMetadata SetVMetadata].
  unfold mbind, M_bind, attempt. by rewrite fetch_batch_nil.
Qed.

(** A first page of keys without a descriptor, because a split has that many
    index files, ends the listing: ListSplits returns no split and no error
    although the store has announced more keys. *)
Theorem ListSplits_truncated kv fuel NumCPU repo d sch opts (c c1 : Stores S) ks next s2 :
  let settings := settings_of NumCPU opts in
  doneChannel settings = false ->
  (_ ← RepoExists repo; DiamondExists repo d) c = (Ok tt, c1) ->
  KeysPrefix "" (GetArchivePathPrefixToSplits repo d) "" (Z.to_nat (batchSize settings)) (VMetadata c1) = (Ok (ks, next), s2) ->
  Forall (fun k => ~ is_descriptor "split-" k) ks ->
  ListSplits kv (Datatypes.S fuel) NumCPU repo d sch opts c = (Ok ([], None), SetVMetadata s2 c1).
Proof.
  intros settings Hdone Hcheck Hk Hks. unfold ListSplits, listSplitsChan, after_check, fetchSplits. fold settings.
  assert (watchForInterrupts settings sch = mkSchedule (order sch) None None) as -> by (unfold watchForInterrupts; by rewrite Hdone).
  cbn [keys_stop fetch_stop fetchKeys]. unfold mbind, M_bind, attempt at 1. unfold mbind, M_bind in Hcheck. rewrite Hcheck.
  unfold GetSplitStore, getVMetaStore, basenameKeyFilter, attempt, mbind, M_bind. rewrite Hk. cbn [mret M_ret].
  rewrite (Forall_not_filter _ _ Hks). done.
Qed.

End errors.

(** ** A concrete diamond: one split is done, one is running *)

Section witness.

Definition a_split (id : string) (state : SplitState) : SplitDescriptor := mkSplitDescriptor id 1%Z 2%Z state [] "g" 1 "".

Definition final_file (id : string) : string * bytes :=
  (GetArchivePathToFinalSplit "r" "dd" id, put_positive (encode (a_split id SplitDone))).

Definition initial_file (id : string) : string * bytes :=
  (GetArchivePathToInitialSplit "r" "dd" id, put_positive (encode (a_split id SplitRunning))).

Definition open_diamond : DiamondDescriptor := defaultDiamondDescriptor "dd" 1%Z.

Definition split_contents : list BundleEntry := [mkBundleEntry "h1" "a" 0%Z 1%Z 5%Z; mkBundleEntry "h2" "dir/b" 0%Z 1%Z 3%Z].

Definition split_files : list (string * bytes) :=
  [(GetArchivePathToInitialDiamond "r" "dd", put_positive (encode open_diamond));
   (GetArchivePathToSplitFileList "r" "dd" "s1" "g" 0, put_positive (encode split_contents));
   final_file "s1"; initial_file "s1"; initial_file "s2"].

Definition split_stores : Stores (gmap string bytes) :=
  NewStores ∅ ∅ ∅ {[ GetArchivePathToRepoDescriptor "r" := [] ]} (list_to_map split_files).

Definition any_ksuid (_ : string) : bool := true.

Lemma split_files_elem k v : objects (VMetadata split_stores) !! k = Some v -> (k, v) ∈ split_files.
Proof. apply elem_of_list_to_map_2. Qed.

Definition file_ok (p : string * bytes) : Prop :=
  match GetArchivePathComponents any_ksuid p.1 with
  | Ok apc =>
      (apc_ArchiveFileName apc = splitFinalDescriptorFile -> apc_SplitID apc = "s1" /\ p.2 = put_positive (encode (a_split (apc_SplitID apc) SplitDone))) /\
      (apc_ArchiveFileName apc = splitInitialDescriptorFile -> p.2 = put_positive (encode (a_split (apc_SplitID apc) SplitRunning)))
  | _ => False
  end.

Lemma split_files_ok : Forall file_ok split_files.
Proof. repeat (apply Forall_cons; split); [..|apply Forall_nil]; vm_compute; (split; [intros H; first [discriminate H|split; reflexivity|reflexivity]..]). Qed.

Lemma split_stores_ok : splits_ok (HYS := numbered_yaml) "r" "dd" (VMetadata split_stores).
Proof.
  split.
  - intros k [v Hv%split_files_elem] Hp. unfold split_files in Hv.
    repeat (apply elem_of_cons in Hv as [Hv|Hv]); [..|by apply elem_of_nil in Hv]; apply (f_equal fst) in Hv; cbn [fst] in Hv; subst k.
    + by vm_compute in Hp.
    + exists "s1". split; [done|]. right. right. by exists "g", 0%N.
    + exists "s1". split; [done|]. by left.
    + exists "s1". split; [done|]. right. by left.
    + exists "s2". split; [done|]. right. by left.
  - pose proof split_files_ok as Hf. rewrite Forall_forall in Hf. intros id b Hid [Hb|Hb]; apply split_files_elem, Hf in Hb; unfold file_ok in Hb; cbn [fst snd] in Hb.
    + rewrite (parse_split_key any_ksuid "r" "dd" eq_refl eq_refl eq_refl id true Hid) in Hb.
      destruct Hb as [Hb _]. exists (a_split id SplitDone). rewrite (proj2 (Hb eq_refl)). by rewrite numbered_Unmarshal.
    + rewrite (parse_split_key any_ksuid "r" "dd" eq_refl eq_refl eq_refl id false Hid) in Hb.
      destruct Hb as [_ Hb]. exists (a_split id SplitRunning). rewrite (Hb eq_refl). by rewrite numbered_Unmarshal.
Qed.

Lemma split_pages : splits_page "r" "dd" (VMetadata split_stores) 2.
Proof.
  assert (length (listing (objects (VMetadata split_stores)) (GetArchivePathPrefixToSplits "r" "dd") "") = 4) as Hl by (by vm_compute).
  intros i Hi. rewrite Hl in Hi. assert (i = 0 \/ i = 1) as [-> | ->] by lia; by vm_compute.
Qed.

Lemma ListSplits_correct_witness :
  runs (ListSplits (HYS := numbered_yaml) any_ksuid 5 1 "r" "dd" backwards two_by_two) split_stores (fun out c' =>
    same_objects split_stores c' /\ out.2 = None /\ NoDup (sd_SplitID <$> out.1) /\
    forall sd, sd ∈ out.1 <-> shown_split (HYS := numbered_yaml) "r" "dd" (VMetadata split_stores) sd).
Proof.
  apply (ListSplits_correct (HYS := numbered_yaml) any_ksuid 5 1 "r" "dd" backwards two_by_two split_stores); try reflexivity.
  - vm_compute. eauto.
  - vm_compute. eauto.
  - apply split_stores_ok.
  - apply split_pages.
  - apply backwards_ok. vm_compute. lia.
Defined.

(** A store that cannot list its keys. *)

Definition unlistable : Store (gmap string bytes) := {|
  Has := Has; Get := Get; GetAttr := GetAttr; Touch := Touch; Put := Put; PutCRC := PutCRC; Delete := Delete; Clear := Clear;
  Keys := Keys; KeysPrefix := fun _ _ _ _ s => (Err StorageStatus.ErrStorageAPI, s)
|}.

Lemma ListSplits_loses_errors_witness :
  ListSplits (HS := unlistable) (HYS := numbered_yaml) any_ksuid 5 1 "r" "dd" backwards two_by_two split_stores
    = (Ok ([], None), split_stores).
Proof.
  apply (ListSplits_loses_errors (HS := unlistable) (HYS := numbered_yaml) any_ksuid 4 1 "r" "dd" backwards two_by_two
    split_stores split_stores StorageStatus.ErrStorageAPI (VMetadata split_stores)).
  - reflexivity.
  - intros l. apply reverse_Permutation.
  - vm_cast_no_check (eq_refl (Ok tt, split_stores)).
  - reflexivity.
Defined.

Lemma ListSplits_truncated_witness :
  ListSplits (HYS := numbered_yaml) any_ksuid 5 1 "r" "dd" backwards [BatchSize 1] split_stores = (Ok ([], None), split_stores).
Proof.
  apply (ListSplits_truncated (HYS := numbered_yaml) any_ksuid 4 1 "r" "dd" backwards [BatchSize 1] split_stores split_stores
    [GetArchivePathToSplitFileList "r" "dd" "s1" "g" 0] "1" (VMetadata split_stores)).
  - reflexivity.
  - vm_cast_no_check (eq_refl (Ok tt, split_stores)).
  - vm_cast_no_check (eq_refl (Ok ([GetArchivePathToSplitFileList "r" "dd" "s1" "g" 0], "1"), VMetadata split_stores)).
  - repeat constructor. by vm_compute.
Defined.

End witness.

End CoreListDiamonds.
