(* ===== verification/CoreCommit.v ===== *)
(** * The commit of a diamond (pkg/core: diamond_commit.go)

    Commit collects the splits that are done, downloads their index files,
    merges the entries, uploads the merged entries as the index files of a new
    bundle, then the descriptor of the bundle, and last the final descriptor
    of the diamond. The stages are the ones of [CoreListDiamonds],
    [CoreIndex], [DiamondMerge] and [CoreDiamond]; this file composes them. *)

From S2P Require Import Prelude GoLib Errors Storage Radix Model ModelPaths CoreMeta StoreRules CoreIndex CoreKeys DiamondMerge CoreRepo CoreListing CoreList CoreBundle CoreDiamond CoreListDiamonds.

Module CoreCommit.
Import Model Storage CoreMeta CoreStatus StoreRules CoreIndex CoreKeys DiamondMerge CoreRepo CoreListing CoreList CoreBundle
  CoreDiamond CoreListDiamonds.

(** What a commit reads of its environment: how the goroutines are scheduled,
    the clock and the source of random identifiers. *)

Record commit_env : Type := mkCommitEnv {
  ce_list : schedule;
  ce_interruption : interruption;
  ce_order : list job -> list job;
  ce_received : nat;
  ce_interrupt_seen : bool;
  ce_times : nat -> Time.Time;
  ce_draw : draw;
  ce_random : res string;
  ce_now : Time.Time
}.

Definition set_bundle_ID (d : Diamond) (id : string) : Diamond :=
  mkDiamond (d_RepoID d) id (descriptor_with_ID (d_BundleDescriptor d) id) (d_DiamondDescriptor d) (d_deconflicter d).

Definition set_bundle (d : Diamond) (bd : BundleDescriptor) : Diamond :=
  mkDiamond (d_RepoID d) (d_BundleID d) bd (d_DiamondDescriptor d) (d_deconflicter d).

Definition with_splits (dd : DiamondDescriptor) (splits : list SplitDescriptor) : DiamondDescriptor :=
  mkDiamondDescriptor (dd_DiamondID dd) (dd_StartTime dd) (dd_EndTime dd) (dd_State dd) (dd_Mode dd) (dd_HasConflicts dd)
    (dd_HasCheckpoints dd) (dd_Tag dd) (dd_BundleID dd) splits.

(** The merge sets the two flags when it has met a conflict. *)

Definition with_flags (dd : DiamondDescriptor) (hasConflicts hasCheckpoints : bool) : DiamondDescriptor :=
  if hasConflicts || hasCheckpoints
  then mkDiamondDescriptor (dd_DiamondID dd) (dd_StartTime dd) (dd_EndTime dd) (dd_State dd) (dd_Mode dd) hasConflicts
         hasCheckpoints (dd_Tag dd) (dd_BundleID dd) (dd_Splits dd)
  else dd.

Definition with_bundle_ID (dd : DiamondDescriptor) (id : string) : DiamondDescriptor :=
  mkDiamondDescriptor (dd_DiamondID dd) (dd_StartTime dd) (dd_EndTime dd) (dd_State dd) (dd_Mode dd) (dd_HasConflicts dd)
    (dd_HasCheckpoints dd) (dd_Tag dd) id (dd_Splits dd).

Section commit.
Context {S : Type} `{HS : !Store S} {GS : GoSort} {T : Type -> Type} {HT : Radix T}.
Context {HYD : Yaml DiamondDescriptor} {HYS : Yaml SplitDescriptor} {HYB : Yaml BundleDescriptor} {HYE : Yaml (list BundleEntry)}.

(** ksuid.Parse is a parameter, as is the build flag; [fuel] bounds the pages
    of keys and the index files. *)

Variables (ksuid_valid : string -> bool) (ksuid_Parse : string -> res string) (enableBundlePreserve : bool).
Variables (fuel : nat) (NumCPU : Z).

Definition collectSplits (env : commit_env) (d : Diamond) (opts : list Option) : M (Stores S) (list SplitDescriptor) := fun c =>
  let apply_ sd : M (Stores S * list SplitDescriptor) unit := fun '(c, splits) =>
    (Ok tt, (c, if decide (sd_State sd = SplitDone) then splits ++ [sd] else splits)) in
  match ListSplitsApply ksuid_valid fuel NumCPU (d_RepoID d) (dd_DiamondID (d_DiamondDescriptor d)) (ce_list env)
          (ce_interruption env) apply_ opts (c, []) with
  | (Ok _, (c', splits)) => (Ok splits, c')
  | (Err err, (c', _)) => (Err (Errors.Wrap (Errors.New "couldn't collect splits") (Some err)), c')
  | (Panic p, (c', _)) => (Panic p, c')
  end.

Definition checkBundleID (d : Diamond) : M (Stores S) Diamond :=
  if negb enableBundlePreserve then mret d
  else if decide (d_BundleID d = "") then mret d
  else
    id ← wrap_error ErrInvalidKsuid (lift (ksuid_Parse (d_BundleID d)));
    let d' := set_bundle_ID d id in
    exists_ ← wrap_error (Errors.New "could not check for bundle existence")
                (getMetaStore (Has (GetArchivePathToBundle (d_RepoID d') (d_BundleID d'))));
    if exists_ : bool then fail (Errors.WrapMessage ErrBundleIDExists ("bundleID: " +:+ id))
    else mret d'.

Definition makeDownloadIndexer (d : Diamond) : patherIterator :=
  newDownloadAllSplitsIterator (d_RepoID d) (dd_DiamondID (d_DiamondDescriptor d)) (dd_Splits (d_DiamondDescriptor d)).

Definition makeUploadIndexer (d : Diamond) : patherIterator :=
  newUploadBundleIterator (d_RepoID d) (d_BundleDescriptor d).

(** Download of the index files on the store of the splits: the batches that
    are delivered, and the error it ends with. *)

Definition Download (order : list job -> list job) (splitIndexer : patherIterator)
    : M (Stores S) (list bundleEntriesRes * option error) := fun c =>
  match downloadAll fuel splitIndexer with
  | None => diverge c
  | Some (Panic p) => (Panic p, c)
  | Some (Err e) => (Ok ([], Some e), c)
  | Some (Ok jobs) =>
      let '(r, (s, output)) := unpack (order jobs) (VMetadata c, []) in
      (match r with Ok _ => Ok (output, None) | Err e => Ok (output, Some e) | Panic p => Panic p end, SetVMetadata s c)
  end.

(** The two goroutines of a commit: the merge hands the files it has merged to
    the upload of the index files of the bundle. A conflict that is forbidden
    is an error of the merge, sent instead of the files. When the download
    fails, the merge may see the interruption and send nothing; or it sends the
    files merged so far, of which some are received before the error is and as
    many as the buffer of the channel holds are not waited for. The upload
    receives one error: when both have one, the other is never received, and
    the commit does not return. *)

Definition bufferingFactor : nat := 100.

Definition merge_to_bundle (env : commit_env) (d : Diamond) : M (Stores S) (N * option error * DiamondDescriptor) :=
  let dd := d_DiamondDescriptor d in
  '(batches, err) ← Download (ce_order env) (makeDownloadIndexer d);
  let Upload files fin :=
    getMetaStore (pack defaultBundleEntriesPerFile (makeUploadIndexer d)
      (imap (fun i file => (file, ce_times env i)) files) fin) in
  match mergeSplits (dd_Mode dd) ((fun r => (CoreIndex.id r, bundleEntries r)) <$> batches), err with
  | Panic p, _ => panic p
  | Ok (files, hasConflicts, hasCheckpoints), None =>
      r ← Upload files InputClosed; mret (r, with_flags dd hasConflicts hasCheckpoints)
  | Ok (files, hasConflicts, hasCheckpoints), Some e =>
      if ce_interrupt_seen env then r ← Upload [] (ErrorHit e); mret (r, dd)
      else if decide (length files <= ce_received env + bufferingFactor * defaultBundleEntriesPerFile)
      then r ← Upload (take (ce_received env) files) (ErrorHit e); mret (r, with_flags dd hasConflicts hasCheckpoints)
      else diverge
  | Err e, None => r ← Upload [] (ErrorHit e); mret (r, dd)
  | Err e, Some e' =>
      if ce_interrupt_seen env then r ← Upload [] (ErrorHit e'); mret (r, dd) else diverge
  end.

(** From the collection of the splits to the descriptor of the bundle. *)

Definition commit_bundle (env : commit_env) (d : Diamond) (opts : list Option) : M (Stores S) Diamond :=
  splits ← collectSplits env d opts;
  if decide (splits = []) then fail (Errors.New "no split to commit")
  else
    let d := setDescriptor d (with_splits (d_DiamondDescriptor d) splits) in
    let d := set_bundle d (descriptor_with_contributors (d_BundleDescriptor d) (mbind sd_Contributors splits)) in
    d ← (if decide (d_BundleID d = "") then id ← lift (ce_random env); mret (set_bundle_ID d id) else mret d);
    '(count, err, dd) ← merge_to_bundle env d;
    let d := setDescriptor d dd in
    match err with
    | Some e => fail e
    | None =>
        let d := set_bundle d (descriptor_with_count (d_BundleDescriptor d) count) in
        _ ← uploadBundleDescriptor (d_RepoID d) (d_BundleID d) (d_BundleDescriptor d);
        mret (setDescriptor d (with_bundle_ID (d_DiamondDescriptor d) (d_BundleID d)))
    end.

Definition implCommit (env : commit_env) (d : Diamond) (opts : list Option) : M (Stores S) Diamond :=
  _ ← RepoExists (d_RepoID d);
  d ← checkBundleID d;
  _ ← wrap_error (Errors.New "cannot proceed with diamond commit")
        (diamondReady (ce_draw env) (d_RepoID d) (dd_DiamondID (d_DiamondDescriptor d)));
  r ← attempt (commit_bundle env d opts);
  match r with
  | inr err => implCommit_end (ce_now env) (Some err) d
  | inl d' => implCommit_end (ce_now env) None d'
  end.

Definition Commit (env : commit_env) (d : Diamond) (opts : list Option) : M (Stores S) Diamond := implCommit env d opts.

End commit.

(** ** What a commit leaves in the stores *)

Section correct.
Context {S : Type} `{HS : !Store S, HSL : !StoreLaws S, HR : !ReliableStore S, HLL : !ListingLaws S}.
Context {GS : GoSort} {GSL : GoSortLaws} {T : Type -> Type} {HT : Radix T} {HTL : RadixLaws T}.
Context {HYD : Yaml DiamondDescriptor} {HYDL : YamlLaws DiamondDescriptor} {HYS : Yaml SplitDescriptor}.
Context {HYB : Yaml BundleDescriptor} {HYBL : YamlLaws BundleDescriptor}.
Context {HYE : Yaml (list BundleEntry)} {HYEL : YamlLaws (list BundleEntry)}.
Variables (kv : string -> bool) (ksuid_Parse : string -> res string) (enableBundlePreserve : bool) (fuel : nat) (NumCPU : Z).

Definition same_docs (c c' : Stores S) : Prop :=
  objects (Metadata c') = objects (Metadata c) /\ objects (VMetadata c') = objects (VMetadata c).

Lemma same_objects_docs c c' : same_objects c c' -> same_docs c c'.
Proof. intros H. split; [by apply same_meta|by apply same_vmeta]. Qed.

(** The splits of a diamond that are done, with the entries of their index files. *)

Definition done_split (repo did : string) (s : S) (sd : SplitDescriptor) : Prop :=
  shown_split repo did s sd /\ sd_State sd = SplitDone.

Definition split_entries (n : nat) (repo did : string) (s : S) (sd : SplitDescriptor) (entries : list BundleEntry) : Prop :=
  sd_SplitEntriesFileCount sd = N.of_nat (nchunks n entries) /\
  forall k, k < nchunks n entries -> document s (split_path repo did sd (N.of_nat k)) (chunk_at n entries k).

Section splits.
Variables (env : commit_env) (opts : list Option) (d : Diamond) (c : Stores S).
Let settings := settings_of NumCPU (opts ++ [WithDoneChan true]).
Let repo := d_RepoID d.
Let did := dd_DiamondID (d_DiamondDescriptor d).

(** What the commit needs of the listing of the splits. *)

Record splits_listed : Prop := {
  sl_names : Strings.no_slash repo /\ Strings.no_slash did /\ kv did = true;
  sl_repo : is_Some (objects (Metadata c) !! GetArchivePathToRepoDescriptor repo);
  sl_diamond : is_Some (objects (VMetadata c) !! GetArchivePathToInitialDiamond repo did);
  sl_splits : splits_ok repo did (VMetadata c);
  sl_pages : splits_page repo did (VMetadata c) (Z.to_nat (batchSize settings));
  sl_listing : listing_ok fuel (length (listing (objects (VMetadata c)) (GetArchivePathPrefixToSplits repo did) "")) settings (ce_list env)
}.

Lemma for_each_append {X V} (P : X -> Prop) `{!forall x, Decision (P x)} (l : list X) (v : V) : forall acc,
  for_each l (fun x => (fun '(v, acc) => (Ok tt, (v, if decide (P x) then acc ++ [x] else acc))) : M (V * list X) unit) (v, acc)
    = (Ok tt, (v, acc ++ filter P l)).
Proof.
  induction l as [|x l IH]; intros acc; [by rewrite app_nil_r|]. cbn [for_each]. unfold mbind, M_bind.
  rewrite IH, filter_cons. case_decide; [by rewrite <- app_assoc|done].
Qed.

Lemma collectSplits_runs :
  splits_listed ->
  runs (collectSplits kv fuel NumCPU env d opts) c (fun splits c' =>
    same_docs c c' /\ NoDup (sd_SplitID <$> splits) /\ forall sd, sd ∈ splits <-> done_split repo did (VMetadata c) sd).
Proof.
  intros [(Hr & Hd & Hk) Hrepo Hdia Hok Hpg Hl].
  destruct (listSplitsChan_runs kv fuel NumCPU repo did Hr Hd Hk (ce_list env) (opts ++ [WithDoneChan true]) c Hrepo Hdia Hok Hpg Hl)
    as (evs & c1 & E & Hs & ids & l & Hids & Hsel & Hp).
  eexists (filter (fun sd => sd_State sd = SplitDone) l), c1. split.
  - unfold collectSplits, ListSplitsApply. fold repo did. erewrite list_apply_ok; [|exact E|exact Hsel].
    by rewrite (for_each_append (fun sd => sd_State sd = SplitDone)).
  - split; [by apply same_objects_docs|]. split.
    + eapply sublist_NoDup; [|apply fmap_sublist, sublist_filter]. rewrite Hp. by apply (split_got_NoDup repo did).
    + intros sd. rewrite list_elem_of_filter, Hp, (split_got_elem repo did _ _ _ Hok Hids). unfold done_split. tauto.
Qed.

End splits.

(** The entries of the splits, each with the identifier of its split. *)

Definition all_entries (E : SplitDescriptor -> list BundleEntry) (splits : list SplitDescriptor) : list (string * BundleEntry) :=
  mbind (fun sd => (fun e => (sd_SplitID sd, e)) <$> E sd) splits.

Lemma bind_of_fmap {A B C} (f : B -> list C) (g : A -> B) l : mbind f (g <$> l) = mbind (fun x => f (g x)) l.
Proof. induction l as [|x l IH]; [done|]. by rewrite fmap_cons, !bind_cons, IH. Qed.

Lemma Download_runs n order repo did splits E (c : Stores S) :
  0 < n -> splits_fuel splits <= fuel -> (forall l, order l ≡ₚ l) ->
  (forall sd, sd ∈ splits -> split_entries n repo did (VMetadata c) sd (E sd)) ->
  runs (Download fuel order (newDownloadAllSplitsIterator repo did splits)) c (fun out c' =>
    out.2 = None /\ same_docs c c' /\ entries_of ((fun r => (CoreIndex.id r, bundleEntries r)) <$> out.1) ≡ₚ all_entries E splits).
Proof.
  intros Hn Hf Ho Hall. destruct (splits_run n repo did splits E (VMetadata c) fuel Hn Hf Hall) as (jobs & Ej & Hu).
  destruct (Hu (order jobs) (Ho jobs)) as (s2 & out & Eu & Hobj & Hp).
  exists (out, None), (SetVMetadata s2 c). split; [unfold Download; by rewrite Ej, Eu|].
  split; [done|]. split; [done|]. cbn [fst]. unfold all_entries. rewrite <- Hp. unfold entries_of.
  by rewrite bind_of_fmap.
Qed.

Lemma well_formed_Permutation ins ins' : ins ≡ₚ ins' -> well_formed ins -> well_formed ins'.
Proof.
  intros Hp [H1 H2 H3 H4]. split.
  - by rewrite <- Hp.
  - intros s f. rewrite <- Hp. apply H2.
  - intros s f. rewrite <- Hp. apply H3.
  - intros s f. rewrite <- Hp. apply H4.
Qed.

(** The index files of a new bundle. *)

Definition packed (env : commit_env) (files : list filePacked) : list BundleEntry :=
  entry_of <$> imap (fun i file => (file, ce_times env i)) files.

Lemma merge_to_bundle_runs n env (d : Diamond) (splits : list SplitDescriptor) E (c : Stores S) :
  let dd := d_DiamondDescriptor d in let repo := d_RepoID d in let id := bd_ID (d_BundleDescriptor d) in
  let path j := GetArchivePathToBundleFileList repo id (N.of_nat j) in
  0 < n -> splits_fuel splits <= fuel -> (forall l, ce_order env l ≡ₚ l) -> dd_Splits dd = splits ->
  (forall sd, sd ∈ splits -> split_entries n repo (dd_DiamondID dd) (VMetadata c) sd (E sd)) ->
  well_formed (all_entries E splits) -> fresh_bundle (Metadata c) repo id ->
  runs (merge_to_bundle (T := T) fuel env d) c (fun x c' =>
    objects (VMetadata c') = objects (VMetadata c) /\
    exists batches, entries_of batches ≡ₚ all_entries E splits /\
      match mergeSplits (T := T) (dd_Mode dd) batches with
      | Ok (files, hasConflicts, hasCheckpoints) =>
          let k := nchunks defaultBundleEntriesPerFile (packed env files) in
          x = (N.of_nat k, None, with_flags dd hasConflicts hasCheckpoints) /\
          (forall j, j < k -> document (Metadata c') (path j) (chunk_at defaultBundleEntriesPerFile (packed env files) j)) /\
          (forall q, (forall j, j < k -> q <> path j) -> objects (Metadata c') !! q = objects (Metadata c) !! q)
      | Err e => x = (0%N, Some e, dd) /\ objects (Metadata c') = objects (Metadata c)
      | Panic _ => False
      end).
Proof.
  intros dd repo id path Hn Hf Ho Hsp Hall wf [_ Hfree]. unfold merge_to_bundle, makeDownloadIndexer. fold dd repo. rewrite Hsp.
  apply runs_bind. eapply runs_mono; [by eapply Download_runs|]. intros [batches err] c1 (Herr & [Hm Hv] & Hp). cbn [fst snd] in Herr, Hp. subst err.
  set (bs := (fun r => (CoreIndex.id r, bundleEntries r)) <$> batches) in *.
  assert (forall files fin, exists s', pack defaultBundleEntriesPerFile (makeUploadIndexer d) (imap (fun i file => (file, ce_times env i)) files)
      fin (Metadata c1) = (Ok (N.of_nat (written defaultBundleEntriesPerFile fin (packed env files)), end_error fin), s') /\
      (forall j, j < written defaultBundleEntriesPerFile fin (packed env files) ->
         document s' (path j) (chunk_at defaultBundleEntriesPerFile (packed env files) j)) /\
      (forall q, (forall j, j < written defaultBundleEntriesPerFile fin (packed env files) -> q <> path j) ->
         objects s' !! q = objects (Metadata c1) !! q)) as Hpack.
  { intros files fin. apply (pack_run _ _ _ _ _ _ _ _ per_file_pos (bundle_series repo (d_BundleDescriptor d))).
    intros i. rewrite Hm. apply Hfree. }
  pose proof (merge_files_outcome (T := T) (dd_Mode dd) (entries_of bs)
    (well_formed_Permutation _ _ (symmetry Hp) wf)) as Hout.
  destruct (mergeSplits (dd_Mode dd) bs) as [[[files hc] hk]|e|p] eqn:Em.
  - destruct (Hpack files InputClosed) as (s2 & E2 & Hd & Hq). cbn [written end_error] in *.
    apply runs_bind, runs_meta. eapply runs_eq; [exact E2|]. apply runs_ret. split; [done|].
    exists bs. rewrite Em. split_and!; [done|done|done|]. intros q Hne. rewrite <- Hm. by apply Hq.
  - destruct (Hpack [] (ErrorHit e)) as (s2 & E2 & Hd & Hq). cbn [written end_error] in *.
    apply runs_bind, runs_meta. eapply runs_eq; [exact E2|]. apply runs_ret. split; [done|].
    exists bs. rewrite Em. split_and!; [done|done|]. apply map_eq. intros q. rewrite <- Hm. apply Hq. cbn. lia.
  - exfalso. unfold mergeSplits in Em. destruct Hout as [(st & E' & _)|(E' & _)]; by rewrite E' in Em.
Qed.

(** What a commit needs: a diamond that is open, splits that were uploaded,
    and a bundle identifier that is not in use. *)

Record ready_to_commit (env : commit_env) (opts : list Option) (d : Diamond) (c : Stores S) (n : nat)
    (dones : list SplitDescriptor) (E : SplitDescriptor -> list BundleEntry) (bid : string) : Prop := {
  rc_listed : splits_listed env opts d c;
  rc_open : dd_DiamondID (d_DiamondDescriptor d) <> "" /\ exists dd0,
    initial_diamond (d_RepoID d) (dd_DiamondID (d_DiamondDescriptor d)) c dd0 /\ dd_State dd0 = DiamondInitialized;
  rc_dones : dones <> [] /\ NoDup dones /\
    forall sd, sd ∈ dones <-> done_split (d_RepoID d) (dd_DiamondID (d_DiamondDescriptor d)) (VMetadata c) sd;
  rc_entries : 0 < n /\ forall sd, sd ∈ dones ->
    split_entries n (d_RepoID d) (dd_DiamondID (d_DiamondDescriptor d)) (VMetadata c) sd (E sd);
  rc_well_formed : well_formed (all_entries E dones);
  rc_fuel : splits_fuel dones <= fuel /\ forall l, ce_order env l ≡ₚ l;
  rc_bundle : d_BundleID d = "" /\ ce_random env = Ok bid /\ bid <> "" /\ fresh_bundle (Metadata c) (d_RepoID d) bid /\
    bd_Deduplication (d_BundleDescriptor d) <> ""
}.

Section bundle.
Variables (env : commit_env) (opts : list Option) (d : Diamond) (c : Stores S) (n : nat).
Variables (dones : list SplitDescriptor) (E : SplitDescriptor -> list BundleEntry) (bid : string).
Hypothesis ready : ready_to_commit env opts d c n dones E bid.
Let repo := d_RepoID d.
Let did := dd_DiamondID (d_DiamondDescriptor d).

(** The splits that are collected are the ones that are done, in some order. *)

Lemma collected_dones splits :
  NoDup (sd_SplitID <$> splits) -> (forall sd, sd ∈ splits <-> done_split repo did (VMetadata c) sd) -> splits ≡ₚ dones.
Proof.
  intros Hnd Hin. destruct (rc_dones _ _ _ _ _ _ _ _ ready) as (_ & Hd & Hdin).
  apply NoDup_Permutation; [by eapply NoDup_fmap_1|done|]. intros sd. by rewrite Hin, Hdin.
Qed.

Lemma splits_fuel_Permutation l l' : l ≡ₚ l' -> splits_fuel l = splits_fuel l'.
Proof. intros H. unfold splits_fuel. by rewrite (Permutation_length H), H. Qed.

Lemma all_entries_Permutation l l' : l ≡ₚ l' -> all_entries E l ≡ₚ all_entries E l'.
Proof. intros H. unfold all_entries. by rewrite H. Qed.

(** The bundle that is committed: the merge of the entries, in some order of arrival. *)

Definition committed (files : list filePacked) (hasConflicts hasCheckpoints : bool) (d' : Diamond) (c' : Stores S) : Prop :=
  let dd' := d_DiamondDescriptor d' in
  objects (VMetadata c') = objects (VMetadata c) /\
  (exists bd, bundle_with (Metadata c') repo bid bd (packed env files)) /\
  (forall q, q <> GetArchivePathToBundle repo bid -> (forall k, q <> GetArchivePathToBundleFileList repo bid k) ->
     objects (Metadata c') !! q = objects (Metadata c) !! q) /\
  d_RepoID d' = repo /\ dd_DiamondID dd' = did /\ dd_BundleID dd' = bid /\ dd_Splits dd' ≡ₚ dones /\
  dd_Mode dd' = dd_Mode (d_DiamondDescriptor d) /\
  (hasConflicts || hasCheckpoints = true -> dd_HasConflicts dd' = hasConflicts /\ dd_HasCheckpoints dd' = hasCheckpoints).

Lemma with_flags_keeps dd hc hk :
  let dd' := with_flags dd hc hk in
  dd_DiamondID dd' = dd_DiamondID dd /\ dd_Splits dd' = dd_Splits dd /\ dd_Mode dd' = dd_Mode dd /\ dd_State dd' = dd_State dd /\
  (hc || hk = true -> dd_HasConflicts dd' = hc /\ dd_HasCheckpoints dd' = hk).
Proof. unfold with_flags. by destruct (hc || hk). Qed.

Lemma commit_bundle_outcome :
  exists batches, entries_of batches ≡ₚ all_entries E dones /\
    match mergeSplits (T := T) (dd_Mode (d_DiamondDescriptor d)) batches with
    | Ok (files, hasConflicts, hasCheckpoints) =>
        runs (commit_bundle (T := T) kv fuel NumCPU env d opts) c (committed files hasConflicts hasCheckpoints)
    | Err e => exists c', commit_bundle (T := T) kv fuel NumCPU env d opts c = (Err e, c') /\ same_docs c c'
    | Panic _ => False
    end.
Proof.
  destruct ready as [Hl [Hdid _] (Hne & Hnd & Hdin) [Hn Hent] wf [Hf Ho] (Hb0 & Hrand & Hbid & [Hfb Hfl] & Hdd)].
  destruct (collectSplits_runs env opts d c Hl) as (splits & c1 & Ec & [Hm1 Hv1] & Hsnd & Hsin).
  pose proof (collected_dones splits Hsnd Hsin) as Hp.
  set (d1 := set_bundle (setDescriptor d (with_splits (d_DiamondDescriptor d) splits))
    (descriptor_with_contributors (d_BundleDescriptor d) (mbind sd_Contributors splits))).
  set (d2 := set_bundle_ID d1 bid).
  destruct (merge_to_bundle_runs n env d2 splits E c1) as (x & c2 & Em & Hv2 & batches & Hbs & Hcase); try done.
  { by rewrite (splits_fuel_Permutation _ _ Hp). }
  { intros sd Hsd. rewrite Hp in Hsd. destruct (Hent sd Hsd) as [Hc Hdoc]. split; [done|]. intros k Hk.
    eapply document_objects; [by rewrite Hv1|by apply Hdoc]. }
  { eapply well_formed_Permutation; [symmetry; by apply all_entries_Permutation|done]. }
  { split; [by rewrite Hm1|]. intros i. rewrite Hm1. apply Hfl. }
  exists batches. split; [rewrite Hbs; by apply all_entries_Permutation|].
  assert (Hrun : commit_bundle (T := T) kv fuel NumCPU env d opts c =
    ('(count, err, dd) ← mret x; match err with
       | Some e => fail e
       | None =>
           let d := set_bundle (setDescriptor d2 dd) (descriptor_with_count (d_BundleDescriptor d2) count) in
           _ ← uploadBundleDescriptor (d_RepoID d) (d_BundleID d) (d_BundleDescriptor d);
           mret (setDescriptor d (with_bundle_ID (d_DiamondDescriptor d) (d_BundleID d)))
       end) c2).
  { unfold commit_bundle. rewrite (M_bind_step _ _ _ _ _ Ec). rewrite decide_False by (intros ->; by apply Permutation_nil_l in Hp).
    fold d1. rewrite decide_True by done. unfold mbind at 1, M_bind at 1. unfold mbind at 1, M_bind at 1, lift. rewrite Hrand.
    cbn [mret M_ret]. fold d2. rewrite (M_bind_step _ _ _ _ _ Em). destruct x as [[count err] dd]. done. }
  change (dd_Mode (d_DiamondDescriptor d2)) with (dd_Mode (d_DiamondDescriptor d)) in Hcase.
  destruct (mergeSplits (dd_Mode (d_DiamondDescriptor d)) batches) as [[[files hc] hk]|e|p] eqn:Emg; [| |done].
  - destruct Hcase as (Hx & Hdocs & Hframe). rewrite Hx in Hrun.
    set (d3 := set_bundle (setDescriptor d2 (with_flags (d_DiamondDescriptor d2) hc hk)) (descriptor_with_count (d_BundleDescriptor d2)
      (N.of_nat (nchunks defaultBundleEntriesPerFile (packed env files))))) in *.
    destruct (uploadBundleDescriptor_runs repo bid (d_BundleDescriptor d3) c2
      (fun _ c3 => committed files hc hk (setDescriptor d3 (with_bundle_ID (d_DiamondDescriptor d3) (d_BundleID d3))) c3)) as ([] & c3 & E3 & Hc3).
    + done.
    + rewrite Hframe; [by rewrite Hm1|]. intros j _. apply bundle_path_not_list.
    + intros s' Hd Hq. destruct (with_flags_keeps (d_DiamondDescriptor d2) hc hk) as (Hk1 & Hk2 & Hk3 & _ & Hk5).
      unfold committed. cbn [Metadata VMetadata SetMetadata]. split_and!; try done.
      * by rewrite Hv2.
      * exists (d_BundleDescriptor d3). split_and!; [done..|]. intros j Hj. eapply document_objects; [|by apply Hdocs].
        apply Hq. intros Heq. symmetry in Heq. by apply bundle_path_not_list in Heq.
      * intros q Hq1 Hq2. rewrite Hq by done. rewrite Hframe by (intros j _; apply Hq2). by rewrite Hm1.
      * cbn [d_DiamondDescriptor setDescriptor with_bundle_ID dd_Splits d3 set_bundle]. by rewrite Hk2.
    + exists (setDescriptor d3 (with_bundle_ID (d_DiamondDescriptor d3) (d_BundleID d3))), c3. split; [|exact Hc3].
      etrans; [exact Hrun|]. exact (M_bind_step _ (fun _ => mret _) _ _ _ E3).
  - destruct Hcase as (Hx & Hm2). rewrite Hx in Hrun. exists c2. split; [exact Hrun|]. split; congruence.
Qed.

End bundle.

(** The preconditions speak of the objects of the stores. *)

Lemma ready_same env opts d c c' n dones E bid :
  same_docs c c' -> ready_to_commit env opts d c n dones E bid -> ready_to_commit env opts d c' n dones E bid.
Proof.
  intros [Hm Hv] [[Hn1 Hr Hd [Ha Hdesc] Hpg Hl] (Hid & dd0 & [Hf Hi] & Hst) (Hne & Hnd & Hin) [Hn Hent] wf Hfuel Hb].
  assert (Hdoc : forall {A} `{Yaml A} p (a : A), document (VMetadata c') p a <-> document (VMetadata c) p a).
  { intros A HA p a. unfold document. by rewrite Hv. }
  split.
  - split; rewrite ?Hm, ?Hv; try done.
    + split; rewrite ?Hv; auto.
    + unfold splits_page. by rewrite Hv.
  - split; [done|]. exists dd0. split; [|done]. split; [by rewrite Hv|]. by apply Hdoc.
  - split_and!; [done..|]. intros sd. rewrite Hin. unfold done_split, shown_split. rewrite !Hdoc, Hv. done.
  - split; [done|]. intros sd [Hc Hk]%Hent. split; [done|]. intros k Hlt. by apply Hdoc, Hk.
  - done.
  - done.
  - destruct Hb as (H1 & H2 & H3 & [H4 H5] & H6). split_and!; [done..| |done]. by split; rewrite ?Hm.
Qed.

(** The last step of a commit. *)

Lemma implCommit_end_runs now (d : Diamond) (c : Stores S) (Q : Diamond -> Stores S -> Prop) :
  let dd := d_DiamondDescriptor d in let d' := Diamond_WithState DiamondDone now d in
  objects (VMetadata c) !! GetArchivePathToFinalDiamond (d_RepoID d) (dd_DiamondID dd) = None ->
  (forall s', document s' (GetArchivePathToFinalDiamond (d_RepoID d) (dd_DiamondID dd)) (d_DiamondDescriptor d') ->
     (forall q, q <> GetArchivePathToFinalDiamond (d_RepoID d) (dd_DiamondID dd) -> objects s' !! q = objects (VMetadata c) !! q) ->
     Q d' (SetVMetadata s' c)) ->
  runs (implCommit_end now None d) c Q.
Proof.
  intros dd d' Hn HQ. unfold implCommit_end. fold d'.
  assert (dd_State (d_DiamondDescriptor d') = DiamondDone /\ d_RepoID d' = d_RepoID d /\ dd_DiamondID (d_DiamondDescriptor d') = dd_DiamondID dd)
    as (Hst & Hr & Hid). { unfold d', Diamond_WithState. by case_decide. }
  destruct (Marshal_total (d_DiamondDescriptor d')) as [b Hb].
  apply runs_bind, runs_vmeta. unfold Diamond_uploadDescriptor. rewrite Hst, Hr, Hid, diamond_final_path by done.
  apply runs_bind. eapply runs_lift; [exact Hb|]. apply runs_putBuffer; [done|]. intros s' Ho. apply runs_ret, HQ.
  - exists b. rewrite Ho, lookup_insert_eq. split; [done|]. by apply Unmarshal_Marshal.
  - intros q Hq. by rewrite Ho, lookup_insert_ne.
Qed.

(** The checks at the head of a commit. *)

Lemma implCommit_head env opts (d : Diamond) c n dones E bid :
  ready_to_commit env opts d c n dones E bid ->
  exists c1, same_docs c c1 /\
    Commit (T := T) kv ksuid_Parse enableBundlePreserve fuel NumCPU env d opts c =
      (r ← attempt (commit_bundle (T := T) kv fuel NumCPU env d opts);
       match r with inr err => implCommit_end (ce_now env) (Some err) d | inl d' => implCommit_end (ce_now env) None d' end) c1.
Proof.
  intros [[_ Hrepo _ _ _ _] (Hid & dd0 & Hinit & Hst) _ _ _ _ (Hb & _)].
  destruct (reads_RepoExists (d_RepoID d) c Hrepo) as ([] & c1 & E1 & _ & Hs1).
  destruct (diamondReady_ok (ce_draw env) (d_RepoID d) (dd_DiamondID (d_DiamondDescriptor d)) c1 dd0 Hid) as (c2 & E2 & Hv2 & Hm2).
  - unfold repo_exists. by rewrite (same_meta _ _ Hs1).
  - destruct Hinit as [Hf Hi]. split; [by rewrite (same_vmeta _ _ Hs1)|]. eapply document_objects; [|exact Hi]. by rewrite (same_vmeta _ _ Hs1).
  - done.
  - exists c2. split; [split; [by rewrite Hm2, (same_meta _ _ Hs1)|by rewrite Hv2, (same_vmeta _ _ Hs1)]|].
    unfold Commit, implCommit. rewrite (M_bind_step _ _ _ _ _ E1).
    assert (checkBundleID ksuid_Parse enableBundlePreserve d c1 = (Ok d, c1)) as E3.
    { unfold checkBundleID. destruct enableBundlePreserve; [|done]. cbn [negb]. by rewrite decide_True. }
    rewrite (M_bind_step _ _ _ _ _ E3).
    erewrite M_bind_step; [reflexivity|]. unfold wrap_error. by rewrite E2.
Qed.

Lemma WithState_done now (d : Diamond) :
  let dd := d_DiamondDescriptor d in let dd' := d_DiamondDescriptor (Diamond_WithState DiamondDone now d) in
  dd_State dd' = DiamondDone /\ dd_BundleID dd' = dd_BundleID dd /\ dd_Splits dd' = dd_Splits dd.
Proof. unfold Diamond_WithState. by destruct (decide (DiamondDone = dd_State (d_DiamondDescriptor d))). Qed.

Lemma location_Permutation mode ins ins' f name : ins ≡ₚ ins' -> location mode ins f name -> location mode ins' f name.
Proof. intros Hp [H|(t & g & H & Hg)]; [by left|]. right. exists t, g. by rewrite <- Hp. Qed.

Lemma packed_elem env files e :
  e ∈ packed env files -> exists file, file ∈ files /\ NameWithPath e = fp_name file /\ Hash e = fp_hash file /\ be_Size e = fp_size file.
Proof.
  intros (x & -> & Hx)%list_elem_of_fmap. apply elem_of_lookup_imap in Hx as (i & file & -> & Hf).
  exists file. split; [by eapply list_elem_of_lookup_2|done].
Qed.

Lemma elem_packed env files file :
  file ∈ files -> exists e, e ∈ packed env files /\ NameWithPath e = fp_name file /\ Hash e = fp_hash file /\ be_Size e = fp_size file.
Proof.
  intros [i Hi]%list_elem_of_lookup_1. exists (entry_of (file, ce_times env i)). split; [|done].
  apply list_elem_of_fmap. eexists. split; [done|]. apply elem_of_lookup_imap. eauto.
Qed.

Lemma packed_names env files : NameWithPath <$> packed env files = fp_name <$> files.
Proof.
  unfold packed. rewrite <- list_fmap_compose, fmap_imap. rewrite <- (imap_const fp_name). by apply imap_ext.
Qed.

(** C9: With conflicts or checkpoints enabled, committing an open diamond with
    splits that are done creates a bundle and terminates the diamond: the
    bundle has the entries of all the splits, no version of any file is lost,
    it has no other file, and each name once; the final descriptor of the
    diamond names the bundle and the splits; no other object of the metadata
    stores changes. It holds for every order in which keys, descriptors and
    index files arrive. *)
Theorem Commit_correct env opts (d : Diamond) c n dones E bid :
  let repo := d_RepoID d in let did := dd_DiamondID (d_DiamondDescriptor d) in
  let mode := dd_Mode (d_DiamondDescriptor d) in let ins := all_entries E dones in
  ready_to_commit env opts d c n dones E bid -> mode = EnableConflicts \/ mode = EnableCheckpoints ->
  runs (Commit (T := T) kv ksuid_Parse enableBundlePreserve fuel NumCPU env d opts) c (fun _ c' =>
    exists bd entries dd',
      bundle_with (Metadata c') repo bid bd entries /\ final_diamond repo did c' dd' /\
      dd_State dd' = DiamondDone /\ dd_BundleID dd' = bid /\ dd_Splits dd' ≡ₚ dones /\
      NoDup (NameWithPath <$> entries) /\
      (forall s f, (s, f) ∈ ins ->
         (exists e, e ∈ entries /\ Hash e = Hash f /\ location mode ins f (NameWithPath e)) /\
         (exists e, e ∈ entries /\ NameWithPath e = NameWithPath f)) /\
      (forall e, e ∈ entries -> exists s f, (s, f) ∈ ins /\ Hash e = Hash f /\ be_Size e = be_Size f /\ location mode ins f (NameWithPath e)) /\
      (forall q, q <> GetArchivePathToBundle repo bid -> (forall k, q <> GetArchivePathToBundleFileList repo bid k) ->
         objects (Metadata c') !! q = objects (Metadata c) !! q) /\
      (forall q, q <> GetArchivePathToFinalDiamond repo did -> objects (VMetadata c') !! q = objects (VMetadata c) !! q)).
Proof.
  intros repo did mode ins Hready Hmode. destruct (implCommit_head env opts d c n dones E bid Hready) as (c1 & Hs1 & Hrun).
  pose proof (ready_same _ _ _ _ _ _ _ _ _ Hs1 Hready) as Hready1.
  destruct (commit_bundle_outcome env opts d c1 n dones E bid Hready1) as (batches & Hb & Hcase).
  assert (wf : well_formed (entries_of batches)).
  { eapply well_formed_Permutation; [symmetry; exact Hb|]. apply (rc_well_formed _ _ _ _ _ _ _ _ Hready). }
  destruct (mergeSplits_saves (T := T) mode batches Hmode wf) as (files & Em & _ & Hnd & Hkeep & Hname & Honly).
  fold mode in Hcase. rewrite Em in Hcase. destruct Hcase as (d2 & c2 & E2 & Hv2 & [bd Hbd] & Hframe & Hr2 & Hd2 & Hbid & Hsp & _).
  destruct (implCommit_end_runs (ce_now env) d2 c2) with (Q := fun (_ : Diamond) (c3 : Stores S) =>
    same_docs (SetVMetadata (VMetadata c3) c2) c3 /\ final_diamond repo did c3 (d_DiamondDescriptor (Diamond_WithState DiamondDone (ce_now env) d2)) /\
    forall q, q <> GetArchivePathToFinalDiamond repo did -> objects (VMetadata c3) !! q = objects (VMetadata c2) !! q)
    as (d3 & c3 & E3 & [Hm3 _] & Hfin & Hvf).
  { rewrite Hr2, Hd2, Hv2. destruct (rc_open _ _ _ _ _ _ _ _ Hready1) as (_ & dd0 & [Hf _] & _). exact Hf. }
  { intros s' Hdoc Hq. rewrite Hr2, Hd2 in Hdoc, Hq. done. }
  exists d3, c3. split; [rewrite Hrun; unfold mbind, M_bind, attempt; by rewrite E2, E3|].
  destruct Hs1 as [Hm1 Hv1]. cbn [Metadata SetVMetadata] in Hm3.
  exists bd, (packed env files), (d_DiamondDescriptor (Diamond_WithState DiamondDone (ce_now env) d2)).
  destruct (WithState_done (ce_now env) d2) as (Hw1 & Hw2 & Hw3). rewrite <- Hw2 in Hbid. rewrite <- Hw3 in Hsp.
  refine (conj _ (conj Hfin (conj Hw1 (conj Hbid (conj Hsp (conj _ (conj _ (conj _ (conj _ _))))))))).
  - destruct Hbd as (Hdoc & H2 & H3 & H4). split_and!; [by eapply document_objects; [rewrite Hm3|]|done|done|].
    intros j Hj. eapply document_objects; [by rewrite Hm3|by apply H4].
  - by rewrite packed_names.
  - intros s f Hin. unfold ins in Hin. rewrite <- Hb in Hin. split.
    + destruct (Hkeep s f Hin) as (p & Hp & Hh & Hl). destruct (elem_packed env files p Hp) as (e & He & Hn & He2 & _).
      exists e. rewrite He2, Hn. split_and!; [done..|]. by eapply location_Permutation.
    + destruct (Hname s f Hin) as (p & Hp & Hn). destruct (elem_packed env files p Hp) as (e & He & Hn2 & _). exists e. by rewrite Hn2.
  - intros e (p & Hp & Hn & Hh & Hz)%packed_elem. destruct (Honly p Hp) as (s & f & Hin & H1 & H2 & Hl).
    exists s, f. rewrite Hh, Hz, Hn. split; [unfold ins; by rewrite <- Hb|]. split_and!; [done..|]. by eapply location_Permutation.
  - intros q Hq1 Hq2. rewrite Hm3, Hframe by done. by rewrite Hm1.
  - intros q Hq. rewrite Hvf by done. by rewrite Hv2, Hv1.
Qed.

End correct.

(** ** A concrete commit *)

Section witness.

#[local] Existing Instance numbered_yaml.

#[local] Existing Instance numbered_yaml_laws.

Definition an_env : commit_env :=
  mkCommitEnv backwards Unnoticed (fun l => reverse l) 0 true (fun i => Z.of_nat i) (mkDraw "x" 1%Z) (Ok "b") 9%Z.

Definition dd_diamond : Diamond := NewDiamond (mkDraw "dd" 1%Z) "r" [].

Lemma s1_done sd : sd ∈ [a_split "s1" SplitDone] <-> done_split "r" "dd" (VMetadata split_stores) sd.
Proof.
  rewrite list_elem_of_singleton. unfold done_split, shown_split. split.
  - intros ->. split_and!; [done|vm_compute; eauto| |done]. left. eexists. split; [|apply numbered_Unmarshal]. vm_compute. reflexivity.
  - intros [(Hn & _ & [(b & Hb & Hu)|[_ (b & Hb & Hu)]]) Hst]; apply split_files_elem in Hb;
      pose proof split_files_ok as Hf; rewrite Forall_forall in Hf; apply Hf in Hb; unfold file_ok in Hb; cbn [fst snd] in Hb.
    + rewrite (parse_split_key any_ksuid "r" "dd" eq_refl eq_refl eq_refl _ true Hn) in Hb.
      destruct (proj1 Hb eq_refl) as [Hid ->]. cbn [apc_SplitID] in Hid. rewrite Hid, numbered_Unmarshal in Hu. by injection Hu as <-.
    + rewrite (parse_split_key any_ksuid "r" "dd" eq_refl eq_refl eq_refl _ false Hn) in Hb.
      rewrite (proj2 Hb eq_refl), numbered_Unmarshal in Hu. injection Hu as Hu. by rewrite <- Hu in Hst.
Qed.

Lemma dd_diamond_ready :
  ready_to_commit any_ksuid 5 1 an_env two_by_two dd_diamond split_stores 10 [a_split "s1" SplitDone] (fun _ => split_contents) "b".
Proof.
  split.
  - split; [done|vm_compute; eauto|vm_compute; eauto|apply split_stores_ok|apply split_pages|].
    split; [vm_compute; lia|done|done|intros l; apply reverse_Permutation|done].
  - split; [done|]. exists open_diamond. split; [split; [vm_compute; reflexivity|]|done].
    exists (put_positive (encode open_diamond)). split; [vm_compute; reflexivity|apply numbered_Unmarshal].
  - split; [done|]. split; [apply NoDup_singleton|apply s1_done].
  - split; [lia|]. intros sd ->%list_elem_of_singleton. split; [vm_compute; reflexivity|]. intros k Hk.
    assert (k = 0) as -> by (vm_compute in Hk; lia). exists (put_positive (encode split_contents)).
    split; [vm_compute; reflexivity|apply numbered_Unmarshal].
  - apply (well_formed_prefix _ [("s2", entry "h3" "a" 7%Z)]), two_splits_well_formed.
  - split; [vm_compute; lia|]. intros l. apply reverse_Permutation.
  - split_and!; [done..| |done]. split; [vm_compute; reflexivity|]. intros i. apply lookup_singleton_ne. by intros H.
Qed.

Lemma Commit_correct_witness :
  runs (Commit (T := gmap bytes) any_ksuid (fun id => Ok id) false 5 1 an_env dd_diamond two_by_two) split_stores (fun _ c' =>
    exists bd entries, bundle_with (Metadata c') "r" "b" bd entries /\
      forall f, f ∈ split_contents -> exists e, e ∈ entries /\ NameWithPath e = NameWithPath f).
Proof.
  eapply runs_mono; [apply (Commit_correct (T := gmap bytes) any_ksuid (fun id => Ok id) false 5 1 an_env two_by_two dd_diamond
    split_stores 10 [a_split "s1" SplitDone] (fun _ => split_contents) "b" dd_diamond_ready (or_introl eq_refl))|].
  intros _ c' (bd & entries & dd' & Hb & _ & _ & _ & _ & _ & Hin & _). exists bd, entries. split; [exact Hb|].
  intros f Hf. apply (Hin "s1" f). apply list_elem_of_bind. exists (a_split "s1" SplitDone).
  split; [|by apply list_elem_of_singleton]. by apply list_elem_of_fmap_2.
Defined.

End witness.

End CoreCommit.
