(* ===== verification/CoreSplit.v ===== *)
(** * The upload of the files of a split (pkg/core: split.go, split_options.go, index.go)

    A split puts its files in the content-addressable file system with the pool
    of goroutines of the upload of bundles. Its entries are packed in index files
    of the versioned metadata store, under an identifier drawn for each attempt,
    and its final descriptor is written last. *)

From S2P Require Import Prelude GoLib Errors Storage Model ModelPaths CafsKeys CafsFs CafsIface CoreMeta Pool StoreRules CoreIndex CoreRepo CoreListing CoreList CoreBundle CoreUpload CoreDiamond CoreListDiamonds CoreCommit.

Module CoreSplit.
Import Model Storage CoreMeta CoreStatus CafsKeys CafsIface Pool StoreRules CoreIndex CoreRepo CoreBundle CoreUpload CoreDiamond CoreListDiamonds.

(** ** The definitions *)

(** The fields of a Split that its upload reads, besides those of [Split]: the
    embedded bundle's and the iterator over keys. *)

Record splitSource : Type := mkSource {
  ss_consumable : bool;
  ss_context : bool;
  ss_SkipOnError : bool;
  ss_concurrentFileUploads : Z;
  ss_getKeys : option (res (list string));
  ss_filter : option (string -> bool)
}.

Definition defaultSource : splitSource := mkSource false true false 20 None None.

Definition SourceOption : Type := splitSource -> splitSource.

Definition SplitConsumableStore (store : bool) : SourceOption := fun s =>
  mkSource store (ss_context s) (ss_SkipOnError s) (ss_concurrentFileUploads s) (ss_getKeys s) (ss_filter s).

Definition SplitKeyFilter (f : option (string -> bool)) : SourceOption := fun s =>
  match f with
  | Some f => mkSource (ss_consumable s) (ss_context s) (ss_SkipOnError s) (ss_concurrentFileUploads s) (ss_getKeys s) (Some f)
  | None => s
  end.

Definition SplitSkipMissing (skip : bool) : SourceOption := fun s =>
  mkSource (ss_consumable s) (ss_context s) skip (ss_concurrentFileUploads s) (ss_getKeys s) (ss_filter s).

Definition SplitConcurrentFileUploads (concurrentFileUploads : Z) : SourceOption := fun s =>
  mkSource (ss_consumable s) (ss_context s) (ss_SkipOnError s) concurrentFileUploads (ss_getKeys s) (ss_filter s).

Definition SplitKeyIterator (iterator : option (res (list string))) : SourceOption := fun s =>
  match iterator with
  | Some r => mkSource (ss_consumable s) (ss_context s) (ss_SkipOnError s) (ss_concurrentFileUploads s) (Some r) (ss_filter s)
  | None => s
  end.

(** The embedded bundle. *)

Definition split_bundle (s : Split) (o : splitSource) : Bundle :=
  mkBundle (s_RepoID s) "" (ss_consumable o) (ss_context o) (s_BundleDescriptor s) [] (ss_SkipOnError o) false
    (ss_concurrentFileUploads o) 10 10 true false.

Definition with_generation (id : string) (s : Split) : Split :=
  let sd := s_SplitDescriptor s in
  setSplitDescriptor s (mkSplitDescriptor (sd_SplitID sd) (sd_StartTime sd) (sd_EndTime sd) (sd_State sd) (sd_Contributors sd)
    id (sd_SplitEntriesFileCount sd) (sd_Tag sd)).

Definition with_file_count (count : N) (s : Split) : Split :=
  mkSplit (s_RepoID s) (descriptor_with_count (s_BundleDescriptor s) count) (s_SplitDescriptor s) (s_DiamondID s) (s_mustExist s).

Definition splitOptions (s : Split) (o : splitSource) : list CafsFs.Option :=
  let bd := s_BundleDescriptor s in
  [CafsFs.LeafSize (bd_LeafSize bd);
   CafsFs.ConcurrentFlushes (ss_concurrentFileUploads o `quot` fileUploadsPerFlush);
   CafsFs.LeafTruncation (bd_Version bd <? 1)%N].

Section upload.
Context {S C F : Type} `{HS : !Store S, HC : !Store C, HF : !Cafs S F}.
Context {HYS : Yaml SplitDescriptor} {HYE : Yaml (list BundleEntry)}.

Definition split_getKeys (b : Bundle) (o : splitSource) : M (world S C) (list string) :=
  match ss_getKeys o with
  | Some r => lift (filtered_keys (ss_filter o) r)
  | None => keys ← consumableStore b Keys; lift (filtered_keys (ss_filter o) (Ok keys))
  end.

(** The state of an upload, with the iterator over the paths of index files and
    the number of them that pack has written. *)

Record splitting : Type := mkSplitting {
  sp_up : uploading S C F;
  sp_pather : indexIterator;
  sp_count : N
}.

Definition open_split_file (b : Bundle) (task : nat * string) : M splitting (option (nat * string * bytes)) := fun u =>
  let '(r, up) := openFile b task (sp_up u) in (r, mkSplitting up (sp_pather u) (sp_count u)).

(** The upload of an index file at the next path. *)

Definition next_index (outer : patherIterator) (fileList : list BundleEntry) : M splitting unit := fun u =>
  let '(pth, it) := index_Next outer (sp_pather u) in
  let up := sp_up u in
  let '(r, w) := contextStores (up_bundle up) (p ← lift pth; GetDiamondStore (uploadIndex fileList p)) (up_world up) in
  let up' l := mkUploading w (up_fs up) (up_bundle up) l in
  match r with
  | Ok _ => (Ok tt, mkSplitting (up' []) it (sp_count u + 1))
  | Err e => (Err e, mkSplitting (up' fileList) it (sp_count u))
  | Panic p => (Panic p, mkSplitting (up' fileList) it (sp_count u))
  end.

(** The reception of an uploaded file by pack, at the time [now]. *)

Definition pack_file (entriesPerFile : nat) (outer : patherIterator) (f : filePacked) (now : Time.Time) : M splitting unit := fun u =>
  let up := sp_up u in
  let fileList := up_fileList up ++ [entry_of (f, now)] in
  if decide (length fileList = entriesPerFile) then next_index outer fileList u
  else (Ok tt, mkSplitting (mkUploading (up_world up) (up_fs up) (up_bundle up) fileList) (sp_pather u) (sp_count u)).

(** A goroutine and the reception of what it sends. *)

Definition upload_split_file (entriesPerFile : nat) (outer : patherIterator) (x : fs_run * Time.Time) (job : nat * string * bytes) (u : splitting)
    : option (res unit * splitting) :=
  let '(fileIdx, file, content) := job in
  let up := sp_up u in
  match fs_Put x.1 content (up_fs up) with
  | None => None
  | Some (r, f) =>
      let u' := mkSplitting (mkUploading (up_world up) f (up_bundle up) (up_fileList up)) (sp_pather u) (sp_count u) in
      match r with
      | Ok putRes => Some (pack_file entriesPerFile outer (CoreUpload.packed putRes file fileIdx) x.2 u')
      | Err e => Some (Err e, u')
      | Panic p => Some (Panic p, u')
      end
  end.

(** The end of pack: the last index file. *)

Definition pack_last (outer : patherIterator) : M splitting N := fun u =>
  if decide (length (up_fileList (sp_up u)) <> 0) then
    match next_index outer (up_fileList (sp_up u)) u with
    | (Ok _, u') => (Ok (sp_count u'), u')
    | (Err e, u') => (Err e, u')
    | (Panic p, u') => (Panic p, u')
    end
  else (Ok (sp_count u), u).

(** uploadBundleFiles and pack, until the done signal. *)

Definition pack_files (entriesPerFile : nat) (indexPather : patherIterator) (es : list (event (fs_run * Time.Time))) (b : Bundle) (files : list string)
    (up : uploading S C F) : option (res N * uploading S C F) :=
  match pather_Next indexPather with
  | (None, _) => Some (Ok 0%N, up)
  | (Some (_, uploadPather), outer) =>
      if (b_concurrentFileUploads b <? 0)%Z then Some (Panic "makechan: size out of range", up)
      else match pool_run (Z.to_nat (b_concurrentFileUploads b)) (open_split_file b) (upload_split_file entriesPerFile outer) es (imap pair files) []
                   (mkSplitting up uploadPather 0) with
           | None => None
           | Some (Ok _, u) => let '(r, u') := pack_last outer u in Some (r, sp_up u')
           | Some (Err e, u) => Some (Err e, sp_up u)
           | Some (Panic p, u) => Some (Panic p, sp_up u)
           end
  end.

(** The part before the goroutines are started: [generationID] is a random ksuid. *)

Definition split_start (generationID : res string) (s : Split) (o : splitSource) : M (world S C) (list string * CafsFs.defaultFs * Split) :=
  let sd := s_SplitDescriptor s in
  if decide (sd_SplitID sd = "" \/ s_DiamondID s = "") then fail (ErrMsg "invalid split descriptor: requires diamond and split ID to be set")
  else if decide (sd_State sd = SplitDone) then fail ErrSplitAlreadyDone
  else
    id ← lift (match generationID with Ok id => Ok id | Err _ => Panic "cannot generate random ksuid" | Panic p => Panic p end);
    let s' := with_generation id s in
    cafsArchive ← lift (CafsFs.New (splitOptions s' o));
    files ← split_getKeys (split_bundle s' o) o;
    mret (files, cafsArchive, s').

(** [None]: the events are not a complete execution; [now]: the time at which the
    split is done. *)

Definition Split_implUpload (entriesPerFile : nat) (generationID : res string) (now : Time.Time) (es : list (event (fs_run * Time.Time)))
    (s : Split) (o : splitSource) : R (world S C) Split := fun w =>
  match split_start generationID s o w with
  | (Err e, w1) => Some (Err e, w1)
  | (Panic p, w1) => Some (Panic p, w1)
  | (Ok (files, d, s1), w1) =>
      let b := split_bundle s1 o in
      match pack_files entriesPerFile (newUploadSplitIterator (s_RepoID s1) (s_DiamondID s1) (s_SplitDescriptor s1)) es b files
              (mkUploading w1 (fs_open d (Blob (w_stores w1))) b []) with
      | None => None
      | Some (r, up) =>
          match r with
          | Err e => Some (Err e, closed up)
          | Panic p => Some (Panic p, closed up)
          | Ok count => Some (contextStores b (GetSplitStore (Split_uploadDescriptor (Split_WithState SplitDone now (with_file_count count s1)))) (closed up))
          end
      end
  end.

Definition Split_Upload := Split_implUpload defaultBundleEntriesPerFile.

End upload.

Arguments splitting : clear implicits.

(** ** The upload *)

Section facts.
Context {S C F : Type} `{HS : !Store S, HSL : !StoreLaws S, HR : !ReliableStore S}.
Context `{HC : !Store C, HCL : !StoreLaws C, HCR : !ReliableStore C}.
Context `{HF : !Cafs S F, HFL : !CafsLaws S F}.
Context {HYS : Yaml SplitDescriptor} {HYSL : YamlLaws SplitDescriptor}.
Context {HYE : Yaml (list BundleEntry)} {HYEL : YamlLaws (list BundleEntry)}.

Section run.
Variables (n : nat) (b0 : Bundle) (w0 : world S C) (d : CafsFs.defaultFs) (files : list string).
Variables (outer : patherIterator) (p : pather) (path : nat -> string).
Hypothesis n_pos : 0 < n.
Hypothesis b0_context : b_context b0 = true.
Hypothesis b0_consumable : b_consumable b0 = true.
Hypothesis p_path : forall i, p outer (N.of_nat i) = Ok (path i).
Hypothesis path_inj : forall i j, path i = path j -> i = j.

Abbreviation con := (objects (w_consumable w0)).
Abbreviation L := (CafsFs.leafSize d).
Abbreviation c0 := (w_stores w0).

Hypothesis contents_ok : forall k c, con !! k = Some c -> IsGeneratedFile k = false -> fs_contents L c.

(** The entries [es] are in the index files or wait for the next one. *)

Definition packing (u : splitting S C F) (es : list BundleEntry) : Prop :=
  sliced n path (VMetadata c0) (VMetadata (w_stores (up_world (sp_up u)))) (up_fileList (sp_up u)) es /\
  w_stores (up_world (sp_up u)) = SetVMetadata (VMetadata (w_stores (up_world (sp_up u)))) c0 /\
  sp_pather u = uploadIndexIterator (N.of_nat (length es / n)) p /\ sp_count u = N.of_nat (length es / n) /\ up_bundle (sp_up u) = b0.

Definition splitting_ok (todo : list (nat * string)) (running : list (nat * string * bytes)) (u : splitting S C F) : Prop :=
  exists es, packing u es /\
    objects (w_consumable (up_world (sp_up u))) = con /\ fs_ok (up_fs (sp_up u)) /\ fs_conf (up_fs (sp_up u)) = d /\
    Forall (archived L con (fs_backend (up_fs (sp_up u)))) es /\
    (forall L' k c, holds L' (Blob c0) k c -> holds L' (fs_backend (up_fs (sp_up u))) k c) /\
    Forall (job_ok w0 d) running /\ Forall (uploadable b0 con) todo.*2 /\
    (NameWithPath <$> es) ++ (job_name <$> running) ++ uploaded con todo.*2 ≡ₚ uploaded con files.

Lemma open_split_file_ok t todo running u : splitting_ok (t :: todo) running u ->
  exists o u', open_split_file b0 t u = (Ok o, u') /\ splitting_ok todo (running ++ option_list o) u'.
Proof.
  destruct t as [i k]. intros (es & Hpk & Hcon & Hfs & Hcf & Har & Hh & Hrun & Htodo & Hperm).
  cbn [fmap list_fmap snd] in Htodo, Hperm. apply Forall_cons in Htodo as [Hk Htodo]. rewrite uploaded_cons in Hperm.
  destruct (openFile_runs b0 i k (sp_up u) b0_consumable) as (o & u' & E & c' & Hc' & -> & Ho); [by rewrite Hcon|]. exists o.
  unfold open_split_file. rewrite E. eexists. split; [done|].
  rewrite Hcon in Hc', Ho. exists es. cbn [sp_up up_world up_fs up_bundle up_fileList w_stores w_consumable].
  refine (conj Hpk (conj Hc' (conj Hfs (conj Hcf (conj Har (conj Hh (conj _ (conj Htodo _)))))))); destruct o as [j|]; cbn [option_list].
  - destruct Ho as (c & -> & Hc & Hg). apply Forall_app. split; [done|]. apply Forall_singleton. split; [done|]. by eapply contents_ok.
  - by rewrite app_nil_r.
  - destruct Ho as (c & -> & Hc & Hg). rewrite <- Hperm, fmap_app, <- app_assoc. unfold uploaded at 2. rewrite filter_cons, filter_nil, decide_True by (split; [done|by eexists]). done.
  - rewrite Ho in Hperm. by rewrite app_nil_r.
Qed.

Lemma next_index_ok fileList q (u : splitting S C F) : up_bundle (sp_up u) = b0 -> sp_pather u = uploadIndexIterator (N.of_nat q) p -> sp_count u = N.of_nat q ->
  objects (VMetadata (w_stores (up_world (sp_up u)))) !! path q = None ->
  exists s', next_index outer fileList u = (Ok tt, mkSplitting (mkUploading (mkWorld (SetVMetadata s' (w_stores (up_world (sp_up u)))) (w_consumable (up_world (sp_up u))))
    (up_fs (sp_up u)) b0 []) (uploadIndexIterator (N.of_nat (q + 1)) p) (N.of_nat (q + 1))) /\
    index_added path q fileList (VMetadata (w_stores (up_world (sp_up u)))) s'.
Proof.
  intros Hb Hp Hc Hfree. destruct (write_document_ok (path q) fileList (VMetadata (w_stores (up_world (sp_up u)))) Hfree) as (s' & E & Hd & Hq).
  exists s'. split; [|done]. unfold next_index. rewrite Hp, Hc, Hb. cbn [index_Next]. rewrite p_path. unfold contextStores. rewrite b0_context.
  unfold GetDiamondStore, getVMetaStore, lift, mbind, M_bind. change (uploadIndex (S := S) fileList (path q)) with (write_document (S := S) (path q) fileList). rewrite E.
  do 3 f_equal; [f_equal; lia|lia].
Qed.

Lemma pack_file_ok f now u es : packing u es ->
  exists u', pack_file n outer f now u = (Ok tt, u') /\ packing u' (es ++ [entry_of (f, now)]) /\
    w_consumable (up_world (sp_up u')) = w_consumable (up_world (sp_up u)) /\ up_fs (sp_up u') = up_fs (sp_up u).
Proof.
  intros (Hs & Hw & Hp & Hc & Hb). pose proof (sliced_add n path (VMetadata c0) n_pos path_inj _ _ _ (entry_of (f, now)) Hs) as Hadd.
  unfold pack_file. case_decide; destruct Hadd as [Hq Hadd].
  - destruct (next_index_ok (up_fileList (sp_up u) ++ [entry_of (f, now)]) _ u Hb Hp Hc (sliced_free _ _ _ _ _ _ Hs)) as (s' & E & Ha).
    rewrite E. eexists. split; [done|]. unfold packing. cbn [sp_up sp_pather sp_count up_world up_fs up_bundle up_fileList w_stores w_consumable]. rewrite Hq.
    split_and!; try done; [by apply Hadd|by rewrite Hw].
  - eexists. split; [done|]. unfold packing. cbn [sp_up sp_pather sp_count up_world up_fs up_bundle up_fileList w_stores w_consumable]. by rewrite Hq.
Qed.

Lemma upload_split_file_ok todo run1 j run2 u x r u' :
  splitting_ok todo (run1 ++ j :: run2) u -> upload_split_file n outer x j u = Some (r, u') ->
  r = Ok tt /\ splitting_ok todo (run1 ++ run2) u'.
Proof.
  destruct j as [[i k] c]. intros (es & Hpk & Hcon & Hfs & Hcf & Har & Hh & Hrun & Htodo & Hperm) H.
  apply Forall_app in Hrun as [Hrun1 Hrun2]. apply Forall_cons in Hrun2 as [[Hk Hc] Hrun2]. cbn [fst snd job_name] in Hk, Hc.
  unfold upload_split_file in H. destruct (fs_Put x.1 c (up_fs (sp_up u))) as [[r1 f1]|] eqn:E; [|done].
  rewrite <- Hcf in Hc. destruct (fs_Put_ok x.1 c (up_fs (sp_up u)) r1 f1 Hfs Hc E) as (pr & -> & Hw & Hhold & Hcf1 & Hfs1 & Hmono).
  rewrite Hcf in Hhold, Hcf1.
  destruct (pack_file_ok (CoreUpload.packed pr k i) x.2 (mkSplitting (mkUploading (up_world (sp_up u)) f1 (up_bundle (sp_up u)) (up_fileList (sp_up u))) (sp_pather u) (sp_count u)) es Hpk)
    as (u2 & Er & Hpk2 & Hc2 & Hf2). rewrite Er in H. injection H as <- <-. split; [done|].
  cbn [sp_up up_fs up_world] in Hc2, Hf2. exists (es ++ [entry_of (CoreUpload.packed pr k i, x.2)]). rewrite Hf2, Hc2.
  refine (conj Hpk2 (conj Hcon (conj Hfs1 (conj Hcf1 (conj _ (conj _ (conj _ (conj Htodo _)))))))).
  - apply Forall_app. split; [by eapply archived_mono|]. apply Forall_singleton. exists (CafsFs.pr_Key pr), c. cbn. by rewrite Hw.
  - auto.
  - by apply Forall_app.
  - rewrite <- Hperm. rewrite !fmap_app, fmap_cons. cbn. solve_Permutation.
Qed.

Lemma upload_split_file_live todo run1 j run2 u :
  splitting_ok todo (run1 ++ j :: run2) u -> exists x r u', upload_split_file n outer x j u = Some (r, u').
Proof.
  destruct j as [[i k] c]. intros (es & _ & _ & Hfs & Hcf & _ & _ & Hrun & _).
  apply Forall_app in Hrun as [_ Hrun2]. apply Forall_cons in Hrun2 as [[_ Hc] _]. cbn [fst snd] in Hc. rewrite <- Hcf in Hc.
  destruct (fs_Put_live c (up_fs (sp_up u)) Hfs Hc) as (x & r & f & E). exists (x, Time.zero). unfold upload_split_file. cbn [fst snd]. rewrite E.
  destruct r; [|eauto..]. destruct (pack_file n outer _ _ _) as [r u']. eauto.
Qed.

Lemma pack_last_ok u es : packing u es ->
  exists u' s', pack_last outer u = (Ok (N.of_nat (nchunks n es)), u') /\ sliced_all n path (VMetadata c0) s' es /\
    up_world (sp_up u') = mkWorld (SetVMetadata s' c0) (w_consumable (up_world (sp_up u))) /\ up_fs (sp_up u') = up_fs (sp_up u).
Proof.
  intros (Hs & Hw & Hp & Hc & Hb). pose proof (sliced_end n path (VMetadata c0) n_pos path_inj _ _ _ Hs) as Hend.
  unfold pack_last. case_decide; destruct Hend as [Hq Hend]; rewrite Hq.
  - destruct (next_index_ok (up_fileList (sp_up u)) _ u Hb Hp Hc (sliced_free _ _ _ _ _ _ Hs)) as (s' & E & Ha).
    rewrite E. eexists _, s'. split; [done|]. split; [by apply Hend|]. split; [by rewrite Hw|done].
  - exists u, (VMetadata (w_stores (up_world (sp_up u)))). rewrite Hc. split_and!; try done. rewrite <- Hw. by destruct (up_world (sp_up u)).
Qed.

Lemma splitting_start : CafsFs.f_prefix d = "" -> (32 * 1024 <= CafsFs.f_leafSize d < 2 ^ 32)%Z -> blobs_ok (Blob c0) ->
  (forall j, objects (VMetadata c0) !! path j = None) -> Forall (uploadable b0 con) files ->
  splitting_ok (imap pair files) [] (mkSplitting (mkUploading w0 (fs_open d (Blob c0)) b0 []) (newUploadIndexIterator p) 0).
Proof.
  intros Hp HL Hb Hfree Hup. exists []. unfold packing. cbn [sp_up sp_pather sp_count up_world up_fs up_bundle up_fileList length]. rewrite Nat.Div0.div_0_l, fs_open_conf, fs_open_backend, imap_pair_snd.
  split_and!; try done; [by apply sliced_start|by destruct c0|by apply fs_open_ok].
Qed.

End run.

(** ** The theorem *)

Definition finished_split (s : Split) (g : string) (now : Time.Time) (count : N) : SplitDescriptor :=
  let sd := s_SplitDescriptor s in
  mkSplitDescriptor (sd_SplitID sd) (sd_StartTime sd) now SplitDone (sd_Contributors sd) g count (sd_Tag sd).

Definition split_files (o : splitSource) (keys : list string) : list string :=
  match ss_filter o with Some f => filter (fun k => f k = true) keys | None => keys end.

(** What an upload needs, for the identifier [g] and the keys [keys]. *)

Definition split_ready (s : Split) (o : splitSource) (g : string) (keys : list string) (w : world S C) : Prop :=
  let sd := s_SplitDescriptor s in let L := bd_LeafSize (s_BundleDescriptor s) in
  ss_context o = true /\ ss_consumable o = true /\ (0 < ss_concurrentFileUploads o)%Z /\
  split_named (sd_SplitID sd) /\ s_DiamondID s <> "" /\ sd_State sd <> SplitDone /\
  (32 * 1024 <= L <= CafsFs.MaxLeafSize)%Z /\ blobs_ok (Blob (w_stores w)) /\
  (forall k c, objects (w_consumable w) !! k = Some c -> IsGeneratedFile k = false -> fs_contents (Z.to_nat L) c) /\
  (ss_getKeys o = Some (Ok keys) \/ ss_getKeys o = None /\ (Keys (w_consumable w)).1 = Ok keys) /\
  Forall (fun k => IsGeneratedFile k = true \/ ss_SkipOnError o = true \/ is_Some (objects (w_consumable w) !! k)) (split_files o keys) /\
  (forall i, objects (VMetadata (w_stores w)) !! GetArchivePathToSplitFileList (s_RepoID s) (s_DiamondID s) (sd_SplitID sd) g i = None) /\
  objects (VMetadata (w_stores w)) !! GetArchivePathToFinalSplit (s_RepoID s) (s_DiamondID s) (sd_SplitID sd) = None /\
  is_Some (objects (VMetadata (w_stores w)) !! GetArchivePathToInitialSplit (s_RepoID s) (s_DiamondID s) (sd_SplitID sd)).

Lemma New_splitOptions (s : Split) (o : splitSource) : (32 * 1024 <= bd_LeafSize (s_BundleDescriptor s) <= CafsFs.MaxLeafSize)%Z ->
  exists d, CafsFs.New (splitOptions s o) = Ok d /\ CafsFs.f_leafSize d = bd_LeafSize (s_BundleDescriptor s) /\ CafsFs.f_prefix d = "".
Proof.
  intros HL. unfold CafsFs.New. cbn [splitOptions fold_left]. eexists. rewrite !(proj2 (Z.ltb_ge _ _)), !(proj2 (Z.leb_gt _ _)).
  - split; [reflexivity|]. done.
  - done.
  - cbn. unfold CafsFs.BytesToBuffers. apply Z.div_str_pos. unfold CafsFs.MaxLeafSize, CafsFs.DefaultCacheSize, CafsFs.MiB in *. lia.
  - cbn. unfold KeySize. lia.
  - cbn. lia.
Qed.

Lemma split_start_runs s o g keys (w : world S C) : split_ready s o g keys w ->
  runs (split_start (Ok g) s o) w (fun '(files, d, s') w' => files = split_files o keys /\ s' = with_generation g s /\
    CafsFs.f_leafSize d = bd_LeafSize (s_BundleDescriptor s) /\ CafsFs.f_prefix d = "" /\
    w_stores w' = w_stores w /\ objects (w_consumable w') = objects (w_consumable w)).
Proof.
  intros (Hctx & Hcon & _ & [_ Hid] & Hdid & Hst & HL & _ & _ & Hk & _). unfold split_start. rewrite decide_False by (intros [?|?]; done). rewrite decide_False by done.
  destruct (New_splitOptions (with_generation g s) o HL) as (d & Ed & Hls & Hp).
  apply runs_bind. eapply runs_lift; [done|]. apply runs_bind. eapply runs_lift; [exact Ed|]. apply runs_bind.
  assert (Hf : filtered_keys (ss_filter o) (Ok keys) = Ok (split_files o keys)) by (unfold filtered_keys, split_files; by destruct (ss_filter o)).
  assert (Hkeys : runs (split_getKeys (split_bundle (with_generation g s) o) o) w (fun files w' => files = split_files o keys /\
    w_stores w' = w_stores w /\ objects (w_consumable w') = objects (w_consumable w))).
  { unfold split_getKeys. destruct Hk as [->|[-> Hk]]; [by eapply runs_lift|]. apply runs_bind, runs_consumable; [done|].
    destruct (Keys (w_consumable w)) as [r c'] eqn:E. cbn in Hk. subst r. eapply runs_eq; [exact E|]. eapply runs_lift; [exact Hf|].
    by apply Keys_spec in E as [? _]. }
  eapply runs_mono; [exact Hkeys|]. intros files w' (-> & Hw & Ho). by apply runs_ret.
Qed.

Lemma split_list_inj repo did sid g i j : GetArchivePathToSplitFileList repo did sid g i = GetArchivePathToSplitFileList repo did sid g j -> i = j.
Proof. unfold GetArchivePathToSplitFileList. intros H. repeat apply Strings.string_app_inv_head in H. by apply FormatUint_yaml_inj. Qed.

Lemma split_path_not_list repo did sid g i : GetArchivePathToFinalSplit repo did sid <> GetArchivePathToSplitFileList repo did sid g i.
Proof.
  unfold GetArchivePathToFinalSplit, GetArchivePathToSplitFileList. intros H. do 9 apply Strings.string_app_inv_head in H.
  apply (f_equal (Strings.contains_char Strings.slash)) in H. rewrite !Strings.contains_char_app in H. cbn in H. by rewrite orb_true_r in H.
Qed.

Lemma split_initial_not_list repo did sid g i : GetArchivePathToInitialSplit repo did sid <> GetArchivePathToSplitFileList repo did sid g i.
Proof.
  unfold GetArchivePathToInitialSplit, GetArchivePathToSplitFileList. intros H. do 9 apply Strings.string_app_inv_head in H.
  apply (f_equal (Strings.contains_char Strings.slash)) in H. rewrite !Strings.contains_char_app in H. cbn in H. by rewrite orb_true_r in H.
Qed.

Lemma split_final_not_initial repo did sid : GetArchivePathToFinalSplit repo did sid <> GetArchivePathToInitialSplit repo did sid.
Proof. unfold GetArchivePathToFinalSplit, GetArchivePathToInitialSplit. intros H. by do 9 apply Strings.string_app_inv_head in H. Qed.

(** The objects of a split are in its directory. *)

Definition of_split (repo did id q : string) : Prop := exists x, q = CoreListing.directory (GetArchivePathPrefixToSplits repo did) id +:+ x.

Lemma of_split_inj repo did id id' q : split_named id -> split_named id' -> of_split repo did id q -> of_split repo did id' q -> id = id'.
Proof. intros [Hn _] [Hn' _] [x ->] [y H]. by eapply CoreListing.directory_inj. Qed.

Lemma split_paths_of repo did id : of_split repo did id (GetArchivePathToFinalSplit repo did id) /\ of_split repo did id (GetArchivePathToInitialSplit repo did id) /\
  forall g i, of_split repo did id (GetArchivePathToSplitFileList repo did id g i).
Proof.
  unfold of_split, CoreListing.directory, GetArchivePathPrefixToSplits, GetArchivePathToFinalSplit, GetArchivePathToInitialSplit, GetArchivePathToSplitFileList.
  split_and!; intros; [exists splitFinalDescriptorFile|exists splitInitialDescriptorFile|exists (g +:+ "/" +:+ bundleFilesIndexPrefix +:+ Strconv.FormatUint i +:+ ".yaml")];
    by rewrite !Strings.string_app_assoc.
Qed.

(** The store [s'] is [s] with the final descriptor and index files of a split. *)

Definition split_added (repo did sid g : string) (sd : SplitDescriptor) (m : nat) (s s' : S) : Prop :=
  document s' (GetArchivePathToFinalSplit repo did sid) sd /\
  forall q, q <> GetArchivePathToFinalSplit repo did sid -> (forall j, j < m -> q <> GetArchivePathToSplitFileList repo did sid g (N.of_nat j)) ->
    objects s' !! q = objects s !! q.

Lemma split_added_other repo did sid g sd m s s' id q : split_added repo did sid g sd m s s' -> split_named sid -> split_named id -> id <> sid -> of_split repo did id q ->
  objects s' !! q = objects s !! q.
Proof.
  intros [_ Hf] Hs Hi Hne Hq. destruct (split_paths_of repo did sid) as (H1 & _ & H3). apply Hf; [|intros i _]; intros ->; apply Hne; by eapply of_split_inj.
Qed.

Lemma split_added_ok repo did sid g sd m s s' : split_added repo did sid g sd m s s' -> split_named sid -> Strings.no_slash g -> sd_SplitID sd = sid ->
  splits_ok repo did s -> splits_ok repo did s'.
Proof.
  intros Ha Hs Hg Hid [Harea Hdesc]. pose proof Ha as [Hd Hf]. split.
  - intros k Hk Hp. destruct (decide (k = GetArchivePathToFinalSplit repo did sid)) as [->|Hne]; [exists sid; by auto|].
    destruct (decide (k ∈ (fun j => GetArchivePathToSplitFileList repo did sid g (N.of_nat j)) <$> seq 0 m)) as [(j & -> & _)%list_elem_of_fmap|Hni]; [exists sid; eauto 10|].
    apply Harea; [|done]. rewrite <- Hf; [done|done|]. intros j Hj ->. apply Hni. apply list_elem_of_fmap. exists j. split; [done|]. apply elem_of_seq. lia.
  - intros id b Hn Hb. destruct (decide (id = sid)) as [->|Hne].
    + destruct Hb as [Hb|Hb]; [destruct Hd as (b' & Hb' & Hu); exists sd; split; [congruence|done]|].
      apply Hdesc; [done|]. right. rewrite <- Hb. symmetry. apply Hf; [apply not_eq_sym, split_final_not_initial|]. intros i _. apply split_initial_not_list.
    + destruct (split_paths_of repo did id) as (H1 & H2 & _).
      apply Hdesc; [done|]. by rewrite <- !(split_added_other repo did sid g sd m s s' id) by done.
Qed.

(** What an upload leaves behind. *)

Definition split_post (s : Split) (o : splitSource) (g : string) (keys : list string) (now : Time.Time) (w : world S C) (s' : Split) (w' : world S C) : Prop :=
  let repo := s_RepoID s in let did := s_DiamondID s in let sid := sd_SplitID (s_SplitDescriptor s) in
  exists entries, let sd' := finished_split s g now (N.of_nat (nchunks defaultBundleEntriesPerFile entries)) in
    s_SplitDescriptor s' = sd' /\ CoreCommit.done_split repo did (VMetadata (w_stores w')) sd' /\
    CoreCommit.split_entries defaultBundleEntriesPerFile repo did (VMetadata (w_stores w')) sd' entries /\
    (forall sd, sd_SplitID sd <> sid -> CoreCommit.done_split repo did (VMetadata (w_stores w')) sd <-> CoreCommit.done_split repo did (VMetadata (w_stores w)) sd) /\
    (Strings.no_slash g -> splits_ok repo did (VMetadata (w_stores w)) -> splits_ok repo did (VMetadata (w_stores w'))) /\
    NameWithPath <$> entries ≡ₚ uploaded (objects (w_consumable w)) (split_files o keys) /\
    Forall (archived (Z.to_nat (bd_LeafSize (s_BundleDescriptor s))) (objects (w_consumable w)) (Blob (w_stores w'))) entries /\
    (forall q, q <> GetArchivePathToFinalSplit repo did sid -> (forall i, q <> GetArchivePathToSplitFileList repo did sid g i) ->
       objects (VMetadata (w_stores w')) !! q = objects (VMetadata (w_stores w)) !! q) /\
    objects (Metadata (w_stores w')) = objects (Metadata (w_stores w)) /\ objects (w_consumable w') = objects (w_consumable w) /\
    blobs_ok (Blob (w_stores w')) /\ (forall L k c, holds L (Blob (w_stores w)) k c -> holds L (Blob (w_stores w')) k c).

Lemma done_descriptor s g now count : sd_State (s_SplitDescriptor s) <> SplitDone ->
  let s2 := synced (Split_WithState SplitDone now (with_file_count count (with_generation g s))) in
  s_SplitDescriptor s2 = finished_split s g now count /\ s_RepoID s2 = s_RepoID s /\ s_DiamondID s2 = s_DiamondID s.
Proof. intros Hst. unfold Split_WithState. cbn. rewrite decide_False by (intros [? _]; congruence). done. Qed.

Lemma Split_uploadDescriptor_ok s g now count (c : S) : sd_State (s_SplitDescriptor s) <> SplitDone ->
  let final := GetArchivePathToFinalSplit (s_RepoID s) (s_DiamondID s) (sd_SplitID (s_SplitDescriptor s)) in
  objects c !! final = None ->
  exists s' c', Split_uploadDescriptor (Split_WithState SplitDone now (with_file_count count (with_generation g s))) c = (Ok s', c') /\
    s_SplitDescriptor s' = finished_split s g now count /\ document c' final (finished_split s g now count) /\ forall q, q <> final -> objects c' !! q = objects c !! q.
Proof.
  intros Hst final Hfree. destruct (done_descriptor s g now count Hst) as (Hd & Hr & Hdi). destruct (write_document_ok final (finished_split s g now count) c Hfree) as (c' & E & Hdoc & Hq).
  eexists _, c'. split_and!; [|exact Hd|done|done]. unfold Split_uploadDescriptor. rewrite Hd, Hr, Hdi.
  change (GetArchivePathToSplit (s_RepoID s) (s_DiamondID s) (sd_SplitID (finished_split s g now count)) (sd_State (finished_split s g now count))) with final.
  revert E. unfold write_document, lift, mbind, M_bind. destruct (Marshal (finished_split s g now count)); [|done..].
  destruct (writeMetadata final NoOverWrite a c) as [[[]|e|m] c2]; [|done..]. by intros [= <-].
Qed.

Section finish.
Variables (s : Split) (o : splitSource) (g : string) (keys : list string) (now : Time.Time) (w w1 : world S C) (d : CafsFs.defaultFs).
Hypothesis ready : split_ready s o g keys w.
Hypothesis stores_same : w_stores w1 = w_stores w.
Hypothesis objects_same : objects (w_consumable w1) = objects (w_consumable w).
Hypothesis leaf_size : CafsFs.f_leafSize d = bd_LeafSize (s_BundleDescriptor s).
Hypothesis no_prefix : CafsFs.f_prefix d = "".

Abbreviation repo := (s_RepoID s).
Abbreviation did := (s_DiamondID s).
Abbreviation sid := (sd_SplitID (s_SplitDescriptor s)).
Abbreviation s1 := (with_generation g s).
Abbreviation b := (split_bundle s1 o).
Abbreviation outer := (uploadSplitIterator repo did (s_SplitDescriptor s1) true).
Abbreviation p := (split_pather repo did sid g).
Abbreviation path := (fun j => GetArchivePathToSplitFileList repo did sid g (N.of_nat j)).
Abbreviation n := defaultBundleEntriesPerFile.
Abbreviation ok := (splitting_ok n b w1 d (split_files o keys) p path).

Lemma split_end u : ok [] [] u -> exists u' count s' w', pack_last outer u = (Ok count, u') /\
  contextStores b (GetSplitStore (Split_uploadDescriptor (Split_WithState SplitDone now (with_file_count count s1)))) (closed (sp_up u')) = (Ok s', w') /\
  split_post s o g keys now w s' w'.
Proof.
  intros (es & Hpk & Hcon & Hfs & Hcf & Har & Hh & _ & _ & Hperm). cbn in Hperm. rewrite app_nil_r in Hperm.
  destruct ready as (Hctx & _ & _ & Hname & _ & Hst & _ & _ & _ & _ & _ & Hfl & Hfinal & Hinit).
  destruct (pack_last_ok n b w1 outer p path per_file_pos Hctx (fun i => eq_refl) (fun i j H => Nat2N.inj _ _ (split_list_inj _ _ _ _ _ _ H)) u es Hpk)
    as (u' & sv & El & [Hdocs Hother] & Hw' & Hf').
  assert (Hfree : objects sv !! GetArchivePathToFinalSplit repo did sid = None).
  { rewrite Hother by (intros j _; apply split_path_not_list). by rewrite stores_same. }
  destruct (Split_uploadDescriptor_ok s g now (N.of_nat (nchunks n es)) sv Hst Hfree) as (s' & c' & Eu & Hsd & Hdoc & Hq).
  exists u', (N.of_nat (nchunks n es)), s'. eexists. split; [exact El|]. unfold contextStores. rewrite (eq_refl : b_context b = ss_context o), Hctx.
  unfold closed. rewrite Hw', Hf'. cbn [w_stores w_consumable]. unfold GetSplitStore, getVMetaStore. cbn [VMetadata SetBlob SetVMetadata]. rewrite Eu.
  assert (Hframe : forall q, q <> GetArchivePathToFinalSplit repo did sid -> (forall i, q <> GetArchivePathToSplitFileList repo did sid g i) ->
    objects c' !! q = objects (VMetadata (w_stores w)) !! q).
  { intros q H1 H2. rewrite Hq by done. rewrite Hother by (intros j _; apply H2). by rewrite stores_same. }
  assert (Hadded : split_added repo did sid g (finished_split s g now (N.of_nat (nchunks n es))) (nchunks n es) (VMetadata (w_stores w)) c').
  { split; [done|]. intros q H1 H2. rewrite Hq by done. rewrite Hother by done. by rewrite stores_same. }
  split; [done|]. exists es. rewrite objects_same in Hcon, Har, Hperm. rewrite stores_same in Hother, Hh. unfold CafsFs.leafSize in Har. rewrite leaf_size in Har.
  cbn [w_stores w_consumable VMetadata Metadata Blob SetBlob SetVMetadata]. cbv zeta.
  refine (conj Hsd (conj _ (conj (conj eq_refl _) (conj _ (conj _ (conj Hperm (conj Har (conj Hframe (conj _ (conj Hcon (conj _ Hh))))))))))).
  - split; [split; [exact Hname|split; [|by left]]|done]. rewrite Hframe; [done|apply not_eq_sym, split_final_not_initial|]. intros i. apply split_initial_not_list.
  - intros j Hj. eapply document_objects; [|by apply Hdocs]. apply Hq. apply not_eq_sym. apply split_path_not_list.
  - intros sd Hne. unfold CoreCommit.done_split, shown_split, document. destruct (decide (split_named (sd_SplitID sd))) as [Hn|Hn]; [|naive_solver].
    destruct (split_paths_of repo did (sd_SplitID sd)) as (H1 & H2 & _).
    by rewrite !(split_added_other repo did sid g _ _ (VMetadata (w_stores w)) c' (sd_SplitID sd)) by done.
  - intros Hg Hok. by eapply split_added_ok.
  - by rewrite stores_same.
  - by apply fs_ok_blobs.
Qed.

Lemma split_pool : every_run (fun es => pool_run (Z.to_nat (ss_concurrentFileUploads o)) (open_split_file b) (upload_split_file n outer) es (imap pair (split_files o keys)) [])
  (mkSplitting (mkUploading w1 (fs_open d (Blob (w_stores w1))) b []) (newUploadIndexIterator p) 0) (fun _ u => ok [] [] u).
Proof.
  destruct ready as (Hctx & Hcon & Hconc & _ & _ & _ & HL & Hblobs & Hcont & _ & Hup & Hfl & _).
  assert (Hc : forall k c, objects (w_consumable w1) !! k = Some c -> IsGeneratedFile k = false -> fs_contents (CafsFs.leafSize d) c).
  { intros k c. rewrite objects_same. unfold CafsFs.leafSize. rewrite leaf_size. apply Hcont. }
  apply every_pool.
  - intros t todo running u. by apply open_split_file_ok.
  - intros todo run1 j run2 u x r u'. apply upload_split_file_ok; [apply per_file_pos|done|done|]. intros i i' H%split_list_inj. lia.
  - intros todo run1 j run2 u. apply upload_split_file_live.
  - lia.
  - apply splitting_start; [done| |by rewrite stores_same| |].
    + rewrite leaf_size. unfold CafsFs.MaxLeafSize, CafsFs.MiB in *. lia.
    + intros j. rewrite stores_same. apply Hfl.
    + eapply Forall_impl; [exact Hup|]. intros k Hk. unfold uploadable. by rewrite objects_same.
Qed.

End finish.

(** C16: whatever the order in which its goroutines end, the upload of a split
    succeeds: its entries are those of the files of the consumable store that
    its keys name, each with its size and hash and its content in the blob store;
    they are in the index files of the new generation, which the final descriptor
    counts; no other metadata changes. *)
Theorem Split_Upload_correct s o g keys now (w : world S C) : split_ready s o g keys w ->
  every_run (fun es => Split_Upload (Ok g) now es s o) w (split_post s o g keys now w).
Proof.
  intros Hready. destruct (split_start_runs s o g keys w Hready) as ([[files d] s'] & w1 & Es & -> & -> & Hls & Hp & Hst & Hob).
  destruct (split_pool s o g keys w w1 d Hready Hst Hob Hls Hp) as [Hsafe Hlive].
  pose proof (split_end s o g keys now w w1 d Hready Hst Hob Hls Hp) as Hend.
  assert (Hconc : (ss_concurrentFileUploads o <? 0)%Z = false) by (destruct Hready as (_ & _ & H & _); apply Z.ltb_ge; lia).
  unfold every_run, Split_Upload, Split_implUpload. cbv beta. rewrite Es. unfold pack_files. cbn [pather_Next newUploadSplitIterator]. cbn [b_concurrentFileUploads split_bundle]. rewrite Hconc.
  change (s_RepoID (with_generation g s)) with (s_RepoID s). change (s_DiamondID (with_generation g s)) with (s_DiamondID s).
  change (sd_SplitID (s_SplitDescriptor (with_generation g s))) with (sd_SplitID (s_SplitDescriptor s)).
  change (sd_GenerationID (s_SplitDescriptor (with_generation g s))) with g. split.
  - intros es r w' H. destruct (pool_run _ _ _ _ _ _ _) as [[r1 u]|] eqn:E in H; [|done]. destruct (Hsafe es r1 u E) as ([] & -> & Hu).
    destruct (Hend u Hu) as (u' & count & s'' & w'' & El & Ec & HQ). rewrite El, Ec in H. injection H as <- <-. eauto.
  - destruct Hlive as (es & r1 & u & E). destruct (Hsafe es r1 u E) as ([] & -> & Hu). destruct (Hend u Hu) as (u' & count & s'' & w'' & El & Ec & HQ).
    exists es, (Ok s''), w''. rewrite E, El, Ec. done.
Qed.

End facts.

End CoreSplit.
