(* ===== verification/CoreSplitWitness.v ===== *)
(** * A concrete split for the theorem of CoreSplit

    The directory, the stores and the blobs of CorePublishWitness.v; a split that
    was created and not uploaded yet. *)

From S2P Require Import Prelude GoLib Errors Storage Model CafsKeys CafsFlush Lru CafsFs CafsIface CoreMeta Pool StoreRules CoreIndex CoreRepo CoreBundle CoreUpload CorePublishWitness CoreDiamond CoreListDiamonds CoreCommit CoreSplit.

Module CoreSplitWitness.
Import Model Storage CafsKeys CafsIface CoreMeta Pool StoreRules CoreIndex CoreBundle CoreUpload CoreDiamond CoreListDiamonds CorePublishWitness CoreSplit.

#[local] Existing Instance numbered_yaml.

#[local] Existing Instance numbered_yaml_laws.

#[local] Existing Instance toy_blake2b.

#[local] Existing Instance toy_blake2b_laws.

#[local] Existing Instance the_cafs.

#[local] Existing Instance the_laws.

Definition a_split : Split :=
  mkSplit "r" descriptor (mkSplitDescriptor "s1" 1%Z Time.zero SplitRunning [] "" 0 "") "dd" false.

Definition a_source : splitSource := SplitKeyFilter (Some (fun k => bool_decide (k <> "b"))) (SplitConsumableStore true defaultSource).

Definition split_world : world store store :=
  mkWorld (NewStores ∅ ∅ ∅ ∅ {[GetArchivePathToInitialSplit "r" "dd" "s1" := []]}) directory.

Lemma a_split_ready : split_ready a_split a_source "g" file_names split_world.
Proof.
  refine (conj eq_refl (conj eq_refl (conj eq_refl (conj _ (conj _ (conj _ (conj _ (conj _ (conj _ (conj _ (conj _ (conj _ (conj _ _))))))))))))).
  - split; [|done]. by vm_compute.
  - done.
  - done.
  - cbn. unfold leaf, CafsFs.MaxLeafSize, CafsFs.MiB. lia.
  - intros L c _ p x _. left. exact (lookup_empty (M := gmap string) p).
  - intros k c Hk Hg. split; [done|]. unfold split_world, directory in Hk. cbn in Hk.
    apply lookup_insert_Some in Hk as [[_ <-]|[_ Hk]]; [set_solver|]. apply lookup_insert_Some in Hk as [[_ <-]|[_ Hk]]; [set_solver|].
    apply lookup_singleton_Some in Hk as [<- _]. done.
  - right. split; [done|]. reflexivity.
  - apply (bool_decide_unpack _). vm_compute. exact I.
  - intros i. apply lookup_singleton_ne. apply split_initial_not_list.
  - reflexivity.
  - by eexists.
Qed.

Lemma Split_Upload_correct_witness :
  every_run (fun es => Split_Upload (Ok "g") 5%Z es a_split a_source) split_world (fun s' w' => exists entries,
    CoreCommit.split_entries 1000 "r" "dd" (VMetadata (w_stores w')) (s_SplitDescriptor s') entries /\ NameWithPath <$> entries ≡ₚ ["a/x"]).
Proof.
  eapply every_mono; [apply (Split_Upload_correct a_split a_source "g" file_names 5%Z split_world a_split_ready)|].
  intros s' w' (entries & -> & _ & He & _ & _ & Hp & _). exists entries. split; [exact He|]. rewrite Hp.
  assert (uploaded (objects (w_consumable split_world)) (split_files a_source file_names) = ["a/x"]) as -> by (vm_compute; reflexivity). done.
Defined.

End CoreSplitWitness.
