(* ===== verification/PurgeKv.v ===== *)
(** * The key-value store of a purge (pkg/core: kv.go, purge_pebble.go,
      purge_options.go, purge_options_badger.go)

    A purge keeps the keys of the blobs in use in a local key-value store. The
    interface kvStore is the class [KvStore] of operations on a state type, and
    [KvLaws] what the purge relies on, in terms of the map the store holds. The
    value of a key is empty until the key has been uploaded to the index, and
    "X" afterwards. kvPebble implements the interface over the third-party
    database pebble, which is the class [Pebble]; its merge operator is the
    code's own. *)

From S2P Require Import Prelude GoLib Errors Storage CoreKeys.

Module PurgeKv.

(** ** Options *)

Inductive KVType : Type := KVTypeBadger | KVTypePebble.

Record kvOptions : Type := mkKvOptions {
  kvIndexCacheSize : Z;
  kvBaseLevelSize : Z;
  kvBaseTableSize : Z;
  kvLevelSizeMultiplier : Z;
  kvMaxLevels : Z;
  kvMemTableSize : Z;
  kvNumLevelZeroTables : Z;
  kvNumLevelZeroTablesStall : Z;
  kvNumMemTables : Z;
  kvBlockCacheSize : Z
}.

Definition MB : Z := 1024 * 1024.

Definition defaultKVOptions : kvOptions :=
  mkKvOptions (Z.shiftl 200 20) (10 * MB) (2 * MB) 10 7 (64 * MB) 5 1024 5 0.

(** The logger and the extra contexts are left out: the contexts that are
    scanned are an argument of the operations. *)

Record purgeOptions : Type := mkPurgeOptions {
  po_force : bool;
  po_dryRun : bool;
  po_resume : bool;
  po_localStorePath : string;
  po_maxParallel : Z;
  po_indexChunkSize : N;
  po_indexStart : N;
  po_kvType : KVType;
  po_kvOptions : kvOptions
}.

Definition PurgeOption : Type := purgeOptions -> purgeOptions.

Definition WithPurgeForce (enabled : bool) : PurgeOption := fun o =>
  mkPurgeOptions enabled (po_dryRun o) (po_resume o) (po_localStorePath o) (po_maxParallel o) (po_indexChunkSize o) (po_indexStart o) (po_kvType o) (po_kvOptions o).

Definition WithPurgeParallel (parallel : Z) : PurgeOption := fun o =>
  mkPurgeOptions (po_force o) (po_dryRun o) (po_resume o) (po_localStorePath o) (if (0 <? parallel)%Z then parallel else po_maxParallel o)
    (po_indexChunkSize o) (po_indexStart o) (po_kvType o) (po_kvOptions o).

Definition WithPurgeDryRun (enabled : bool) : PurgeOption := fun o =>
  mkPurgeOptions (po_force o) enabled (po_resume o) (po_localStorePath o) (po_maxParallel o) (po_indexChunkSize o) (po_indexStart o) (po_kvType o) (po_kvOptions o).

Definition WithPurgeLocalStore (pth : string) : PurgeOption := fun o =>
  mkPurgeOptions (po_force o) (po_dryRun o) (po_resume o) (if decide (pth <> "") then pth else po_localStorePath o) (po_maxParallel o)
    (po_indexChunkSize o) (po_indexStart o) (po_kvType o) (po_kvOptions o).

Definition WithPurgeIndexChunkSize (chunkSize : N) : PurgeOption := fun o =>
  mkPurgeOptions (po_force o) (po_dryRun o) (po_resume o) (po_localStorePath o) (po_maxParallel o) chunkSize (po_indexStart o) (po_kvType o) (po_kvOptions o).

Definition WithPurgeIndexChunkStart (indexStart : Z) : PurgeOption := fun o =>
  mkPurgeOptions (po_force o) (po_dryRun o) (po_resume o) (po_localStorePath o) (po_maxParallel o) (po_indexChunkSize o)
    (if (0 <? indexStart)%Z then Z.to_N indexStart else po_indexStart o) (po_kvType o) (po_kvOptions o).

Definition WithPurgeResumeIndex (enabled : bool) : PurgeOption := fun o =>
  mkPurgeOptions (po_force o) (po_dryRun o) enabled (po_localStorePath o) (po_maxParallel o) (po_indexChunkSize o) (po_indexStart o) (po_kvType o) (po_kvOptions o).

Definition WithKVType (kvType : KVType) : PurgeOption := fun o =>
  mkPurgeOptions (po_force o) (po_dryRun o) (po_resume o) (po_localStorePath o) (po_maxParallel o) (po_indexChunkSize o) (po_indexStart o) kvType (po_kvOptions o).

(** The options of badger. *)

Definition with_kv (f : kvOptions -> kvOptions) : PurgeOption := fun o =>
  mkPurgeOptions (po_force o) (po_dryRun o) (po_resume o) (po_localStorePath o) (po_maxParallel o) (po_indexChunkSize o) (po_indexStart o) (po_kvType o)
    (f (po_kvOptions o)).

Definition WithPurgeKVIndexCacheSize (size : Z) : PurgeOption := with_kv (fun k =>
  mkKvOptions size (kvBaseLevelSize k) (kvBaseTableSize k) (kvLevelSizeMultiplier k) (kvMaxLevels k) (kvMemTableSize k) (kvNumLevelZeroTables k) (kvNumLevelZeroTablesStall k) (kvNumMemTables k) (kvBlockCacheSize k)).

Definition WithPurgeKVBaseLevelSize (size : Z) : PurgeOption := with_kv (fun k =>
  mkKvOptions (kvIndexCacheSize k) size (kvBaseTableSize k) (kvLevelSizeMultiplier k) (kvMaxLevels k) (kvMemTableSize k) (kvNumLevelZeroTables k) (kvNumLevelZeroTablesStall k) (kvNumMemTables k) (kvBlockCacheSize k)).

Definition WithPurgeKVBaseTableSize (size : Z) : PurgeOption := with_kv (fun k =>
  mkKvOptions (kvIndexCacheSize k) (kvBaseLevelSize k) size (kvLevelSizeMultiplier k) (kvMaxLevels k) (kvMemTableSize k) (kvNumLevelZeroTables k) (kvNumLevelZeroTablesStall k) (kvNumMemTables k) (kvBlockCacheSize k)).

Definition WithPurgeKVLevelSizeMultiplier (mult : Z) : PurgeOption := with_kv (fun k =>
  mkKvOptions (kvIndexCacheSize k) (kvBaseLevelSize k) (kvBaseTableSize k) mult (kvMaxLevels k) (kvMemTableSize k) (kvNumLevelZeroTables k) (kvNumLevelZeroTablesStall k) (kvNumMemTables k) (kvBlockCacheSize k)).

Definition WithPurgeKVMaxLevels (levels : Z) : PurgeOption := with_kv (fun k =>
  mkKvOptions (kvIndexCacheSize k) (kvBaseLevelSize k) (kvBaseTableSize k) (kvLevelSizeMultiplier k) levels (kvMemTableSize k) (kvNumLevelZeroTables k) (kvNumLevelZeroTablesStall k) (kvNumMemTables k) (kvBlockCacheSize k)).

Definition WithPurgeKVNumLevelZeroTables (tables : Z) : PurgeOption := with_kv (fun k =>
  mkKvOptions (kvIndexCacheSize k) (kvBaseLevelSize k) (kvBaseTableSize k) (kvLevelSizeMultiplier k) (kvMaxLevels k) (kvMemTableSize k) tables (kvNumLevelZeroTablesStall k) (kvNumMemTables k) (kvBlockCacheSize k)).

Definition WithPurgeKVNumLevelZeroTablesStall (tables : Z) : PurgeOption := with_kv (fun k =>
  mkKvOptions (kvIndexCacheSize k) (kvBaseLevelSize k) (kvBaseTableSize k) (kvLevelSizeMultiplier k) (kvMaxLevels k) (kvMemTableSize k) (kvNumLevelZeroTables k) tables (kvNumMemTables k) (kvBlockCacheSize k)).

Definition WithPurgeKVNumMemTables (tables : Z) : PurgeOption := with_kv (fun k =>
  mkKvOptions (kvIndexCacheSize k) (kvBaseLevelSize k) (kvBaseTableSize k) (kvLevelSizeMultiplier k) (kvMaxLevels k) (kvMemTableSize k) (kvNumLevelZeroTables k) (kvNumLevelZeroTablesStall k) tables (kvBlockCacheSize k)).

Definition WithPurgeKVMemGTableSize (size : Z) : PurgeOption := with_kv (fun k =>
  mkKvOptions (kvIndexCacheSize k) (kvBaseLevelSize k) (kvBaseTableSize k) (kvLevelSizeMultiplier k) (kvMaxLevels k) size (kvNumLevelZeroTables k) (kvNumLevelZeroTablesStall k) (kvNumMemTables k) (kvBlockCacheSize k)).

Definition WithPurgeKVBlockCacheSize (size : Z) : PurgeOption := with_kv (fun k =>
  mkKvOptions (kvIndexCacheSize k) (kvBaseLevelSize k) (kvBaseTableSize k) (kvLevelSizeMultiplier k) (kvMaxLevels k) (kvMemTableSize k) (kvNumLevelZeroTables k) (kvNumLevelZeroTablesStall k) (kvNumMemTables k) size).

Definition default_purge_options : purgeOptions :=
  mkPurgeOptions false false false ".datamon-index" 10 500000 0 KVTypePebble defaultKVOptions.

Definition defaultPurgeOptions (opts : list PurgeOption) : purgeOptions :=
  fold_left (fun o apply_ => apply_ o) opts default_purge_options.

(** The number of goroutines is positive, whatever the options. *)

Lemma maxParallel_positive opts : Forall (fun f : PurgeOption => forall o, (0 < po_maxParallel o)%Z -> (0 < po_maxParallel (f o))%Z) opts ->
  (0 < po_maxParallel (defaultPurgeOptions opts))%Z.
Proof.
  unfold defaultPurgeOptions. assert (0 < po_maxParallel default_purge_options)%Z as H by done. revert H. generalize default_purge_options.
  induction opts as [|f opts IH]; intros o Ho Hf; [done|]. apply Forall_cons in Hf as [Hf Hr]. cbn. apply IH; [by apply Hf|done].
Qed.

Lemma WithPurgeParallel_positive n o : (0 < po_maxParallel o)%Z -> (0 < po_maxParallel (WithPurgeParallel n o))%Z.
Proof. intros H. cbn. destruct (Z.ltb_spec 0 n); done. Qed.

(** ** The interface *)

(** The iterator of AllKeys goes through the keys of the store as it was when
    it was created; each item is the key with the result of Item. *)

Class KvStore (D : Type) : Type := {
  kv_Drop : M D unit;
  kv_Exists : string -> M D bool;
  kv_Get : string -> M D string;
  kv_Set : string -> string -> M D unit;
  kv_SetIfNotExists : string -> string -> M D unit;
  kv_AllKeys : D -> list (string * (string + error));
  kv_Compact : M D unit
}.

Class KvLaws (D : Type) `{KvStore D} : Type := {
  entries : D -> gmap string string;
  Exists_spec k d r d' : kv_Exists k d = (r, d') ->
    entries d' = entries d /\ (forall b, r = Ok b -> b = bool_decide (is_Some (entries d !! k)));
  kv_Get_spec k d r d' : kv_Get k d = (r, d') ->
    entries d' = entries d /\ (forall v, r = Ok v -> entries d !! k = Some v);
  Set_spec k v d r d' : kv_Set k v d = (r, d') ->
    (r = Ok tt -> entries d' = <[k := v]> (entries d)) /\ (forall k', k' <> k -> entries d' !! k' = entries d !! k');
  SetIfNotExists_spec k v d r d' : kv_SetIfNotExists k v d = (r, d') ->
    (is_Some (entries d !! k) -> entries d' = entries d) /\
    (r = Ok tt -> entries d !! k = None -> entries d' = <[k := v]> (entries d)) /\
    (forall k', k' <> k -> entries d' !! k' = entries d !! k');
  AllKeys_spec d : NoDup (kv_AllKeys d).*1 /\ forall k v, (k, inl v) ∈ kv_AllKeys d -> entries d !! k = Some v;
  Compact_spec d r d' : kv_Compact d = (r, d') -> entries d' = entries d
}.

Class ReliableKv (D : Type) `{KvLaws D} : Prop := {
  Exists_total k d : exists b, (kv_Exists k d).1 = Ok b;
  Set_total k v d : (kv_Set k v d).1 = Ok tt;
  SetIfNotExists_total k v d : (kv_SetIfNotExists k v d).1 = Ok tt;
  AllKeys_total d : (kv_AllKeys d).*1 ≡ₚ (map_to_list (entries d)).*1 /\ forall k r, (k, r) ∈ kv_AllKeys d -> exists v, r = inl v;
  Compact_total d : (kv_Compact d).1 = Ok tt
}.

Section clients.
Context {D : Type} `{HK : !KvStore D, HKL : !KvLaws D, HKR : !ReliableKv D}.

Lemma Exists_ok k d : exists d', kv_Exists k d = (Ok (bool_decide (is_Some (entries d !! k))), d') /\ entries d' = entries d.
Proof.
  destruct (Exists_total k d) as [b Hb]. destruct (kv_Exists k d) as [r d'] eqn:E. cbn in Hb. subst r.
  apply Exists_spec in E as [He Hv]. exists d'. by rewrite (Hv b eq_refl).
Qed.

Lemma Set_ok k v d : exists d', kv_Set k v d = (Ok tt, d') /\ entries d' = <[k := v]> (entries d).
Proof.
  pose proof (Set_total k v d) as Ht. destruct (kv_Set k v d) as [r d'] eqn:E. cbn in Ht. subst r.
  apply Set_spec in E as [He _]. exists d'. auto.
Qed.

(** The map after an insertion that does not overwrite. *)

Definition upsert (k v : string) (m : gmap string string) : gmap string string :=
  match m !! k with Some _ => m | None => <[k := v]> m end.

Lemma SetIfNotExists_ok k v d : exists d', kv_SetIfNotExists k v d = (Ok tt, d') /\ entries d' = upsert k v (entries d).
Proof.
  pose proof (SetIfNotExists_total k v d) as Ht. destruct (kv_SetIfNotExists k v d) as [r d'] eqn:E. cbn in Ht. subst r.
  apply SetIfNotExists_spec in E as (Hs & Hn & _). exists d'. split; [done|]. unfold upsert.
  destruct (entries d !! k) eqn:El; [by apply Hs; eauto|by apply Hn].
Qed.

Lemma upsert_dom k v m : dom (upsert k v m) = {[k]} ∪ dom m.
Proof. unfold upsert. destruct (m !! k) eqn:E; [|by rewrite dom_insert_L]. apply elem_of_dom_2 in E. set_solver. Qed.

(** The items of an iterator that does not fail. *)

Definition item (p : string * string) : string * (string + error) := (p.1, inl p.2).

Lemma AllKeys_ok d : exists items, kv_AllKeys d = item <$> items /\ items ≡ₚ map_to_list (entries d).
Proof.
  destruct (AllKeys_total d) as (Hp & Hall). destruct (AllKeys_spec d) as [Hnd Hlk].
  assert (exists items, kv_AllKeys d = item <$> items) as [items E].
  { clear -Hall. induction (kv_AllKeys d) as [|[k r] l IH]; [by exists []|]. destruct (Hall k r) as [v ->]; [by left|].
    destruct IH as [items ->]; [intros k' r' H; apply (Hall k'); by right|]. by exists ((k, v) :: items). }
  exists items. split; [done|]. rewrite E in *. rewrite <- list_fmap_compose in Hp, Hnd. change (fst ∘ item) with (fst (A := string) (B := string)) in *.
  apply NoDup_Permutation; [eapply NoDup_fmap_1, Hnd|apply NoDup_map_to_list|]. intros [k v]. rewrite elem_of_map_to_list. split.
  - intros Hin. apply Hlk, list_elem_of_fmap. by exists (k, v).
  - intros Hl. assert (k ∈ items.*1) as Hk.
    { rewrite Hp. apply list_elem_of_fmap. exists (k, v). by rewrite elem_of_map_to_list. }
    apply list_elem_of_fmap in Hk as ([k' v'] & -> & Hin). cbn in *. rewrite (Hlk k' v') in Hl; [by simplify_eq|]. apply list_elem_of_fmap. by exists (k', v').
Qed.

End clients.

(** ** A finite map as a key-value store *)

#[export] Instance mem_KvStore : KvStore (gmap string string) := {
  kv_Drop := fun d => (Ok tt, ∅);
  kv_Exists k := fun d => (Ok (bool_decide (is_Some (d !! k))), d);
  kv_Get k := fun d => (match d !! k with Some v => Ok v | None => Err (ErrMsg "Key not found") end, d);
  kv_Set k v := fun d => (Ok tt, <[k := v]> d);
  kv_SetIfNotExists k v := fun d => (Ok tt, match d !! k with Some _ => d | None => <[k := v]> d end);
  kv_AllKeys := fun d => item <$> map_to_list d;
  kv_Compact := fun d => (Ok tt, d)
}.

#[export] Instance mem_KvLaws : KvLaws (gmap string string).
Proof.
  refine {| entries := fun d => d |}; cbn.
  - intros k d r d' H. simplify_eq. split; [done|]. intros b Hb. by simplify_eq.
  - intros k d r d' H. simplify_eq. split; [done|]. intros v Hv. destruct (d' !! k); by simplify_eq.
  - intros k v d r d' H. simplify_eq. split; [done|]. intros k' Hk. by rewrite lookup_insert_ne.
  - intros k v d r d' H. simplify_eq. split_and!.
    + intros [w ->]. done.
    + by intros _ ->.
    + intros k' Hk. destruct (d !! k); [done|]. by rewrite lookup_insert_ne.
  - intros d. rewrite <- list_fmap_compose. split; [apply NoDup_fst_map_to_list|].
    intros k v ([k' v'] & Heq & Hin%elem_of_map_to_list)%list_elem_of_fmap. unfold item in Heq. by simplify_eq/=.
  - intros d r d' H. by simplify_eq.
Defined.

#[export] Instance mem_ReliableKv : ReliableKv (gmap string string).
Proof.
  split; cbn; eauto. intros d. rewrite <- list_fmap_compose. split; [done|].
  intros k r ([k' v'] & Heq & _)%list_elem_of_fmap. unfold item in Heq. simplify_eq/=. eauto.
Qed.

(** ** kvPebble *)

(** A Go slice that may be nil. *)

Definition slice : Type := option string.

(** bytes.Compare, for which nil is empty. *)

Definition Compare (a b : slice) : comparison := String.compare (default "" a) (default "" b).

(** ignoreNewMerger *)

Definition merge_start (value : slice) : slice := value.

Definition MergeNewer (val : slice) (buf : slice) : slice := match buf with None => val | Some _ => buf end.

Definition MergeOlder (val : slice) (buf : slice) : slice := match val with Some _ => val | None => buf end.

Definition Finish (buf : slice) : string := default "" buf.

(** The database. [pb_RangeBounds] are the bounds of the range key at the
    position of a new iterator without options. *)

Class Pebble (P : Type) : Type := {
  pb_Get : string -> M P string;
  pb_Set : string -> string -> M P unit;
  pb_Merge : string -> string -> M P unit;
  pb_Delete : slice -> M P unit;
  pb_DeleteRange : slice -> slice -> M P unit;
  pb_NewIter : P -> list (string * string);
  pb_RangeBounds : P -> slice * slice;
  pb_CompactRange : slice -> slice -> M P unit;
  pb_ErrNotFound : error
}.

Class PebbleLaws (P : Type) `{Pebble P} : Type := {
  pb_entries : P -> gmap string string;
  pb_Get_spec k p r p' : pb_Get k p = (r, p') -> pb_entries p' = pb_entries p /\
    (forall v, r = Ok v -> pb_entries p !! k = Some v) /\
    (forall e, r = Err e -> Errors.Is e pb_ErrNotFound = true -> pb_entries p !! k = None);
  pb_Set_spec k v p r p' : pb_Set k v p = (r, p') ->
    (r = Ok tt -> pb_entries p' = <[k := v]> (pb_entries p)) /\ (forall k', k' <> k -> pb_entries p' !! k' = pb_entries p !! k');
  pb_Merge_spec k v p r p' : pb_Merge k v p = (r, p') ->
    (r <> Ok tt -> pb_entries p' = pb_entries p) /\
    (r = Ok tt -> exists w, pb_entries p' = <[k := w]> (pb_entries p) /\
       match pb_entries p !! k with
       | None => w = Finish (merge_start (Some v))
       | Some old => w = Finish (MergeNewer (Some v) (merge_start (Some old))) \/ w = Finish (MergeOlder (Some old) (merge_start (Some v)))
       end);
  pb_NewIter_spec p : pb_NewIter p ≡ₚ map_to_list (pb_entries p);
  pb_RangeBounds_points p : pb_RangeBounds p = (None, None);
  pb_CompactRange_spec a b p r p' : pb_CompactRange a b p = (r, p') -> pb_entries p' = pb_entries p
}.

Section pebble.
Context {P : Type} `{HP : !Pebble P}.

Definition pebble_Drop : M P unit := fun p =>
  let '(start, end_) := pb_RangeBounds p in
  match Compare start end_ with
  | Lt =>
      (_ ← pb_DeleteRange start end_;
       r ← attempt (pb_Delete end_);
       match r with
       | inl _ => mret tt
       | inr err => if Errors.Is err pb_ErrNotFound then mret tt else fail err
       end) p
  | _ => (Ok tt, p)
  end.

Definition pebble_Get (key : string) : M P string := pb_Get key.

Definition pebble_Exists (key : string) : M P bool :=
  r ← attempt (pb_Get key);
  match r with
  | inr err => if Errors.Is err pb_ErrNotFound then mret false else fail err
  | inl _ => mret true
  end.

Definition pebble_Set (key value : string) : M P unit := pb_Set key value.

Definition pebble_SetIfNotExists (key value : string) : M P unit :=
  found ← pebble_Exists key;
  if found : bool then mret tt else pb_Merge key value.

Definition pebble_Compact : M P unit := fun p =>
  let '(start, end_) := pb_RangeBounds p in
  match Compare start end_ with
  | Lt => pb_CompactRange start end_ p
  | _ => (Ok tt, p)
  end.

(** Item of kvPebbleIterator returns no error. *)

Definition pebble_AllKeys (p : P) : list (string * (string + error)) := item <$> pb_NewIter p.

Definition kvPebble : KvStore P := {|
  kv_Drop := pebble_Drop;
  kv_Exists := pebble_Exists;
  kv_Get := pebble_Get;
  kv_Set := pebble_Set;
  kv_SetIfNotExists := pebble_SetIfNotExists;
  kv_AllKeys := pebble_AllKeys;
  kv_Compact := pebble_Compact
|}.

(** os.MkdirAll and pebble.Open are [opened]. *)

Definition makeKVPebble (opened : res unit) : M P unit :=
  _ ← lift opened;
  r ← attempt pebble_Drop;
  match r with
  | inl _ => mret tt
  | inr err => fail (ErrMsg ("scrach KV: " +:+ Errors.to_string err))
  end.

Context `{HPL : !PebbleLaws P}.

(** Whichever way the database combines two values, the older one is kept. *)

Lemma merge_keeps_older old v w :
  w = Finish (MergeNewer (Some v) (merge_start (Some old))) \/ w = Finish (MergeOlder (Some old) (merge_start (Some v))) -> w = old.
Proof. by intros [-> | ->]. Qed.

Lemma Merge_existing k v p r p' : pb_Merge k v p = (r, p') -> is_Some (pb_entries p !! k) -> pb_entries p' = pb_entries p.
Proof.
  intros [Hf Hok]%pb_Merge_spec [old Hold]. destruct r as [[]|e|m]; [|by apply Hf..]. destruct (Hok eq_refl) as (w & -> & Hw).
  rewrite Hold in Hw. apply merge_keeps_older in Hw as ->. by apply insert_id.
Qed.

Lemma Exists_pebble k p r p' : pebble_Exists k p = (r, p') ->
  pb_entries p' = pb_entries p /\ (forall b, r = Ok b -> b = bool_decide (is_Some (pb_entries p !! k))).
Proof.
  unfold pebble_Exists, attempt, mbind, M_bind, fail, mret, M_ret. destruct (pb_Get k p) as [r1 p1] eqn:E. apply pb_Get_spec in E as (He & Hv & Hn).
  destruct r1 as [v|e|m]; [|destruct (Errors.Is e pb_ErrNotFound) eqn:Ei|]; intros [= <- <-]; split; try done; intros b [= <-].
  - rewrite bool_decide_eq_true_2; [done|]. rewrite (Hv v eq_refl). eauto.
  - rewrite bool_decide_eq_false_2; [done|]. rewrite (Hn e eq_refl Ei). by intros [].
Qed.

Definition kvPebble_laws : @KvLaws P kvPebble.
Proof.
  refine (@Build_KvLaws P kvPebble pb_entries _ _ _ _ _ _); cbn.
  - apply Exists_pebble.
  - intros k p r p' (? & ? & _)%pb_Get_spec. done.
  - apply pb_Set_spec.
  - intros k v p r p'. unfold pebble_SetIfNotExists, mbind, M_bind, mret, M_ret. destruct (pebble_Exists k p) as [r1 p1] eqn:E.
    apply Exists_pebble in E as [He Hb]. destruct r1 as [[]|e|m].
    + intros [= <- <-]. split_and!; [done| |by rewrite He]. intros _ Hn. pose proof (Hb true eq_refl) as H%eq_sym%bool_decide_eq_true. by rewrite Hn in H; destruct H.
    + intros Hm. pose proof (Hb false eq_refl) as H%eq_sym%bool_decide_eq_false. apply eq_None_not_Some in H.
      apply pb_Merge_spec in Hm as [Hf Hok]. rewrite He in *. split_and!; [by rewrite H; intros []| |].
      * intros Hr _. destruct (Hok Hr) as (w & -> & Hw). by rewrite H in Hw; subst w.
      * intros k' Hk. destruct r as [[]|e|m]; [|by rewrite Hf..]. destruct (Hok eq_refl) as (w & -> & _). by rewrite lookup_insert_ne.
    + intros [= <- <-]. split_and!; [done..|by rewrite He].
    + intros [= <- <-]. split_and!; [done..|by rewrite He].
  - intros p. unfold pebble_AllKeys. rewrite <- list_fmap_compose. change (fst ∘ item) with (fst (A := string) (B := string)). split.
    + rewrite pb_NewIter_spec. apply NoDup_fst_map_to_list.
    + intros k v ([k' v'] & Heq & Hin)%list_elem_of_fmap. unfold item in Heq. simplify_eq/=. rewrite pb_NewIter_spec in Hin. by apply elem_of_map_to_list.
  - intros p r p'. unfold pebble_Compact. rewrite pb_RangeBounds_points. cbn. by intros [= <- <-].
Defined.

(** Drop of kvPebble removes nothing: an iterator without options has no
    range bounds, so that the two bounds it compares are both empty. The keys
    that a local store holds when it is opened stay there, although the
    interface promises their removal. *)
Theorem pebble_Drop_keeps p : pebble_Drop p = (Ok tt, p) /\ makeKVPebble (Ok tt) p = (Ok tt, p).
Proof.
  assert (pebble_Drop p = (Ok tt, p)) as H by (unfold pebble_Drop; by rewrite pb_RangeBounds_points).
  split; [done|]. unfold makeKVPebble, attempt, lift, mbind, M_bind, mret, M_ret. by rewrite H.
Qed.

(** Two goroutines insert the same key: when the first has seen that the key
    is missing, and the key is inserted and marked as uploaded before its own
    merge, the merge does not remove the mark. *)
Theorem SetIfNotExists_race k p p1 p2 r p3 :
  pebble_Exists k p = (Ok false, p1) -> pb_entries p2 = <[k := "X"]> (pb_entries p1) ->
  pb_Merge k "" p2 = (r, p3) -> pb_entries p3 !! k = Some "X".
Proof.
  intros _ H2 Hm. rewrite (Merge_existing _ _ _ _ _ Hm); rewrite H2, lookup_insert_eq; eauto.
Qed.

End pebble.

(** ** kvBadger *)

(** The database badger: [bg_txn_Get] and [bg_txn_Set] are the operations of a
    transaction, the latter buffers a write; [bg_Commit] commits what is
    buffered, and does nothing if that is empty. *)

Class Badger (B : Type) : Type := {
  bg_DropAll : M B unit;
  bg_txn_Get : string -> M B string;
  bg_txn_Set : string -> string -> B -> res unit;
  bg_Commit : string -> string -> M B unit;
  bg_NewIterator : B -> list (string * (string + error));
  bg_Flatten : Z -> M B unit;
  bg_ErrKeyNotFound : error;
  bg_ErrConflict : error
}.

Class BadgerLaws (B : Type) `{Badger B} : Type := {
  bg_entries : B -> gmap string string;
  bg_Get_spec k b r b' : bg_txn_Get k b = (r, b') -> bg_entries b' = bg_entries b /\
    (forall v, r = Ok v -> bg_entries b !! k = Some v) /\
    (forall e, r = Err e -> Errors.Is e bg_ErrKeyNotFound = true -> bg_entries b !! k = None);
  bg_Commit_spec k v b r b' : bg_Commit k v b = (r, b') ->
    (r = Ok tt -> bg_entries b' = <[k := v]> (bg_entries b)) /\ (r <> Ok tt -> bg_entries b' = bg_entries b);
  bg_NewIterator_spec b : NoDup (bg_NewIterator b).*1 /\ forall k v, (k, inl v) ∈ bg_NewIterator b -> bg_entries b !! k = Some v;
  bg_Flatten_spec n b r b' : bg_Flatten n b = (r, b') -> bg_entries b' = bg_entries b;
  bg_DropAll_spec b b' : bg_DropAll b = (Ok tt, b') -> bg_entries b' = ∅
}.

Section badger.
Context {B : Type} `{HB : !Badger B}.

(** backoff.Retry with a constant delay has no bound: [fuel] is the number of
    attempts. *)

Variable fuel : nat.

Definition badger_Drop : M B unit := bg_DropAll.

Definition badger_AllKeys (b : B) : list (string * (string + error)) := bg_NewIterator b.

Definition badger_Get (key : string) : M B string := bg_txn_Get key.

Definition badger_Exists (key : string) : M B bool :=
  r ← attempt (bg_txn_Get key);
  match r with
  | inr err => if Errors.Is err bg_ErrKeyNotFound then mret false else fail err
  | inl _ => mret true
  end.

(** An attempt; the result is [None] when it is retried: a conflict of the
    write, or any error of the commit. *)

Definition update (key value : string) : M B (option unit) := fun b =>
  match bg_txn_Set key value b with
  | Panic p => (Panic p, b)
  | Err e => if Errors.Is e bg_ErrConflict then (Ok None, b) else (Err e, b)
  | Ok _ =>
      (r ← attempt (bg_Commit key value);
       match r with inl _ => mret (Some tt) | inr _ => mret None end) b
  end.

Fixpoint retry (n : nat) (m : M B (option unit)) : M B unit :=
  match n with
  | O => CoreKeys.diverge
  | Datatypes.S n' =>
      r ← m;
      match r with Some _ => mret tt | None => retry n' m end
  end.

Definition badger_Set (key value : string) : M B unit := retry fuel (update key value).

Definition insert_attempt (key value : string) : M B (option unit) :=
  r ← attempt (bg_txn_Get key);
  match r with
  | inl _ => mret (Some tt)
  | inr err => if Errors.Is err bg_ErrKeyNotFound then update key value else fail err
  end.

Definition badger_SetIfNotExists (key value : string) : M B unit := retry fuel (insert_attempt key value).

Definition badger_Compact : M B unit := bg_Flatten 100.

Definition kvBadger : KvStore B := {|
  kv_Drop := badger_Drop;
  kv_Exists := badger_Exists;
  kv_Get := badger_Get;
  kv_Set := badger_Set;
  kv_SetIfNotExists := badger_SetIfNotExists;
  kv_AllKeys := badger_AllKeys;
  kv_Compact := badger_Compact
|}.

(** os.MkdirAll and badger.Open are [opened]. *)

Definition makeKVBadger (opened : res unit) : M B unit :=
  _ ← lift opened;
  r ← attempt bg_DropAll;
  match r with
  | inl _ => mret tt
  | inr err => fail (ErrMsg ("scrach KV: " +:+ Errors.to_string err))
  end.

Context `{HBL : !BadgerLaws B}.

Lemma update_spec k v b r b' : update k v b = (r, b') ->
  (r = Ok (Some tt) /\ bg_entries b' = <[k := v]> (bg_entries b)) \/ (r <> Ok (Some tt) /\ bg_entries b' = bg_entries b).
Proof.
  unfold update, attempt, mbind, M_bind, mret, M_ret. destruct (bg_txn_Set k v b) as [u|e|m]; [|case_match|]; [|intros [= <- <-]; by right..].
  destruct (bg_Commit k v b) as [rc b1] eqn:E. apply bg_Commit_spec in E as [Hok Hno].
  destruct rc as [[]|e|m]; intros [= <- <-]; [left; split; [done|by apply Hok]|right; split; [done|by apply Hno]..].
Qed.

(** An attempt that ends has the effect [f], any other has none. *)

Definition attempts (f : gmap string string -> gmap string string) {A} (done_ : A) (r : res A) (b b' : B) : Prop :=
  (r = Ok done_ /\ bg_entries b' = f (bg_entries b)) \/ (r <> Ok done_ /\ bg_entries b' = bg_entries b).

Lemma retry_spec f (m : M B (option unit)) : (forall b r b', m b = (r, b') -> attempts f (Some tt) r b b') ->
  forall n b r b', retry n m b = (r, b') -> attempts f tt r b b'.
Proof.
  intros Hm. induction n as [|n IH]; intros b r b'; cbn [retry]; [intros [= <- <-]; by right|].
  unfold mbind, M_bind. destruct (m b) as [ru b1] eqn:E. apply Hm in E as [[-> He]|[Hn He]]; [intros [= <- <-]; by left|].
  destruct ru as [[[]|]|e|p]; [done| |intros [= <- <-]; by right..]. unfold attempts. rewrite <- He. apply IH.
Qed.

Lemma badger_Set_spec k v b r b' : badger_Set k v b = (r, b') -> attempts (insert k v) tt r b b'.
Proof. apply retry_spec, update_spec. Qed.

Lemma insert_attempt_spec k v b r b' : insert_attempt k v b = (r, b') -> attempts (upsert k v) (Some tt) r b b'.
Proof.
  unfold insert_attempt, attempt, mbind, M_bind, mret, M_ret, fail, attempts, upsert.
  destruct (bg_txn_Get k b) as [rg b1] eqn:Eg. apply bg_Get_spec in Eg as (He & Hv & Hn). destruct rg as [w|e|m]; cbn.
  - intros [= <- <-]. left. by rewrite (Hv w eq_refl).
  - destruct (Errors.Is e bg_ErrKeyNotFound) eqn:Ei; [|intros [= <- <-]; by right].
    rewrite (Hn e eq_refl Ei), <- He. apply update_spec.
  - intros [= <- <-]. by right.
Qed.

Lemma badger_SetIfNotExists_spec k v b r b' : badger_SetIfNotExists k v b = (r, b') -> attempts (upsert k v) tt r b b'.
Proof. apply retry_spec, insert_attempt_spec. Qed.

Lemma badger_Exists_spec k b r b' : badger_Exists k b = (r, b') ->
  bg_entries b' = bg_entries b /\ (forall x, r = Ok x -> x = bool_decide (is_Some (bg_entries b !! k))).
Proof.
  unfold badger_Exists, attempt, mbind, M_bind, fail, mret, M_ret. destruct (bg_txn_Get k b) as [r1 b1] eqn:E. apply bg_Get_spec in E as (He & Hv & Hn).
  destruct r1 as [v|e|m]; [|destruct (Errors.Is e bg_ErrKeyNotFound) eqn:Ei|]; intros [= <- <-]; split; try done; intros x [= <-].
  - rewrite bool_decide_eq_true_2; [done|]. rewrite (Hv v eq_refl). eauto.
  - rewrite bool_decide_eq_false_2; [done|]. rewrite (Hn e eq_refl Ei). by intros [].
Qed.

(** The interface, and the removal that Drop promises. *)

Definition kvBadger_laws : @KvLaws B kvBadger.
Proof.
  refine (@Build_KvLaws B kvBadger bg_entries _ _ _ _ _ _); cbn.
  - apply badger_Exists_spec.
  - intros k b r b' (? & ? & _)%bg_Get_spec. done.
  - intros k v b r b' [[-> He]|[Hn He]]%badger_Set_spec; rewrite He; (split; [done|]); [|done]. intros k' Hk. by rewrite lookup_insert_ne.
  - intros k v b r b' [[-> ->]|[Hn ->]]%badger_SetIfNotExists_spec; [|by split_and!]. unfold upsert. split_and!.
    + by intros [w ->].
    + by intros _ ->.
    + intros k' Hk. destruct (bg_entries b !! k); [done|]. by rewrite lookup_insert_ne.
  - apply bg_NewIterator_spec.
  - intros b r b' H. by apply bg_Flatten_spec in H.
Defined.

Lemma badger_Drop_empties b b' : makeKVBadger (Ok tt) b = (Ok tt, b') -> bg_entries b' = ∅.
Proof.
  unfold makeKVBadger, attempt, lift, mbind, M_bind, mret, M_ret, fail. destruct (bg_DropAll b) as [[[]|e|m] b1] eqn:E; intros [= <-]. by eapply bg_DropAll_spec.
Qed.

End badger.

End PurgeKv.
