(* ===== verification/PurgeIndex.v ===== *)
(** * The reverse index of a purge (pkg/core: purge.go)

    The keys of the blobs in use are uploaded from the local key-value store to
    the metadata store in chunks: text files with the time of the index on the
    first line and one key per further line. dbReader is the reader that is
    given to the store: it takes the keys that are not marked as uploaded and
    marks each of them as it is read. A chunk is loaded to a key-value store
    line by line.

    The layout RFC3339Nano is [Format] and [Parse], functions of the section;
    what the goroutines and the store decide is an argument: the sizes of the
    buffers the store reads with, when it gives up, and the order in which the
    chunks are loaded. *)

From S2P Require Import Prelude GoLib Errors Storage Model ModelPaths CoreMeta StoreRules CoreKeys PurgeKv Pool.

Module PurgeIndex.
Import Model Storage CoreMeta StoreRules CoreKeys PurgeKv Pool.

(** ** Lines *)

Definition newline : Byte.byte := Byte.x0a.

Definition carriage_return : Byte.byte := Byte.x0d.

Definition line (s : string) : bytes := String.list_byte_of_string s ++ [newline].

(** The parts of a text that end in a newline, and the rest if it is not empty. *)

Fixpoint split_lines (text cur : bytes) : list bytes :=
  match text with
  | [] => if decide (cur = []) then [] else [cur]
  | c :: text' => if decide (c = newline) then cur :: split_lines text' [] else split_lines text' (cur ++ [c])
  end.

(** bufio.ScanLines removes a carriage return before the newline. *)

Definition dropCR (l : bytes) : bytes :=
  match last l with
  | Some c => if decide (c = carriage_return) then take (length l - 1) l else l
  | None => l
  end.

Definition MaxScanTokenSize : nat := Z.to_nat (64 * 1024).

(** The lines before the first one that does not fit in the buffer of a
    bufio.Scanner. *)

Fixpoint fitting (ls : list bytes) : list bytes :=
  match ls with
  | [] => []
  | l :: ls' => if decide (length l < MaxScanTokenSize) then l :: fitting ls' else []
  end.

Definition Scan (text : bytes) : list string :=
  (fun l => String.string_of_list_byte (dropCR l)) <$> fitting (split_lines text []).

(** strings.Contains *)

Fixpoint contains (sub s : string) : bool :=
  Strings.HasPrefix s sub || match s with EmptyString => false | String _ s' => contains sub s' end.

(** ** dbReader *)

(** [rd_out]: the keys that iterateKV still has to send. *)

Record dbReader : Type := mkDbReader {
  rd_out : list string;
  rd_readOnce : bool;
  rd_indexTime : Time.Time;
  rd_count : N;
  rd_partial : bytes
}.

(** The keys that are sent, and the error of the goroutine. *)

Fixpoint iterateKV (maxKeys iterated : N) (items : list (string * (string + error))) : list string * option error :=
  match items with
  | [] => ([], None)
  | (key, inr err) :: _ => ([], Some (ErrMsg ("failed to fetch KV value [" +:+ key +:+ "]: " +:+ Errors.to_string err)))
  | (key, inl val) :: items' =>
      if decide (val <> "") then iterateKV maxKeys iterated items'
      else if (maxKeys <? iterated + 1)%N then ([], None)
      else let '(keys, err) := iterateKV maxKeys (iterated + 1) items' in (key :: keys, err)
  end.

(** How the store reads: the size of the buffer of each call of Read, less one,
    and the call before which it gives up, with its error. *)

Record put_run : Type := mkPutRun {
  pr_room : nat -> nat;
  pr_stop : option (nat * error)
}.

(** backoff.Retry, over the executions of its attempts. *)

Fixpoint Retry {X W A} (f : X -> R W A) (xs : list X) : R W A :=
  match xs with
  | [] => fun _ => None
  | x :: xs' => fun w =>
      match f x w with
      | Some (Err e, w') => if decide (length xs' = 0) then Some (Err e, w') else Retry f xs' w'
      | r => r
      end
  end.

(** The largest index among the names of chunks. *)

Fixpoint chunk_indices (ks : list string) (lastIndex : N) : res N :=
  match ks with
  | [] => Ok lastIndex
  | chunk :: ks' =>
      match ReverseIndexChunk chunk with
      | Ok index => chunk_indices ks' (if (lastIndex <? index)%N then index else lastIndex)
      | Err erp => Err (ErrMsg ("invalid index chunk file [" +:+ chunk +:+ "]: " +:+ Errors.to_string erp))
      | Panic p => Panic p
      end
  end.

Section index.
Context {S D : Type} `{HS : !Store S, HK : !KvStore D}.
Variables (Format : Time.Time -> string) (Parse : string -> res Time.Time).

Definition newDBReader (indexTime : Time.Time) (maxKeys : N) (db : D) : dbReader :=
  mkDbReader (iterateKV maxKeys 0 (kv_AllKeys db)).1 false indexTime 0 [].

(** The part of a buffer that fits in the [room] bytes of the caller. *)

Definition deliver (room : nat) (b : bytes) (r : dbReader) : bytes * dbReader :=
  (take room b, mkDbReader (rd_out r) (rd_readOnce r) (rd_indexTime r) (rd_count r) (drop room b)).

(** The result is [None] at the end. *)

Definition Read (room : nat) : M (dbReader * D) (option bytes) := fun '(r, db) =>
  if decide (0 < length (rd_partial r)) then
    let '(b, r') := deliver room (rd_partial r) r in (Ok (Some b), (r', db))
  else if negb (rd_readOnce r) then
    let '(b, r') := deliver room (line (Format (rd_indexTime r))) (mkDbReader (rd_out r) true (rd_indexTime r) (rd_count r) []) in
    (Ok (Some b), (r', db))
  else
    match rd_out r with
    | [] => (Ok None, (r, db))
    | key :: out =>
        match kv_Set key "X" db with
        | (Ok _, db') =>
            let '(b, r') := deliver room (line key) (mkDbReader out true (rd_indexTime r) (rd_count r + 1) []) in
            (Ok (Some b), (r', db'))
        | (Err err, db') =>
            (Err (ErrMsg ("failed to mark KV key as read: " +:+ Errors.to_string err)), (mkDbReader out true (rd_indexTime r) (rd_count r) [], db'))
        | (Panic p, db') => (Panic p, (r, db'))
        end
    end.

(** What Put gets from the reader. *)

Fixpoint drain (fuel i : nat) (o : put_run) (st : dbReader * D) : res source * (dbReader * D) :=
  match pr_stop o with
  | Some (O, e) => (Ok (Source [] (Some e)), st)
  | _ =>
      match fuel with
      | O => (Panic "no result within the fuel", st)
      | Datatypes.S fuel' =>
          match Read (Datatypes.S (pr_room o i)) st with
          | (Ok None, st') => (Ok (Source [] None), st')
          | (Ok (Some b), st') =>
              let o' := mkPutRun (pr_room o) (match pr_stop o with Some (Datatypes.S n, e) => Some (n, e) | x => x end) in
              match drain fuel' (Datatypes.S i) o' st' with
              | (Ok src, st2) => (Ok (Source (b ++ src_data src) (src_err src)), st2)
              | r => r
              end
          | (Err e, st') => (Ok (Source [] (Some e)), st')
          | (Panic p, st') => (Panic p, st')
          end
      end
  end.

(** What a reader has still to deliver; every call of Read delivers a byte at
    least. *)

Definition rest (r : dbReader) : bytes :=
  rd_partial r ++ (if rd_readOnce r then [] else line (Format (rd_indexTime r))) ++ concat (line <$> rd_out r).

(** ** chunkUploader *)

Record uploads : Type := mkUploads {
  up_store : S;
  up_db : D;
  up_uploaded : N
}.

(** The deferred Close waits for iterateKV, which blocks when it has more keys
    to send than the channel can buffer ([None]). *)

Definition outBuffer : nat := 1024.

Definition close_reader {A} (r : dbReader) (result : res A) (u : uploads) : option (res A * uploads) :=
  if decide (length (rd_out r) <= outBuffer) then Some (result, u) else None.

Definition put_chunk (indexFile : string) (reader : dbReader) (o : put_run) : R uploads unit := fun u =>
  match drain (Datatypes.S (length (rest reader))) 0 o (reader, up_db u) with
  | (Ok src, (reader', db)) =>
      let '(r, s) := Put indexFile src NoOverWrite (up_store u) in
      match r with
      | Ok _ => close_reader reader' (Ok tt) (mkUploads s db (up_uploaded u + rd_count reader'))
      | Err e => close_reader reader' (Err e) (mkUploads s db (up_uploaded u))
      | Panic p => Some (Panic p, mkUploads s db (up_uploaded u))
      end
  | (Err e, (_, db)) => Some (Err e, mkUploads (up_store u) db (up_uploaded u))
  | (Panic p, (_, db)) => Some (Panic p, mkUploads (up_store u) db (up_uploaded u))
  end.

Definition chunk_attempt (chunkIndex chunkSize : N) (indexTime : Time.Time) (o : put_run) : R uploads unit := fun u =>
  let indexFile := ReverseIndexFile chunkIndex in
  let reader := newDBReader indexTime chunkSize (up_db u) in
  let '(del, s1) := Delete indexFile (up_store u) in
  let u1 := mkUploads s1 (up_db u) (up_uploaded u) in
  match del with
  | Panic p => Some (Panic p, u1)
  | Err err =>
      if negb (Errors.Is err StorageStatus.ErrNotExists) then close_reader reader (Err err) u1
      else put_chunk indexFile reader o u1
  | Ok _ => put_chunk indexFile reader o u1
  end.

Definition chunkUploader (chunkIndex chunkSize : N) (indexTime : Time.Time) (runs : list put_run) : R uploads unit :=
  Retry (chunk_attempt chunkIndex chunkSize indexTime) runs.

(** ** uploader *)

Record uploader : Type := mkUploader {
  ul_lastSeen : N;
  ul_chunkIndex : N
}.

(** A tick while keys are scanned. [busy]: the previous chunk is still being
    uploaded, so that TryGo starts nothing. *)

Definition tick (chunkSize : N) (indexTime : Time.Time) (uniqueKeys : N) (busy : bool) (runs : list put_run) (l : uploader) : R uploads uploader :=
  if (uniqueKeys <? ul_lastSeen l + chunkSize)%N then once (mret l)
  else
    let chunkIndex := (ul_chunkIndex l + 1)%N in
    let l' := mkUploader uniqueKeys chunkIndex in
    if busy then once (mret l')
    else chunkUploader chunkIndex chunkSize indexTime runs ≫= fun _ => once (mret l').

(** The last chunks, after the end of the scan: until a chunk has no key. The
    executions of the chunks are given; the result is the last index used. *)

Fixpoint last_chunks (chunkSize : N) (indexTime : Time.Time) (runs : list (list put_run)) (chunkIndex : N) : R uploads N :=
  match runs with
  | [] => fun _ => None
  | run :: runs' => fun u =>
      let chunkIndex' := (chunkIndex + 1)%N in
      match chunkUploader chunkIndex' chunkSize indexTime run u with
      | None => None
      | Some (Ok _, u') =>
          if (up_uploaded u' <=? up_uploaded u)%N then Some (Ok chunkIndex', u')
          else last_chunks chunkSize indexTime runs' chunkIndex' u'
      | Some (Err e, u') => Some (Err e, u')
      | Some (Panic p, u') => Some (Panic p, u')
      end
  end.

(** ** Loading the index *)

(** The lines after the first; the number of keys so far. *)

Fixpoint load_keys (keys : list string) (numKeys : N) : M D N :=
  match keys with
  | [] => mret numKeys
  | key :: keys' => _ ← kv_Set key "X"; load_keys keys' (numKeys + 1)
  end.

(** The scanner stops at the end of the reader or at its error, which is not
    looked at. *)

Definition loadChunk (r : source) : M D (Time.Time * N) :=
  match Scan (src_data r) with
  | [] => fail (ErrMsg "invalid index file: expect a RFC3339Nano time has header")
  | header :: keys =>
      ts ← lift (Parse header);
      numKeys ← load_keys keys 0;
      mret (ts, numKeys)
  end.

(** The names of the chunks, page after page, and the last index. All the names
    are read before the chunks are loaded. *)

Fixpoint index_names (fuel : nat) (next : string) (lastIndex : N) : M S (list string * N) :=
  match fuel with
  | O => diverge
  | Datatypes.S fuel' =>
      r ← attempt (KeysPrefix next ReverseIndexPrefix "" 1024);
      match r with
      | inr err => fail (ErrMsg ("iterating index chunks in metadata []: " +:+ Errors.to_string err))
      | inl (ks, next') =>
          if decide (length ks = 0) then mret ([], lastIndex)
          else
            lastIndex' ← lift (chunk_indices ks lastIndex);
            if decide (next' = "") then mret (ks, lastIndex')
            else
              '(ks', lastIndex2) ← index_names fuel' next' lastIndex';
              mret (ks ++ ks', lastIndex2)
      end
  end.

(** The metadata store and the local key-value store. *)

Definition in_index {A} (m : M S A) : M (S * D) A := fun '(s, d) => let '(r, s') := m s in (r, (s', d)).

Definition in_db {A} (m : M D A) : M (S * D) A := fun '(s, d) => let '(r, d') := m d in (r, (s, d')).

(** An error that is wrapped with fmt.Errorf. *)

Definition wrapf {T A} (what : string) (m : M T A) : M T A :=
  r ← attempt m;
  match r with
  | inl a => mret a
  | inr e => fail (ErrMsg (what +:+ ": " +:+ Errors.to_string e))
  end.

Definition load_chunk (chunk : string) : M (S * D) (Time.Time * N) :=
  r ← wrapf ("open index chunk in metadata [" +:+ chunk +:+ "]") (in_index (Get chunk));
  wrapf ("loading index chunk in metadata [" +:+ chunk +:+ "]") (in_db (loadChunk (NewReader r))).

(** The goroutines that load the chunks, in the order in which they end; the
    time of the index is the one of the last chunk. *)

Fixpoint load_chunks (chunks : list string) (indexTime : option Time.Time) (numKeys : N) : M (S * D) (option Time.Time * N) :=
  match chunks with
  | [] => mret (indexTime, numKeys)
  | chunk :: chunks' =>
      '(ts, loadedKeys) ← load_chunk chunk;
      load_chunks chunks' (Some ts) (numKeys + loadedKeys)
  end.

Definition copyIndexChunks (fuel : nat) (order : list string -> list string) : M (S * D) (option Time.Time * N * N) :=
  '(chunks, lastIndex) ← in_index (index_names fuel "" 0);
  '(indexTime, numKeys) ← wrapf "copy index chunks" (load_chunks (order chunks) None 0);
  _ ← in_db kv_Compact;
  mret (indexTime, numKeys, lastIndex).

(** preloadIndexFiles *)

Definition preloadIndexFiles (fuel : nat) (order : list string -> list string) : M (S * D) (N * N * option Time.Time) :=
  '(indexTime, numKeys, lastIndex) ← wrapf "copy index" (copyIndexChunks fuel order);
  mret (lastIndex, numKeys, indexTime).

(** ** Dropping the index *)

Fixpoint drop_index (fuel : nat) (next : string) : M S unit :=
  match fuel with
  | O => diverge
  | Datatypes.S fuel' =>
      '(ks, next') ← wrapf "iterating index chunks in metadata []" (KeysPrefix next ReverseIndexPrefix "" 1024);
      if decide (length ks = 0) then mret tt
      else
        _ ← for_each ks (fun chunk => wrapf ("delete index chunk in metadata [" +:+ chunk +:+ "]") (Delete chunk));
        if decide (next' = "") then mret tt else drop_index fuel' next'
  end.

Definition PurgeDropReverseIndex (fuel : nat) : M (Stores S) unit := getMetaStore (drop_index fuel "").

(** ** The lock *)

(** [now] is the quoted time of the call, [name] the name of the metadata store. *)

Definition PurgeUnlock : M (Stores S) unit := getMetaStore (Delete PurgeLock).

Definition setPurgeLock (now name : string) (opts : list PurgeOption) : M (Stores S) unit :=
  let options := defaultPurgeOptions opts in
  let overwrite := if po_force options then OverWrite else NoOverWrite in
  r ← attempt (getMetaStore (Put PurgeLock (NewReader (line ("locked_at: " +:+ now))) overwrite));
  match r with
  | inl _ => mret tt
  | inr err =>
      if contains "googleapi: Error 412: Precondition Failed, conditionNotMet" (Errors.to_string err)
      then fail (ErrMsg ("a lock exist [" +:+ PurgeLock +:+ "]: " +:+ name))
      else fail err
  end.

End index.

(** ** Lemmas on lines *)

(** A text that a chunk can hold on a line. *)

Definition line_ok (s : string) : Prop :=
  let b := String.list_byte_of_string s in
  newline ∉ b /\ last b <> Some carriage_return /\ length b < MaxScanTokenSize.

Lemma split_lines_cons l : forall cur text, newline ∉ l -> split_lines (l ++ newline :: text) cur = (cur ++ l) :: split_lines text [].
Proof.
  induction l as [|c l IH]; intros cur text Hn; cbn [app split_lines].
  - rewrite decide_True by done. by rewrite app_nil_r.
  - apply not_elem_of_cons in Hn as [Hc Hn]. rewrite decide_False by congruence. rewrite IH by done. by rewrite <- app_assoc.
Qed.

Lemma split_lines_lines ss : Forall line_ok ss -> split_lines (concat (line <$> ss)) [] = String.list_byte_of_string <$> ss.
Proof.
  induction 1 as [|s ss (Hn & _) _ IH]; [done|]. rewrite !fmap_cons. cbn [concat]. unfold line at 1. rewrite <- app_assoc. cbn [app].
  rewrite split_lines_cons by done. by rewrite IH.
Qed.

Lemma fitting_all ss : Forall line_ok ss -> fitting (String.list_byte_of_string <$> ss) = String.list_byte_of_string <$> ss.
Proof. induction 1 as [|s ss (_ & _ & Hl) _ IH]; [done|]. rewrite fmap_cons. cbn [fitting]. rewrite decide_True by done. by rewrite IH. Qed.

Lemma dropCR_ok s : line_ok s -> dropCR (String.list_byte_of_string s) = String.list_byte_of_string s.
Proof. intros (_ & Hc & _). unfold dropCR. destruct (last _) as [c|]; [|done]. rewrite decide_False by congruence. done. Qed.

(** The lines of a text are scanned back. *)

Lemma Scan_lines ss : Forall line_ok ss -> Scan (concat (line <$> ss)) = ss.
Proof.
  intros Hss. unfold Scan. rewrite split_lines_lines, fitting_all by done. rewrite <- list_fmap_compose. rewrite <- (list_fmap_id ss) at 2.
  apply list_fmap_ext. intros i s Hs%list_elem_of_lookup_2. rewrite Forall_forall in Hss. cbn. rewrite dropCR_ok by auto.
  apply String.string_of_list_byte_of_string.
Qed.

(** The keys of blobs are such texts. *)

Lemma hexdigits_plain (x : Byte.byte) :
  let a := byte_of_ascii (Hex.hexdigit (Byte.to_N x / 16)) in let b := byte_of_ascii (Hex.hexdigit (Byte.to_N x mod 16)) in
  (a <> newline /\ a <> carriage_return) /\ (b <> newline /\ b <> carriage_return).
Proof. destruct x; vm_compute; repeat split; discriminate. Qed.

Lemma EncodeToString_plain b : Forall (fun c => c <> newline /\ c <> carriage_return) (String.list_byte_of_string (Hex.EncodeToString b)).
Proof.
  induction b as [|x b IH]; [constructor|]. destruct (hexdigits_plain x) as [Ha Hb].
  change (String.list_byte_of_string (Hex.EncodeToString (x :: b))) with
    (byte_of_ascii (Hex.hexdigit (Byte.to_N x / 16)) :: byte_of_ascii (Hex.hexdigit (Byte.to_N x mod 16)) :: String.list_byte_of_string (Hex.EncodeToString b)).
  constructor; [exact Ha|]. constructor; [exact Hb|exact IH].
Qed.

Lemma length_list_byte s : length (String.list_byte_of_string s) = String.length s.
Proof. induction s as [|c s IH]; [done|]. cbn [String.length]. rewrite <- IH. done. Qed.

Lemma EncodeToString_ok b : length b < 1000 -> line_ok (Hex.EncodeToString b).
Proof.
  intros Hb. pose proof (EncodeToString_plain b) as Hp. rewrite Forall_forall in Hp. split; [|split].
  - intros Hn. by apply Hp in Hn as [? _].
  - intros Hl%last_Some_elem_of. by apply Hp in Hl as [_ ?].
  - rewrite length_list_byte, Hex.length_EncodeToString. unfold MaxScanTokenSize. lia.
Qed.

(** ** Lemmas on the reader *)

(** The keys [ks] are marked as uploaded. *)

Definition mark (ks : list string) (m : gmap string string) : gmap string string := foldl (fun m k => <[k := "X"]> m) m ks.

Lemma mark_app ks1 ks2 m : mark (ks1 ++ ks2) m = mark ks2 (mark ks1 m).
Proof. apply foldl_app. Qed.

Lemma lookup_mark ks : forall m k, mark ks m !! k = if decide (k ∈ ks) then Some "X" else m !! k.
Proof.
  induction ks as [|k0 ks IH]; intros m k; cbn; [done|]. fold (mark ks (<[k0 := "X"]> m)). rewrite IH.
  destruct (decide (k = k0)) as [->|Hne].
  - rewrite lookup_insert_eq. rewrite (decide_True (P := k0 ∈ k0 :: ks)) by (by left). by case_decide.
  - rewrite lookup_insert_ne by done. destruct (decide (k ∈ ks)) as [Hin|Hin]; [rewrite decide_True by (by right); done|].
    rewrite decide_False; [done|]. by intros [?|?]%elem_of_cons.
Qed.

Definition unmarked (items : list (string * string)) : list string := (filter (fun p => p.2 = "") items).*1.

Lemma iterateKV_items maxKeys items : forall iterated, (iterated <= maxKeys)%N ->
  iterateKV maxKeys iterated (item <$> items) = (take (N.to_nat (maxKeys - iterated)) (unmarked items), None).
Proof.
  unfold unmarked. induction items as [|[k v] items IH]; intros it Hit; [cbn; by rewrite take_nil|]. rewrite fmap_cons. cbn [iterateKV item fst snd].
  destruct (decide (v = "")) as [->|Hv].
  - rewrite decide_False by tauto. rewrite filter_cons_True by done. cbn [fmap list_fmap fst]. destruct (N.ltb_spec maxKeys (it + 1)).
    + replace (N.to_nat (maxKeys - it)) with 0 by lia. done.
    + rewrite IH by lia. replace (N.to_nat (maxKeys - it)) with (Datatypes.S (N.to_nat (maxKeys - (it + 1)))) by lia. done.
  - rewrite decide_True by done. rewrite filter_cons_False by done. by apply IH.
Qed.

Section reader.
Context {S D : Type} `{HK : !KvStore D, HKL : !KvLaws D, HKR : !ReliableKv D}.
Variables (Format : Time.Time -> string).

Lemma line_nonempty s : line s <> [].
Proof. unfold line. by destruct (String.list_byte_of_string s). Qed.

Lemma rest_nil r : rest Format r = [] -> rd_partial r = [] /\ rd_readOnce r = true /\ rd_out r = [].
Proof.
  unfold rest. intros [-> [H1 H2]%app_nil]%app_nil. split_and!; [done| |].
  - destruct (rd_readOnce r); [done|]. by apply line_nonempty in H1.
  - destruct (rd_out r) as [|k ks]; [done|]. apply app_nil in H2 as [H2 _]. by apply line_nonempty in H2.
Qed.

(** One call of Read: the next bytes, with the keys they begin marked. *)

Lemma Read_next room r (db : D) : 0 < room -> rest Format r <> [] ->
  exists b r' db' ks, Read Format room (r, db) = (Ok (Some b), (r', db')) /\ b <> [] /\ rest Format r = b ++ rest Format r' /\
    rd_out r = ks ++ rd_out r' /\ entries db' = mark ks (entries db) /\ rd_count r' = (rd_count r + N.of_nat (length ks))%N.
Proof.
  intros Hroom Hne. destruct r as [out once_ t cnt part]. unfold Read, deliver. cbn [rd_out rd_readOnce rd_indexTime rd_count rd_partial].
  assert (Htake : forall l : bytes, l <> [] -> take room l <> []) by (intros [|c l] H; [done|destruct room; [lia|done]]).
  assert (Hcut : forall l x : bytes, l ++ x = take room l ++ drop room l ++ x) by (intros l x; by rewrite app_assoc, take_drop).
  case_decide as Hp.
  - eexists _, _, db, []. split; [done|]. split; [apply Htake; intros ->; cbn in Hp; lia|]. unfold rest. cbn [rd_out rd_readOnce rd_indexTime rd_count rd_partial fmap list_fmap concat app]. split_and!; [apply Hcut|done..|cbn; lia].
  - assert (part = []) as -> by (destruct part; [done|cbn in Hp; lia]). destruct once_; cbn [negb].
    + destruct out as [|k out]; [by cbn in Hne|]. destruct (Set_ok k "X" db) as (db' & -> & He).
      eexists _, _, db', [k]. split; [done|]. split; [apply Htake, line_nonempty|]. unfold rest. cbn [rd_out rd_readOnce rd_indexTime rd_count rd_partial fmap list_fmap concat app]. split_and!; [apply Hcut|done..|cbn; lia].
    + eexists _, _, db, []. split; [done|]. split; [apply Htake, line_nonempty|]. unfold rest. cbn [rd_out rd_readOnce rd_indexTime rd_count rd_partial fmap list_fmap concat app]. split_and!; [apply Hcut|done..|cbn; lia].
Qed.

(** A store that reads to the end, with whatever buffers, gets the time and all
    the keys, which are then marked. *)

Lemma drain_all o : pr_stop o = None -> forall fuel i r (db : D), length (rest Format r) < fuel ->
  exists r' db', drain Format fuel i o (r, db) = (Ok (Source (rest Format r) None), (r', db')) /\ rd_out r' = [] /\
    entries db' = mark (rd_out r) (entries db) /\ rd_count r' = (rd_count r + N.of_nat (length (rd_out r)))%N.
Proof.
  destruct o as [room stop]. cbn. intros ->. induction fuel as [|fuel IH]; intros i r db Hf; [lia|]. cbn [drain pr_stop pr_room].
  destruct (decide (rest Format r = [])) as [Hr|Hr].
  - pose proof (rest_nil _ Hr) as (Hp & Ho & Hout). unfold Read. rewrite Hp, Ho, Hout. cbn. rewrite Hr. eexists _, _. split_and!; [done|done|done|lia].
  - destruct (Read_next (Datatypes.S (room i)) r db) as (b & r' & db' & ks & -> & Hb & Hrest & Hout & He & Hc); [lia|done|].
    destruct (IH (Datatypes.S i) r' db') as (r2 & db2 & -> & Ho2 & He2 & Hc2).
    { rewrite Hrest, length_app in Hf. destruct b; [done|cbn in Hf; lia]. }
    exists r2, db2. cbn [src_data src_err]. rewrite <- Hrest. split_and!; [done|done| |].
    + by rewrite He2, He, Hout, mark_app.
    + rewrite Hc2, Hc, Hout, length_app. lia.
Qed.

End reader.

(** ** Uploading chunks *)

(** What a chunk holds. *)

Definition chunk_text (Format : Time.Time -> string) (t : Time.Time) (ks : list string) : bytes := concat (line <$> (Format t :: ks)).

(** The deletion of an object that is missing succeeds or says so. *)

Class DeleteReports (S : Type) `{StoreLaws S} : Prop := Delete_absent k s : objects s !! k = None ->
  (Delete k s).1 = Ok tt \/ exists e, (Delete k s).1 = Err e /\ Errors.Is e StorageStatus.ErrNotExists = true.

#[export] Instance mem_DeleteReports : DeleteReports (gmap string bytes).
Proof. intros k s Hk. cbn in *. rewrite Hk. right. eexists. split; [done|]. vm_compute. done. Qed.

(** The keys a database holds that are not marked, in an order. *)

Definition waiting (m : gmap string string) (ks : list string) : Prop := NoDup ks /\ forall k, k ∈ ks <-> m !! k = Some "".

Lemma waiting_unmarked items m : items ≡ₚ map_to_list m -> waiting m (unmarked items).
Proof.
  intros Hp. unfold unmarked. split.
  - eapply sublist_NoDup; [|apply fmap_sublist, sublist_filter]. rewrite Hp. apply NoDup_fst_map_to_list.
  - intros k. rewrite list_elem_of_fmap. split.
    + intros ([k' v] & -> & [Hv Hin]%list_elem_of_filter). cbn in *. subst v. rewrite Hp in Hin. by apply elem_of_map_to_list.
    + intros Hk. exists (k, ""). split; [done|]. apply list_elem_of_filter. split; [done|]. rewrite Hp. by apply elem_of_map_to_list.
Qed.

Section uploading.
Context {S D : Type} `{HS : !Store S, HSL : !StoreLaws S, HR : !ReliableStore S, HD : !DeleteReports S}.
Context `{HK : !KvStore D, HKL : !KvLaws D, HKR : !ReliableKv D}.
Variables (Format : Time.Time -> string).

Lemma put_chunk_ok file t max o (u : uploads (S := S) (D := D)) ks :
  pr_stop o = None -> objects (up_store u) !! file = None ->
  rd_out (newDBReader t max (up_db u)) = ks ->
  exists u', put_chunk Format file (newDBReader t max (up_db u)) o u = Some (Ok tt, u') /\
    objects (up_store u') = <[file := chunk_text Format t ks]> (objects (up_store u)) /\
    entries (up_db u') = mark ks (entries (up_db u)) /\ up_uploaded u' = (up_uploaded u + N.of_nat (length ks))%N.
Proof.
  intros Ho Hf Hks. unfold put_chunk. set (r := newDBReader t max (up_db u)) in *.
  destruct (drain_all Format o Ho (Datatypes.S (length (rest Format r))) 0 r (up_db u)) as (r' & db' & -> & Hout & He & Hc); [lia|].
  assert (rest Format r = chunk_text Format t ks) as Hrest by (by rewrite <- Hks).
  rewrite Hrest. pose proof (Put_total file (chunk_text Format t ks) NoOverWrite (up_store u)) as Ht. unfold NewReader in Ht.
  destruct (Put file _ NoOverWrite (up_store u)) as [res s'] eqn:E. cbn in Ht. rewrite Ht in * by done. apply Put_spec in E as [E _].
  destruct (E eq_refl) as [Hobj _]. unfold close_reader. rewrite Hout, decide_True by (cbn; unfold outBuffer; lia).
  eexists. split; [done|]. cbn. rewrite Hks in *. split_and!; [done..|]. rewrite Hc. done.
Qed.

(** An attempt that the store does not give up uploads the first keys that
    wait, and marks them. *)

Lemma chunk_attempt_ok i max t o (u : uploads (S := S) (D := D)) :
  pr_stop o = None ->
  exists ks later u', chunk_attempt Format i max t o u = Some (Ok tt, u') /\
    waiting (entries (up_db u)) (ks ++ later) /\ (length ks = N.to_nat max \/ later = []) /\
    objects (up_store u') = <[ReverseIndexFile i := chunk_text Format t ks]> (objects (up_store u)) /\
    entries (up_db u') = mark ks (entries (up_db u)) /\ up_uploaded u' = (up_uploaded u + N.of_nat (length ks))%N.
Proof.
  intros Ho. destruct (AllKeys_ok (up_db u)) as (items & Ei & Hp).
  set (ks := take (N.to_nat max) (unmarked items)). exists ks, (drop (N.to_nat max) (unmarked items)).
  assert (rd_out (newDBReader t max (up_db u)) = ks) as Hout.
  { unfold newDBReader. cbn. rewrite Ei, iterateKV_items by lia. by rewrite N.sub_0_r. }
  set (file := ReverseIndexFile i).
  assert (forall s1, objects s1 = delete file (objects (up_store u)) -> exists u',
    put_chunk Format file (newDBReader t max (up_db u)) o (mkUploads s1 (up_db u) (up_uploaded u)) = Some (Ok tt, u') /\
    objects (up_store u') = <[file := chunk_text Format t ks]> (objects (up_store u)) /\
    entries (up_db u') = mark ks (entries (up_db u)) /\ up_uploaded u' = (up_uploaded u + N.of_nat (length ks))%N) as Hput.
  { intros s1 Hs1. destruct (put_chunk_ok file t max o (mkUploads s1 (up_db u) (up_uploaded u)) ks) as (u' & E & H1 & H2); [done|cbn; by rewrite Hs1, lookup_delete_eq|done|].
    exists u'. split; [exact E|]. split; [|exact H2]. rewrite H1. cbn. by rewrite Hs1, insert_delete_eq. }
  assert (exists u', chunk_attempt Format i max t o u = Some (Ok tt, u') /\
    objects (up_store u') = <[file := chunk_text Format t ks]> (objects (up_store u)) /\
    entries (up_db u') = mark ks (entries (up_db u)) /\ up_uploaded u' = (up_uploaded u + N.of_nat (length ks))%N) as (u' & H1 & H2).
  { unfold chunk_attempt. fold file. destruct (Delete file (up_store u)) as [del s1] eqn:Ed.
    destruct (objects (up_store u) !! file) as [b|] eqn:Ef.
    - pose proof (Delete_present file (up_store u)) as Hd. rewrite Ed in Hd. cbn in Hd. rewrite Hd in * by eauto.
      apply Delete_spec in Ed as [Hdel _]. by apply Hput, Hdel.
    - destruct (Delete_absent file (up_store u) Ef) as [Hd|(e & Hd & He)]; rewrite Ed in Hd; cbn in Hd; subst del; apply Delete_spec in Ed as [Hd1 Hd2].
      + by apply Hput, Hd1.
      + rewrite He. apply Hput. rewrite Hd2 by done. by rewrite delete_id. }
  exists u'. split; [done|]. split; [unfold ks; rewrite take_drop; by apply waiting_unmarked|]. split; [|done].
  unfold ks. destruct (decide (N.to_nat max <= length (unmarked items))) as [Hl|Hl]; [left; rewrite length_take; lia|right; apply drop_ge; lia].
Qed.

(** ** The index *)

(** The objects under the prefix of the index are the chunks [cs], written at
    the time [t]. *)

Definition index_is (t : Time.Time) (objs : gmap string bytes) (cs : gmap N (list string)) : Prop :=
  forall f b, Strings.HasPrefix f ReverseIndexPrefix = true ->
    objs !! f = Some b <-> exists i ks, f = ReverseIndexFile i /\ cs !! i = Some ks /\ b = chunk_text Format t ks.

Definition chunk_keys (cs : gmap N (list string)) (k : string) : Prop := exists i ks, cs !! i = Some ks /\ k ∈ ks.

Lemma ReverseIndexFile_eq n : ReverseIndexFile n = ReverseIndexPrefix +:+ Strconv.FormatUint n +:+ ".yaml".
Proof.
  unfold ReverseIndexFile. pose proof (Path.Join_plain [reverseIndexFile] [indexFilePrefix +:+ Strconv.FormatUint n +:+ ".yaml"]) as HJ.
  cbn [app Strings.Join] in HJ. rewrite HJ; [done|done|done| |].
  - by apply Forall_singleton.
  - apply Forall_singleton, ModelPaths.chunk_name_plain.
Qed.

Lemma ReverseIndexFile_prefix n : Strings.HasPrefix (ReverseIndexFile n) ReverseIndexPrefix = true.
Proof. rewrite ReverseIndexFile_eq. apply Strings.HasPrefix_app. Qed.

#[export] Instance ReverseIndexFile_inj : Inj (=) (=) ReverseIndexFile.
Proof.
  intros a b H. rewrite !ReverseIndexFile_eq in H. apply (f_equal (Strings.strip ReverseIndexPrefix)) in H. rewrite !Strings.strip_app in H. injection H as H.
  apply (f_equal (fun s => (span_digits s).1)) in H. change ".yaml" with ("." +:+ "yaml") in H. rewrite !ModelPaths.span_digits_FormatUint in H. cbn in H.
  apply (f_equal Strconv.ParseDigits) in H. rewrite !Strconv.ParseDigits_FormatUint in H. by simplify_eq.
Qed.

(** An upload in progress: the marked keys are those of the chunks, and nothing
    else has changed in the metadata store. *)

Record uploaded_inv (t : Time.Time) (objs0 : gmap string bytes) (cs : gmap N (list string)) (u : uploads (S := S) (D := D)) : Prop := {
  ui_index : index_is t (objects (up_store u)) cs;
  ui_outside f : Strings.HasPrefix f ReverseIndexPrefix = false -> objects (up_store u) !! f = objs0 !! f;
  ui_values k v : entries (up_db u) !! k = Some v -> v = "" \/ v = "X";
  ui_marked k : entries (up_db u) !! k = Some "X" <-> chunk_keys cs k
}.

Lemma chunk_keys_insert cs i ks k : cs !! i = None -> chunk_keys (<[i := ks]> cs) k <-> k ∈ ks \/ chunk_keys cs k.
Proof.
  intros Hi. split.
  - intros (j & l & [[-> ->]|[Hne Hj]]%lookup_insert_Some & Hk); [by left|]. right. by exists j, l.
  - intros [Hk|(j & l & Hj & Hk)]; [exists i, ks; by rewrite lookup_insert_eq|]. exists j, l. rewrite lookup_insert_ne; [done|]. intros ->. congruence.
Qed.

Definition good (run : list put_run) : Prop := exists o, run = [o] /\ pr_stop o = None.

Lemma chunkUploader_ok i max t run objs0 cs u :
  good run -> uploaded_inv t objs0 cs u -> cs !! i = None ->
  exists ks later u', chunkUploader Format i max t run u = Some (Ok tt, u') /\ uploaded_inv t objs0 (<[i := ks]> cs) u' /\
    waiting (entries (up_db u)) (ks ++ later) /\ (length ks = N.to_nat max \/ later = []) /\
    entries (up_db u') = mark ks (entries (up_db u)) /\ up_uploaded u' = (up_uploaded u + N.of_nat (length ks))%N.
Proof.
  intros (o & -> & Ho) [Hidx Hout Hval Hmk] Hi. destruct (chunk_attempt_ok i max t o u Ho) as (ks & later & u' & E & Hw & Hlen & Hobj & He & Hc).
  exists ks, later, u'. split; [unfold chunkUploader; cbn [Retry]; by rewrite E|]. split; [|done]. split.
  - intros f b Hf. rewrite Hobj. destruct (decide (f = ReverseIndexFile i)) as [->|Hne].
    + rewrite lookup_insert_eq. split; [intros [= <-]; exists i, ks; by rewrite lookup_insert_eq|].
      intros (j & l & <-%(inj _) & Hl & ->). rewrite lookup_insert_eq in Hl. by simplify_eq.
    + rewrite lookup_insert_ne by done. pose proof (Hidx f b Hf) as Hfb; cbn beta in Hfb; rewrite Hfb. split; intros (j & l & -> & Hl & ->); exists j, l.
      * by rewrite lookup_insert_ne by congruence.
      * rewrite lookup_insert_ne in Hl by congruence. done.
  - intros f Hf. rewrite Hobj, lookup_insert_ne; [by apply Hout|]. intros <-. by rewrite ReverseIndexFile_prefix in Hf.
  - intros k v. rewrite He, lookup_mark. case_decide; [intros [= <-]; by right|apply Hval].
  - intros k. rewrite He, lookup_mark, (chunk_keys_insert _ _ _ _ Hi). case_decide as Hk; [tauto|]. rewrite Hmk. tauto.
Qed.

Lemma waiting_length m ks ks' : waiting m ks -> waiting m ks' -> length ks = length ks'.
Proof. intros [Hn Hk] [Hn' Hk']. apply Permutation_length, NoDup_Permutation; [done..|]. intros k. by rewrite Hk, Hk'. Qed.

Lemma waiting_mark m ks later : waiting m (ks ++ later) -> waiting (mark ks m) later.
Proof.
  intros [Hn Hk]. apply NoDup_app in Hn as (Hn1 & Hd & Hn2). split; [done|]. intros k. rewrite lookup_mark. case_decide as Hin.
  - split; [|done]. intros Hl. by destruct (Hd k).
  - rewrite <- Hk, elem_of_app. tauto.
Qed.

(** The last chunks: all keys are marked in the end, whatever the number of
    rounds, and as many rounds as there are keys, and one, are enough. *)

Lemma last_chunks_ok max t objs0 : (0 < max)%N -> forall rs i cs u ks,
  Forall good rs -> uploaded_inv t objs0 cs u -> (forall j, is_Some (cs !! j) -> (j <= i)%N) -> waiting (entries (up_db u)) ks ->
  (forall r u', last_chunks Format max t rs i u = Some (r, u') -> exists n cs', r = Ok n /\ uploaded_inv t objs0 cs' u' /\
     (forall k, entries (up_db u') !! k = if decide (k ∈ ks) then Some "X" else entries (up_db u) !! k) /\
     up_uploaded u' = (up_uploaded u + N.of_nat (length ks))%N /\ cs' <> ∅ /\ (forall j, is_Some (cs' !! j) -> (j <= n)%N) /\ (n <= i + N.of_nat (length rs))%N) /\
  (length ks < length rs -> is_Some (last_chunks Format max t rs i u)).
Proof.
  intros Hmax. induction rs as [|run rs IH]; intros i cs u ks Hg Hinv Hi Hw; [split; [done|cbn; lia]|].
  apply Forall_cons in Hg as [Hr Hg]. cbn [last_chunks].
  assert (cs !! (i + 1)%N = None) as Hfresh by (destruct (cs !! (i + 1)%N) eqn:E; [|done]; assert (i + 1 <= i)%N by eauto; lia).
  destruct (chunkUploader_ok (i + 1) max t run objs0 cs u Hr Hinv Hfresh) as (ks1 & later & u1 & -> & Hinv1 & Hw1 & Hl & He & Hc).
  pose proof (waiting_length _ _ _ Hw Hw1) as Hlen. rewrite length_app in Hlen.
  assert (forall k, k ∈ ks <-> k ∈ ks1 ++ later) as Hin by (intros k; by rewrite (proj2 Hw k), (proj2 Hw1 k)).
  destruct (N.leb_spec (up_uploaded u1) (up_uploaded u)) as [Hle|Hlt].
  - assert (ks1 = []) as -> by (destruct ks1; [done|cbn in Hc; lia]). assert (later = []) as -> by (destruct Hl as [Hl|Hl]; [cbn in Hl; lia|done]).
    split; [|by intros; eexists]. intros r u' [= <- <-]. eexists _, _. split; [done|]. split; [exact Hinv1|]. split_and!.
    + intros k. rewrite He. rewrite decide_False; [done|]. rewrite Hin. by intros ?%elem_of_nil.
    + rewrite Hc. cbn in *. lia.
    + apply insert_non_empty.
    + intros j [l [[<- _]|[_ Hj]]%lookup_insert_Some]; [lia|]. assert (j <= i)%N by eauto. lia.
    + cbn [length]. lia.
  - assert (ks1 <> []) as Hne by (intros ->; cbn in Hc; lia). assert (0 < length ks1) by (destruct ks1; [done|cbn; lia]).
    destruct (IH (i + 1)%N (<[(i + 1)%N := ks1]> cs) u1 later Hg Hinv1) as [Hs Ht].
    { intros j [l [[<- _]|[_ Hj]]%lookup_insert_Some]; [lia|]. assert (j <= i)%N by eauto. lia. }
    { rewrite He. by apply waiting_mark. }
    split.
    + intros r u' E. destruct (Hs r u' E) as (n & cs' & -> & Hinv' & Hk & Hcnt & Hcs & Hle & Hn). exists n, cs'. split_and!; [done..| | |done|done|cbn [length]; lia].
      * intros k. rewrite Hk, He, lookup_mark. specialize (Hin k). rewrite elem_of_app in Hin. repeat case_decide; tauto.
      * rewrite Hcnt, Hc. lia.
    + cbn [length]. intros Hr'. apply Ht. lia.
Qed.

End uploading.

(** ** Loading the index *)

Section loading.
Context {S D : Type} `{HS : !Store S, HSL : !StoreLaws S, HR : !ReliableStore S, HLL : !ListingLaws S}.
Context `{HK : !KvStore D, HKL : !KvLaws D, HKR : !ReliableKv D}.
Variables (Format : Time.Time -> string) (Parse : string -> res Time.Time).

Lemma load_keys_runs ks : forall n (d : D), runs (load_keys ks n) d (fun n' d' => n' = (n + N.of_nat (length ks))%N /\ entries d' = mark ks (entries d)).
Proof.
  induction ks as [|k ks IH]; intros n d; [apply runs_ret; split; [cbn; lia|done]|]. cbn [load_keys]. apply runs_bind.
  destruct (Set_ok k "X" d) as (d1 & E & He). eapply runs_eq; [exact E|]. eapply runs_mono; [apply IH|]. intros n' d' [-> He'].
  split; [cbn; lia|]. by rewrite He', He.
Qed.

Lemma loadChunk_runs t ks (d : D) : Parse (Format t) = Ok t -> line_ok (Format t) -> Forall line_ok ks ->
  runs (loadChunk Parse (NewReader (chunk_text Format t ks))) d (fun out d' => out = (t, N.of_nat (length ks)) /\ entries d' = mark ks (entries d)).
Proof.
  intros HP Hf Hks. unfold loadChunk. cbn [src_data NewReader]. unfold chunk_text. rewrite Scan_lines by (by constructor).
  apply runs_bind. eapply runs_lift; [exact HP|]. apply runs_bind. eapply runs_mono; [apply load_keys_runs|]. intros n d' [-> He]. by apply runs_ret.
Qed.

Lemma runs_wrapf {T A} what (m : M T A) t Q : runs m t Q -> runs (wrapf what m) t Q.
Proof. intros H. apply runs_bind, runs_attempt. eapply runs_mono; [exact H|]. intros a t' HQ. by apply runs_ret. Qed.

Lemma runs_index {A} (m : M S A) s (d : D) (Q : A -> S * D -> Prop) : runs m s (fun a s' => Q a (s', d)) -> runs (in_index m) (s, d) Q.
Proof. intros (a & s' & E & H). exists a, (s', d). split; [|done]. unfold in_index. by rewrite E. Qed.

Lemma runs_db {A} (m : M D A) (s : S) d (Q : A -> S * D -> Prop) : runs m d (fun a d' => Q a (s, d')) -> runs (in_db m) (s, d) Q.
Proof. intros (a & d' & E & H). exists a, (s, d'). split; [|done]. unfold in_db. by rewrite E. Qed.

(** The chunks [fs] hold the keys that [keys_of] gives. *)

Lemma load_chunks_runs t (keys_of : string -> list string) : Parse (Format t) = Ok t -> line_ok (Format t) -> forall fs s (d : D) t0 n,
  (forall f, f ∈ fs -> objects s !! f = Some (chunk_text Format t (keys_of f)) /\ Forall line_ok (keys_of f)) ->
  runs (load_chunks Parse fs t0 n) (s, d) (fun out st' => out = (if decide (fs = []) then t0 else Some t, (n + N.of_nat (length (fs ≫= keys_of)))%N) /\
    objects st'.1 = objects s /\ entries st'.2 = mark (fs ≫= keys_of) (entries d)).
Proof.
  intros HP Hf. induction fs as [|f fs IH]; intros s d t0 n Hfs; [apply runs_ret; rewrite decide_True by done; split_and!; [f_equal; cbn; lia|done..]|].
  destruct (Hfs f) as [Ho Hk]; [by left|]. cbn [load_chunks]. apply runs_bind. unfold load_chunk. apply runs_bind, runs_wrapf, runs_index.
  eapply runs_Get; [exact Ho|]. intros s1 Ho1. apply runs_wrapf, runs_db. eapply runs_mono; [by apply loadChunk_runs|]. intros out d1 [-> He1].
  eapply runs_mono; [apply IH|].
  - intros f' Hf'. rewrite Ho1. apply Hfs. by right.
  - intros out [s2 d2] (-> & Ho2 & He2). cbn [fst snd] in *. rewrite Ho2, He2, He1, Ho1. cbn [mbind list_bind]. rewrite mark_app, length_app. split_and!; [|done..].
    rewrite (decide_False (P := f :: fs = [])) by done. f_equal; [by case_decide|lia].
Qed.

Lemma chunk_indices_ok fs : forall last, (forall f, f ∈ fs -> exists i, ReverseIndexChunk f = Ok i) ->
  exists n, chunk_indices fs last = Ok n /\ (last <= n)%N /\ forall f i, f ∈ fs -> ReverseIndexChunk f = Ok i -> (i <= n)%N.
Proof.
  induction fs as [|f fs IH]; intros last Hfs; [exists last; split_and!; [done|lia|by intros ? ? ?%elem_of_nil]|].
  destruct (Hfs f) as [i Hi]; [by left|]. cbn [chunk_indices]. rewrite Hi. set (l := if (last <? i)%N then i else last).
  assert (last <= l /\ i <= l)%N as [Hl1 Hl2] by (unfold l; destruct (N.ltb_spec last i); lia).
  destruct (IH l) as (n & -> & Hn & Hall); [intros f' Hf'; apply Hfs; by right|]. exists n. split_and!; [done|lia|].
  intros f' i' [->|Hf']%elem_of_cons Hi'; [rewrite Hi in Hi'; injection Hi' as <-; lia|by eapply Hall].
Qed.

Lemma index_names_runs fuel : forall next last s, let names := remaining (objects s) ReverseIndexPrefix "" next in
  length names < fuel -> (forall f, f ∈ names -> exists i, ReverseIndexChunk f = Ok i) ->
  runs (index_names fuel next last) s (fun out s' => objects s' = objects s /\ out.1 = names /\ (last <= out.2)%N /\
    forall f i, f ∈ names -> ReverseIndexChunk f = Ok i -> (i <= out.2)%N).
Proof.
  induction fuel as [|fuel IH]; intros next last s names Hf Hn; [lia|]. cbn [index_names]. apply runs_bind, runs_attempt, runs_KeysPrefix; [lia|].
  intros ks next' rest_ s1 Ho Hr Hlen Hend Hnext. fold names in Hr. destruct ks as [|k0 ks0] eqn:Ek.
  { rewrite decide_True by done. apply runs_ret. cbn. assert (names = []) as ->; [|split_and!; [done|done|lia|by intros ? ? ?%elem_of_nil]].
    rewrite Hr. cbn. destruct (decide (next' = "")) as [Hn'|Hn']; [by apply Hend|]. destruct (Hnext Hn') as [Hl _]. done. }
  rewrite <- Ek in *. rewrite decide_False by (rewrite Ek; done). destruct (chunk_indices_ok ks last) as (l1 & E1 & Hl1 & Hall1).
  { intros f Hf'. apply Hn. rewrite Hr. set_solver. }
  apply runs_bind. eapply runs_lift; [exact E1|]. destruct (decide (next' = "")) as [Hn'|Hn'].
  - rewrite (Hend Hn'), app_nil_r in Hr. apply runs_ret. cbn. rewrite Hr. done.
  - destruct (Hnext Hn') as [_ Hrest]. rewrite <- Ho in Hrest. apply runs_bind. eapply runs_mono; [apply (IH next' l1 s1)|].
    + rewrite Hrest. rewrite Hr, Ek, length_app in Hf. cbn in Hf. lia.
    + intros f Hf'. apply Hn. rewrite Hr. rewrite Hrest in Hf'. set_solver.
    + intros [ks2 l2] s2 (Ho2 & Hk2 & Hl2 & Hall2). cbn [fst snd] in *. apply runs_ret. cbn [fst snd]. rewrite Hk2, Hrest. rewrite Hrest in Hall2.
      split_and!; [congruence|done|lia|]. intros f i Hf' Hi. rewrite Hr in Hf'. apply elem_of_app in Hf' as [Hf'|Hf']; [|by eapply Hall2]. specialize (Hall1 f i Hf' Hi). lia.
Qed.

Definition keys_of (cs : gmap N (list string)) (f : string) : list string :=
  match ReverseIndexChunk f with Ok i => default [] (cs !! i) | _ => [] end.

Lemma index_listing t objs cs f : index_is Format t objs cs -> f ∈ listing objs ReverseIndexPrefix "" <-> exists i ks, f = ReverseIndexFile i /\ cs !! i = Some ks.
Proof.
  intros Hi. rewrite listing_elem. unfold truncate. split.
  - intros (f' & [b Hb] & Hp & ->). rewrite decide_True by done. apply (Hi f' b Hp) in Hb as (i & ks & -> & Hks & _). eauto.
  - intros (i & ks & -> & Hks). exists (ReverseIndexFile i). rewrite decide_True by done. split_and!; [|apply ReverseIndexFile_prefix|done].
    exists (chunk_text Format t ks). apply Hi; [apply ReverseIndexFile_prefix|]. eauto.
Qed.

(** Copying the index of the chunks [cs]: the keys of the chunks are all loaded
    and marked, in whatever order the chunks are. *)

Lemma copyIndexChunks_runs fuel order t cs s (d : D) :
  Parse (Format t) = Ok t -> line_ok (Format t) -> (forall l, order l ≡ₚ l) ->
  index_is Format t (objects s) cs -> (forall i ks, cs !! i = Some ks -> (i <= max_uint64)%N /\ Forall line_ok ks) ->
  length (listing (objects s) ReverseIndexPrefix "") < fuel ->
  runs (copyIndexChunks Parse fuel order) (s, d) (fun out st' =>
    out.1.1 = (if decide (cs = ∅) then None else Some t) /\ (forall i, is_Some (cs !! i) -> (i <= out.2)%N) /\ objects st'.1 = objects s /\
    (forall k, chunk_keys cs k -> entries st'.2 !! k = Some "X") /\ (forall k, ~ chunk_keys cs k -> entries st'.2 !! k = entries d !! k)).
Proof.
  intros HP Hf Hord Hidx Hcs Hfuel. set (names := listing (objects s) ReverseIndexPrefix "").
  assert (Hnames : forall f, f ∈ names <-> exists i ks, f = ReverseIndexFile i /\ cs !! i = Some ks) by (intros f; by apply (index_listing t)).
  assert (Hparse : forall i ks, cs !! i = Some ks -> ReverseIndexChunk (ReverseIndexFile i) = Ok i) by (intros i ks Hi; by apply ModelPaths.ReverseIndexChunk_roundtrip, (Hcs i ks)).
  unfold copyIndexChunks. apply runs_bind, runs_index. eapply runs_mono; [apply index_names_runs|]; rewrite remaining_start; fold names; [done| |].
  { intros f (i & ks & -> & Hi)%Hnames. eauto. }
  intros [fs l] s1 (Ho1 & Hfs & _ & Hl). cbn [fst snd] in *. subst fs. apply runs_bind, runs_wrapf.
  assert (Hin : forall f, f ∈ order names <-> f ∈ names) by (intros f; by rewrite Hord).
  eapply runs_mono; [apply (load_chunks_runs t (keys_of cs) HP Hf)|].
  { intros f (i & ks & -> & Hi)%Hin%Hnames. unfold keys_of. rewrite (Hparse i ks Hi), Hi. cbn. split; [|by apply (Hcs i ks)].
    rewrite Ho1. apply Hidx; [apply ReverseIndexFile_prefix|]. eauto. }
  intros out [s2 d2] (-> & Ho2 & He2). cbn [fst snd] in *. apply runs_bind, runs_db.
  pose proof (Compact_total d2) as Hc. destruct (kv_Compact d2) as [rc d3] eqn:Ec. cbn in Hc. subst rc. apply Compact_spec in Ec as Hc. eapply runs_eq; [exact Ec|].
  apply runs_ret. cbn [fst snd]. rewrite Hc, He2.
  assert (Hkeys : forall k, k ∈ order names ≫= keys_of cs <-> chunk_keys cs k).
  { intros k. rewrite list_elem_of_bind. split.
    - intros (f & Hk & (i & ks & -> & Hi)%Hin%Hnames). unfold keys_of in Hk. rewrite (Hparse i ks Hi), Hi in Hk. by exists i, ks.
    - intros (i & ks & Hi & Hk). exists (ReverseIndexFile i). split; [|apply Hin, Hnames; eauto]. unfold keys_of. by rewrite (Hparse i ks Hi), Hi. }
  split_and!; [| |congruence| |].
  - destruct (decide (order names = [])) as [Hn|Hn]; destruct (decide (cs = ∅)) as [Hc0|Hc0]; try done.
    + destruct (map_choose _ Hc0) as (i & ks & Hi). assert (ReverseIndexFile i ∈ order names) as Hx by (apply Hin, Hnames; eauto). by rewrite Hn in Hx; apply elem_of_nil in Hx.
    + destruct (order names) as [|f fs] eqn:E; [done|]. assert (f ∈ f :: fs) as (i & ks & _ & Hi)%Hin%Hnames by (by left). by rewrite Hc0 in Hi.
  - intros i [ks Hi]. apply (Hl (ReverseIndexFile i)); [apply Hnames; eauto|by eapply Hparse].
  - intros k Hk. rewrite lookup_mark, decide_True; [done|]. by apply Hkeys.
  - intros k Hk. rewrite lookup_mark, decide_False; [done|]. by rewrite Hkeys.
Qed.

End loading.

(** ** Mutual exclusion *)

Section lock.
Context {S : Type} `{HS : !Store S, HSL : !StoreLaws S}.

(** A lock that is taken without force was free, and is held afterwards; one
    that is held is refused and left as it is. *)
Theorem setPurgeLock_exclusive now name opts (c : Stores S) r c' :
  po_force (defaultPurgeOptions opts) = false -> setPurgeLock now name opts c = (r, c') ->
  (r = Ok tt -> objects (Metadata c) !! PurgeLock = None /\
     objects (Metadata c') = <[PurgeLock := line ("locked_at: " +:+ now)]> (objects (Metadata c))) /\
  (is_Some (objects (Metadata c) !! PurgeLock) -> r <> Ok tt /\ objects (Metadata c') = objects (Metadata c)).
Proof.
  intros Hf. unfold setPurgeLock. rewrite Hf. unfold attempt, getMetaStore, mbind, M_bind, mret, M_ret.
  destruct (Put PurgeLock _ NoOverWrite (Metadata c)) as [rp s] eqn:E. apply Put_spec in E as (Hok & _ & Hex).
  destruct rp as [[]|e|m]; [|case_match|]; intros [= <- <-]; cbn; (split; [|intros Hs; split; [|by apply Hex]]); try done.
  - intros _. destruct (Hok eq_refl) as [? Hn]. split; [by apply Hn|done].
  - intros _. destruct (Hok eq_refl) as [_ Hn]. rewrite Hn in Hs by done. by destruct Hs.
Qed.

End lock.

End PurgeIndex.
