(* ===== verification/PurgeDelete.v ===== *)
(** * Deletion of the blobs that are not used (pkg/core: purge.go)

    PurgeDeleteUnused loads the reverse index to the local key-value store, then
    goes through the keys of the blob store: one goroutine retrieves pages of
    keys, another receives them and starts a goroutine for each, which looks
    its keys up in the index and deletes the blobs that are not there, unless
    they are more recent than the index. An execution is a sequence of the
    steps of these goroutines: the retrieval of a page, its reception, and the
    check of one key by one of the goroutines that run. *)

From S2P Require Import Prelude GoLib Errors Storage Model CoreMeta StoreRules CoreKeys PurgeKv Pool PurgeIndex.

Module PurgeDelete.
Import Model Storage CoreMeta StoreRules CoreKeys PurgeKv Pool PurgeIndex.

Definition batchSize : nat := 1024.

Record PurgeBlobs : Type := mkPurgeBlobs {
  pb_IndexTime : Time.Time;
  pb_ScannedEntries : N;
  pb_IndexedEntries : N;
  pb_MoreRecentEntries : N;
  pb_DeletedEntries : N;
  pb_DeletedSize : Z;
  pb_DryRun : bool
}.

Definition zeroAttributes : Attributes := mkAttributes Time.zero Time.zero "" 0 0.

Section deletion.
Context {S D : Type} `{HS : !Store S, HK : !KvStore D}.

(** The stores and the counters of a scan. *)

Record purging : Type := mkPurging {
  pg_blob : S;
  pg_db : D;
  pg_indexed : N;
  pg_moreRecent : N;
  pg_deleted : N;
  pg_deletedSize : Z
}.

Definition on_blob {A} (m : M S A) : M purging A := fun p =>
  let '(r, s) := m (pg_blob p) in (r, mkPurging s (pg_db p) (pg_indexed p) (pg_moreRecent p) (pg_deleted p) (pg_deletedSize p)).

Definition on_db {A} (m : M D A) : M purging A := fun p =>
  let '(r, d) := m (pg_db p) in (r, mkPurging (pg_blob p) d (pg_indexed p) (pg_moreRecent p) (pg_deleted p) (pg_deletedSize p)).

Definition count_indexed : M purging unit := fun p =>
  (Ok tt, mkPurging (pg_blob p) (pg_db p) (pg_indexed p + 1) (pg_moreRecent p) (pg_deleted p) (pg_deletedSize p)).

Definition count_moreRecent : M purging unit := fun p =>
  (Ok tt, mkPurging (pg_blob p) (pg_db p) (pg_indexed p) (pg_moreRecent p + 1) (pg_deleted p) (pg_deletedSize p)).

Definition count_deleted (size : Z) : M purging unit := fun p =>
  (Ok tt, mkPurging (pg_blob p) (pg_db p) (pg_indexed p) (pg_moreRecent p) (pg_deleted p + 1) (Int.uint64 (pg_deletedSize p + Int.uint64 size))).

(** Both retried closures return err of the enclosing function, which is nil
    there: they are called once, and their own errors are dropped. *)

Definition checkAndDeleteKey (indexTime : Time.Time) (dryRun : bool) (key : string) : M purging unit :=
  found ← on_db (kv_Exists key);
  if found : bool then count_indexed
  else
    r ← attempt (on_blob (GetAttr key));
    let attrs := match r with inl a => a | inr _ => zeroAttributes end in
    if Time.Before indexTime (Updated attrs) then count_moreRecent
    else
      _ ← count_deleted (Size attrs);
      if dryRun then mret tt
      else
        _ ← attempt (on_blob (Delete key));
        mret tt.

(** ** scanBlob *)

(** [sn_next]: the token of the page that fetchKeys retrieves next, if it has not
    ended; [sn_queue]: the pages that were not received; [sn_batches]: the keys
    the running goroutines have still to check; [sn_receiving]: the goroutine
    that receives pages has not ended; [sn_err]: the first error. *)

Record scanning : Type := mkScanning {
  sn_purging : purging;
  sn_next : option string;
  sn_queue : list keyBatchEvent;
  sn_receiving : bool;
  sn_batches : list (list string);
  sn_scanned : N;
  sn_err : option error
}.

Inductive scan_event : Type :=
| EFetch
| EReceive
| EStop
| ELookup (i : nat).

(** The channel of pages buffers one, and fetchKeys holds another one while it
    waits to send it. *)

Definition queued : nat := 2.

Definition first_error (e : error) (err : option error) : option error := match err with None => Some e | Some _ => err end.

Definition fetch_step (st : scanning) : option (res unit * scanning) :=
  match sn_next st with
  | None => None
  | Some next =>
      if decide (queued <= length (sn_queue st)) then None
      else
        let '(r, p) := on_blob (KeysPrefix next "" "" batchSize) (sn_purging st) in
        let fetched next' q := mkScanning p next' (sn_queue st ++ q) (sn_receiving st) (sn_batches st) (sn_scanned st) (sn_err st) in
        match r with
        | Panic m => Some (Panic m, fetched None [])
        | Err err => Some (Ok tt, fetched None [mkKeyBatch [] (Some err)])
        | Ok (ks, next') =>
            if decide (ks = []) then Some (Ok tt, fetched None [])
            else Some (Ok tt, fetched (if decide (next' = "") then None else Some next') [mkKeyBatch ks None])
        end
  end.

Definition receive_step (maxParallel : nat) (st : scanning) : option (res unit * scanning) :=
  match sn_receiving st, sn_queue st with
  | true, batch :: queue =>
      match kb_err batch with
      | Some err =>
          Some (Ok tt, mkScanning (sn_purging st) (sn_next st) queue false (sn_batches st) (sn_scanned st) (first_error err (sn_err st)))
      | None =>
          if decide (length (sn_batches st) < maxParallel) then
            Some (Ok tt, mkScanning (sn_purging st) (sn_next st) queue true (sn_batches st ++ [kb_keys batch])
                           (sn_scanned st + N.of_nat (length (kb_keys batch))) (sn_err st))
          else None
      end
  | _, _ => None
  end.

(** The reception ends when the channel is closed and empty, or when the group
    is cancelled. *)

Definition stop_step (st : scanning) : option (res unit * scanning) :=
  if decide (sn_receiving st = true /\ ((sn_next st = None /\ sn_queue st = []) \/ is_Some (sn_err st)))
  then Some (Ok tt, mkScanning (sn_purging st) (sn_next st) (sn_queue st) false (sn_batches st) (sn_scanned st) (sn_err st))
  else None.

Definition lookup_step (indexTime : Time.Time) (dryRun : bool) (i : nat) (st : scanning) : option (res unit * scanning) :=
  let batches bs p err := mkScanning p (sn_next st) (sn_queue st) (sn_receiving st) bs (sn_scanned st) err in
  match sn_batches st !! i with
  | None => None
  | Some [] => Some (Ok tt, batches (delete i (sn_batches st)) (sn_purging st) (sn_err st))
  | Some (key :: keys) =>
      match sn_err st with
      | Some _ => Some (Ok tt, batches (delete i (sn_batches st)) (sn_purging st) (sn_err st))
      | None =>
          match checkAndDeleteKey indexTime dryRun key (sn_purging st) with
          | (Ok _, p) => Some (Ok tt, batches (<[i := keys]> (sn_batches st)) p None)
          | (Err e, p) => Some (Ok tt, batches (delete i (sn_batches st)) p (Some e))
          | (Panic m, p) => Some (Panic m, batches (sn_batches st) p None)
          end
      end
  end.

Definition scan_step (maxParallel : nat) (indexTime : Time.Time) (dryRun : bool) (ev : scan_event) : scanning -> option (res unit * scanning) :=
  match ev with
  | EFetch => fetch_step
  | EReceive => receive_step maxParallel
  | EStop => stop_step
  | ELookup i => lookup_step indexTime dryRun i
  end.

Fixpoint scan_run (maxParallel : nat) (indexTime : Time.Time) (dryRun : bool) (evs : list scan_event) (st : scanning)
    : option (res unit * scanning) :=
  match evs with
  | [] => Some (Ok tt, st)
  | ev :: evs' =>
      match scan_step maxParallel indexTime dryRun ev st with
      | Some (Ok _, st') => scan_run maxParallel indexTime dryRun evs' st'
      | r => r
      end
  end.

Definition scan_start (blob : S) (db : D) : scanning := mkScanning (mkPurging blob db 0 0 0 0) (Some "") [] true [] 0 None.

(** The result when all the goroutines of the group have ended. *)

Definition scanBlob (maxParallel : nat) (indexTime : Time.Time) (dryRun : bool) (evs : list scan_event) : R (S * D) PurgeBlobs := fun '(blob, db) =>
  match scan_run maxParallel indexTime dryRun evs (scan_start blob db) with
  | None => None
  | Some (Panic m, st) => Some (Panic m, (pg_blob (sn_purging st), pg_db (sn_purging st)))
  | Some (Err e, st) => Some (Err e, (pg_blob (sn_purging st), pg_db (sn_purging st)))
  | Some (Ok _, st) =>
      let p := sn_purging st in
      if decide (sn_receiving st = true \/ sn_batches st <> []) then None
      else
        match sn_err st with
        | Some e => Some (Err e, (pg_blob p, pg_db p))
        | None =>
            Some (Ok (mkPurgeBlobs indexTime (sn_scanned st) (pg_indexed p) (pg_moreRecent p) (pg_deleted p) (pg_deletedSize p) dryRun), (pg_blob p, pg_db p))
        end
  end.

(** ** PurgeDeleteUnused *)

Variable Parse : string -> res Time.Time.

(** [opened]: the result of opening the database; any content of it is dropped. *)

Definition openKV (opened : res unit) : M D unit :=
  _ ← lift opened;
  wrapf "scrach KV" kv_Drop.

Definition with_index {A} (m : M (S * D) A) : M (Stores S * D) A := fun '(c, d) =>
  let '(r, (s, d')) := m (Metadata c, d) in (r, (SetMetadata s c, d')).

Definition with_db {A} (m : M D A) : M (Stores S * D) A := fun (st : Stores S * D) => let (r, d) := m st.2 in (r, (st.1, d)).

Definition with_blobs {A} (m : R (S * D) A) : R (Stores S * D) A := fun '(c, d) =>
  match m (Blob c, d) with
  | Some (r, (s, d')) => Some (r, (SetBlob s c, d'))
  | None => None
  end.

Definition PurgeDeleteUnused (opened : res unit) (fuel : nat) (order : list string -> list string) (evs : list scan_event)
    (opts : list PurgeOption) : R (Stores S * D) PurgeBlobs :=
  let options := defaultPurgeOptions opts in
  _ ← once (with_db (openKV opened));
  '(indexTime, _, _) ← once (with_index (wrapf "copy index" (copyIndexChunks Parse fuel order)));
  match indexTime with
  | None => once (panic "invalid memory address or nil pointer dereference")
  | Some t =>
      wrap_error (fun e => ErrMsg ("scan blob: " +:+ Errors.to_string e))
        (with_blobs (scanBlob (Z.to_nat (po_maxParallel options)) t (po_dryRun options) evs))
  end.

End deletion.

(** ** What a scan keeps *)

Section kept.
Context {S D : Type} `{HS : !Store S, HSL : !StoreLaws S, HLL : !ListingLaws S, HK : !KvStore D, HKL : !KvLaws D}.
Variables (indexTime : Time.Time) (dryRun : bool).

Lemma check_keeps key (p : purging (S := S) (D := D)) r p' k :
  checkAndDeleteKey indexTime dryRun key p = (r, p') ->
  entries (pg_db p') = entries (pg_db p) /\
  (dryRun = true \/ is_Some (entries (pg_db p) !! k) \/ k <> key -> objects (pg_blob p') !! k = objects (pg_blob p) !! k).
Proof.
  unfold checkAndDeleteKey, on_db, on_blob, attempt, count_indexed, count_moreRecent, count_deleted, mbind, M_bind, mret, M_ret.
  destruct (kv_Exists key (pg_db p)) as [rx d1] eqn:Ex. apply Exists_spec in Ex as [He Hb]. destruct rx as [[]|e|m]; cbn; [by intros [= <- <-]| |by intros [= <- <-]..].
  pose proof (Hb false eq_refl) as Hno%eq_sym%bool_decide_eq_false. destruct (GetAttr key (pg_blob p)) as [ra s1] eqn:Ea.
  pose proof (proj1 (GetAttr_spec _ _ _ _ Ea)) as Ho1.
  assert (forall r2 s2, Delete key s1 = (r2, s2) -> dryRun = true \/ is_Some (entries (pg_db p) !! k) \/ k <> key ->
    dryRun = false -> objects s2 !! k = objects (pg_blob p) !! k) as Hdel.
  { intros r2 s2 Ed Hk Hdry. rewrite <- Ho1. eapply Delete_ne; [exact Ed|]. intros ->. destruct Hk as [?|[?|?]]; [congruence|done|done]. }
  assert (forall a : Attributes, (let '(r2, p2) := (if Time.Before indexTime (Updated a) then count_moreRecent
      else _ ← count_deleted (Size a); if dryRun then mret tt else (_ ← attempt (on_blob (Delete key)); mret tt)) (mkPurging s1 d1 (pg_indexed p) (pg_moreRecent p) (pg_deleted p) (pg_deletedSize p)) in
    entries (pg_db p2) = entries (pg_db p) /\ (dryRun = true \/ is_Some (entries (pg_db p) !! k) \/ k <> key -> objects (pg_blob p2) !! k = objects (pg_blob p) !! k))) as Hend.
  { intros a. unfold count_moreRecent, count_deleted, attempt, on_blob, mbind, M_bind, mret, M_ret. destruct (Time.Before indexTime (Updated a)); cbn; [by rewrite Ho1|].
    destruct dryRun eqn:Edry; cbn; [by rewrite Ho1|]. destruct (Delete key s1) as [rd s2] eqn:Ed. destruct rd; cbn; (split; [done|]); intros Hk; by eapply Hdel. }
  destruct ra as [a|e|m]; cbn; [| |intros [= <- <-]; cbn; by rewrite Ho1].
  - intros E. specialize (Hend a). unfold attempt, on_blob, count_moreRecent, count_deleted, mbind, M_bind, mret, M_ret in Hend. cbn in Hend, E. by rewrite E in Hend.
  - intros E. specialize (Hend zeroAttributes). unfold attempt, on_blob, count_moreRecent, count_deleted, mbind, M_bind, mret, M_ret in Hend. cbn in Hend, E. by rewrite E in Hend.
Qed.

(** Invariants of executions. *)

Lemma scan_run_inv maxParallel (I : scanning (S := S) (D := D) -> Prop) :
  (forall ev st r st', I st -> scan_step maxParallel indexTime dryRun ev st = Some (r, st') -> I st') ->
  forall evs st r st', I st -> scan_run maxParallel indexTime dryRun evs st = Some (r, st') -> I st'.
Proof.
  intros Hstep. induction evs as [|ev evs IH]; intros st r st' HI H; cbn [scan_run] in H; [by simplify_eq|].
  destruct (scan_step maxParallel indexTime dryRun ev st) as [[[[]|e|m] st1]|] eqn:E; simplify_eq; [|by eapply Hstep; eauto..].
  eapply IH; [|exact H]. by eapply Hstep.
Qed.

(** What a step does to the stores: nothing, a read of the blob store, or the
    check of a key. *)

Lemma step_stores maxParallel ev st r (st' : scanning (S := S) (D := D)) :
  scan_step maxParallel indexTime dryRun ev st = Some (r, st') ->
  sn_purging st' = sn_purging st \/
  (pg_db (sn_purging st') = pg_db (sn_purging st) /\ objects (pg_blob (sn_purging st')) = objects (pg_blob (sn_purging st))) \/
  exists key r', checkAndDeleteKey indexTime dryRun key (sn_purging st) = (r', sn_purging st').
Proof.
  destruct ev as [| | |i]; cbn [scan_step].
  - unfold fetch_step, on_blob. destruct (sn_next st) as [next|]; [|done]. case_decide; [done|].
    destruct (KeysPrefix next "" "" batchSize (pg_blob (sn_purging st))) as [rk s1] eqn:E. apply KeysPrefix_spec in E as [Ho _].
    destruct rk as [[ks nx]|e|m]; [case_decide| |]; intros [= <- <-]; right; left; done.
  - unfold receive_step. destruct (sn_receiving st); [|done]. destruct (sn_queue st) as [|b q]; [done|].
    destruct (kb_err b); [intros [= <- <-]; by left|]. case_decide; [|done]. intros [= <- <-]. by left.
  - unfold stop_step. case_decide; [|done]. intros [= <- <-]. by left.
  - unfold lookup_step. destruct (sn_batches st !! i) as [[|key keys]|]; [intros [= <- <-]; by left| |done].
    destruct (sn_err st); [intros [= <- <-]; by left|].
    destruct (checkAndDeleteKey indexTime dryRun key (sn_purging st)) as [rc p] eqn:E. right. right. exists key, rc.
    destruct rc as [[]|e|m]; simplify_eq; done.
Qed.

(** A blob that is indexed is never touched, nor is any blob in a dry run. *)

Lemma scan_keeps maxParallel evs st r (st' : scanning (S := S) (D := D)) k :
  scan_run maxParallel indexTime dryRun evs st = Some (r, st') ->
  dryRun = true \/ is_Some (entries (pg_db (sn_purging st)) !! k) ->
  objects (pg_blob (sn_purging st')) !! k = objects (pg_blob (sn_purging st)) !! k.
Proof.
  intros Hrun Hk. set (b := objects (pg_blob (sn_purging st)) !! k) in *. set (m := entries (pg_db (sn_purging st))) in *.
  enough (objects (pg_blob (sn_purging st')) !! k = b /\ entries (pg_db (sn_purging st')) = m) as [H _] by exact H.
  eapply (scan_run_inv maxParallel (fun st => objects (pg_blob (sn_purging st)) !! k = b /\ entries (pg_db (sn_purging st)) = m)); [|by split|exact Hrun].
  clear Hrun. intros ev st1 r1 st2 [Hb Hm] [->|[[-> ->]|(key & r' & E)]]%step_stores; [done..|].
  apply (check_keeps _ _ _ _ k) in E as [He Ho]. rewrite He. split; [|done]. rewrite Ho; [done|]. rewrite Hm. tauto.
Qed.

Lemma scanBlob_keeps maxParallel evs blob (db : D) r blob' db' k :
  scanBlob maxParallel indexTime dryRun evs (blob, db) = Some (r, (blob', db')) ->
  dryRun = true \/ is_Some (entries db !! k) -> objects blob' !! k = objects blob !! k.
Proof.
  unfold scanBlob. destruct (scan_run maxParallel indexTime dryRun evs (scan_start blob db)) as [[rs st]|] eqn:E; [|done].
  intros H Hk. apply (scan_keeps _ _ _ _ _ k) in E; [|done]. cbn in E. rewrite <- E.
  destruct rs as [[]|e|m]; [case_decide; [done|]; destruct (sn_err st)| |]; by simplify_eq.
Qed.

End kept.

(** ** What a scan deletes *)

(** The page tokens stay valid when keys are deleted. *)

Class StablePaging (S : Type) `{ListingLaws S} : Prop :=
  remaining_delete objs prefix delim token k : delim = "" ->
    remaining (delete k objs) prefix delim token = filter (fun k' => k' <> k) (remaining objs prefix delim token).

(** The store keeps the times at which its objects were updated, and answers with
    them: reading changes none of them, a deletion none but the one of its key. *)

Class DatedStore (S : Type) `{Store S} : Type := {
  updated : S -> string -> Time.Time;
  GetAttr_updated k s a s' : GetAttr k s = (Ok a, s') -> Updated a = updated s k;
  GetAttr_times k s r s' k' : GetAttr k s = (r, s') -> updated s' k' = updated s k';
  KeysPrefix_times token prefix delim count s r s' k' : KeysPrefix token prefix delim count s = (r, s') -> updated s' k' = updated s k';
  Delete_times k s r s' k' : Delete k s = (r, s') -> k' <> k -> updated s' k' = updated s k'
}.

Section deleted.
Context {S D : Type} `{HS : !Store S, HSL : !StoreLaws S, HR : !ReliableStore S, HLL : !ListingLaws S, HSP : !StablePaging S, HDR : !DeleteReports S, HDS : !DatedStore S}.
Context `{HK : !KvStore D, HKL : !KvLaws D, HKR : !ReliableKv D}.
Variables (indexTime : Time.Time) (dryRun : bool) (maxParallel : nat).
Hypothesis parallel : 0 < maxParallel.

Lemma attr_runs key (p : purging (S := S) (D := D)) : exists x s1,
  attempt (on_blob (GetAttr key)) p = (Ok x, mkPurging s1 (pg_db p) (pg_indexed p) (pg_moreRecent p) (pg_deleted p) (pg_deletedSize p)) /\
  objects s1 = objects (pg_blob p) /\ (forall k, updated s1 k = updated (pg_blob p) k) /\
  (is_Some (objects (pg_blob p) !! key) -> exists a, x = inl a /\ Updated a = updated (pg_blob p) key).
Proof.
  unfold attempt, on_blob. destruct (GetAttr key (pg_blob p)) as [ra s1] eqn:Ea. pose proof (proj1 (GetAttr_spec _ _ _ _ Ea)) as Ho.
  assert (Ht : forall k, updated s1 k = updated (pg_blob p) k) by (intros k; by eapply GetAttr_times). destruct (objects (pg_blob p) !! key) as [b|] eqn:Ek.
  - destruct (GetAttr_present key (pg_blob p)) as [a Ha]; [by eexists|]. rewrite Ea in Ha. cbn in Ha. subst ra. exists (inl a), s1. split_and!; [done..|].
    intros _. exists a. split; [done|]. by eapply GetAttr_updated.
  - destruct (GetAttr_absent key (pg_blob p) Ek) as [e Ha]. rewrite Ea in Ha. cbn in Ha. subst ra. exists (inr e), s1. split_and!; [done..|]. by intros [].
Qed.

Lemma delete_runs key (p : purging (S := S) (D := D)) : exists y s2,
  attempt (on_blob (Delete key)) p = (Ok y, mkPurging s2 (pg_db p) (pg_indexed p) (pg_moreRecent p) (pg_deleted p) (pg_deletedSize p)) /\
  objects s2 = delete key (objects (pg_blob p)) /\ (forall k, k <> key -> updated s2 k = updated (pg_blob p) k).
Proof.
  unfold attempt, on_blob. destruct (Delete key (pg_blob p)) as [rd s2] eqn:Ed. pose proof (Delete_spec _ _ _ _ Ed) as [Hok Hne].
  assert (Ht : forall k, k <> key -> updated s2 k = updated (pg_blob p) k) by (intros k; by eapply Delete_times). destruct (objects (pg_blob p) !! key) as [b|] eqn:Ek.
  - pose proof (Delete_present key (pg_blob p)) as Hp. rewrite Ed in Hp. cbn in Hp. rewrite Hp in * by eauto. exists (inl tt), s2. by split_and!; [|apply Hok|].
  - assert (objects s2 = delete key (objects (pg_blob p))) as Ho2.
    { destruct rd as [[]|e|m]; [by apply Hok|..]; rewrite (delete_id _ _ Ek); by apply Hne. }
    destruct (Delete_absent key (pg_blob p) Ek) as [Hd|(e & Hd & _)]; rewrite Ed in Hd; cbn in Hd; subst rd; eexists _, s2; by split_and!.
Qed.

Lemma check_runs key (p : purging (S := S) (D := D)) :
  runs (checkAndDeleteKey indexTime dryRun key) p (fun _ p' =>
    entries (pg_db p') = entries (pg_db p) /\
    (pg_indexed p' + pg_moreRecent p' + pg_deleted p' = pg_indexed p + pg_moreRecent p + pg_deleted p + 1)%N /\
    (objects (pg_blob p') = objects (pg_blob p) \/ (objects (pg_blob p') = delete key (objects (pg_blob p)) /\ ~ (is_Some (objects (pg_blob p) !! key) /\ indexTime < updated (pg_blob p) key)%Z)) /\
    (forall k, is_Some (objects (pg_blob p') !! k) -> updated (pg_blob p') k = updated (pg_blob p) k) /\
    (dryRun = false -> is_Some (objects (pg_blob p') !! key) -> is_Some (entries (pg_db p) !! key) \/ (indexTime < updated (pg_blob p) key)%Z)).
Proof.
  unfold checkAndDeleteKey. destruct (Exists_ok key (pg_db p)) as (d1 & Ex & He). apply runs_bind.
  eapply runs_eq; [unfold on_db; by rewrite Ex|]. case_bool_decide as Hi.
  { eexists _, _. split; [done|]. cbn. split_and!; [done|lia|by left|done|by left]. }
  cbv iota. set (p1 := mkPurging _ d1 _ _ _ _). destruct (attr_runs key p1) as (x & s1 & E & Ho & Ht & Hx). apply runs_bind. eapply runs_eq; [exact E|]. cbv zeta.
  unfold Time.Before. destruct (Z.ltb_spec indexTime (Updated match x with inl a => a | inr _ => zeroAttributes end)) as [Hr|Hr].
  { eexists _, _. split; [done|]. cbn. split_and!; [done|lia|by left|done|]. intros _ Hs. rewrite Ho in Hs. right. destruct (Hx Hs) as (a & -> & Ha). cbn in Ha. lia. }
  assert (~ (is_Some (objects (pg_blob p) !! key) /\ indexTime < updated (pg_blob p) key)%Z) as Hold.
  { intros [Hs Hl]. destruct (Hx Hs) as (a & -> & Ha). cbn in Ha. lia. }
  apply runs_bind. eexists _, _. split; [done|]. destruct dryRun; [apply runs_ret; cbn; split_and!; [done|lia|by left|done|done]|].
  apply runs_bind. set (p2 := mkPurging _ _ _ _ (_ + 1)%N _). destruct (delete_runs key p2) as (y & s2 & E2 & Ho2 & Ht2). eapply runs_eq; [exact E2|].
  apply runs_ret. cbn in Ho2, Ht2, Ho, Ht |- *. rewrite Ho2, Ho. split_and!; [done|lia|by right| |rewrite lookup_delete_eq; by intros _ []].
  intros k Hs. destruct (decide (k = key)) as [->|Hne]; [rewrite lookup_delete_eq in Hs; by destruct Hs|]. by rewrite Ht2, Ht.
Qed.

(** The keys that a scan has still to check. *)

Definition pending (st : scanning (S := S) (D := D)) : list string :=
  concat (sn_batches st) ++ (sn_queue st ≫= kb_keys) ++
  match sn_next st with Some next => remaining (objects (pg_blob (sn_purging st))) "" "" next | None => [] end.

Record scan_inv (db0 : gmap string string) (b0 : S) (st : scanning (S := S) (D := D)) : Prop := {
  si_err : sn_err st = None;
  si_queue : Forall (fun ev => kb_err ev = None) (sn_queue st);
  si_stopped : sn_receiving st = false -> sn_next st = None /\ sn_queue st = [];
  si_db : entries (pg_db (sn_purging st)) = db0;
  si_count : (sn_scanned st = pg_indexed (sn_purging st) + pg_moreRecent (sn_purging st) + pg_deleted (sn_purging st) + N.of_nat (length (concat (sn_batches st))))%N;
  si_gone k : dryRun = false -> is_Some (objects (pg_blob (sn_purging st)) !! k) -> is_Some (db0 !! k) \/ (indexTime < updated b0 k)%Z \/ k ∈ pending st;
  si_times k : is_Some (objects (pg_blob (sn_purging st)) !! k) -> updated (pg_blob (sn_purging st)) k = updated b0 k;
  si_recent k : (indexTime < updated b0 k)%Z -> objects (pg_blob (sn_purging st)) !! k = objects b0 !! k
}.

Lemma fetch_inv db0 b0 st r st' : scan_inv db0 b0 st -> fetch_step st = Some (r, st') -> r = Ok tt /\ scan_inv db0 b0 st'.
Proof.
  intros [He Hq Hs Hd Hc Hg Htm Hrec0]. unfold fetch_step, on_blob. destruct (sn_next st) as [next|] eqn:En; [|done]. case_decide; [done|].
  destruct (KeysPrefix next "" "" batchSize (pg_blob (sn_purging st))) as [rk s1] eqn:E.
  destruct (KeysPrefix_total next "" "" batchSize (pg_blob (sn_purging st))) as (ks & nx & Ht); [unfold batchSize; lia|]. rewrite E in Ht. cbn in Ht. subst rk.
  assert (Htk : forall k, updated s1 k = updated (pg_blob (sn_purging st)) k) by (intros k; by eapply KeysPrefix_times).
  apply KeysPrefix_spec in E as [Ho Hks]. destruct (Hks ks nx eq_refl) as (rst & Hrem & Hlen & Hend & Hnext).
  assert (sn_receiving st <> false) as Hrec by (intros Hr; by destruct (Hs Hr)).
  assert (Hrest : forall k, k ∈ remaining (objects (pg_blob (sn_purging st))) "" "" next ->
    k ∈ ks \/ (nx <> "" /\ k ∈ remaining (objects s1) "" "" nx)).
  { intros k. rewrite Hrem, elem_of_app. intros [?|Hk]; [by left|]. destruct (decide (nx = "")) as [Hn|Hn]; [by rewrite (Hend Hn) in Hk; apply elem_of_nil in Hk|].
    right. rewrite Ho. by rewrite (proj2 (Hnext Hn)). }
  unfold pending in Hg. rewrite En in Hg. case_decide as Hks0; intros [= <- <-]; (split; [done|]); split; cbn; try done; try (intros; done).
  - by rewrite app_nil_r.
  - intros k Hdry Hk. rewrite Ho in Hk. destruct (Hg k Hdry Hk) as [?|[?|Hp]]; [by left|by right; left|]. right. right. unfold pending. cbn. rewrite !app_nil_r, elem_of_app.
    rewrite !elem_of_app in Hp. destruct Hp as [?|[?|Hp]]; [by left|by right|]. apply Hrest in Hp as [Hp|[Hn _]].
    + rewrite Hks0 in Hp. by apply elem_of_nil in Hp.
    + destruct (Hnext Hn) as [Hl _]. rewrite Hks0 in Hl. done.
  - intros k Hk. rewrite Ho in Hk. rewrite Htk. by apply Htm.
  - intros k Hk. rewrite Ho. by apply Hrec0.
  - apply Forall_app. by repeat constructor.
  - intros k Hdry Hk. rewrite Ho in Hk. destruct (Hg k Hdry Hk) as [?|[?|Hp]]; [by left|by right; left|]. right. right. unfold pending. cbn.
    rewrite bind_app. cbn. rewrite app_nil_r, !elem_of_app. rewrite !elem_of_app in Hp. destruct Hp as [?|[?|Hp]]; [tauto|tauto|]. apply Hrest in Hp as [Hp|[Hn Hp]]; [tauto|].
    right. right. by rewrite decide_False by done.
  - intros k Hk. rewrite Ho in Hk. rewrite Htk. by apply Htm.
  - intros k Hk. rewrite Ho. by apply Hrec0.
Qed.

Lemma receive_inv db0 b0 st r st' : scan_inv db0 b0 st -> receive_step maxParallel st = Some (r, st') -> r = Ok tt /\ scan_inv db0 b0 st'.
Proof.
  intros [He Hq Hs Hd Hc Hg Htm Hrec0]. unfold receive_step. destruct (sn_receiving st) eqn:Er; [|done]. destruct (sn_queue st) as [|b q] eqn:Eq; [done|].
  apply Forall_cons in Hq as [Hb Hq]. rewrite Hb. case_decide; [|done]. intros [= <- <-]. split; [done|]. split; cbn; try done.
  - rewrite concat_app, length_app, Hc. cbn. rewrite app_nil_r. lia.
  - intros k Hdry Hk. destruct (Hg k Hdry Hk) as [?|[?|Hp]]; [by left|by right; left|]. right. right. unfold pending in *. cbn in *.
    rewrite Eq in Hp. cbn in Hp. rewrite concat_app. cbn. rewrite app_nil_r. rewrite !elem_of_app in *. tauto.
Qed.

Lemma stop_inv db0 b0 st r st' : scan_inv db0 b0 st -> stop_step st = Some (r, st') -> r = Ok tt /\ scan_inv db0 b0 st'.
Proof.
  intros [He Hq Hs Hd Hc Hg Htm Hrec0]. unfold stop_step. case_decide as H; [|done]. intros [= <- <-]. split; [done|]. split; cbn; try done.
  intros _. destruct H as [_ [?|Hx]]; [done|]. rewrite He in Hx. by destruct Hx.
Qed.

Lemma concat_insert (l : list (list string)) i k ks : l !! i = Some (k :: ks) -> concat l ≡ₚ k :: concat (<[i := ks]> l).
Proof.
  revert i. induction l as [|x l IH]; intros [|i] H; cbn in *; simplify_eq; [done|]. rewrite (IH i H). symmetry. apply Permutation_middle.
Qed.

Lemma concat_delete_nil (l : list (list string)) i : l !! i = Some [] -> concat (delete i l) = concat l.
Proof. revert i. induction l as [|x l IH]; intros [|i] H; cbn in *; simplify_eq; [done|]. by rewrite IH. Qed.

Lemma lookup_inv db0 b0 i st r st' : scan_inv db0 b0 st -> lookup_step indexTime dryRun i st = Some (r, st') -> r = Ok tt /\ scan_inv db0 b0 st'.
Proof.
  intros [He Hq Hs Hd Hc Hg Htm Hrec0]. unfold lookup_step. destruct (sn_batches st !! i) as [[|key keys]|] eqn:Ei; [| |done].
  { intros [= <- <-]. split; [done|]. split; cbn; try done; [by rewrite concat_delete_nil|]. intros k Hdry Hk. unfold pending. cbn. rewrite concat_delete_nil by done. by apply Hg. }
  rewrite He. destruct (check_runs key (sn_purging st)) as (u & p & -> & Hdb & Hcnt & Hobj & Htp & Hkey). intros [= <- <-]. split; [done|].
  pose proof (concat_insert _ _ _ _ Ei) as Hperm. split; cbn; try done.
  - congruence.
  - rewrite Hc, Hperm. cbn [length]. lia.
  - intros k Hdry Hk. destruct (decide (k = key)) as [->|Hne].
    { rewrite Hd in Hkey. assert (is_Some (objects (pg_blob (sn_purging st)) !! key)) as Hin.
      { destruct Hobj as [<- |[E _]]; [done|]. rewrite E, lookup_delete_eq in Hk. by destruct Hk. }
      destruct (Hkey Hdry Hk) as [?|Hl]; [by left|right; left]. by rewrite Htm in Hl. }
    assert (objects (pg_blob p) !! k = objects (pg_blob (sn_purging st)) !! k) as Hsame by (destruct Hobj as [-> |[-> _]]; [done|by rewrite lookup_delete_ne]).
    rewrite Hsame in Hk. destruct (Hg k Hdry Hk) as [?|[?|Hp]]; [by left|by right; left|]. right. right. unfold pending in *. cbn.
    rewrite Hperm in Hp. rewrite !elem_of_app, elem_of_cons in *. destruct Hp as [[?|?]|[?|Hp]]; [done|tauto|tauto|]. right. right.
    destruct (sn_next st) as [next|]; [|done]. destruct Hobj as [-> |[-> _]]; [done|]. rewrite remaining_delete by done. by apply list_elem_of_filter.
  - intros k Hk. rewrite Htp by done. apply Htm. destruct Hobj as [<- |[E _]]; [done|]. rewrite E in Hk. destruct Hk as [b [_ Hb]%lookup_delete_Some]. by eexists.
  - intros k Hk. rewrite <- Hrec0 by done. destruct Hobj as [-> |[-> Hold]]; [done|]. destruct (decide (k = key)) as [->|Hne]; [|by rewrite lookup_delete_ne].
    rewrite lookup_delete_eq. symmetry. apply eq_None_not_Some. intros Hs'. apply Hold. split; [done|]. by rewrite Htm.
Qed.

Lemma step_inv db0 b0 ev st r st' : scan_inv db0 b0 st -> scan_step maxParallel indexTime dryRun ev st = Some (r, st') -> r = Ok tt /\ scan_inv db0 b0 st'.
Proof. destruct ev; [apply fetch_inv|apply receive_inv|apply stop_inv|apply lookup_inv]. Qed.

(** Every execution keeps the invariant. *)

Lemma run_inv db0 b0 evs : forall st r st', scan_inv db0 b0 st -> scan_run maxParallel indexTime dryRun evs st = Some (r, st') -> r = Ok tt /\ scan_inv db0 b0 st'.
Proof.
  induction evs as [|ev evs IH]; intros st r st' Hi H; cbn [scan_run] in H; [by simplify_eq|].
  destruct (scan_step maxParallel indexTime dryRun ev st) as [[r1 st1]|] eqn:E; [|done]. destruct (step_inv _ _ _ _ _ _ Hi E) as [-> Hi1]. by eapply IH.
Qed.

(** There is an execution: one page after the other. *)

Definition reaches (st st' : scanning (S := S) (D := D)) : Prop := exists evs, scan_run maxParallel indexTime dryRun evs st = Some (Ok tt, st').

Lemma reaches_refl st : reaches st st.
Proof. by exists []. Qed.

Lemma reaches_step ev st st1 st2 : scan_step maxParallel indexTime dryRun ev st = Some (Ok tt, st1) -> reaches st1 st2 -> reaches st st2.
Proof. intros E [evs H]. exists (ev :: evs). cbn [scan_run]. by rewrite E. Qed.

Lemma reaches_trans st st1 st2 : reaches st st1 -> reaches st1 st2 -> reaches st st2.
Proof.
  intros [evs H]. revert st H. induction evs as [|ev evs IH]; intros st H Hr; cbn [scan_run] in H; [by simplify_eq|].
  destruct (scan_step maxParallel indexTime dryRun ev st) as [[[[]|e|m] st']|] eqn:E; simplify_eq. eapply reaches_step; [exact E|]. by apply IH.
Qed.

Definition left_over (st : scanning (S := S) (D := D)) : nat :=
  match sn_next st with Some next => length (remaining (objects (pg_blob (sn_purging st))) "" "" next) | None => 0 end.

Lemma reaches_lookups ks : forall db0 b0 st, scan_inv db0 b0 st -> sn_batches st = [ks] ->
  exists st', reaches st st' /\ scan_inv db0 b0 st' /\ sn_batches st' = [] /\ sn_next st' = sn_next st /\ sn_queue st' = sn_queue st /\
    sn_receiving st' = sn_receiving st /\ left_over st' <= left_over st.
Proof.
  induction ks as [|k ks IH]; intros db0 b0 st Hi Hb.
  - set (st' := mkScanning (sn_purging st) (sn_next st) (sn_queue st) (sn_receiving st) [] (sn_scanned st) (sn_err st)).
    assert (scan_step maxParallel indexTime dryRun (ELookup 0) st = Some (Ok tt, st')) as E by (cbn; unfold lookup_step; by rewrite Hb).
    exists st'. split_and!; [eapply reaches_step; [exact E|apply reaches_refl]|by eapply step_inv|done..].
  - pose proof (si_err _ _ _ Hi) as He. destruct (check_runs k (sn_purging st)) as ([] & p & Ec & _ & _ & Hobj & _).
    set (st1 := mkScanning p (sn_next st) (sn_queue st) (sn_receiving st) [ks] (sn_scanned st) None).
    assert (scan_step maxParallel indexTime dryRun (ELookup 0) st = Some (Ok tt, st1)) as E.
    { change (lookup_step indexTime dryRun 0 st = Some (Ok tt, st1)). unfold lookup_step. rewrite Hb, He. change ([k :: ks] !! 0) with (Some (k :: ks)). cbv iota zeta beta. by rewrite Ec. }
    destruct (IH db0 b0 st1) as (st' & Hr & Hi' & Hb' & Hn & Hq & Hrc & Hl); [by eapply step_inv|done|].
    exists st'. split_and!; [by eapply reaches_step|done..|]. etrans; [exact Hl|]. unfold left_over. cbn. destruct (sn_next st) as [next|]; [|done].
    destruct Hobj as [-> |[-> _]]; [done|]. rewrite remaining_delete by done. apply length_filter.
Qed.

Lemma reaches_end m : forall db0 b0 st, scan_inv db0 b0 st -> sn_batches st = [] -> sn_queue st = [] -> sn_receiving st = true -> left_over st < m ->
  exists st', reaches st st' /\ sn_batches st' = [] /\ sn_receiving st' = false.
Proof.
  induction m as [|m IH]; intros db0 b0 st Hi Hb Hq Hr Hl; [lia|].
  assert (Hstop : forall st1, sn_batches st1 = [] -> sn_queue st1 = [] -> sn_receiving st1 = true -> sn_next st1 = None ->
    exists st', reaches st1 st' /\ sn_batches st' = [] /\ sn_receiving st' = false).
  { intros st1 Hb1 Hq1 Hr1 Hn1. eexists. split; [eapply (reaches_step EStop); [|apply reaches_refl]; cbn; unfold stop_step; rewrite decide_True by tauto; done|]. by cbn. }
  destruct (sn_next st) as [next|] eqn:En; [|by apply Hstop].
  destruct (fetch_step st) as [[r1 st1]|] eqn:E1; [|exfalso].
  2: { revert E1. unfold fetch_step. rewrite En, Hq. rewrite decide_False by (cbn; unfold queued; lia). destruct (on_blob _ _) as [[[ks nx]|e|mm] p]; [case_decide|..]; done. }
  destruct (fetch_inv _ _ _ _ _ Hi E1) as [-> Hi1]. revert E1. unfold fetch_step, on_blob. rewrite En, Hq. rewrite decide_False by (cbn; unfold queued; lia).
  destruct (KeysPrefix next "" "" batchSize (pg_blob (sn_purging st))) as [rk s1] eqn:E.
  destruct (KeysPrefix_total next "" "" batchSize (pg_blob (sn_purging st))) as (ks & nx & Ht); [unfold batchSize; lia|]. rewrite E in Ht. cbn in Ht. subst rk.
  pose proof (KeysPrefix_spec _ _ _ _ _ _ _ E) as [Ho Hks]. destruct (Hks ks nx eq_refl) as (rst & Hrem & _ & Hend & Hnext).
  assert (Hf : forall stx, scan_step maxParallel indexTime dryRun EFetch st = Some (Ok tt, stx) <-> fetch_step st = Some (Ok tt, stx)) by done.
  unfold fetch_step, on_blob in Hf. rewrite En, Hq, E in Hf. rewrite decide_False in Hf by (cbn; unfold queued; lia).
  case_decide as Hk; intros [= <-].
  - destruct (Hstop (mkScanning (mkPurging s1 (pg_db (sn_purging st)) (pg_indexed (sn_purging st)) (pg_moreRecent (sn_purging st)) (pg_deleted (sn_purging st)) (pg_deletedSize (sn_purging st)))
      None ([] ++ []) (sn_receiving st) (sn_batches st) (sn_scanned st) (sn_err st))) as (st' & H1 & H2); [done..|].
    exists st'. split; [|done]. eapply (reaches_step EFetch); [|exact H1]. by apply Hf.
  - set (st1 := mkScanning _ _ _ _ _ _ _) in *.
    set (st2 := mkScanning (sn_purging st1) (sn_next st1) [] true [ks] (sn_scanned st1 + N.of_nat (length ks)) (sn_err st1)).
    assert (scan_step maxParallel indexTime dryRun EReceive st1 = Some (Ok tt, st2)) as E2.
    { cbn. unfold receive_step, st1. cbn. rewrite Hr, Hb. cbn. by rewrite decide_True by lia. }
    destruct (reaches_lookups ks db0 b0 st2) as (st3 & Hr3 & Hi3 & Hb3 & Hn3 & Hq3 & Hrc3 & Hl3); [by eapply step_inv|done|].
    destruct (IH db0 b0 st3 Hi3 Hb3 Hq3 Hrc3) as (st' & H1 & H2).
    { eapply Nat.le_lt_trans; [exact Hl3|]. unfold left_over, st2, st1 in *. cbn [sn_next sn_purging pg_blob] in *. rewrite En in Hl.
      rewrite Hrem, length_app in Hl. assert (0 < length ks) by (destruct ks; [done|cbn; lia]). case_decide as Hn; [lia|]. rewrite Ho, (proj2 (Hnext Hn)). lia. }
    exists st'. split; [|done]. eapply (reaches_step EFetch); [by apply Hf|]. eapply reaches_step; [exact E2|]. by eapply reaches_trans.
Qed.

Lemma scan_start_inv blob (db : D) : scan_inv (entries db) blob (scan_start blob db).
Proof.
  split; cbn; try done. intros k _ [b Hk]. right. right. unfold pending. cbn. rewrite remaining_start, listing_elem.
  exists k. split_and!; [by eexists| |]; [|unfold truncate; by rewrite decide_True].
  unfold Strings.HasPrefix. by destruct k.
Qed.

(** A scan only removes blobs. *)

Lemma scan_shrinks evs (st : scanning (S := S) (D := D)) r st' :
  scan_run maxParallel indexTime dryRun evs st = Some (r, st') -> objects (pg_blob (sn_purging st')) ⊆ objects (pg_blob (sn_purging st)).
Proof.
  intros Hrun. set (b := objects (pg_blob (sn_purging st))).
  refine (scan_run_inv indexTime dryRun maxParallel (fun st => objects (pg_blob (sn_purging st)) ⊆ b) _ evs st r st' _ Hrun); [|done].
  intros ev st1 r1 st2 Hb [->|[[_ ->]|(key & r' & E)]]%step_stores; [done..|].
  destruct (check_runs key (sn_purging st1)) as (u & p & E' & _ & _ & Hobj & _). rewrite E' in E. simplify_eq.
  destruct Hobj as [-> |[-> _]]; [done|]. etrans; [apply delete_subseteq|done].
Qed.

(** The result of every scan: the counters add up, the blobs that were more
    recent than the index at its start are untouched, and outside a dry run every
    other blob that is left is indexed. *)

Lemma scanBlob_every blob (db : D) : every_run (scanBlob maxParallel indexTime dryRun) (blob, db) (fun out st' =>
  (pb_ScannedEntries out = pb_IndexedEntries out + pb_MoreRecentEntries out + pb_DeletedEntries out)%N /\ pb_IndexTime out = indexTime /\
  entries st'.2 = entries db /\ objects st'.1 ⊆ objects blob /\
  (forall k, (indexTime < updated blob k)%Z -> objects st'.1 !! k = objects blob !! k) /\
  (dryRun = false -> forall k, is_Some (objects st'.1 !! k) -> is_Some (entries db !! k) \/ (indexTime < updated blob k)%Z)).
Proof.
  pose proof (scan_start_inv blob db) as Hi0. split.
  - intros evs r [blob' db']. unfold scanBlob. destruct (scan_run maxParallel indexTime dryRun evs (scan_start blob db)) as [[r1 st]|] eqn:E; [|done].
    destruct (run_inv _ _ _ _ _ _ Hi0 E) as [-> [He Hq Hs Hd Hc Hg Htm Hrec0]]. case_decide as Hfin; [done|]. rewrite He. intros [= <- <- <-].
    assert (sn_batches st = [] /\ sn_receiving st = false) as [Hb Hr] by (destruct (sn_receiving st); [tauto|]; destruct (decide (sn_batches st = [])); tauto).
    destruct (Hs Hr) as [Hn Hq0]. eexists. split; [done|]. cbn. rewrite Hb in Hc. cbn in Hc. apply scan_shrinks in E. split_and!; [lia|done|done|exact E|exact Hrec0|].
    intros Hdry k Hk. destruct (Hg k Hdry Hk) as [?|[?|Hp]]; [by left|by right|]. unfold pending in Hp. rewrite Hb, Hq0, Hn in Hp. by apply elem_of_nil in Hp.
  - destruct (reaches_end (Datatypes.S (left_over (scan_start blob db))) _ _ _ Hi0) as (st & [evs E] & Hb & Hr); [done|done|done|lia|].
    destruct (run_inv _ _ _ _ _ _ Hi0 E) as [_ Hi]. exists evs. unfold scanBlob. rewrite E, Hb, Hr, (si_err _ _ _ Hi). rewrite decide_False by naive_solver. eauto.
Qed.

End deleted.

(** ** PurgeDeleteUnused *)

Section theorems.
Context {S D : Type} `{HS : !Store S, HSL : !StoreLaws S, HR : !ReliableStore S, HLL : !ListingLaws S, HSP : !StablePaging S, HDR : !DeleteReports S, HDS : !DatedStore S}.
Context `{HK : !KvStore D, HKL : !KvLaws D, HKR : !ReliableKv D}.
Variables (Format : Time.Time -> string) (Parse : string -> res Time.Time).


End theorems.

End PurgeDelete.
