(* ===== verification/PurgeScan.v ===== *)
(** * Building the reverse index (pkg/core: purge.go)

    PurgeBuildReverseIndex goes through the bundles of all repositories of the
    contexts that share a blob store and inserts the root keys of their files,
    and the leaves of these, in the local key-value store; meanwhile, and after
    the scan, the keys are uploaded in chunks to the metadata store of the
    first context.

    Repositories are scanned by concurrent goroutines. The state of one is its
    [phase], and an execution is a sequence of steps of the goroutines and of
    ticks of the uploader: the listing of the bundles of a repository, the
    retrieval of the entries of a bundle, the examination of one entry and the
    insertion of one key are steps, and so is the upload of a chunk. *)

From S2P Require Import Prelude GoLib Errors Storage Model CafsKeys CoreMeta StoreRules CoreKeys CoreListing CoreIndex CoreRepo CoreList CoreBundle CoreUpload CoreDownload PurgeKv Pool PurgeIndex PurgeDelete.

Module PurgeScan.
Import Model Storage CafsKeys CoreMeta CoreStatus StoreRules CoreKeys CoreListing CoreIndex CoreRepo CoreList CoreBundle CoreUpload CoreDownload PurgeKv Pool PurgeIndex PurgeDelete.

Record PurgeIndex : Type := mkPurgeIndex {
  pi_IndexTime : Time.Time;
  pi_NumEntries : N
}.

Definition ErrCanceled : error := ErrMsg "context canceled".

(** ** Goroutines *)

(** [PBundles]: the descriptors still to scan, with the error the listing ended
    with; [PEntries]: the entries of a bundle still to examine and the keys
    collected from the others; [PKeys]: the keys still to insert. *)

Inductive phase : Type :=
| PStart
| PBundles (bundles : list BundleDescriptor) (err : option error)
| PEntries (size : Z) (todo : list BundleEntry) (keys : list string) (bundles : list BundleDescriptor) (err : option error)
| PKeys (keys : list string) (bundles : list BundleDescriptor) (err : option error)
| PDone (r : option error).

(** The choices of a step: the schedule of the listing, how it is interrupted
    when the function applied to its items fails, and the executions of the
    attempts to retrieve the index files of a bundle. *)

Record choices : Type := mkChoices {
  ch_sch : schedule;
  ch_int : interruption;
  ch_unpack : list (list (event unit))
}.

Inductive build_event : Type :=
| BThread (i : nat) (ch : choices)
| BTick (busy : bool) (rs : list put_run).

Section scan.
Context {S C D : Type} `{HS : !Store S, HC : !Store C, HK : !KvStore D, HBk : Blake2b} {GS : GoSort}.
Context {HYR : Yaml RepoDescriptor} {HYB : Yaml BundleDescriptor} {HYE : Yaml (list BundleEntry)}.
Variables (ksuid_valid : string -> bool) (fuel : nat) (NumCPU : Z) (now : Time.Time).
Variables (Format : Time.Time -> string) (Parse : string -> res Time.Time).

(** The bundles that are scanned have no consumable store: this one is not used. *)

Variable nowhere : C.

(** ** The state *)

(** [bg_contexts]: the stores of the contexts, the first of which holds the
    index. [bg_threads] are the goroutines that scan the repositories of one
    context. *)

Record building : Type := mkBuilding {
  bg_contexts : list (Stores S);
  bg_db : D;
  bg_count : N;
  bg_unique : N;
  bg_uploaded : N;
  bg_uploader : uploader;
  bg_upErr : option error;
  bg_threads : list (string * phase);
  bg_err : option error
}.

Definition set_context (j : nat) (c : Stores S) (st : building) : building :=
  mkBuilding (<[j := c]> (bg_contexts st)) (bg_db st) (bg_count st) (bg_unique st) (bg_uploaded st) (bg_uploader st) (bg_upErr st) (bg_threads st) (bg_err st).

Definition set_db (d : D) (st : building) : building :=
  mkBuilding (bg_contexts st) d (bg_count st) (bg_unique st) (bg_uploaded st) (bg_uploader st) (bg_upErr st) (bg_threads st) (bg_err st).

Definition set_phase (i : nat) (repo : string) (ph : phase) (st : building) : building :=
  mkBuilding (bg_contexts st) (bg_db st) (bg_count st) (bg_unique st) (bg_uploaded st) (bg_uploader st) (bg_upErr st) (<[i := (repo, ph)]> (bg_threads st)) (bg_err st).

Definition add_count (n : N) (st : building) : building :=
  mkBuilding (bg_contexts st) (bg_db st) (bg_count st + n) (bg_unique st) (bg_uploaded st) (bg_uploader st) (bg_upErr st) (bg_threads st) (bg_err st).

Definition add_unique (n : N) (st : building) : building :=
  mkBuilding (bg_contexts st) (bg_db st) (bg_count st) (bg_unique st + n) (bg_uploaded st) (bg_uploader st) (bg_upErr st) (bg_threads st) (bg_err st).

(** The first error cancels the group. *)

Definition finish_thread (i : nat) (repo : string) (r : option error) (st : building) : building :=
  let st' := set_phase i repo (PDone r) st in
  mkBuilding (bg_contexts st') (bg_db st') (bg_count st') (bg_unique st') (bg_uploaded st') (bg_uploader st') (bg_upErr st') (bg_threads st')
    (match bg_err st', r with None, Some e => Some e | x, _ => x end).

(** ** bundleKeys *)

Definition scan_bundle (repo : string) (bd : BundleDescriptor) : Bundle :=
  NewBundle now [BundleID (bd_ID bd); Repo repo; WithBundleDescriptor (Some bd); ContextStores true].

Definition unpack_files (repo : string) (bd : BundleDescriptor) (runs_ : list (list (event unit))) : R (Stores S) (list BundleEntry) := fun c =>
  match Retry (fun es => unpackBundleFileList false defaultBundleEntriesPerFile es (scan_bundle repo bd)) runs_ (CoreUpload.mkWorld c nowhere) with
  | None => None
  | Some (Ok b, w) => Some (Ok (b_BundleEntries b), w_stores w)
  | Some (Err e, w) => Some (Err e, w_stores w)
  | Some (Panic p, w) => Some (Panic p, w_stores w)
  end.

(** The loop body over the entries: the keys it appends. *)

Definition entryKeys (size : Z) (entry : BundleEntry) : M (Stores S * D) (list string) :=
  root ← lift (KeyFromString (Hash entry));
  let key := Key_String root in
  found ← with_db (kv_Exists key);
  if found : bool then mret []
  else
    leaves ← attempt (fun '(c, d) => let '(r, c') := getBlobStore (LeavesForHash root (Z.to_nat size) "") c in (r, (c', d)));
    mret (key :: match leaves with inl ls => Key_String <$> ls | inr _ => [] end).

(** ** repoKeysScanner *)

Definition max (a b : Z) : Z := if (b <? a)%Z then a else b.

Definition bundles_opts (options : purgeOptions) : list Option :=
  [ConcurrentList NumCPU (max 10 (po_maxParallel options `quot` 4)); WithIgnoreCorruptedMetadata true; WithDoneChan true].

(** The error of ListBundlesApply when the applied function fails. *)

Definition apply_error (i : interruption) (err : option error) (e : error) : error :=
  match interrupted_err i err with
  | Some e' => if decide (e' = ErrInterrupted) then e else e'
  | None => e
  end.

(** The goroutines that were started and have not ended. *)

Definition active (st : building) : nat :=
  length (filter (fun p => match p.2 with PStart | PDone _ => false | _ => true end = true) (bg_threads st)).

Definition thread_step (options : purgeOptions) (j i : nat) (ch : choices) (st : building) : option (res unit * building) :=
  match bg_threads st !! i, bg_contexts st !! j with
  | Some (repo, ph), Some c =>
      match ph with
      | PDone _ => None
      | PStart =>
          if decide (Z.to_nat (po_maxParallel options) <= active st) then None
          else
            match bg_err st with
            | Some _ => Some (Ok tt, finish_thread i repo None st)
            | None =>
                let '(r, c') := listBundlesChan ksuid_valid fuel NumCPU repo (ch_sch ch) (bundles_opts options) c in
                let st' := set_context j c' st in
                match r with
                | Ok evs => let '(items, err) := doSelect evs in Some (Ok tt, set_phase i repo (PBundles items err) st')
                | Err e => Some (Ok tt, finish_thread i repo (Some e) st')
                | Panic p => Some (Panic p, st')
                end
            end
      | PBundles [] err => Some (Ok tt, finish_thread i repo err st)
      | PBundles (bd :: bundles) err =>
          match unpack_files repo bd (ch_unpack ch) c with
          | None => None
          | Some (Ok es, c') => Some (Ok tt, set_phase i repo (PEntries (bd_LeafSize bd) es [] bundles err) (set_context j c' st))
          | Some (Err _, c') => Some (Ok tt, set_phase i repo (PKeys [] bundles err) (set_context j c' st))
          | Some (Panic p, c') => Some (Panic p, set_context j c' st)
          end
      | PEntries size [] keys bundles err => Some (Ok tt, add_count (N.of_nat (length keys)) (set_phase i repo (PKeys keys bundles err) st))
      | PEntries size (entry :: todo) keys bundles err =>
          let '(r, (c', d')) := entryKeys size entry (c, bg_db st) in
          let st' := set_db d' (set_context j c' st) in
          match r with
          | Ok ks => Some (Ok tt, set_phase i repo (PEntries size todo (keys ++ ks) bundles err) st')
          | Err e => Some (Ok tt, finish_thread i repo (Some (apply_error (ch_int ch) err e)) st')
          | Panic p => Some (Panic p, st')
          end
      | PKeys [] bundles err => Some (Ok tt, set_phase i repo (PBundles bundles err) st)
      | PKeys (key :: keys) bundles err =>
          match bg_err st with
          | Some _ => Some (Ok tt, finish_thread i repo (Some (apply_error (ch_int ch) err ErrCanceled)) st)
          | None =>
              let '(r, d') := kv_SetIfNotExists key "" (bg_db st) in
              let st' := set_db d' st in
              match r with
              | Ok _ => Some (Ok tt, add_unique 1 (set_phase i repo (PKeys keys bundles err) st'))
              | Err e => Some (Ok tt, finish_thread i repo (Some (apply_error (ch_int ch) err e)) st')
              | Panic p => Some (Panic p, st')
              end
          end
      end
  | _, _ => None
  end.

(** ** The uploader in the background *)

Definition with_uploads {A} (m : R uploads A) : R building A := fun st =>
  match bg_contexts st !! 0 with
  | None => None
  | Some c =>
      match m (mkUploads (Metadata c) (bg_db st) (bg_uploaded st)) with
      | None => None
      | Some (r, u) =>
          Some (r, mkBuilding (<[0 := SetMetadata (up_store u) c]> (bg_contexts st)) (up_db u) (bg_count st) (bg_unique st) (up_uploaded u)
                     (bg_uploader st) (bg_upErr st) (bg_threads st) (bg_err st))
      end
  end.

Definition set_uploader (l : uploader) (e : option error) (st : building) : building :=
  mkBuilding (bg_contexts st) (bg_db st) (bg_count st) (bg_unique st) (bg_uploaded st) l e (bg_threads st) (bg_err st).

(** A chunk that fails ends the uploader; the scan goes on. *)

Definition tick_step (options : purgeOptions) (indexTime : Time.Time) (busy : bool) (rs : list put_run) (st : building) : option (res unit * building) :=
  match bg_upErr st with
  | Some _ => None
  | None =>
      match with_uploads (tick Format (po_indexChunkSize options) indexTime (bg_unique st) busy rs (bg_uploader st)) st with
      | None => None
      | Some (Ok l, st') => Some (Ok tt, set_uploader l None st')
      | Some (Err e, st') => Some (Ok tt, set_uploader (bg_uploader st') (Some e) st')
      | Some (Panic p, st') => Some (Panic p, st')
      end
  end.

Definition build_step (options : purgeOptions) (indexTime : Time.Time) (j : nat) (ev : build_event) : building -> option (res unit * building) :=
  match ev with
  | BThread i ch => thread_step options j i ch
  | BTick busy rs => tick_step options indexTime busy rs
  end.

Fixpoint build_run (options : purgeOptions) (indexTime : Time.Time) (j : nat) (evs : list build_event) (st : building) : option (res unit * building) :=
  match evs with
  | [] => Some (Ok tt, st)
  | ev :: evs' =>
      match build_step options indexTime j ev st with
      | Some (Ok _, st') => build_run options indexTime j evs' st'
      | r => r
      end
  end.

(** ** scanContext *)

Definition is_done (p : string * phase) : bool := match p.2 with PDone _ => true | _ => false end.

Definition repos_opts (options : purgeOptions) : list Option := [ConcurrentList NumCPU (max 1 (po_maxParallel options `quot` 4))].

Definition start_threads (repos : list RepoDescriptor) (st : building) : building :=
  mkBuilding (bg_contexts st) (bg_db st) (bg_count st) (bg_unique st) (bg_uploaded st) (bg_uploader st) (bg_upErr st)
    ((fun r => (rd_Name r, PStart)) <$> repos) None.

Definition scanContext (options : purgeOptions) (indexTime : Time.Time) (j : nat) (run : schedule * list build_event) : R building unit := fun st =>
  match bg_contexts st !! j with
  | None => None
  | Some c =>
      let '(r, c') := ListRepos ksuid_valid fuel NumCPU run.1 (repos_opts options) c in
      let st1 := set_context j c' st in
      match r with
      | Panic p => Some (Panic p, st1)
      | Err e => Some (Err e, st1)
      | Ok (_, Some e) => Some (Err e, st1)
      | Ok (repos, None) =>
          match build_run options indexTime j run.2 (start_threads repos st1) with
          | None => None
          | Some (Ok _, st2) =>
              if forallb is_done (bg_threads st2) then Some (match bg_err st2 with Some e => Err e | None => Ok tt end, st2) else None
          | r => r
          end
      end
  end.

(** The contexts from number [j] on, [n] of them. *)

Fixpoint scan_contexts (options : purgeOptions) (indexTime : Time.Time) (n j : nat) (runs_ : list (schedule * list build_event)) : R building unit :=
  match n, runs_ with
  | O, [] => once (mret tt)
  | Datatypes.S n', run :: runs' => scanContext options indexTime j run ≫= fun _ => scan_contexts options indexTime n' (Datatypes.S j) runs'
  | _, _ => fun _ => None
  end.

(** ** PurgeBuildReverseIndex *)

(** An execution: the scans of the contexts, the last chunks, and the order in
    which the chunks of an existing index are loaded; [bc_noticed] is said below. *)

Record build_choices : Type := mkBuildChoices {
  bc_scans : list (schedule * list build_event);
  bc_last : list (list put_run);
  bc_order : list string -> list string;
  bc_noticed : bool
}.

(** When a scan fails the uploader is cancelled, and what is returned is the
    error of the uploader. When a chunk has failed, the uploader returns its
    error, or the one of the cancelled group if it notices that first. *)

Definition PurgeBuildReverseIndex (opened : res unit) (indexTime : Time.Time) (opts : list PurgeOption) (bc : build_choices)
    : R (list (Stores S) * D) PurgeIndex := fun '(cs, d) =>
  let options := defaultPurgeOptions opts in
  match openKV opened d with
  | (Err e, d0) => Some (Err e, (cs, d0))
  | (Panic p, d0) => Some (Panic p, (cs, d0))
  | (Ok _, d0) =>
      match cs with
      | [] => None
      | c :: others =>
          let '(pre, (c1, d1)) :=
            (if po_resume options then with_index (preloadIndexFiles Parse fuel (bc_order bc)) else mret (0%N, 0%N, Some indexTime)) (c, d0) in
          match pre with
          | Err e => Some (Err e, (c1 :: others, d1))
          | Panic p => Some (Panic p, (c1 :: others, d1))
          | Ok (_, _, None) => Some (Panic "invalid memory address or nil pointer dereference", (c1 :: others, d1))
          | Ok (lastIndex, _, Some t) =>
              let start := if (po_indexStart options <? lastIndex)%N then lastIndex else po_indexStart options in
              let st0 := mkBuilding (c1 :: others) d1 0 0 0 (mkUploader 0 start) None [] None in
              match scan_contexts options t (length cs) 0 (bc_scans bc) st0 with
              | None => None
              | Some (Panic p, st) => Some (Panic p, (bg_contexts st, bg_db st))
              | Some (Err _, st) => Some (Err ErrCanceled, (bg_contexts st, bg_db st))
              | Some (Ok _, st) =>
                  match bg_upErr st with
                  | Some e => Some (Err (if bc_noticed bc then ErrCanceled else e), (bg_contexts st, bg_db st))
                  | None =>
                      match with_uploads (last_chunks Format (po_indexChunkSize options) t (bc_last bc) (ul_chunkIndex (bg_uploader st))) st with
                      | None => None
                      | Some (Ok _, st') => Some (Ok (mkPurgeIndex t (bg_uploaded st')), (bg_contexts st', bg_db st'))
                      | Some (Err e, st') => Some (Err e, (bg_contexts st', bg_db st'))
                      | Some (Panic p, st') => Some (Panic p, (bg_contexts st', bg_db st'))
                      end
                  end
              end
          end
      end
  end.

End scan.
End PurgeScan.
