(* ===== verification/PurgeSafe.v ===== *)
(** * What a purge keeps (pkg/core: purge.go)

    The scan of PurgeScan.v and the deletion of PurgeDelete.v together: every
    complete execution of the construction of the index leaves an index that
    holds the root keys of all files of all bundles and the leaves of these,
    and a purge with it deletes none of the blobs that the bundles use.

    The leaves of a root are inserted after the root itself, and a root that is
    found is not examined again: the invariant [build_inv] says that the leaves
    of a root in the key-value store are there, or are about to be inserted by
    one of the goroutines. *)

From S2P Require Import Prelude GoLib Errors Storage Model CafsKeys CoreMeta StoreRules CoreKeys CoreListing CoreIndex CoreRepo CoreList CoreBundle CoreUpload CoreDownload CorePublish PurgeKv Pool PurgeIndex PurgeDelete PurgeScan.

Module PurgeSafe.
Import Model Storage CafsKeys CoreMeta CoreStatus StoreRules CoreKeys CoreListing CoreIndex CoreRepo CoreList CoreBundle CoreUpload CoreDownload PurgeKv Pool PurgeIndex PurgeDelete PurgeScan.

(** ** Reading a context while its index is written *)

Lemma listing_same objs objs' prefix delim :
  (forall k, Strings.HasPrefix k prefix = true -> is_Some (objs !! k) <-> is_Some (objs' !! k)) ->
  listing objs prefix delim = listing objs' prefix delim.
Proof.
  intros H. assert (Hset : forall k, k ∈ listing objs prefix delim <-> k ∈ listing objs' prefix delim).
  { intros k. rewrite !listing_elem. split; intros (k' & Hk & Hp & ->); exists k'; (split; [by apply H|done]). }
  unfold listing. f_equal. f_equal. apply set_eq. intros k. specialize (Hset k). unfold listing in Hset.
  by rewrite !merge_sort_Permutation, !elem_of_elements in Hset.
Qed.

Section contexts.
Context {S : Type} `{HS : !Store S, HSL : !StoreLaws S, HR : !ReliableStore S, HLL : !ListingLaws S}.
Context {GS : GoSort} {GSL : GoSortLaws}.
Context {HYR : Yaml RepoDescriptor} {HYB : Yaml BundleDescriptor} {HYE : Yaml (list BundleEntry)}.

(** The same context, but for its index. *)

Definition agree (c c' : Stores S) : Prop :=
  objects (Blob c') = objects (Blob c) /\ objects (VMetadata c') = objects (VMetadata c) /\
  forall f, Strings.HasPrefix f ReverseIndexPrefix = false -> objects (Metadata c') !! f = objects (Metadata c) !! f.

Lemma agree_refl c : agree c c.
Proof. done. Qed.

Lemma agree_same c c1 c2 : agree c c1 -> same_objects c1 c2 -> agree c c2.
Proof. intros (Hb & Hv & Hm) (Hm2 & Hv2 & Hb2 & _). split_and!; [congruence..|]. intros f Hf. rewrite <- Hm2. by apply Hm. Qed.

Lemma agree_index c c1 s : agree c c1 ->
  (forall f, Strings.HasPrefix f ReverseIndexPrefix = false -> objects s !! f = objects (Metadata c1) !! f) -> agree c (SetMetadata s c1).
Proof. intros (Hb & Hv & Hm) H. split_and!; [done..|]. intros f Hf. cbn. rewrite H by done. by apply Hm. Qed.

Lemma document_agree {A} {HY : Yaml A} c c' pth (a : A) :
  agree c c' -> Strings.HasPrefix pth ReverseIndexPrefix = false -> document (Metadata c) pth a -> document (Metadata c') pth a.
Proof. intros (_ & _ & Hm) Hp (b & Hb & Hu). exists b. by rewrite Hm. Qed.

Lemma not_index_bundles r s : Strings.HasPrefix ("bundles/" +:+ r +:+ s) ReverseIndexPrefix = false.
Proof. reflexivity. Qed.

Lemma bundle_prefix_disjoint repo k : Strings.HasPrefix k (GetArchivePathPrefixToBundles repo) = true -> Strings.HasPrefix k ReverseIndexPrefix = false.
Proof. intros [r ->]%Strings.HasPrefix_spec. reflexivity. Qed.

Lemma bundle_with_agree c c' repo id bd es : agree c c' -> bundle_with (Metadata c) repo id bd es -> bundle_with (Metadata c') repo id bd es.
Proof.
  intros Ha (Hd & Hid & Hn & Hj). split_and!; [|done..|].
  - by eapply document_agree.
  - intros j Hlt. eapply document_agree; [done|reflexivity|]. by apply Hj.
Qed.

Lemma bundles_ok_agree c c' repo n : agree c c' -> bundles_ok repo (Metadata c) n -> bundles_ok repo (Metadata c') n.
Proof.
  intros (_ & _ & Hm) [Hd Hb]. split.
  - intros k Hk Hp. apply (Hd k); [|done]. rewrite <- Hm; [done|]. by eapply bundle_prefix_disjoint.
  - intros id b Hid Hb'. apply (Hb id b Hid). by rewrite <- Hm.
Qed.

(** ** The index files of a bundle *)

Section unpacking.
Context {C : Type} `{HC : !Store C}.
Variables (now : Time.Time) (nowhere : C).

Lemma download_list_ok (bundle : Bundle) entries (c0 : Stores S) j (w : world S C) :
  b_context bundle = true -> CorePublish.plain_id (b_BundleID bundle) -> (Z.of_nat j <= Strconv.max_int64)%Z ->
  document (Metadata c0) (GetArchivePathToBundleFileList (b_RepoID bundle) (b_BundleID bundle) (N.of_nat j)) (chunk_at defaultBundleEntriesPerFile entries j) ->
  same_objects c0 (w_stores w) ->
  runs (downloadBundleFileListFile false bundle (N.of_nat j)) w (fun es w' =>
    es = chunk_at defaultBundleEntriesPerFile entries j /\ same_objects c0 (w_stores w')).
Proof.
  intros Hctx Hid Hj (buf & Hbuf & Hun) Hs. unfold downloadBundleFileListFile.
  apply runs_bind. eapply runs_lift; [apply CorePublish.consumable_list_ok; [done|lia]|]. rewrite Hctx.
  apply runs_bind, runs_context; [done|]. apply runs_meta. eapply runs_Get; [by rewrite (same_meta _ _ Hs)|]. intros s' Ho.
  eapply runs_lift; [exact Hun|]. split; [done|]. cbn. etrans; [exact Hs|]. by apply same_SetMetadata.
Qed.

Lemma unpack_every (c : Stores S) repo bd es :
  bundle_with (Metadata c) repo (bd_ID bd) bd es -> CorePublish.plain_id (bd_ID bd) ->
  (Z.of_nat (nchunks defaultBundleEntriesPerFile es * defaultBundleEntriesPerFile) < 2 ^ 63)%Z ->
  every_run (unpack_files now nowhere repo bd) c (fun out c' => out = es /\ same_objects c c').
Proof.
  intros (_ & _ & Hcount & Hlists) Hid Hbig. set (n := defaultBundleEntriesPerFile) in *.
  assert (0 < n) as Hn by (unfold n, defaultBundleEntriesPerFile; lia).
  pose proof (unpackBundleFileList_run n es Hn false (scan_bundle now repo bd) Hcount (fun _ w => same_objects c (w_stores w))) as Hrun.
  destruct (Hrun (fun j done w Hj _ Hs => download_list_ok (scan_bundle now repo bd) es c j w eq_refl Hid ltac:(unfold Strconv.max_int64; nia) (Hlists j Hj) Hs)
    (mkWorld c nowhere)) as [Hsafe (e & r & w & E)]; [done|done|done|].
  unfold every_run, unpack_files. split.
  - intros [|x xs] r' c' H; [done|]. cbn [Retry] in H. destruct (unpackBundleFileList false _ x _ _) as [[r1 w1]|] eqn:E1; [|done].
    destruct (Hsafe _ _ _ E1) as (b & -> & -> & done_ & _ & Hs). simplify_eq. eexists. split; [done|]. done.
  - exists [e]. cbn [Retry]. fold n. rewrite E. destruct (Hsafe _ _ _ E) as (b & -> & _). eauto.
Qed.

End unpacking.

(** ** The bundles of a repository *)

Definition in_repo (c : Stores S) (repo : string) (bd : BundleDescriptor) : Prop :=
  Strings.no_slash (bd_ID bd) /\ document (Metadata c) (GetArchivePathToBundle repo (bd_ID bd)) bd.

Lemma list_step kv fuel NumCPU repo sch opts (c0 c : Stores S) n :
  let settings := settings_of NumCPU opts in
  agree c0 c -> Strings.no_slash repo -> is_Some (objects (Metadata c0) !! GetArchivePathToRepoDescriptor repo) ->
  bundles_ok repo (Metadata c0) n -> withMinimalBundle settings = false ->
  listing_ok fuel (length (listing (objects (Metadata c0)) (GetArchivePathPrefixToBundles repo) "/")) settings sch ->
  runs (listBundlesChan kv fuel NumCPU repo sch opts) c (fun evs c' => same_objects c c' /\
    exists bds, doSelect evs = (bds, None) /\ forall bd, bd ∈ bds <-> in_repo c0 repo bd).
Proof.
  intros settings Ha Hslash Hdesc Hok Hmin Hl. pose proof (bundles_ok_agree _ _ _ _ Ha Hok) as Hok'.
  destruct (listBundlesChan_runs kv fuel NumCPU repo settings Hslash sch opts c n eq_refl) as (ids & (_ & _ & Hns & Hids) & Hr).
  - by rewrite (proj2 (proj2 Ha)).
  - done.
  - rewrite (listing_same _ (objects (Metadata c0))); [done|]. intros k Hk. by rewrite (proj2 (proj2 Ha)) by (by eapply bundle_prefix_disjoint).
  - eapply runs_mono; [exact Hr|]. intros evs c' [Hs Hd]. split; [done|]. eexists. split; [exact Hd|]. intros bd.
    rewrite (got_elem repo settings _ _ _ _ Hok' Hns). unfold bundle_got, in_repo, document. rewrite Hmin, (proj2 (proj2 Ha)) by reflexivity. split.
    + intros [Hin Hg]. split; [rewrite Forall_forall in Hns; by apply Hns|].
      destruct (objects (Metadata c0) !! GetArchivePathToBundle repo (bd_ID bd)) as [b|] eqn:Eb; [|done]. exists b. split; [done|].
      by destruct (Unmarshal b); simplify_eq.
    + intros (Hid & b & Hb & Hu). rewrite Hb, Hu. split; [|done]. apply Hids; [done|].
      exists "bundle.yaml". unfold directory. rewrite (proj2 (proj2 Ha)) by reflexivity.
      replace (_ +:+ "bundle.yaml") with (GetArchivePathToBundle repo (bd_ID bd)); [by eexists|].
      unfold GetArchivePathToBundle, GetArchivePathPrefixToBundles. by rewrite !Strings.string_app_assoc.
Qed.

(** ** The keys of an entry *)

Context {D : Type} `{HK : !KvStore D, HKL : !KvLaws D, HKR : !ReliableKv D, HBk : Blake2b}.

Definition leaves_in (c : Stores S) (size : Z) (root : Key) : list string :=
  match objects (Blob c) !! Key_String root with
  | Some b => match verifiedKeys b (Z.to_nat size) with Ok ls => Key_String <$> ls | _ => [] end
  | None => []
  end.

Lemma MustNewKey_no_panic data p : length data = KeySize -> MustNewKey data <> Panic p.
Proof. intros H. by rewrite MustNewKey_key. Qed.

Lemma leaves_loop_no_panic f : forall data p, leaves_loop f data <> Panic p.
Proof.
  induction f as [|f IH]; intros [|x data] p; cbn [leaves_loop]; try done. destruct (Nat.ltb_spec (length (x :: data)) KeySize); [done|].
  assert (length (take KeySize (x :: data)) = KeySize) as Hl by (rewrite length_take; lia). rewrite MustNewKey_key by done. unfold mbind, res_bind.
  destruct (leaves_loop f (drop KeySize (x :: data))) eqn:E; [done|done|]. intros _. by apply (IH _ _ E).
Qed.

Lemma verifiedKeys_no_panic data n p : verifiedKeys data n <> Panic p.
Proof.
  unfold verifiedKeys, verificationKey, mbind, res_bind. destruct (Nat.ltb_spec (length data) KeySize) as [|Hl]; [done|].
  rewrite MustNewKey_key by (unfold is_key; rewrite length_drop; lia). destruct (leaves (take (length data - KeySize) data)) eqn:E; [|done|by apply leaves_loop_no_panic in E].
  unfold rootHash, NewKey. destruct (_ =? KeySize); [|done]. by case_decide.
Qed.

Lemma entryKeys_runs (c0 c : Stores S) (d : D) size entry root :
  agree c0 c -> KeyFromString (Hash entry) = Ok root ->
  runs (entryKeys size entry) (c, d) (fun ks st' => same_objects c st'.1 /\ entries st'.2 = entries d /\
    ks = if decide (is_Some (entries d !! Key_String root)) then [] else Key_String root :: leaves_in c0 size root).
Proof.
  intros Ha Hroot. unfold entryKeys. apply runs_bind. eapply runs_lift; [exact Hroot|]. destruct (Exists_ok (Key_String root) d) as (d1 & Ex & He).
  apply runs_bind. eapply runs_eq; [unfold with_db; cbn; by rewrite Ex|]. case_bool_decide as Hin.
  { rewrite decide_True by done. by apply runs_ret. }
  rewrite decide_False by done. apply runs_bind.
  assert (exists r s', LeavesForHash root (Z.to_nat size) "" (Blob c) = (r, s') /\ objects s' = objects (Blob c) /\
    match r with Ok ls => Key_String <$> ls | _ => [] end = leaves_in c0 size root /\ forall p, r <> Panic p) as (r & s' & Er & Hs' & Hls & Hp).
  { unfold LeavesForHash, leavesForHash, bytesFromRoot, mbind, M_bind, lift, leaves_in. change (StringWithPrefix root "") with (Key_String root). rewrite <- (proj1 Ha).
    destruct (objects (Blob c) !! Key_String root) as [b|] eqn:Eb.
    - destruct (Get_ok _ _ _ Eb) as (s' & -> & Ho). eexists _, _. split_and!; [done..|]. apply verifiedKeys_no_panic.
    - destruct (Get_none _ _ Eb) as (e & s' & -> & _ & Ho). by eexists _, _. }
  exists (match r with Ok ls => inl ls | Err e => inr e | Panic _ => inr (ErrMsg "") end), (SetBlob s' c, d1). split.
  { unfold attempt, getBlobStore. rewrite Er. destruct r as [ls|e|pm]; [done|done|by destruct (Hp pm)]. }
  apply runs_ret. cbn [fst snd]. split; [|split; [done|]].
  - by split_and!.
  - f_equal. rewrite <- Hls. by destruct r.
Qed.

(** The entries of a bundle are determined by its index files. *)

Lemma bundle_entries_unique (c : Stores S) repo id bd es es' :
  bundle_with (Metadata c) repo id bd es -> bundle_with (Metadata c) repo id bd es' -> es = es'.
Proof.
  intros (_ & _ & Hn & Hl) (_ & _ & Hn' & Hl'). set (n := defaultBundleEntriesPerFile) in *.
  assert (0 < n) as Hpos by (unfold n, defaultBundleEntriesPerFile; lia). assert (nchunks n es = nchunks n es') as Heq by lia.
  rewrite <- (chunks_concat n es Hpos), <- (chunks_concat n es' Hpos). rewrite <- Heq. f_equal. apply list_fmap_ext.
  intros i j [-> Hj]%lookup_seq. cbn in *. destruct (Hl i Hj) as (b & Hb & Hu), (Hl' i ltac:(lia)) as (b' & Hb' & Hu'). congruence.
Qed.

(** ** The keys in use *)

(** [repos] are the names of the repositories of the context, whose bundles have
    descriptors and index files. *)

Record context_ok (fuel : nat) (c : Stores S) (repos : list string) : Prop := {
  co_repos : repos_ok (Metadata c);
  co_pages : length (listing (objects (Metadata c)) GetArchivePathPrefixToRepos "") < fuel;
  co_names repo : repo ∈ repos <-> Strings.no_slash repo /\ is_Some (objects (Metadata c) !! GetArchivePathToRepoDescriptor repo);
  co_repo repo : repo ∈ repos -> Strings.no_slash repo /\ is_Some (objects (Metadata c) !! GetArchivePathToRepoDescriptor repo) /\
    (exists n, bundles_ok repo (Metadata c) n) /\ length (listing (objects (Metadata c)) (GetArchivePathPrefixToBundles repo) "/") < fuel;
  co_bundle repo bd : repo ∈ repos -> in_repo c repo bd -> exists es, bundle_with (Metadata c) repo (bd_ID bd) bd es /\
    CorePublish.plain_id (bd_ID bd) /\ (Z.of_nat (nchunks defaultBundleEntriesPerFile es * defaultBundleEntriesPerFile) < 2 ^ 63)%Z /\
    forall e, e ∈ es -> exists root, KeyFromString (Hash e) = Ok root
}.

(** [root] is the key of a file of a bundle of the context, with leaves of [size] bytes. *)

Definition file_of (c : Stores S) (repos : list string) (size : Z) (root : Key) : Prop :=
  exists repo bd es e, repo ∈ repos /\ in_repo c repo bd /\ bundle_with (Metadata c) repo (bd_ID bd) bd es /\ e ∈ es /\
    KeyFromString (Hash e) = Ok root /\ size = bd_LeafSize bd.

Definition used (c : Stores S) (repos : list string) (k : string) : Prop :=
  exists size root, file_of c repos size root /\ (k = Key_String root \/ k ∈ leaves_in c size root).

Lemma Key_String_ok k : is_key k -> line_ok (Key_String k).
Proof. intros H. apply EncodeToString_ok. rewrite H. unfold KeySize. lia. Qed.

Lemma KeyFromString_key s k : KeyFromString s = Ok k -> is_key k.
Proof. unfold KeyFromString, mbind, res_bind. destruct (Hex.DecodeString s); [|done|done]. by intros [? _]%NewKey_Ok. Qed.

Lemma leaves_in_ok {HBL : Blake2bLaws} (c : Stores S) size root : Forall line_ok (leaves_in c size root).
Proof.
  unfold leaves_in. destruct (objects (Blob c) !! _) as [b|]; [|constructor]. destruct (verifiedKeys b (Z.to_nat size)) as [ls|e|m] eqn:E; [|constructor..].
  apply verifiedKeys_sound in E as [Hls _]. apply Forall_fmap. eapply Forall_impl; [exact Hls|]. intros k. apply Key_String_ok.
Qed.

End contexts.

(** ** The invariant of a scan *)

Section invariant.
Context {S C D : Type} `{HS : !Store S, HSL : !StoreLaws S, HR : !ReliableStore S, HLL : !ListingLaws S, HDR : !DeleteReports S, HC : !Store C}.
Context `{HK : !KvStore D, HKL : !KvLaws D, HKR : !ReliableKv D, HBk : Blake2b, HBL : !Blake2bLaws}.
Context {GS : GoSort} {GSL : GoSortLaws} {HYR : Yaml RepoDescriptor} {HYB : Yaml BundleDescriptor} {HYE : Yaml (list BundleEntry)}.
Variables (kv : string -> bool) (fuel : nat) (NumCPU : Z) (now : Time.Time) (Format : Time.Time -> string) (nowhere : C).
Variables (options : purgeOptions) (t : Time.Time).
Hypothesis parallel : (0 < po_maxParallel options)%Z.
Hypothesis chunk_size : (0 < po_indexChunkSize options)%N.

(** The contexts with the names of their repositories. *)

Variable all : list (Stores S * list string).
Hypothesis all_ok : forall c repos, (c, repos) ∈ all -> context_ok fuel c repos.

(** The leaves of a root are the same in all bundles, and no leaf is a root. *)

Variable leaves_of : string -> list string.

Definition is_root (k : string) : Prop := exists c repos size root, (c, repos) ∈ all /\ file_of c repos size root /\ k = Key_String root.

Hypothesis leaves_same : forall c repos size root, (c, repos) ∈ all -> file_of c repos size root -> leaves_in c size root = leaves_of (Key_String root).
Hypothesis leaves_not_roots : forall r l, is_root r -> l ∈ leaves_of r -> ~ is_root l.

(** [d] holds the key [k]. *)

Definition has (d : D) (k : string) : Prop := is_Some (entries d !! k).

Definition grows (d d' : D) : Prop := forall k, has d k -> has d' k.

(** The roots of the files of a bundle satisfy [X]. *)

Definition roots_in (X : string -> Prop) (c : Stores S) (repo : string) (bd : BundleDescriptor) : Prop :=
  forall es e root, bundle_with (Metadata c) repo (bd_ID bd) bd es -> e ∈ es -> KeyFromString (Hash e) = Ok root -> X (Key_String root).

(** With a root, a list of keys to insert has its leaves. *)

Definition closed (d : D) (ks : list string) : Prop := forall r l, r ∈ ks -> is_root r -> l ∈ leaves_of r -> l ∈ ks \/ has d l.

Definition phase_ok (c : Stores S) (repo : string) (d : D) (ph : phase) : Prop :=
  match ph with
  | PStart => True
  | PBundles bs err => err = None /\ (forall bd, bd ∈ bs -> in_repo c repo bd) /\
      forall bd, in_repo c repo bd -> bd ∈ bs \/ roots_in (has d) c repo bd
  | PEntries size todo keys bs err => err = None /\ (forall bd, bd ∈ bs -> in_repo c repo bd) /\ Forall line_ok keys /\ closed d keys /\
      exists bd es done, in_repo c repo bd /\ bundle_with (Metadata c) repo (bd_ID bd) bd es /\ size = bd_LeafSize bd /\ es = done ++ todo /\
        (forall e root, e ∈ done -> KeyFromString (Hash e) = Ok root -> has d (Key_String root) \/ Key_String root ∈ keys) /\
        forall bd', in_repo c repo bd' -> bd' = bd \/ bd' ∈ bs \/ roots_in (has d) c repo bd'
  | PKeys keys bs err => err = None /\ (forall bd, bd ∈ bs -> in_repo c repo bd) /\ Forall line_ok keys /\ closed d keys /\
      forall bd, in_repo c repo bd -> bd ∈ bs \/ roots_in (fun k => has d k \/ k ∈ keys) c repo bd
  | PDone r => r = None /\ forall bd, in_repo c repo bd -> roots_in (has d) c repo bd
  end.

Lemma roots_in_mono (X Y : string -> Prop) c repo bd : (forall k, X k -> Y k) -> roots_in X c repo bd -> roots_in Y c repo bd.
Proof. intros H HX es e root Hes He Hr. apply H. by eapply HX. Qed.

Lemma closed_mono d d' ks : grows d d' -> closed d ks -> closed d' ks.
Proof. intros Hg H r l Hr Hroot Hl. destruct (H r l Hr Hroot Hl); [by left|right; by apply Hg]. Qed.

Lemma phase_ok_mono c repo d d' ph : grows d d' -> phase_ok c repo d ph -> phase_ok c repo d' ph.
Proof.
  intros Hg. destruct ph as [|bs err|size todo keys bs err|keys bs err|r]; cbn; [done|..].
  - intros (? & ? & H). split_and!; [done..|]. intros bd Hbd. destruct (H bd Hbd); [by left|right]. by eapply roots_in_mono.
  - intros (? & ? & ? & Hc & bd & es & done_ & H1 & H2 & H3 & H4 & H5 & H6). split_and!; [done..|by eapply closed_mono|]. exists bd, es, done_. split_and!; [done..| |].
    + intros e root He Hr. destruct (H5 e root He Hr); [left; by apply Hg|by right].
    + intros bd' Hb'. destruct (H6 bd' Hb') as [?|[?|?]]; [by left|by right; left|right; right]. by eapply roots_in_mono.
  - intros (? & ? & ? & Hc & H). split_and!; [done..|by eapply closed_mono|]. intros bd Hbd. destruct (H bd Hbd); [by left|right]. eapply roots_in_mono; [|done].
    intros k [?|?]; [left; by apply Hg|by right].
  - intros [? H]. split; [done|]. intros bd Hbd. eapply roots_in_mono; [|by apply H]. done.
Qed.

(** A key that one of the goroutines is about to insert. *)

Definition to_insert (ths : list (string * phase)) (l : string) : Prop :=
  exists i repo ks bs err, ths !! i = Some (repo, PKeys ks bs err) /\ l ∈ ks.

Record db_inv (d : D) (ths : list (string * phase)) : Prop := {
  di_lines k : has d k -> line_ok k;
  di_leaves r l : has d r -> is_root r -> l ∈ leaves_of r -> has d l \/ to_insert ths l
}.

(** The scan of context number [j], whose initial state is [c0]. [u] are the
    chunks uploaded so far. *)

Record build_inv (objs0 : gmap string bytes) (j : nat) (c0 : Stores S) (repos : list string) (st : building (S := S) (D := D)) : Prop := {
  bi_length : length (bg_contexts st) = length all;
  bi_contexts i c c' : bg_contexts st !! i = Some c' -> all.*1 !! i = Some c -> agree c c';
  bi_later i : j < i -> bg_contexts st !! i = all.*1 !! i;
  bi_current : all !! j = Some (c0, repos);
  bi_err : bg_err st = None;
  bi_upErr : bg_upErr st = None;
  bi_names repo : repo ∈ (bg_threads st).*1 <-> repo ∈ repos;
  bi_phases i repo ph : bg_threads st !! i = Some (repo, ph) -> phase_ok c0 repo (bg_db st) ph;
  bi_db : db_inv (bg_db st) (bg_threads st);
  bi_earlier i c rs repo bd : i < j -> all !! i = Some (c, rs) -> repo ∈ rs -> in_repo c repo bd -> roots_in (has (bg_db st)) c repo bd;
  bi_uploads : exists c' cs, bg_contexts st !! 0 = Some c' /\ uploaded_inv Format t objs0 cs (mkUploads (Metadata c') (bg_db st) (bg_uploaded st)) /\
    (forall i, is_Some (cs !! i) -> (i <= ul_chunkIndex (bg_uploader st))%N)
}.

(** Insertions that mark nothing. *)

Definition marks_same (d d' : D) : Prop :=
  (forall k, entries d' !! k = Some "X" <-> entries d !! k = Some "X") /\ forall k v, entries d' !! k = Some v -> v = "" \/ entries d !! k = Some v.

Lemma uploaded_inv_same objs0 cs s s' (d d' : D) n :
  objects s' = objects s -> marks_same d d' -> uploaded_inv Format t objs0 cs (mkUploads s d n) -> uploaded_inv Format t objs0 cs (mkUploads s' d' n).
Proof.
  intros Ho [Hx Hv] [H1 H2 H3 H4]. cbn in *. split; cbn.
  - by rewrite Ho.
  - intros f Hf. rewrite Ho. by apply H2.
  - intros k v [?|?]%Hv; [by left|by eapply H3].
  - intros k. by rewrite Hx.
Qed.

Lemma inv_update objs0 j c0 repos st i repo ph ph' c c' d' st' :
  build_inv objs0 j c0 repos st -> bg_threads st !! i = Some (repo, ph) -> bg_contexts st !! j = Some c -> same_objects c c' ->
  grows (bg_db st) d' -> marks_same (bg_db st) d' -> phase_ok c0 repo d' ph' -> db_inv d' (<[i := (repo, ph')]> (bg_threads st)) ->
  bg_contexts st' = <[j := c']> (bg_contexts st) -> bg_db st' = d' -> bg_threads st' = <[i := (repo, ph')]> (bg_threads st) ->
  bg_err st' = None -> bg_upErr st' = None -> bg_uploaded st' = bg_uploaded st -> bg_uploader st' = bg_uploader st ->
  build_inv objs0 j c0 repos st'.
Proof.
  intros [Hlen Hctx Hlat Hcur He Hue Hn Hph Hdb Hear (cu & cs & Hcu & Hup & Hcs)] Hi Hj Hs Hg Hm Hok Hdb' Ec Ed Et Ee Eu Eup Eul.
  pose proof (lookup_lt_Some _ _ _ Hj) as Hlt. split; rewrite ?Ec, ?Ed, ?Et, ?Ee, ?Eu, ?Eup, ?Eul; try done.
  - by rewrite length_insert.
  - intros x cx cx' Hx Hax. destruct (decide (x = j)) as [->|Hne].
    + rewrite list_lookup_insert_eq in Hx by done. simplify_eq. eapply agree_same; [by eapply Hctx|done].
    + rewrite list_lookup_insert_ne in Hx by done. by eapply Hctx.
  - intros x Hx. rewrite list_lookup_insert_ne by lia. by apply Hlat.
  - intros repo'. rewrite <- Hn, list_fmap_insert. cbn. rewrite list_insert_id; [done|]. by rewrite list_lookup_fmap, Hi.
  - intros x rp px Hx. destruct (decide (x = i)) as [->|Hne].
    + rewrite list_lookup_insert_eq in Hx by (by eapply lookup_lt_Some). by simplify_eq.
    + rewrite list_lookup_insert_ne in Hx by done. eapply phase_ok_mono; [exact Hg|by eapply Hph].
  - intros x cx rs rp bd Hx Hax Hrp Hbd. eapply roots_in_mono; [exact Hg|by eapply Hear].
  - destruct (decide (j = 0)) as [->|Hne].
    + rewrite list_lookup_insert_eq by done. simplify_eq. exists c', cs. split_and!; [done| |done]. eapply uploaded_inv_same; [|exact Hm|exact Hup]. by rewrite (same_meta _ _ Hs).
    + rewrite list_lookup_insert_ne by done. exists cu, cs. split_and!; [done| |done]. by eapply uploaded_inv_same; [| |exact Hup].
Qed.

(** A step that reads leaves the key-value store as it is. *)

Lemma db_inv_phase d ths i repo ph ph' :
  ths !! i = Some (repo, ph) -> (forall ks bs err, ph = PKeys ks bs err -> forall l, l ∈ ks -> has d l \/ to_insert (<[i := (repo, ph')]> ths) l) ->
  db_inv d ths -> db_inv d (<[i := (repo, ph')]> ths).
Proof.
  intros Hi Hph [Hl Hv]. split; [done|]. intros r l Hr Hroot Hl'. destruct (Hv r l Hr Hroot Hl') as [?|(x & rp & ks & bs & err & Hx & Hin)]; [by left|].
  destruct (decide (x = i)) as [->|Hne]; [rewrite Hi in Hx; simplify_eq; by eapply Hph|]. right. exists x, rp, ks, bs, err. by rewrite list_lookup_insert_ne.
Qed.

Lemma same_db d d' : entries d' = entries d -> grows d d' /\ marks_same d d'.
Proof. intros E. split; [intros k; unfold has; by rewrite E|]. split; intros k; rewrite E; [done|]. by right. Qed.

Lemma db_inv_same d d' ths : entries d' = entries d -> db_inv d ths -> db_inv d' ths.
Proof. intros E [H1 H2]. split; unfold has in *; rewrite E; done. Qed.

(** A step that inserts nothing. *)

Lemma inv_read objs0 j c0 repos st i repo ph ph' c c' d' st' :
  build_inv objs0 j c0 repos st -> bg_threads st !! i = Some (repo, ph) -> bg_contexts st !! j = Some c -> same_objects c c' ->
  entries d' = entries (bg_db st) -> phase_ok c0 repo d' ph' -> (forall ks bs err, ph = PKeys ks bs err -> ks = []) ->
  bg_contexts st' = <[j := c']> (bg_contexts st) -> bg_db st' = d' -> bg_threads st' = <[i := (repo, ph')]> (bg_threads st) ->
  bg_err st' = None -> bg_upErr st' = None -> bg_uploaded st' = bg_uploaded st -> bg_uploader st' = bg_uploader st ->
  build_inv objs0 j c0 repos st'.
Proof.
  intros Hinv Hi Hj Hs He Hok Hph. destruct (same_db _ _ He) as [Hg Hm]. intros. eapply (inv_update objs0 j c0 repos st i repo ph ph'); try done.
  eapply db_inv_phase; [exact Hi| |by eapply db_inv_same, (bi_db _ _ _ _ _ Hinv)]. intros ks bs err Heq l Hl. rewrite (Hph _ _ _ Heq) in Hl. by apply elem_of_nil in Hl.
Qed.

(** ** The steps of a goroutine *)

Abbreviation tstep := (thread_step kv fuel NumCPU now nowhere options).

(** Schedules that answer every request and are not interrupted. *)

Definition good_choices (ch : choices) : Prop :=
  (forall l, order (ch_sch ch) l ≡ₚ l) /\ keys_stop (ch_sch ch) = None /\ fetch_stop (ch_sch ch) = None.

(** The step leads goroutine [i] to the phase [ph']. *)

Definition leads objs0 j c0 repos (st : building (S := S) (D := D)) i repo ph' (o : option (res unit * building (S := S) (D := D))) : Prop :=
  exists st', o = Some (Ok tt, st') /\ build_inv objs0 j c0 repos st' /\ bg_threads st' = <[i := (repo, ph')]> (bg_threads st).

Section steps.
Context (objs0 : gmap string bytes) (j : nat) (c0 : Stores S) (repos : list string) (st : building (S := S) (D := D)) (i : nat) (repo : string) (c : Stores S).
Hypothesis inv : build_inv objs0 j c0 repos st.
Hypothesis current : bg_contexts st !! j = Some c.

Lemma current_agree : agree c0 c.
Proof. eapply (bi_contexts _ _ _ _ _ inv); [exact current|]. rewrite list_lookup_fmap, (bi_current _ _ _ _ _ inv). done. Qed.

Lemma current_ok : context_ok fuel c0 repos.
Proof. apply all_ok. eapply list_elem_of_lookup_2, (bi_current _ _ _ _ _ inv). Qed.

Lemma repo_in ph : bg_threads st !! i = Some (repo, ph) -> repo ∈ repos.
Proof. intros Hi. apply (bi_names _ _ _ _ _ inv). apply list_elem_of_fmap. exists (repo, ph). split; [done|]. by eapply list_elem_of_lookup_2. Qed.

Lemma set_context_same : <[j := c]> (bg_contexts st) = bg_contexts st.
Proof. by apply list_insert_id. Qed.

Lemma bundles_settings : let settings := settings_of NumCPU (bundles_opts NumCPU options) in
  withMinimalBundle settings = false /\ doneChannel settings = true /\ (0 < CoreListing.concurrentList settings)%Z /\ (0 < CoreListing.batchSize settings)%Z.
Proof.
  cbn. split_and!; [done|done| |done]. unfold PurgeScan.max. destruct (Z.ltb_spec (po_maxParallel options `quot` 4) 10); [done|].
  destruct (Z.eqb_spec (po_maxParallel options `quot` 4) 0); lia.
Qed.

Lemma step_start ch : good_choices ch -> bg_threads st !! i = Some (repo, PStart) -> active st < Z.to_nat (po_maxParallel options) ->
  exists bds, leads objs0 j c0 repos st i repo (PBundles bds None) (tstep j i ch st).
Proof.
  intros (Hord & Hks & Hfs) Hi Ha. destruct bundles_settings as (Hmin & Hdc & Hcl & Hbs).
  destruct (co_repo _ _ _ current_ok repo (repo_in _ Hi)) as (Hns & Hdesc & [n Hok] & Hlen).
  destruct (list_step kv fuel NumCPU repo (ch_sch ch) (bundles_opts NumCPU options) c0 c n current_agree Hns Hdesc Hok Hmin) as (evs & c' & E & Hs & bds & Hd & Hin).
  { split; [done..|]. unfold uninterrupted, watchForInterrupts. by rewrite Hdc. }
  exists bds. unfold leads, thread_step. rewrite Hi, current, decide_False by lia. rewrite (bi_err _ _ _ _ _ inv), E, Hd. eexists. split; [done|]. split; [|done].
  eapply (inv_read _ _ _ _ st i repo PStart (PBundles bds None) c c' (bg_db st)); try done; try apply (bi_err _ _ _ _ _ inv); try apply (bi_upErr _ _ _ _ _ inv).
  cbn. split_and!; [done| |]; intros bd; rewrite Hin; [done|by left].
Qed.

Lemma step_no_bundle ch : bg_threads st !! i = Some (repo, PBundles [] None) -> leads objs0 j c0 repos st i repo (PDone None) (tstep j i ch st).
Proof.
  intros Hi. pose proof (bi_phases _ _ _ _ _ inv _ _ _ Hi) as (_ & _ & Hall). unfold leads, thread_step. rewrite Hi, current. eexists. split; [done|]. split; [|done].
  eapply (inv_read _ _ _ _ st i repo _ (PDone None) c c (bg_db st)); try done; cbn; try rewrite (bi_err _ _ _ _ _ inv); try apply (bi_upErr _ _ _ _ _ inv); try done.
  - split; [done|]. intros bd Hbd. destruct (Hall bd Hbd) as [?%elem_of_nil|?]; done.
  - by rewrite set_context_same.
Qed.

Lemma step_bundle bd bs : bg_threads st !! i = Some (repo, PBundles (bd :: bs) None) ->
  exists es, (forall ch, tstep j i ch st = None \/ leads objs0 j c0 repos st i repo (PEntries (bd_LeafSize bd) es [] bs None) (tstep j i ch st)) /\
    forall ch, exists rs, leads objs0 j c0 repos st i repo (PEntries (bd_LeafSize bd) es [] bs None) (tstep j i (mkChoices (ch_sch ch) (ch_int ch) rs) st).
Proof.
  intros Hi. pose proof (bi_phases _ _ _ _ _ inv _ _ _ Hi) as (_ & Hbs & Hall). assert (in_repo c0 repo bd) as Hbd by (apply Hbs; by left).
  destruct (co_bundle _ _ _ current_ok repo bd (repo_in _ Hi) Hbd) as (es & Hes & Hid & Hbig & Hroots). exists es.
  destruct (unpack_every now nowhere c repo bd es (bundle_with_agree _ _ _ _ _ _ current_agree Hes) Hid Hbig) as [Hsafe (rs & r & c' & E)].
  assert (Hinv' : forall c', same_objects c c' -> build_inv objs0 j c0 repos (set_phase i repo (PEntries (bd_LeafSize bd) es [] bs None) (set_context j c' st))).
  { intros c1 Hs. eapply (inv_read _ _ _ _ st i repo _ (PEntries (bd_LeafSize bd) es [] bs None) c c1 (bg_db st)); try done; cbn; try apply (bi_err _ _ _ _ _ inv); try apply (bi_upErr _ _ _ _ _ inv).
    split_and!; [done|by intros bd' Hb'; apply Hbs; right|done|by intros ? ? ?%elem_of_nil|]. exists bd, es, []. split_and!; [done..|by intros ? ? ?%elem_of_nil|].
    intros bd' Hb'. destruct (Hall bd' Hb') as [[->|?]%elem_of_cons|?]; tauto. }
  split.
  - intros ch. unfold leads, thread_step. rewrite Hi, current. destruct (unpack_files now nowhere repo bd (ch_unpack ch) c) as [[r1 c1]|] eqn:E1; [right|by left].
    destruct (Hsafe _ _ _ E1) as (? & -> & -> & Hs). eexists. split; [done|]. split; [by apply Hinv'|done].
  - intros ch. exists rs. unfold leads, thread_step. rewrite Hi, current. cbn [ch_unpack]. rewrite E. destruct (Hsafe _ _ _ E) as (? & -> & -> & Hs). eexists. split; [done|]. split; [by apply Hinv'|done].
Qed.

Lemma step_entries_done ch size keys bs : bg_threads st !! i = Some (repo, PEntries size [] keys bs None) -> leads objs0 j c0 repos st i repo (PKeys keys bs None) (tstep j i ch st).
Proof.
  intros Hi. pose proof (bi_phases _ _ _ _ _ inv _ _ _ Hi) as (_ & Hbs & Hk & Hc & bd & es & done_ & Hbd & Hes & -> & -> & Hd & Hall). rewrite app_nil_r in Hes.
  unfold leads, thread_step. rewrite Hi, current. eexists. split; [done|]. split; [|done].
  eapply (inv_read _ _ _ _ st i repo _ (PKeys keys bs None) c c (bg_db st)); try done; cbn; try apply (bi_err _ _ _ _ _ inv); try apply (bi_upErr _ _ _ _ _ inv); [|by rewrite set_context_same].
  split_and!; [done..|]. intros bd' Hb'. destruct (Hall bd' Hb') as [->|[?|Hr]]; [|by left|].
  - right. intros es' e root Hes' He Hroot. rewrite <- (bundle_entries_unique _ _ _ _ _ _ Hes Hes') in He. by eapply Hd.
  - right. eapply roots_in_mono; [|exact Hr]. by left.
Qed.

Lemma step_entry ch size entry todo keys bs : bg_threads st !! i = Some (repo, PEntries size (entry :: todo) keys bs None) ->
  exists keys', leads objs0 j c0 repos st i repo (PEntries size todo keys' bs None) (tstep j i ch st).
Proof.
  intros Hi. pose proof (bi_phases _ _ _ _ _ inv _ _ _ Hi) as (_ & Hbs & Hk & Hc & bd & es & done_ & Hbd & Hes & -> & -> & Hd & Hall).
  assert (entry ∈ done_ ++ entry :: todo) as Hin by set_solver.
  destruct (co_bundle _ _ _ current_ok repo bd (repo_in _ Hi) Hbd) as (es' & Hes' & _ & _ & Hroots).
  rewrite (bundle_entries_unique _ _ _ _ _ _ Hes' Hes) in Hroots. destruct (Hroots entry Hin) as [root Hroot].
  assert (file_of c0 repos (bd_LeafSize bd) root) as Hfile by (exists repo, bd, (done_ ++ entry :: todo), entry; split_and!; [by eapply repo_in|done..]).
  assert ((c0, repos) ∈ all) as Hall0 by eapply list_elem_of_lookup_2, (bi_current _ _ _ _ _ inv).
  destruct (entryKeys_runs c0 c (bg_db st) (bd_LeafSize bd) entry root current_agree Hroot) as (ks & [c' d'] & E & Hs & He & Hks). cbn [fst snd] in *.
  exists (keys ++ ks). unfold leads, thread_step. rewrite Hi, current, E. eexists. split; [done|]. split; [|done].
  destruct (same_db _ _ He) as [Hg _]. rewrite (leaves_same _ _ _ _ Hall0 Hfile) in Hks.
  eapply (inv_read _ _ _ _ st i repo _ (PEntries (bd_LeafSize bd) todo (keys ++ ks) bs None) c c' d'); try done; cbn; try apply (bi_err _ _ _ _ _ inv); try apply (bi_upErr _ _ _ _ _ inv).
  split_and!; [done|done| | |].
  - apply Forall_app. split; [done|]. rewrite Hks. case_decide; [constructor|]. constructor; [by eapply Key_String_ok, KeyFromString_key|].
    rewrite <- (leaves_same _ _ _ _ Hall0 Hfile). apply leaves_in_ok.
  - intros r l [Hr|Hr]%elem_of_app Hroot' Hl.
    + destruct (Hc r l Hr Hroot' Hl) as [?|?]; [left; set_solver|right; by apply Hg].
    + rewrite Hks in *. case_decide; [by apply elem_of_nil in Hr|]. apply elem_of_cons in Hr as [->|Hr]; [left; set_solver|].
      exfalso. eapply (leaves_not_roots (Key_String root) r); [|done|done]. by exists c0, repos, (bd_LeafSize bd), root.
  - exists bd, (done_ ++ entry :: todo), (done_ ++ [entry]). split_and!; [done|done|done|by rewrite <- app_assoc| |].
    + intros e root' [He'|He'%list_elem_of_singleton]%elem_of_app Hr'.
      * destruct (Hd e root' He' Hr'); [left; by apply Hg|right; set_solver].
      * subst e. rewrite Hroot in Hr'. simplify_eq. case_decide as Hx; [left; by apply Hg|right; set_solver].
    + intros bd' Hb'. destruct (Hall bd' Hb') as [?|[?|Hr]]; [by left|by right; left|right; right]. by eapply roots_in_mono.
Qed.

Lemma step_keys_done ch bs : bg_threads st !! i = Some (repo, PKeys [] bs None) -> leads objs0 j c0 repos st i repo (PBundles bs None) (tstep j i ch st).
Proof.
  intros Hi. pose proof (bi_phases _ _ _ _ _ inv _ _ _ Hi) as (_ & Hbs & _ & _ & Hall). unfold leads, thread_step. rewrite Hi, current. eexists. split; [done|]. split; [|done].
  eapply (inv_read _ _ _ _ st i repo _ (PBundles bs None) c c (bg_db st)); try done; cbn; try apply (bi_err _ _ _ _ _ inv); try apply (bi_upErr _ _ _ _ _ inv).
  - split_and!; [done..|]. intros bd Hbd. destruct (Hall bd Hbd) as [?|Hr]; [by left|right]. eapply roots_in_mono; [|exact Hr]. intros k [?|?%elem_of_nil]; done.
  - by intros ks bs' err [= <- _ _].
  - by rewrite set_context_same.
Qed.

Lemma insert_db k ks bs d' : bg_threads st !! i = Some (repo, PKeys (k :: ks) bs None) -> entries d' = upsert k "" (entries (bg_db st)) ->
  grows (bg_db st) d' /\ marks_same (bg_db st) d' /\ has d' k /\ db_inv d' (<[i := (repo, PKeys ks bs None)]> (bg_threads st)).
Proof.
  intros Hi He. pose proof (bi_phases _ _ _ _ _ inv _ _ _ Hi) as (_ & _ & Hk & Hc & _). destruct (bi_db _ _ _ _ _ inv) as [Hl Hv].
  assert (Hdom : forall x, has d' x <-> x = k \/ has (bg_db st) x).
  { intros x. unfold has. rewrite He, <- !elem_of_dom, upsert_dom. set_solver. }
  assert (Hpend : forall x, x ∈ k :: ks -> has d' x \/ to_insert (<[i := (repo, PKeys ks bs None)]> (bg_threads st)) x).
  { intros x [->|Hx]%elem_of_cons; [left; apply Hdom; by left|right]. exists i, repo, ks, bs, None. split; [|done]. apply list_lookup_insert_eq. by eapply lookup_lt_Some. }
  split_and!; [intros x Hx; apply Hdom; by right| |apply Hdom; by left|].
  - unfold marks_same. rewrite He. unfold upsert. destruct (entries (bg_db st) !! k) as [v|] eqn:E; [split; [done|by right]|].
    split; intros x; destruct (decide (x = k)) as [->|Hne]; rewrite ?lookup_insert_eq, ?lookup_insert_ne by done; [by rewrite E|done| |by right]. intros v [= <-]. by left.
  - split; [intros x [->|Hx]%Hdom; [by apply Forall_cons in Hk as [? _]|by apply Hl]|].
    intros r l Hr Hroot Hl'. assert (has (bg_db st) r \/ r = k) as [Hr'| ->] by (apply Hdom in Hr; tauto).
    + destruct (Hv r l Hr' Hroot Hl') as [?|(x & rp & ks' & bs' & err & Hx & Hin)]; [left; apply Hdom; by right|].
      destruct (decide (x = i)) as [->|Hne]; [rewrite Hi in Hx; simplify_eq; by apply Hpend|]. right. exists x, rp, ks', bs', err. by rewrite list_lookup_insert_ne.
    + destruct (Hc k l) as [?|?]; [by left|done|done|by apply Hpend|left; apply Hdom; by right].
Qed.

Lemma step_key ch k ks bs : bg_threads st !! i = Some (repo, PKeys (k :: ks) bs None) -> leads objs0 j c0 repos st i repo (PKeys ks bs None) (tstep j i ch st).
Proof.
  intros Hi. pose proof (bi_phases _ _ _ _ _ inv _ _ _ Hi) as (_ & Hbs & Hk & Hc & Hall). destruct (SetIfNotExists_ok k "" (bg_db st)) as (d' & Es & He).
  destruct (insert_db k ks bs d' Hi He) as (Hg & Hm & Hhas & Hdb). apply Forall_cons in Hk as [Hk0 Hk].
  unfold leads, thread_step. rewrite Hi, current, (bi_err _ _ _ _ _ inv), Es. eexists. split; [done|]. split; [|done].
  eapply (inv_update _ _ _ _ st i repo _ (PKeys ks bs None) c c d'); try done; cbn; try apply (bi_err _ _ _ _ _ inv); try apply (bi_upErr _ _ _ _ _ inv); [|by rewrite set_context_same].
  split_and!; [done|done|done| |].
  - intros r l Hr Hroot Hl. destruct (Hc r l) as [[->|?]%elem_of_cons|?]; [by right|done|done|by right|by left|right; by apply Hg].
  - intros bd Hbd. destruct (Hall bd Hbd) as [?|Hr]; [by left|right]. eapply roots_in_mono; [|exact Hr]. intros x [?|[->|?]%elem_of_cons]; [left; by apply Hg|by left|by right].
Qed.

End steps.

(** ** Executions *)

Lemma thread_step_inv objs0 j c0 repos st i ch r st' :
  good_choices ch -> build_inv objs0 j c0 repos st -> tstep j i ch st = Some (r, st') -> r = Ok tt /\ build_inv objs0 j c0 repos st'.
Proof.
  intros Hch Hinv Hstep.
  assert (exists repo ph c, bg_threads st !! i = Some (repo, ph) /\ bg_contexts st !! j = Some c) as (repo & ph & c & Hi & Hc).
  { unfold thread_step in Hstep. destruct (bg_threads st !! i) as [[repo ph]|]; [|done]. destruct (bg_contexts st !! j); [eauto|done]. }
  pose proof (bi_phases _ _ _ _ _ Hinv _ _ _ Hi) as Hph.
  assert (Hleads : forall ph', leads objs0 j c0 repos st i repo ph' (tstep j i ch st) -> r = Ok tt /\ build_inv objs0 j c0 repos st').
  { intros ph' (st1 & E & H & _). rewrite Hstep in E. by simplify_eq. }
  destruct ph as [|[|bd bs] err|size [|entry todo] keys bs err|[|k ks] bs err|rd]; cbn in Hph.
  - destruct (decide (active st < Z.to_nat (po_maxParallel options))) as [Ha|Ha].
    + destruct (step_start _ _ _ _ _ i repo c Hinv Hc ch Hch Hi Ha) as [bds H]. by eapply Hleads.
    + unfold thread_step in Hstep. by rewrite Hi, Hc, decide_True in Hstep by lia.
  - destruct Hph as [-> _]. by eapply Hleads, step_no_bundle.
  - destruct Hph as [-> _]. destruct (step_bundle _ _ _ _ _ i repo c Hinv Hc bd bs Hi) as (es & H & _). destruct (H ch) as [E|Hl]; [congruence|]. by eapply Hleads.
  - destruct Hph as [-> _]. by eapply Hleads, step_entries_done.
  - destruct Hph as [-> _]. destruct (step_entry _ _ _ _ _ i repo c Hinv Hc ch _ _ _ _ _ Hi) as [keys' H]. by eapply Hleads.
  - destruct Hph as [-> _]. by eapply Hleads, step_keys_done.
  - destruct Hph as [-> _]. by eapply Hleads, step_key.
  - unfold thread_step in Hstep. by rewrite Hi, Hc in Hstep.
Qed.


(** Chunks are uploaded without a retry. *)

Definition good_event (ev : build_event) : Prop :=
  match ev with BThread _ ch => good_choices ch | BTick _ rs => good rs end.

Lemma mark_has d d' ks later : waiting (entries d) (ks ++ later) -> entries d' = mark ks (entries d) -> forall k, has d' k <-> has d k.
Proof.
  intros [_ Hw] He k. unfold has. rewrite He, lookup_mark. case_decide as Hk; [|done]. assert (entries d !! k = Some "") as -> by (apply Hw; set_solver). split; eauto.
Qed.

Lemma db_inv_iff d d' ths : (forall k, has d' k <-> has d k) -> db_inv d ths -> db_inv d' ths.
Proof. intros H [H1 H2]. split; [intros k Hk; by apply H1, H|]. intros r l Hr. rewrite H. apply H2. by apply H. Qed.

(** The invariant after a chunk was uploaded to the first context. *)

Lemma inv_upload objs0 j c0 repos st c s' d' n l cs :
  build_inv objs0 j c0 repos st -> bg_contexts st !! 0 = Some c -> (forall k, has d' k <-> has (bg_db st) k) ->
  uploaded_inv Format t objs0 cs (mkUploads s' d' n) -> (forall i, is_Some (cs !! i) -> (i <= ul_chunkIndex l)%N) ->
  build_inv objs0 j c0 repos (set_uploader l None (mkBuilding (<[0 := SetMetadata s' c]> (bg_contexts st)) d' (bg_count st) (bg_unique st) n (bg_uploader st) (bg_upErr st) (bg_threads st) (bg_err st))).
Proof.
  intros [Hlen Hctx Hlat Hcur He Hue Hn Hph Hdb Hear (cu & cs0 & Hcu & Hup & _)] Hc Hhas Hup' Hcs. assert (cu = c) as -> by congruence.
  pose proof (lookup_lt_Some _ _ _ Hc) as Hlt. split; cbn; try done.
  - by rewrite length_insert.
  - intros i ci ci' Hi Hai. destruct (decide (i = 0)) as [->|Hne]; [|rewrite list_lookup_insert_ne in Hi by done; by eapply Hctx].
    rewrite list_lookup_insert_eq in Hi by done. simplify_eq. apply agree_index; [by eapply Hctx|]. intros f Hf.
    etrans; [apply (ui_outside _ _ _ _ _ Hup' f Hf)|]. symmetry. apply (ui_outside _ _ _ _ _ Hup f Hf).
  - intros i Hi. rewrite list_lookup_insert_ne by lia. by apply Hlat.
  - intros i repo ph Hi. eapply phase_ok_mono; [|by eapply Hph]. intros k. apply Hhas.
  - by eapply db_inv_iff.
  - intros i ci rs repo bd Hi Hai Hr Hbd. eapply roots_in_mono; [|by eapply Hear]. intros k. apply Hhas.
  - exists (SetMetadata s' c), cs. rewrite list_lookup_insert_eq by done. done.
Qed.

Abbreviation bstep := (build_step kv fuel NumCPU now Format nowhere options t).
Abbreviation brun := (build_run kv fuel NumCPU now Format nowhere options t).

Definition index_of (st : building (S := S) (D := D)) : N := ul_chunkIndex (bg_uploader st).

Lemma tick_step_inv objs0 j c0 repos st busy rs r st' :
  good rs -> build_inv objs0 j c0 repos st -> tick_step Format options t busy rs st = Some (r, st') ->
  r = Ok tt /\ build_inv objs0 j c0 repos st' /\ (index_of st' <= index_of st + 1)%N.
Proof.
  intros Hg Hinv. pose proof (bi_uploads _ _ _ _ _ Hinv) as (c & cs & Hc & Hup & Hcs). unfold tick_step, with_uploads, tick. rewrite (bi_upErr _ _ _ _ _ Hinv), Hc.
  assert (Hid : SetMetadata (Metadata c) c = c) by (by destruct c).
  destruct (_ <? _)%N; [|destruct busy].
  - intros [= <- <-]. split; [done|]. cbn [up_store up_db up_uploaded]. split; [|unfold index_of; cbn; lia]. eapply inv_upload; eauto; done.
  - intros [= <- <-]. split; [done|]. cbn [up_store up_db up_uploaded]. split; [|unfold index_of; cbn; lia]. eapply inv_upload; eauto; cbn. intros i Hi. specialize (Hcs i Hi). lia.
  - set (idx := (ul_chunkIndex (bg_uploader st) + 1)%N).
    assert (cs !! idx = None) as Hfresh by (destruct (cs !! idx) eqn:E; [|done]; assert (idx <= ul_chunkIndex (bg_uploader st))%N by eauto; lia).
    destruct (chunkUploader_ok Format idx (po_indexChunkSize options) t rs objs0 cs (mkUploads (Metadata c) (bg_db st) (bg_uploaded st)) Hg Hup Hfresh) as (ks & later & [s' d' n] & E & Hup' & Hw & _ & He & _).
    unfold mbind, R_bind. rewrite E. intros [= <- <-]. split; [done|]. cbn [up_store up_db up_uploaded] in *. split; [|unfold index_of; cbn; lia].
    eapply inv_upload; eauto; [by eapply mark_has|]. cbn. intros i [l [[<- _]|[_ Hl]]%lookup_insert_Some]; [lia|]. assert (i <= ul_chunkIndex (bg_uploader st))%N by eauto. lia.
Qed.

Lemma thread_step_index j i ch st r st' : tstep j i ch st = Some (r, st') -> index_of st' = index_of st.
Proof.
  unfold thread_step. destruct (bg_threads st !! i) as [[repo ph]|]; [|done]. destruct (bg_contexts st !! j) as [c|]; [|done].
  destruct ph as [|[|bd bs] err|size [|entry todo] keys bs err|[|k ks] bs err|rd]; [| | | | | | |done].
  - case_decide; [done|]. destruct (bg_err st); [by intros [= <- <-]|]. destruct (listBundlesChan _ _ _ _ _ _ _) as [[evs|e|m] c']; [destruct (doSelect evs)|..]; by intros [= <- <-].
  - by intros [= <- <-].
  - destruct (unpack_files _ _ _ _ _ _) as [[[es|e|m] c']|]; [..|done]; by intros [= <- <-].
  - by intros [= <- <-].
  - destruct (entryKeys _ _ _) as [[ks|e|m] [c' d']]; by intros [= <- <-].
  - by intros [= <- <-].
  - destruct (bg_err st); [by intros [= <- <-]|]. destruct (kv_SetIfNotExists _ _ _) as [[u|e|m] d']; by intros [= <- <-].
Qed.

Lemma build_run_inv objs0 j c0 repos evs : forall st r st', Forall good_event evs -> build_inv objs0 j c0 repos st -> brun j evs st = Some (r, st') ->
  r = Ok tt /\ build_inv objs0 j c0 repos st' /\ (index_of st' <= index_of st + N.of_nat (length evs))%N.
Proof.
  induction evs as [|ev evs IH]; intros st r st' Hg Hinv H; cbn [build_run] in H; [simplify_eq; split_and!; [done..|cbn; lia]|].
  apply Forall_cons in Hg as [Hev Hg]. destruct (bstep j ev st) as [[r1 st1]|] eqn:E; [|done].
  assert (r1 = Ok tt /\ build_inv objs0 j c0 repos st1 /\ (index_of st1 <= index_of st + 1)%N) as (-> & Hinv1 & Hi1).
  { destruct ev as [i ch|busy rs]; cbn in E, Hev; [|by eapply tick_step_inv]. pose proof (thread_step_index _ _ _ _ _ _ E) as ->.
    destruct (thread_step_inv _ _ _ _ _ _ _ _ _ Hev Hinv E) as [-> ?]. split_and!; [done..|lia]. }
  destruct (IH st1 r st' Hg Hinv1 H) as (-> & Hinv' & Hi'). split_and!; [done..|]. cbn [length]. lia.
Qed.

(** ** The contexts, one after the other *)

Definition good_schedule (sch : schedule) : Prop := (forall l, order sch l ≡ₚ l) /\ keys_stop sch = None /\ fetch_stop sch = None.

Lemma repos_listed c repos sch : (c, repos) ∈ all -> good_schedule sch ->
  exists rds, (forall repo, repo ∈ rd_Name <$> rds <-> repo ∈ repos) /\ reads (ListRepos kv fuel NumCPU sch (repos_opts NumCPU options)) c (rds, None).
Proof.
  intros Hin (Hord & Hk & Hf). destruct (all_ok c repos Hin) as [Hrs Hpg Hnames _ _].
  destruct (ListRepos_lists kv fuel NumCPU sch (repos_opts NumCPU options) c Hrs) as (rds & Hr & _ & Hrds).
  { split; [done| |done|done|by split]. unfold repos_opts, max. cbn. destruct (Z.ltb_spec (po_maxParallel options `quot` 4) 1) as [_|Hq]; [done|]. by destruct (Z.eqb_spec (po_maxParallel options `quot` 4) 0); lia. }
  exists rds. split; [|done]. intros repo. rewrite Hnames, list_elem_of_fmap. split.
  - intros (d & -> & (Hn & b & Hb & _)%Hrds). split; [done|by exists b].
  - intros [Hn [b Hb]]. destruct (Hrs (GetArchivePathToRepoDescriptor repo) b) as (d & Hu & Hn' & Heq); [apply Strings.HasPrefix_spec; by eexists|done|].
    apply (repo_descriptor_inj kv) in Heq; [|done..]. exists d. split; [done|]. apply Hrds. split; [done|]. exists b. by rewrite <- Heq.
Qed.

(** Before context number [j] is scanned. *)

Record scanned_inv (objs0 : gmap string bytes) (j : nat) (st : building (S := S) (D := D)) : Prop := {
  sc_length : length (bg_contexts st) = length all;
  sc_contexts i c c' : bg_contexts st !! i = Some c' -> all.*1 !! i = Some c -> agree c c';
  sc_later i : j <= i -> bg_contexts st !! i = all.*1 !! i;
  sc_upErr : bg_upErr st = None;
  sc_lines k : has (bg_db st) k -> line_ok k;
  sc_leaves r l : has (bg_db st) r -> is_root r -> l ∈ leaves_of r -> has (bg_db st) l;
  sc_earlier i c rs repo bd : i < j -> all !! i = Some (c, rs) -> repo ∈ rs -> in_repo c repo bd -> roots_in (has (bg_db st)) c repo bd;
  sc_uploads : exists c' cs, bg_contexts st !! 0 = Some c' /\ uploaded_inv Format t objs0 cs (mkUploads (Metadata c') (bg_db st) (bg_uploaded st)) /\
    (forall i, is_Some (cs !! i) -> (i <= index_of st)%N)
}.

Lemma start_inv objs0 j c0 repos rds st c' :
  scanned_inv objs0 j st -> all !! j = Some (c0, repos) -> (forall repo, repo ∈ rd_Name <$> rds <-> repo ∈ repos) -> same_objects c0 c' ->
  build_inv objs0 j c0 repos (start_threads rds (set_context j c' st)).
Proof.
  intros [Hlen Hctx Hlat Hue Hl Hv Hear (cu & cs & Hcu & Hup & Hcs)] Hj Hrds Hs.
  assert (bg_contexts st !! j = Some c0) as Hjc by (rewrite Hlat by lia; by rewrite list_lookup_fmap, Hj).
  pose proof (lookup_lt_Some _ _ _ Hjc) as Hlt. split; cbn; try done.
  - by rewrite length_insert.
  - intros i ci ci' Hi Hai. destruct (decide (i = j)) as [->|Hne]; [|rewrite list_lookup_insert_ne in Hi by done; by eapply Hctx].
    rewrite list_lookup_insert_eq in Hi by done. simplify_eq. eapply agree_same; [by eapply Hctx|done].
  - intros i Hi. rewrite list_lookup_insert_ne by lia. apply Hlat. lia.
  - intros repo. rewrite <- list_fmap_compose, <- Hrds. done.
  - intros i repo ph Hi. rewrite list_lookup_fmap in Hi. destruct (rds !! i); by simplify_eq/=.
  - split; [done|]. intros r l Hr Hroot Hl'. left. by eapply Hv.
  - destruct (decide (j = 0)) as [->|Hne].
    + rewrite list_lookup_insert_eq by done. simplify_eq. exists c', cs. split_and!; [done| |done]. eapply uploaded_inv_same; [|by apply same_db|exact Hup]. by rewrite (same_meta _ _ Hs).
    + rewrite list_lookup_insert_ne by done. by exists cu, cs.
Qed.

Lemma end_inv objs0 j c0 repos st : build_inv objs0 j c0 repos st -> forallb is_done (bg_threads st) = true -> scanned_inv objs0 (Datatypes.S j) st.
Proof.
  intros [Hlen Hctx Hlat Hcur He Hue Hn Hph [Hl Hv] Hear Hup] Hdone. rewrite forallb_forall in Hdone.
  assert (Hall : forall i repo ph, bg_threads st !! i = Some (repo, ph) -> exists r, ph = PDone r).
  { intros i repo ph Hi. assert (is_done (repo, ph) = true) as Hd by (apply Hdone, list_elem_of_In; by eapply list_elem_of_lookup_2). destruct ph; try done. eauto. }
  split; try done.
  - intros r l Hr Hroot Hl'. destruct (Hv r l Hr Hroot Hl') as [?|(i & rp & ks & bs & err & Hi & _)]; [done|]. by destruct (Hall _ _ _ Hi).
  - intros i c rs repo bd Hi Hai Hr Hbd. destruct (decide (i = j)) as [->|Hne]; [|apply (Hear i c rs repo bd); [lia|done..]]. rewrite Hcur in Hai. simplify_eq.
    apply Hn, list_elem_of_fmap in Hr as ([rp ph] & -> & [x Hx]%list_elem_of_lookup_1). destruct (Hall _ _ _ Hx) as [r ->]. destruct (Hph _ _ _ Hx) as [_ H]. by apply H.
Qed.

Definition good_scan (run : schedule * list build_event) : Prop := good_schedule run.1 /\ Forall good_event run.2.

Lemma scanContext_inv objs0 j c0 repos run st r st' :
  good_scan run -> all !! j = Some (c0, repos) -> scanned_inv objs0 j st ->
  scanContext kv fuel NumCPU now Format nowhere options t j run st = Some (r, st') ->
  r = Ok tt /\ scanned_inv objs0 (Datatypes.S j) st' /\ (index_of st' <= index_of st + N.of_nat (length run.2))%N.
Proof.
  intros [Hs He] Hj Hinv. assert (bg_contexts st !! j = Some c0) as Hjc by (rewrite (sc_later _ _ _ Hinv) by lia; by rewrite list_lookup_fmap, Hj).
  destruct (repos_listed c0 repos run.1) as (rds & Hrds & x & c' & El & -> & Hsame); [by eapply list_elem_of_lookup_2|done|].
  unfold scanContext. rewrite Hjc, El. pose proof (start_inv _ _ _ _ _ _ _ Hinv Hj Hrds Hsame) as Hinv1.
  destruct (brun j run.2 (start_threads rds (set_context j c' st))) as [[r1 st1]|] eqn:E; [|done].
  destruct (build_run_inv _ _ _ _ _ _ _ _ He Hinv1 E) as (-> & Hinv2 & Hidx). destruct (forallb is_done (bg_threads st1)) eqn:Ed; [|done].
  rewrite (bi_err _ _ _ _ _ Hinv2). intros [= <- <-]. split_and!; [done| |done]. by eapply end_inv.
Qed.

Definition scan_length (rs : list (schedule * list build_event)) : nat := sum_list (length <$> rs.*2).

Lemma scan_contexts_inv objs0 n : forall j rs st r st', j + n = length all -> Forall good_scan rs -> scanned_inv objs0 j st ->
  scan_contexts kv fuel NumCPU now Format nowhere options t n j rs st = Some (r, st') ->
  r = Ok tt /\ scanned_inv objs0 (length all) st' /\ (index_of st' <= index_of st + N.of_nat (scan_length rs))%N.
Proof.
  induction n as [|n IH]; intros j [|run rs] st r st' Hn Hg Hinv H; cbn [scan_contexts] in H; try done.
  - unfold once, mret, M_ret in H. simplify_eq. rewrite <- Hn, Nat.add_0_r. split_and!; [done..|lia].
  - apply Forall_cons in Hg as [Hg Hgs]. destruct (lookup_lt_is_Some_2 all j ltac:(lia)) as [[c0 repos] Hj]. unfold mbind, R_bind in H.
    destruct (scanContext _ _ _ _ _ _ _ _ _ _ _) as [[r1 st1]|] eqn:E; [|done]. destruct (scanContext_inv _ _ _ _ _ _ _ _ Hg Hj Hinv E) as (-> & Hinv1 & Hi1).
    destruct (IH (Datatypes.S j) rs st1 r st' ltac:(lia) Hgs Hinv1 H) as (-> & Hinv2 & Hi2). split_and!; [done..|]. change (scan_length (run :: rs)) with (length run.2 + scan_length rs). lia.
Qed.

(** ** There is an execution

    One goroutine after the other. *)

Definition gets (j : nat) (st st' : building (S := S) (D := D)) : Prop := exists evs, Forall good_event evs /\ brun j evs st = Some (Ok tt, st').

Lemma gets_refl j st : gets j st st.
Proof. by exists []. Qed.

Lemma gets_trans j st st1 st2 : gets j st st1 -> gets j st1 st2 -> gets j st st2.
Proof.
  intros (evs & Hg & E) (evs2 & Hg2 & E2). exists (evs ++ evs2). split; [by apply Forall_app|]. clear Hg Hg2. revert st E.
  induction evs as [|ev evs IH]; intros st E; cbn [build_run app] in *; [by simplify_eq|].
  destruct (bstep j ev st) as [[[[]|e|m] st']|]; simplify_eq. by apply IH.
Qed.

Definition plain_choices : choices := mkChoices (mkSchedule (fun l => l) None None) Unnoticed [].

Lemma plain_good rs : good_choices (mkChoices (ch_sch plain_choices) (ch_int plain_choices) rs).
Proof. by split_and!. Qed.

(** Goroutine [i] gets to the phase [ph'] and the others do not move. *)

Definition moves objs0 j c0 repos (st : building (S := S) (D := D)) i repo (ph' : phase) : Prop :=
  exists st', gets j st st' /\ build_inv objs0 j c0 repos st' /\ bg_threads st' = <[i := (repo, ph')]> (bg_threads st).

Lemma moves_step objs0 j c0 repos st i repo ph' ch : good_choices ch -> leads objs0 j c0 repos st i repo ph' (tstep j i ch st) -> moves objs0 j c0 repos st i repo ph'.
Proof.
  intros Hch (st' & E & Hinv & Ht). exists st'. split; [|done]. exists [BThread i ch]. split; [by apply Forall_singleton|]. cbn [build_run build_step]. by rewrite E.
Qed.

Lemma moves_then objs0 j c0 repos st i repo ph ph' ph2 : bg_threads st !! i = Some (repo, ph) -> moves objs0 j c0 repos st i repo ph' ->
  (forall st', build_inv objs0 j c0 repos st' -> bg_threads st' !! i = Some (repo, ph') -> moves objs0 j c0 repos st' i repo ph2) -> moves objs0 j c0 repos st i repo ph2.
Proof.
  intros Hi (st1 & H1 & Hinv1 & Ht1) H2. pose proof (lookup_lt_Some _ _ _ Hi) as Hlt. destruct (H2 st1 Hinv1) as (st2 & Hg2 & Hinv2 & Ht2).
  { rewrite Ht1. by apply list_lookup_insert_eq. }
  exists st2. split_and!; [by eapply gets_trans|done|]. rewrite Ht2, Ht1. apply list_insert_insert_eq.
Qed.

Lemma context_there objs0 j c0 repos st : build_inv objs0 j c0 repos st -> exists c, bg_contexts st !! j = Some c.
Proof.
  intros Hinv. destruct (lookup_lt_is_Some_2 (bg_contexts st) j) as [c Hc]; [|by exists c]. rewrite (bi_length _ _ _ _ _ Hinv). eapply lookup_lt_Some, (bi_current _ _ _ _ _ Hinv).
Qed.

Lemma moves_keys objs0 j c0 repos i repo bs ks : forall st, build_inv objs0 j c0 repos st -> bg_threads st !! i = Some (repo, PKeys ks bs None) ->
  moves objs0 j c0 repos st i repo (PBundles bs None).
Proof.
  induction ks as [|k ks IH]; intros st Hinv Hi; destruct (context_there _ _ _ _ _ Hinv) as [c Hc].
  - eapply (moves_step _ _ _ _ _ _ _ _ _ (plain_good [])). by eapply step_keys_done.
  - eapply moves_then; [exact Hi|eapply (moves_step _ _ _ _ _ _ _ _ _ (plain_good [])); by eapply step_key|]. intros st' Hinv' Hi'. by apply IH.
Qed.

Lemma moves_entries objs0 j c0 repos i repo size bs todo : forall keys st, build_inv objs0 j c0 repos st -> bg_threads st !! i = Some (repo, PEntries size todo keys bs None) ->
  moves objs0 j c0 repos st i repo (PBundles bs None).
Proof.
  induction todo as [|entry todo IH]; intros keys st Hinv Hi; destruct (context_there _ _ _ _ _ Hinv) as [c Hc].
  - eapply moves_then; [exact Hi|eapply (moves_step _ _ _ _ _ _ _ _ _ (plain_good [])); by eapply step_entries_done|]. intros st' Hinv' Hi'. by eapply moves_keys.
  - destruct (step_entry _ _ _ _ _ i repo c Hinv Hc plain_choices _ _ _ _ _ Hi) as [keys' H]. eapply moves_then; [exact Hi|exact (moves_step _ _ _ _ _ _ _ _ _ (plain_good []) H)|].
    intros st' Hinv' Hi'. by eapply IH.
Qed.

Lemma moves_bundles objs0 j c0 repos i repo bs : forall st, build_inv objs0 j c0 repos st -> bg_threads st !! i = Some (repo, PBundles bs None) ->
  moves objs0 j c0 repos st i repo (PDone None).
Proof.
  induction bs as [|bd bs IH]; intros st Hinv Hi; destruct (context_there _ _ _ _ _ Hinv) as [c Hc].
  - eapply (moves_step _ _ _ _ _ _ _ _ _ (plain_good [])). by eapply step_no_bundle.
  - destruct (step_bundle _ _ _ _ _ i repo c Hinv Hc bd bs Hi) as (es & _ & H). destruct (H plain_choices) as [rs Hl].
    eapply moves_then; [exact Hi|exact (moves_step _ _ _ _ _ _ _ _ _ (plain_good rs) Hl)|]. intros st1 Hinv1 Hi1.
    eapply moves_then; [exact Hi1|by eapply moves_entries|]. intros st2 Hinv2 Hi2. by apply IH.
Qed.

Lemma moves_all objs0 j c0 repos n : forall k st, build_inv objs0 j c0 repos st -> k + n = length (bg_threads st) ->
  (forall i p, bg_threads st !! i = Some p -> if decide (i < k) then is_done p = true else p.2 = PStart) ->
  exists st', gets j st st' /\ build_inv objs0 j c0 repos st' /\ forallb is_done (bg_threads st') = true.
Proof.
  induction n as [|n IH]; intros k st Hinv Hn Hk.
  - exists st. split_and!; [apply gets_refl|done|]. apply forallb_forall. intros p [i Hi]%list_elem_of_In%list_elem_of_lookup_1. specialize (Hk i p Hi).
    rewrite decide_True in Hk; [done|]. apply lookup_lt_Some in Hi. lia.
  - destruct (lookup_lt_is_Some_2 (bg_threads st) k ltac:(lia)) as [[repo ph] Hi]. pose proof (Hk k _ Hi) as Hph. rewrite decide_False in Hph by lia. cbn in Hph. subst ph.
    destruct (context_there _ _ _ _ _ Hinv) as [c Hc].
    assert (active st = 0) as Ha.
    { unfold active. destruct (filter _ (bg_threads st)) as [|p l] eqn:E; [done|]. assert (p ∈ p :: l) as Hp by (by left). rewrite <- E in Hp.
      apply list_elem_of_filter in Hp as [Hp [i Hx]%list_elem_of_lookup_1]. specialize (Hk i p Hx). destruct p as [rp ph]. cbn in *. case_decide; [by destruct ph|by subst ph]. }
    destruct (step_start _ _ _ _ _ k repo c Hinv Hc _ (plain_good []) Hi ltac:(lia)) as [bds H].
    destruct (moves_then _ _ _ _ _ _ _ _ _ (PDone None) Hi (moves_step _ _ _ _ _ _ _ _ _ (plain_good []) H)) as (st1 & Hg & Hinv1 & Ht1); [by intros; eapply moves_bundles|].
    destruct (IH (Datatypes.S k) st1 Hinv1) as (st2 & Hg2 & H2).
    + rewrite Ht1, length_insert. lia.
    + intros i p. rewrite Ht1. destruct (decide (i = k)) as [->|Hne].
      * rewrite list_lookup_insert_eq by (by eapply lookup_lt_Some). intros [= <-]. by rewrite decide_True by lia.
      * rewrite list_lookup_insert_ne by done. intros Hp. specialize (Hk i p Hp). repeat case_decide; done || lia.
    + exists st2. split; [by eapply gets_trans|done].
Qed.

(** ** The whole construction *)

Variables (Parse : string -> res Time.Time) (opts : list PurgeOption).
Hypothesis the_options : options = defaultPurgeOptions opts.
Hypothesis fresh_index : po_resume options = false.

(** An execution in which no upload is retried and no listing is interrupted. *)

Definition good_build (bc : build_choices) : Prop := Forall good_scan (bc_scans bc) /\ Forall good (bc_last bc).

(** The most chunks an execution can write. *)

Definition last_index (bc : build_choices) : N := po_indexStart options + N.of_nat (scan_length (bc_scans bc) + length (bc_last bc)).

(** What the construction leaves: the chunks [chunks] hold every key in use. *)

Definition indexed_all (bc : build_choices) (contexts : list (Stores S)) : Prop :=
  exists c' chunks, contexts !! 0 = Some c' /\ index_is Format t (objects (Metadata c')) chunks /\ chunks <> ∅ /\
    (forall i ks, chunks !! i = Some ks -> (i <= last_index bc)%N /\ Forall line_ok ks) /\
    (forall c repos k, (c, repos) ∈ all -> used c repos k -> chunk_keys chunks k) /\
    length contexts = length all /\ (forall i c c', contexts !! i = Some c' -> all.*1 !! i = Some c -> agree c c').

Lemma scanned_used objs0 st c repos k : scanned_inv objs0 (length all) st -> (c, repos) ∈ all -> used c repos k -> has (bg_db st) k.
Proof.
  intros Hinv Hc (size & root & Hfile & Hk). assert (is_root (Key_String root)) as Hroot by (by exists c, repos, size, root).
  assert (has (bg_db st) (Key_String root)) as Hr.
  { destruct Hfile as (repo & bd & es & e & Hrepo & Hbd & Hes & He & Hkey & _). apply list_elem_of_lookup in Hc as [i Hi].
    eapply (sc_earlier _ _ _ Hinv i c repos repo bd); eauto using lookup_lt_Some. }
  destruct Hk as [->|Hk]; [done|]. rewrite (leaves_same _ _ _ _ Hc Hfile) in Hk. by eapply (sc_leaves _ _ _ Hinv).
Qed.

(** The state in which the first context is scanned. *)

Definition initial (c : Stores S) (others : list (Stores S * list string)) (d0 : D) : building (S := S) (D := D) :=
  mkBuilding (c :: others.*1) d0 0 0 0 (mkUploader 0 (po_indexStart options)) None [] None.

Lemma initial_inv c repos others d0 : all = (c, repos) :: others -> entries d0 = ∅ -> index_is Format t (objects (Metadata c)) ∅ ->
  scanned_inv (objects (Metadata c)) 0 (initial c others d0).
Proof.
  intros Hall He0 Hidx0. assert (Hno : forall k, ~ has d0 k) by (intros k [v Hv]; by rewrite He0 in Hv). split; cbn; try done.
  - rewrite Hall. cbn. by rewrite length_fmap.
  - intros i ci ci' Hi Hai. rewrite Hall in Hai. cbn [fmap list_fmap fst] in Hai. change (fmap fst others) with (others.*1) in Hai. rewrite Hi in Hai. by simplify_eq.
  - intros i _. by rewrite Hall.
  - intros k Hk. by destruct (Hno k).
  - intros x l Hx. by destruct (Hno x).
  - intros i ci rs rp bd Hi. lia.
  - exists c, ∅. split_and!; [done| |intros i [ks Hi]; by rewrite lookup_empty in Hi]. split; cbn; [done|done| |].
    + intros k v Hv. by rewrite He0 in Hv.
    + intros k. rewrite He0. split; [done|]. intros (i & ks & Hi & _). by rewrite lookup_empty in Hi.
Qed.

Lemma scanContext_exists objs0 j c0 repos st : all !! j = Some (c0, repos) -> scanned_inv objs0 j st ->
  exists run st', good_scan run /\ scanContext kv fuel NumCPU now Format nowhere options t j run st = Some (Ok tt, st').
Proof.
  intros Hj Hinv. assert (bg_contexts st !! j = Some c0) as Hjc by (rewrite (sc_later _ _ _ Hinv) by lia; by rewrite list_lookup_fmap, Hj).
  set (sch := mkSchedule (fun l => l) None None). assert (good_schedule sch) as Hsch by (by split_and!).
  destruct (repos_listed c0 repos sch) as (rds & Hrds & x & c' & El & -> & Hsame); [by eapply list_elem_of_lookup_2|done|].
  pose proof (start_inv _ _ _ _ _ _ _ Hinv Hj Hrds Hsame) as Hinv1.
  destruct (moves_all _ _ _ _ (length (bg_threads (start_threads rds (set_context j c' st)))) 0 _ Hinv1 eq_refl) as (st' & (evs & Hg & E) & Hinv2 & Hd).
  { intros i p Hi. rewrite decide_False by lia. cbn in Hi. rewrite list_lookup_fmap in Hi. destruct (rds !! i); by simplify_eq/=. }
  exists (sch, evs), st'. split; [done|]. unfold scanContext. cbn [fst snd]. by rewrite Hjc, El, E, Hd, (bi_err _ _ _ _ _ Hinv2).
Qed.

Lemma scan_contexts_exists objs0 n : forall j st, j + n = length all -> scanned_inv objs0 j st ->
  exists rs st', Forall good_scan rs /\ scan_contexts kv fuel NumCPU now Format nowhere options t n j rs st = Some (Ok tt, st').
Proof.
  induction n as [|n IH]; intros j st Hn Hinv; [exists [], st; by split; [constructor|]|].
  destruct (lookup_lt_is_Some_2 all j ltac:(lia)) as [[c0 repos] Hj]. destruct (scanContext_exists _ _ _ _ _ Hj Hinv) as (run & st1 & Hg & E).
  destruct (scanContext_inv _ _ _ _ _ _ _ _ Hg Hj Hinv E) as (_ & Hinv1 & _). destruct (IH (Datatypes.S j) st1 ltac:(lia) Hinv1) as (rs & st2 & Hgs & E2).
  exists (run :: rs), st2. split; [by constructor|]. cbn [scan_contexts]. unfold mbind, R_bind. by rewrite E.
Qed.

Lemma build_exists d d0 c repos others :
  all = (c, repos) :: others -> kv_Drop d = (Ok tt, d0) -> entries d0 = ∅ -> index_is Format t (objects (Metadata c)) ∅ ->
  exists bc, good_build bc /\ is_Some (PurgeBuildReverseIndex kv fuel NumCPU now Format Parse nowhere (Ok tt) t opts bc (all.*1, d)).
Proof.
  intros Hall Hdrop He0 Hidx0. pose proof (initial_inv _ _ _ _ Hall He0 Hidx0) as Hinv0.
  destruct (scan_contexts_exists _ (length all) 0 _ eq_refl Hinv0) as (scans & st1 & Hgs & Es).
  destruct (scan_contexts_inv _ (length all) 0 _ _ _ _ eq_refl Hgs Hinv0 Es) as (_ & Hinv1 & _).
  destruct (sc_uploads _ _ _ Hinv1) as (c1 & cs & Hc1 & Hup & Hcs). destruct (AllKeys_ok (bg_db st1)) as (items & _ & Hitems).
  set (rs := replicate (Datatypes.S (length (unmarked items))) [mkPutRun (fun _ => 0) None]).
  assert (Forall good rs) as Hgl by (apply Forall_replicate; by eexists).
  destruct (last_chunks_ok Format (po_indexChunkSize options) t _ chunk_size rs (index_of st1) cs _ _ Hgl Hup Hcs (waiting_unmarked _ _ Hitems)) as [_ Ht].
  destruct Ht as [[rl ul] El]; [unfold rs; rewrite length_replicate; lia|]. exists (mkBuildChoices scans rs (fun l => l) false). split; [done|].
  unfold PurgeBuildReverseIndex, openKV, wrapf, attempt, lift, mbind, M_bind, mret, M_ret, R_bind. rewrite Hdrop, <- the_options. cbv iota beta. rewrite fresh_index.
  replace (all.*1) with (c :: others.*1) by (by rewrite Hall). destruct (N.ltb_spec (po_indexStart options) 0) as [?|_]; [lia|]. cbn [bc_scans bc_last bc_noticed].
  replace (length (c :: others.*1)) with (length all) by (rewrite Hall; cbn; by rewrite length_fmap). fold (initial c others d0). rewrite Es, (sc_upErr _ _ _ Hinv1).
  unfold with_uploads. rewrite Hc1. change (ul_chunkIndex (bg_uploader st1)) with (index_of st1). rewrite El. destruct rl; eauto.
Qed.

Lemma build_safe bc d d0 c repos others r cs' d' :
  good_build bc -> all = (c, repos) :: others -> kv_Drop d = (Ok tt, d0) -> entries d0 = ∅ -> index_is Format t (objects (Metadata c)) ∅ ->
  PurgeBuildReverseIndex kv fuel NumCPU now Format Parse nowhere (Ok tt) t opts bc (all.*1, d) = Some (r, (cs', d')) ->
  exists n, r = Ok (mkPurgeIndex t n) /\ indexed_all bc cs'.
Proof.
  intros [Hgs Hgl] Hall Hdrop He0 Hidx0. unfold PurgeBuildReverseIndex, openKV, wrapf, attempt, lift, mbind, M_bind, mret, M_ret, R_bind. rewrite Hdrop, <- the_options.
  cbv iota beta. rewrite fresh_index. replace (all.*1) with (c :: others.*1) by (by rewrite Hall).
  destruct (N.ltb_spec (po_indexStart options) 0) as [?|_]; [lia|].
  set (st0 := mkBuilding (c :: others.*1) d0 0 0 0 (mkUploader 0 (po_indexStart options)) None [] None).
  pose proof (initial_inv _ _ _ _ Hall He0 Hidx0 : scanned_inv (objects (Metadata c)) 0 st0) as Hinv0.
  replace (length (c :: others.*1)) with (length all) by (rewrite Hall; cbn; by rewrite length_fmap).
  destruct (scan_contexts _ _ _ _ _ _ _ _ _ _ _ st0) as [[r1 st1]|] eqn:Es; [|done].
  destruct (scan_contexts_inv _ (length all) 0 _ _ _ _ eq_refl Hgs Hinv0 Es) as (-> & Hinv1 & Hi1). rewrite (sc_upErr _ _ _ Hinv1).
  destruct (sc_uploads _ _ _ Hinv1) as (c1 & cs & Hc1 & Hup & Hcs). unfold with_uploads. rewrite Hc1.
  set (u := mkUploads (Metadata c1) (bg_db st1) (bg_uploaded st1)) in *.
  destruct (AllKeys_ok (bg_db st1)) as (items & _ & Hitems). pose proof (waiting_unmarked _ _ Hitems) as Hw.
  destruct (last_chunks_ok Format (po_indexChunkSize options) t _ chunk_size (bc_last bc) (index_of st1) cs u _ Hgl Hup Hcs Hw) as [Hsafe _].
  change (ul_chunkIndex (bg_uploader st1)) with (index_of st1).
  destruct (last_chunks Format (po_indexChunkSize options) t (bc_last bc) (index_of st1) u) as [[r2 u2]|] eqn:El; [|done].
  destruct (Hsafe _ _ eq_refl) as (n & chunks & -> & Hup2 & Hk2 & _ & Hne & Hle & Hn). intros [= <- <- <-]. eexists. split; [done|].
  pose proof (lookup_lt_Some _ _ _ Hc1) as Hlt. cbn [bg_contexts].
  assert (Hhas : forall k, has (bg_db st1) k -> chunk_keys chunks k).
  { intros k Hk. apply (ui_marked _ _ _ _ _ Hup2). rewrite Hk2. case_decide as Hin; [done|]. destruct Hk as [v Hv].
    destruct (ui_values _ _ _ _ _ Hup k v Hv) as [-> | ->]; [|done]. destruct Hin. by apply Hw. }
  exists (SetMetadata (up_store u2) c1), chunks. split_and!.
  - by apply list_lookup_insert_eq.
  - apply (ui_index _ _ _ _ _ Hup2).
  - done.
  - intros i ks Hi. split; [unfold last_index; assert (i <= n)%N by eauto; cbn in Hi1; lia|]. apply Forall_forall. intros k Hk.
    apply (sc_lines _ _ _ Hinv1). assert (entries (up_db u2) !! k = Some "X") as Hx by (apply (ui_marked _ _ _ _ _ Hup2); by exists i, ks).
    rewrite Hk2 in Hx. unfold has. case_decide as Hin; [|by eexists]. apply Hw in Hin. by eexists.
  - intros ci rs k Hci Huse. by eapply Hhas, scanned_used.
  - rewrite length_insert. apply (sc_length _ _ _ Hinv1).
  - intros i ci ci' Hi Hai. destruct (decide (i = 0)) as [->|Hx]; [|rewrite list_lookup_insert_ne in Hi by done; by eapply (sc_contexts _ _ _ Hinv1)].
    rewrite list_lookup_insert_eq in Hi by done. simplify_eq. apply agree_index; [by eapply (sc_contexts _ _ _ Hinv1)|]. intros f Hf.
    etrans; [apply (ui_outside _ _ _ _ _ Hup2 f Hf)|]. symmetry. apply (ui_outside _ _ _ _ _ Hup f Hf).
Qed.

End invariant.

(** ** The theorems *)

Section theorems.
Context {S C D : Type} `{HS : !Store S, HSL : !StoreLaws S, HR : !ReliableStore S, HLL : !ListingLaws S, HDR : !DeleteReports S, HC : !Store C}.
Context `{HK : !KvStore D, HKL : !KvLaws D, HKR : !ReliableKv D, HBk : Blake2b, HBL : !Blake2bLaws}.
Context {GS : GoSort} {GSL : GoSortLaws} {HYR : Yaml RepoDescriptor} {HYB : Yaml BundleDescriptor} {HYE : Yaml (list BundleEntry)}.
Variables (kv : string -> bool) (fuel : nat) (NumCPU : Z) (now : Time.Time) (nowhere : C).
Variables (Format : Time.Time -> string) (Parse : string -> res Time.Time).

(** The contexts [all], each with the names of its repositories, of which an
    index is built from scratch at the time [t]: their bundles can be read, a
    root has the same leaves in all of them, no leaf is a root, and the first
    context has no index. *)

Record purgeable (opts : list PurgeOption) (t : Time.Time) (leaves_of : string -> list string) (all : list (Stores S * list string)) : Prop := {
  pu_parallel : (0 < po_maxParallel (defaultPurgeOptions opts))%Z;
  pu_chunk : (0 < po_indexChunkSize (defaultPurgeOptions opts))%N;
  pu_fresh : po_resume (defaultPurgeOptions opts) = false;
  pu_contexts c repos : (c, repos) ∈ all -> context_ok fuel c repos;
  pu_leaves c repos size root : (c, repos) ∈ all -> file_of c repos size root -> leaves_in c size root = leaves_of (Key_String root);
  pu_not_roots r l : is_root all r -> l ∈ leaves_of r -> ~ is_root all l;
  pu_first : exists c repos others, all = (c, repos) :: others /\ index_is Format t (objects (Metadata c)) ∅
}.

(** What [build_safe] says of a context that can be purged. *)

Lemma build_indexes opts t leaves_of all d d0 bc r cs' d' :
  purgeable opts t leaves_of all -> kv_Drop d = (Ok tt, d0) -> entries d0 = ∅ -> good_build bc ->
  PurgeBuildReverseIndex kv fuel NumCPU now Format Parse nowhere (Ok tt) t opts bc (all.*1, d) = Some (r, (cs', d')) ->
  exists n, r = Ok (mkPurgeIndex t n) /\ indexed_all Format (defaultPurgeOptions opts) t all bc cs'.
Proof. intros [Hp Hc Hf Hok Hl Hn (c & repos & others & Hall & Hi)] Hd He Hg. by eapply build_safe. Qed.


(** The deletion keeps the blobs of the keys of the index. *)

Lemma delete_keeps opened fuel' order evs opts t cs (c : Stores S) (d : D) r c' d' k :
  Parse (Format t) = Ok t -> line_ok (Format t) -> (forall l, order l ≡ₚ l) ->
  index_is Format t (objects (Metadata c)) cs -> cs <> ∅ -> (forall i ks, cs !! i = Some ks -> (i <= max_uint64)%N /\ Forall line_ok ks) ->
  length (listing (objects (Metadata c)) ReverseIndexPrefix "") < fuel' ->
  PurgeDeleteUnused Parse opened fuel' order evs opts (c, d) = Some (r, (c', d')) ->
  chunk_keys cs k -> objects (Blob c') !! k = objects (Blob c) !! k.
Proof.
  intros HP Hf Hord Hidx Hcs Hok Hfuel. unfold PurgeDeleteUnused, mbind at 1, R_bind at 1.
  destruct (once (with_db (openKV opened)) (c, d)) as [[ro [c0 d0]]|] eqn:E0; [|done].
  assert (c0 = c) as -> by (revert E0; unfold once, with_db; cbn; destruct (openKV opened d); congruence).
  destruct ro as [u|e|m]; [|by intros [= <- <- <-]..].
  destruct (copyIndexChunks_runs Format Parse fuel' order t cs (Metadata c) d0 HP Hf Hord Hidx Hok Hfuel) as ([[it nk] li] & [s1 d1] & Ec & Ht & _ & _ & Hin & _).
  cbn [fst snd] in *. rewrite decide_False in Ht by done. subst it.
  assert (E2 : once (with_index (wrapf "copy index" (copyIndexChunks Parse fuel' order))) (c, d0) = Some (Ok (Some t, nk, li), (SetMetadata s1 c, d1))).
  { unfold once, with_index, wrapf, attempt, mbind, M_bind, mret, M_ret. by rewrite Ec. }
  unfold mbind at 1, R_bind at 1. rewrite E2. cbv iota beta. unfold wrap_error, with_blobs. cbn [Blob SetMetadata].
  destruct (scanBlob _ t _ evs (Blob c, d1)) as [[r1 [b' d2]]|] eqn:Es; [|done]. intros H Hk.
  assert (c' = SetBlob b' (SetMetadata s1 c)) as -> by (destruct r1; by simplify_eq). eapply scanBlob_keeps; [exact Es|]. right. rewrite Hin by done. by eexists.
Qed.

(** C7: A purge with a good index deletes no blob that is in use. When the index is
    built from scratch, with an emptied local database, by an execution in which
    no upload is retried and no listing is interrupted, and is followed by any
    execution of PurgeDeleteUnused on its first context, whether that one ends
    well or not, the root blob and the leaf blobs of every file of every bundle
    of all the contexts are what they were before the purge. *)
Theorem purge_keeps_used_blobs opts t leaves_of all d d0 bc r cs' d' :
  purgeable opts t leaves_of all -> kv_Drop d = (Ok tt, d0) -> entries d0 = ∅ -> good_build bc ->
  Parse (Format t) = Ok t -> line_ok (Format t) -> (last_index (defaultPurgeOptions opts) bc <= max_uint64)%N ->
  PurgeBuildReverseIndex kv fuel NumCPU now Format Parse nowhere (Ok tt) t opts bc (all.*1, d) = Some (r, (cs', d')) ->
  exists c', cs' !! 0 = Some c' /\
  forall opened fuel' order evs opts' db r2 c2 db2, (forall l, order l ≡ₚ l) ->
    length (listing (objects (Metadata c')) ReverseIndexPrefix "") < fuel' ->
    PurgeDeleteUnused Parse opened fuel' order evs opts' (c', db) = Some (r2, (c2, db2)) ->
    forall c repos c0 k, (c, repos) ∈ all -> used c repos k -> all.*1 !! 0 = Some c0 -> objects (Blob c2) !! k = objects (Blob c0) !! k.
Proof.
  intros Hpu Hd He Hg HP Hf Hlast Hrun. destruct (build_indexes _ _ _ _ _ _ _ _ _ _ Hpu Hd He Hg Hrun) as (n & -> & c' & chunks & Hc' & Hidx & Hne & Hok & Hused & _ & Hagree).
  exists c'. split; [done|]. intros opened fuel' order evs opts' db r2 c2 db2 Hord Hfuel Hdel c repos c0 k Hin Hk H0.
  destruct (Hagree 0 c0 c' Hc' H0) as [<- _]. eapply delete_keeps; [exact HP|exact Hf|exact Hord|exact Hidx|done| |exact Hfuel|exact Hdel|by eapply Hused].
  intros i ks Hi. destruct (Hok i ks Hi). split; [lia|done].
Qed.

End theorems.

End PurgeSafe.
