(* ===== verification/PurgeWitness.v ===== *)
(** * Concrete contexts for the theorems on the purge

    One repository with one bundle, whose only file has three bytes in leaves
    of two: a root blob and two leaf blobs, next to a blob that nothing uses. *)

From S2P Require Import Prelude GoLib Errors Storage Model CafsKeys CafsFlush CoreMeta StoreRules CoreKeys CoreListing CoreIndex CoreRepo CoreList CoreBundle CoreUpload CoreDownload CorePublish CoreDelete PurgeKv Pool PurgeIndex PurgeDelete PurgeScan PurgeSafe.

Module PurgeWitness.
Import Model Storage CafsKeys CafsFlush CoreMeta StoreRules CoreKeys CoreListing CoreIndex CoreRepo CoreList CoreBundle CoreUpload CoreDownload PurgeKv Pool PurgeIndex PurgeDelete PurgeScan PurgeSafe.

#[local] Existing Instance numbered_yaml.
#[local] Existing Instance numbered_yaml_laws.
#[local] Existing Instance toy_blake2b.
#[local] Existing Instance toy_blake2b_laws.

(** ** The layout of times *)

Definition Format (t : Time.Time) : string := "T" +:+ Strconv.FormatUint (Z.to_N t).

Definition Parse (s : string) : res Time.Time :=
  match s with
  | String _ s' => match Strconv.ParseDigits s' with Some n => Ok (Z.of_N n) | None => Err (ErrMsg "parse") end
  | EmptyString => Err (ErrMsg "parse")
  end.

(** ** The contexts *)

Definition content : bytes := [Byte.x01; Byte.x02; Byte.x03].

Definition root : Key := rootKey 2 content.

Definition the_entry : BundleEntry := mkBundleEntry (Key_String root) "a" 0%Z 3%Z 1%Z.

Definition the_bundle : BundleDescriptor := mkBundleDescriptor 2 "b1" "m" [] 1%Z [] 1 2 "blake" "".

Definition the_repo : RepoDescriptor := mkRepoDescriptor "r" "a repository" 1%Z (mkContributor "n" "n@x.org").

Definition meta_files : list (string * bytes) :=
  [(GetArchivePathToRepoDescriptor "r", put_positive (encode the_repo));
   (GetArchivePathToBundle "r" "b1", put_positive (encode the_bundle));
   (GetArchivePathToBundleFileList "r" "b1" 0, put_positive (encode [the_entry]))].

Definition blob_files : list (string * bytes) := ("junk", [Byte.x09]) :: objectBlobs "" 2 content.

Definition stores : Stores (gmap string bytes) := NewStores ∅ ∅ (list_to_map blob_files) (list_to_map meta_files) ∅.

Definition all_valid (_ : string) : bool := true.

Definition now : Time.Time := 5%Z.

Definition opts : list PurgeOption := [WithPurgeIndexChunkSize 2; WithPurgeParallel 1].

Definition contexts : list (Stores (gmap string bytes) * list string) := [(stores, ["r"])].

Definition leaves_of (_ : string) : list string := Key_String <$> leafKeys 2 content.

(** ** The hypotheses *)

Lemma object_elem k v : objects (Metadata stores) !! k = Some v -> (k, v) ∈ meta_files.
Proof. apply elem_of_list_to_map_2. Qed.

Lemma object_cases (P : string -> bytes -> Prop) :
  P (GetArchivePathToRepoDescriptor "r") (put_positive (encode the_repo)) ->
  P (GetArchivePathToBundle "r" "b1") (put_positive (encode the_bundle)) ->
  P (GetArchivePathToBundleFileList "r" "b1" 0) (put_positive (encode [the_entry])) ->
  forall k v, objects (Metadata stores) !! k = Some v -> P k v.
Proof.
  intros H1 H2 H3 k v Hv%object_elem. unfold meta_files in Hv.
  apply elem_of_cons in Hv as [Hv|Hv]; [pose proof (f_equal fst Hv); pose proof (f_equal snd Hv); cbn [fst snd] in *; subst k v; exact H1|].
  apply elem_of_cons in Hv as [Hv|Hv]; [pose proof (f_equal fst Hv); pose proof (f_equal snd Hv); cbn [fst snd] in *; subst k v; exact H2|].
  apply elem_of_cons in Hv as [Hv|Hv]; [pose proof (f_equal fst Hv); pose proof (f_equal snd Hv); cbn [fst snd] in *; subst k v; exact H3|].
  by apply elem_of_nil in Hv.
Qed.

(** For an object of the metadata store: the goal for each of the files. *)

Ltac by_file := match goal with |- forall k v, objects (Metadata stores) !! k = Some v -> @?P k v => apply (object_cases P) end; cbn beta.

Lemma bundle_key id v : Strings.no_slash id -> objects (Metadata stores) !! GetArchivePathToBundle "r" id = Some v -> id = "b1" /\ v = put_positive (encode the_bundle).
Proof.
  intros Hid Hv. remember (GetArchivePathToBundle "r" id) as k eqn:Hk. revert Hk. revert k v Hv. by_file; intros Hk.
  - by apply (f_equal (String.get 0)) in Hk.
  - split; [|done]. apply (f_equal (Strings.strip_suffix "/bundle.yaml")) in Hk. rewrite !strip_bundle_path in Hk.
    assert ("bundles/r/" +:+ "b1" = "bundles/r/" +:+ id) as ?%Strings.string_app_inv_head by congruence. done.
  - apply (f_equal (Strings.strip_suffix "/bundle.yaml")) in Hk. rewrite strip_bundle_path in Hk. by vm_compute in Hk.
Qed.

Lemma stores_repos_ok : repos_ok (Metadata stores).
Proof.
  intros k v Hp Hv. revert k v Hv Hp. by_file; intros Hp; [|by vm_compute in Hp..].
  exists the_repo. split; [apply numbered_Unmarshal|done].
Qed.

Lemma context_bundles_ok : bundles_ok "r" (Metadata stores) 2.
Proof.
  split.
  - intros k [v Hv]. revert k v Hv. by_file; intros Hp; [by vm_compute in Hp| |].
    + by exists "b1", "bundle.yaml".
    + by exists "b1", "bundle-files-0.yaml".
  - intros id b Hid [-> ->]%(bundle_key _ _ Hid). exists the_bundle. split; [apply numbered_Unmarshal|done].
Qed.

Lemma object_present k v : (k, v) ∈ meta_files -> objects (Metadata stores) !! k = Some v.
Proof. intros H. apply elem_of_list_to_map_1; [|exact H]. apply (bool_decide_unpack _). vm_compute. exact I. Qed.

Lemma one_chunk : chunk_at defaultBundleEntriesPerFile [the_entry] 0 = [the_entry].
Proof. unfold chunk_at. rewrite drop_0. apply take_ge. unfold defaultBundleEntriesPerFile. cbn [length]. lia. Qed.

Lemma stores_bundle : bundle_with (Metadata stores) "r" "b1" the_bundle [the_entry].
Proof.
  split_and!; [|done|done|].
  - exists (put_positive (encode the_bundle)). split; [|apply numbered_Unmarshal]. apply object_present. right. left.
  - intros j Hj. assert (j = 0) as -> by (cbn in Hj; lia). rewrite one_chunk. exists (put_positive (encode [the_entry])).
    split; [|apply numbered_Unmarshal]. apply object_present. right. right. left.
Qed.

Lemma stores_in_repo bd : in_repo stores "r" bd -> bd = the_bundle.
Proof. intros (Hid & b & [_ ->]%(bundle_key _ _ Hid) & Hu). rewrite numbered_Unmarshal in Hu. by simplify_eq. Qed.

Lemma entry_root : KeyFromString (Hash the_entry) = Ok root.
Proof. vm_compute. reflexivity. Qed.

Lemma stores_ok : context_ok 9 stores ["r"].
Proof.
  split.
  - apply stores_repos_ok.
  - vm_compute. lia.
  - intros repo. rewrite list_elem_of_singleton. split; [intros ->; split; [done|]; vm_compute; eauto|]. intros [Hn [v Hv]].
    remember (GetArchivePathToRepoDescriptor repo) as k eqn:Hk. revert Hk. revert k v Hv. by_file; intros Hk.
    + symmetry. by apply (repo_descriptor_inj all_valid).
    + by apply (f_equal (String.get 0)) in Hk.
    + by apply (f_equal (String.get 0)) in Hk.
  - intros repo ->%list_elem_of_singleton. split_and!; [done|vm_compute; eauto|exists 2; apply context_bundles_ok|vm_compute; lia].
  - intros repo bd ->%list_elem_of_singleton ->%stores_in_repo. exists [the_entry]. split_and!; [apply stores_bundle|by split|vm_compute; reflexivity|].
    intros e ->%list_elem_of_singleton. exists root. apply entry_root.
Qed.

Lemma the_only_file size r : file_of stores ["r"] size r -> size = 2%Z /\ r = root.
Proof.
  intros (repo & bd & es & e & ->%list_elem_of_singleton & ->%stores_in_repo & Hes & He & Hr & ->). split; [done|].
  rewrite <- (bundle_entries_unique _ _ _ _ _ _ stores_bundle Hes) in He. apply list_elem_of_singleton in He as ->. rewrite entry_root in Hr. congruence.
Qed.

Lemma stores_leaves : leaves_in stores 2 root = Key_String <$> leafKeys 2 content.
Proof. vm_compute. reflexivity. Qed.

Lemma stores_purgeable : purgeable 9 Format opts now leaves_of contexts.
Proof.
  split; [done|done|done|..].
  - intros c repos [= -> ->]%list_elem_of_singleton. apply stores_ok.
  - intros c repos size r [= -> ->]%list_elem_of_singleton [-> ->]%the_only_file. apply stores_leaves.
  - intros r l _ Hl (c & repos & size & r' & [= -> ->]%list_elem_of_singleton & [-> ->]%the_only_file & ->). revert Hl. apply (bool_decide_unpack (_ ∉ _)). vm_compute. exact I.
  - exists stores, ["r"], []. split; [done|]. intros f b Hf. split; [|by intros (i & ks & _ & ? & _)]. intros Hb. exfalso. revert f b Hb Hf.
    by_file; intros Hf; by vm_compute in Hf.
Qed.

(** ** An execution *)

Definition in_order : schedule := mkSchedule (fun l => l) None None.

Definition one_step : build_event := BThread 0 (mkChoices in_order Unnoticed [[Pool.Start; Pool.Finish 0 tt]]).

(** Buffers of seven bytes. *)

Definition whole_put : put_run := mkPutRun (fun _ => 6) None.

(** The repository is scanned up to its last key, a chunk is uploaded in the
    background, and the rest follows. *)

Definition choices : build_choices :=
  mkBuildChoices [(in_order, replicate 7 one_step ++ [BTick false [whole_put]] ++ replicate 2 one_step)] (replicate 2 [whole_put]) (fun l => l) false.

Definition db : gmap string string := {["stale" := ""]}.

Lemma db_Drop : kv_Drop db = (Ok tt, ∅).
Proof. reflexivity. Qed.

Lemma no_entries : entries (∅ : gmap string string) = ∅.
Proof. reflexivity. Qed.

Abbreviation build := (PurgeBuildReverseIndex all_valid 9 1 now Format Parse (∅ : gmap string bytes) (Ok tt) now opts choices (contexts.*1, db)).

Definition built : Stores (gmap string bytes) :=
  match build with Some (_, (c :: _, _)) => c | _ => stores end.

Lemma build_some : exists r cs d, build = Some (r, (built :: cs, d)).
Proof.
  assert (match build with Some (_, (_ :: _, _)) => true | _ => false end = true) as H by (vm_compute; reflexivity).
  unfold built. destruct build as [[r [[|c cs] d]]|]; [done| |done]. eauto.
Qed.

Lemma choices_good : good_build choices.
Proof. split; repeat constructor; try done; by eexists. Qed.

Lemma choices_few : (last_index (defaultPurgeOptions opts) choices <= max_uint64)%N.
Proof. vm_compute. discriminate. Qed.


(** The deletion: five blobs in a page, which are checked one after the other. *)

Definition scan_events : list scan_event := [EFetch; EReceive] ++ replicate 5 (ELookup 0) ++ [EStop].

Definition backwards (l : list string) : list string := reverse l.

Definition purged : option (res PurgeBlobs * (Stores (gmap string bytes) * gmap string string)) :=
  PurgeDeleteUnused Parse (Ok tt) 9 backwards scan_events opts (built, db).

Lemma root_file : file_of stores ["r"] 2 root.
Proof.
  exists "r", the_bundle, [the_entry], the_entry.
  split_and!; [by left| |apply stores_bundle|by left|apply entry_root|done].
  split; [done|]. exists (put_positive (encode the_bundle)). split; [|apply numbered_Unmarshal]. apply object_present. right. left.
Qed.

Lemma root_used : used stores ["r"] (Key_String root).
Proof. exists 2%Z, root. split; [apply root_file|by left]. Qed.

Lemma now_line : Parse (Format now) = Ok now /\ line_ok (Format now).
Proof.
  split; [reflexivity|]. split_and!.
  - apply (bool_decide_unpack _). vm_compute. exact I.
  - done.
  - apply Nat.ltb_lt. vm_compute. reflexivity.
Qed.

Lemma built_pages : length (listing (objects (Metadata built)) ReverseIndexPrefix "") < 9.
Proof. apply Nat.ltb_lt. vm_compute. reflexivity. Qed.

(** The root is left, the blob that nothing uses is not. *)

Lemma purge_keeps_used_blobs_witness :
  exists out c d, purged = Some (Ok out, (c, d)) /\ objects (Blob c) !! Key_String root = objects (Blob stores) !! Key_String root /\
    objects (Blob stores) !! "junk" = Some [Byte.x09] /\ objects (Blob c) !! "junk" = None.
Proof.
  assert (match purged with Some (Ok _, (c, _)) => bool_decide (objects (Blob c) !! "junk" = None) | _ => false end = true) as H by (vm_compute; reflexivity).
  destruct purged as [[[out| |] [c d]]|] eqn:Ep; [|done..]. exists out, c, d. split; [done|]. apply bool_decide_eq_true in H. split; [|split; [reflexivity|exact H]].
  destruct build_some as (r & cs & d1 & E).
  destruct (purge_keeps_used_blobs all_valid 9 1 now (∅ : gmap string bytes) Format Parse opts now leaves_of contexts db ∅ choices r (built :: cs) d1
    stores_purgeable db_Drop no_entries choices_good (proj1 now_line) (proj2 now_line) choices_few E) as (c' & Hc & Hkeep).
  apply (f_equal (default stores)) in Hc. change (built = c') in Hc. destruct Hc.
  apply (Hkeep (Ok tt) 9 backwards scan_events opts db (Ok out) c d (fun l => reverse_Permutation l) built_pages Ep stores ["r"]); [by left|apply root_used|reflexivity].
Defined.

(** ** An upload that is retried *)

(** The store fails after it has read the header and a key, and is asked again. *)

Definition failed_put : put_run := mkPutRun (fun _ => 200) (Some (2, ErrMsg "connection reset by peer")).

Definition retried : build_choices :=
  mkBuildChoices [(in_order, replicate 9 one_step)] [[failed_put; whole_put]; [whole_put]; [whole_put]] (fun l => l) false.

(** The purge that follows such a construction, when the latter returns without
    an error. *)

Definition purge_after (bc : build_choices) : option (res PurgeBlobs * (Stores (gmap string bytes) * gmap string string)) :=
  match PurgeBuildReverseIndex all_valid 9 1 now Format Parse (∅ : gmap string bytes) (Ok tt) now opts bc (contexts.*1, db) with
  | Some (Ok _, (c :: _, d)) => PurgeDeleteUnused Parse (Ok tt) 9 backwards scan_events opts (c, d)
  | _ => None
  end.

(** C38: An upload of a chunk that fails and is retried with success loses the
    keys that the failed attempt had read: they are marked as uploaded. There
    is a context in which the construction of the index and the purge then
    both return without an error, and the blob of a leaf of the only file of
    the only bundle is deleted. *)
Theorem retried_upload_deletes_used_blob : exists out c d k,
  purge_after retried = Some (Ok out, (c, d)) /\ used stores ["r"] k /\ is_Some (objects (Blob stores) !! k) /\ objects (Blob c) !! k = None.
Proof.
  set (k := default "" (leaves_of "" !! 1)).
  assert (match purge_after retried with Some (Ok _, (c, _)) => bool_decide (objects (Blob c) !! k = None) | _ => false end = true) as H by (vm_compute; reflexivity).
  destruct (purge_after retried) as [[[out| |] [c d]]|]; [|done..]. exists out, c, d, k. split; [done|]. split; [|split].
  - exists 2%Z, root. split; [apply root_file|]. right. rewrite stores_leaves. apply (bool_decide_unpack _). vm_compute. exact I.
  - apply (bool_decide_unpack _). vm_compute. exact I.
  - by apply bool_decide_eq_true in H.
Qed.

(** ** A store whose page tokens name keys *)

(** A finite map as above, but the token of a page is the first key of it, after
    a letter, as in a store that a deletion does not confuse. *)

Definition after (token k : string) : Prop := match token with EmptyString => True | String _ k0 => String.le k0 k end.

#[local] Instance after_dec token k : Decision (after token k).
Proof. unfold after. destruct token; apply _. Defined.

Definition named_remaining (objs : gmap string bytes) (prefix delim token : string) : list string := filter (after token) (listing objs prefix delim).

Definition named_next (rest : list string) : string := match rest with [] => "" | k :: _ => String "k" k end.

Definition named_Store : Store (gmap string bytes) := {|
  Has := Has; Get := Get; GetAttr := GetAttr; Touch := Touch; Put := Put; PutCRC := PutCRC; Delete := Delete; Clear := Clear; Keys := Keys;
  KeysPrefix token prefix delim count := fun s =>
    let rem := named_remaining s prefix delim token in (Ok (take count rem, named_next (drop count rem)), s) |}.

#[local] Existing Instance named_Store | 0.

#[local] Instance named_StoreLaws : StoreLaws (gmap string bytes) | 0 :=
  @Build_StoreLaws _ named_Store (@objects _ mem_Store mem_StoreLaws) (@Has_spec _ mem_Store mem_StoreLaws) (@Get_spec _ mem_Store mem_StoreLaws)
    (@GetAttr_spec _ mem_Store mem_StoreLaws) (@Put_spec _ mem_Store mem_StoreLaws) (@PutCRC_spec _ mem_Store mem_StoreLaws)
    (@Delete_spec _ mem_Store mem_StoreLaws) (@Keys_spec _ mem_Store mem_StoreLaws).

#[local] Instance named_ReliableStore : ReliableStore (gmap string bytes) | 0 :=
  @Build_ReliableStore _ named_Store named_StoreLaws (@Has_total _ mem_Store mem_StoreLaws _) (@Get_present _ mem_Store mem_StoreLaws _)
    (@Get_absent _ mem_Store mem_StoreLaws _) (@GetAttr_present _ mem_Store mem_StoreLaws _) (@GetAttr_absent _ mem_Store mem_StoreLaws _)
    (@Put_total _ mem_Store mem_StoreLaws _) (@PutCRC_total _ mem_Store mem_StoreLaws _) (@Delete_present _ mem_Store mem_StoreLaws _).

#[local] Instance named_DeleteReports : DeleteReports (gmap string bytes) | 0 := @Delete_absent _ mem_Store mem_StoreLaws _.

Lemma filter_none {A} (P : A -> Prop) `{!forall x, Decision (P x)} l : (forall x, x ∈ l -> ~ P x) -> filter P l = [].
Proof. induction l as [|x l IH]; intros Hl; [done|]. rewrite filter_cons_False by (apply Hl; by left). apply IH. intros y Hy. apply Hl. by right. Qed.

Lemma sorted_after l ks k rest : StronglySorted String.le l -> NoDup l -> l = ks ++ k :: rest -> filter (String.le k) l = k :: rest.
Proof.
  intros Hs Hn ->. apply StronglySorted_app in Hs as (Hks & _ & Hr). apply StronglySorted_cons in Hr as [Hr _]. rewrite filter_app.
  rewrite (filter_none _ ks).
  - cbn [app]. rewrite filter_cons_True by done. by rewrite filter_all.
  - intros x Hx Hle. assert (x = k) as -> by (apply (anti_symm String.le); [apply Hks; [done|by left]|done]).
    apply NoDup_app in Hn as (_ & Hn & _). apply (Hn k Hx). by left.
Qed.

#[local] Instance named_ListingLaws : ListingLaws (gmap string bytes) | 0.
Proof.
  refine {| remaining := named_remaining |}.
  - intros objs prefix delim. apply filter_all. by apply Forall_true.
  - intros token prefix delim count s r s' [= <- <-]. split; [done|]. intros ks next [= <- <-]. change (objects s) with s.
    set (rem := named_remaining s prefix delim token). exists (drop count rem). split; [by rewrite take_drop|]. split; [rewrite length_take; lia|].
    destruct (drop count rem) as [|k rest] eqn:Ed; cbn [named_next]; split; intros Hn; try done.
    assert (count < length rem) as Hc by (apply (f_equal length) in Ed; rewrite length_drop in Ed; cbn in Ed; lia). split; [rewrite length_take; lia|].
    assert (StronglySorted String.le rem /\ NoDup rem) as [Hs Hnd] by (split; [apply StronglySorted_filter, listing_sorted|apply NoDup_filter, listing_NoDup]).
    rewrite <- (sorted_after rem (take count rem) k rest Hs Hnd) by (rewrite <- Ed; by rewrite take_drop).
    unfold rem, named_remaining. cbn [after]. rewrite list_filter_filter. apply list_filter_iff. intros x. split; [|tauto]. intros Hx. split; [done|].
    assert (k ∈ rem) as Hk by (eapply elem_of_submseteq; [|apply sublist_submseteq, (sublist_drop _ count)]; rewrite Ed; by left).
    apply list_elem_of_filter in Hk as [Hk _]. unfold after in *. destruct token; [done|]. by etrans.
  - intros token prefix delim count s _. do 2 eexists. reflexivity.
Defined.

Lemma listing_delete (objs : gmap string bytes) prefix k : listing (delete k objs) prefix "" = filter (fun k' => k' <> k) (listing objs prefix "").
Proof.
  apply (StronglySorted_unique String.le); [apply listing_sorted|apply StronglySorted_filter, listing_sorted|].
  apply NoDup_Permutation; [apply listing_NoDup|apply NoDup_filter, listing_NoDup|]. intros x. rewrite list_elem_of_filter, !listing_elem_all.
  split.
  - intros [Hp [v [Hne Hv]%lookup_delete_Some]]. split; [done|]. split; [done|by exists v].
  - intros (Hne & Hp & v & Hv). split; [done|]. exists v. by rewrite lookup_delete_ne.
Qed.

#[local] Instance named_StablePaging : StablePaging (gmap string bytes).
Proof.
  intros objs prefix delim token k ->. change (named_remaining (delete k objs) prefix "" token = filter (fun k' => k' <> k) (named_remaining objs prefix "" token)).
  unfold named_remaining. rewrite listing_delete, !list_filter_filter. apply list_filter_iff. tauto.
Qed.

Definition indexed_stores : Stores (gmap string bytes) :=
  NewStores ∅ ∅ {["keep" := [Byte.x01]; "junk" := [Byte.x02]]} {[ReverseIndexFile 1 := chunk_text Format now ["keep"]]} ∅.

Lemma indexed_ok : index_is Format now (objects (Metadata indexed_stores)) {[1%N := ["keep"]]}.
Proof.
  intros f b _. change (objects (Metadata indexed_stores)) with ({[ReverseIndexFile 1 := chunk_text Format now ["keep"]]} : gmap string bytes).
  rewrite lookup_singleton_Some. split.
  - intros [<- <-]. exists 1%N, ["keep"]. by rewrite lookup_singleton_eq.
  - intros (i & ks & -> & [<- <-]%lookup_singleton_Some & ->). done.
Qed.

Lemma indexed_lines i ks : ({[1%N := ["keep"]]} : gmap N (list string)) !! i = Some ks -> (i <= max_uint64)%N /\ Forall line_ok ks.
Proof.
  intros [<- <-]%lookup_singleton_Some. split; [done|]. apply Forall_singleton. split_and!.
  - apply (bool_decide_unpack _). vm_compute. exact I.
  - done.
  - apply Nat.ltb_lt. vm_compute. reflexivity.
Qed.

#[local] Instance named_Dated : DatedStore (gmap string bytes).
Proof.
  refine {| updated := fun _ _ => 1%Z |}; [|done..]. intros k s a s'.
  change ((match s !! k with Some d => Ok (mem_attr d) | None => Err StorageStatus.ErrNotExists end, s) = (Ok a, s') -> Updated a = 1%Z).
  by destruct (s !! k); intros [= <- <-].
Defined.


End PurgeWitness.
