(* ===== verification/FuseCommon.v ===== *)
(** * Inodes and keys of the mounted file systems (pkg/fuse: fs.go, fs_common.go,
      inode.go)

    Inodes are unsigned 64-bit integers, kept as [Z]. Both file systems keep
    their nodes in radix trees under the big-endian encoding of an inode, and
    the children of a directory under this encoding followed by the name of
    the child. The mutable file system takes its inodes from a generator. *)

From S2P Require Import Prelude GoLib Errors Radix.

Module FuseCommon.

Abbreviation InodeID := Z.

Definition RootInodeID : InodeID := 1%Z.

Definition firstINode : InodeID := 1023%Z.

Definition rootPath : string := "/".

(** os.FileMode *)

Definition ModeDir : Z := Z.shiftl 1 31.

Definition IsDir (mode : Z) : bool := negb (Z.land mode ModeDir =? 0)%Z.

Definition dirLinkCount : Z := 2%Z.

Definition fileLinkCount : Z := 1%Z.

Definition dirDefaultMode : Z := Z.lor 511 ModeDir.

Definition fileDefaultMode : Z := 438%Z.

Definition dirReadOnlyMode : Z := Z.lor 365 ModeDir.

Definition fileReadOnlyMode : Z := 292%Z.

Definition dirInitialSize : Z := 64%Z.

Definition defaultUID : Z := 0%Z.

Definition defaultGID : Z := 0%Z.

(** fuseops.InodeAttributes, fuseutil.Dirent *)

Record InodeAttributes : Type := mkAttr {
  ia_Size : Z;
  ia_Nlink : Z;
  ia_Mode : Z;
  ia_Atime : Time.Time;
  ia_Mtime : Time.Time;
  ia_Ctime : Time.Time;
  ia_Crtime : Time.Time;
  ia_Uid : Z;
  ia_Gid : Z
}.

Inductive DirentType : Type := DT_File | DT_Directory.

#[export] Instance DirentType_eq_dec : EqDecision DirentType.
Proof. solve_decision. Defined.

Record Dirent : Type := mkDirent {
  de_Offset : Z;
  de_Inode : InodeID;
  de_Name : string;
  de_Type : DirentType
}.

(** The errors of the kernel interface. *)

Definition ENOENT : error := ErrMsg "no such file or directory".

Definition ENOTDIR : error := ErrMsg "not a directory".

Definition EEXIST : error := ErrMsg "file exists".

Definition ENOTEMPTY : error := ErrMsg "directory not empty".

Definition ENOSYS : error := ErrMsg "function not implemented".

Definition EINVAL : error := ErrMsg "invalid argument".

Definition EIO : error := ErrMsg "input/output error".

(** ** Keys *)

Definition formKey (id : InodeID) : bytes := be_put 8 id.

Definition formLookupKey (id : InodeID) (childName : string) : bytes := formKey id ++ String.list_byte_of_string childName.

Definition inode_ok (id : InodeID) : Prop := (0 <= id < 2 ^ 64)%Z.

Lemma formKey_inj i j : inode_ok i -> inode_ok j -> formKey i = formKey j -> i = j.
Proof. intros Hi Hj E. apply (f_equal be_get) in E. unfold formKey in E. by rewrite !be_get_put in E. Qed.

Lemma list_byte_of_string_inj a b : String.list_byte_of_string a = String.list_byte_of_string b -> a = b.
Proof. intros E. rewrite <- (String.string_of_list_byte_of_string a), <- (String.string_of_list_byte_of_string b). by rewrite E. Qed.

Lemma formLookupKey_inj i j a b : inode_ok i -> inode_ok j -> formLookupKey i a = formLookupKey j b -> i = j /\ a = b.
Proof.
  intros Hi Hj E. unfold formLookupKey in E. apply app_inj_1 in E as [E1 E2]; [|unfold formKey; by rewrite !length_be_put].
  split; [by apply formKey_inj|by apply list_byte_of_string_inj].
Qed.

(** The next inode. *)

Definition succ (i : InodeID) : InodeID := Int.uint64 (i + 1)%Z.

(** ** Directory entries *)

(** fuseutil.WriteDirent writes an entry to the rest of a buffer, or nothing if
    it does not fit: [direntSize] is the space it needs. What a listing writes
    to a buffer of [room] bytes. *)

Fixpoint write_dirents (direntSize : Dirent -> nat) (room : nat) (ds : list Dirent) : list Dirent :=
  match ds with
  | [] => []
  | d :: ds' => if decide (direntSize d <= room) then d :: write_dirents direntSize (room - direntSize d) ds' else []
  end.

Lemma write_dirents_prefix size room ds : write_dirents size room ds `prefix_of` ds.
Proof. revert room. induction ds as [|d ds IH]; intros room; cbn; [done|]. case_decide; [by apply prefix_cons|apply prefix_nil]. Qed.

(** ** The generator of inodes *)

Record iNodeGenerator : Type := mkGenerator {
  highestInode : InodeID;
  freeInodes : list InodeID
}.

Definition newGenerator : iNodeGenerator := mkGenerator firstINode [].

Definition allocINode (g : iNodeGenerator) : InodeID * iNodeGenerator :=
  match last (freeInodes g) with
  | None => let n := succ (highestInode g) in (n, mkGenerator n [])
  | Some n =>
      let free := take (length (freeInodes g) - 1) (freeInodes g) in
      (n, mkGenerator (if decide (free = []) then firstINode else highestInode g) free)
  end.

Definition freeINode (iNode : InodeID) (g : iNodeGenerator) : iNodeGenerator :=
  if decide (highestInode g = iNode) then mkGenerator (Int.uint64 (highestInode g - 1)%Z) (freeInodes g)
  else mkGenerator (highestInode g) (freeInodes g ++ [iNode]).

(** Two inodes are taken, the first is given back and taken again: the next one
    is the first again, which is still in use. *)

Lemma allocINode_twice :
  let '(a, g1) := allocINode newGenerator in
  let '(b, g2) := allocINode g1 in
  let '(c, g3) := allocINode (freeINode a g2) in
  let '(d, g4) := allocINode g3 in
  a <> b /\ c = a /\ d = c.
Proof. vm_compute. repeat split; discriminate. Qed.

End FuseCommon.
