(* ===== verification/FuseRO.v ===== *)
(** * The read-only mount of a bundle (pkg/fuse: fs_ro_ops.go, bundle_read.go)

    populateFS builds the tree of files and directories of a bundle from the
    names of its entries: a node of the tree is kept under its inode, under
    the inode of its parent and its name and, for a directory and only while
    the tree is built, under its path. The operations of the kernel look nodes
    up there. The theorems at the end state what a mounted bundle shows: its
    files at their paths, with the directories in between, and nothing else. *)

From S2P Require Import Prelude GoLib Errors Radix Storage Model CafsKeys Lru CafsReader CafsFs FuseCommon.

Module FuseRO.
Import Model Storage CafsKeys Lru FuseCommon.

(** ** Nodes *)

Record FsEntry : Type := mkFsEntry {
  fe_hash : string;
  fe_iNode : InodeID;
  fe_attributes : InodeAttributes;
  fe_fullPath : string
}.

Definition isDir (f : FsEntry) : bool := bool_decide (fe_hash f = "").

Definition newFsEntry (bundleEntry : BundleEntry) (t : Time.Time) (id : InodeID) (linkCount : Z) : FsEntry :=
  let mode := if decide (Hash bundleEntry = "") then dirReadOnlyMode else fileReadOnlyMode in
  mkFsEntry (Hash bundleEntry) id (mkAttr (be_Size bundleEntry) linkCount mode t t t t 1020%Z 2000%Z) (NameWithPath bundleEntry).

Definition newBundleEntry (nameWithPath : string) : BundleEntry := mkBundleEntry "" nameWithPath dirReadOnlyMode 2048%Z Time.zero.

Record fsNodeToAdd : Type := mkNode {
  na_parentINode : InodeID;
  na_FsEntry : FsEntry
}.

Definition set_parent (id : InodeID) (n : fsNodeToAdd) : fsNodeToAdd := mkNode id (na_FsEntry n).

Section mount.
Context {T : Type -> Type} `{HRT : !Radix T}.

(** [ro_readDirMap]: the children of an inode, in the order they were added. *)

Record readOnlyFs : Type := mkFs {
  ro_lookupTree : T FsEntry;
  ro_fsEntryStore : T FsEntry;
  ro_fsDirStore : T FsEntry;
  ro_readDirMap : gmap InodeID (list Dirent)
}.

Definition defaultReadOnlyFS : readOnlyFs := mkFs r_New r_New r_New ∅.

(** ** The nodes of an entry *)

(** A node is appended; the parent of the one before is the new one. *)

Definition append_node (n : fsNodeToAdd) (nodesToAdd : list fsNodeToAdd) : list fsNodeToAdd :=
  alter (set_parent (fe_iNode (na_FsEntry n))) (length nodesToAdd - 1) nodesToAdd ++ [n].

(** The loop over the parents of a path, up to the root or to one that exists. *)

Fixpoint nodes_loop (fuel : nat) (dirStore : T FsEntry) (t : Time.Time) (entry : FsEntry) (nameWithPath : string) (iNode : InodeID)
    (nodesToAdd : list fsNodeToAdd) : option (list fsNodeToAdd * InodeID) :=
  match fuel with
  | O => None
  | Datatypes.S fuel' =>
      let parentPath := Path.Dir nameWithPath in
      if decide (parentPath = "" \/ parentPath = "." \/ parentPath = "/") then
        Some (append_node (mkNode RootInodeID entry) nodesToAdd, iNode)
      else
        let nodes := append_node (mkNode 0%Z entry) nodesToAdd in
        match r_Get (String.list_byte_of_string parentPath) dirStore with
        | None =>
            let i := succ iNode in
            nodes_loop fuel' dirStore t (newFsEntry (newBundleEntry parentPath) t i dirLinkCount) parentPath i nodes
        | Some parent => Some (alter (set_parent (fe_iNode parent)) (length nodes - 1) nodes, iNode)
        end
  end.

Definition WithNodesFromEntry (dirStore : T FsEntry) (t : Time.Time) (be : BundleEntry) (iNode : InodeID) : option (list fsNodeToAdd * InodeID) :=
  let i := succ iNode in
  nodes_loop (Datatypes.S (String.length (NameWithPath be))) dirStore t (newFsEntry be t i fileLinkCount) (NameWithPath be) i [].

(** ** Insertions *)

Definition unexpected (where_ pth : string) : error :=
  Errors.Wrap CoreStatus.ErrUnexpectedUpdate (Some (ErrMsg (where_ +:+ " updates are not expected: /" +:+ pth))).

(** Insert of a transaction, which fails when it replaces a value. *)

Definition insert_new (where_ pth : string) (key : bytes) (e : FsEntry) (t : T FsEntry) : res (T FsEntry) :=
  match r_Get key t with
  | Some _ => Err (unexpected where_ pth)
  | None => Ok (r_Insert key e t)
  end.

Definition add_child (parentInode : InodeID) (iNode : InodeID) (name : string) (type : DirentType)
    (m : gmap InodeID (list Dirent)) : gmap InodeID (list Dirent) :=
  let childEntries := default [] (m !! parentInode) in
  <[parentInode := childEntries ++ [mkDirent (Z.of_nat (length childEntries) + 1)%Z iNode name type]]> m.

Definition insertDirEntry (parentInode : InodeID) (d : FsEntry) (fs : readOnlyFs) : res readOnlyFs :=
  let pth := fe_fullPath d in
  dirStore ← insert_new "dirStore" pth (String.list_byte_of_string pth) d (ro_fsDirStore fs);
  entryStore ← insert_new "fsEntryStore" pth (formKey (fe_iNode d)) d (ro_fsEntryStore fs);
  if decide (fe_iNode d <> RootInodeID) then
    lookupTree ← insert_new "lookupTree" pth (formLookupKey parentInode (Path.Base pth)) d (ro_lookupTree fs);
    mret (mkFs lookupTree entryStore dirStore (add_child parentInode (fe_iNode d) (Path.Base pth) DT_Directory (ro_readDirMap fs)))
  else mret (mkFs (ro_lookupTree fs) entryStore dirStore (ro_readDirMap fs)).

Definition insertFsEntry (parentInode : InodeID) (f : FsEntry) (fs : readOnlyFs) : res readOnlyFs :=
  let pth := fe_fullPath f in
  let base := Path.Base pth in
  entryStore ← insert_new "fsEntryStore" pth (formKey (fe_iNode f)) f (ro_fsEntryStore fs);
  lookupTree ← insert_new "fsEntryStore" pth (formLookupKey parentInode base) f (ro_lookupTree fs);
  mret (mkFs lookupTree entryStore (ro_fsDirStore fs) (add_child parentInode (fe_iNode f) base DT_File (ro_readDirMap fs))).

Definition insert_node (n : fsNodeToAdd) : readOnlyFs -> res readOnlyFs :=
  if decide (ia_Nlink (fe_attributes (na_FsEntry n)) = dirLinkCount)
  then insertDirEntry (na_parentINode n) (na_FsEntry n)
  else insertFsEntry (na_parentINode n) (na_FsEntry n).

Fixpoint populateFSAddNodes (nodesToAdd : list fsNodeToAdd) (fs : readOnlyFs) : res readOnlyFs :=
  match nodesToAdd with
  | [] => mret fs
  | n :: nodes => fs' ← insert_node n fs; populateFSAddNodes nodes fs'
  end.

(** [Panic]: the loop over the parents has a fuel that is always enough. *)

Fixpoint populateFSAddBundleEntries (t : Time.Time) (entries : list BundleEntry) (inode : InodeID) (fs : readOnlyFs) : res readOnlyFs :=
  match entries with
  | [] => mret fs
  | be :: entries' =>
      match WithNodesFromEntry (ro_fsDirStore fs) t be inode with
      | None => Panic "no result within the fuel"
      | Some (nodes, inode') => fs' ← populateFSAddNodes nodes fs; populateFSAddBundleEntries t entries' inode' fs'
      end
  end.

(** The tree of directories is dropped once the file system is built. *)

Definition populateFS (t : Time.Time) (entries : list BundleEntry) : res readOnlyFs :=
  let root := newFsEntry (newBundleEntry rootPath) t RootInodeID dirLinkCount in
  fs ← insertDirEntry RootInodeID root defaultReadOnlyFS;
  fs' ← populateFSAddBundleEntries t entries firstINode fs;
  mret (mkFs (ro_lookupTree fs') (ro_fsEntryStore fs') r_New (ro_readDirMap fs')).

(** ** Operations *)

(** The expiration of attributes is left out. *)

Definition LookUpInode (fs : readOnlyFs) (parent : InodeID) (name : string) : res (InodeID * InodeAttributes) :=
  match r_Get (formLookupKey parent name) (ro_lookupTree fs) with
  | Some childEntry => Ok (fe_iNode childEntry, fe_attributes childEntry)
  | None => Err ENOENT
  end.

Definition GetInodeAttributes (fs : readOnlyFs) (inode : InodeID) : res InodeAttributes :=
  match r_Get (formKey inode) (ro_fsEntryStore fs) with
  | Some e => Ok (fe_attributes e)
  | None => Err ENOENT
  end.

Definition OpenDir (fs : readOnlyFs) (inode : InodeID) : res unit :=
  match r_Get (formKey inode) (ro_fsEntryStore fs) with
  | None => Err ENOENT
  | Some fe => if negb (isDir fe) then Err ENOENT else Ok tt
  end.

Definition ReadDir (direntSize : Dirent -> nat) (fs : readOnlyFs) (inode : InodeID) (offset : Z) (room : nat) : res (list Dirent) :=
  match ro_readDirMap fs !! inode with
  | None => Err ENOENT
  | Some children =>
      if (Z.of_nat (length children) <? offset)%Z then Err ENOENT
      else if (offset <? 0)%Z then Panic "index out of range"
      else Ok (write_dirents direntSize room (drop (Z.to_nat offset) children))
  end.

End mount.

Arguments readOnlyFs : clear implicits.

(** ** Reading files *)

(** ReadAt of a file with the given content: what is read, and io.EOF if that is
    less than what was asked for. *)

Definition file_ReadAt (content : bytes) (n : nat) (offset : Z) : res bytes :=
  if (offset <? 0)%Z then Err (ErrMsg "negative offset") else Ok (take n (drop (Z.to_nat offset) content)).

Section read.
Context {T : Type -> Type} `{HRT : !Radix T}.
Context {B C KC LC : Type} `{HB : !Store B, HC : !Store C, HBk : Blake2b, HK : !Lru KC Key (list Key), HL : !Lru LC string bytes}.

(** The blob store with the caches of keys and of leaves of its cafs, and the
    staging area. *)

Record data : Type := mkData {
  dt_blob : B;
  dt_keys : KC;
  dt_leaves : LC;
  dt_staging : C
}.

(** [cap]: the capacity of the buffers of leaves. *)

Variable cap : nat.

Definition staged_ReadAt (file : FsEntry) (n : nat) (offset : Z) : M data bytes := fun dt =>
  let '(r, c) := Get (fe_fullPath file) (dt_staging dt) in
  let dt' := mkData (dt_blob dt) (dt_keys dt) (dt_leaves dt) c in
  match r with
  | Ok content => (match file_ReadAt content n offset with Ok b => Ok b | _ => Err EIO end, dt')
  | Err _ => (Err EIO, dt')
  | Panic p => (Panic p, dt')
  end.

Definition streamed_ReadAt (d : CafsFs.defaultFs) (file : FsEntry) (n : nat) (offset : Z) : M data bytes := fun dt =>
  match KeyFromString (fe_hash file) with
  | Panic p => (Panic p, dt)
  | Err err => (Err (Errors.Wrap (ErrMsg "failed to create cafs key") (Some err)), dt)
  | Ok key =>
      let '(r, (b, kc)) := CafsFs.GetAt d key (dt_blob dt, dt_keys dt) in
      let dt1 := mkData b kc (dt_leaves dt) (dt_staging dt) in
      match r with
      | Panic p => (Panic p, dt1)
      | Err err => (Err (Errors.Wrap (ErrMsg "error in bundle ReadAt") (Some err)), dt1)
      | Ok reader =>
          if (offset <? 0)%Z then (Panic "slice bounds out of range", dt1)
          else
            let '(out, (b', lc)) := CafsReader.ReadAt reader cap n (Z.to_nat offset) (b, dt_leaves dt) in
            (match out with Err _ => Err EIO | x => x end, mkData b' kc lc (dt_staging dt))
      end
  end.

Definition readAtBundle (streamed : option CafsFs.defaultFs) (file : FsEntry) (n : nat) (offset : Z) : M data bytes :=
  match streamed with
  | None => staged_ReadAt file n offset
  | Some d => streamed_ReadAt d file n offset
  end.

Definition ReadFile (streamed : option CafsFs.defaultFs) (fs : readOnlyFs T) (inode : InodeID) (n : nat) (offset : Z) : M data bytes :=
  match r_Get (formKey inode) (ro_fsEntryStore fs) with
  | None => fail ENOENT
  | Some fe => readAtBundle streamed fe n offset
  end.

End read.

(** ** The tree of a mount *)

(** A node at each path: the state of the file system is described by a map from
    the components of paths to nodes. *)

Section tree.
Context {T : Type -> Type} `{HRT : !Radix T, HRL : !RadixLaws T}.
Variables (t : Time.Time) (rooted : bool).

Definition is_directory (fe : FsEntry) : Prop := ia_Nlink (fe_attributes fe) = dirLinkCount.

Definition type_of (fe : FsEntry) : DirentType := if decide (ia_Nlink (fe_attributes fe) = dirLinkCount) then DT_Directory else DT_File.

Definition root_entry : FsEntry := newFsEntry (newBundleEntry rootPath) t RootInodeID dirLinkCount.

Definition dir_entry (cs : list string) (i : InodeID) : FsEntry := newFsEntry (newBundleEntry (Path.path_of rooted cs)) t i dirLinkCount.

Record tree_ok (tr : gmap (list string) FsEntry) : Prop := {
  to_root : tr !! [] = Some root_entry;
  to_parent cs c fe : tr !! (cs ++ [c]) = Some fe -> exists d, tr !! cs = Some d /\ is_directory d;
  to_inj cs cs' fe fe' : tr !! cs = Some fe -> tr !! cs' = Some fe' -> fe_iNode fe = fe_iNode fe' -> cs = cs';
  to_range cs fe : tr !! cs = Some fe -> inode_ok (fe_iNode fe);
  to_plain cs fe : tr !! cs = Some fe -> Forall Path.plain cs;
  to_path cs fe : tr !! cs = Some fe -> cs <> [] -> fe_fullPath fe = Path.path_of rooted cs
}.

Lemma tree_ok_insert tr cs c d fe :
  tree_ok tr -> tr !! cs = Some d -> is_directory d -> tr !! (cs ++ [c]) = None -> inode_ok (fe_iNode fe) -> Path.plain c ->
  (forall cs' fe', tr !! cs' = Some fe' -> fe_iNode fe' <> fe_iNode fe) -> fe_fullPath fe = Path.path_of rooted (cs ++ [c]) ->
  tree_ok (<[cs ++ [c] := fe]> tr).
Proof.
  intros Hok Hd Hdir Hnone Hr Hc Hfresh Hpath. split.
  - rewrite lookup_insert_ne; [apply Hok|]. by destruct cs.
  - intros cs1 c1 fe1. rewrite lookup_insert_Some. intros [[[-> _]%app_inj_tail _]|[_ H]].
    + exists d. split; [|done]. rewrite lookup_insert_ne; [done|]. intros E%(f_equal length). rewrite length_app in E. cbn in E. lia.
    + destruct (to_parent _ Hok _ _ _ H) as (d1 & Hd1 & ?). exists d1. split; [|done]. rewrite lookup_insert_ne; [done|]. intros <-. by rewrite Hnone in Hd1.
  - intros cs1 cs2 f1 f2. rewrite !lookup_insert_Some. intros [[<- <-]|[_ H1]] [[<- <-]|[_ H2]] E; [done| | |by eapply Hok].
    + by destruct (Hfresh _ _ H2).
    + by destruct (Hfresh _ _ H1).
  - intros cs1 f1. rewrite lookup_insert_Some. intros [[<- <-]|[_ H1]]; [done|by eapply Hok].
  - intros cs1 f1. rewrite lookup_insert_Some. intros [[<- <-]|[_ H1]]; [|by eapply Hok]. apply Forall_app. split; [by eapply Hok|by apply Forall_singleton].
  - intros cs1 f1. rewrite lookup_insert_Some. intros [[<- <-]|[_ H1]]; [done|by eapply Hok].
Qed.

Lemma tree_ok_prefix tr cs cs' fe : tree_ok tr -> tr !! (cs ++ cs') = Some fe -> cs' <> [] -> exists d, tr !! cs = Some d /\ is_directory d.
Proof.
  intros Hok. revert fe. induction cs' as [|c cs' IH] using rev_ind; intros fe H Hne; [done|]. rewrite app_assoc in H.
  destruct (to_parent _ Hok _ _ _ H) as (d & Hd & Hdir). destruct cs' as [|c' cs']; [rewrite app_nil_r in Hd; by exists d|]. by eapply IH.
Qed.

(** The nodes at the paths [D] of the tree have been inserted. *)

Record holds (tr : gmap (list string) FsEntry) (D : list string -> Prop) (fs : readOnlyFs T) : Prop := {
  h_lookup i c fe : inode_ok i -> r_Get (formLookupKey i c) (ro_lookupTree fs) = Some fe <->
    exists cs d, D (cs ++ [c]) /\ tr !! cs = Some d /\ fe_iNode d = i /\ tr !! (cs ++ [c]) = Some fe;
  h_entry i fe : inode_ok i -> r_Get (formKey i) (ro_fsEntryStore fs) = Some fe <-> exists cs, D cs /\ tr !! cs = Some fe /\ fe_iNode fe = i;
  h_dir cs fe : cs <> [] -> Forall Path.plain cs ->
    r_Get (String.list_byte_of_string (Path.path_of rooted cs)) (ro_fsDirStore fs) = Some fe <-> D cs /\ tr !! cs = Some fe /\ is_directory fe;
  h_offsets i k d : default [] (ro_readDirMap fs !! i) !! k = Some d -> de_Offset d = (Z.of_nat k + 1)%Z;
  h_names i : NoDup (de_Name <$> default [] (ro_readDirMap fs !! i));
  h_children i ino name ty : (exists off, mkDirent off ino name ty ∈ default [] (ro_readDirMap fs !! i)) <->
    exists cs d fe, D (cs ++ [name]) /\ tr !! cs = Some d /\ fe_iNode d = i /\ tr !! (cs ++ [name]) = Some fe /\ ino = fe_iNode fe /\ ty = type_of fe;
  h_nonempty i : ro_readDirMap fs !! i <> Some []
}.

Lemma holds_iff tr (D D' : list string -> Prop) fs : (forall cs, D cs <-> D' cs) -> holds tr D fs -> holds tr D' fs.
Proof.
  intros HD [H1 H2 H3 H4 H5 H6 H7]. split; [intros|intros|intros|done|done|intros|done].
  - rewrite H1 by done. by setoid_rewrite HD.
  - rewrite H2 by done. by setoid_rewrite HD.
  - rewrite H3 by done. by rewrite HD.
  - rewrite H6. by setoid_rewrite HD.
Qed.

Lemma holds_grows tr tr' (D : list string -> Prop) fs : tree_ok tr -> tr ⊆ tr' -> (forall cs, D cs -> is_Some (tr !! cs)) -> holds tr D fs -> holds tr' D fs.
Proof.
  intros Hok Hsub HD [H1 H2 H3 H4 H5 H6 H7].
  assert (Hsame : forall cs, D cs -> tr' !! cs = tr !! cs) by (intros cs [fe Hfe]%HD; rewrite Hfe; by eapply lookup_weaken).
  assert (Hup : forall cs c, D (cs ++ [c]) -> tr' !! cs = tr !! cs).
  { intros cs c [fe Hfe]%HD. destruct (to_parent _ Hok _ _ _ Hfe) as (d & Hd & _). rewrite Hd. by eapply lookup_weaken. }
  split; [intros i c fe Hi|intros i fe Hi|intros cs fe Hn Hp|done|done|intros i ino name ty|done].
  - rewrite H1 by done. split; intros (cs & d & HD' & Hd & Hi' & Hfe); exists cs, d; rewrite (Hup cs c), (Hsame (cs ++ [c])) in * by done; done.
  - rewrite H2 by done. split; intros (cs & HD' & Hfe & Hi'); exists cs; rewrite Hsame in * by done; done.
  - rewrite H3 by done. split; intros (HD' & Hfe & Hdir); rewrite Hsame in * by done; done.
  - rewrite H6. split; intros (cs & d & fe & HD' & Hd & Hi' & Hfe & Hrest); exists cs, d, fe; rewrite (Hup cs name), (Hsame (cs ++ [name])) in * by done; done.
Qed.

(** ** One insertion *)

Section insertion.
Variables (tr : gmap (list string) FsEntry) (D : list string -> Prop) (fs : readOnlyFs T).
Variables (cs0 : list string) (c0 : string) (d0 fe0 : FsEntry).
Hypothesis tr_ok : tree_ok tr.
Hypothesis fs_holds : holds tr D fs.
Hypothesis not_yet : ~ D (cs0 ++ [c0]).
Hypothesis parent_at : tr !! cs0 = Some d0.
Hypothesis node_at : tr !! (cs0 ++ [c0]) = Some fe0.

Definition now (x : list string) : Prop := D x \/ x = cs0 ++ [c0].

Lemma base_name : Path.Base (fe_fullPath fe0) = c0.
Proof.
  rewrite (to_path _ tr_ok _ _ node_at) by (by destruct cs0). apply Path.Base_path_of. by eapply (to_plain _ tr_ok).
Qed.

Lemma now_lookup_new : r_Get (formLookupKey (fe_iNode d0) c0) (ro_lookupTree fs) = None.
Proof.
  apply eq_None_not_Some. intros [fe H]. apply (h_lookup _ _ _ fs_holds) in H as (cs & d & HD & Hd & Hi & _); [|by eapply (to_range _ tr_ok)].
  apply not_yet. by rewrite (to_inj _ tr_ok _ _ _ _ parent_at Hd (eq_sym Hi)).
Qed.

Lemma now_lookup i c fe : inode_ok i -> r_Get (formLookupKey i c) (r_Insert (formLookupKey (fe_iNode d0) c0) fe0 (ro_lookupTree fs)) = Some fe <->
  exists cs d, now (cs ++ [c]) /\ tr !! cs = Some d /\ fe_iNode d = i /\ tr !! (cs ++ [c]) = Some fe.
Proof.
  intros Hi. assert (inode_ok (fe_iNode d0)) as Hi0 by (by eapply (to_range _ tr_ok)).
  destruct (decide (i = fe_iNode d0 /\ c = c0)) as [[-> ->]|Hne].
  - rewrite r_Get_Insert. split.
    + intros [= <-]. exists cs0, d0. split_and!; [by right|done..].
    + intros (cs & d & _ & Hd & Hii & Hfe). rewrite <- (to_inj _ tr_ok _ _ _ _ Hd parent_at Hii) in node_at. congruence.
  - rewrite r_Get_Insert_ne by (intros [<- <-]%formLookupKey_inj; tauto). rewrite (h_lookup _ _ _ fs_holds) by done. split.
    + intros (cs & d & HD & H). exists cs, d. split; [by left|done].
    + intros (cs & d & [HD|[-> ->]%app_inj_tail] & H); [by exists cs, d|]. destruct H as (Hd & Hii & _). destruct Hne. split; [congruence|done].
Qed.

Lemma now_entry_new : r_Get (formKey (fe_iNode fe0)) (ro_fsEntryStore fs) = None.
Proof.
  apply eq_None_not_Some. intros [fe H]. apply (h_entry _ _ _ fs_holds) in H as (cs & HD & Hfe & Hi); [|by eapply (to_range _ tr_ok)].
  apply not_yet. by rewrite (to_inj _ tr_ok _ _ _ _ node_at Hfe (eq_sym Hi)).
Qed.

Lemma now_entry i fe : inode_ok i -> r_Get (formKey i) (r_Insert (formKey (fe_iNode fe0)) fe0 (ro_fsEntryStore fs)) = Some fe <->
  exists cs, now cs /\ tr !! cs = Some fe /\ fe_iNode fe = i.
Proof.
  intros Hi. assert (inode_ok (fe_iNode fe0)) as Hi0 by (by eapply (to_range _ tr_ok)). destruct (decide (i = fe_iNode fe0)) as [->|Hne].
  - rewrite r_Get_Insert. split.
    + intros [= <-]. exists (cs0 ++ [c0]). split_and!; [by right|done..].
    + intros (cs & _ & Hfe & Hii). rewrite (to_inj _ tr_ok _ _ _ _ node_at Hfe (eq_sym Hii)) in node_at. congruence.
  - rewrite r_Get_Insert_ne by (intros ?%formKey_inj; [by subst|done..]). rewrite (h_entry _ _ _ fs_holds) by done. split.
    + intros (cs & HD & H). exists cs. split; [by left|done].
    + intros (cs & [HD| ->] & H); [by exists cs|]. destruct H. congruence.
Qed.

Lemma now_dir_new : r_Get (String.list_byte_of_string (fe_fullPath fe0)) (ro_fsDirStore fs) = None.
Proof.
  apply eq_None_not_Some. intros [fe H]. rewrite (to_path _ tr_ok _ _ node_at) in H by (by destruct cs0).
  apply (h_dir _ _ _ fs_holds) in H as (HD & _); [done|by destruct cs0|by eapply (to_plain _ tr_ok)].
Qed.

Lemma now_dir cs fe : cs <> [] -> Forall Path.plain cs -> is_directory fe0 ->
  r_Get (String.list_byte_of_string (Path.path_of rooted cs)) (r_Insert (String.list_byte_of_string (fe_fullPath fe0)) fe0 (ro_fsDirStore fs)) = Some fe <->
  now cs /\ tr !! cs = Some fe /\ is_directory fe.
Proof.
  intros Hn Hp Hdir. rewrite (to_path _ tr_ok _ _ node_at) by (by destruct cs0).
  destruct (decide (cs = cs0 ++ [c0])) as [->|Hne].
  - rewrite r_Get_Insert, node_at. split; [intros [= <-]; split_and!; [by right|done..]|]. by intros (_ & [= <-] & _).
  - rewrite r_Get_Insert_ne.
    + rewrite (h_dir _ _ _ fs_holds) by done. unfold now. naive_solver.
    + intros E%list_byte_of_string_inj. destruct Hne. symmetry. eapply Path.path_of_inj; [by destruct cs0|done| |done|exact E]. by eapply (to_plain _ tr_ok).
Qed.

Lemma now_file cs fe : cs <> [] -> Forall Path.plain cs -> ~ is_directory fe0 ->
  r_Get (String.list_byte_of_string (Path.path_of rooted cs)) (ro_fsDirStore fs) = Some fe <-> now cs /\ tr !! cs = Some fe /\ is_directory fe.
Proof.
  intros Hn Hp Hdir. rewrite (h_dir _ _ _ fs_holds) by done. unfold now. split; [naive_solver|].
  intros ([HD| ->] & Hfe & Hd); [done|]. by simplify_eq.
Qed.

(** The children of a directory. *)

Definition children_ok (D' : list string -> Prop) (m : gmap InodeID (list Dirent)) : Prop :=
  (forall i k d, default [] (m !! i) !! k = Some d -> de_Offset d = (Z.of_nat k + 1)%Z) /\
  (forall i, NoDup (de_Name <$> default [] (m !! i))) /\
  (forall i ino name ty, (exists off, mkDirent off ino name ty ∈ default [] (m !! i)) <->
    exists cs d fe, D' (cs ++ [name]) /\ tr !! cs = Some d /\ fe_iNode d = i /\ tr !! (cs ++ [name]) = Some fe /\ ino = fe_iNode fe /\ ty = type_of fe) /\
  (forall i, m !! i <> Some []).

Lemma now_children : children_ok now (add_child (fe_iNode d0) (fe_iNode fe0) c0 (type_of fe0) (ro_readDirMap fs)).
Proof.
  destruct fs_holds as [_ _ _ Ho Hn Hc Hne]. set (i0 := fe_iNode d0) in *. set (l := default [] (ro_readDirMap fs !! i0)).
  assert (Hat : forall i, default [] (add_child i0 (fe_iNode fe0) c0 (type_of fe0) (ro_readDirMap fs) !! i) =
    if decide (i = i0) then l ++ [mkDirent (Z.of_nat (length l) + 1) (fe_iNode fe0) c0 (type_of fe0)] else default [] (ro_readDirMap fs !! i)).
  { intros i. unfold add_child. fold l. case_decide as Hi; [subst i; by rewrite lookup_insert_eq|by rewrite lookup_insert_ne]. }
  split_and!.
  - intros i k d. rewrite Hat. case_decide; [|apply Ho]. rewrite lookup_app_Some. intros [Hx|[Hk Hx]]; [by apply (Ho i0)|].
    apply list_lookup_singleton_Some in Hx as [Hx <-]. cbn. lia.
  - intros i. rewrite Hat. case_decide; [|apply Hn]. rewrite fmap_app. apply NoDup_app. split_and!; [apply Hn| |apply NoDup_singleton].
    intros x ([off ino name ty] & -> & Hin)%list_elem_of_fmap Hx%list_elem_of_singleton. cbn in Hx. subst name.
    destruct (proj1 (Hc i0 ino c0 ty) (ex_intro _ off Hin)) as (cs & d & fe & HD & Hd & Hi & _). apply not_yet.
    by rewrite (to_inj _ tr_ok _ _ _ _ parent_at Hd (eq_sym Hi)).
  - intros i ino name ty. rewrite Hat. case_decide as Hi.
    + subst i. split.
      * intros [off [Hin|Heq%list_elem_of_singleton]%elem_of_app].
        -- destruct (proj1 (Hc i0 ino name ty) (ex_intro _ off Hin)) as (cs & d & fe & HD & H). exists cs, d, fe. split; [by left|done].
        -- injection Heq as -> -> -> ->. exists cs0, d0, fe0. split_and!; [by right|done..].
      * intros (cs & d & fe & [HD|[-> ->]%app_inj_tail] & Hd & Hi & Hfe & -> & ->).
        -- destruct (proj2 (Hc i0 (fe_iNode fe) name (type_of fe))) as [off Hin]; [by exists cs, d, fe|]. exists off. apply elem_of_app. by left.
        -- simplify_eq. eexists. apply elem_of_app. right. by apply list_elem_of_singleton.
    + rewrite Hc. split; intros (cs & d & fe & HD & Hd & Hii & H); exists cs, d, fe; [split; [by left|done]|].
      destruct HD as [HD|[-> ->]%app_inj_tail]; [done|]. simplify_eq.
  - intros i. unfold add_child. rewrite lookup_insert_Some. intros [[_ H]|[_ H]]; [by destruct (default [] _)|by eapply Hne].
Qed.

Lemma insert_new_ok where_ pth key e (tt : T FsEntry) : r_Get key tt = None -> insert_new where_ pth key e tt = Ok (r_Insert key e tt).
Proof. unfold insert_new. by intros ->. Qed.

Lemma insert_node_holds : exists fs', insert_node (mkNode (fe_iNode d0) fe0) fs = Ok fs' /\ holds tr now fs'.
Proof.
  unfold insert_node. cbn [na_FsEntry na_parentINode]. pose proof now_children as (C1 & C2 & C3 & C4). unfold type_of in C1, C2, C3, C4. case_decide as Hdir.
  - unfold insertDirEntry. rewrite (insert_new_ok _ _ _ _ _ now_dir_new). unfold mbind, res_bind. rewrite (insert_new_ok _ _ _ _ _ now_entry_new).
    rewrite decide_True.
    + rewrite base_name, (insert_new_ok _ _ _ _ _ now_lookup_new). eexists. split; [done|].
      split; cbn [ro_lookupTree ro_fsEntryStore ro_fsDirStore ro_readDirMap]; [apply now_lookup|apply now_entry|by intros; apply now_dir|done..].
    + intros E. pose proof (to_inj _ tr_ok _ _ _ _ node_at (to_root _ tr_ok) E) as H. by destruct cs0.
  - unfold insertFsEntry. rewrite base_name, (insert_new_ok _ _ _ _ _ now_entry_new). unfold mbind, res_bind.
    rewrite (insert_new_ok _ _ _ _ _ now_lookup_new). eexists. split; [done|].
    split; cbn [ro_lookupTree ro_fsEntryStore ro_fsDirStore ro_readDirMap]; [apply now_lookup|apply now_entry|by intros; apply now_file|done..].
Qed.

End insertion.

(** ** The nodes of an entry *)

(** [nodes_loop] on a path given by its components, last one first: each node
    with its path. *)

Fixpoint new_nodes (tr : gmap (list string) FsEntry) (fe : FsEntry) (rcs : list string) (i : InodeID) : list (list string * fsNodeToAdd) * InodeID :=
  match rcs with
  | [] => ([], i)
  | c :: rest =>
      match rest with
      | [] => ([([c], mkNode RootInodeID fe)], i)
      | _ =>
          match tr !! rev rest with
          | Some d => ([(rev rest ++ [c], mkNode (fe_iNode d) fe)], i)
          | None => let '(ns, i') := new_nodes tr (dir_entry (rev rest) (succ i)) rest (succ i) in ((rev rest ++ [c], mkNode (succ i) fe) :: ns, i')
          end
      end
  end.

Lemma new_nodes_step tr fe c c' rest i : new_nodes tr fe (c :: c' :: rest) i =
  match tr !! rev (c' :: rest) with
  | Some d => ([(rev (c' :: rest) ++ [c], mkNode (fe_iNode d) fe)], i)
  | None =>
      let '(ns, i') := new_nodes tr (dir_entry (rev (c' :: rest)) (succ i)) (c' :: rest) (succ i) in
      ((rev (c' :: rest) ++ [c], mkNode (succ i) fe) :: ns, i')
  end.
Proof. reflexivity. Qed.

Definition link (id : InodeID) (acc : list fsNodeToAdd) : list fsNodeToAdd := alter (set_parent id) (length acc - 1) acc.

Lemma link_snoc id acc n : link id (acc ++ [n]) = acc ++ [set_parent id n].
Proof.
  unfold link. rewrite length_app. cbn [length]. rewrite Nat.add_sub. rewrite alter_app_r_alt by lia. by rewrite Nat.sub_diag.
Qed.

Lemma length_rev_nonempty {A} (l : list A) : l <> [] -> rev l <> [].
Proof. intros Hl E. apply Hl. by rewrite <- (rev_involutive l), E. Qed.

Lemma nodes_loop_eq tr fs : holds tr (fun cs => is_Some (tr !! cs)) fs ->
  forall rcs fuel fe i acc, rcs <> [] -> Forall Path.plain rcs -> length rcs <= fuel ->
  (forall ds c d, rev rcs = ds ++ c -> c <> [] -> tr !! ds = Some d -> is_directory d) ->
  nodes_loop fuel (ro_fsDirStore fs) t fe (Path.path_of rooted (rev rcs)) i acc =
    Some (link (fe_iNode fe) acc ++ (new_nodes tr fe rcs i).1.*2, (new_nodes tr fe rcs i).2).
Proof.
  intros Hh. induction rcs as [|c rest IH]; intros fuel fe i acc Hne Hpl Hf Hdirs; [done|].
  destruct fuel as [|fuel]; [cbn in Hf; lia|]. cbn [nodes_loop rev].
  assert (Forall Path.plain (rev rest ++ [c])) as Hpl' by (change (Forall Path.plain (rev (c :: rest))); by apply Forall_rev).
  rewrite Path.Dir_path_of by done. apply Forall_cons in Hpl as [_ Hrest].
  destruct rest as [|c' rest]; [cbn [rev]; rewrite decide_True by (destruct rooted; tauto); done|].
  assert (Hrr : rev (c' :: rest) <> []) by (by apply length_rev_nonempty). assert (Forall Path.plain (rev (c' :: rest))) as Hpr by (by apply Forall_rev).
  replace (match rev (c' :: rest) with [] => _ | _ => _ end) with (Path.path_of rooted (rev (c' :: rest))) by (by destruct (rev (c' :: rest))).
  rewrite decide_False.
  2: { assert (Hs : Strings.Split (Path.path_of rooted (rev (c' :: rest))) = (if rooted then [""] else []) ++ rev (c' :: rest)) by (by apply Path.Split_path_of).
    destruct (rev (c' :: rest)) as [|x l]; [done|]. apply Forall_cons in Hpr as [(Hx & Hx1 & _) _].
    intros [E|[E|E]]; rewrite E in Hs; cbn in Hs; destruct rooted; cbn in Hs; naive_solver. }
  unfold append_node. fold (link (fe_iNode (na_FsEntry (mkNode 0%Z fe))) acc). cbn [na_FsEntry].
  rewrite new_nodes_step. destruct (r_Get _ (ro_fsDirStore fs)) as [d|] eqn:Eg.
  - apply (h_dir _ _ _ Hh) in Eg as (_ & Hd & _); [|done..]. rewrite Hd.
    fold (link (fe_iNode d) (link (fe_iNode fe) acc ++ [mkNode 0%Z fe])). by rewrite link_snoc.
  - assert (tr !! rev (c' :: rest) = None) as Hnone.
    { apply eq_None_not_Some. intros [d Hd]. assert (is_directory d) as Hdir by (by eapply (Hdirs (rev (c' :: rest)) [c])).
      by rewrite (proj2 (h_dir _ _ _ Hh (rev (c' :: rest)) d Hrr Hpr)) in Eg. }
    rewrite Hnone.
    fold (dir_entry (rev (c' :: rest)) (succ i)). rewrite IH; [|done|done|cbn in Hf |- *; lia|].
    + rewrite link_snoc. destruct (new_nodes tr _ (c' :: rest) (succ i)) as [ns i'] eqn:En. cbn [fst snd]. rewrite fmap_cons. cbn [snd]. by rewrite <- app_assoc.
    + intros ds x d Hds Hx. apply (Hdirs ds (x ++ [c]) d); [cbn [rev]; cbn [rev] in Hds; by rewrite Hds, app_assoc|by destruct x].
Qed.

(** ** The tree with the nodes of an entry *)

(** [tr2] is [tr] with the nodes [ns] of an entry at the path [cs]; their inodes
    are those from that of the entry to [i']. *)

Record grown (tr : gmap (list string) FsEntry) (fe : FsEntry) (cs : list string) (ns : list (list string * fsNodeToAdd)) (i' : InodeID)
    (tr2 : gmap (list string) FsEntry) : Prop := {
  gr_ok : tree_ok tr2;
  gr_sub : tr ⊆ tr2;
  gr_entry : tr2 !! cs = Some fe;
  gr_last : (fe_iNode fe <= i' < fe_iNode fe + Z.of_nat (length cs))%Z;
  gr_inodes ds x : tr2 !! ds = Some x -> tr !! ds = Some x \/ (fe_iNode fe <= fe_iNode x <= i')%Z;
  gr_NoDup : NoDup ns.*1;
  gr_nodes ds n : (ds, n) ∈ ns -> tr !! ds = None /\ tr2 !! ds = Some (na_FsEntry n) /\
    exists ps c d, ds = ps ++ [c] /\ tr2 !! ps = Some d /\ na_parentINode n = fe_iNode d;
  gr_new ds x : tr2 !! ds = Some x -> tr !! ds = Some x \/
    (ds ∈ ns.*1 /\ ds `prefix_of` cs /\ ((ds = cs /\ x = fe) \/ (ds <> cs /\ exists i, x = dir_entry ds i)))
}.

(** A node below one that exists. *)

Lemma grown_one tr fe ps c d :
  tree_ok tr -> tr !! ps = Some d -> is_directory d -> tr !! (ps ++ [c]) = None -> Path.plain c -> inode_ok (fe_iNode fe) ->
  (forall ds x, tr !! ds = Some x -> (fe_iNode x < fe_iNode fe)%Z) -> fe_fullPath fe = Path.path_of rooted (ps ++ [c]) ->
  grown tr fe (ps ++ [c]) [(ps ++ [c], mkNode (fe_iNode d) fe)] (fe_iNode fe) (<[ps ++ [c] := fe]> tr).
Proof.
  intros Hok Hd Hdir Hnone Hc Hr Hlt Hpath. split.
  - eapply tree_ok_insert; try done. intros ds x Hx. specialize (Hlt ds x Hx). lia.
  - by apply insert_subseteq.
  - apply lookup_insert_eq.
  - rewrite length_app. cbn. lia.
  - intros ds x. rewrite lookup_insert_Some. intros [[_ <-]|[_ H]]; [right; lia|by left].
  - apply NoDup_singleton.
  - intros ds n [= -> ->]%list_elem_of_singleton. cbn. split; [done|]. split; [apply lookup_insert_eq|]. exists ps, c, d. split_and!; [done| |done].
    rewrite lookup_insert_ne; [done|]. intros E%(f_equal length). rewrite length_app in E. cbn in E. lia.
  - intros ds x. rewrite lookup_insert_Some. intros [[<- <-]|[_ H]]; [right|by left]. split; [by left|]. split; [done|]. by left.
Qed.

(** A node below one of a tree that has grown. *)

Lemma grown_more tr fe ps c i ns i' tr2 :
  grown tr (dir_entry ps i) ps ns i' tr2 -> ps <> [] -> i = (fe_iNode fe + 1)%Z -> tr !! (ps ++ [c]) = None -> Path.plain c -> inode_ok (fe_iNode fe) ->
  (forall ds x, tr !! ds = Some x -> (fe_iNode x < fe_iNode fe)%Z) -> fe_fullPath fe = Path.path_of rooted (ps ++ [c]) ->
  grown tr fe (ps ++ [c]) ((ps ++ [c], mkNode i fe) :: ns) i' (<[ps ++ [c] := fe]> tr2).
Proof.
  intros [Hok Hsub He Hl Hi Hnd Hn Hnew] Hps Hii Hnone Hc Hr Hlt Hpath. change (fe_iNode (dir_entry ps i)) with i in *.
  assert (Hlong : ~ (ps ++ [c]) `prefix_of` ps) by (intros H%prefix_length; rewrite length_app in H; cbn in H; lia).
  assert (Hnone2 : tr2 !! (ps ++ [c]) = None).
  { apply eq_None_not_Some. intros [x Hx]. destruct (Hnew _ _ Hx) as [H|(_ & H & _)]; [by rewrite Hnone in H|done]. }
  assert (Hsame : forall ds x, tr2 !! ds = Some x -> <[ps ++ [c] := fe]> tr2 !! ds = Some x).
  { intros ds x Hx. rewrite lookup_insert_ne; [done|]. intros <-. by rewrite Hnone2 in Hx. }
  assert (Hnps : ps ++ [c] ∉ ns.*1).
  { intros ([ds n] & E & Hin)%list_elem_of_fmap. cbn in E. subst ds. destruct (Hn _ _ Hin) as (_ & Hx & _). by rewrite Hnone2 in Hx. }
  split.
  - eapply tree_ok_insert; try done. intros ds x Hx. destruct (Hi _ _ Hx) as [H|H]; [specialize (Hlt _ _ H)|]; lia.
  - etrans; [exact Hsub|]. by apply insert_subseteq.
  - apply lookup_insert_eq.
  - rewrite length_app. cbn. lia.
  - intros ds x. rewrite lookup_insert_Some. intros [[_ <-]|[_ H]]; [right; lia|]. destruct (Hi _ _ H); [by left|right; lia].
  - rewrite fmap_cons. by constructor.
  - intros ds n [[= -> ->]|Hin]%elem_of_cons.
    + split; [done|]. split; [apply lookup_insert_eq|]. exists ps, c, (dir_entry ps i). split_and!; [done|by apply Hsame|done].
    + destruct (Hn _ _ Hin) as (H1 & H2 & qs & c1 & d & H3 & H4 & H5). split; [done|]. split; [by apply Hsame|]. exists qs, c1, d. split_and!; [done|by apply Hsame|done].
  - intros ds x. rewrite lookup_insert_Some. intros [[<- <-]|[Hne H]].
    + right. split; [rewrite fmap_cons; by left|]. split; [done|]. by left.
    + destruct (Hnew _ _ H) as [?|(Hin & Hp & Hx)]; [by left|]. right. split; [rewrite fmap_cons; by right|]. split; [by apply prefix_app_r|]. right. split; [done|].
      destruct Hx as [[-> ->]|[_ ?]]; [by exists i|done].
Qed.

Lemma new_nodes_grow tr : tree_ok tr -> forall rcs fe,
  rcs <> [] -> Forall Path.plain rcs -> tr !! rev rcs = None -> fe_fullPath fe = Path.path_of rooted (rev rcs) ->
  (forall ds x, tr !! ds = Some x -> (fe_iNode x < fe_iNode fe)%Z) -> (0 <= fe_iNode fe)%Z -> (fe_iNode fe + Z.of_nat (length rcs) <= 2 ^ 64)%Z ->
  (forall ds c d, rev rcs = ds ++ c -> c <> [] -> tr !! ds = Some d -> is_directory d) ->
  exists tr2, grown tr fe (rev rcs) (new_nodes tr fe rcs (fe_iNode fe)).1 (new_nodes tr fe rcs (fe_iNode fe)).2 tr2.
Proof.
  intros Hok. induction rcs as [|c rest IH]; intros fe Hne Hpl Hnone Hpath Hlt H0 Hmax Hdirs; [done|].
  apply Forall_cons in Hpl as [Hc Hrest]. cbn [rev length] in *. assert (inode_ok (fe_iNode fe)) as Hi by (unfold inode_ok; lia).
  destruct rest as [|c' rest].
  { exists (<[[] ++ [c] := fe]> tr). by apply (grown_one tr fe [] c root_entry Hok (to_root _ Hok)). }
  assert (Hrr : rev (c' :: rest) <> []) by (by apply length_rev_nonempty).
  rewrite new_nodes_step. destruct (tr !! rev (c' :: rest)) as [d|] eqn:Ed.
  { eexists. apply grown_one; try done. by eapply (Hdirs _ [c]). }
  assert (succ (fe_iNode fe) = (fe_iNode fe + 1)%Z) as Hsucc by (unfold succ, Int.uint64; apply Z.mod_small; cbn in Hmax; lia).
  destruct (IH (dir_entry (rev (c' :: rest)) (succ (fe_iNode fe)))) as [tr2 Hg]; [done|done|done|done| | | | |].
  - intros ds x Hx. cbn. specialize (Hlt _ _ Hx). lia.
  - cbn. lia.
  - cbn -[length]. rewrite Hsucc. cbn in Hmax |- *. lia.
  - intros ds x d Hds Hx. apply (Hdirs ds (x ++ [c])); [by rewrite Hds, app_assoc|by destruct x].
  - change (fe_iNode (dir_entry (rev (c' :: rest)) (succ (fe_iNode fe)))) with (succ (fe_iNode fe)) in Hg.
    destruct (new_nodes tr _ (c' :: rest) (succ (fe_iNode fe))) as [ns i'] eqn:En. cbn [fst snd] in *. eexists. by eapply grown_more.
Qed.

(** The nodes are inserted, one after the other. *)

Lemma add_nodes_holds tr ns : tree_ok tr -> forall D fs, holds tr D fs -> NoDup ns.*1 ->
  (forall ds n, (ds, n) ∈ ns -> ~ D ds /\ tr !! ds = Some (na_FsEntry n) /\ exists ps c d, ds = ps ++ [c] /\ tr !! ps = Some d /\ na_parentINode n = fe_iNode d) ->
  exists fs', populateFSAddNodes ns.*2 fs = Ok fs' /\ holds tr (fun x => D x \/ x ∈ ns.*1) fs'.
Proof.
  intros Hok. induction ns as [|[ds n] ns IH]; intros D fs Hh Hnd Hn.
  { exists fs. split; [done|]. eapply holds_iff; [|exact Hh]. intros cs. split; [by left|]. by intros [?|?%elem_of_nil]. }
  rewrite fmap_cons in Hnd. apply NoDup_cons in Hnd as [Hni Hnd]. destruct (Hn ds n ltac:(left)) as (HD & Hat & ps & c & d & -> & Hd & Hp).
  destruct (insert_node_holds tr D fs ps c d (na_FsEntry n) Hok Hh HD Hd Hat) as (fs1 & E1 & Hh1).
  destruct (IH _ fs1 Hh1 Hnd) as (fs2 & E2 & Hh2).
  - intros ds n' Hin. destruct (Hn ds n' ltac:(by right)) as (HD' & H). split; [|done]. intros [?|Hx]; [done|]. subst ds. apply Hni. apply list_elem_of_fmap. by exists (ps ++ [c], n').
  - exists fs2. split.
    + rewrite fmap_cons. cbn [populateFSAddNodes snd]. destruct n as [p fe]. cbn in Hp, E1 |- *. subst p. unfold mbind, res_bind. by rewrite E1.
    + eapply holds_iff; [|exact Hh2]. intros cs. rewrite fmap_cons, elem_of_cons. cbn. unfold now. tauto.
Qed.

End tree.

End FuseRO.
