(* ===== verification/FuseMount.v ===== *)
(** * What a mounted bundle shows (pkg/fuse: fs_ro_ops.go)

    The tree that populateFS builds from the entries of a bundle: every file at
    its path, the directories in between, and nothing else. Paths are resolved
    the way the kernel does it, one LookUpInode per component; a directory is
    listed by calls of ReadDir, each from the offset of the last entry of the
    call before. *)

From S2P Require Import Prelude GoLib Errors Radix Storage Model CafsKeys Lru CafsReader CafsFs FuseCommon FuseRO.

Module FuseMount.
Import Model Storage CafsKeys Lru FuseCommon FuseRO.

(** ** The kernel's side *)

Section client.
Context {T : Type -> Type} `{HRT : !Radix T}.

Fixpoint resolve (fs : readOnlyFs T) (i : InodeID) (cs : list string) : res InodeID :=
  match cs with
  | [] => Ok i
  | c :: cs' => '(j, _) ← LookUpInode fs i c; resolve fs j cs'
  end.

Fixpoint list_dir (direntSize : Dirent -> nat) (room : nat) (fs : readOnlyFs T) (i : InodeID) (fuel : nat) (offset : Z) : res (list Dirent) :=
  match fuel with
  | O => Panic "no result within the fuel"
  | Datatypes.S fuel' =>
      page ← ReadDir direntSize fs i offset room;
      match last page with
      | None => Ok []
      | Some d => rest ← list_dir direntSize room fs i fuel' (de_Offset d); Ok (page ++ rest)
      end
  end.

End client.

(** ** Bundles that can be mounted *)

Section mounts.
Context {T : Type -> Type} `{HRT : !Radix T, HRL : !RadixLaws T}.
Variables (t : Time.Time) (rooted : bool).

Definition components (e : BundleEntry) : list string := (if rooted then tail else id) (Strings.Split (NameWithPath e)).

Record mountable (es : list BundleEntry) : Prop := {
  mt_names e : e ∈ es -> NameWithPath e = Path.path_of rooted (components e) /\ components e <> [] /\ Forall Path.plain (components e);
  mt_files e : e ∈ es -> Hash e <> "";
  mt_NoDup : NoDup (components <$> es);
  mt_leaf e e' : e ∈ es -> e' ∈ es -> components e `prefix_of` components e' -> components e = components e';
  mt_count : (firstINode + Z.of_nat (sum_list_with (fun e => length (components e)) es) < 2 ^ 64)%Z
}.

Definition file_entry (e : BundleEntry) (i : InodeID) : FsEntry := newFsEntry e t i fileLinkCount.

Record describes (tr : gmap (list string) FsEntry) (es : list BundleEntry) : Prop := {
  ds_files e : e ∈ es -> exists i, tr !! components e = Some (file_entry e i);
  ds_only cs fe : tr !! cs = Some fe -> cs <> [] ->
    exists e i, e ∈ es /\ ((cs = components e /\ fe = file_entry e i) \/ (cs `prefix_of` components e /\ cs <> components e /\ fe = dir_entry t rooted cs i))
}.

Definition all (tr : gmap (list string) FsEntry) (cs : list string) : Prop := is_Some (tr !! cs).

(** ** The root *)

Lemma root_ok : tree_ok t rooted {[ [] := root_entry t ]}.
Proof.
  split.
  - apply lookup_singleton_eq.
  - intros cs c fe [E _]%lookup_singleton_Some. by destruct cs.
  - by intros cs cs' fe fe' [<- _]%lookup_singleton_Some [<- _]%lookup_singleton_Some.
  - by intros cs fe [_ <-]%lookup_singleton_Some.
  - intros cs fe [<- _]%lookup_singleton_Some. constructor.
  - by intros cs fe [<- _]%lookup_singleton_Some.
Qed.

Lemma root_holds : exists fs, insertDirEntry RootInodeID (root_entry t) (defaultReadOnlyFS (T := T)) = Ok fs /\
  holds rooted {[ [] := root_entry t ]} (all {[ [] := root_entry t ]}) fs.
Proof.
  unfold insertDirEntry, defaultReadOnlyFS. cbn [ro_fsDirStore ro_fsEntryStore]. unfold mbind, res_bind.
  rewrite insert_new_ok by apply r_Get_New. rewrite insert_new_ok by apply r_Get_New. rewrite decide_False by (intros []; done).
  eexists. split; [done|]. unfold all. split; cbn [ro_lookupTree ro_fsEntryStore ro_fsDirStore ro_readDirMap].
  - intros i c fe Hi. rewrite r_Get_New. split; [done|]. intros (cs & d & [x [E _]%lookup_singleton_Some] & _). by destruct cs.
  - intros i fe Hi. destruct (decide (i = RootInodeID)) as [->|Hne].
    + cbn. rewrite r_Get_Insert. split.
      * intros [= <-]. exists []. rewrite lookup_singleton_eq. split_and!; [by eexists|done..].
      * intros (cs & _ & [<- <-]%lookup_singleton_Some & _). done.
    + rewrite r_Get_Insert_ne by (cbn; intros ?%formKey_inj; [by subst|done..]). rewrite r_Get_New. split; [done|].
      intros (cs & _ & [<- <-]%lookup_singleton_Some & E). by destruct Hne.
  - intros cs fe Hn Hp. rewrite r_Get_Insert_ne, r_Get_New.
    + split; [done|]. by intros (_ & [<- _]%lookup_singleton_Some & _).
    + intros E%list_byte_of_string_inj. change (fe_fullPath (root_entry t)) with "/" in E.
      pose proof (Path.Split_path_of rooted cs Hn Hp) as Hs. rewrite <- E in Hs. cbn in Hs.
      destruct cs as [|x cs]; [done|]. apply Forall_cons in Hp as [(Hx & _) _]. destruct rooted; cbn in Hs; naive_solver.
  - intros i k d. rewrite lookup_empty. done.
  - intros i. rewrite lookup_empty. constructor.
  - intros i ino name ty. rewrite lookup_empty. split; [by intros [? ?%elem_of_nil]|].
    intros (cs & d & fe & [x [E _]%lookup_singleton_Some] & _). by destruct cs.
  - intros i. by rewrite lookup_empty.
Qed.

(** ** The entries *)

Lemma new_path tr es1 e es2 : mountable (es1 ++ e :: es2) -> describes tr es1 -> tr !! components e = None.
Proof.
  intros Hm Hd. apply eq_None_not_Some. intros [fe Hfe].
  assert (He : e ∈ es1 ++ e :: es2) by (apply elem_of_app; right; left). destruct (mt_names _ Hm e He) as (_ & Hne & _).
  destruct (ds_only _ _ Hd _ _ Hfe Hne) as (e' & i & He' & [[Heq _]|(Hp & Hneq & _)]).
  - pose proof (mt_NoDup _ Hm) as Hnd. rewrite fmap_app, fmap_cons in Hnd. apply NoDup_app in Hnd as (_ & Hnd & _).
    destruct (Hnd (components e')); [by apply list_elem_of_fmap_2|]. rewrite <- Heq. left.
  - destruct Hneq. apply (mt_leaf _ Hm); [done| |done]. apply elem_of_app. by left.
Qed.

Lemma new_parents tr es1 e es2 ds x d : tree_ok t rooted tr -> mountable (es1 ++ e :: es2) -> describes tr es1 ->
  components e = ds ++ x -> x <> [] -> tr !! ds = Some d -> is_directory d.
Proof.
  intros Hok Hm Hd Hds Hx Hat. destruct ds as [|c ds]; [by rewrite (to_root _ _ _ Hok) in Hat; simplify_eq|].
  destruct (ds_only _ _ Hd _ _ Hat) as (e' & i & He' & [[Heq _]|(_ & _ & ->)]); [done| |done].
  assert (components e' = components e) as Hee.
  { apply (mt_leaf _ Hm); [apply elem_of_app; by left|apply elem_of_app; right; left|]. rewrite <- Heq, Hds. by apply prefix_app_r. }
  rewrite <- Hee, <- Heq in Hds. rewrite <- (app_nil_r (c :: ds)) in Hds at 1. by apply app_inv_head in Hds as <-.
Qed.

Lemma Split_length s : length (Strings.Split s) <= Datatypes.S (String.length s).
Proof.
  induction s as [|c s IH]; [done|]. cbn. case_decide; [cbn; lia|]. destruct (Strings.Split s); cbn in *; lia.
Qed.

Lemma components_length e : length (components e) <= Datatypes.S (String.length (NameWithPath e)).
Proof.
  pose proof (Split_length (NameWithPath e)). unfold components, id. destruct rooted; [|done]. destruct (Strings.Split _); cbn in *; lia.
Qed.

(** The nodes of one entry. *)

Lemma entry_nodes tr fs e i : tree_ok t rooted tr -> holds rooted tr (all tr) fs ->
  NameWithPath e = Path.path_of rooted (components e) -> components e <> [] -> Forall Path.plain (components e) -> tr !! components e = None ->
  (forall ds x d, components e = ds ++ x -> x <> [] -> tr !! ds = Some d -> is_directory d) ->
  (forall ds x, tr !! ds = Some x -> (fe_iNode x <= i)%Z) -> (0 <= i)%Z -> (i + Z.of_nat (length (components e)) < 2 ^ 64)%Z ->
  exists ns i' tr2 fs', WithNodesFromEntry (ro_fsDirStore fs) t e i = Some (ns.*2, i') /\ grown t rooted tr (file_entry e (i + 1)%Z) (components e) ns i' tr2 /\
    populateFSAddNodes ns.*2 fs = Ok fs' /\ holds rooted tr2 (all tr2) fs'.
Proof.
  intros Hok Hh Hname Hne Hpl Hnone Hdirs Hle H0 Hmax. set (rcs := rev (components e)).
  assert (Hrev : components e = rev rcs) by (symmetry; apply rev_involutive).
  assert (Hsucc : succ i = (i + 1)%Z) by (unfold succ, Int.uint64; apply Z.mod_small; destruct (components e); [done|cbn in Hmax; lia]).
  assert (Hlen : length rcs = length (components e)) by apply length_rev.
  assert (rcs <> []) as Hrne by (by apply length_rev_nonempty). assert (Forall Path.plain rcs) as Hrpl by (by apply Forall_rev).
  destruct (new_nodes_grow t rooted tr Hok rcs (file_entry e (i + 1)%Z)) as [tr2 Hg]; [done|done|by rewrite <- Hrev|cbn; by rewrite <- Hrev| |cbn; lia|cbn -[length]; lia|by rewrite <- Hrev|].
  { intros ds x Hx. cbn. specialize (Hle _ _ Hx). lia. }
  rewrite <- Hrev in Hg. change (fe_iNode (file_entry e (i + 1)%Z)) with (i + 1)%Z in Hg.
  set (nn := new_nodes t rooted tr (file_entry e (i + 1)%Z) rcs (i + 1)%Z) in *.
  assert (Hsub : forall cs, all tr cs -> all tr2 cs) by (intros cs [x Hx]; exists x; eapply lookup_weaken; [done|apply Hg]).
  destruct (add_nodes_holds t rooted tr2 nn.1 (gr_ok _ _ _ _ _ _ _ _ Hg) (all tr) fs) as (fs' & Efs & Hh').
  - eapply holds_grows; [done|apply Hg|by intros cs|done].
  - apply Hg.
  - intros ds n Hin. destruct (gr_nodes _ _ _ _ _ _ _ _ Hg _ _ Hin) as (H1 & H2). split; [|done]. intros [x Hx]. by rewrite H1 in Hx.
  - exists nn.1, nn.2, tr2, fs'. split_and!; [|done|done|].
    + unfold WithNodesFromEntry. rewrite Hsucc. fold (file_entry e (i + 1)%Z). rewrite Hname, Hrev.
      rewrite (nodes_loop_eq t rooted tr fs Hh); [done|done|done| |by rewrite <- Hrev]. rewrite Hlen, <- Hrev, <- Hname. apply components_length.
    + eapply holds_iff; [|exact Hh']. intros cs. split.
      * intros [?|([ds n] & -> & Hin)%list_elem_of_fmap]; [by apply Hsub|]. destruct (gr_nodes _ _ _ _ _ _ _ _ Hg _ _ Hin) as (_ & H2 & _). by eexists.
      * intros [x Hx]. destruct (gr_new _ _ _ _ _ _ _ _ Hg _ _ Hx) as [?|(? & _)]; [left; by eexists|by right].
Qed.

Lemma describes_grown tr es e i ns i' tr2 : describes tr es -> grown t rooted tr (file_entry e i) (components e) ns i' tr2 -> describes tr2 (es ++ [e]).
Proof.
  intros Hd Hg. split.
  - intros e' [He'|He'%list_elem_of_singleton]%elem_of_app.
    + destruct (ds_files _ _ Hd e' He') as [j Hj]. exists j. eapply lookup_weaken; [done|apply Hg].
    + subst e'. exists i. apply Hg.
  - intros cs fe Hfe Hne. destruct (gr_new _ _ _ _ _ _ _ _ Hg _ _ Hfe) as [H|(_ & Hp & [[-> ->]|[Hneq [j ->]]])].
    + destruct (ds_only _ _ Hd _ _ H Hne) as (e' & j & He' & H'). exists e', j. split; [apply elem_of_app; by left|done].
    + exists e, i. split; [apply elem_of_app; right; left|]. by left.
    + exists e, j. split; [apply elem_of_app; right; left|]. by right.
Qed.

Lemma entries_holds es : forall es1 tr fs i, mountable (es1 ++ es) -> tree_ok t rooted tr -> describes tr es1 -> holds rooted tr (all tr) fs ->
  (forall ds x, tr !! ds = Some x -> (fe_iNode x <= i)%Z) -> (0 <= i)%Z -> (i + Z.of_nat (sum_list_with (fun e => length (components e)) es) < 2 ^ 64)%Z ->
  exists tr' fs', populateFSAddBundleEntries t es i fs = Ok fs' /\ tree_ok t rooted tr' /\ describes tr' (es1 ++ es) /\ holds rooted tr' (all tr') fs'.
Proof.
  induction es as [|e es IH]; intros es1 tr fs i Hm Hok Hd Hh Hle H0 Hmax; [exists tr, fs; by rewrite app_nil_r|]. cbn in Hmax.
  destruct (mt_names _ Hm e) as (Hname & Hne & Hpl); [apply elem_of_app; right; left|].
  destruct (entry_nodes tr fs e i) as (ns & i' & tr2 & fs2 & En & Hg & Ea & Hh2); try done; [by eapply new_path|intros; by eapply new_parents|lia|].
  pose proof (gr_last _ _ _ _ _ _ _ _ Hg) as Hl. cbn in Hl.
  destruct (IH (es1 ++ [e]) tr2 fs2 i') as (tr' & fs' & E' & H'); [by rewrite <- app_assoc|apply Hg|by eapply describes_grown|done| |lia|lia|].
  - intros ds x Hx. destruct (gr_inodes _ _ _ _ _ _ _ _ Hg _ _ Hx) as [H|H]; [specialize (Hle _ _ H)|]; cbn in *; lia.
  - exists tr', fs'. rewrite <- app_assoc in H'. split; [|done]. cbn [populateFSAddBundleEntries]. rewrite En. unfold mbind, res_bind. by rewrite Ea.
Qed.

(** ** The mounted file system *)

Record mounted (tr : gmap (list string) FsEntry) (fs : readOnlyFs T) : Prop := {
  md_ok : tree_ok t rooted tr;
  md_lookup i c fe : inode_ok i -> r_Get (formLookupKey i c) (ro_lookupTree fs) = Some fe <->
    exists cs d, tr !! cs = Some d /\ fe_iNode d = i /\ tr !! (cs ++ [c]) = Some fe;
  md_entry i fe : inode_ok i -> r_Get (formKey i) (ro_fsEntryStore fs) = Some fe <-> exists cs, tr !! cs = Some fe /\ fe_iNode fe = i;
  md_offsets i k d : default [] (ro_readDirMap fs !! i) !! k = Some d -> de_Offset d = (Z.of_nat k + 1)%Z;
  md_names i : NoDup (de_Name <$> default [] (ro_readDirMap fs !! i));
  md_children i ino name ty : (exists off, mkDirent off ino name ty ∈ default [] (ro_readDirMap fs !! i)) <->
    exists cs d fe, tr !! cs = Some d /\ fe_iNode d = i /\ tr !! (cs ++ [name]) = Some fe /\ ino = fe_iNode fe /\ ty = type_of fe;
  md_nonempty i : ro_readDirMap fs !! i <> Some []
}.

Lemma populateFS_mounted es : mountable es -> exists tr fs, populateFS (T := T) t es = Ok fs /\ describes tr es /\ mounted tr fs.
Proof.
  intros Hm. destruct root_holds as (fs0 & E0 & Hh0).
  destruct (entries_holds es [] _ fs0 firstINode Hm root_ok) as (tr & fs & E & Hok & Hd & Hh); [|done| |done|apply Hm|].
  { split; [by intros e ?%elem_of_nil|]. by intros cs fe [<- _]%lookup_singleton_Some. }
  { by intros ds x [_ <-]%lookup_singleton_Some. }
  exists tr. eexists. split; [|split; [exact Hd|]].
  - unfold populateFS. fold (root_entry t). unfold mbind, res_bind. rewrite E0, E. reflexivity.
  - destruct Hh as [H1 H2 _ H4 H5 H6 H7]. unfold all in H1, H2, H6. split; cbn [ro_lookupTree ro_fsEntryStore ro_readDirMap]; [done| | |done|done| |done].
    + intros i c fe Hi. rewrite H1 by done. split; [intros (cs & d & _ & H); by exists cs, d|].
      intros (cs & d & Hd' & Hi' & H). exists cs, d. split; [by eexists|done].
    + intros i fe Hi. rewrite H2 by done. split; [intros (cs & _ & H); by exists cs|]. intros (cs & H & Hi'). exists cs. split; [by eexists|done].
    + intros i ino name ty. rewrite H6. split; [intros (cs & d & fe & _ & H); by exists cs, d, fe|].
      intros (cs & d & fe & Hd' & Hi' & H & H'). exists cs, d, fe. split; [by eexists|done].
Qed.

Section shown.
Variables (tr : gmap (list string) FsEntry) (fs : readOnlyFs T).
Hypothesis fs_mounted : mounted tr fs.

Lemma LookUpInode_tree cs d c : tr !! cs = Some d ->
  LookUpInode fs (fe_iNode d) c = match tr !! (cs ++ [c]) with Some fe => Ok (fe_iNode fe, fe_attributes fe) | None => Err ENOENT end.
Proof.
  intros Hd. pose proof (md_ok _ _ fs_mounted) as Hok. pose proof (md_lookup _ _ fs_mounted (fe_iNode d) c) as Hl. specialize (fun fe => Hl fe (to_range _ _ _ Hok _ _ Hd)).
  unfold LookUpInode. destruct (tr !! (cs ++ [c])) as [fe|] eqn:E; [by rewrite (proj2 (Hl fe)) by (by exists cs, d)|].
  destruct (r_Get _ _) as [fe|]; [|done]. destruct (proj1 (Hl fe) eq_refl) as (cs' & d' & Hd' & Hi & H). rewrite (to_inj _ _ _ Hok _ _ _ _ Hd' Hd Hi) in H. congruence.
Qed.

Lemma resolve_tree cs' : forall cs d, tr !! cs = Some d ->
  resolve fs (fe_iNode d) cs' = match tr !! (cs ++ cs') with Some fe => Ok (fe_iNode fe) | None => Err ENOENT end.
Proof.
  induction cs' as [|c cs' IH]; intros cs d Hd; [by rewrite app_nil_r, Hd|].
  cbn [resolve]. rewrite (LookUpInode_tree cs) by done. destruct (tr !! (cs ++ [c])) as [fe|] eqn:E.
  - unfold mbind, res_bind. rewrite (IH (cs ++ [c])) by done. by rewrite <- app_assoc.
  - unfold mbind, res_bind. destruct (tr !! (cs ++ c :: cs')) as [fe|] eqn:E2; [exfalso|done]. rewrite cons_middle, app_assoc in E2.
    destruct cs' as [|x cs']; [rewrite app_nil_r in E2; congruence|].
    destruct (tree_ok_prefix _ _ _ _ _ _ (md_ok _ _ fs_mounted) E2 ltac:(done)) as (d' & Hd' & _). congruence.
Qed.

Lemma resolve_root cs : resolve fs RootInodeID cs = match tr !! cs with Some fe => Ok (fe_iNode fe) | None => Err ENOENT end.
Proof. apply (resolve_tree cs [] (root_entry t)). apply (to_root _ _ _ (md_ok _ _ fs_mounted)). Qed.

Lemma resolve_Ok cs i : resolve fs RootInodeID cs = Ok i -> exists fe, tr !! cs = Some fe /\ fe_iNode fe = i.
Proof. rewrite resolve_root. destruct (tr !! cs) as [fe|]; [|done]. intros [= <-]. by exists fe. Qed.

Lemma entry_tree cs fe : tr !! cs = Some fe -> r_Get (formKey (fe_iNode fe)) (ro_fsEntryStore fs) = Some fe.
Proof. intros H. apply (md_entry _ _ fs_mounted); [by eapply (to_range _ _ _ (md_ok _ _ fs_mounted))|]. by exists cs. Qed.

Lemma resolve_inj cs cs' i : resolve fs RootInodeID cs = Ok i -> resolve fs RootInodeID cs' = Ok i -> cs = cs'.
Proof.
  intros (fe & H & Hi)%resolve_Ok (fe' & H' & Hi')%resolve_Ok. eapply (to_inj _ _ _ (md_ok _ _ fs_mounted)); [done|done|congruence].
Qed.

(** Pages of a listing. *)

Lemma list_dir_tree direntSize room i children : ro_readDirMap fs !! i = Some children -> (forall d, d ∈ children -> direntSize d <= room) ->
  forall fuel k, k <= length children -> length children - k < fuel -> list_dir direntSize room fs i fuel (Z.of_nat k) = Ok (drop k children).
Proof.
  intros Hc Hfit. assert (forall k d, children !! k = Some d -> de_Offset d = (Z.of_nat k + 1)%Z) as Ho.
  { intros k d Hd. apply (md_offsets _ _ fs_mounted i). by rewrite Hc. }
  induction fuel as [|fuel IH]; intros k Hk Hf; [lia|]. cbn [list_dir]. unfold ReadDir. rewrite Hc.
  rewrite (proj2 (Z.ltb_ge _ _)) by lia. rewrite (proj2 (Z.ltb_ge _ _)) by lia. rewrite Nat2Z.id. unfold mbind, res_bind.
  pose proof (write_dirents_prefix direntSize room (drop k children)) as [rest Hpage].
  destruct (last (write_dirents direntSize room (drop k children))) as [d|] eqn:El.
  - set (page := write_dirents direntSize room (drop k children)) in *.
    assert (0 < length page) as Hpos by (destruct page; cbn in *; [done|lia]).
    assert (k + length page <= length children) as Hle by (apply (f_equal length) in Hpage; rewrite length_drop, length_app in Hpage; lia).
    rewrite last_lookup in El. assert (children !! (k + Nat.pred (length page)) = Some d) as Hd.
    { rewrite <- lookup_drop, Hpage. by rewrite lookup_app_l by lia. }
    rewrite (Ho _ _ Hd). replace (Z.of_nat (k + Nat.pred (length page)) + 1)%Z with (Z.of_nat (k + length page)) by lia.
    rewrite IH by lia. clearbody page. rewrite <- drop_drop, Hpage. by rewrite drop_app_length.
  - apply last_None in El. destruct (drop k children) as [|d ds] eqn:Ed; [done|]. cbn in El. rewrite decide_True in El; [done|].
    apply Hfit. apply (list_elem_of_lookup_2 _ k). rewrite <- (Nat.add_0_r k), <- lookup_drop. by rewrite Ed.
Qed.

End shown.

(** The nodes that are directories, and their children. *)

Lemma directory_iff tr es cs fe : mountable es -> tree_ok t rooted tr -> describes tr es -> tr !! cs = Some fe ->
  (is_directory fe <-> isDir fe = true) /\ (is_directory fe <-> cs = [] \/ exists e, e ∈ es /\ cs `prefix_of` components e /\ cs <> components e).
Proof.
  intros Hm Hok Hd Hfe. destruct cs as [|c cs].
  { rewrite (to_root _ _ _ Hok) in Hfe. injection Hfe as <-. split; [done|]. split; [by left|done]. }
  destruct (ds_only _ _ Hd _ _ Hfe ltac:(done)) as (e & i & He & [[E ->]|(Hp & Hne & ->)]).
  - split; (split; [done|]).
    + unfold isDir. cbn. intros H%bool_decide_eq_true. by destruct (mt_files _ Hm e He).
    + intros [?|(e' & He' & Hp & Hne)]; [done|]. destruct Hne. rewrite E. apply (mt_leaf _ Hm); [done|done|by rewrite <- E].
  - split; [done|]. split; [|done]. intros _. right. by exists e.
Qed.

Lemma directory_child tr es cs fe : mountable es -> es <> [] -> tree_ok t rooted tr -> describes tr es -> tr !! cs = Some fe -> is_directory fe ->
  exists c, is_Some (tr !! (cs ++ [c])).
Proof.
  intros Hm Hes Hok Hd Hfe Hdir.
  assert (exists e, e ∈ es /\ cs `prefix_of` components e /\ cs <> components e) as (e & He & [x Hx] & Hne).
  { apply (directory_iff tr es cs fe) in Hdir as [->|?]; [|done..]. destruct es as [|e es]; [done|]. exists e. split; [left|]. split; [apply prefix_nil|].
    intros E. destruct (mt_names _ Hm e ltac:(left)) as (_ & H & _). by destruct H. }
  destruct (ds_files _ _ Hd e He) as [i Hi]. destruct x as [|c x]; [rewrite app_nil_r in Hx; by destruct Hne|]. exists c.
  rewrite Hx, cons_middle, app_assoc in Hi. destruct x as [|c' x]; [rewrite app_nil_r in Hi; by eexists|].
  destruct (tree_ok_prefix _ _ _ _ _ _ Hok Hi ltac:(done)) as (d & Hd' & _). by eexists.
Qed.

Lemma child_component tr es cs c fe : describes tr es -> tr !! (cs ++ [c]) = Some fe -> exists e, e ∈ es /\ c ∈ components e.
Proof.
  intros Hd Hfe. destruct (ds_only _ _ Hd _ _ Hfe ltac:(by destruct cs)) as (e & i & He & [[E _]|([x E] & _)]); exists e; (split; [done|]).
  - rewrite <- E. apply elem_of_app. right. left.
  - rewrite E, !elem_of_app. left. right. left.
Qed.

End mounts.

(** ** What is shown *)

Section theorems.
Context {T : Type -> Type} `{HRT : !Radix T, HRL : !RadixLaws T}.
Variables (t : Time.Time) (rooted : bool).

(** C17: the mount of a bundle shows its files and nothing else. Every entry is
    found at the components of its name, with its size and the modes of a
    read-only file; every proper prefix of such a path, the root included, is a
    directory that can be opened; no other path exists. Distinct paths have
    distinct inodes. *)
Theorem populateFS_correct es : mountable rooted es -> exists fs : readOnlyFs T, populateFS t es = Ok fs /\
  (forall e, e ∈ es -> exists i, resolve fs RootInodeID (components rooted e) = Ok i /\
     GetInodeAttributes fs i = Ok (mkAttr (be_Size e) fileLinkCount fileReadOnlyMode t t t t 1020 2000) /\ OpenDir fs i = Err ENOENT) /\
  (forall cs, cs = [] \/ (exists e, e ∈ es /\ cs `prefix_of` components rooted e /\ cs <> components rooted e) ->
     exists i, resolve fs RootInodeID cs = Ok i /\ GetInodeAttributes fs i = Ok (mkAttr 2048 dirLinkCount dirReadOnlyMode t t t t 1020 2000) /\
       OpenDir fs i = Ok tt) /\
  (forall cs, cs <> [] -> (forall e, e ∈ es -> ~ cs `prefix_of` components rooted e) -> resolve fs RootInodeID cs = Err ENOENT) /\
  (forall cs cs' i, resolve fs RootInodeID cs = Ok i -> resolve fs RootInodeID cs' = Ok i -> cs = cs').
Proof.
  intros Hm. destruct (populateFS_mounted t rooted es Hm) as (tr & fs & E & Hd & Hmt). pose proof (md_ok _ _ _ _ Hmt) as Hok.
  exists fs. split; [done|]. split_and!.
  - intros e He. destruct (ds_files _ _ _ _ Hd e He) as [i Hi]. exists i. rewrite (resolve_root _ _ _ _ Hmt), Hi. split; [done|].
    unfold GetInodeAttributes, OpenDir. rewrite (entry_tree _ _ _ _ Hmt _ _ Hi : r_Get (formKey i) _ = _).
    unfold isDir. cbn. pose proof (mt_files _ _ Hm e He) as Hh. unfold file_entry, newFsEntry. rewrite decide_False by done.
    by rewrite bool_decide_eq_false_2.
  - intros cs Hcs.
    assert (exists fe, tr !! cs = Some fe /\ (cs = [] \/ exists i, fe = dir_entry t rooted cs i)) as (fe & Hfe & Hx).
    { destruct Hcs as [->|(e & He & [x Hx] & Hne)]; [exists (root_entry t); split; [apply Hok|by left]|]. destruct (ds_files _ _ _ _ Hd e He) as [i Hi]. rewrite Hx in Hi.
      destruct (tree_ok_prefix _ _ _ _ _ _ Hok Hi) as (d & Hd' & Hdir); [intros ->; by rewrite app_nil_r in Hx|]. exists d. split; [done|].
      destruct cs as [|c cs]; [by left|right]. destruct (ds_only _ _ _ _ Hd _ _ Hd' ltac:(done)) as (e' & j & _ & [[_ ->]|(_ & _ & ->)]); [done|by exists j]. }
    exists (fe_iNode fe). rewrite (resolve_root _ _ _ _ Hmt), Hfe. split; [done|]. unfold GetInodeAttributes, OpenDir. rewrite (entry_tree _ _ _ _ Hmt _ _ Hfe).
    destruct Hx as [->|[i ->]]; [|done]. rewrite (to_root _ _ _ Hok) in Hfe. by injection Hfe as <-.
  - intros cs Hne Hno. rewrite (resolve_root _ _ _ _ Hmt). destruct (tr !! cs) as [fe|] eqn:Hfe; [exfalso|done].
    destruct (ds_only _ _ _ _ Hd _ _ Hfe Hne) as (e & i & He & [[-> _]|(Hp & _)]); by eapply Hno.
  - intros cs cs' i. by apply (resolve_inj _ _ _ _ Hmt).
Qed.

(** C22: listing a directory of a mounted bundle, call after call from the offset
    of the last entry, ends and returns each child once: the names that can be
    looked up below it, with their inodes and their types. The buffer has to
    have room for one entry. *)
Theorem list_dir_correct es (fs : readOnlyFs T) cs i direntSize room :
  mountable rooted es -> es <> [] -> populateFS t es = Ok fs -> resolve fs RootInodeID cs = Ok i -> OpenDir fs i = Ok tt ->
  (forall e c off ino ty, e ∈ es -> c ∈ components rooted e -> direntSize (mkDirent off ino c ty) <= room) ->
  exists ds, (forall fuel, length ds < fuel -> list_dir direntSize room fs i fuel 0 = Ok ds) /\ NoDup (de_Name <$> ds) /\
    (forall ino name ty, (exists off, mkDirent off ino name ty ∈ ds) <->
       resolve fs RootInodeID (cs ++ [name]) = Ok ino /\ (ty = DT_Directory <-> OpenDir fs ino = Ok tt)).
Proof.
  intros Hm Hes E Hr Ho Hfit. destruct (populateFS_mounted t rooted es Hm) as (tr & fs' & E' & Hd & Hmt). rewrite E in E'. injection E' as <-.
  pose proof (md_ok _ _ _ _ Hmt) as Hok. destruct (resolve_Ok _ _ _ _ Hmt _ _ Hr) as (fe & Hfe & <-).
  assert (Hdirs : forall ds x, tr !! ds = Some x -> OpenDir fs (fe_iNode x) = Ok tt <-> is_directory x).
  { intros ds x Hx. rewrite (proj1 (directory_iff t rooted tr es ds x Hm Hok Hd Hx)). unfold OpenDir. rewrite (entry_tree _ _ _ _ Hmt _ _ Hx).
    by destruct (isDir x). }
  apply (Hdirs cs fe Hfe) in Ho.
  assert (exists children, ro_readDirMap fs !! fe_iNode fe = Some children) as [children Hc].
  { destruct (directory_child t rooted tr es cs fe Hm Hes Hok Hd Hfe Ho) as (c & x & Hx).
    destruct (proj2 (md_children _ _ _ _ Hmt (fe_iNode fe) (fe_iNode x) c (type_of x))) as [off Hin]; [by exists cs, fe, x|].
    destruct (ro_readDirMap fs !! fe_iNode fe) as [l|]; [by exists l|]. by apply elem_of_nil in Hin. }
  pose proof (md_children _ _ _ _ Hmt (fe_iNode fe)) as Hch. rewrite Hc in Hch. cbn [default id] in Hch.
  exists children. split_and!.
  - intros fuel Hf. rewrite (list_dir_tree _ _ _ _ Hmt direntSize room _ children Hc) with (k := 0); [done| |lia|lia].
    intros [off ino c ty] Hin. destruct (proj1 (Hch ino c ty)) as (ds & d & x & _ & _ & Hx & _); [by exists off|].
    destruct (child_component t rooted tr es ds c x Hd Hx) as (e & He & Hce). by apply (Hfit e).
  - pose proof (md_names _ _ _ _ Hmt (fe_iNode fe)) as Hn. by rewrite Hc in Hn.
  - intros ino name ty. rewrite Hch, (resolve_root _ _ _ _ Hmt). split.
    + intros (ds & d & x & Hd1 & Hi & Hx & -> & ->). rewrite (to_inj _ _ _ Hok _ _ _ _ Hd1 Hfe Hi) in Hx. rewrite Hx. split; [done|].
      rewrite (Hdirs _ _ Hx). unfold type_of, is_directory. by case_decide.
    + destruct (tr !! (cs ++ [name])) as [x|] eqn:Hx; [|by intros []]. intros [[= <-] Hty]. exists cs, fe, x. split_and!; try done.
      rewrite (Hdirs _ _ Hx) in Hty. unfold type_of, is_directory in *. destruct ty; case_decide; naive_solver.
Qed.

End theorems.

(** The root of the mount of an empty bundle can be opened, but not listed. *)

Lemma empty_bundle_root {T : Type -> Type} `{HRT : !Radix T, HRL : !RadixLaws T} t direntSize offset room :
  exists fs : readOnlyFs T, populateFS t [] = Ok fs /\ OpenDir fs RootInodeID = Ok tt /\ ReadDir direntSize fs RootInodeID offset room = Err ENOENT.
Proof.
  unfold populateFS, insertDirEntry, insert_new. cbn [fe_fullPath fe_iNode newFsEntry defaultReadOnlyFS ro_fsDirStore ro_fsEntryStore]. rewrite !r_Get_New. cbn.
  eexists. split; [reflexivity|]. unfold OpenDir, ReadDir. cbn [ro_fsEntryStore ro_readDirMap]. by rewrite r_Get_Insert.
Qed.

End FuseMount.
