(* ===== verification/FuseRead.v ===== *)
(** * Mounting a bundle and reading its files (pkg/fuse: fs.go, fs_options.go,
      bundle_read.go)

    NewReadOnlyFS downloads the metadata of a bundle, and its files unless they
    are streamed, and builds the tree of FuseRO.v. A file is read from the
    staging area or, when the mount is streamed, from the content-addressable
    file system. *)

From S2P Require Import Prelude GoLib Errors Radix Storage Model CafsKeys CafsWriter CafsFlush Lru CafsReader CafsRead CafsFs CafsIface CoreMeta Pool StoreRules CoreIndex CoreBundle CoreUpload CoreDownload CorePublish FuseCommon FuseRO FuseMount.

Module FuseRead.
Import Model Storage CafsKeys CafsFlush Lru CoreMeta CafsIface Pool StoreRules CoreIndex CoreBundle CoreUpload CoreDownload CorePublish FuseCommon FuseRO FuseMount.

(** ** Options *)

Record options : Type := mkOptions {
  o_streamed : bool;
  o_withVerifyHash : bool;
  o_lruSize : Z;
  o_prefetch : Z
}.

Definition defaultOptions : options := mkOptions false false 0 0.

Definition Option : Type := options -> options.

Definition Streaming (s : bool) : Option := fun o => mkOptions s (o_withVerifyHash o) (o_lruSize o) (o_prefetch o).

Definition CacheSize (size : Z) : Option := fun o => mkOptions (o_streamed o) (o_withVerifyHash o) size (o_prefetch o).

Definition Prefetch (ahead : Z) : Option := fun o => mkOptions (o_streamed o) (o_withVerifyHash o) (o_lruSize o) ahead.

Definition VerifyHash (enabled : bool) : Option := fun o => mkOptions (o_streamed o) enabled (o_lruSize o) (o_prefetch o).

Definition apply_options (opts : list Option) : options := fold_left (fun o bapply => bapply o) opts defaultOptions.

Definition streamOptions (o : options) (bundle : Bundle) : list CafsFs.Option :=
  let bd := b_BundleDescriptor bundle in
  [CafsFs.LeafSize (bd_LeafSize bd);
   CafsFs.LeafTruncation (bd_Version bd <? 1)%N;
   CafsFs.CacheSize (o_lruSize o);
   CafsFs.Prefetch (o_prefetch o);
   CafsFs.VerifyHash (o_withVerifyHash o)].

(** ** NewReadOnlyFS *)

Section mount.
Context {T : Type -> Type} `{HRT : !Radix T}.
Context {S C F : Type} `{HS : !Store S, HC : !Store C, HF : !Cafs S F}.
Context {HYB : Yaml BundleDescriptor} {HYE : Yaml (list BundleEntry)}.

(** The configuration of the content-addressable file system, if the mount is
    streamed, and the tree. *)

Definition NewReadOnlyFS (now : Time.Time) (opts : list Option) (es : list (event unit) * list (event fs_copy)) (bundle : Bundle)
    : R (world S C) (option CafsFs.defaultFs * readOnlyFs T) :=
  let o := apply_options opts in
  conf ← once (if o_streamed o then d ← lift (CafsFs.New (streamOptions o bundle)); mret (Some d) else mret None);
  b ← (if o_streamed o then PublishMetadata es.1 bundle else Publish now es bundle);
  once (fs ← lift (populateFS (bd_Timestamp (b_BundleDescriptor b)) (b_BundleEntries b)); mret (conf, fs)).

End mount.

(** ** Reading *)

Section read.
Context {T : Type -> Type} `{HRT : !Radix T, HRL : !RadixLaws T}.
Context {B C KC LC : Type} `{HB : !Store B, HBL : !StoreLaws B, HBR : !ReliableStore B}.
Context `{HC : !Store C, HCL : !StoreLaws C, HCR : !ReliableStore C}.
Context `{HBk : !Blake2b, HBkL : !Blake2bLaws}.
Context `{HK : !Lru KC Key (list Key), HKL : !LruLaws KC Key (list Key), HL : !Lru LC string bytes, HLL : !LruLaws LC string bytes}.
Variable cap : nat.

Lemma KeyFromString_String k : is_key k -> KeyFromString (Key_String k) = Ok k.
Proof. intros Hk. unfold KeyFromString, Key_String. rewrite Hex.DecodeString_EncodeToString. by apply NewKey_key. Qed.

(** The content of an entry can be read: from the staging area, or from the
    blobs, with caches that hold nothing that contradicts it. *)

Definition serves (conf : option CafsFs.defaultFs) (e : BundleEntry) (content : bytes) (dt : data (B := B) (C := C) (KC := KC) (LC := LC)) : Prop :=
  match conf with
  | None => objects (dt_staging dt) !! NameWithPath e = Some content
  | Some d =>
      0 < CafsFs.leafSize d <= cap /\ functional (objectBlobs (CafsFs.f_prefix d) (CafsFs.leafSize d) content) /\
      Hash e = Key_String (rootKey (CafsFs.leafSize d) content) /\
      stored (objectBlobs (CafsFs.f_prefix d) (CafsFs.leafSize d) content) (objects (dt_blob dt)) /\
      CafsFs.keys_coherent d content (dt_keys dt) /\ CafsRead.coherent (CafsFs.leafSize d) (CafsFs.f_prefix d) content (dt_leaves dt)
  end.

(** The offset is within the content; the staging area allows any. *)

Definition offset_ok (conf : option CafsFs.defaultFs) (content : bytes) (offset : Z) : Prop :=
  (0 <= offset)%Z /\ match conf with None => True | Some _ => Z.to_nat offset <= length content end.

Lemma staged_ok t e i content n offset dt : serves None e content dt -> (0 <= offset)%Z ->
  exists dt', staged_ReadAt (file_entry t e i) n offset dt = (Ok (take n (drop (Z.to_nat offset) content)), dt') /\ serves None e content dt'.
Proof.
  intros Hs Ho. destruct (Get_ok _ _ _ Hs) as (c & Hg & Hc). unfold staged_ReadAt. change (fe_fullPath (file_entry t e i)) with (NameWithPath e). rewrite Hg.
  unfold file_ReadAt. rewrite (proj2 (Z.ltb_ge _ _)) by lia. eexists. split; [done|]. cbn. by rewrite Hc.
Qed.

Lemma streamed_ok d t e i content n offset dt : serves (Some d) e content dt -> offset_ok (Some d) content offset ->
  exists dt', streamed_ReadAt cap d (file_entry t e i) n offset dt = (Ok (take n (drop (Z.to_nat offset) content)), dt') /\ serves (Some d) e content dt'.
Proof.
  intros (Hcap & Hf & Hh & Hst & Hk & Hlv) [Ho Hlen]. unfold streamed_ReadAt. change (fe_hash (file_entry t e i)) with (Hash e).
  rewrite Hh, KeyFromString_String by apply blake2b_length.
  destruct (CafsFs.Get_reader d content (dt_blob dt) (dt_keys dt) Hst Hk) as (b1 & k1 & Hg & Ho1 & Hk1).
  unfold CafsFs.Get in Hg. unfold CafsFs.GetAt. rewrite Hg. rewrite (proj2 (Z.ltb_ge _ _)) by lia.
  set (r := CafsReader.newReader _ _ _ _ _).
  assert (Hleaves : functional (blobs (CafsFs.f_prefix d) (CafsFs.leafSize d) content)).
  { intros p c c' H H'. eapply Hf; unfold objectBlobs; apply elem_of_app; by left. }
  destruct (CafsRead.ReadAt_ok (S := B) (CafsFs.leafSize d) (CafsFs.f_prefix d) content ltac:(lia) r cap eq_refl eq_refl eq_refl ltac:(lia) Hleaves
    n (Z.to_nat offset) b1 (dt_leaves dt) Hlen) as (b2 & l2 & Hr & Ho2 & Hl2); [|done|].
  - intros p c Hin. rewrite Ho1. apply Hst. unfold objectBlobs. apply elem_of_app. by left.
  - rewrite Hr. eexists. split; [done|]. cbn. refine (conj Hcap (conj Hf (conj Hh (conj _ (conj Hk1 Hl2))))). by rewrite Ho2, Ho1.
Qed.

Lemma readAtBundle_ok conf t e i content n offset dt : serves conf e content dt -> offset_ok conf content offset ->
  exists dt', readAtBundle cap conf (file_entry t e i) n offset dt = (Ok (take n (drop (Z.to_nat offset) content)), dt') /\ serves conf e content dt'.
Proof. destruct conf; intros H [H1 H2]; [by apply streamed_ok|by apply staged_ok]. Qed.

(** The nodes of a mounted bundle. *)

Lemma mounted_file t rooted es (fs : readOnlyFs T) e : mountable rooted es -> populateFS t es = Ok fs -> e ∈ es ->
  exists i, resolve fs RootInodeID (components rooted e) = Ok i /\
    forall conf n offset dt, ReadFile (B := B) (C := C) (KC := KC) (LC := LC) cap conf fs i n offset dt = readAtBundle cap conf (file_entry t e i) n offset dt.
Proof.
  intros Hm E He. destruct (populateFS_mounted t rooted es Hm) as (tr & fs' & E' & Hd & Hmt). rewrite E in E'. injection E' as <-.
  destruct (ds_files _ _ _ _ Hd e He) as [i Hi]. exists i. rewrite (resolve_root _ _ _ _ Hmt), Hi. split; [done|]. intros conf n offset dt.
  unfold ReadFile. by rewrite (entry_tree _ _ _ _ Hmt _ _ Hi : r_Get (formKey i) _ = _).
Qed.

(** C21: reading a file of a mounted bundle at its path returns the requested part
    of its content, from the staging area and from the blob store alike, and
    leaves the mount in a state from which it can be read again. *)
Theorem ReadFile_correct t rooted es (fs : readOnlyFs T) e conf content n offset dt :
  mountable rooted es -> populateFS t es = Ok fs -> e ∈ es -> serves conf e content dt -> offset_ok conf content offset ->
  exists i dt', resolve fs RootInodeID (components rooted e) = Ok i /\
    ReadFile cap conf fs i n offset dt = (Ok (take n (drop (Z.to_nat offset) content)), dt') /\ serves conf e content dt'.
Proof.
  intros Hm E He Hs Ho. destruct (mounted_file t rooted es fs e Hm E He) as (i & Hi & Hr).
  destruct (readAtBundle_ok conf t e i content n offset dt Hs Ho) as (dt' & Hread & Hs'). exists i, dt'. by rewrite Hr.
Qed.

(** Keys that were made with another leaf size are not accepted. *)

Lemma wrong_leaf_size L d content t e i n offset dt :
  Hash e = Key_String (rootKey L content) ->
  blake2b (mkTree (CafsFs.leafSize d) 0 1 true) (concat (leafKeys L content)) <> rootKey L content ->
  objects (dt_blob dt) !! StringWithPrefix (rootKey L content) (CafsFs.f_prefix d) = Some (rootContent (rootKey L content) (leafKeys L content)) ->
  (lru_Get (rootKey L content) (dt_keys dt)).1 = None ->
  exists err dt', readAtBundle (B := B) (C := C) (KC := KC) (LC := LC) cap (Some d) (file_entry t e i) n offset dt = (Err err, dt').
Proof.
  intros Hh Hne Hroot Hc. cbn. unfold streamed_ReadAt. change (fe_hash (file_entry t e i)) with (Hash e).
  rewrite Hh, KeyFromString_String by apply blake2b_length. unfold CafsFs.GetAt, CafsFs.fs_reader. destruct (lru_Get _ _) as [o kc1]. cbn in Hc. subst o.
  unfold LeavesForHash, leavesForHash, bytesFromRoot, mbind, M_bind, lift. destruct (Get_ok _ _ _ Hroot) as (s1 & -> & _).
  destruct (verifiedKeys _ (CafsFs.leafSize d)) as [ks|err|p] eqn:Ev.
  - apply verifiedKeys_sound in Ev as [_ E]. unfold rootContent in E. apply (app_inj_2) in E as [E1 E2]; [|unfold rootKey; by rewrite !blake2b_length].
    destruct Hne. by rewrite E1.
  - eauto.
  - exfalso. revert Ev. unfold verifiedKeys, rootContent, rootKey. rewrite verificationKey_app by apply blake2b_length. cbn.
    rewrite length_app, blake2b_length, take_app_exact by lia. rewrite leaves_concat by apply leafKeys_keys. cbn. rewrite rootHash_Ok. cbn. by case_decide.
Qed.

End read.

(** ** Mounts of archived bundles *)

Section mounts.
Context {T : Type -> Type} `{HRT : !Radix T, HRL : !RadixLaws T}.
Context {S C F : Type} `{HS : !Store S, HSL : !StoreLaws S, HR : !ReliableStore S}.
Context `{HC : !Store C, HCL : !StoreLaws C, HCR : !ReliableStore C}.
Context `{HF : !Cafs S F, HFL : !CafsLaws S F}.
Context {HYB : Yaml BundleDescriptor} {HYBL : YamlLaws BundleDescriptor}.
Context {HYE : Yaml (list BundleEntry)} {HYEL : YamlLaws (list BundleEntry)}.
Context `{HBk : !Blake2b, HBkL : !Blake2bLaws}.
Context {KC LC : Type} `{HK : !Lru KC Key (list Key), HKL : !LruLaws KC Key (list Key), HL : !Lru LC string bytes, HLL : !LruLaws LC string bytes}.
Variable cap : nat.

(** C11: mounting an archived bundle that is not streamed succeeds in whatever order
    the goroutines of the download run, and then each of its files can be found
    at its path and read there, at any offset, with the content that was
    archived. *)
Theorem NewReadOnlyFS_correct now opts bundle bd entries cont rooted (w : world S C) :
  o_streamed (apply_options opts) = false -> publish_ready bundle bd entries cont w -> mountable rooted entries ->
  every_run (fun es => NewReadOnlyFS (T := T) now opts es bundle) w (fun m w' => forall e, e ∈ entries -> exists i,
    resolve m.2 RootInodeID (components rooted e) = Ok i /\
    forall n offset (dt : data (B := S) (C := C) (KC := KC) (LC := LC)), (0 <= offset)%Z -> objects (dt_staging dt) = objects (w_consumable w') -> exists dt',
      ReadFile cap m.1 m.2 i n offset dt = (Ok (take n (drop (Z.to_nat offset) (cont e))), dt') /\ objects (dt_staging dt') = objects (w_consumable w')).
Proof.
  intros Ho Hr Hm. unfold NewReadOnlyFS. rewrite Ho. eapply every_bind_once; [done|].
  apply (every_then_once (fun es => Publish now es bundle)).
  eapply every_mono; [by apply (implPublish_run now (Some (fun _ => Ok true)) (fun _ => true) bundle bd entries cont w)|].
  intros b w' [-> (_ & _ & _ & Hfiles & _)].
  destruct (populateFS_mounted (T := T) (bd_Timestamp (b_BundleDescriptor (unpacked bundle bd entries))) rooted entries Hm) as (tr & fs & E & _).
  exists (None, fs), w'. unfold mbind, M_bind, lift. cbn [unpacked b_BundleEntries set_entries]. rewrite E. split; [done|].
  intros e He. destruct (mounted_file (B := S) (C := C) (KC := KC) (LC := LC) cap _ rooted entries fs e Hm E He) as (i & Hi & Hread). exists i. split; [done|].
  intros n offset dt Hoff Hdt. rewrite selected_all in Hfiles. destruct (Get_ok (NameWithPath e) (dt_staging dt) (cont e)) as (c & Hg & Hc).
  { rewrite Hdt. by apply Hfiles. }
  cbn [fst snd]. rewrite Hread. cbn [readAtBundle]. unfold staged_ReadAt. change (fe_fullPath (file_entry _ e i)) with (NameWithPath e). rewrite Hg.
  unfold file_ReadAt. rewrite (proj2 (Z.ltb_ge _ _)) by lia. eexists. split; [done|]. cbn. by rewrite Hc.
Qed.

(** A streamed mount reads the metadata only. *)

Lemma NewReadOnlyFS_streamed now opts bundle bd entries cont rooted d (w : world S C) :
  o_streamed (apply_options opts) = true -> CafsFs.New (streamOptions (apply_options opts) bundle) = Ok d ->
  publish_ready bundle bd entries cont w -> mountable rooted entries ->
  every_run (fun es => NewReadOnlyFS (T := T) now opts es bundle) w (fun m w' => m.1 = Some d /\
    populateFS (bd_Timestamp (b_BundleDescriptor (unpacked bundle bd entries))) entries = Ok m.2 /\ same_objects (w_stores w) (w_stores w')).
Proof.
  intros Ho Hd (Hctx & Hcon & Hcap & Hne & Hid & Hbw & _ & _ & _ & Hfd & Hfl & _ & _ & Hbig) Hm. unfold NewReadOnlyFS. rewrite Ho, Hd.
  eapply every_bind_once; [done|]. apply (every_then_once (fun es : _ * list (event fs_copy) => PublishMetadata es.1 bundle)).
  destruct (populateFS_mounted (T := T) (bd_Timestamp (b_BundleDescriptor (unpacked bundle bd entries))) rooted entries Hm) as (tr & fs & E & _).
  destruct (publish_metadata_run bundle bd entries w Hctx Hcon Hcap Hne Hid Hbw Hfd Hfl Hbig) as [Hs (e & r & w1 & He)]. split.
  - intros es r' w' H. destruct (Hs _ _ _ H) as (b & -> & -> & Hp & _). exists (unpacked bundle bd entries). split; [done|].
    exists (Some d, fs), w'. unfold mbind, M_bind, lift. cbn [unpacked b_BundleEntries set_entries]. by rewrite E.
  - by exists (e, []), r, w1.
Qed.

Lemma New_stream o (bundle : Bundle) d : CafsFs.New (streamOptions o bundle) = Ok d -> CafsFs.f_leafSize d = bd_LeafSize (b_BundleDescriptor bundle).
Proof. unfold CafsFs.New. cbn [streamOptions fold_left]. repeat case_match; try done. by intros [= <-]. Qed.

(** the file system of a streamed mount has the leaf size of the descriptor
    that was in memory before the one of the bundle was read: a file that was
    archived with leaves of another size cannot be read. *)
Theorem streamed_mount_leaf_size now opts es bundle (w : world S C) conf (fs : readOnlyFs T) w' :
  o_streamed (apply_options opts) = true -> NewReadOnlyFS now opts es bundle w = Some (Ok (conf, fs), w') ->
  exists d, conf = Some d /\ CafsFs.f_leafSize d = bd_LeafSize (b_BundleDescriptor bundle) /\
  forall t L content e i n offset (dt : data (B := S) (C := C) (KC := KC) (LC := LC)),
    Hash e = Key_String (rootKey L content) ->
    blake2b (mkTree (CafsFs.leafSize d) 0 1 true) (concat (leafKeys L content)) <> rootKey L content ->
    objects (dt_blob dt) !! StringWithPrefix (rootKey L content) (CafsFs.f_prefix d) = Some (rootContent (rootKey L content) (leafKeys L content)) ->
    (lru_Get (rootKey L content) (dt_keys dt)).1 = None ->
    exists err dt', readAtBundle cap conf (file_entry t e i) n offset dt = (Err err, dt').
Proof.
  intros Ho. unfold NewReadOnlyFS. rewrite Ho. unfold mbind at 1, R_bind at 1, once at 1. unfold mbind at 1, M_bind at 1, lift at 1.
  destruct (CafsFs.New (streamOptions (apply_options opts) bundle)) as [d| |] eqn:En; [|done..]. cbn.
  unfold mbind, R_bind, once, M_bind, lift. destruct (PublishMetadata es.1 bundle w) as [[[b| |] w1]|]; [|done..].
  destruct (populateFS _ _) as [fs1| |]; [|done..]. intros [= <- <- <-]. exists d. split; [done|]. split; [by eapply New_stream|].
  intros. by eapply wrong_leaf_size.
Qed.

End mounts.

End FuseRead.
