(* ===== verification/FuseWitness.v ===== *)
(** * Instances of the theorems on mounted bundles

    The mount of the bundle of CorePublishWitness.v, with the finite maps of
    Radix.v for the radix trees. *)

From S2P Require Import Prelude GoLib Errors Radix Storage Model CafsKeys CafsFlush Lru CafsReader CafsRead CafsFs CafsIface CafsWitness CoreMeta Pool StoreRules CoreIndex CoreBundle CoreUpload CoreDownload CorePublish CorePublishWitness FuseCommon FuseRO FuseMount FuseRead.

Module FuseWitness.
Import Model Storage CafsKeys CafsFlush Lru CafsIface CoreMeta Pool StoreRules CoreIndex CoreBundle CoreUpload CoreDownload CorePublish CorePublishWitness FuseCommon FuseRO FuseMount FuseRead.

#[local] Existing Instance numbered_yaml.

#[local] Existing Instance numbered_yaml_laws.

#[local] Existing Instance toy_blake2b.

#[local] Existing Instance toy_blake2b_laws.

#[local] Existing Instance the_cafs.

#[local] Existing Instance the_laws.

(** ** The tree *)

Abbreviation trees := (gmap bytes).

Definition file (name : string) (size : Z) : BundleEntry := mkBundleEntry "h" name 0%Z size Time.zero.

Definition three_files : list BundleEntry := [file "a/x" 3; file "a/b/y" 1; file "z" 0].

Lemma three_files_mountable : mountable false three_files.
Proof.
  assert (Hall : forall (P : BundleEntry -> Prop), Forall P three_files -> forall e, e ∈ three_files -> P e) by (intros P HP; by apply Forall_forall).
  split.
  - apply Hall. repeat constructor; try done; repeat constructor; try done; (apply (bool_decide_unpack _); vm_compute; exact I).
  - apply Hall. by repeat constructor.
  - apply (bool_decide_unpack _). vm_compute. exact I.
  - intros e e' He He' Hp. unfold three_files in He, He'. rewrite !elem_of_cons in He, He'.
    destruct He as [->|[->|[->|He%elem_of_nil]]], He' as [->|[->|[->|He'%elem_of_nil]]]; try done;
      apply (bool_decide_pack _) in Hp; vm_compute in Hp; done.
  - vm_compute. done.
Qed.

Definition dirent_size (d : Dirent) : nat := 24 + String.length (de_Name d).

(** The whole tree: [z] and the directories [a] and [a/b] with their files. *)

Lemma populateFS_correct_witness : exists fs : readOnlyFs trees, populateFS 7%Z three_files = Ok fs /\
  is_Ok (resolve fs RootInodeID ["a"; "b"; "y"]) = true /\ (exists i, resolve fs RootInodeID ["a"; "b"] = Ok i /\ OpenDir fs i = Ok tt) /\
  resolve fs RootInodeID ["a"; "y"] = Err ENOENT.
Proof.
  destruct (populateFS_correct (T := trees) 7%Z false three_files three_files_mountable) as (fs & E & Hf & Hd & Hn & _). exists fs. split; [exact E|]. split; [|split].
  - destruct (Hf (file "a/b/y" 1)) as (i & Hi & _); [right; left|]. change (components false (file "a/b/y" 1)) with ["a"; "b"; "y"] in Hi. by rewrite Hi.
  - destruct (Hd ["a"; "b"]) as (i & Hi & _ & Ho); [|by exists i]. right. exists (file "a/b/y" 1). split; [right; left|].
    split; [by exists ["y"]|done].
  - apply Hn; [done|]. intros e He Hp. unfold three_files in He. rewrite !elem_of_cons in He.
    destruct He as [->|[->|[->|He%elem_of_nil]]]; [| | |done]; apply (bool_decide_pack _) in Hp; vm_compute in Hp; done.
Defined.

Definition three_fs : readOnlyFs trees := match populateFS 7%Z three_files with Ok fs => fs | _ => defaultReadOnlyFS end.

Lemma three_fs_eq : populateFS 7%Z three_files = Ok three_fs.
Proof.
  assert ((if populateFS 7%Z three_files is Ok _ then true else false) = true) as H by (vm_compute; reflexivity).
  unfold three_fs. by destruct (populateFS 7%Z three_files).
Qed.

(** A buffer for one entry at a time. *)

Lemma list_dir_correct_witness : exists ds, (forall fuel, length ds < fuel -> list_dir dirent_size 25 three_fs RootInodeID fuel 0 = Ok ds) /\
  NoDup (de_Name <$> ds) /\ exists off, mkDirent off 1028 "z" DT_File ∈ ds.
Proof.
  destruct (list_dir_correct 7%Z false three_files three_fs [] RootInodeID dirent_size 25) as (ds & Hl & Hnd & Hin).
  - exact three_files_mountable.
  - done.
  - exact three_fs_eq.
  - reflexivity.
  - vm_compute. reflexivity.
  - intros e c off ino ty He Hc. unfold three_files in He. rewrite !elem_of_cons in He.
    assert (String.length c = 1) as Hlen; [|unfold dirent_size; cbn; lia].
    destruct He as [->|[->|[->|He%elem_of_nil]]]; [| | |done];
      [change (c ∈ ["a"; "x"]) in Hc|change (c ∈ ["a"; "b"; "y"]) in Hc|change (c ∈ ["z"]) in Hc]; set_solver.
  - exists ds. split; [exact Hl|]. split; [exact Hnd|]. apply Hin. split; [vm_compute; reflexivity|]. split; [done|]. vm_compute. discriminate.
Defined.

(** ** Reading *)

Definition one_file : BundleEntry := mkBundleEntry (Key_String (rootKey (Z.to_nat leaf) three_bytes)) "a/x" 0%Z 3%Z Time.zero.

Lemma one_mountable : mountable false one_entry.
Proof.
  split.
  - intros e ->%list_elem_of_singleton. split; [reflexivity|]. split; [done|]. apply (bool_decide_unpack _). vm_compute. exact I.
  - intros e ->%list_elem_of_singleton. vm_compute. discriminate.
  - apply NoDup_singleton.
  - by intros e e' ->%list_elem_of_singleton ->%list_elem_of_singleton.
  - reflexivity.
Qed.

Definition streaming : CafsFs.defaultFs := CafsFs.LeafSize leaf CafsFs.defaultsForFs.

Abbreviation caches := (data (B := store) (C := store) (KC := gmap Key (list Key)) (LC := store)).

Definition cold : caches := mkData (list_to_map one_blobs) ∅ ∅ ∅.

Lemma cold_serves : serves (Z.to_nat leaf) (Some streaming) one_file three_bytes cold.
Proof.
  refine (conj _ (conj _ (conj eq_refl (conj one_blobs_stored (conj _ _))))).
  - change (0 < Z.to_nat leaf <= Z.to_nat leaf). unfold leaf. lia.
  - intros p x x' H H'. exact (universe_no_collision _ _ _ _ p x x' three_bytes_known three_bytes_known H H').
  - intros k v Hk. change ((∅ : gmap Key (list Key)) !! k = Some v) in Hk. by rewrite lookup_empty in Hk.
  - intros k v Hk. change ((∅ : store) !! k = Some v) in Hk. by rewrite lookup_empty in Hk.
Qed.

Lemma ReadFile_correct_witness : exists (fs : readOnlyFs trees) i dt', populateFS 7%Z one_entry = Ok fs /\
  ReadFile (Z.to_nat leaf) (Some streaming) fs i 4096 1 cold = (Ok [Byte.x02; Byte.x03], dt').
Proof.
  destruct (populateFS_mounted (T := trees) 7%Z false one_entry one_mountable) as (tr & fs & E & _).
  destruct (ReadFile_correct (Z.to_nat leaf) 7%Z false one_entry fs one_file (Some streaming) three_bytes 4096 1 cold) as (i & dt' & _ & H & _).
  - exact one_mountable.
  - exact E.
  - apply list_elem_of_here.
  - exact cold_serves.
  - split; [lia|]. cbn. lia.
  - by exists fs, i, dt'.
Defined.

Lemma NewReadOnlyFS_correct_witness :
  every_run (fun es => NewReadOnlyFS (T := trees) 1%Z [] es target_bundle) archive (fun m w' => exists i,
    resolve m.2 RootInodeID ["a"; "x"] = Ok i /\
    exists dt', ReadFile 0 m.1 m.2 i 2 0 (mkData ∅ ∅ ∅ (w_consumable w') : caches) = (Ok [Byte.x01; Byte.x02], dt')).
Proof.
  eapply every_mono; [apply (NewReadOnlyFS_correct (KC := gmap Key (list Key)) (LC := store) 0 1%Z [] target_bundle one_descriptor one_entry
    (fun _ => three_bytes) false archive)|].
  - reflexivity.
  - exact archive_ready.
  - exact one_mountable.
  - intros m w' H. destruct (H one_file) as (i & Hi & Hr); [apply list_elem_of_here|]. exists i. split; [exact Hi|].
    destruct (Hr 2 0%Z (mkData ∅ ∅ ∅ (w_consumable w'))) as (dt' & Hd & _); [done|done|]. by exists dt'.
Defined.

(** The leaves of the archived file have 32 KiB, those of a streamed mount of a
    bundle that was just made 2 MiB. *)

Lemma streamed_mount_leaf_size_witness : exists es d (fs : readOnlyFs trees) w',
  NewReadOnlyFS 1%Z [Streaming true] es target_bundle archive = Some (Ok (Some d, fs), w') /\
  CafsFs.f_leafSize d = CafsFs.DefaultLeafSize /\ CafsFs.f_leafSize d <> bd_LeafSize one_descriptor.
Proof.
  assert (exists d, CafsFs.New (streamOptions (apply_options [Streaming true]) target_bundle) = Ok d) as [d Ed] by (eexists; reflexivity).
  destruct (NewReadOnlyFS_streamed (T := trees) 1%Z [Streaming true] target_bundle one_descriptor one_entry (fun _ => three_bytes) false d archive)
    as [Hs (es & r & w' & E)]; [reflexivity|exact Ed|exact archive_ready|exact one_mountable|].
  destruct (Hs _ _ _ E) as ([conf fs] & -> & Hc & _). cbn in Hc. subst conf.
  destruct (streamed_mount_leaf_size (KC := gmap Key (list Key)) (LC := store) 0 1%Z [Streaming true] es target_bundle archive (Some d) fs w')
    as (d' & Hd' & Hleaf & _); [reflexivity|exact E|]. injection Hd' as <-.
  exists es, d, fs, w'. split; [exact E|]. split; [exact Hleaf|]. rewrite Hleaf. discriminate.
Defined.

(** With a hash that depends on the size of leaves, such a file is refused. *)

Definition sized_blake2b : Blake2b := fun t d => take KeySize ([toy_byte (LeafSize t)] ++ d ++ replicate KeySize Byte.x00).

Lemma sized_blake2b_laws : @Blake2bLaws sized_blake2b.
Proof.
  intros t d. unfold blake2b, sized_blake2b. rewrite length_take, !length_app, length_replicate. cbn [length]. lia.
Qed.

Lemma other_leaf_size_refused :
  let e := mkBundleEntry (Key_String (rootKey (HB := sized_blake2b) 2 three_bytes)) "a/x" 0%Z 3%Z Time.zero in
  let blobs : store := list_to_map (objectBlobs (HB := sized_blake2b) "" 2 three_bytes) in
  exists err dt', readAtBundle (HBk := sized_blake2b) 100 (Some (CafsFs.LeafSize 100 CafsFs.defaultsForFs)) (file_entry 1%Z e 1024) 2 0
    (mkData blobs ∅ ∅ ∅ : caches) = (Err err, dt').
Proof.
  intros e blobs. apply (wrong_leaf_size (HBk := sized_blake2b) (HBkL := sized_blake2b_laws) 100 2 (CafsFs.LeafSize 100 CafsFs.defaultsForFs) three_bytes).
  - reflexivity.
  - vm_compute. discriminate.
  - vm_compute. reflexivity.
  - reflexivity.
Qed.

End FuseWitness.
