(* ===== verification/FuseRW.v ===== *)
(** * The mutable mount (pkg/fuse: fs_rw_ops.go, inode.go)

    The operations of the kernel on a file system in memory whose files are kept
    in a local cache. The state has the namespace twice: a radix tree from the
    inode of a directory and a name to the inode of the child, and a map from the
    inode of a directory to its entries by inode. The nodes are pointers in the
    source and reached through the tree of nodes only; here they are its values.
    The operations are run one after the other, each up to its end. *)

From S2P Require Import Prelude GoLib Errors Radix CafsReader FuseCommon.

Module FuseRW.
Import FuseCommon.

(** ** The local cache *)

(** What is used of afero.Fs and its files, by name. [bk_OpenFile] is without
    O_CREATE; [bk_ReadAt] returns what was read and the error that came with it;
    [bk_ReadAll] is what a reader of the file delivers up to its end. *)

Class Backing (A : Type) : Type := {
  bk_OpenFile : string -> M A unit;
  bk_Create : string -> M A unit;
  bk_ReadAt : string -> nat -> Z -> M A (bytes * option error);
  bk_WriteAt : string -> bytes -> Z -> M A unit;
  bk_Truncate : string -> Z -> M A unit;
  bk_Stat : string -> A -> Z;
  bk_Sync : string -> M A unit;
  bk_ReadAll : string -> M A bytes
}.

(** ** Nodes *)

Record lookupEntry : Type := mkLookupEntry {
  le_iNode : InodeID;
  le_mode : Z
}.

Record nodeEntry : Type := mkNodeEntry {
  ne_refCount : Z;
  ne_attr : InodeAttributes;
  ne_pathToBackingFile : string
}.

Definition set_Size (z : Z) (a : InodeAttributes) : InodeAttributes :=
  mkAttr z (ia_Nlink a) (ia_Mode a) (ia_Atime a) (ia_Mtime a) (ia_Ctime a) (ia_Crtime a) (ia_Uid a) (ia_Gid a).

Definition set_Nlink (z : Z) (a : InodeAttributes) : InodeAttributes :=
  mkAttr (ia_Size a) z (ia_Mode a) (ia_Atime a) (ia_Mtime a) (ia_Ctime a) (ia_Crtime a) (ia_Uid a) (ia_Gid a).

Definition set_Atime (t : Time.Time) (a : InodeAttributes) : InodeAttributes :=
  mkAttr (ia_Size a) (ia_Nlink a) (ia_Mode a) t (ia_Mtime a) (ia_Ctime a) (ia_Crtime a) (ia_Uid a) (ia_Gid a).

Definition set_Mtime (t : Time.Time) (a : InodeAttributes) : InodeAttributes :=
  mkAttr (ia_Size a) (ia_Nlink a) (ia_Mode a) (ia_Atime a) t (ia_Ctime a) (ia_Crtime a) (ia_Uid a) (ia_Gid a).

Definition on_attr (f : InodeAttributes -> InodeAttributes) (n : nodeEntry) : nodeEntry :=
  mkNodeEntry (ne_refCount n) (f (ne_attr n)) (ne_pathToBackingFile n).

Definition add_refs (k : Z) (n : nodeEntry) : nodeEntry := mkNodeEntry (ne_refCount n + k)%Z (ne_attr n) (ne_pathToBackingFile n).

Definition is_dir (n : nodeEntry) : bool := IsDir (ia_Mode (ne_attr n)).

Definition shouldDelete (n : nodeEntry) : bool :=
  if is_dir n then (ne_refCount n =? 0)%Z else (ne_refCount n =? 0)%Z && (ia_Nlink (ne_attr n) =? 0)%Z.

Definition getPathToBackingFile (iNode : InodeID) : string := Strconv.FormatUint (Z.to_N iNode).

Section ops.
Context {T : Type -> Type} `{HRT : !Radix T} {A : Type} `{HA : !Backing A}.

(** ** State *)

Record fsMutable : Type := mkMutable {
  mu_lookupTree : T lookupEntry;
  mu_iNodeStore : T nodeEntry;
  mu_readDirMap : gmap InodeID (gmap InodeID Dirent);
  mu_backingFiles : gset InodeID;
  mu_iNodeGenerator : iNodeGenerator;
  mu_localCache : A
}.

Definition defaultMutableFS (cache : A) : fsMutable := mkMutable r_New r_New ∅ ∅ newGenerator cache.

Definition get_state : M fsMutable fsMutable := fun fs => (Ok fs, fs).

Definition modify (f : fsMutable -> fsMutable) : M fsMutable unit := fun fs => (Ok tt, f fs).

Definition panic {X} (msg : string) : M fsMutable X := fun fs => (Panic msg, fs).

Definition on_lookupTree (f : T lookupEntry -> T lookupEntry) (fs : fsMutable) : fsMutable :=
  mkMutable (f (mu_lookupTree fs)) (mu_iNodeStore fs) (mu_readDirMap fs) (mu_backingFiles fs) (mu_iNodeGenerator fs) (mu_localCache fs).

Definition on_iNodeStore (f : T nodeEntry -> T nodeEntry) (fs : fsMutable) : fsMutable :=
  mkMutable (mu_lookupTree fs) (f (mu_iNodeStore fs)) (mu_readDirMap fs) (mu_backingFiles fs) (mu_iNodeGenerator fs) (mu_localCache fs).

Definition on_readDirMap (f : gmap InodeID (gmap InodeID Dirent) -> gmap InodeID (gmap InodeID Dirent)) (fs : fsMutable) : fsMutable :=
  mkMutable (mu_lookupTree fs) (mu_iNodeStore fs) (f (mu_readDirMap fs)) (mu_backingFiles fs) (mu_iNodeGenerator fs) (mu_localCache fs).

Definition add_backingFile (i : InodeID) (fs : fsMutable) : fsMutable :=
  mkMutable (mu_lookupTree fs) (mu_iNodeStore fs) (mu_readDirMap fs) ({[i]} ∪ mu_backingFiles fs) (mu_iNodeGenerator fs) (mu_localCache fs).

Definition set_generator (g : iNodeGenerator) (fs : fsMutable) : fsMutable :=
  mkMutable (mu_lookupTree fs) (mu_iNodeStore fs) (mu_readDirMap fs) (mu_backingFiles fs) g (mu_localCache fs).

Definition set_cache (a : A) (fs : fsMutable) : fsMutable :=
  mkMutable (mu_lookupTree fs) (mu_iNodeStore fs) (mu_readDirMap fs) (mu_backingFiles fs) (mu_iNodeGenerator fs) a.

Definition localCache {X} (m : M A X) : M fsMutable X := fun fs => let '(r, a) := m (mu_localCache fs) in (r, set_cache a fs).

(** The error of a call is answered by EIO. *)

Definition or_EIO {X} (m : M fsMutable X) : M fsMutable X :=
  r ← attempt m; match r with inl x => mret x | inr _ => fail EIO end.

Definition node (i : InodeID) (fs : fsMutable) : option nodeEntry := r_Get (formKey i) (mu_iNodeStore fs).

(** A node is changed through its pointer. *)

Definition update_node (i : InodeID) (n : nodeEntry) : M fsMutable unit := modify (on_iNodeStore (r_Insert (formKey i) n)).

Definition lookup (p : InodeID) (c : string) (fs : fsMutable) : option lookupEntry := r_Get (formLookupKey p c) (mu_lookupTree fs).

(** ** Changes of the namespace *)

Definition deleteNSEntry (p : InodeID) (c : string) : M fsMutable unit :=
  fs ← get_state;
  match node p fs with
  | None => fail ENOENT
  | Some pNode =>
      match lookup p c fs with
      | None => fail ENOENT
      | Some cLE =>
          match node (le_iNode cLE) fs with
          | None => panic "did not find node after lookup"
          | Some cNode =>
              let finish :=
                _ ← modify (on_lookupTree (r_Delete (formLookupKey p c)));
                modify (on_readDirMap (alter (delete (le_iNode cLE)) p)) in
              if is_dir cNode then
                let children := default ∅ (mu_readDirMap fs !! le_iNode cLE) in
                if decide (children <> ∅) then fail ENOTEMPTY
                else
                  _ ← modify (on_readDirMap (delete (le_iNode cLE)));
                  _ ← update_node p (on_attr (fun a => set_Nlink (Int.uint32 (ia_Nlink a - 1)) a) pNode);
                  finish
              else finish
          end
      end
  end.

Definition preCreateCheck (parentInode : InodeID) (lk : bytes) : M fsMutable unit :=
  fs ← get_state;
  match node parentInode fs with
  | None => fail ENOENT
  | Some n =>
      if negb (is_dir n) then fail ENOTDIR
      else match r_Get lk (mu_lookupTree fs) with
           | Some _ => fail EEXIST
           | None => mret tt
           end
  end.

Definition insertReadDirEntry (id : InodeID) (dirEnt : Dirent) : M fsMutable unit :=
  modify (on_readDirMap (fun m => <[id := <[de_Inode dirEnt := dirEnt]> (default ∅ (m !! id))]> m)).

Definition insertLookupEntry (id : InodeID) (child : string) (entry : lookupEntry) : M fsMutable unit :=
  modify (on_lookupTree (r_Insert (formLookupKey id child) entry)).

Definition alloc : M fsMutable InodeID := fun fs =>
  let '(i, g) := allocINode (mu_iNodeGenerator fs) in (Ok i, set_generator g fs).

(** The backing file of a new file: an error is only logged. *)

Definition create_backing (i : InodeID) : M fsMutable unit :=
  r ← attempt (localCache (bk_Create (getPathToBackingFile i)));
  match r with
  | inl _ => modify (add_backingFile i)
  | inr _ => mret tt
  end.

(** [ts]: the current time. The inode and the attributes that are sent back. *)

Definition createNode (ts : Time.Time) (lk : bytes) (parentINode : InodeID) (childName : string) (nodeType : DirentType) (isRoot : bool)
    : M fsMutable (InodeID * InodeAttributes) :=
  iNodeID ← (if isRoot then mret parentINode else alloc);
  _ ← modify (on_lookupTree (r_Insert lk (mkLookupEntry iNodeID 0)));
  let dir := bool_decide (nodeType = DT_Directory) in
  let linkCount := if dir then dirLinkCount else fileLinkCount in
  let defaultMode := if dir then dirDefaultMode else fileDefaultMode in
  let defaultSize := if dir then dirInitialSize else 0%Z in
  _ ← (if dir then modify (on_readDirMap (<[iNodeID := ∅]>)) else create_backing iNodeID);
  _ ← (if isRoot then mret tt else insertReadDirEntry parentINode (mkDirent 0 iNodeID childName nodeType));
  let attr := mkAttr defaultSize linkCount defaultMode ts ts ts ts defaultGID defaultUID in
  _ ← update_node iNodeID (mkNodeEntry 1 attr (getPathToBackingFile iNodeID));
  _ ← (if dir then
         fs ← get_state;
         match node parentINode fs with
         | None => panic "interface conversion"
         | Some p => update_node parentINode (on_attr (fun a => set_Nlink (Int.uint32 (ia_Nlink a + 1)) a) p)
         end
       else mret tt);
  mret (iNodeID, attr).

Definition initRoot (ts : Time.Time) : M fsMutable unit :=
  fs ← get_state;
  match r_Get (formKey RootInodeID) (mu_lookupTree fs) with
  | Some _ => mret tt
  | None => _ ← createNode ts (formLookupKey RootInodeID rootPath) RootInodeID rootPath DT_Directory true; mret tt
  end.

(** ** Operations *)

Definition LookUpInode (parent : InodeID) (name : string) : M fsMutable (InodeID * InodeAttributes) :=
  fs ← get_state;
  match lookup parent name fs with
  | None => fail ENOENT
  | Some childEntry =>
      match node (le_iNode childEntry) fs with
      | None => panic "interface conversion"
      | Some n => _ ← update_node (le_iNode childEntry) (add_refs 1 n); mret (le_iNode childEntry, ne_attr n)
      end
  end.

Definition GetInodeAttributes (inode : InodeID) : M fsMutable InodeAttributes :=
  fs ← get_state;
  match node inode fs with
  | None => fail ENOENT
  | Some n => mret (ne_attr n)
  end.

Definition SetInodeAttributes (inode : InodeID) (mode : option Z) (size : option Z) (atime mtime : option Time.Time) : M fsMutable InodeAttributes :=
  if decide (is_Some mode) then fail ENOSYS
  else
    fs ← get_state;
    match node inode fs with
    | None => fail ENOENT
    | Some n =>
        n1 ← match size with
             | None => mret n
             | Some sz =>
                 _ ← or_EIO (localCache (bk_OpenFile (getPathToBackingFile inode)));
                 if (Strconv.max_int64 <? sz)%Z then fail EINVAL
                 else
                   _ ← or_EIO (localCache (bk_Truncate (getPathToBackingFile inode) sz));
                   mret (on_attr (set_Size sz) n)
             end;
        let n2 := match atime with Some t => on_attr (set_Atime t) n1 | None => n1 end in
        let n3 := match mtime with Some t => on_attr (set_Mtime t) n2 | None => n2 end in
        _ ← update_node inode n3;
        mret (ne_attr n3)
    end.

Definition ForgetInode (inode : InodeID) : M fsMutable unit :=
  fs ← get_state;
  match node inode fs with
  | None => panic "not found iNode"
  | Some n =>
      let n' := add_refs (-1) n in
      _ ← update_node inode n';
      if (ne_refCount n' <? 0)%Z then panic "RefCount below zero"
      else if shouldDelete n' then
        _ ← modify (on_iNodeStore (r_Delete (formKey inode)));
        modify (fun fs => set_generator (freeINode inode (mu_iNodeGenerator fs)) fs)
      else mret tt
  end.

(** A failed check releases the lock twice, which ends the process. *)

Definition MkDir (ts : Time.Time) (parent : InodeID) (name : string) : M fsMutable (InodeID * InodeAttributes) :=
  let lk := formLookupKey parent name in
  r ← attempt (preCreateCheck parent lk);
  match r with
  | inr _ => panic "sync: unlock of unlocked mutex"
  | inl _ => createNode ts lk parent name DT_Directory false
  end.

Definition CreateFile (ts : Time.Time) (parent : InodeID) (name : string) : M fsMutable (InodeID * InodeAttributes) :=
  let lk := formLookupKey parent name in
  _ ← preCreateCheck parent lk;
  createNode ts lk parent name DT_File false.

(** The entry of the inode is taken from the old parent to the new one. *)

Definition move_entry (oldParent : InodeID) (oldName : string) (newParent : InodeID) (newName : string) (oldChild : lookupEntry) : M fsMutable unit :=
  fs1 ← get_state;
  match (default ∅ (mu_readDirMap fs1 !! oldParent)) !! le_iNode oldChild with
  | None => panic "nil pointer dereference"
  | Some rC =>
      let newRC := mkDirent 0 (de_Inode rC) newName (de_Type rC) in
      _ ← modify (on_readDirMap (alter (delete (de_Inode rC)) oldParent));
      fs2 ← get_state;
      let l := lookup oldParent oldName fs2 in
      _ ← modify (on_lookupTree (r_Delete (formLookupKey oldParent oldName)));
      _ ← insertReadDirEntry newParent newRC;
      match l with
      | None => panic "interface conversion"
      | Some le => insertLookupEntry newParent newName le
      end
  end.

Definition Rename (oldParent : InodeID) (oldName : string) (newParent : InodeID) (newName : string) : M fsMutable unit :=
  fs ← get_state;
  match lookup oldParent oldName fs with
  | None => fail ENOENT
  | Some oldChild =>
      _ ← match lookup newParent newName fs with
          | None => mret tt
          | Some newChild =>
              if IsDir (le_mode newChild) then fail ENOSYS
              else _ ← attempt (deleteNSEntry newParent newName); mret tt
          end;
      move_entry oldParent oldName newParent newName oldChild
  end.

Definition RmDir (parent : InodeID) (name : string) : M fsMutable unit := deleteNSEntry parent name.

Definition Unlink (parent : InodeID) (name : string) : M fsMutable unit := deleteNSEntry parent name.

(** [order]: the order in which the map of the children is iterated; the first
    entry has the offset 2. *)

Fixpoint number (i : Z) (ds : list Dirent) : list Dirent :=
  match ds with
  | [] => []
  | d :: ds' => mkDirent i (de_Inode d) (de_Name d) (de_Type d) :: number (Int.uint64 (i + 1)) ds'
  end.

Definition ReadDir (direntSize : Dirent -> nat) (order : list InodeID) (inode : InodeID) (offset : Z) (room : nat) : M fsMutable (list Dirent) :=
  fs ← get_state;
  match mu_readDirMap fs !! inode with
  | None => fail ENOENT
  | Some children =>
      if (Z.of_nat (size children) <? offset)%Z then mret []
      else
        let ds := number 2 (omap (fun i => children !! i) order) in
        mret (write_dirents direntSize room (filter (fun d => Int.uint64 offset <= de_Offset d)%Z ds))
  end.

Definition ReadFile (inode : InodeID) (n : nat) (offset : Z) : M fsMutable bytes :=
  let name := getPathToBackingFile inode in
  _ ← or_EIO (localCache (bk_OpenFile name));
  _ ← modify (add_backingFile inode);
  '(data, err) ← or_EIO (localCache (bk_ReadAt name n offset));
  match err with
  | Some _ => fail EIO
  | None => mret data
  end.

Definition WriteFile (inode : InodeID) (data : bytes) (offset : Z) : M fsMutable unit :=
  let name := getPathToBackingFile inode in
  _ ← or_EIO (localCache (bk_OpenFile name));
  _ ← modify (add_backingFile inode);
  _ ← or_EIO (localCache (bk_WriteAt name data offset));
  fs ← get_state;
  match node inode fs with
  | None => panic "Invalid state inode: not found"
  | Some n => update_node inode (on_attr (set_Size (bk_Stat name (mu_localCache fs))) n)
  end.

Definition SyncFile (inode : InodeID) : M fsMutable unit :=
  fs ← get_state;
  if decide (inode ∈ mu_backingFiles fs) then or_EIO (localCache (bk_Sync (getPathToBackingFile inode)))
  else panic "nil pointer dereference".

Definition FlushFile (inode : InodeID) : M fsMutable unit :=
  fs ← get_state;
  if decide (inode ∈ mu_backingFiles fs) then or_EIO (localCache (bk_Sync (getPathToBackingFile inode)))
  else mret tt.

(** ** The mount *)

(** The string of a store on the local file system is its name, an at sign and its
    directory. *)

Definition localPath (fullPath : string) : res string :=
  match Strings.split_on "@"%char fullPath with
  | localfs :: dir :: _ => if decide (localfs = "localfs") then Ok dir else Err (ErrMsg "bundle doesn't have localfs consumable store to provide local cache for mutable fs")
  | _ => Err (ErrMsg "bundle doesn't have localfs consumable store to provide local cache for mutable fs")
  end.

(** [base]: the file system below a directory; [consumable]: the string of the store. *)

Definition NewMutableFS (base : string -> A) (ts : Time.Time) (consumable : string) : res fsMutable :=
  pathToStaging ← localPath consumable;
  match initRoot ts (defaultMutableFS (base pathToStaging)) with
  | (Ok _, fs) => Ok fs
  | (Err e, _) => Err e
  | (Panic p, _) => Panic p
  end.

End ops.

Arguments fsMutable : clear implicits.

End FuseRW.
