(* ===== verification/FuseSafe.v ===== *)
(** * The state of the mutable mount (pkg/fuse: fs_rw_ops.go)

    The namespace is kept twice, by name and by inode: the invariant says that
    both agree with each other and with the nodes. It holds at the start, and
    every request the kernel may send keeps it and is answered, with the
    exceptions that the guards of [allowed] name. *)

From S2P Require Import Prelude GoLib Errors Radix CafsReader FuseCommon FuseRW.

Module FuseSafe.
Import FuseCommon FuseRW.

(** ** The invariant *)

(** [L]: the namespace by name; [N]: the nodes, and whether they are
    directories; [R]: the children of directories; [hi]: the highest inode. The
    root is its own child under the name "/", but not listed. *)

Record wf (L : InodeID -> string -> option InodeID) (N : InodeID -> option bool) (R : gmap InodeID (gmap InodeID Dirent)) (hi : Z) : Prop := {
  wf_root : N RootInodeID = Some true;
  wf_lookup p c j : inode_ok p -> L p c = Some j -> (p, c) <> (RootInodeID, rootPath) -> exists m d, R !! p = Some m /\ m !! j = Some d /\ de_Name d = c;
  wf_entry p m j d : R !! p = Some m -> m !! j = Some d ->
    de_Inode d = j /\ L p (de_Name d) = Some j /\ de_Name d <> rootPath /\ N j = Some (bool_decide (de_Type d = DT_Directory)) /\
    (de_Type d = DT_Directory -> is_Some (R !! j)) /\ (firstINode < j <= hi)%Z;
  wf_dir p m : R !! p = Some m -> N p = Some true /\ inode_ok p;
  wf_once p p' m m' j : R !! p = Some m -> R !! p' = Some m' -> is_Some (m !! j) -> is_Some (m' !! j) -> p = p';
  wf_nodes i : inode_ok i -> is_Some (N i) -> i = RootInodeID \/ (firstINode < i <= hi)%Z;
  wf_hi : (firstINode <= hi < 2 ^ 64)%Z
}.

Section namespace.
Variables (L : InodeID -> string -> option InodeID) (N : InodeID -> option bool) (R : gmap InodeID (gmap InodeID Dirent)) (hi : Z).
Hypothesis ok : wf L N R hi.

Lemma wf_ext L' N' : (forall p c, inode_ok p -> L' p c = L p c) -> (forall i, inode_ok i -> N' i = N i) -> wf L' N' R hi.
Proof.
  intros HL HN. pose proof (wf_hi _ _ _ _ ok) as Hhi. assert (Hin : forall j, (firstINode < j <= hi)%Z -> inode_ok j) by (unfold inode_ok, firstINode in *; lia).
  split; [by rewrite HN; [apply ok|]| | | | | |done].
  - intros p c j Hp. rewrite HL by done. by apply ok.
  - intros p m j d Hm Hd. destruct (wf_dir _ _ _ _ ok _ _ Hm) as [_ Hp]. destruct (wf_entry _ _ _ _ ok _ _ _ _ Hm Hd) as (H1 & H2 & H3 & H4 & H5 & H6).
    rewrite HL, HN by auto. done.
  - intros p m Hm. destruct (wf_dir _ _ _ _ ok _ _ Hm) as [H Hp]. by rewrite HN.
  - apply ok.
  - intros i Hi. rewrite HN by done. by apply ok.
Qed.

(** An inode without a node is used nowhere. *)

Lemma free_child i p m : N i = None -> R !! p = Some m -> m !! i = None.
Proof.
  intros Hi Hm. apply eq_None_not_Some. intros [d Hd]. destruct (wf_entry _ _ _ _ ok _ _ _ _ Hm Hd) as (_ & _ & _ & H & _). congruence.
Qed.

Lemma free_dir i : N i = None -> R !! i = None.
Proof. intros Hi. apply eq_None_not_Some. intros [m Hm]. apply (wf_dir _ _ _ _ ok) in Hm as [H _]. congruence. Qed.

Lemma above_free i : (hi < i < 2 ^ 64)%Z -> N i = None.
Proof.
  intros Hlt. pose proof (wf_hi _ _ _ _ ok) as Hhi. unfold firstINode in Hhi. apply eq_None_not_Some. intros Hs.
  destruct (wf_nodes _ _ _ _ ok i) as [H|H]; [unfold inode_ok; lia|done|unfold RootInodeID in H; lia|lia].
Qed.

(** A node that is listed nowhere. *)

Definition unlisted (R : gmap InodeID (gmap InodeID Dirent)) (j : InodeID) : Prop := forall p m, R !! p = Some m -> m !! j = None.

Definition with_dir (ty : DirentType) (i : InodeID) (m : gmap InodeID (gmap InodeID Dirent)) : gmap InodeID (gmap InodeID Dirent) :=
  if bool_decide (ty = DT_Directory) then <[i := ∅]> m else m.

Lemma with_dir_Some ty i q m : with_dir ty i R !! q = Some m -> (q = i /\ m = ∅ /\ ty = DT_Directory) \/ R !! q = Some m.
Proof. unfold with_dir. case_bool_decide as Hty; [|by right]. intros [[<- <-]|[_ H]]%lookup_insert_Some; [by left|by right]. Qed.

(** A new node. *)

Lemma wf_new N' ty i hi' : N i = None -> (firstINode < i <= hi')%Z -> (hi <= hi' < 2 ^ 64)%Z ->
  (forall q, inode_ok q -> N' q = if decide (q = i) then Some (bool_decide (ty = DT_Directory)) else N q) ->
  wf L N' (with_dir ty i R) hi' /\ unlisted (with_dir ty i R) i /\ (ty = DT_Directory -> is_Some (with_dir ty i R !! i)).
Proof.
  intros HNi Hi Hhi' HN. pose proof (free_dir i HNi) as HRi. pose proof (wf_hi _ _ _ _ ok) as Hhi.
  assert (Hoki : inode_ok i) by (unfold inode_ok, firstINode in *; lia).
  assert (Hold : forall q, inode_ok q -> q <> i -> N' q = N q) by (intros q Hq Hne; rewrite HN by done; by rewrite decide_False).
  assert (Hkeep : forall q m, R !! q = Some m -> with_dir ty i R !! q = Some m).
  { intros q m Hq. unfold with_dir. case_bool_decide; [|done]. rewrite lookup_insert_ne; [done|]. intros <-. by rewrite HRi in Hq. }
  split_and!; [split| |].
  - rewrite Hold; [apply ok|done|]. unfold RootInodeID, firstINode in *. lia.
  - intros q e j Hq HLq Hne. destruct (wf_lookup _ _ _ _ ok _ _ _ Hq HLq Hne) as (m & d & Hm & H). exists m, d. by rewrite (Hkeep _ _ Hm).
  - intros q m j d [(-> & -> & _)|Hm]%with_dir_Some Hd; [by rewrite lookup_empty in Hd|].
    destruct (wf_entry _ _ _ _ ok _ _ _ _ Hm Hd) as (H1 & H2 & H3 & H4 & H5 & H6). rewrite Hold; [|unfold inode_ok, firstINode in *; lia|congruence].
    split_and!; try done; try lia. intros [m' Hm']%H5. exists m'. by apply Hkeep.
  - intros q m [(-> & _ & ->)|Hm]%with_dir_Some.
    + rewrite HN by done. by rewrite decide_True, bool_decide_eq_true_2.
    + destruct (wf_dir _ _ _ _ ok _ _ Hm). rewrite Hold; [done|done|]. intros ->. by rewrite HRi in Hm.
  - intros q q' m m' j [(_ & -> & _)|Hm]%with_dir_Some [(_ & -> & _)|Hm']%with_dir_Some [d Hd] [d' Hd'];
      [by rewrite lookup_empty in Hd|by rewrite lookup_empty in Hd|by rewrite lookup_empty in Hd'|]. by eapply (wf_once _ _ _ _ ok).
  - intros q Hq. destruct (decide (q = i)) as [->|Hne]; [intros _; right; lia|]. rewrite Hold by done.
    intros [->|H]%(wf_nodes _ _ _ _ ok); [by left|right; lia|done].
  - lia.
  - intros q m [(_ & -> & _)|Hm]%with_dir_Some; [apply lookup_empty|]. by apply (free_child i q).
  - intros ->. unfold with_dir. rewrite bool_decide_eq_true_2 by done. rewrite lookup_insert_eq. by eexists.
Qed.

(** The node of a directory that was removed is dropped, and [hi'] bounds the
    nodes that are left. *)

Lemma wf_drop N' i hi' : i <> RootInodeID -> N i = Some true -> R !! i = None -> (firstINode <= hi' <= hi)%Z -> (forall q, N q <> None -> q <> i -> q <= hi -> q <= hi')%Z ->
  (forall q, inode_ok q -> N' q = if decide (q = i) then None else N q) -> wf L N' R hi'.
Proof.
  intros Hroot HNi HRi Hhi' Hle HN. pose proof (wf_hi _ _ _ _ ok) as Hhi.
  assert (Hold : forall q, inode_ok q -> q <> i -> N' q = N q) by (intros q Hq Hne; rewrite HN by done; by rewrite decide_False).
  split; [by rewrite Hold; [apply ok|done|]|apply ok| | |apply ok| |lia].
  - intros q m j d Hm Hd. destruct (wf_entry _ _ _ _ ok _ _ _ _ Hm Hd) as (H1 & H2 & H3 & H4 & H5 & H6).
    assert (j <> i) as Hne. { intros ->. rewrite HNi in H4. injection H4 as H4. symmetry in H4. apply bool_decide_eq_true in H4. destruct (H5 H4). congruence. }
    rewrite Hold; [|unfold inode_ok, firstINode in *; lia|done]. split_and!; try done; [lia|]. apply Hle; [congruence|done|lia].
  - intros q m Hm. destruct (wf_dir _ _ _ _ ok _ _ Hm). rewrite Hold; [done|done|]. intros ->. congruence.
  - intros q Hq. rewrite HN by done. destruct (decide (q = i)) as [->|Hne]; [by intros []|]. intros Hs.
    destruct (wf_nodes _ _ _ _ ok q Hq Hs) as [->|H]; [by left|right]. split; [lia|]. apply Hle; [by apply not_eq_None_Some|done|lia].
Qed.

(** A node is listed below the directory [p]. *)

Definition add_entry (p : InodeID) (d : Dirent) (m : gmap InodeID (gmap InodeID Dirent)) : gmap InodeID (gmap InodeID Dirent) :=
  <[p := <[de_Inode d := d]> (default ∅ (m !! p))]> m.

Lemma add_entry_Some p d q m k x : add_entry p d R !! q = Some m -> m !! k = Some x -> (q = p /\ k = de_Inode d /\ x = d) \/ exists m0, R !! q = Some m0 /\ m0 !! k = Some x.
Proof.
  unfold add_entry. intros [[<- <-]|[_ Hq]]%lookup_insert_Some Hk; [|eauto]. apply lookup_insert_Some in Hk as [[<- <-]|[_ Hk]]; [by left|].
  right. destruct (R !! p) as [m0|]; [eauto|]. cbn in Hk. by rewrite lookup_empty in Hk.
Qed.

Lemma wf_link L' p c ty i : unlisted R i -> (firstINode < i <= hi)%Z -> N i = Some (bool_decide (ty = DT_Directory)) -> (ty = DT_Directory -> is_Some (R !! i)) ->
  inode_ok p -> N p = Some true -> c <> rootPath -> L p c = None ->
  (forall q e, inode_ok q -> L' q e = if decide (q = p /\ e = c) then Some i else L q e) ->
  wf L' N (add_entry p (mkDirent 0 i c ty) R) hi.
Proof.
  intros Hun Hi HNi HRi Hp HNp Hc HLp HL. set (d0 := mkDirent 0 i c ty).
  assert (Hkeep : forall q, is_Some (R !! q) -> is_Some (add_entry p d0 R !! q)).
  { intros q Hq. unfold add_entry. destruct (decide (p = q)) as [->|]; [rewrite lookup_insert_eq; by eexists|by rewrite lookup_insert_ne]. }
  split; [apply ok| | | | |apply ok|apply ok].
  - intros q e j Hq HLq Hne. rewrite HL in HLq by done. destruct (decide (q = p /\ e = c)) as [[-> ->]|Hqe].
    + injection HLq as <-. exists (<[i := d0]> (default ∅ (R !! p))), d0. unfold add_entry. split; [by rewrite lookup_insert_eq|]. by rewrite lookup_insert_eq.
    + destruct (wf_lookup _ _ _ _ ok _ _ _ Hq HLq Hne) as (m & d & Hm & Hd & Hname). unfold add_entry. destruct (decide (p = q)) as [->|Hpq].
      * exists (<[i := d0]> m), d. rewrite lookup_insert_eq, Hm. split; [done|]. rewrite lookup_insert_ne; [done|]. intros <-. by rewrite (Hun _ _ Hm) in Hd.
      * exists m, d. by rewrite lookup_insert_ne.
  - intros q m j d Hm Hd. destruct (add_entry_Some p d0 q m j d Hm Hd) as [(-> & -> & ->)|(m0 & Hm0 & Hd0)].
    + cbn. rewrite HL by done. rewrite decide_True by done. split_and!; try done; try lia. auto.
    + destruct (wf_entry _ _ _ _ ok _ _ _ _ Hm0 Hd0) as (H1 & H2 & H3 & H4 & H5 & H6). destruct (wf_dir _ _ _ _ ok _ _ Hm0) as [_ ?].
      rewrite HL by done. rewrite decide_False by (intros [-> E]; rewrite E in H2; congruence). split_and!; try done; try lia. auto.
  - intros q m Hm. unfold add_entry in Hm. apply lookup_insert_Some in Hm as [[<- _]|[_ Hm]]; [done|by eapply (wf_dir _ _ _ _ ok)].
  - intros q q' m m' j Hm Hm' [d Hd] [d' Hd'].
    destruct (add_entry_Some p d0 q m j d Hm Hd) as [(-> & -> & _)|(m0 & Hm0 & Hd0)], (add_entry_Some p d0 q' m' _ d' Hm' Hd') as [(-> & E & _)|(m1 & Hm1 & Hd1)].
    + done.
    + cbn in Hd1. by rewrite (Hun _ _ Hm1) in Hd1.
    + subst j. cbn in Hd0. by rewrite (Hun _ _ Hm0) in Hd0.
    + by eapply (wf_once _ _ _ _ ok).
Qed.

(** A node is taken from the directory [p]. *)

Lemma alter_delete_Some p j q (m : gmap InodeID Dirent) : alter (delete j) p R !! q = Some m -> exists m0, R !! q = Some m0 /\ m = if decide (q = p) then delete j m0 else m0.
Proof.
  destruct (decide (q = p)) as [->|Hne]; [rewrite lookup_alter_eq|rewrite lookup_alter_ne by done; eauto].
  destruct (R !! p) as [m0|]; [|done]. intros [= <-]. eauto.
Qed.

Lemma wf_unlink L' p c j : inode_ok p -> L p c = Some j -> (p, c) <> (RootInodeID, rootPath) ->
  (forall q e, inode_ok q -> L' q e = if decide (q = p /\ e = c) then None else L q e) ->
  wf L' N (alter (delete j) p R) hi /\ unlisted (alter (delete j) p R) j.
Proof.
  intros Hp HLp Hroot HL. destruct (wf_lookup _ _ _ _ ok _ _ _ Hp HLp Hroot) as (mp & dp & Hmp & Hdp & Hnp).
  assert (Hun : unlisted (alter (delete j) p R) j).
  { intros q m (m0 & Hm0 & ->)%alter_delete_Some. destruct (decide (q = p)) as [->|Hne]; [apply lookup_delete_eq|]. apply eq_None_not_Some. intros Hs.
    destruct Hne. eapply (wf_once _ _ _ _ ok); [exact Hm0|exact Hmp|done|by eexists]. }
  assert (Hsub : forall q m k d, alter (delete j) p R !! q = Some m -> m !! k = Some d -> k <> j /\ exists m0, R !! q = Some m0 /\ m0 !! k = Some d).
  { intros q m k d Hm Hd. split; [intros ->; by rewrite (Hun _ _ Hm) in Hd|]. apply alter_delete_Some in Hm as (m0 & Hm0 & ->). exists m0. split; [done|].
    destruct (decide (q = p)); [by apply lookup_delete_Some in Hd as []|done]. }
  split; [|done]. split; [apply ok| | | | |apply ok|apply ok].
  - intros q e k Hq HLq Hne. rewrite HL in HLq by done. destruct (decide (q = p /\ e = c)) as [|Hqe]; [done|].
    destruct (wf_lookup _ _ _ _ ok _ _ _ Hq HLq Hne) as (m & d & Hm & Hd & Hname). destruct (decide (p = q)) as [->|Hpq].
    + exists (delete j m), d. rewrite lookup_alter_eq, Hm. split; [done|]. rewrite lookup_delete_ne; [done|]. intros <-. destruct Hqe. split; [done|]. congruence.
    + exists m, d. by rewrite lookup_alter_ne.
  - intros q m k d Hm Hd. destruct (Hsub _ _ _ _ Hm Hd) as (Hkj & m0 & Hm0 & Hd0).
    destruct (wf_entry _ _ _ _ ok _ _ _ _ Hm0 Hd0) as (H1 & H2 & H3 & H4 & H5 & H6). destruct (wf_dir _ _ _ _ ok _ _ Hm0) as [_ ?].
    rewrite HL by done. rewrite decide_False by (intros [-> E]; rewrite E in H2; congruence). split_and!; try done; try lia.
    intros [mk Hmk]%H5. destruct (decide (p = k)) as [->|]; [rewrite lookup_alter_eq, Hmk; by eexists|rewrite lookup_alter_ne by done; by eexists].
  - intros q m (m0 & Hm0 & _)%alter_delete_Some. by eapply (wf_dir _ _ _ _ ok).
  - intros q q' m m' k Hm Hm' [d Hd] [d' Hd']. destruct (Hsub _ _ _ _ Hm Hd) as (_ & m0 & Hm0 & Hd0), (Hsub _ _ _ _ Hm' Hd') as (_ & m1 & Hm1 & Hd1).
    by eapply (wf_once _ _ _ _ ok).
Qed.

(** The entries of a directory without children are dropped. *)

Lemma wf_rmdir j : unlisted R j -> default ∅ (R !! j) = ∅ -> wf L N (delete j R) hi.
Proof.
  intros Hun Hempty. split; [apply ok| | | | |apply ok|apply ok].
  - intros q e k Hq HLq Hne. destruct (wf_lookup _ _ _ _ ok _ _ _ Hq HLq Hne) as (m & d & Hm & Hd & H). exists m, d. rewrite lookup_delete_ne; [done|].
    intros ->. rewrite Hm in Hempty. cbn in Hempty. subst m. by rewrite lookup_empty in Hd.
  - intros q m k d [_ Hm]%lookup_delete_Some Hd. destruct (wf_entry _ _ _ _ ok _ _ _ _ Hm Hd) as (H1 & H2 & H3 & H4 & H5 & H6). split_and!; try done; try lia.
    intros ?%H5. rewrite lookup_delete_ne; [done|]. intros ->. by rewrite (Hun _ _ Hm) in Hd.
  - intros q m [_ Hm]%lookup_delete_Some. by apply (wf_dir _ _ _ _ ok) in Hm.
  - intros q q' m m' k [_ Hm]%lookup_delete_Some [_ Hm']%lookup_delete_Some. by eapply (wf_once _ _ _ _ ok).
Qed.

End namespace.

(** ** Requests *)

(** The calls on the local cache return. *)

Class BackingLaws (A : Type) `{Backing A} : Prop := {
  bk_OpenFile_returns k a msg : (bk_OpenFile k a).1 <> Panic msg;
  bk_Create_returns k a msg : (bk_Create k a).1 <> Panic msg;
  bk_ReadAt_returns k n off a msg : (bk_ReadAt k n off a).1 <> Panic msg;
  bk_WriteAt_returns k d off a msg : (bk_WriteAt k d off a).1 <> Panic msg;
  bk_Truncate_returns k sz a msg : (bk_Truncate k sz a).1 <> Panic msg;
  bk_Sync_returns k a msg : (bk_Sync k a).1 <> Panic msg
}.

Inductive request : Type :=
  | LookUp (p : InodeID) (c : string)
  | GetAttr (i : InodeID)
  | SetAttr (i : InodeID) (mode size : option Z) (atime mtime : option Time.Time)
  | Forget (i : InodeID)
  | Mkdir (ts : Time.Time) (p : InodeID) (c : string)
  | Create (ts : Time.Time) (p : InodeID) (c : string)
  | Move (p : InodeID) (c : string) (p' : InodeID) (c' : string)
  | Rmdir (p : InodeID) (c : string)
  | Remove (p : InodeID) (c : string)
  | List (direntSize : Dirent -> nat) (order : list InodeID) (i : InodeID) (offset : Z) (room : nat)
  | Read (i : InodeID) (n : nat) (offset : Z)
  | Write (i : InodeID) (data : bytes) (offset : Z)
  | Sync (i : InodeID)
  | Flush (i : InodeID).

Section state.
Context {T : Type -> Type} `{HRT : !Radix T, HRL : !RadixLaws T} {A : Type} `{HA : !Backing A, HAL : !BackingLaws A}.

Abbreviation St := (fsMutable T A).

Definition serve (r : request) : M St unit :=
  match r with
  | LookUp p c => _ ← LookUpInode p c; mret tt
  | GetAttr i => _ ← GetInodeAttributes i; mret tt
  | SetAttr i mode size atime mtime => _ ← SetInodeAttributes i mode size atime mtime; mret tt
  | Forget i => ForgetInode i
  | Mkdir ts p c => _ ← MkDir ts p c; mret tt
  | Create ts p c => _ ← CreateFile ts p c; mret tt
  | Move p c p' c' => Rename p c p' c'
  | Rmdir p c => RmDir p c
  | Remove p c => Unlink p c
  | List direntSize order i offset room => _ ← ReadDir direntSize order i offset room; mret tt
  | Read i n offset => _ ← ReadFile i n offset; mret tt
  | Write i data offset => WriteFile i data offset
  | Sync i => SyncFile i
  | Flush i => FlushFile i
  end.

Definition names (fs : St) (p : InodeID) (c : string) : option InodeID := le_iNode <$> FuseRW.lookup p c fs.

Definition kinds (fs : St) (i : InodeID) : option bool := is_dir <$> node i fs.

Abbreviation highest fs := (highestInode (mu_iNodeGenerator fs)).

(** The inodes that can be given again have no node. *)

Definition free_ok (N : InodeID -> option bool) (g : iNodeGenerator) : Prop :=
  NoDup (freeInodes g) /\ forall i, i ∈ freeInodes g -> (firstINode < i <= highestInode g)%Z /\ N i = None.

Definition fs_ok (fs : St) : Prop :=
  wf (names fs) (kinds fs) (mu_readDirMap fs) (highest fs) /\ free_ok (kinds fs) (mu_iNodeGenerator fs).

Lemma free_ok_ext (N N' : InodeID -> option bool) g : (highestInode g < 2 ^ 64)%Z -> free_ok N g ->
  (forall i, inode_ok i -> i ∈ freeInodes g -> N' i = N i) -> free_ok N' g.
Proof.
  intros Hhi [Hnd Hf] HN. split; [done|]. intros i Hi. destruct (Hf i Hi) as [Hr Hnone]. split; [done|]. rewrite HN; [done| |done]. unfold inode_ok, firstINode in *. lia.
Qed.

Lemma fs_ok_hi fs : fs_ok fs -> (firstINode <= highest fs < 2 ^ 64)%Z.
Proof. intros [Hwf _]. apply (wf_hi _ _ _ _ Hwf). Qed.

(** An inode is left, and the generator is not in the state in which it forgets
    its highest inode, the one of inode_given_twice: a single inode is free. *)

Definition inode_left (fs : St) : Prop := (highest fs + 1 < 2 ^ 64)%Z /\ length (freeInodes (mu_iNodeGenerator fs)) <> 1.

(** What the kernel sees to, and what the code does not handle: the last
    reference to a directory is dropped after its removal, MkDir is called for a
    name that is free, a directory with children is not replaced, SyncFile is
    called for a file with a backing file, a new node is not asked for when a
    single inode is free. *)

Definition allowed (fs : St) (r : request) : Prop :=
  match r with
  | LookUp p c | Rmdir p c | Remove p c => inode_ok p /\ c <> rootPath
  | GetAttr i | SetAttr i _ _ _ _ => inode_ok i
  | Forget i => inode_ok i /\ exists n, node i fs = Some n /\ (0 < ne_refCount n)%Z /\
      (shouldDelete (add_refs (-1) n) = true -> i <> RootInodeID /\ is_dir n = true /\ mu_readDirMap fs !! i = None)
  | Mkdir _ p c => inode_ok p /\ c <> rootPath /\ kinds fs p = Some true /\ names fs p c = None /\ inode_left fs
  | Create _ p c => inode_ok p /\ c <> rootPath /\ inode_left fs
  | Move p c p' c' => inode_ok p /\ inode_ok p' /\ c <> rootPath /\ c' <> rootPath /\ kinds fs p' = Some true /\ (p, c) <> (p', c') /\
      (forall j, names fs p' c' = Some j -> default ∅ (mu_readDirMap fs !! j) = ∅)
  | Write i _ _ => inode_ok i /\ is_Some (node i fs)
  | Sync i => i ∈ mu_backingFiles fs
  | List _ _ _ _ _ | Read _ _ _ | Flush _ => True
  end.

(** ** Computations that return *)

Definition ends {X} (m : M St X) (fs : St) (Q : res X -> St -> Prop) : Prop :=
  match m fs with
  | (Panic _, _) => False
  | (r, fs') => Q r fs'
  end.

Lemma ends_bind {X Y} (m : M St X) (f : X -> M St Y) fs (Q : res Y -> St -> Prop) :
  ends m fs (fun r fs' => match r with Ok x => ends (f x) fs' Q | Err e => Q (Err e) fs' | Panic _ => False end) -> ends (m ≫= f) fs Q.
Proof. unfold ends, mbind, M_bind. by destruct (m fs) as [[x|e|p] fs']. Qed.

Lemma ends_get {Y} (f : St -> M St Y) fs (Q : res Y -> St -> Prop) : ends (f fs) fs Q -> ends (get_state ≫= f) fs Q.
Proof. done. Qed.

Lemma ends_mono {X} (m : M St X) fs (P Q : res X -> St -> Prop) : ends m fs P -> (forall r fs', P r fs' -> Q r fs') -> ends m fs Q.
Proof. unfold ends. intros H HPQ. destruct (m fs) as [[x|e|p] fs']; auto. Qed.

Lemma ends_attempt {X} (m : M St X) fs (Q : res (X + error) -> St -> Prop) :
  ends m fs (fun r fs' => match r with Ok x => Q (Ok (inl x)) fs' | Err e => Q (Ok (inr e)) fs' | Panic _ => False end) -> ends (attempt m) fs Q.
Proof. unfold ends, attempt. by destruct (m fs) as [[x|e|p] fs']. Qed.

(** The namespace and the nodes are those of [fs]. *)

Definition same_view (fs fs' : St) : Prop :=
  mu_lookupTree fs' = mu_lookupTree fs /\ mu_iNodeStore fs' = mu_iNodeStore fs /\ mu_readDirMap fs' = mu_readDirMap fs /\ mu_iNodeGenerator fs' = mu_iNodeGenerator fs.

Lemma same_view_ok fs fs' : same_view fs fs' -> fs_ok fs -> fs_ok fs'.
Proof. intros (H1 & H2 & H3 & H4) Hok. unfold fs_ok, names, kinds, FuseRW.lookup, node in *. by rewrite H1, H2, H3, H4. Qed.

Lemma ends_cache {X} (m : M A X) fs (Q : res X -> St -> Prop) : (forall msg, (m (mu_localCache fs)).1 <> Panic msg) ->
  (forall r a, Q r (set_cache a fs)) -> ends (localCache m) fs Q.
Proof. intros Hm HQ. unfold ends, localCache. specialize (Hm : forall msg, _). destruct (m (mu_localCache fs)) as [[x|e|p] a]; [apply HQ|apply HQ|by destruct (Hm p)]. Qed.

Lemma ends_EIO {X} (m : M A X) fs (Q : res X -> St -> Prop) : (forall msg, (m (mu_localCache fs)).1 <> Panic msg) ->
  (forall r a, Q r (set_cache a fs)) -> ends (or_EIO (localCache m)) fs Q.
Proof.
  intros Hm HQ. unfold or_EIO, ends, attempt, localCache, mbind, M_bind. destruct (m (mu_localCache fs)) as [[x|e|p] a]; [apply HQ|apply HQ|by destruct (Hm p)].
Qed.

(** ** Changes of the state *)

Lemma node_update i n (fs : St) q : inode_ok i -> inode_ok q ->
  node q (on_iNodeStore (r_Insert (formKey i) n) fs) = if decide (q = i) then Some n else node q fs.
Proof.
  intros Hi Hq. unfold node. cbn. destruct (decide (q = i)) as [->|Hne]; [apply r_Get_Insert|]. apply r_Get_Insert_ne. by intros ->%formKey_inj.
Qed.

Lemma lookup_insert_name p c le (fs : St) q e : inode_ok p -> inode_ok q ->
  FuseRW.lookup q e (on_lookupTree (r_Insert (formLookupKey p c) le) fs) = if decide (q = p /\ e = c) then Some le else FuseRW.lookup q e fs.
Proof.
  intros Hp Hq. unfold FuseRW.lookup. cbn. destruct (decide (q = p /\ e = c)) as [[-> ->]|Hne]; [apply r_Get_Insert|]. apply r_Get_Insert_ne.
  intros [-> ->]%formLookupKey_inj; [tauto|done..].
Qed.

Lemma lookup_delete_name p c (fs : St) q e : inode_ok p -> inode_ok q ->
  FuseRW.lookup q e (on_lookupTree (r_Delete (formLookupKey p c)) fs) = if decide (q = p /\ e = c) then None else FuseRW.lookup q e fs.
Proof.
  intros Hp Hq. unfold FuseRW.lookup. cbn. destruct (decide (q = p /\ e = c)) as [[-> ->]|Hne]; [apply r_Get_Delete|]. apply r_Get_Delete_ne.
  intros [-> ->]%formLookupKey_inj; [tauto|done..].
Qed.

(** A node is replaced by one of the same kind. *)

Lemma update_ok i n n' (fs : St) : inode_ok i -> fs_ok fs -> node i fs = Some n -> is_dir n' = is_dir n -> fs_ok (on_iNodeStore (r_Insert (formKey i) n') fs).
Proof.
  intros Hi [Hwf Hg] Hn Hd. assert (HK : forall q, inode_ok q -> kinds (on_iNodeStore (r_Insert (formKey i) n') fs) q = kinds fs q).
  { intros q Hq. unfold kinds. rewrite node_update by done. destruct (decide (q = i)) as [->|]; [|done]. rewrite Hn. cbn. by rewrite Hd. }
  split; [by eapply wf_ext|]. eapply free_ok_ext; [apply (wf_hi _ _ _ _ Hwf)|exact Hg|]. intros q Hq _. by apply HK.
Qed.

(** ** Removal *)

(** The nodes after the removal of [j] from [p]: the link of a directory to its
    parent is gone. *)

Definition unlinked_node (fs : St) (p j q : InodeID) : option nodeEntry :=
  if decide (q = p /\ kinds fs j = Some true) then on_attr (fun a => set_Nlink (Int.uint32 (ia_Nlink a - 1)) a) <$> node q fs else node q fs.

Record removed (p : InodeID) (c : string) (j : InodeID) (fs fs' : St) : Prop := {
  rm_ok : fs_ok fs';
  rm_names q e : inode_ok q -> names fs' q e = if decide (q = p /\ e = c) then None else names fs q e;
  rm_kinds q : inode_ok q -> kinds fs' q = kinds fs q;
  rm_rest : mu_backingFiles fs' = mu_backingFiles fs /\ mu_localCache fs' = mu_localCache fs;
  rm_children q m k d : mu_readDirMap fs !! q = Some m -> m !! k = Some d -> k <> j -> exists m', mu_readDirMap fs' !! q = Some m' /\ m' !! k = Some d;
  rm_gen : mu_iNodeGenerator fs' = mu_iNodeGenerator fs;
  rm_lookup q e : inode_ok q -> ~ (q = p /\ e = c) -> FuseRW.lookup q e fs' = FuseRW.lookup q e fs
}.

Lemma alter_delete_comm p j (R : gmap InodeID (gmap InodeID Dirent)) : p <> j -> alter (delete j) p (delete j R) = delete j (alter (delete j) p R).
Proof.
  intros Hne. apply map_eq. intros q. destruct (decide (q = j)) as [->|Hq].
  - rewrite lookup_alter_ne by done. by rewrite !lookup_delete_eq.
  - rewrite lookup_delete_ne by done. destruct (decide (q = p)) as [->|Hqp]; [|by rewrite !lookup_alter_ne, lookup_delete_ne].
    rewrite !lookup_alter_eq. by rewrite lookup_delete_ne.
Qed.

(** The entry is taken out of both views. *)

Definition unlinked (p : InodeID) (c : string) (j : InodeID) (fs : St) : St :=
  on_readDirMap (alter (delete j) p) (on_lookupTree (r_Delete (formLookupKey p c)) fs).

Lemma unlinked_file p c j fs : inode_ok p -> c <> rootPath -> fs_ok fs -> names fs p c = Some j -> removed p c j fs (unlinked p c j fs).
Proof.
  intros Hp Hc [Hwf Hg] Hn. assert (HL : forall q e, inode_ok q -> names (unlinked p c j fs) q e = if decide (q = p /\ e = c) then None else names fs q e).
  { intros q e Hq. unfold names. change (FuseRW.lookup q e (unlinked p c j fs)) with (FuseRW.lookup q e (on_lookupTree (r_Delete (formLookupKey p c)) fs)).
    rewrite lookup_delete_name by done. by destruct (decide (q = p /\ e = c)). }
  split; [split; [|done]|done|done|done| |done|].
  - eapply (wf_unlink _ _ _ _ Hwf); [done|done|congruence|exact HL].
  - intros q m k d Hm Hd Hk. cbn. destruct (decide (p = q)) as [->|]; [|rewrite lookup_alter_ne by done; eauto].
    rewrite lookup_alter_eq, Hm. eexists. split; [done|]. by rewrite lookup_delete_ne.
  - intros q e Hq Hne. change (FuseRW.lookup q e (unlinked p c j fs)) with (FuseRW.lookup q e (on_lookupTree (r_Delete (formLookupKey p c)) fs)).
    rewrite lookup_delete_name by done. by rewrite decide_False.
Qed.

Lemma unlinked_dir p c j pn fs : inode_ok p -> c <> rootPath -> fs_ok fs -> names fs p c = Some j -> node p fs = Some pn ->
  default ∅ (mu_readDirMap fs !! j) = ∅ ->
  removed p c j fs (unlinked p c j (on_iNodeStore (r_Insert (formKey p) (on_attr (fun a => set_Nlink (Int.uint32 (ia_Nlink a - 1)) a) pn)) (on_readDirMap (delete j) fs))).
Proof.
  intros Hp Hc Hok Hn Hpn He. set (pn' := on_attr _ pn). set (fs1 := on_iNodeStore (r_Insert (formKey p) pn') fs).
  assert (Hok1 : fs_ok fs1) by (by eapply update_ok). destruct (unlinked_file p c j fs1 Hp Hc Hok1 Hn) as [[Hwf Hg] HL _ _ HR _ Hlk].
  assert (HK : forall q, inode_ok q -> kinds fs1 q = kinds fs q).
  { intros q Hq. unfold kinds, fs1. rewrite node_update by done. destruct (decide (q = p)) as [->|]; [by rewrite Hpn|done]. }
  destruct Hok as [Hwf0 _]. destruct (wf_lookup _ _ _ _ Hwf0 p c j Hp Hn) as (mp & dp & Hmp & Hdp & _); [congruence|].
  assert (p <> j) as Hpj by (intros ->; rewrite Hmp in He; cbn in He; subst mp; by rewrite lookup_empty in Hdp).
  split; [split; [|exact Hg]|exact HL|exact HK|done| |done|exact Hlk].
  - change (mu_readDirMap (unlinked p c j _)) with (alter (delete j) p (delete j (mu_readDirMap fs))). rewrite alter_delete_comm by done.
    eapply (wf_rmdir _ _ _ _ Hwf); cbn.
    + destruct Hok1 as [Hwf1 _]. eapply (wf_unlink _ _ _ _ Hwf1 _ p c j Hp Hn); [congruence|]. intros q e Hq. by apply HL.
    + by rewrite lookup_alter_ne.
  - intros q m k d Hm Hd Hk. assert (q <> j) as Hqj by (intros ->; rewrite Hm in He; cbn in He; subst m; by rewrite lookup_empty in Hd).
    destruct (HR q m k d Hm Hd Hk) as (m' & Hm' & Hd'). exists m'. split; [|done]. cbn in Hm' |- *. rewrite alter_delete_comm by done.
    by rewrite lookup_delete_ne.
Qed.

(** An error leaves everything as it was. *)

Lemma deleteNSEntry_cases p c fs : inode_ok p -> c <> rootPath -> fs_ok fs ->
  (exists e, deleteNSEntry p c fs = (Err e, fs) /\ (kinds fs p = None \/ names fs p c = None \/ exists j, names fs p c = Some j /\ default ∅ (mu_readDirMap fs !! j) <> ∅)) \/
  (exists j fs', names fs p c = Some j /\ deleteNSEntry p c fs = (Ok tt, fs') /\ removed p c j fs fs' /\ forall q, inode_ok q -> node q fs' = unlinked_node fs p j q).
Proof.
  intros Hp Hc Hok. unfold deleteNSEntry, mbind, M_bind, get_state, modify, update_node, panic, fail.
  destruct (node p fs) as [pn|] eqn:Epn; [|left; eexists; split; [done|]; left; unfold kinds; by rewrite Epn].
  destruct (FuseRW.lookup p c fs) as [le|] eqn:El; [|left; eexists; split; [done|]; right; left; unfold names; by rewrite El].
  assert (Hn : names fs p c = Some (le_iNode le)) by (unfold names; by rewrite El).
  destruct Hok as [Hwf Hg]. destruct (wf_lookup _ _ _ _ Hwf p c _ Hp Hn) as (m & d & Hm & Hd & _); [congruence|].
  destruct (wf_entry _ _ _ _ Hwf _ _ _ _ Hm Hd) as (_ & _ & _ & Hk & _). unfold kinds in Hk.
  destruct (node (le_iNode le) fs) as [cn|] eqn:Ecn; [|done]. cbn in Hk. destruct (is_dir cn) eqn:Edir.
  - destruct (decide (default ∅ (mu_readDirMap fs !! le_iNode le) <> ∅)) as [He|He]; [left; eexists; split; [done|]; right; right; eauto|]. right. eexists _, _. split; [done|]. split; [reflexivity|]. split.
    + apply unlinked_dir; [done|done|by split|done|done|]. apply dec_stable. intros H. by destruct He.
    + intros q Hq. unfold unlinked_node, kinds. rewrite Ecn. cbn [fmap option_fmap option_map]. rewrite Edir. set (pn' := on_attr _ pn).
      match goal with |- ?l = _ => change l with (node q (on_iNodeStore (r_Insert (formKey p) pn') fs)) end. rewrite node_update by done.
      destruct (decide (q = p)) as [->|]; [rewrite decide_True by done; by rewrite Epn|by rewrite decide_False by tauto].
  - right. eexists _, _. split; [done|]. split; [reflexivity|]. split; [apply unlinked_file; [done|done|by split|done]|]. intros q Hq. unfold unlinked_node, kinds. rewrite Ecn. cbn. rewrite Edir. by rewrite decide_False by naive_solver.
Qed.

(** ** Creation *)

(** The generator hands out an inode without a node. *)

Lemma alloc_fresh fs : fs_ok fs -> inode_left fs -> exists i g, allocINode (mu_iNodeGenerator fs) = (i, g) /\ kinds fs i = None /\
  (firstINode < i <= highestInode g)%Z /\ (highest fs <= highestInode g < 2 ^ 64)%Z /\ free_ok (kinds fs) g /\ i ∉ freeInodes g.
Proof.
  intros [Hwf [Hnd Hf]] [Hmax Hone]. pose proof (wf_hi _ _ _ _ Hwf) as Hhi. unfold allocINode. set (g := mu_iNodeGenerator fs) in *.
  destruct (last (freeInodes g)) as [n|] eqn:El.
  - apply last_Some in El as [l E]. rewrite E in *. rewrite length_app in Hone. cbn in Hone. exists n. eexists. split; [reflexivity|].
    assert (take (length (l ++ [n]) - 1) (l ++ [n]) = l) as -> by (rewrite length_app; cbn; apply take_app_exact; lia).
    rewrite decide_False by (intros ->; by apply Hone). cbn [highestInode freeInodes]. apply NoDup_app in Hnd as (Hnd & Hdis & _).
    destruct (Hf n ltac:(set_solver)) as [Hr Hn]. split_and!; [done|lia|lia|lia|lia| |]; [split; [done|]; intros i Hi; apply Hf; set_solver|].
    intros H. by apply (Hdis n H), list_elem_of_singleton.
  - exists (succ (highestInode g)), (mkGenerator (succ (highestInode g)) []). unfold succ, Int.uint64, firstINode in *. rewrite Z.mod_small by lia. cbn.
    split_and!; [done| |lia|lia|lia|lia| |by apply not_elem_of_nil].
    + apply (above_free _ _ _ _ Hwf). lia.
    + split; [apply NoDup_nil_2|]. by intros i ?%elem_of_nil.
Qed.

Record created (i p : InodeID) (c : string) (ty : DirentType) (g : iNodeGenerator) (fs fs' : St) : Prop := {
  cr_names q e : inode_ok q -> names fs' q e = if decide (q = p /\ e = c) then Some i else names fs q e;
  cr_kinds q : inode_ok q -> kinds fs' q = if decide (q = i) then Some (bool_decide (ty = DT_Directory)) else kinds fs q;
  cr_children : mu_readDirMap fs' = add_entry p (mkDirent 0 i c ty) (with_dir ty i (mu_readDirMap fs));
  cr_gen : mu_iNodeGenerator fs' = g
}.

Definition creatable (p : InodeID) (c : string) (fs : St) : Prop :=
  inode_ok p /\ c <> rootPath /\ kinds fs p = Some true /\ names fs p c = None /\ inode_left fs.

Lemma created_ok p c ty i g fs fs' : fs_ok fs -> creatable p c fs -> allocINode (mu_iNodeGenerator fs) = (i, g) -> created i p c ty g fs fs' -> fs_ok fs'.
Proof.
  intros Hok (Hp & Hc & Hk & Hn & Hleft) Hal [HL HK HR Hgen]. destruct (alloc_fresh fs Hok Hleft) as (i' & g' & Hal' & HNi & Hi & Hg & Hfree & Hnot).
  rewrite Hal in Hal'. injection Hal' as <- <-. destruct Hok as [Hwf _]. assert (Hoki : inode_ok i) by (unfold inode_ok, firstINode in *; lia).
  destruct (wf_new _ _ _ _ Hwf (kinds fs') ty i (highestInode g) HNi Hi Hg HK) as (Hwf1 & Hun & Hdir).
  unfold fs_ok. rewrite Hgen. split.
  - rewrite HR. eapply (wf_link _ _ _ _ Hwf1); [done|lia| |done|done| |done|exact Hn|exact HL].
    + rewrite HK by done. by rewrite decide_True.
    + rewrite HK by done. rewrite decide_False; [done|]. intros ->. congruence.
  - eapply free_ok_ext; [apply Hg|exact Hfree|]. intros q Hq Hin. rewrite HK by done. rewrite decide_False; [done|]. by intros ->.
Qed.

(** The changes of createNode before the node of the parent is updated. *)

Definition with_child (i p : InodeID) (c : string) (ty : DirentType) (g : iNodeGenerator) (n : nodeEntry) (fs : St) : St :=
  on_iNodeStore (r_Insert (formKey i) n) (on_readDirMap (fun m => add_entry p (mkDirent 0 i c ty) (with_dir ty i m))
    (on_lookupTree (r_Insert (formLookupKey p c) (mkLookupEntry i 0)) (set_generator g fs))).

Lemma with_child_created i p c ty g n (fs fs' : St) : inode_ok i -> inode_ok p -> is_dir n = bool_decide (ty = DT_Directory) ->
  same_view (with_child i p c ty g n fs) fs' -> created i p c ty g fs fs'.
Proof.
  intros Hi Hp Hn (H1 & H2 & H3 & H4). split.
  - intros q e Hq. unfold names, FuseRW.lookup. rewrite H1. pose proof (lookup_insert_name p c (mkLookupEntry i 0) fs q e Hp Hq) as H.
    unfold FuseRW.lookup in H. cbn in H |- *. rewrite H. by destruct (decide (q = p /\ e = c)).
  - intros q Hq. unfold kinds, node. rewrite H2. pose proof (node_update i n fs q Hi Hq) as H. unfold node in H. cbn in H |- *. rewrite H.
    destruct (decide (q = i)); [cbn; by rewrite Hn|done].
  - by rewrite H3.
  - by rewrite H4.
Qed.

Lemma created_update i p c ty g k n n' (fs fs' : St) : created i p c ty g fs fs' -> inode_ok k -> node k fs' = Some n -> is_dir n' = is_dir n ->
  created i p c ty g fs (on_iNodeStore (r_Insert (formKey k) n') fs').
Proof.
  intros [H1 H2 H3 H4] Hk Hn Hd. split; [done| |done|done]. intros q Hq. rewrite <- H2 by done. unfold kinds. rewrite node_update by done.
  destruct (decide (q = k)) as [->|]; [|done]. rewrite Hn. cbn. by rewrite Hd.
Qed.

Lemma alloc_run (fs : St) i g : allocINode (mu_iNodeGenerator fs) = (i, g) -> alloc fs = (Ok i, set_generator g fs).
Proof. intros E. unfold alloc. by rewrite E. Qed.

Lemma createNode_run ts p c ty (fs : St) : fs_ok fs -> creatable p c fs -> exists i g attr fs', allocINode (mu_iNodeGenerator fs) = (i, g) /\
  createNode ts (formLookupKey p c) p c ty false fs = (Ok (i, attr), fs') /\ created i p c ty g fs fs'.
Proof.
  intros Hok (Hp & Hc & Hk & Hn & Hleft). destruct (alloc_fresh fs Hok Hleft) as (i & g & Hal & HNi & Hri & Hrg & _). exists i, g.
  assert (Hi : inode_ok i) by (unfold inode_ok, firstINode in *; lia). unfold createNode. rewrite (M_bind_step _ _ _ _ _ (alloc_run fs i g Hal)). destruct ty.
  - rewrite (bool_decide_eq_false_2 (DT_File = DT_Directory)) by done. unfold create_backing, attempt, localCache, mbind, M_bind, modify, update_node, insertReadDirEntry, mret, M_ret.
    cbn [mu_localCache on_lookupTree set_generator]. pose proof (bk_Create_returns (getPathToBackingFile i) (mu_localCache fs)) as Hcr.
    destruct (bk_Create _ (mu_localCache fs)) as [[[]|err|msg] a]; [| |by destruct (Hcr msg)];
      (eexists _, _; split; [done|]; split; [reflexivity|]; eapply (with_child_created _ _ _ _ _ _ fs); [done|done| |split_and!; reflexivity]; reflexivity).
  - rewrite (bool_decide_eq_true_2 (DT_Directory = DT_Directory)) by done.
    unfold mbind, M_bind, update_node, insertReadDirEntry, mret, M_ret, get_state, modify. cbv beta iota.
    set (attr := mkAttr _ _ _ _ _ _ _ _ _). set (n := mkNodeEntry 1 attr (getPathToBackingFile i)).
    assert (Hcr : created i p c DT_Directory g fs (with_child i p c DT_Directory g n fs)) by (apply (with_child_created i p c DT_Directory g n fs); [done|done|vm_compute; reflexivity|by split_and!]).
    match goal with |- context [node p ?s] => change s with (with_child i p c DT_Directory g n fs) end.
    pose proof (cr_kinds _ _ _ _ _ _ _ Hcr p Hp) as Hkp. rewrite decide_False in Hkp by congruence. rewrite Hk in Hkp. unfold kinds in Hkp.
    destruct (node p (with_child i p c DT_Directory g n fs)) as [pn|] eqn:Epn; [|done].
    eexists _, _. split; [done|]. split; [reflexivity|]. eapply created_update; [exact Hcr|done|exact Epn|done].
Qed.

(** ** Renaming *)

Record moved (p : InodeID) (c : string) (p' : InodeID) (c' : string) (j : InodeID) (fs fs' : St) : Prop := {
  mv_ok : fs_ok fs';
  mv_names q e : inode_ok q -> names fs' q e =
    if decide (q = p' /\ e = c') then Some j else if decide (q = p /\ e = c) then None else names fs q e;
  mv_kinds q : inode_ok q -> kinds fs' q = kinds fs q;
  mv_nodes q : inode_ok q -> node q fs' = match names fs p' c' with Some k => unlinked_node fs p' k q | None => node q fs end;
  mv_rest : mu_backingFiles fs' = mu_backingFiles fs /\ mu_localCache fs' = mu_localCache fs /\ mu_iNodeGenerator fs' = mu_iNodeGenerator fs
}.

Lemma move_entry_run p c p' c' le (fs : St) : inode_ok p -> inode_ok p' -> c <> rootPath -> c' <> rootPath -> fs_ok fs ->
  FuseRW.lookup p c fs = Some le -> names fs p' c' = None -> kinds fs p' = Some true ->
  exists fs', move_entry p c p' c' le fs = (Ok tt, fs') /\ moved p c p' c' (le_iNode le) fs fs'.
Proof.
  intros Hp Hp' Hc Hc' Hok Hle Hfree Hk'. assert (Hn : names fs p c = Some (le_iNode le)) by (unfold names; by rewrite Hle).
  pose proof Hok as [Hwf Hg]. destruct (wf_lookup _ _ _ _ Hwf p c _ Hp Hn) as (m & d & Hm & Hd & Hdn); [congruence|].
  destruct (wf_entry _ _ _ _ Hwf _ _ _ _ Hm Hd) as (Hdi & _ & _ & Hk & Hdir & Hrange).
  unfold move_entry, mbind, M_bind, get_state, insertReadDirEntry, insertLookupEntry, modify. rewrite Hm. cbn [default id]. rewrite Hd, Hdi.
  change (FuseRW.lookup p c (on_readDirMap _ fs)) with (FuseRW.lookup p c fs). rewrite Hle.
  eexists. split; [reflexivity|]. set (j := le_iNode le) in *. set (fs1 := unlinked p c j fs).
  destruct (unlinked_file p c j fs Hp Hc Hok Hn) as [[Hwf1 Hg1] HL1 HK1 _ _ _ _]. fold fs1 in Hwf1, HL1, HK1.
  set (fs' := on_lookupTree _ _).
  assert (HL : forall q e, inode_ok q -> names fs' q e = if decide (q = p' /\ e = c') then Some j else names fs1 q e).
  { intros q e Hq. unfold names. change (FuseRW.lookup q e fs') with (FuseRW.lookup q e (on_lookupTree (r_Insert (formLookupKey p' c') le) fs1)).
    rewrite lookup_insert_name by done. by destruct (decide (q = p' /\ e = c')). }
  destruct (wf_unlink _ _ _ _ Hwf (names fs1) p c j Hp Hn) as [_ Hun]; [congruence|exact HL1|].
  split; [split; [|exact Hg]| |done|by intros q Hq; rewrite Hfree|done].
  - eapply (wf_link _ _ _ _ Hwf1 (names fs') p' c' (de_Type d) j); [exact Hun|exact Hrange|exact Hk| |done|exact Hk'|done| |exact HL].
    + intros [x Hx]%Hdir. cbn. destruct (decide (p = j)) as [->|]; [rewrite lookup_alter_eq, Hx|rewrite lookup_alter_ne, Hx by done]; by eexists.
    + rewrite HL1 by done. by destruct (decide (p' = p /\ c' = c)).
  - intros q e Hq. rewrite HL by done. by rewrite HL1.
Qed.

Lemma names_inj p c p' c' j (fs : St) : fs_ok fs -> inode_ok p -> inode_ok p' -> c <> rootPath -> c' <> rootPath ->
  names fs p c = Some j -> names fs p' c' = Some j -> p = p' /\ c = c'.
Proof.
  intros [Hwf _] Hp Hp' Hc Hc' H H'. destruct (wf_lookup _ _ _ _ Hwf p c j Hp H) as (m & d & Hm & Hd & <-); [congruence|].
  destruct (wf_lookup _ _ _ _ Hwf p' c' j Hp' H') as (m' & d' & Hm' & Hd' & <-); [congruence|].
  assert (p = p') as -> by (by eapply (wf_once _ _ _ _ Hwf)). split; [done|]. congruence.
Qed.

Lemma Rename_run p c p' c' (fs : St) : fs_ok fs -> allowed fs (Move p c p' c') ->
  (exists e, Rename p c p' c' fs = (Err e, fs)) \/
  (exists j fs', names fs p c = Some j /\ Rename p c p' c' fs = (Ok tt, fs') /\ moved p c p' c' j fs fs').
Proof.
  intros Hok (Hp & Hp' & Hc & Hc' & Hk' & Hne & Hempty). unfold Rename, mbind, M_bind, get_state.
  destruct (FuseRW.lookup p c fs) as [le|] eqn:El; [|left; by eexists]. assert (Hn : names fs p c = Some (le_iNode le)) by (unfold names; by rewrite El).
  destruct (FuseRW.lookup p' c' fs) as [le'|] eqn:El'.
  - assert (Hn' : names fs p' c' = Some (le_iNode le')) by (unfold names; by rewrite El'). destruct (IsDir (le_mode le')); [left; by eexists|]. right.
    destruct (deleteNSEntry_cases p' c' fs Hp' Hc' Hok) as [(e & _ & [?|[?|(j & ? & ?)]])|(j & fs1 & Hj & E & [Hok1 HL1 HK1 Hrest1 _ Hgen1 Hlk1] & HN1)];
      [congruence|congruence|exfalso; by eapply H0, Hempty|].
    unfold attempt. rewrite E. cbn. assert (Hle1 : FuseRW.lookup p c fs1 = Some le) by (rewrite Hlk1; [done|done|intros [-> ->]; by destruct Hne]).
    destruct (move_entry_run p c p' c' le fs1) as (fs' & E' & [Ho HL HK HN Hrest]); try done.
    + rewrite HL1 by done. by rewrite decide_True.
    + by rewrite HK1.
    + exists (le_iNode le), fs'. split; [done|]. split; [exact E'|]. split; [done| | | |].
      * intros q e Hq. rewrite HL by done. destruct (decide (q = p' /\ e = c')); [done|]. destruct (decide (q = p /\ e = c)); [done|]. rewrite HL1 by done. by rewrite decide_False.
      * intros q Hq. rewrite HK by done. by apply HK1.
      * intros q Hq. rewrite HN, Hj by done. rewrite HL1 by done. rewrite decide_True by done. by apply HN1.
      * destruct Hrest1 as [-> ->] in Hrest. by rewrite Hgen1 in Hrest.
  - right. destruct (move_entry_run p c p' c' le fs) as (fs' & E' & Hmv); try done; [unfold names; by rewrite El'|].
    by exists (le_iNode le), fs'.
Qed.

(** ** All requests *)

Lemma ends_update i n n' (fs : St) (Q : res unit -> St -> Prop) : (forall fs', fs_ok fs' -> Q (Ok tt) fs') ->
  inode_ok i -> fs_ok fs -> node i fs = Some n -> is_dir n' = is_dir n -> ends (update_node i n') fs Q.
Proof. intros HQ Hi Hok Hn Hd. unfold ends, update_node, modify. apply HQ. by eapply update_ok. Qed.

Lemma ends_discard {X} (m : M St X) fs (I : St -> Prop) : ends m fs (fun _ => I) -> ends (_ ← m; mret tt) fs (fun _ => I).
Proof. unfold ends, mbind, M_bind. by destruct (m fs) as [[x|e|p] fs']. Qed.

(** A call on the local cache, and what follows unless it fails. *)

Lemma ends_EIO_bind {X Y} (m : M A X) (f : X -> M St Y) fs (Q : res Y -> St -> Prop) : (forall msg, (m (mu_localCache fs)).1 <> Panic msg) ->
  (forall e a, Q (Err e) (set_cache a fs)) -> (forall x a, ends (f x) (set_cache a fs) Q) -> ends (or_EIO (localCache m) ≫= f) fs Q.
Proof.
  intros Hm HE Hf. unfold ends, or_EIO, attempt, localCache, mbind, M_bind in *. destruct (m (mu_localCache fs)) as [[x|e|p] a]; [|apply HE|by destruct (Hm p)].
  apply (Hf x a).
Qed.

Lemma cache_ok a fs : fs_ok fs -> fs_ok (set_cache a fs).
Proof. by apply same_view_ok. Qed.

Lemma backing_ok i fs : fs_ok fs -> fs_ok (add_backingFile i fs).
Proof. by apply same_view_ok. Qed.

Lemma LookUpInode_safe p c fs : inode_ok p -> c <> rootPath -> fs_ok fs -> ends (LookUpInode p c) fs (fun _ => fs_ok).
Proof.
  intros Hp Hc Hok. unfold LookUpInode. apply ends_get. destruct (FuseRW.lookup p c fs) as [le|] eqn:El; [|done].
  pose proof Hok as [Hwf _]. destruct (wf_lookup _ _ _ _ Hwf p c (le_iNode le) Hp) as (m & d & Hm & Hd & _); [unfold names; by rewrite El|congruence|].
  destruct (wf_entry _ _ _ _ Hwf _ _ _ _ Hm Hd) as (_ & _ & _ & Hk & _ & Hr). pose proof (wf_hi _ _ _ _ Hwf). unfold kinds in Hk.
  destruct (node (le_iNode le) fs) as [n|] eqn:En; [|done]. apply ends_bind. eapply ends_update; [done| |done|exact En|done].
  unfold inode_ok, firstINode in *. lia.
Qed.

Lemma SetInodeAttributes_safe i mode size atime mtime fs : inode_ok i -> fs_ok fs -> ends (SetInodeAttributes i mode size atime mtime) fs (fun _ => fs_ok).
Proof.
  intros Hi Hok. unfold SetInodeAttributes. destruct (decide (is_Some mode)); [done|]. apply ends_get. destruct (node i fs) as [n0|] eqn:En; [|done].
  assert (Hend : forall n1 (fs1 : St), fs_ok fs1 -> node i fs1 = Some n0 -> is_dir n1 = is_dir n0 ->
    ends (let n2 := match atime with Some t => on_attr (set_Atime t) n1 | None => n1 end in
          let n3 := match mtime with Some t => on_attr (set_Mtime t) n2 | None => n2 end in _ ← update_node i n3; mret (ne_attr n3)) fs1 (fun _ => fs_ok)).
  { intros n1 fs1 Hok1 Hn1 Hd. cbv zeta. apply ends_bind. eapply ends_update; [done|done|done|exact Hn1|]. by destruct mtime, atime. }
  destruct size as [sz|]; [|by apply ends_bind, Hend]. apply ends_bind. apply ends_EIO_bind; [intros; apply bk_OpenFile_returns|intros; by apply cache_ok|].
  intros _ a. destruct (Strconv.max_int64 <? sz)%Z; [by apply (cache_ok a)|]. apply ends_EIO_bind; [intros; apply bk_Truncate_returns|intros; by do 2 apply cache_ok|].
  intros _ a'. apply Hend; [by do 2 apply cache_ok|done|done].
Qed.

(** The node of a removed directory is dropped, and its inode given back. *)

Definition dropped (i : InodeID) (fs : St) : St :=
  set_generator (freeINode i (mu_iNodeGenerator fs)) (on_iNodeStore (r_Delete (formKey i)) fs).

Lemma node_delete i (fs : St) q : inode_ok i -> inode_ok q ->
  node q (on_iNodeStore (r_Delete (formKey i)) fs) = if decide (q = i) then None else node q fs.
Proof.
  intros Hi Hq. unfold node. cbn. destruct (decide (q = i)) as [->|Hne]; [apply r_Get_Delete|]. apply r_Get_Delete_ne. by intros ->%formKey_inj.
Qed.

Lemma dropped_ok i fs : fs_ok fs -> inode_ok i -> i <> RootInodeID -> kinds fs i = Some true -> mu_readDirMap fs !! i = None -> fs_ok (dropped i fs).
Proof.
  intros [Hwf [Hnd Hf]] Hi Hroot Hk HR. pose proof (wf_hi _ _ _ _ Hwf) as Hhi. set (g := mu_iNodeGenerator fs) in *.
  assert (HK : forall q, inode_ok q -> kinds (dropped i fs) q = if decide (q = i) then None else kinds fs q).
  { intros q Hq. unfold kinds, dropped. change (node q (set_generator _ ?s)) with (node q s). rewrite node_delete by done. by destruct (decide (q = i)). }
  destruct (wf_nodes _ _ _ _ Hwf i Hi) as [?|Hri]; [by rewrite Hk|done|].
  assert (Hni : i ∉ freeInodes g) by (intros Hin; destruct (Hf i Hin); congruence).
  assert (Hfree : forall q, q ∈ freeInodes g -> inode_ok q /\ q <> i) by (intros q Hq; destruct (Hf q Hq); split; [unfold inode_ok, firstINode in *; lia|by intros ->]).
  assert (Hwf' : forall hi', (firstINode <= hi' <= highestInode g)%Z -> (forall q, kinds fs q <> None -> q <> i -> q <= highestInode g -> q <= hi')%Z ->
    wf (names fs) (kinds (dropped i fs)) (mu_readDirMap fs) hi') by (intros hi' H1 H2; by eapply (wf_drop _ _ _ _ Hwf _ i)).
  unfold fs_ok. change (names (dropped i fs)) with (names fs). change (mu_readDirMap (dropped i fs)) with (mu_readDirMap fs).
  change (mu_iNodeGenerator (dropped i fs)) with (freeINode i g). unfold freeINode. destruct (decide (highestInode g = i)) as [E|Hne]; cbn [highestInode freeInodes].
  - unfold Int.uint64, firstINode in *. rewrite Z.mod_small by lia. split.
    + apply Hwf'; [lia|]. intros q _ Hqi Hq. lia.
    + split; [done|]. cbn. intros q Hq. destruct (Hf q Hq) as [Hrq Hkq], (Hfree q Hq) as [Hokq Hqi]. split; [unfold firstINode in *; lia|]. rewrite HK by done. by rewrite decide_False.
  - split; [apply Hwf'; [lia|done]|]. split; cbn.
    + apply NoDup_app. split_and!; [done| |apply NoDup_singleton]. intros q Hq ->%list_elem_of_singleton. done.
    + intros q [Hq| ->%list_elem_of_singleton]%elem_of_app; [|split; [done|rewrite HK by done; by rewrite decide_True]].
      destruct (Hf q Hq) as [Hrq Hkq], (Hfree q Hq) as [Hokq Hqi]. split; [done|]. rewrite HK by done. by rewrite decide_False.
Qed.

Lemma ForgetInode_safe i fs : fs_ok fs -> allowed fs (Forget i) -> ends (ForgetInode i) fs (fun _ => fs_ok).
Proof.
  intros Hok (Hi & n & Hn & Hpos & Hdel). unfold ForgetInode. apply ends_get. rewrite Hn. apply ends_bind. unfold ends at 1, update_node, modify.
  rewrite (proj2 (Z.ltb_ge _ _)) by (cbn; lia). set (fs1 := on_iNodeStore _ fs). assert (fs_ok fs1) as Hok1 by (by eapply update_ok).
  destruct (shouldDelete (add_refs (-1) n)); [|done]. destruct (Hdel eq_refl) as (Hroot & Hdir & HR). unfold ends, mbind, M_bind, modify.
  apply (dropped_ok i fs1); [done|done|done| |done]. unfold kinds, fs1. rewrite node_update by done. rewrite decide_True by done. cbn. by f_equal.
Qed.

Lemma preCreateCheck_cases p c fs : (exists e, preCreateCheck p (formLookupKey p c) fs = (Err e, fs)) \/
  (kinds fs p = Some true /\ names fs p c = None /\ preCreateCheck p (formLookupKey p c) fs = (Ok tt, fs)).
Proof.
  unfold preCreateCheck, mbind, M_bind, get_state, kinds, names, FuseRW.lookup, fail. destruct (node p fs) as [n0|]; [|left; by eexists].
  change (is_dir <$> Some n0) with (Some (is_dir n0)). destruct (is_dir n0); [|left; by eexists]. cbn [negb]. destruct (r_Get (formLookupKey p c) (mu_lookupTree fs)); [left; by eexists|right; split_and!; reflexivity].
Qed.

Lemma CreateFile_run ts p c fs : fs_ok fs -> allowed fs (Create ts p c) ->
  (exists e, CreateFile ts p c fs = (Err e, fs)) \/
  (creatable p c fs /\ exists i g attr fs', allocINode (mu_iNodeGenerator fs) = (i, g) /\ CreateFile ts p c fs = (Ok (i, attr), fs') /\ created i p c DT_File g fs fs').
Proof.
  intros Hok (Hp & Hc & Hmax). unfold CreateFile.
  destruct (preCreateCheck_cases p c fs) as [[e E]|(Hk & Hn & E)]; [left; exists e; unfold mbind, M_bind; by rewrite E|right].
  assert (creatable p c fs) as Hcr by done. split; [done|]. rewrite (M_bind_step _ _ _ _ _ E). by apply createNode_run.
Qed.

Lemma MkDir_run ts p c fs : fs_ok fs -> allowed fs (Mkdir ts p c) ->
  exists i g attr fs', allocINode (mu_iNodeGenerator fs) = (i, g) /\ MkDir ts p c fs = (Ok (i, attr), fs') /\ created i p c DT_Directory g fs fs'.
Proof.
  intros Hok Hal. pose proof Hal as (Hp & Hc & Hk & Hn & Hmax). unfold MkDir. unfold mbind at 1, M_bind at 1, attempt at 1.
  assert (preCreateCheck p (formLookupKey p c) fs = (Ok tt, fs)) as ->.
  { unfold preCreateCheck, mbind, M_bind, get_state. unfold kinds in Hk. unfold names, FuseRW.lookup in Hn. destruct (node p fs) as [n0|]; [|done]. cbn in Hk. injection Hk as ->.
    cbn [negb]. by destruct (r_Get _ (mu_lookupTree fs)). }
  by apply createNode_run.
Qed.

Lemma ReadDir_safe size order i offset room fs : fs_ok fs -> ends (ReadDir size order i offset room) fs (fun _ => fs_ok).
Proof. intros Hok. unfold ReadDir. apply ends_get. destruct (mu_readDirMap fs !! i); [|done]. by destruct (_ <? offset)%Z. Qed.

Lemma ReadFile_safe i n offset fs : fs_ok fs -> ends (ReadFile i n offset) fs (fun _ => fs_ok).
Proof.
  intros Hok. unfold ReadFile. apply ends_EIO_bind; [intros; apply bk_OpenFile_returns|intros; by apply cache_ok|]. intros _ a. apply ends_bind.
  assert (fs_ok (add_backingFile i (set_cache a fs))) as Hok' by (by apply backing_ok, cache_ok). unfold ends at 1, modify.
  apply ends_EIO_bind; [intros; apply bk_ReadAt_returns|intros; by apply cache_ok|]. intros [data err] a'. cbn. destruct err; by apply (cache_ok a').
Qed.

Lemma WriteFile_safe i data offset fs : fs_ok fs -> allowed fs (Write i data offset) -> ends (WriteFile i data offset) fs (fun _ => fs_ok).
Proof.
  intros Hok (Hi & n0 & Hn). unfold WriteFile. apply ends_EIO_bind; [intros; apply bk_OpenFile_returns|intros; by apply cache_ok|]. intros _ a. apply ends_bind.
  assert (fs_ok (add_backingFile i (set_cache a fs))) as Hok' by (by apply backing_ok, cache_ok). unfold ends at 1, modify.
  apply ends_EIO_bind; [intros; apply bk_WriteAt_returns|intros; by apply cache_ok|]. intros _ a'. apply ends_get.
  change (node i (set_cache a' (add_backingFile i (set_cache a fs)))) with (node i fs). rewrite Hn.
  eapply ends_update; [done|done|by apply cache_ok|exact Hn|done].
Qed.

Lemma Sync_safe i fs : fs_ok fs -> ends (or_EIO (localCache (bk_Sync (getPathToBackingFile i)))) fs (fun _ => fs_ok).
Proof. intros Hok. apply ends_EIO; [intros; apply bk_Sync_returns|]. intros r a. by apply cache_ok. Qed.

(** Every request that is allowed is answered, and keeps the invariant. *)

Lemma serve_safe r fs : fs_ok fs -> allowed fs r -> ends (serve r) fs (fun _ => fs_ok).
Proof.
  intros Hok Hal. destruct r; cbn [serve].
  - destruct Hal. by apply ends_discard, LookUpInode_safe.
  - apply ends_discard. unfold GetInodeAttributes. apply ends_get. by destruct (node i fs).
  - by apply ends_discard, SetInodeAttributes_safe.
  - by apply ForgetInode_safe.
  - apply ends_discard. destruct (MkDir_run ts p c fs Hok Hal) as (i & g & attr & fs' & Hg & E & Hcr). unfold ends. rewrite E. by eapply created_ok.
  - apply ends_discard. unfold ends. destruct (CreateFile_run ts p c fs Hok Hal) as [[e ->]|(Hcr & i & g & attr & fs' & Hg & -> & H)]; [done|by eapply created_ok].
  - unfold ends. destruct (Rename_run p c p' c' fs Hok Hal) as [[e ->]|(j & fs' & _ & -> & H)]; [done|apply H].
  - destruct Hal as [Hp Hc]. unfold ends, RmDir. destruct (deleteNSEntry_cases p c fs Hp Hc Hok) as [(e & -> & _)|(j & fs' & _ & -> & H & _)]; [done|apply H].
  - destruct Hal as [Hp Hc]. unfold ends, Unlink. destruct (deleteNSEntry_cases p c fs Hp Hc Hok) as [(e & -> & _)|(j & fs' & _ & -> & H & _)]; [done|apply H].
  - by apply ends_discard, ReadDir_safe.
  - by apply ends_discard, ReadFile_safe.
  - by apply WriteFile_safe.
  - unfold SyncFile. apply ends_get. rewrite decide_True by done. by apply Sync_safe.
  - unfold FlushFile. apply ends_get. destruct (decide (i ∈ mu_backingFiles fs)); [by apply Sync_safe|done].
Qed.

End state.

End FuseSafe.
