(* ===== verification/FuseMutable.v ===== *)
(** * What the mutable mount promises (pkg/fuse: fs_rw_ops.go)

    The states that can be reached by requests of the kernel, their consistency,
    the effect of the requests that change the namespace, and what is read of a
    file that was written. Then the requests that the code does not handle. *)

From S2P Require Import Prelude GoLib Errors Radix CafsReader CafsRead FuseCommon FuseRW FuseSafe.

Module FuseMutable.
Import FuseCommon FuseRW FuseSafe.

(** ** A local cache that works *)

Class ReliableBacking (A : Type) `{Backing A} : Type := {
  bk_files : A -> gmap string bytes;
  bk_OpenFile_ok k a : is_Some (bk_files a !! k) -> exists a', bk_OpenFile k a = (Ok tt, a') /\ bk_files a' = bk_files a;
  bk_Create_ok k a : exists a', bk_Create k a = (Ok tt, a') /\ bk_files a' = <[k := []]> (bk_files a);
  bk_WriteAt_ok k data off d a : bk_files a !! k = Some d -> exists a', bk_WriteAt k data (Z.of_nat off) a = (Ok tt, a') /\
    bk_files a' = <[k := CafsReader.WriteAt d data off]> (bk_files a);
  bk_Stat_ok k d a : bk_files a !! k = Some d -> bk_Stat k a = Z.of_nat (length d);
  bk_ReadAt_ok k n off d a : bk_files a !! k = Some d -> exists a',
    bk_ReadAt k n (Z.of_nat off) a = (Ok (take n (drop off d), if decide (n <= length d - off) then None else Some (ErrMsg "EOF")), a') /\ bk_files a' = bk_files a;
  bk_ReadAll_ok k d a : bk_files a !! k = Some d -> exists a', bk_ReadAll k a = (Ok d, a') /\ bk_files a' = bk_files a
}.

(** ** Reachable states *)

Section states.
Context {T : Type -> Type} `{HRT : !Radix T, HRL : !RadixLaws T} {A : Type} `{HA : !Backing A, HAL : !BackingLaws A}.

Abbreviation St := (fsMutable T A).

Inductive reachable : St -> Prop :=
  | reach_start ts cache fs : initRoot ts (defaultMutableFS cache) = (Ok tt, fs) -> reachable fs
  | reach_serve fs r x fs' : reachable fs -> allowed fs r -> serve r fs = (x, fs') -> reachable fs'.

Lemma NewMutableFS_reachable base ts consumable fs : NewMutableFS base ts consumable = Ok fs -> reachable fs.
Proof.
  unfold NewMutableFS. destruct (localPath consumable) as [p|e|m]; [|done..]. cbn. destruct (initRoot ts _) as [[[]|e|m] fs'] eqn:E; [|done..].
  intros [= <-]. by eapply reach_start.
Qed.

Definition root_node (ts : Time.Time) : nodeEntry :=
  mkNodeEntry 1 (mkAttr dirInitialSize (dirLinkCount + 1) dirDefaultMode ts ts ts ts defaultGID defaultUID) (getPathToBackingFile RootInodeID).

Definition root_fs (ts : Time.Time) (cache : A) : St :=
  on_iNodeStore (r_Insert (formKey RootInodeID) (root_node ts)) (on_iNodeStore (r_Insert (formKey RootInodeID)
    (on_attr (set_Nlink dirLinkCount) (root_node ts))) (on_readDirMap (<[RootInodeID := ∅]>)
    (on_lookupTree (r_Insert (formLookupKey RootInodeID rootPath) (mkLookupEntry RootInodeID 0)) (defaultMutableFS cache)))).

Lemma initRoot_run ts cache : initRoot ts (defaultMutableFS cache : St) = (Ok tt, root_fs ts cache).
Proof.
  unfold initRoot, mbind at 1, M_bind at 1, get_state. cbn [mu_lookupTree defaultMutableFS]. rewrite r_Get_New.
  unfold createNode. rewrite (bool_decide_eq_true_2 (DT_Directory = DT_Directory)) by done.
  unfold mbind, M_bind, update_node, mret, M_ret, get_state, modify. cbv beta iota.
  unfold node at 1. cbn [mu_iNodeStore on_iNodeStore]. rewrite r_Get_Insert. reflexivity.
Qed.

Lemma root_fs_ok ts cache : fs_ok (root_fs ts cache : St).
Proof.
  assert (HL : forall p c, inode_ok p -> names (root_fs ts cache : St) p c = if decide (p = RootInodeID /\ c = rootPath) then Some RootInodeID else None).
  { intros p c Hp. unfold names. pose proof (lookup_insert_name (A := A) RootInodeID rootPath (mkLookupEntry RootInodeID 0) (defaultMutableFS cache : St) p c ltac:(done) Hp) as H.
    unfold FuseRW.lookup in H |- *. cbn [root_fs mu_lookupTree on_lookupTree on_iNodeStore on_readDirMap] in H |- *. rewrite H.
    destruct (decide _); [done|]. cbn [defaultMutableFS mu_lookupTree]. by rewrite r_Get_New. }
  assert (HK : forall i, inode_ok i -> kinds (root_fs ts cache : St) i = if decide (i = RootInodeID) then Some true else None).
  { intros i Hi. unfold kinds, root_fs. rewrite !node_update by done. destruct (decide (i = RootInodeID)); [done|].
    unfold node. cbn [mu_iNodeStore on_readDirMap on_lookupTree defaultMutableFS]. by rewrite r_Get_New. }
  split; [|split; [apply NoDup_nil_2|by intros i ?%elem_of_nil]]. split.
  - by rewrite HK.
  - intros p c j Hp Hn Hne. rewrite HL in Hn by done. destruct (decide _) as [[-> ->]|]; [by destruct Hne|done].
  - intros p m j d Hm Hd. cbn in Hm. apply lookup_insert_Some in Hm as [[_ <-]|[_ Hm]]; [by rewrite lookup_empty in Hd|by rewrite lookup_empty in Hm].
  - intros p m Hm. cbn in Hm. apply lookup_insert_Some in Hm as [[<- _]|[_ Hm]]; [|by rewrite lookup_empty in Hm]. by rewrite HK.
  - intros p p' m m' j Hm _ [d Hd] _. cbn in Hm. apply lookup_insert_Some in Hm as [[_ <-]|[_ Hm]]; [by rewrite lookup_empty in Hd|by rewrite lookup_empty in Hm].
  - intros i Hi. rewrite HK by done. destruct (decide (i = RootInodeID)) as [->|]; [by left|by intros []].
  - by vm_compute.
Qed.

Lemma reachable_ok fs : reachable fs -> fs_ok fs.
Proof.
  induction 1 as [ts cache fs E|fs r x fs' _ IH Hal E].
  - rewrite initRoot_run in E. injection E as <-. apply root_fs_ok.
  - pose proof (serve_safe r fs IH Hal) as H. unfold ends in H. rewrite E in H. by destruct x.
Qed.

(** C18: the mutable mount answers the requests of the kernel without a panic, and
    its state stays consistent, through the removal of directories, the release
    of their inodes when the last reference is dropped, and the reuse of these
    inodes: the names of a directory that can be looked up are those that it
    lists, with the same inodes; a listed entry has a node of its type; an inode
    has one name in one directory; and the inode that the next new node gets is
    not in use. The requests are those that [allowed] names. Left out are, of
    what the code does not handle, MkDir of a name that is taken or below
    something else than a directory, a rename over a directory with children,
    SyncFile without a backing file, WriteFile without a node, the drop of a
    reference that is not held or of the last one to a directory that is still
    in the tree, and a new node when a single inode is free or none is left; and
    of what the kernel does not ask for, the name "/", a rename to the same name
    or below something else than a directory. *)
Theorem mount_stays_consistent fs : reachable fs ->
  (forall r msg, allowed fs r -> (serve r fs).1 <> Panic msg) /\
  (forall p c j, inode_ok p -> c <> rootPath -> names fs p c = Some j <->
     exists m d, mu_readDirMap fs !! p = Some m /\ m !! j = Some d /\ de_Name d = c) /\
  (forall p m j d, mu_readDirMap fs !! p = Some m -> m !! j = Some d ->
     kinds fs p = Some true /\ de_Inode d = j /\ kinds fs j = Some (bool_decide (de_Type d = DT_Directory))) /\
  (forall p c p' c' j, inode_ok p -> inode_ok p' -> c <> rootPath -> c' <> rootPath -> names fs p c = Some j -> names fs p' c' = Some j -> p = p' /\ c = c') /\
  (inode_left fs -> kinds fs (allocINode (mu_iNodeGenerator fs)).1 = None).
Proof.
  intros Hr. pose proof (reachable_ok fs Hr) as Hok. pose proof Hok as [Hwf _]. split_and!.
  - intros r msg Hal E. pose proof (serve_safe r fs Hok Hal) as H. unfold ends in H. destruct (serve r fs) as [x fs']. cbn in E. by subst x.
  - intros p c j Hp Hc. split.
    + intros Hn. apply (wf_lookup _ _ _ _ Hwf); [done|done|congruence].
    + intros (m & d & Hm & Hd & <-). by eapply (wf_entry _ _ _ _ Hwf).
  - intros p m j d Hm Hd. destruct (wf_entry _ _ _ _ Hwf _ _ _ _ Hm Hd) as (H1 & _ & _ & H4 & _). split; [by eapply (wf_dir _ _ _ _ Hwf)|done].
  - intros. by eapply names_inj.
  - intros Hleft. destruct (alloc_fresh fs Hok Hleft) as (i & g & -> & H & _). done.
Qed.

(** ** Modes of entries *)

(** The mode of an entry is never set. *)

Definition no_modes (fs : St) : Prop := forall k le, r_Get k (mu_lookupTree fs) = Some le -> le_mode le = 0%Z.

Definition keeps {X} (m : M St X) : Prop := forall fs, no_modes fs -> no_modes (m fs).2.

Lemma keeps_bind {X Y} (m : M St X) (f : X -> M St Y) : keeps m -> (forall x, keeps (f x)) -> keeps (m ≫= f).
Proof.
  intros Hm Hf fs H. unfold mbind, M_bind. specialize (Hm fs H). destruct (m fs) as [[x|e|p] fs1]; cbn in Hm; [by apply Hf|done..].
Qed.

Lemma keeps_get {Y} (f : St -> M St Y) : (forall fs, no_modes fs -> no_modes (f fs fs).2) -> keeps (get_state ≫= f).
Proof. intros H fs Hfs. by apply H. Qed.

Lemma keeps_attempt {X} (m : M St X) : keeps m -> keeps (attempt m).
Proof. intros Hm fs H. unfold attempt. specialize (Hm fs H). by destruct (m fs) as [[]]. Qed.

Lemma keeps_cache {X} (m : M A X) : keeps (localCache m).
Proof. intros fs H. unfold localCache. by destruct (m (mu_localCache fs)). Qed.

Lemma keeps_same f : (forall fs, mu_lookupTree (f fs) = mu_lookupTree fs) -> keeps (modify f).
Proof. intros Hf fs H k le. cbn. rewrite Hf. apply H. Qed.

Lemma keeps_insert k le : le_mode le = 0%Z -> keeps (modify (on_lookupTree (r_Insert k le))).
Proof.
  intros Hle fs H k' le'. cbn. destruct (decide (k = k')) as [->|Hne]; [rewrite r_Get_Insert; by intros [= <-]|rewrite r_Get_Insert_ne by done; apply H].
Qed.

Lemma keeps_delete k : keeps (modify (on_lookupTree (r_Delete k))).
Proof.
  intros fs H k' le'. cbn. destruct (decide (k = k')) as [->|Hne]; [by rewrite r_Get_Delete|rewrite r_Get_Delete_ne by done; apply H].
Qed.

Lemma keeps_state {Y} (f : St -> M St Y) : (forall fs, keeps (f fs)) -> keeps (get_state ≫= f).
Proof. intros Hf. apply keeps_get. intros fs H. by apply Hf. Qed.

Lemma keeps_alloc : keeps alloc.
Proof. intros fs H. unfold alloc. by destruct (allocINode _). Qed.

Lemma keeps_done {X} (r : res X) : keeps (fun fs => (r, fs)).
Proof. by intros fs H. Qed.

Ltac keep :=
  repeat (intros;
    lazymatch goal with
    | |- keeps (get_state ≫= _) => apply keeps_state
    | |- keeps (_ ≫= _) => apply keeps_bind
    | |- keeps (attempt _) => apply keeps_attempt
    | |- keeps (localCache _) => apply keeps_cache
    | |- keeps alloc => apply keeps_alloc
    | |- keeps (modify (on_lookupTree (r_Delete _))) => apply keeps_delete
    | |- keeps (modify (on_lookupTree (r_Insert _ _))) => apply keeps_insert; reflexivity
    | |- keeps (modify _) => apply keeps_same; reflexivity
    | |- keeps (mret _) => apply keeps_done
    | |- keeps (fail _) => apply keeps_done
    | |- keeps (panic _) => apply keeps_done
    | |- keeps (or_EIO _) => unfold or_EIO
    | |- keeps (update_node _ _) => unfold update_node
    | |- keeps (insertReadDirEntry _ _) => unfold insertReadDirEntry
    | |- keeps (create_backing _) => unfold create_backing
    | |- keeps (match ?x with _ => _ end) => destruct x
    | |- keeps (let _ := _ in _) => cbv zeta
    end).

Lemma keeps_deleteNSEntry p c : keeps (deleteNSEntry p c).
Proof. unfold deleteNSEntry. keep. Qed.

Lemma keeps_createNode ts lk p c ty isRoot : keeps (createNode ts lk p c ty isRoot).
Proof. unfold createNode. keep. Qed.

Lemma keeps_move_entry p c p' c' le : keeps (move_entry p c p' c' le).
Proof.
  unfold move_entry. apply keeps_state. intros fs. destruct (default ∅ (mu_readDirMap fs !! p) !! le_iNode le) as [rC|]; [|by intros ? ?].
  apply keeps_bind; [keep|]. intros _. apply keeps_get. intros fs2 H. destruct (FuseRW.lookup p c fs2) as [l|] eqn:El.
  - apply (keeps_bind _ _ (keeps_delete _)); [|done]. intros _. apply keeps_bind; [keep|]. intros _. apply keeps_insert. by eapply H.
  - apply (keeps_bind _ _ (keeps_delete _)); [|done]. intros _. keep.
Qed.

Lemma keeps_serve r : keeps (serve r).
Proof.
  destruct r; cbn [serve]; unfold LookUpInode, GetInodeAttributes, SetInodeAttributes, ForgetInode, MkDir, CreateFile, Rename, RmDir, Unlink, ReadDir,
    ReadFile, WriteFile, SyncFile, FlushFile, preCreateCheck; keep; intros;
    first [apply keeps_createNode|apply keeps_deleteNSEntry|apply keeps_move_entry].
Qed.

Lemma reachable_no_modes fs : reachable fs -> no_modes fs.
Proof.
  induction 1 as [ts cache fs E|fs r x fs' _ IH _ E].
  - rewrite initRoot_run in E. injection E as <-. intros k le. cbn [root_fs mu_lookupTree on_iNodeStore on_readDirMap on_lookupTree defaultMutableFS].
    destruct (decide (formLookupKey RootInodeID rootPath = k)) as [<-|Hne]; [rewrite r_Get_Insert; by intros [= <-]|].
    by rewrite r_Get_Insert_ne, r_Get_New.
  - pose proof (keeps_serve r fs IH) as H. by rewrite E in H.
Qed.

(** ** Changes of the namespace *)

(** C30: a file or a directory that exists is renamed: when nothing or a file or an
    empty directory is at the new place, the call succeeds, the node is found at
    the new place and no longer at the old one, and every other name is as it
    was. All nodes keep their references and attributes, but for the link count
    of the new parent, which loses one when an empty directory is replaced; the
    local cache, the open backing files and the generator are not touched. *)
Theorem Rename_correct p c p' c' j fs : reachable fs -> allowed fs (Move p c p' c') -> names fs p c = Some j ->
  exists fs', Rename p c p' c' fs = (Ok tt, fs') /\
    (forall q e, inode_ok q -> names fs' q e = if decide (q = p' /\ e = c') then Some j else if decide (q = p /\ e = c) then None else names fs q e) /\
    (forall q, inode_ok q -> node q fs' =
       if decide (q = p' /\ (names fs p' c' ≫= kinds fs) = Some true)
       then on_attr (fun a => set_Nlink (Int.uint32 (ia_Nlink a - 1)) a) <$> node q fs else node q fs) /\
    mu_localCache fs' = mu_localCache fs /\ mu_backingFiles fs' = mu_backingFiles fs /\ mu_iNodeGenerator fs' = mu_iNodeGenerator fs.
Proof.
  intros Hr Hal Hn. destruct (Rename_run p c p' c' fs (reachable_ok fs Hr) Hal) as [[e E]|(j' & fs' & Hn' & E & [_ HL _ HN (Hb & Hca & Hg)])].
  - exfalso. revert E. pose proof (reachable_no_modes fs Hr) as Hmode. pose proof (reachable_ok fs Hr) as Hok.
    destruct Hal as (Hp & Hp' & Hc & Hc' & Hk' & Hne & Hempty). unfold Rename, mbind, M_bind, get_state. unfold names in Hn.
    destruct (FuseRW.lookup p c fs) as [le|] eqn:El; [|done].
    assert (Hmv : forall fs1, fs_ok fs1 -> FuseRW.lookup p c fs1 = Some le -> names fs1 p' c' = None -> kinds fs1 p' = Some true ->
      move_entry p c p' c' le fs1 <> (Err e, fs)).
    { intros fs1 H1 H2 H3 H4. destruct (move_entry_run p c p' c' le fs1) as (fs' & -> & _); done. }
    destruct (FuseRW.lookup p' c' fs) as [le'|] eqn:El'; [|apply Hmv; [done|done|unfold names; by rewrite El'|done]].
    rewrite (Hmode _ _ El'). change (IsDir 0) with false. cbv iota.
    destruct (deleteNSEntry_cases p' c' fs Hp' Hc' Hok) as [(e' & _ & [?|[H|(k & H & H')]])|(k & fs1 & Hj & Ed & [Hok1 HL1 HK1 _ _ _ Hlk1] & _)].
    + congruence.
    + unfold names in H. by rewrite El' in H.
    + by destruct H'; apply Hempty.
    + unfold attempt. rewrite Ed. cbn. apply Hmv; [done|rewrite Hlk1; [done|done|intros [-> ->]; by destruct Hne]| |by rewrite HK1].
      rewrite HL1 by done. by rewrite decide_True.
  - exists fs'. rewrite Hn in Hn'. injection Hn' as <-. split_and!; [done|done| |done|done|done].
    intros q Hq. rewrite HN by done. unfold unlinked_node. destruct (names fs p' c') as [k|]; [done|]. by rewrite decide_False by naive_solver.
Qed.

(** ** Files *)

Section files.
Context `{HAR : !ReliableBacking A}.

Abbreviation content fs i := (bk_files (mu_localCache fs) !! getPathToBackingFile i).

Lemma CreateFile_file ts p c (fs : St) : fs_ok fs -> creatable p c fs -> exists i attr fs', CreateFile ts p c fs = (Ok (i, attr), fs') /\
  FuseRW.lookup p c fs' = Some (mkLookupEntry i 0) /\ (exists n, node i fs' = Some n /\ ne_attr n = attr) /\ inode_ok i /\ content fs' i = Some [].
Proof.
  intros Hok (Hp & Hc & Hk & Hn & Hleft). destruct (alloc_fresh fs Hok Hleft) as (i & g & Hal%alloc_run & _ & Hi & Hg & _). exists i.
  assert (Hoki : inode_ok i) by (unfold inode_ok, firstINode in *; lia). unfold CreateFile.
  destruct (preCreateCheck_cases p c fs) as [[e E]|(_ & _ & E)].
  { exfalso. revert E. unfold preCreateCheck, mbind, M_bind, get_state. unfold kinds in Hk. unfold names, FuseRW.lookup in Hn. destruct (node p fs) as [n0|]; [|done].
    cbn in Hk. injection Hk as ->. cbn [negb]. by destruct (r_Get _ (mu_lookupTree fs)). }
  rewrite (M_bind_step _ _ _ _ _ E). clear E.
  unfold createNode. rewrite (M_bind_step _ _ _ _ _ Hal). rewrite (bool_decide_eq_false_2 (DT_File = DT_Directory)) by done.
  destruct (bk_Create_ok (getPathToBackingFile i) (mu_localCache fs)) as (a & Ec & Hf).
  unfold create_backing, attempt, localCache, mbind, M_bind, update_node, insertReadDirEntry, mret, M_ret, modify. cbn [mu_localCache on_lookupTree set_generator].
  rewrite Ec. eexists _, _. split; [reflexivity|]. split_and!.
  - unfold FuseRW.lookup. cbn. by rewrite r_Get_Insert.
  - eexists. split; [unfold node; cbn [mu_iNodeStore on_iNodeStore]; by rewrite r_Get_Insert|done].
  - done.
  - cbn. by rewrite Hf, lookup_insert_eq.
Qed.

Lemma WriteFile_file i data off d n (fs : St) : inode_ok i -> node i fs = Some n -> content fs i = Some d -> exists fs', WriteFile i data (Z.of_nat off) fs = (Ok tt, fs') /\
  content fs' i = Some (CafsReader.WriteAt d data off) /\ mu_lookupTree fs' = mu_lookupTree fs /\
  node i fs' = Some (on_attr (set_Size (Z.of_nat (length (CafsReader.WriteAt d data off)))) n).
Proof.
  intros Hi Hn Hd. destruct (bk_OpenFile_ok (getPathToBackingFile i) (mu_localCache fs)) as (a & Eo & Ha); [by eexists|].
  destruct (bk_WriteAt_ok (getPathToBackingFile i) data off d a) as (a' & Ew & Ha'); [by rewrite Ha|].
  unfold WriteFile, or_EIO, attempt, localCache, mbind, M_bind, update_node, modify, get_state, mret, M_ret. rewrite Eo. cbn [mu_localCache set_cache add_backingFile].
  rewrite Ew. change (node i (set_cache a' (add_backingFile i (set_cache a fs)))) with (node i fs). rewrite Hn.
  assert (Hc : bk_files a' !! getPathToBackingFile i = Some (CafsReader.WriteAt d data off)) by (by rewrite Ha', lookup_insert_eq).
  eexists. split; [reflexivity|]. split_and!; [exact Hc|done|]. cbn [mu_localCache set_cache]. rewrite (bk_Stat_ok _ _ _ Hc).
  rewrite node_update by done. by rewrite decide_True.
Qed.

Lemma ReadFile_file i n off d (fs : St) : content fs i = Some d ->
  (ReadFile i n (Z.of_nat off) fs).1 = if decide (n <= length d - off) then Ok (take n (drop off d)) else Err EIO.
Proof.
  intros Hd. destruct (bk_OpenFile_ok (getPathToBackingFile i) (mu_localCache fs)) as (a & Eo & Ha); [by eexists|].
  destruct (bk_ReadAt_ok (getPathToBackingFile i) n off d a) as (a' & Er & _); [by rewrite Ha|].
  unfold ReadFile, or_EIO, attempt, localCache, mbind, M_bind, modify, mret, M_ret. rewrite Eo. cbn [mu_localCache set_cache add_backingFile]. rewrite Er.
  by destruct (decide (n <= length d - off)).
Qed.

(** C31: what is written to a new file is read back: the file is found under its
    name with the size of what was written, and a part of it within this size is
    returned as it was written. *)
Theorem write_read_roundtrip ts p c data n off (fs : St) : reachable fs -> creatable p c fs -> off + n <= length data ->
  exists i attr fs1 fs2 fs3, CreateFile ts p c fs = (Ok (i, attr), fs1) /\ WriteFile i data 0 fs1 = (Ok tt, fs2) /\
    LookUpInode p c fs2 = (Ok (i, set_Size (Z.of_nat (length data)) attr), fs3) /\
    (ReadFile i n (Z.of_nat off) fs3).1 = Ok (take n (drop off data)).
Proof.
  intros Hr Hc Hlen.
  destruct (CreateFile_file ts p c fs (reachable_ok fs Hr) Hc) as (i & attr & fs1 & E1 & Hl1 & (n1 & Hn1 & <-) & Hi & Hc1).
  destruct (WriteFile_file i data 0 [] n1 fs1 Hi Hn1 Hc1) as (fs2 & E2 & Hc2 & Hl2 & Hn2).
  assert (Hw : CafsReader.WriteAt [] data 0 = data).
  { unfold CafsReader.WriteAt, CafsReader.overwrite. cbn. rewrite Nat.sub_0_r. rewrite drop_ge; [by rewrite app_nil_r|]. by rewrite length_replicate. }
  rewrite Hw in Hc2, Hn2. exists i, (ne_attr n1), fs1, fs2. unfold LookUpInode, mbind, M_bind, get_state, update_node, modify, mret, M_ret.
  assert (FuseRW.lookup p c fs2 = Some (mkLookupEntry i 0)) as -> by (unfold FuseRW.lookup; rewrite Hl2; exact Hl1). cbn [le_iNode]. rewrite Hn2.
  eexists. split; [exact E1|]. split; [exact E2|]. split; [reflexivity|]. rewrite (ReadFile_file i n off data) by exact Hc2. by rewrite decide_True by lia.
Qed.

End files.

End states.

End FuseMutable.
