(* ===== verification/FuseLimits.v ===== *)
(** * Requests that the mutable mount does not handle, and instances of its theorems
      (pkg/fuse: fs_rw_ops.go, inode.go)

    A local cache as a finite map. Sequences of requests that the kernel may
    send and after which the mount shows something else than what was asked
    for, or ends. *)

From S2P Require Import Prelude GoLib Errors Radix CafsReader FuseCommon FuseRW FuseSafe FuseMutable.

Module FuseLimits.
Import FuseCommon FuseRW FuseSafe FuseMutable.

(** ** A local cache *)

Abbreviation cache := (gmap string bytes).

Definition no_file : error := ErrMsg "file does not exist".

Definition on_file {X} (k : string) (f : bytes -> X * bytes) : M cache X := fun m =>
  match m !! k with
  | None => (Err no_file, m)
  | Some d => let '(x, d') := f d in (Ok x, <[k := d']> m)
  end.

Definition checked {X} (off : Z) (m : M cache X) : M cache X := if (off <? 0)%Z then fail (ErrMsg "negative offset") else m.

#[export] Instance cache_Backing : Backing cache := {
  bk_OpenFile k := on_file k (fun d => (tt, d));
  bk_Create k := fun m => (Ok tt, <[k := []]> m);
  bk_ReadAt k n off := checked off (on_file k (fun d =>
    ((take n (drop (Z.to_nat off) d), if decide (n <= length d - Z.to_nat off) then None else Some (ErrMsg "EOF")), d)));
  bk_WriteAt k p off := checked off (on_file k (fun d => (tt, CafsReader.WriteAt d p (Z.to_nat off))));
  bk_Truncate k sz := checked sz (on_file k (fun d => (tt, take (Z.to_nat sz) d ++ replicate (Z.to_nat sz - length d) Byte.x00)));
  bk_Stat k m := match m !! k with Some d => Z.of_nat (length d) | None => 0%Z end;
  bk_Sync k := fun m => (Ok tt, m);
  bk_ReadAll k := on_file k (fun d => (d, d))
}.

Lemma on_file_returns {X} k (f : bytes -> X * bytes) m msg : (on_file k f m).1 <> Panic msg.
Proof. unfold on_file. destruct (m !! k) as [d|]; [|done]. by destruct (f d). Qed.

Lemma checked_returns {X} off (f : M cache X) m msg : (f m).1 <> Panic msg -> (checked off f m).1 <> Panic msg.
Proof. unfold checked. by destruct (off <? 0)%Z. Qed.

#[export] Instance cache_BackingLaws : BackingLaws cache.
Proof.
  split; intros; cbn; try (apply checked_returns); try apply on_file_returns; done.
Qed.

Lemma checked_nat {X} off (f : M cache X) : checked (Z.of_nat off) f = f.
Proof. unfold checked. by rewrite (proj2 (Z.ltb_ge _ _)) by lia. Qed.

Lemma on_file_same {X} k (x : bytes -> X) m d : m !! k = Some d -> on_file k (fun d => (x d, d)) m = (Ok (x d), m).
Proof. intros Hd. unfold on_file. rewrite Hd. by rewrite insert_id. Qed.

#[export] Instance cache_Reliable : ReliableBacking cache.
Proof.
  refine {| bk_files := fun m => m |}.
  - intros k a [d Hd]. exists a. split; [|done]. exact (on_file_same k (fun _ => tt) a d Hd).
  - intros k a. by eexists.
  - intros k data off d a Hd. eexists. split; [|reflexivity]. cbn. rewrite checked_nat. unfold on_file. by rewrite Hd, Nat2Z.id.
  - intros k d a Hd. cbn. by rewrite Hd.
  - intros k n off d a Hd. exists a. split; [|done]. cbn. rewrite checked_nat, Nat2Z.id.
    exact (on_file_same k (fun d => (take n (drop off d), if decide (n <= length d - off) then None else Some (ErrMsg "EOF"))) a d Hd).
  - intros k d a Hd. exists a. split; [|done]. exact (on_file_same k (fun d => d) a d Hd).
Defined.

(** ** Sequences of requests *)

Abbreviation mount := (fsMutable (gmap bytes) cache).

Definition start : mount := root_fs 1%Z ∅.

Fixpoint serve_all (rs : list request) (fs : mount) : res unit * mount :=
  match rs with
  | [] => (Ok tt, fs)
  | r :: rs' => match serve r fs with
                | (Panic msg, fs') => (Panic msg, fs')
                | (_, fs') => serve_all rs' fs'
                end
  end.

Lemma start_reachable : reachable start.
Proof. apply (reach_start 1%Z ∅). apply initRoot_run. Qed.

(** ** Limits *)

(** C40: inodes are given twice: two directories are made, the first one is removed
    and forgotten by the kernel, and two more are made. These two have the same
    inode, so that the one shows what is in the other. *)
Theorem inode_given_twice :
  let run := serve_all [Mkdir 1%Z RootInodeID "a"; Mkdir 1%Z RootInodeID "b"; Rmdir RootInodeID "a"; Forget 1024;
    Mkdir 1%Z RootInodeID "c"; Mkdir 1%Z RootInodeID "d"; Create 1%Z 1024 "x"] start in
  run.1 = Ok tt /\ names run.2 RootInodeID "c" = Some 1024%Z /\ names run.2 RootInodeID "d" = Some 1024%Z /\ is_Some (names run.2 1024 "x").
Proof. split_and!; [vm_compute; reflexivity..|]. apply (bool_decide_unpack _). vm_compute. exact I. Qed.

(** A directory that the kernel forgets, which it may at any time, ends the
    process when it is looked up again. *)

Lemma forgotten_directory : (serve_all [Mkdir 1%Z RootInodeID "a"; Forget 1024; LookUp RootInodeID "a"] start).1 = Panic "interface conversion".
Proof. vm_compute. reflexivity. Qed.

(** A directory with a file is replaced by another directory: its file can no
    longer be found, and the parent lists two entries of this name. *)

Lemma renamed_over :
  let run := serve_all [Mkdir 1%Z RootInodeID "a"; Mkdir 1%Z RootInodeID "b"; Create 1%Z 1025 "x"; Move RootInodeID "a" RootInodeID "b"] start in
  let entry i := de_Name <$> (mu_readDirMap run.2 !! RootInodeID ≫= fun m => m !! i) in
  run.1 = Ok tt /\ names run.2 RootInodeID "b" = Some 1024%Z /\ entry 1024%Z = Some "b" /\ entry 1025%Z = Some "b".
Proof. split_and!; vm_compute; reflexivity. Qed.

(** MkDir of a name that is taken ends the process. *)

Lemma MkDir_taken {T : Type -> Type} `{!Radix T} {A} `{!Backing A} ts p c j (fs : fsMutable T A) : names fs p c = Some j -> kinds fs p = Some true ->
  MkDir ts p c fs = (Panic "sync: unlock of unlocked mutex", fs).
Proof.
  unfold MkDir, names, kinds, preCreateCheck, attempt, mbind, M_bind, get_state, FuseRW.lookup. intros Hn Hk.
  destruct (node p fs) as [n|]; [|done]. cbn in Hk. injection Hk as ->. cbn [negb]. by destruct (r_Get _ (mu_lookupTree fs)).
Qed.

(** Reading up to the end of a file fails when the buffer is longer than what is
    left of it. *)

Lemma ReadFile_short : (serve_all [Create 1%Z RootInodeID "x"; Write 1024 [Byte.x01] 0] start).1 = Ok tt /\
  (ReadFile 1024 4096 0 (serve_all [Create 1%Z RootInodeID "x"; Write 1024 [Byte.x01] 0] start).2).1 = Err EIO.
Proof. split; vm_compute; reflexivity. Qed.

(** Listing a directory with a buffer for one entry returns the first one again
    and again. *)

Lemma ReadDir_repeats :
  let fs := (serve_all [Create 1%Z RootInodeID "x"; Create 1%Z RootInodeID "y"] start).2 in
  let page offset := (ReadDir (fun _ => 1) [1024; 1025]%Z RootInodeID offset 1 fs).1 in
  page 0%Z = Ok [mkDirent 2 1024 "x" DT_File] /\ page 2%Z = page 0%Z.
Proof. split; vm_compute; reflexivity. Qed.

(** SyncFile of a file that was not opened dereferences a nil pointer. *)

Lemma SyncFile_unopened : (serve_all [Sync 1024] start).1 = Panic "nil pointer dereference".
Proof. vm_compute. reflexivity. Qed.

(** The staging area of a mount is cut at the second at sign of its path. *)

Lemma localPath_cut : localPath "localfs@/home/me@host/stage" = Ok "/home/me".
Proof. reflexivity. Qed.

(** ** Instances *)

Lemma start_creatable : creatable RootInodeID "x" start.
Proof. split_and!; try done; vm_compute; (reflexivity || discriminate). Qed.

Definition one_file : mount := (serve_all [Create 1%Z RootInodeID "x"] start).2.

Lemma reachable_one r fs : reachable fs -> allowed fs r -> reachable (serve_all [r] fs).2.
Proof. intros Hr Hal. cbn. destruct (serve r fs) as [[x|e|msg] fs'] eqn:E; by eapply reach_serve. Qed.

Lemma one_file_reachable : reachable one_file.
Proof. apply reachable_one; [apply start_reachable|]. by split_and!. Qed.

(** Three directories are made, two are removed and forgotten, and a fourth one
    gets the inode of the second. *)

Definition reused : mount :=
  (serve_all [Mkdir 1%Z RootInodeID "a"; Mkdir 1%Z RootInodeID "b"; Mkdir 1%Z RootInodeID "c"; Rmdir RootInodeID "a"; Forget 1024;
     Rmdir RootInodeID "b"; Forget 1025; Mkdir 1%Z RootInodeID "d"] start).2.

Fixpoint all_allowed (rs : list request) (fs : mount) : Prop :=
  match rs with
  | [] => True
  | r :: rs' => allowed fs r /\ all_allowed rs' (serve r fs).2
  end.

Lemma reachable_all rs fs : reachable fs -> all_allowed rs fs -> reachable (serve_all rs fs).2.
Proof.
  revert fs. induction rs as [|r rs IH]; intros fs Hr; [done|]. cbn. intros [Hal Hrs].
  destruct (serve r fs) as [x fs'] eqn:E. assert (reachable fs') as Hr' by (by eapply reach_serve). destruct x; auto.
Qed.

Ltac allow := split_and!; try done; vm_compute; try reflexivity; try discriminate.

Lemma reused_reachable : reachable reused.
Proof.
  apply reachable_all; [apply start_reachable|]. cbn [all_allowed]. do 3 (split; [allow|]). split; [allow|].
  split; [split; [done|]; eexists; split; [vm_compute; reflexivity|]; split; [done|]; intros _; allow|]. split; [allow|].
  split; [split; [done|]; eexists; split; [vm_compute; reflexivity|]; split; [done|]; intros _; allow|]. split; [allow|done].
Qed.

Lemma mount_stays_consistent_witness : (forall r msg, allowed reused r -> (serve r reused).1 <> Panic msg) /\
  exists m d, mu_readDirMap reused !! RootInodeID = Some m /\ m !! 1025%Z = Some d /\ de_Name d = "d".
Proof.
  destruct (mount_stays_consistent reused reused_reachable) as (H1 & H2 & _). split; [exact H1|].
  apply (H2 RootInodeID "d" 1025%Z); [done|done|]. vm_compute. reflexivity.
Defined.

Lemma Rename_correct_witness : exists fs', Rename RootInodeID "x" RootInodeID "y" one_file = (Ok tt, fs') /\ names fs' RootInodeID "y" = Some 1024%Z /\
  names fs' RootInodeID "x" = None.
Proof.
  destruct (Rename_correct RootInodeID "x" RootInodeID "y" 1024%Z one_file one_file_reachable) as (fs' & E & HL & _).
  - by split_and!.
  - vm_compute. reflexivity.
  - exists fs'. split; [exact E|]. split; rewrite HL by done; [by rewrite decide_True|]. rewrite decide_False by (intros [_ ?]; done). by rewrite decide_True.
Defined.

Lemma write_read_roundtrip_witness : exists i attr fs1 fs2 fs3, CreateFile 1%Z RootInodeID "x" start = (Ok (i, attr), fs1) /\
  WriteFile i [Byte.x01; Byte.x02; Byte.x03] 0 fs1 = (Ok tt, fs2) /\
  LookUpInode RootInodeID "x" fs2 = (Ok (i, set_Size 3 attr), fs3) /\ (ReadFile i 2 1 fs3).1 = Ok [Byte.x02; Byte.x03].
Proof.
  apply (write_read_roundtrip 1%Z RootInodeID "x" [Byte.x01; Byte.x02; Byte.x03] 2 1 start start_reachable start_creatable). cbn. lia.
Defined.

End FuseLimits.
