(* ===== verification/FuseCommit.v ===== *)
(** * The commit of a mutable mount (pkg/fuse: fs_rw_ops.go)

    Commit walks the directories from the root, uploads each file from the
    local cache in a goroutine of its own and makes a bundle of the entries in
    the order in which the goroutines end. There are no requests meanwhile. *)

From S2P Require Import Prelude GoLib Errors Radix Storage Model CafsKeys CafsFs CafsIface CoreMeta Pool StoreRules CoreIndex CoreRepo CoreBundle CoreUpload FuseCommon FuseRW FuseSafe FuseMutable.

Module FuseCommit.
Import Model Storage CafsKeys CafsIface CoreMeta Pool StoreRules CoreIndex CoreRepo CoreBundle CoreUpload FuseCommon FuseRW FuseSafe FuseMutable.

(** ** The definitions *)

Record commitUploadTask : Type := mkTask {
  tk_inodeID : InodeID;
  tk_name : string
}.

Section commit.
Context {T : Type -> Type} `{HRT : !Radix T} {A : Type} `{HA : !Backing A}.
Context {S F : Type} `{HS : !Store S, HF : !Cafs S F}.
Context {HYB : Yaml BundleDescriptor} {HYE : Yaml (list BundleEntry)}.

(** The files below a directory; [fuel] bounds the depth of directories. *)

Fixpoint commitUploadDir (fuel : nat) (fs : fsMutable T A) (uploadTask : commitUploadTask) : option (list commitUploadTask) :=
  match fuel with
  | O => None
  | Datatypes.S fuel' =>
      @concat _ <$> mapM (fun '(currInode, currEnt) =>
        let tsk := mkTask currInode (tk_name uploadTask +:+ "/" +:+ de_Name currEnt) in
        match de_Type currEnt with
        | DT_File => Some [tsk]
        | DT_Directory => commitUploadDir fuel' fs tsk
        end) (map_to_list (default ∅ (mu_readDirMap fs !! tk_inodeID uploadTask)))
  end.

Definition commitWalkReadDirMap (fuel : nat) (fs : fsMutable T A) : option (list commitUploadTask) := commitUploadDir fuel fs (mkTask RootInodeID "").

(** The local cache, the file system of the blobs and the entries received. *)

Record committing : Type := mkCommitting {
  cm_cache : A;
  cm_fs : F;
  cm_fileList : list BundleEntry
}.

(** A goroutine and the reception of its entry. [backend]: whether there is a blob
    store. *)

Definition commitFileUpload (backend : bool) (x : fs_run) (uploadTask : commitUploadTask) (u : committing) : option (res unit * committing) :=
  let name := getPathToBackingFile (tk_inodeID uploadTask) in
  match (_ ← bk_OpenFile name; bk_ReadAll name) (cm_cache u) with
  | (Err e, a) => Some (Err e, mkCommitting a (cm_fs u) (cm_fileList u))
  | (Panic p, a) => Some (Panic p, mkCommitting a (cm_fs u) (cm_fileList u))
  | (Ok content, a) =>
      if negb backend then Some (Panic nil_dereference, mkCommitting a (cm_fs u) (cm_fileList u))
      else
        match fs_Put x content (cm_fs u) with
        | None => None
        | Some (Ok putRes, f) =>
            let be := mkBundleEntry (Key_String (CafsFs.pr_Key putRes)) (tk_name uploadTask) 0 (Int.uint64 (Z.of_nat (CafsFs.pr_Written putRes))) Time.zero in
            Some (Ok tt, mkCommitting a f (cm_fileList u ++ [be]))
        | Some (Err e, f) => Some (Err e, mkCommitting a f (cm_fileList u))
        | Some (Panic p, f) => Some (Panic p, mkCommitting a f (cm_fileList u))
        end
  end.

Definition commitOptions (bundle : Bundle) : list CafsFs.Option :=
  let bd := b_BundleDescriptor bundle in
  [CafsFs.LeafSize (bd_LeafSize bd); CafsFs.LeafTruncation (bd_Version bd <? 1)%N].

(** [None]: the events are no complete execution, or the walk has not ended. The
    local cache is the consumable of the world. *)

Definition commitImpl (fuel : nat) (random : res string) (es : list (event fs_run)) (fs : fsMutable T A) (d : CafsFs.defaultFs) (bundle : Bundle)
    : R (world S A) Bundle := fun w =>
  match (if decide (b_BundleID bundle = "") then InitializeBundleID random bundle else Ok bundle) with
  | Err e => Some (Err e, w)
  | Panic p => Some (Panic p, w)
  | Ok b =>
      match commitWalkReadDirMap fuel fs with
      | None => None
      | Some tasks =>
          match pool_run (Datatypes.S (length tasks)) (fun t => mret (Some t)) (commitFileUpload (b_context b)) es tasks []
                  (mkCommitting (w_consumable w) (fs_open d (Blob (w_stores w))) []) with
          | None => None
          | Some (r, u) =>
              let w' := mkWorld (SetBlob (fs_backend (cm_fs u)) (w_stores w)) (cm_cache u) in
              match r with
              | Err e => Some (Err e, w')
              | Panic p => Some (Panic p, w')
              | Ok _ => let b' := set_entries b (cm_fileList u) in
                  Some (contextStores b' (UploadBundleEntries (Datatypes.S (length (cm_fileList u))) b') w')
              end
          end
      end
  end.

Definition Commit (fuel : nat) (random : res string) (es : list (event fs_run)) (fs : fsMutable T A) (bundle : Bundle) : R (world S A) Bundle := fun w =>
  match CafsFs.New (commitOptions bundle) with
  | Err e => Some (Err e, w)
  | Panic p => Some (Panic p, w)
  | Ok d => commitImpl fuel random es fs d bundle w
  end.

(** [unmounted]: what the unmount of the kernel returns. *)

Definition Unmount (unmounted : res unit) (fuel : nat) (random : res string) (es : list (event fs_run)) (fs : fsMutable T A) (bundle : Bundle)
    : R (world S A) unit := fun w =>
  match Commit fuel random es fs bundle w with
  | None => None
  | Some (Panic p, w') => Some (Panic p, w')
  | Some (_, w') => Some (unmounted, w')
  end.

End commit.

(** ** The walk *)

Lemma path_of_cons c cs : Path.path_of true (c :: cs) = "/" +:+ c +:+ Path.path_of true cs.
Proof. unfold Path.path_of. cbn [app]. destruct cs as [|c' cs]; [cbn; by rewrite Strings.string_app_nil_r|]. by rewrite !Path.Join_cons2. Qed.

Lemma NoDup_concat {X Y} (P : X -> Y -> Prop) (l : list X) (ls : list (list Y)) : NoDup l -> Forall2 (fun x ys => NoDup ys /\ forall y, y ∈ ys -> P x y) l ls ->
  (forall x x' y, x ∈ l -> x' ∈ l -> P x y -> P x' y -> x = x') -> NoDup (concat ls).
Proof.
  intros Hnd HF. induction HF as [|x ys l ls [Hys HP] HF IH]; intros Hinj; [constructor|]. apply NoDup_cons in Hnd as [Hx Hnd]. cbn. apply NoDup_app. split_and!.
  - done.
  - intros y Hy (zs & Hin & Hz)%list_elem_of_In%in_concat. apply list_elem_of_In in Hz. apply list_elem_of_In, list_elem_of_lookup in Hin as [i Hi].
    destruct (Forall2_lookup_r _ _ _ _ _ HF Hi) as (x' & Hx' & _ & HP'). apply Hx. apply list_elem_of_lookup_2 in Hx'.
    rewrite (Hinj x x' y); [done|left|by right|by apply HP|by apply HP'].
  - apply IH; [done|]. intros x1 x2 y H1 H2. apply Hinj; by right.
Qed.

Section walk.
Context {T : Type -> Type} `{HRT : !Radix T, HRL : !RadixLaws T} {A : Type} `{HA : !Backing A}.

(** The node at a path. *)

Fixpoint walk (fs : fsMutable T A) (i : InodeID) (cs : list string) : option InodeID :=
  match cs with
  | [] => Some i
  | c :: cs' => names fs i c ≫= fun j => walk fs j cs'
  end.

Abbreviation proper := (Forall (fun c => c <> rootPath)).

Variable fs : fsMutable T A.
Hypothesis ok : fs_ok fs.

Abbreviation R := (mu_readDirMap fs).

Lemma entry_of i c j : inode_ok i -> c <> rootPath -> names fs i c = Some j -> exists m d, R !! i = Some m /\ m !! j = Some d /\ de_Name d = c.
Proof. intros Hi Hc Hn. destruct ok as [Hwf _]. apply (wf_lookup _ _ _ _ Hwf i c j Hi Hn). congruence. Qed.

Lemma entry_at i m j d : R !! i = Some m -> m !! j = Some d ->
  names fs i (de_Name d) = Some j /\ de_Name d <> rootPath /\ kinds fs j = Some (bool_decide (de_Type d = DT_Directory)) /\ inode_ok j.
Proof.
  intros Hm Hd. destruct ok as [Hwf _]. destruct (wf_entry _ _ _ _ Hwf _ _ _ _ Hm Hd) as (_ & H2 & H3 & H4 & _ & H6). pose proof (wf_hi _ _ _ _ Hwf).
  split_and!; try done; unfold inode_ok, firstINode in *; lia.
Qed.

Lemma walk_dir i c cs j : inode_ok i -> c <> rootPath -> walk fs i (c :: cs) = Some j -> kinds fs i = Some true.
Proof.
  intros Hi Hc H. cbn in H. apply bind_Some in H as (k & Hk & _). destruct (entry_of i c k Hi Hc Hk) as (m & d & Hm & _).
  destruct ok as [Hwf _]. by eapply (wf_dir _ _ _ _ Hwf).
Qed.

Lemma walk_tasks fuel : forall i name tasks, inode_ok i -> commitUploadDir fuel fs (mkTask i name) = Some tasks -> forall j nm,
  mkTask j nm ∈ tasks <-> exists cs, cs <> [] /\ proper cs /\ walk fs i cs = Some j /\ kinds fs j = Some false /\ nm = name +:+ Path.path_of true cs.
Proof.
  induction fuel as [|fuel IH]; intros i name tasks Hi E j nm; [done|]. cbn [commitUploadDir tk_inodeID tk_name] in E.
  apply fmap_Some in E as (ls & E & ->). apply mapM_Some in E. split.
  - intros (l & Hin & Hl)%list_elem_of_In%in_concat. apply list_elem_of_In in Hl. apply list_elem_of_In, list_elem_of_lookup in Hin as [x Hx].
    destruct (Forall2_lookup_r _ _ _ _ _ E Hx) as ([k d] & Hkd & Hf). apply list_elem_of_lookup_2, elem_of_map_to_list in Hkd.
    destruct (R !! i) as [m|] eqn:Hm; [|done]. cbn in Hkd. destruct (entry_at i m k d Hm Hkd) as (Hn & Hne & Hk & Hok).
    destruct (de_Type d).
    + injection Hf as <-. apply list_elem_of_singleton in Hl. injection Hl as -> ->. exists [de_Name d]. split_and!; [done|by apply Forall_singleton|cbn; by rewrite Hn|done|done].
    + destruct (proj1 (IH k _ l Hok Hf j nm) Hl) as (cs & Hcs & Hp & Hw & Hfile & ->). exists (de_Name d :: cs). split_and!; [done|by constructor|cbn; by rewrite Hn|done|].
      rewrite path_of_cons. by rewrite <- !Strings.string_app_assoc.
  - intros (cs & Hcs & Hp & Hw & Hfile & ->). destruct cs as [|c cs]; [done|]. apply Forall_cons in Hp as [Hc Hp]. cbn in Hw. apply bind_Some in Hw as (k & Hk & Hw).
    destruct (entry_of i c k Hi Hc Hk) as (m & d & Hm & Hd & <-). destruct (entry_at i m k d Hm Hd) as (_ & _ & Hkk & Hok). rewrite Hm in E. cbn in E.
    assert (Hkd : (k, d) ∈ map_to_list m) by (by apply elem_of_map_to_list). apply list_elem_of_lookup in Hkd as [x Hx].
    destruct (Forall2_lookup_l _ _ _ _ _ E Hx) as (l & Hl & Hf). apply list_elem_of_In, in_concat. exists l. split; [apply list_elem_of_In; by eapply list_elem_of_lookup_2|].
    apply list_elem_of_In. destruct (de_Type d).
    + injection Hf as <-. destruct cs as [|c' cs].
      * injection Hw as ->. apply list_elem_of_singleton. done.
      * apply Forall_cons in Hp as [Hc' _]. pose proof (walk_dir k c' cs j Hok Hc' Hw) as H. rewrite Hkk in H. done.
    + apply (IH k _ l Hok Hf). exists cs. split_and!; [|done|done|done|rewrite path_of_cons; by rewrite <- !Strings.string_app_assoc].
      intros ->. injection Hw as ->. rewrite Hkk in Hfile. done.
Qed.

(** The depth is enough. *)

Lemma walk_total fuel : forall i name, inode_ok i -> (forall cs j, proper cs -> walk fs i cs = Some j -> length cs < fuel) ->
  exists tasks, commitUploadDir fuel fs (mkTask i name) = Some tasks.
Proof.
  induction fuel as [|fuel IH]; intros i name Hi Hdeep; [specialize (Hdeep [] i ltac:(constructor) eq_refl); cbn in Hdeep; lia|].
  cbn [commitUploadDir tk_inodeID tk_name]. match goal with |- exists tasks, _ <$> mapM ?f ?l = Some tasks => destruct (mapM f l) as [ls|] eqn:E; [by eexists|] end.
  exfalso. apply mapM_None in E. apply Exists_exists in E as ([k d] & Hkd & Hf). apply elem_of_map_to_list in Hkd.
  destruct (R !! i) as [m|] eqn:Hm; [|done]. destruct (entry_at i m k d Hm Hkd) as (Hn & Hne & _ & Hok). destruct (de_Type d); [done|].
  destruct (IH k (name +:+ "/" +:+ de_Name d) Hok) as [tasks Ht]; [|by rewrite Hf in Ht]. intros cs j Hp Hw.
  specialize (Hdeep (de_Name d :: cs) j). cbn in Hdeep. rewrite Hn in Hdeep. specialize (Hdeep ltac:(by constructor) Hw). lia.
Qed.

(** A node has one path, so that a path is no longer than the number of nodes. *)

Lemma walk_snoc i cs c j : walk fs i (cs ++ [c]) = Some j <-> exists k, walk fs i cs = Some k /\ names fs k c = Some j.
Proof.
  revert i. induction cs as [|c' cs IH]; intros i; cbn.
  - split; [intros (k & Hk & [= <-])%bind_Some; by exists i|]. intros (k & [= <-] & Hk). by rewrite Hk.
  - destruct (names fs i c') as [k|]; cbn; [apply IH|]. split; [done|]. by intros (? & ? & _).
Qed.

Lemma walk_ok cs : forall i j, inode_ok i -> proper cs -> walk fs i cs = Some j -> inode_ok j.
Proof.
  induction cs as [|c cs IH]; intros i j Hi Hp Hw; [by injection Hw as <-|]. apply Forall_cons in Hp as [Hc Hp]. cbn in Hw. apply bind_Some in Hw as (k & Hk & Hw).
  destruct (entry_of i c k Hi Hc Hk) as (m & d & Hm & Hd & _). destruct (entry_at i m k d Hm Hd) as (_ & _ & _ & Hok). by eapply (IH k).
Qed.

Lemma walk_last cs c j : proper (cs ++ [c]) -> walk fs RootInodeID (cs ++ [c]) = Some j ->
  exists k, proper cs /\ walk fs RootInodeID cs = Some k /\ inode_ok k /\ c <> rootPath /\ names fs k c = Some j /\ (firstINode < j <= highestInode (mu_iNodeGenerator fs))%Z.
Proof.
  intros [Hp Hc]%Forall_app (k & Hw & Hn)%walk_snoc. rewrite Forall_singleton in Hc. pose proof (walk_ok cs RootInodeID k ltac:(done) Hp Hw) as Hk.
  exists k. split_and!; try done; destruct (entry_of k c j Hk Hc Hn) as (m & d & Hm & Hd & _); destruct ok as [Hwf _]; destruct (wf_entry _ _ _ _ Hwf _ _ _ _ Hm Hd) as (_ & _ & _ & _ & _ & H); lia.
Qed.

Lemma walk_inj cs : forall cs' j, proper cs -> proper cs' -> walk fs RootInodeID cs = Some j -> walk fs RootInodeID cs' = Some j -> cs = cs'.
Proof.
  assert (Hroot : forall cs c, proper (cs ++ [c]) -> walk fs RootInodeID (cs ++ [c]) <> Some RootInodeID).
  { intros cs' c Hp Hw. destruct (walk_last _ _ _ Hp Hw) as (_ & _ & _ & _ & _ & _ & H). unfold firstINode, RootInodeID in H. lia. }
  induction cs as [|c cs IH] using rev_ind; intros cs' j Hp Hp' Hw Hw'; destruct cs' as [|c' cs' _] using rev_ind; [done| | |].
  - injection Hw as <-. by apply Hroot in Hw'.
  - injection Hw' as <-. by apply Hroot in Hw.
  - destruct (walk_last _ _ _ Hp Hw) as (k & H1 & H2 & H3 & H4 & H5 & _). destruct (walk_last _ _ _ Hp' Hw') as (k' & H1' & H2' & H3' & H4' & H5' & _).
    destruct (names_inj k c k' c' j fs) as [-> ->]; [done..|]. f_equal. by eapply IH.
Qed.

Lemma few_inodes (l : list InodeID) : NoDup l -> Forall (fun j => j = RootInodeID \/ firstINode < j <= highestInode (mu_iNodeGenerator fs))%Z l ->
  (Z.of_nat (length l) <= highestInode (mu_iNodeGenerator fs))%Z.
Proof.
  intros Hnd Hl. destruct ok as [Hwf _]. pose proof (wf_hi _ _ _ _ Hwf) as Hhi. unfold firstINode, RootInodeID in *. set (hi := highestInode _) in *.
  assert (Hs : l ⊆+ seqZ 1 hi).
  { apply NoDup_submseteq; [done|]. intros j Hj. rewrite Forall_forall in Hl. apply elem_of_seqZ. destruct (Hl j Hj); lia. }
  apply submseteq_length in Hs. rewrite length_seqZ in Hs. lia.
Qed.

Lemma walk_short cs j : proper cs -> walk fs RootInodeID cs = Some j -> (Z.of_nat (length cs) < highestInode (mu_iNodeGenerator fs))%Z.
Proof.
  intros Hp Hw. assert (Hpre : exists l, length l = Datatypes.S (length cs) /\ NoDup l /\
    Forall (fun j => exists cs', proper cs' /\ length cs' <= length cs /\ walk fs RootInodeID cs' = Some j) l).
  { revert j Hw. induction cs as [|c cs IH] using rev_ind; intros j Hw.
    - exists [RootInodeID]. split_and!; [done|apply NoDup_singleton|]. apply Forall_singleton. by exists [].
    - destruct (walk_last _ _ _ Hp Hw) as (k & Hp1 & Hw1 & _). destruct (IH Hp1 k Hw1) as (l & Hlen & Hnd & Hl). exists (j :: l). rewrite length_app. cbn [length]. split_and!; [lia| |].
      + apply NoDup_cons. split; [|done]. intros Hj. rewrite Forall_forall in Hl. destruct (Hl j Hj) as (cs' & Hp' & Hle & Hw'). rewrite <- (walk_inj _ _ _ Hp Hp' Hw Hw'), length_app in Hle. cbn in Hle. lia.
      + constructor; [exists (cs ++ [c]); rewrite length_app; cbn; split_and!; [done|lia|done]|]. eapply Forall_impl; [exact Hl|]. intros i (cs' & H1 & H2 & H3). exists cs'. split_and!; [done|lia|done]. }
  destruct Hpre as (l & Hlen & Hnd & Hl). pose proof (few_inodes l Hnd) as H. rewrite Hlen in H. enough (Z.of_nat (Datatypes.S (length cs)) <= highestInode (mu_iNodeGenerator fs))%Z by lia. apply H.
  eapply Forall_impl; [exact Hl|]. intros i (cs' & H1 & _ & H3). destruct cs' as [|c cs' _] using rev_ind; [left; by injection H3 as <-|]. right. by destruct (walk_last _ _ _ H1 H3) as (_ & _ & _ & _ & _ & _ & ?).
Qed.

Lemma commitWalkReadDirMap_total fuel : (highestInode (mu_iNodeGenerator fs) <= Z.of_nat fuel)%Z -> is_Some (commitWalkReadDirMap fuel fs).
Proof.
  intros Hf. destruct (walk_total fuel RootInodeID "" ltac:(done)) as [tasks E]; [|by exists tasks]. intros cs j Hp Hw. pose proof (walk_short cs j Hp Hw). lia.
Qed.

(** Each file once. *)

Hypothesis plain_names : forall p c j, inode_ok p -> c <> rootPath -> names fs p c = Some j -> Path.plain c.

Lemma walk_plain cs : forall i j, inode_ok i -> proper cs -> walk fs i cs = Some j -> Forall Path.plain cs.
Proof.
  induction cs as [|c cs IH]; intros i j Hi Hp Hw; [constructor|]. apply Forall_cons in Hp as [Hc Hp]. cbn in Hw. apply bind_Some in Hw as (k & Hk & Hw).
  destruct (entry_of i c k Hi Hc Hk) as (m & d & Hm & Hd & _). destruct (entry_at i m k d Hm Hd) as (_ & _ & _ & Hok). constructor; [by eapply (plain_names i)|by eapply (IH k)].
Qed.

Lemma walk_plain_in fuel i name tasks t : inode_ok i -> commitUploadDir fuel fs (mkTask i name) = Some tasks -> t ∈ tasks ->
  exists cs, cs <> [] /\ Forall Path.plain cs /\ walk fs i cs = Some (tk_inodeID t) /\ tk_name t = name +:+ Path.path_of true cs.
Proof.
  intros Hi E Ht. destruct t as [j nm]. destruct (proj1 (walk_tasks fuel i name tasks Hi E j nm) Ht) as (cs & Hcs & Hp & Hw & _ & ->).
  exists cs. split_and!; [done|by eapply walk_plain|done|done].
Qed.

Lemma walk_NoDup fuel : forall i name tasks, inode_ok i -> commitUploadDir fuel fs (mkTask i name) = Some tasks -> NoDup tasks.
Proof.
  induction fuel as [|fuel IH]; intros i name tasks Hi E; [done|]. cbn [commitUploadDir tk_inodeID tk_name] in E. apply fmap_Some in E as (ls & E & ->). apply mapM_Some in E.
  destruct (R !! i) as [m|] eqn:Hm; cbn in E; [|rewrite map_to_list_empty in E; apply Forall2_nil_inv_l in E as ->; constructor].
  apply (NoDup_concat (fun kd t => exists cs, Forall Path.plain (de_Name kd.2 :: cs) /\ tk_name t = name +:+ Path.path_of true (de_Name kd.2 :: cs)) (map_to_list m)).
  - apply NoDup_map_to_list.
  - apply Forall2_same_length_lookup_2; [by eapply Forall2_length|]. intros x [k d] l Hx Hl. pose proof (list_elem_of_lookup_2 _ _ _ Hx) as Hd. apply elem_of_map_to_list in Hd.
    pose proof (Forall2_lookup_lr _ _ _ x (k, d) l E Hx Hl) as Hf. cbn in Hf. destruct (entry_at i m k d Hm Hd) as (Hn & Hne & _ & Hok).
    pose proof (plain_names i _ k Hi Hne Hn) as Hpl. destruct (de_Type d).
    + injection Hf as <-. split; [apply NoDup_singleton|]. intros t ->%list_elem_of_singleton. exists []. split; [by apply Forall_singleton|done].
    + split; [by eapply IH|]. intros t Ht. destruct (walk_plain_in fuel k _ l t Hok Hf Ht) as (cs & _ & Hcs & _ & ->). exists cs. split; [by constructor|].
      cbn [snd]. rewrite path_of_cons. by rewrite <- !Strings.string_app_assoc.
  - intros [k d] [k' d'] t Hd Hd' (cs & Hp & E1) (cs' & Hp' & E2). cbn [snd] in *. apply elem_of_map_to_list in Hd, Hd'. rewrite E1 in E2. apply (inj _) in E2.
    apply Path.path_of_inj in E2; [|done..]. injection E2 as Hnm _. destruct (entry_at i m k d Hm Hd) as (Hn & _). destruct (entry_at i m k' d' Hm Hd') as (Hn' & _).
    rewrite Hnm, Hn' in Hn. injection Hn as ->. congruence.
Qed.

Lemma task_names fuel i name tasks : inode_ok i -> commitUploadDir fuel fs (mkTask i name) = Some tasks -> NoDup (tk_name <$> tasks).
Proof.
  intros Hi E. apply NoDup_fmap_2_strong; [|by eapply walk_NoDup]. intros [j nm] [j' nm'] Ht Ht' He.
  destruct (walk_plain_in _ _ _ _ _ Hi E Ht) as (cs & Hcs & Hp & Hw & E1). destruct (walk_plain_in _ _ _ _ _ Hi E Ht') as (cs' & Hcs' & Hp' & Hw' & E2).
  rewrite E1, E2 in He. apply (inj _), Path.path_of_inj in He; [|done..]. subst cs'. cbn in *. congruence.
Qed.

Lemma walk_few fuel tasks : commitWalkReadDirMap fuel fs = Some tasks -> (Z.of_nat (length tasks) <= highestInode (mu_iNodeGenerator fs))%Z.
Proof.
  intros E. rewrite <- (length_fmap tk_inodeID). apply few_inodes.
  - apply NoDup_fmap_2_strong; [|by eapply (walk_NoDup fuel RootInodeID "")]. intros [j nm] [j' nm'] Ht Ht'. cbn. intros <-.
    destruct (proj1 (walk_tasks fuel RootInodeID "" tasks ltac:(done) E j nm) Ht) as (cs & _ & Hp & Hw & _ & ->).
    destruct (proj1 (walk_tasks fuel RootInodeID "" tasks ltac:(done) E j nm') Ht') as (cs' & _ & Hp' & Hw' & _ & ->). by rewrite (walk_inj cs cs' j).
  - apply Forall_fmap, Forall_forall. intros [j nm] Ht. cbn.
    destruct (proj1 (walk_tasks fuel RootInodeID "" tasks ltac:(done) E j nm) Ht) as (cs & Hcs & Hp & Hw & _). destruct cs as [|c cs _] using rev_ind; [done|].
    right. by destruct (walk_last _ _ _ Hp Hw) as (_ & _ & _ & _ & _ & _ & ?).
Qed.

End walk.

(** ** The uploads *)

Section facts.
Context {T : Type -> Type} `{HRT : !Radix T, HRL : !RadixLaws T} {A : Type} `{HA : !Backing A, HAL : !BackingLaws A, HAR : !ReliableBacking A}.
Context {S F : Type} `{HS : !Store S, HSL : !StoreLaws S, HR : !ReliableStore S, HF : !Cafs S F, HFL : !CafsLaws S F}.
Context {HYB : Yaml BundleDescriptor} {HYBL : YamlLaws BundleDescriptor}.
Context {HYE : Yaml (list BundleEntry)} {HYEL : YamlLaws (list BundleEntry)}.

Abbreviation St := (fsMutable T A).

(** [cs] is the path of a file of the mount with the content [c]. *)

Definition file_at (fs : St) (cs : list string) (c : bytes) : Prop :=
  exists j, cs <> [] /\ Forall (fun x => x <> rootPath) cs /\ walk fs RootInodeID cs = Some j /\ kinds fs j = Some false /\
    bk_files (mu_localCache fs) !! getPathToBackingFile j = Some c.

(** The entry of this file, with its content in the blob store. *)

Definition entry_for (L : nat) (blob : S) (fs : St) (e : BundleEntry) : Prop :=
  exists cs c k, file_at fs cs c /\ NameWithPath e = Path.path_of true cs /\ Hash e = Key_String k /\
    be_Size e = Int.uint64 (Z.of_nat (length c)) /\ holds L blob k c.

Section run.
Variables (fs : St) (d : CafsFs.defaultFs) (blob0 : S) (tasks : list commitUploadTask).

Abbreviation L := (CafsFs.leafSize d).

Definition task_ok (t : commitUploadTask) : Prop :=
  exists cs c, file_at fs cs c /\ walk fs RootInodeID cs = Some (tk_inodeID t) /\ tk_name t = Path.path_of true cs /\ fs_contents L c.

Definition committing_ok (todo running : list commitUploadTask) (u : committing (A := A) (F := F)) : Prop :=
  bk_files (cm_cache u) = bk_files (mu_localCache fs) /\ CafsIface.fs_ok (cm_fs u) /\ fs_conf (cm_fs u) = d /\
  (forall L' k c, holds L' blob0 k c -> holds L' (fs_backend (cm_fs u)) k c) /\
  Forall (entry_for L (fs_backend (cm_fs u)) fs) (cm_fileList u) /\ Forall task_ok todo /\ Forall task_ok running /\
  (NameWithPath <$> cm_fileList u) ++ (tk_name <$> running) ++ (tk_name <$> todo) ≡ₚ tk_name <$> tasks.

Lemma entry_for_mono (s s' : S) es :
  (forall L' k c, holds L' s k c -> holds L' s' k c) -> Forall (entry_for L s fs) es -> Forall (entry_for L s' fs) es.
Proof. intros Hh Ha. eapply Forall_impl; [exact Ha|]. intros e (cs & c & k & ? & ? & ? & ? & ?). exists cs, c, k. split_and!; auto. Qed.

Lemma task_file t : task_ok t -> exists cs c, file_at fs cs c /\ tk_name t = Path.path_of true cs /\ fs_contents L c /\
  bk_files (mu_localCache fs) !! getPathToBackingFile (tk_inodeID t) = Some c.
Proof.
  intros (cs & c & Hf & Hw & Hn & Hc). exists cs, c. split_and!; try done. destruct Hf as (j & _ & _ & Hj & _ & Hb). rewrite Hw in Hj. by injection Hj as <-.
Qed.

Lemma open_task t (u : committing (A := A) (F := F)) c : bk_files (cm_cache u) !! getPathToBackingFile (tk_inodeID t) = Some c ->
  exists a, (_ ← bk_OpenFile (getPathToBackingFile (tk_inodeID t)); bk_ReadAll (getPathToBackingFile (tk_inodeID t))) (cm_cache u) = (Ok c, a) /\ bk_files a = bk_files (cm_cache u).
Proof.
  intros Hc. destruct (bk_OpenFile_ok (getPathToBackingFile (tk_inodeID t)) (cm_cache u)) as (a & Eo & Ha); [by eexists|].
  destruct (bk_ReadAll_ok (getPathToBackingFile (tk_inodeID t)) c a) as (a' & Er & Ha'); [by rewrite Ha|]. exists a'. unfold mbind, M_bind. rewrite Eo. split; [done|]. by rewrite Ha', Ha.
Qed.

Lemma commitFileUpload_ok todo run1 t run2 u x r u' :
  committing_ok todo (run1 ++ t :: run2) u -> commitFileUpload true x t u = Some (r, u') -> r = Ok tt /\ committing_ok todo (run1 ++ run2) u'.
Proof.
  intros (Hb & Hfs & Hcf & Hh & Hes & Htodo & Hrun & Hperm) H. apply Forall_app in Hrun as [Hrun1 Hrun2]. apply Forall_cons in Hrun2 as [Ht Hrun2].
  destruct (task_file t Ht) as (cs & c & Hf & Hn & Hc & Hcc). rewrite <- Hb in Hcc. destruct (open_task t u c Hcc) as (a & Ea & Ha).
  unfold commitFileUpload in H. cbv zeta in H. rewrite Ea in H. cbn [negb] in H. rewrite <- Hcf in Hc. destruct (fs_Put x c (cm_fs u)) as [[r1 f1]|] eqn:E; [|done].
  destruct (fs_Put_ok x c (cm_fs u) r1 f1 Hfs Hc E) as (pr & -> & Hw & Hhold & Hcf1 & Hfs1 & Hmono). injection H as <- <-. split; [done|].
  rewrite Hcf in Hhold, Hcf1. refine (conj _ (conj Hfs1 (conj Hcf1 (conj _ (conj _ (conj Htodo (conj _ _))))))); cbn [cm_cache cm_fs cm_fileList].
  - by rewrite Ha.
  - auto.
  - apply Forall_app. split; [by eapply entry_for_mono|]. apply Forall_singleton. exists cs, c, (CafsFs.pr_Key pr). cbn. by rewrite Hw.
  - by apply Forall_app.
  - rewrite <- Hperm. rewrite !fmap_app, fmap_cons. cbn. solve_Permutation.
Qed.

Lemma commitFileUpload_live todo run1 t run2 u :
  committing_ok todo (run1 ++ t :: run2) u -> exists x r u', commitFileUpload true x t u = Some (r, u').
Proof.
  intros (Hb & Hfs & Hcf & _ & _ & _ & Hrun & _). apply Forall_app in Hrun as [_ Hrun2]. apply Forall_cons in Hrun2 as [Ht _].
  destruct (task_file t Ht) as (cs & c & _ & _ & Hc & Hcc). rewrite <- Hb in Hcc. destruct (open_task t u c Hcc) as (a & Ea & _).
  rewrite <- Hcf in Hc. destruct (fs_Put_live c (cm_fs u) Hfs Hc) as (x & r & f & E). exists x. unfold commitFileUpload. cbv zeta. rewrite Ea. cbn [negb]. rewrite E.
  destruct r; eauto.
Qed.

Lemma committing_start : CafsFs.f_prefix d = "" -> (32 * 1024 <= CafsFs.f_leafSize d < 2 ^ 32)%Z -> blobs_ok blob0 -> Forall task_ok tasks ->
  committing_ok tasks [] (mkCommitting (mu_localCache fs) (fs_open d blob0) []).
Proof.
  intros Hp HL Hb Ht. unfold committing_ok. cbn [cm_cache cm_fs cm_fileList]. rewrite fs_open_conf, fs_open_backend. split_and!; try done. by apply fs_open_ok.
Qed.

Lemma commit_pool cap : 0 < cap -> CafsFs.f_prefix d = "" -> (32 * 1024 <= CafsFs.f_leafSize d < 2 ^ 32)%Z -> blobs_ok blob0 -> Forall task_ok tasks ->
  every_run (fun es => pool_run cap (fun t => mret (Some t)) (commitFileUpload true) es tasks []) (mkCommitting (mu_localCache fs) (fs_open d blob0) [])
    (fun _ u => committing_ok [] [] u).
Proof.
  intros Hcap Hp HL Hb Ht. apply every_pool; [|exact commitFileUpload_ok|exact commitFileUpload_live|done|by apply committing_start].
  intros t todo running u (H1 & H2 & H3 & H4 & H5 & H6 & H7 & H8). apply Forall_cons in H6 as [Ht' H6]. exists (Some t), u. split; [done|]. cbn [option_list].
  refine (conj H1 (conj H2 (conj H3 (conj H4 (conj H5 (conj H6 (conj _ _))))))); [apply Forall_app; by split; [|apply Forall_singleton]|].
  rewrite <- H8, fmap_app, fmap_cons. cbn. solve_Permutation.
Qed.

End run.

(** What a commit needs: a blob store, a descriptor that is complete and counts no
    index file yet, leaves large enough for the buffers of io.Copy, names that
    have no slash, and the content of each file in the local cache. *)

Definition commit_ready (fs : St) (bundle : Bundle) (c : Stores S) : Prop :=
  let bd := b_BundleDescriptor bundle in
  b_context bundle = true /\ bd_Deduplication bd <> "" /\ bd_BundleEntriesFileCount bd = 0%N /\
  (32 * 1024 <= bd_LeafSize bd <= CafsFs.MaxLeafSize)%Z /\ blobs_ok (Blob c) /\
  (forall p x j, inode_ok p -> x <> rootPath -> names fs p x = Some j -> Path.plain x) /\
  (forall cs j, Forall (fun x => x <> rootPath) cs -> walk fs RootInodeID cs = Some j -> kinds fs j = Some false ->
     exists content, bk_files (mu_localCache fs) !! getPathToBackingFile j = Some content /\ fs_contents (Z.to_nat (bd_LeafSize bd)) content).

Lemma New_commitOptions (bundle : Bundle) : (32 * 1024 <= bd_LeafSize (b_BundleDescriptor bundle) <= CafsFs.MaxLeafSize)%Z ->
  exists d, CafsFs.New (commitOptions bundle) = Ok d /\ CafsFs.f_leafSize d = bd_LeafSize (b_BundleDescriptor bundle) /\ CafsFs.f_prefix d = "".
Proof.
  intros HL. unfold CafsFs.New. cbn [commitOptions fold_left]. eexists. rewrite !(proj2 (Z.ltb_ge _ _)), !(proj2 (Z.leb_gt _ _)).
  - split; [reflexivity|]. done.
  - done.
  - cbn. unfold CafsFs.BytesToBuffers. apply Z.div_str_pos. unfold CafsFs.MaxLeafSize, CafsFs.DefaultCacheSize, CafsFs.MiB in *. lia.
  - cbn. unfold KeySize. lia.
  - cbn. lia.
Qed.

Lemma commit_tasks (fs : St) bundle c d fuel tasks : fs_ok fs -> commit_ready fs bundle c -> CafsFs.f_leafSize d = bd_LeafSize (b_BundleDescriptor bundle) ->
  commitWalkReadDirMap fuel fs = Some tasks ->
  Forall (task_ok fs d) tasks /\ NoDup (tk_name <$> tasks) /\ (forall cs content, file_at fs cs content -> Path.path_of true cs ∈ tk_name <$> tasks) /\
  (Z.of_nat (length tasks) < 2 ^ 64)%Z.
Proof.
  intros Hok (_ & _ & _ & _ & _ & Hpl & Hcont) Hd E. pose proof (walk_tasks fs Hok fuel RootInodeID "" tasks ltac:(done) E) as Hall. split_and!.
  - apply Forall_forall. intros [j nm] (cs & Hcs & Hp & Hw & Hk & ->)%Hall. destruct (Hcont cs j Hp Hw Hk) as (content & Hc & Hfc). exists cs, content.
    unfold CafsFs.leafSize. rewrite Hd. split_and!; [by exists j|done..].
  - by eapply (task_names fs Hok Hpl fuel RootInodeID "").
  - intros cs content (j & Hcs & Hp & Hw & Hk & _). apply list_elem_of_fmap. exists (mkTask j (Path.path_of true cs)). split; [done|]. apply Hall. by exists cs.
  - pose proof (walk_few fs Hok Hpl fuel tasks E). destruct Hok as [Hwf _]. pose proof (wf_hi _ _ _ _ Hwf). lia.
Qed.

Lemma commit_identified random id (bundle : Bundle) :
  (if decide (b_BundleID bundle = "") then random = Ok id else b_BundleID bundle = id /\ bd_ID (b_BundleDescriptor bundle) = id) ->
  (if decide (b_BundleID bundle = "") then InitializeBundleID random bundle else Ok bundle) = Ok (setBundleID bundle id).
Proof.
  case_decide; [by intros ->|]. intros [<- Hid]. unfold setBundleID, set_descriptor, BundleID, descriptor_with_ID. cbn.
  destruct bundle as [? ? ? ? [] ? ? ? ? ? ? ? ?]. cbn in *. by subst.
Qed.

(** What a commit leaves behind. *)

Definition commit_post (fs : St) (bundle : Bundle) (id : string) (c : Stores S) (b' : Bundle) (w' : world S A) : Prop := exists entries,
  bundle_with (Metadata (w_stores w')) (b_RepoID bundle) id (b_BundleDescriptor b') entries /\ NoDup (NameWithPath <$> entries) /\
  Forall (entry_for (Z.to_nat (bd_LeafSize (b_BundleDescriptor bundle))) (Blob (w_stores w')) fs) entries /\
  (forall cs content, file_at fs cs content -> Path.path_of true cs ∈ NameWithPath <$> entries) /\
  (forall L k content, holds L (Blob c) k content -> holds L (Blob (w_stores w')) k content).

Lemma nchunks_le {X} n (l : list X) : 0 < n -> nchunks n l <= length l.
Proof. intros Hn. unfold nchunks. destruct (length l) as [|k]; [rewrite Nat.div_small; lia|]. apply Nat.Div0.div_le_upper_bound. nia. Qed.

Lemma commit_end (fs : St) bundle c d tasks id u : fs_ok fs -> commit_ready fs bundle c -> CafsFs.f_leafSize d = bd_LeafSize (b_BundleDescriptor bundle) ->
  fresh_bundle (Metadata c) (b_RepoID bundle) id -> committing_ok fs d (Blob c) tasks [] [] u -> NoDup (tk_name <$> tasks) ->
  (forall cs content, file_at fs cs content -> Path.path_of true cs ∈ tk_name <$> tasks) -> (Z.of_nat (length tasks) < 2 ^ 64)%Z ->
  let b := set_entries (setBundleID bundle id) (cm_fileList u) in
  runs (contextStores b (UploadBundleEntries (Datatypes.S (length (cm_fileList u))) b)) (mkWorld (SetBlob (fs_backend (cm_fs u)) c) (cm_cache u)) (commit_post fs bundle id c).
Proof.
  intros Hok (Hctx & Hdd & H0 & _ & _ & _) Hls Hfresh (_ & _ & _ & Hh & Hes & _ & _ & Hperm) Hnd Hall Hfew b. cbn in Hperm. rewrite app_nil_r in Hperm.
  pose proof (Permutation_length Hperm) as Hlen. rewrite !length_fmap in Hlen. pose proof (nchunks_le defaultBundleEntriesPerFile (cm_fileList u) per_file_pos) as Hn.
  apply runs_context; [done|]. cbn [w_stores w_consumable].
  eapply runs_mono; [apply (UploadBundleEntries_correct (Datatypes.S (length (cm_fileList u))) b (SetBlob (fs_backend (cm_fs u)) c)); [done..| |]; cbn [b_BundleEntries b set_entries]; lia|].
  intros b' c' (Hbw & Hc' & _). exists (cm_fileList u). cbn [w_stores]. rewrite Hc'. cbn [Blob SetMetadata SetBlob Metadata]. cbn in Hbw. unfold CafsFs.leafSize in Hes. rewrite Hls in Hes.
  split_and!; [done|by rewrite Hperm|done| |done]. intros cs content Hf. rewrite Hperm. by eapply Hall.
Qed.

(** C12: whatever the order in which the uploads end, the commit of a mutable mount
    makes a bundle with one entry for each file of the mount and no other: it is
    named by the path of the file from the root, with its size, and the content
    that the file has in the local cache is in the blob store under its hash. The
    walk ends: the depth of the mount is below its highest inode. *)
Theorem mount_Commit_correct fuel random id (fs : St) (bundle : Bundle) (c : Stores S) :
  reachable fs -> commit_ready fs bundle c -> (highestInode (mu_iNodeGenerator fs) <= Z.of_nat fuel)%Z ->
  (if decide (b_BundleID bundle = "") then random = Ok id else b_BundleID bundle = id /\ bd_ID (b_BundleDescriptor bundle) = id) ->
  fresh_bundle (Metadata c) (b_RepoID bundle) id ->
  every_run (fun es => Commit fuel random es fs bundle) (mkWorld c (mu_localCache fs)) (commit_post fs bundle id c).
Proof.
  intros Hr Hready Hfuel Hid Hfresh. pose proof (reachable_ok fs Hr) as Hok. pose proof Hready as (Hctx & Hdd & H0 & HL & Hblobs & _).
  destruct (New_commitOptions bundle HL) as (d & Ed & Hls & Hpre). destruct (commitWalkReadDirMap_total fs Hok fuel Hfuel) as [tasks Et].
  destruct (commit_tasks fs bundle c d fuel tasks Hok Hready Hls Et) as (Htasks & Hnd & Hall & Hfew).
  assert (HL' : (32 * 1024 <= CafsFs.f_leafSize d < 2 ^ 32)%Z) by (rewrite Hls; unfold CafsFs.MaxLeafSize, CafsFs.MiB in *; lia).
  destruct (commit_pool fs d (Blob c) tasks (Datatypes.S (length tasks)) ltac:(lia) Hpre HL' Hblobs Htasks) as [Hsafe Hlive].
  assert (HC : forall es, Commit fuel random es fs bundle (mkWorld c (mu_localCache fs)) =
    match pool_run (Datatypes.S (length tasks)) (fun t => mret (Some t)) (commitFileUpload true) es tasks [] (mkCommitting (mu_localCache fs) (fs_open d (Blob c)) []) with
    | None => None
    | Some (r, u) => let w' := mkWorld (SetBlob (fs_backend (cm_fs u)) c) (cm_cache u) in
        match r with
        | Err e => Some (Err e, w')
        | Panic p => Some (Panic p, w')
        | Ok _ => let b' := set_entries (setBundleID bundle id) (cm_fileList u) in
            Some (contextStores b' (UploadBundleEntries (Datatypes.S (length (cm_fileList u))) b') w')
        end
    end).
  { intros es. unfold Commit, commitImpl. rewrite Ed, (commit_identified random id bundle Hid), Et. cbn [w_stores w_consumable].
    change (b_context (setBundleID bundle id)) with (b_context bundle). by rewrite Hctx. }
  split.
  - intros es r w' H. rewrite HC in H. destruct (pool_run _ _ _ _ _ _ _) as [[r1 u]|] eqn:E in H; [|done]. destruct (Hsafe es r1 u E) as ([] & -> & Hu). cbv zeta in H.
    destruct (commit_end fs bundle c d tasks id u Hok Hready Hls Hfresh Hu Hnd Hall Hfew) as (b' & w2 & E2 & HQ). rewrite E2 in H. injection H as <- <-. eauto.
  - destruct Hlive as (es & r1 & u & E). destruct (Hsafe es r1 u E) as ([] & -> & Hu).
    destruct (commit_end fs bundle c d tasks id u Hok Hready Hls Hfresh Hu Hnd Hall Hfew) as (b' & w2 & E2 & _). exists es, (Ok b'), w2. rewrite HC, E. cbv zeta. by rewrite E2.
Qed.

(** A mount whose name generator fails is unmounted without an error, and there
    is no bundle. *)

Lemma Unmount_hides_errors e fuel es (fs : St) (bundle : Bundle) (w : world S A) : b_BundleID bundle = "" ->
  (32 * 1024 <= bd_LeafSize (b_BundleDescriptor bundle) <= CafsFs.MaxLeafSize)%Z -> Unmount (Ok tt) fuel (Err e) es fs bundle w = Some (Ok tt, w).
Proof.
  intros Hid HL. unfold Unmount, Commit, commitImpl. destruct (New_commitOptions bundle HL) as (d & -> & _). by rewrite decide_True.
Qed.

End facts.

End FuseCommit.
