(* ===== verification/FuseCommitWitness.v ===== *)
(** * A concrete mount for the commit (pkg/fuse: fs_rw_ops.go)

    A directory with a file of three bytes, the stores and the blobs of
    CorePublishWitness.v and the local cache of FuseLimits.v. *)

From S2P Require Import Prelude GoLib Errors Radix Storage Model CafsKeys CafsFs CafsIface CoreMeta Pool StoreRules CoreIndex CoreRepo CoreBundle CoreUpload CorePublishWitness FuseCommon FuseRW FuseSafe FuseMutable FuseLimits FuseCommit.

Module FuseCommitWitness.
Import Model Storage CafsKeys CafsIface CoreMeta Pool StoreRules CoreIndex CoreRepo CoreBundle CoreUpload CorePublishWitness FuseCommon FuseRW FuseSafe FuseMutable FuseLimits FuseCommit.

#[local] Existing Instance numbered_yaml.

#[local] Existing Instance numbered_yaml_laws.

#[local] Existing Instance toy_blake2b.

#[local] Existing Instance toy_blake2b_laws.

#[local] Existing Instance the_cafs.

#[local] Existing Instance the_laws.

(** The mount after the requests, which are allowed. *)

Definition with_directory : mount := (serve_all [Mkdir 1%Z RootInodeID "d"] FuseLimits.start).2.

Definition with_file : mount := (serve_all [Create 1%Z 1024 "x"] with_directory).2.

Definition written : mount := (serve_all [Write 1025 three_bytes 0] with_file).2.

Lemma written_reachable : reachable written.
Proof.
  apply reachable_one; [apply reachable_one; [apply reachable_one; [apply start_reachable|]|]|].
  - allow.
  - allow.
  - split; [done|]. vm_compute. by eexists.
Qed.

Definition listed (P : InodeID -> Dirent -> bool) : bool :=
  forallb (fun pm => forallb (fun jd => P jd.1 jd.2) (map_to_list pm.2)) (map_to_list (mu_readDirMap written)).

Lemma listed_entry P p c j : listed P = true -> inode_ok p -> c <> rootPath -> names written p c = Some j ->
  exists d, P j d = true /\ de_Name d = c /\ kinds written j = Some (bool_decide (de_Type d = DT_Directory)).
Proof.
  intros HP Hp Hc Hn. destruct (entry_of written (reachable_ok _ written_reachable) p c j Hp Hc Hn) as (m & d & Hm & Hd & Hname).
  destruct (entry_at written (reachable_ok _ written_reachable) p m j d Hm Hd) as (_ & _ & Hk & _). exists d. split_and!; [|done|done].
  apply elem_of_map_to_list, list_elem_of_In in Hm. apply elem_of_map_to_list, list_elem_of_In in Hd.
  pose proof (proj1 (forallb_forall _ _) HP _ Hm) as H. exact (proj1 (forallb_forall _ _) H _ Hd).
Qed.

Definition known_name (c : string) : bool := bool_decide (c ∈ ["d"; "x"]).

Definition check_content (j : InodeID) (d : Dirent) : bool :=
  match de_Type d with
  | DT_Directory => true
  | DT_File => bool_decide (mu_localCache written !! getPathToBackingFile j = Some three_bytes)
  end.

Lemma written_ready : commit_ready written source_bundle (w_stores CorePublishWitness.start).
Proof.
  refine (conj eq_refl (conj _ (conj eq_refl (conj _ (conj _ (conj _ _)))))).
  - done.
  - cbn. unfold leaf, CafsFs.MaxLeafSize, CafsFs.MiB. lia.
  - intros L c _ p x _. left. exact (lookup_empty (M := gmap string) p).
  - intros p c j Hp Hc Hn. destruct (listed_entry (fun _ d => known_name (de_Name d)) p c j) as (d & H & <- & _); [vm_compute; reflexivity|done..|].
    apply bool_decide_eq_true in H. apply elem_of_cons in H as [->|H%list_elem_of_singleton]; [|rewrite H]; apply (bool_decide_unpack _); vm_compute; exact I.
  - intros cs j Hp Hw Hk. destruct cs as [|c cs _] using rev_ind; [injection Hw as <-; by vm_compute in Hk|].
    destruct (walk_last written (reachable_ok _ written_reachable) cs c j Hp Hw) as (k & _ & _ & Hk1 & Hc & Hn & _).
    destruct (listed_entry check_content k c j) as (d & H & _ & Hkd); [vm_compute; reflexivity|done..|]. rewrite Hk in Hkd. unfold check_content in H.
    destruct (de_Type d); [|done]. apply bool_decide_eq_true in H. exists three_bytes. split; [exact H|]. exact three_bytes_known.
Qed.

Lemma written_file : file_at written ["d"; "x"] three_bytes.
Proof. exists 1025%Z. split; [done|]. split; [by repeat constructor|]. split; [vm_compute; reflexivity|]. split; vm_compute; reflexivity. Qed.

Lemma mount_Commit_correct_witness :
  every_run (fun es => Commit 1025 (Ok id) es written source_bundle) (mkWorld (w_stores CorePublishWitness.start) (mu_localCache written)) (fun b' w' => exists entries,
    bundle_with (Metadata (w_stores w')) "r" id (b_BundleDescriptor b') entries /\ "/d/x" ∈ NameWithPath <$> entries).
Proof.
  eapply every_mono; [apply (mount_Commit_correct 1025 (Ok id) id written source_bundle (w_stores CorePublishWitness.start))|].
  - exact written_reachable.
  - exact written_ready.
  - vm_compute. discriminate.
  - done.
  - exact start_fresh.
  - intros b' w' (entries & Hb & _ & _ & Hin & _). exists entries. split; [exact Hb|]. exact (Hin ["d"; "x"] three_bytes written_file).
Defined.

End FuseCommitWitness.
