(* ===== verification/SidecarParam.v ===== *)
(** * The parameters of the sidecars (pkg/sidecar/param)

    The parameters of a sidecar are handed to its container in environment
    variables: a list of names and values with two separators, which are chosen
    so that no value holds them. The container, a shell script of
    hack/fuse-demo, takes the string apart. *)

From S2P Require Import Prelude GoLib Errors Validate.

Module SidecarParam.

(** ** pub_api.go *)

Record fuseParamsBundleParams : Type := mkBundleParams {
  bp_Name : string;
  bp_SrcPath : string;
  bp_SrcRepo : string;
  bp_SrcLabel : string;
  bp_SrcBundle : string;
  bp_DestPath : string;
  bp_DestRepo : string;
  bp_DestMessage : string;
  bp_DestLabel : string;
  bp_DestBundleID : string
}.

Record FUSEParams : Type := mkFUSEParams {
  fg_SleepInsteadOfExit : bool;
  fg_CoordPoint : string;
  fg_ConfigBucketName : string;
  fg_ContextName : string;
  fp_Bundles : list fuseParamsBundleParams
}.

Record pgParamsDBParams : Type := mkDBParams {
  dp_Name : string;
  dp_Port : Z;
  dp_DestRepo : string;
  dp_DestMessage : string;
  dp_DestLabel : string;
  dp_DestBundleID : string;
  dp_SrcRepo : string;
  dp_SrcLabel : string;
  dp_SrcBundle : string
}.

Record PGParams : Type := mkPGParams {
  pg_SleepInsteadOfExit : bool;
  pg_IgnorePGVersionMismatch : bool;
  pg_CoordPoint : string;
  pg_ContributorName : string;
  pg_ContributorEmail : string;
  pg_Databases : list pgParamsDBParams
}.

Definition FUSEParamsOption : Type := FUSEParams -> FUSEParams.

Definition FUSECoordPoint (coordPoint : string) : FUSEParamsOption := fun p =>
  mkFUSEParams (fg_SleepInsteadOfExit p) coordPoint (fg_ConfigBucketName p) (fg_ContextName p) (fp_Bundles p).

Definition FUSEConfigBucketName (configBucketName : string) : FUSEParamsOption := fun p =>
  mkFUSEParams (fg_SleepInsteadOfExit p) (fg_CoordPoint p) configBucketName (fg_ContextName p) (fp_Bundles p).

Definition FUSEContextName (contextName : string) : FUSEParamsOption := fun p =>
  mkFUSEParams (fg_SleepInsteadOfExit p) (fg_CoordPoint p) (fg_ConfigBucketName p) contextName (fp_Bundles p).

Definition NewFUSEParams (fuseOpts : list FUSEParamsOption) : res FUSEParams :=
  let p := fold_left (fun p apply_ => apply_ p) fuseOpts (mkFUSEParams false "" "" "" []) in
  if decide (fg_CoordPoint p = "") then Err (ErrMsg "coordination point not set") else Ok p.

Definition FUSEParamsBDOption : Type := fuseParamsBundleParams -> fuseParamsBundleParams.

Definition BDName (name : string) : FUSEParamsBDOption := fun b =>
  mkBundleParams name (bp_SrcPath b) (bp_SrcRepo b) (bp_SrcLabel b) (bp_SrcBundle b) (bp_DestPath b) (bp_DestRepo b) (bp_DestMessage b) (bp_DestLabel b) (bp_DestBundleID b).

Definition BDSrcByLabel (path repo label : string) : FUSEParamsBDOption := fun b =>
  mkBundleParams (bp_Name b) path repo label (bp_SrcBundle b) (bp_DestPath b) (bp_DestRepo b) (bp_DestMessage b) (bp_DestLabel b) (bp_DestBundleID b).

Definition BDSrcByBundleID (path repo bundle : string) : FUSEParamsBDOption := fun b =>
  mkBundleParams (bp_Name b) path repo (bp_SrcLabel b) bundle (bp_DestPath b) (bp_DestRepo b) (bp_DestMessage b) (bp_DestLabel b) (bp_DestBundleID b).

Definition BDDest (repo msg path : string) : FUSEParamsBDOption := fun b =>
  mkBundleParams (bp_Name b) (bp_SrcPath b) (bp_SrcRepo b) (bp_SrcLabel b) (bp_SrcBundle b) path repo msg (bp_DestLabel b) (bp_DestBundleID b).

Definition BDDestLabel (label : string) : FUSEParamsBDOption := fun b =>
  mkBundleParams (bp_Name b) (bp_SrcPath b) (bp_SrcRepo b) (bp_SrcLabel b) (bp_SrcBundle b) (bp_DestPath b) (bp_DestRepo b) (bp_DestMessage b) label (bp_DestBundleID b).

Definition BDDestBundleIDFile (bundleIDFile : string) : FUSEParamsBDOption := fun b =>
  mkBundleParams (bp_Name b) (bp_SrcPath b) (bp_SrcRepo b) (bp_SrcLabel b) (bp_SrcBundle b) (bp_DestPath b) (bp_DestRepo b) (bp_DestMessage b) (bp_DestLabel b) bundleIDFile.

Definition AddBundle (bdOpts : list FUSEParamsBDOption) (p : FUSEParams) : res FUSEParams :=
  let b := fold_left (fun b apply_ => apply_ b) bdOpts (mkBundleParams "" "" "" "" "" "" "" "" "" "") in
  let destIsSet := bool_decide (bp_DestRepo b <> "" /\ bp_DestMessage b <> "") in
  if decide (bp_Name b = "") then Err (ErrMsg "bundle name not set")
  else if decide (bp_SrcLabel b <> "" /\ bp_SrcBundle b <> "") then Err (ErrMsg "label and bundle id are mutually exclusive")
  else if decide (bp_DestLabel b <> "" /\ destIsSet = false) then Err (ErrMsg "destination label setting requires destination being set")
  else if decide (bp_DestBundleID b <> "" /\ destIsSet = false) then Err (ErrMsg "destination bundle id file setting requires destination being set")
  else Ok (mkFUSEParams (fg_SleepInsteadOfExit p) (fg_CoordPoint p) (fg_ConfigBucketName p) (fg_ContextName p) (fp_Bundles p ++ [b])).

Definition PGParamsOption : Type := PGParams -> PGParams.

Definition PGCoordPoint (coordPoint : string) : PGParamsOption := fun p =>
  mkPGParams (pg_SleepInsteadOfExit p) (pg_IgnorePGVersionMismatch p) coordPoint (pg_ContributorName p) (pg_ContributorEmail p) (pg_Databases p).

Definition PGContributor (name email : string) : PGParamsOption := fun p =>
  mkPGParams (pg_SleepInsteadOfExit p) (pg_IgnorePGVersionMismatch p) (pg_CoordPoint p) name email (pg_Databases p).

Definition NewPGParams (pgOpts : list PGParamsOption) : res PGParams :=
  let p := fold_left (fun p apply_ => apply_ p) pgOpts (mkPGParams false false "" "" "" []) in
  if decide (pg_CoordPoint p = "") then Err (ErrMsg "coordination point not set") else Ok p.

Definition PGParamsDBOption : Type := pgParamsDBParams -> pgParamsDBParams.

Definition DBNameAndPort (name : string) (port : Z) : PGParamsDBOption := fun b =>
  mkDBParams name port (dp_DestRepo b) (dp_DestMessage b) (dp_DestLabel b) (dp_DestBundleID b) (dp_SrcRepo b) (dp_SrcLabel b) (dp_SrcBundle b).

Definition DBDest (repo message : string) : PGParamsDBOption := fun b =>
  mkDBParams (dp_Name b) (dp_Port b) repo message (dp_DestLabel b) (dp_DestBundleID b) (dp_SrcRepo b) (dp_SrcLabel b) (dp_SrcBundle b).

Definition DBDestLabel (label : string) : PGParamsDBOption := fun b =>
  mkDBParams (dp_Name b) (dp_Port b) (dp_DestRepo b) (dp_DestMessage b) label (dp_DestBundleID b) (dp_SrcRepo b) (dp_SrcLabel b) (dp_SrcBundle b).

Definition DBSrcByLabel (repo label : string) : PGParamsDBOption := fun b =>
  mkDBParams (dp_Name b) (dp_Port b) (dp_DestRepo b) (dp_DestMessage b) (dp_DestLabel b) (dp_DestBundleID b) repo label (dp_SrcBundle b).

Definition DBSrcByBundle (repo bundle : string) : PGParamsDBOption := fun b =>
  mkDBParams (dp_Name b) (dp_Port b) (dp_DestRepo b) (dp_DestMessage b) (dp_DestLabel b) (dp_DestBundleID b) repo (dp_SrcLabel b) bundle.

Definition DBDestBundleIDFile (bundleIDFile : string) : PGParamsDBOption := fun b =>
  mkDBParams (dp_Name b) (dp_Port b) (dp_DestRepo b) (dp_DestMessage b) (dp_DestLabel b) bundleIDFile (dp_SrcRepo b) (dp_SrcLabel b) (dp_SrcBundle b).

Definition AddDatabase (dbOpts : list PGParamsDBOption) (p : PGParams) : res PGParams :=
  let b := fold_left (fun b apply_ => apply_ b) dbOpts (mkDBParams "" 0 "" "" "" "" "" "" "") in
  if decide (dp_Name b = "") then Err (ErrMsg "database name not set")
  else if decide (dp_Port b = 0%Z) then Err (ErrMsg "database port not set")
  else if decide (dp_DestRepo b = "" \/ dp_DestMessage b = "") then Err (ErrMsg "database destination not set")
  else if decide (dp_SrcLabel b <> "" /\ dp_SrcBundle b <> "") then Err (ErrMsg "specifying source by bundle and label is mutually exclusive")
  else Ok (mkPGParams (pg_SleepInsteadOfExit p) (pg_IgnorePGVersionMismatch p) (pg_CoordPoint p) (pg_ContributorName p) (pg_ContributorEmail p) (pg_Databases p ++ [b])).

(** ** params.go: the values of a structure *)

(** A value as package reflect shows it; a field comes with whether it is
    exported. *)

Inductive value : Type :=
| VInt (z : Z)
| VBool (b : bool)
| VString (s : string)
| VStruct (fields : list (bool * value))
| VSlice (l : list value)
| VOther.

Definition Itoa (z : Z) : string := if (z <? 0)%Z then "-" +:+ Strconv.FormatUint (Z.to_N (- z)) else Strconv.FormatUint (Z.to_N z).

Fixpoint fieldsAsStringValues (v : value) : res (list string) :=
  match v with
  | VInt z => Ok [Itoa z]
  | VBool b => Ok [if b then "true" else "false"]
  | VString s => Ok [s]
  | VStruct fields =>
      (fix go (l : list (bool * value)) : res (list string) :=
         match l with
         | [] => Ok []
         | (exported, x) :: l' => if negb exported then go l' else a ← fieldsAsStringValues x; b ← go l'; Ok (a ++ b)
         end) fields
  | VSlice vs =>
      (fix go (l : list value) : res (list string) :=
         match l with
         | [] => Ok []
         | x :: l' => a ← fieldsAsStringValues x; b ← go l'; Ok (a ++ b)
         end) vs
  | VOther => Err (ErrMsg "unsupported kind")
  end.

Definition fields (vs : list value) : value := VStruct (((fun v => (true, v)) <$> vs) ++ [(false, VStruct [])]).

Definition bundle_value (b : fuseParamsBundleParams) : value :=
  fields [VString (bp_Name b); VString (bp_SrcPath b); VString (bp_SrcRepo b); VString (bp_SrcLabel b); VString (bp_SrcBundle b);
    VString (bp_DestPath b); VString (bp_DestRepo b); VString (bp_DestMessage b); VString (bp_DestLabel b); VString (bp_DestBundleID b)].

Definition fuse_value (p : FUSEParams) : value :=
  fields [fields [VBool (fg_SleepInsteadOfExit p); VString (fg_CoordPoint p); VString (fg_ConfigBucketName p); VString (fg_ContextName p)];
    VSlice (bundle_value <$> fp_Bundles p)].

Definition db_value (b : pgParamsDBParams) : value :=
  fields [VString (dp_Name b); VInt (dp_Port b); VString (dp_DestRepo b); VString (dp_DestMessage b); VString (dp_DestLabel b);
    VString (dp_DestBundleID b); VString (dp_SrcRepo b); VString (dp_SrcLabel b); VString (dp_SrcBundle b)].

Definition pg_value (p : PGParams) : value :=
  fields [fields [VBool (pg_SleepInsteadOfExit p); VBool (pg_IgnorePGVersionMismatch p); VString (pg_CoordPoint p);
      fields [VString (pg_ContributorName p); VString (pg_ContributorEmail p)]];
    VSlice (db_value <$> pg_Databases p)].

(** ** params.go: separators *)

Fixpoint uniq_runes (rs seen : list Z) : list Z :=
  match rs with
  | [] => seen
  | r :: rs' => uniq_runes rs' (if decide (r ∈ seen) then seen else seen ++ [r])
  end.

Definition stringToUniqRunes (str : string) : list Z := uniq_runes (Utf8.runes str) [].

Definition merge_rune (rv : string) (r : Z) : string := if decide (r ∈ Utf8.runes rv) then rv else rv +:+ Utf8.EncodeRune r.

Definition mergeAndUniqifyRunes (runesArrs : list string) : string :=
  fold_left (fun rv s => fold_left merge_rune (Utf8.runes s) rv) runesArrs "".

(** The loop of randCharNotInString; 46 is a full stop. *)

Fixpoint rand_loop (fuel : nat) (runes : list Z) (addRune : Z) : option Z :=
  match fuel with
  | O => None
  | S fuel' =>
      if decide (addRune ∈ runes) then
        let next := (addRune + 1)%Z in rand_loop fuel' runes (if decide (next = 46%Z) then (next + 1)%Z else next)
      else Some addRune
  end.

(** A loop over n runes ends after n rounds. *)

Definition randCharNotInString (str : string) : option string :=
  let runes := stringToUniqRunes str in Utf8.EncodeRune <$> rand_loop (S (length runes)) runes 48.

Record separators : Type := mkSeps {
  itemSep : string;
  kvSep : string
}.

Definition setSeparators (paramsStruct : value) : res (option separators) :=
  stringVals ← fieldsAsStringValues paramsStruct;
  let invalidSeps := mergeAndUniqifyRunes stringVals in
  Ok (item ← randCharNotInString invalidSeps; kv ← randCharNotInString (invalidSeps +:+ item); Some (mkSeps item kv)).

(** ** params.go: the strings *)

Fixpoint Contains (s sub : string) : bool :=
  match Strings.strip sub s with
  | Some _ => true
  | None => match s with EmptyString => false | String _ s' => Contains s' sub end
  end.

Definition TrimSuffix (s suffix : string) : string := default s (Strings.strip_suffix suffix s).

Section strings.
Variable seps : separators.

Definition containsSep (val : string) : bool := Contains val (itemSep seps) || Contains val (kvSep seps).

Definition appendToParamString (paramString paramName paramVal : string) : res string :=
  if decide (paramVal = "") then Ok paramString
  else if containsSep paramVal then Err (ErrMsg "variables may not contain separator values")
  else Ok (paramString +:+ paramName +:+ kvSep seps +:+ paramVal +:+ itemSep seps).

Definition because (what : string) {A} (r : res A) : res A :=
  match r with Err e => Err (ErrMsg (what +:+ ": " +:+ Errors.to_string e)) | _ => r end.

Fixpoint append_params (l : list (string * string)) (rv : string) : res string :=
  match l with
  | [] => Ok rv
  | (name, val) :: l' => rv' ← because "build parameter string" (appendToParamString rv name val); append_params l' rv'
  end.

Definition fuseParamsGlobalString (p : FUSEParams) : res string :=
  let rv := itemSep seps +:+ kvSep seps +:+ (if fg_SleepInsteadOfExit p then "S" +:+ itemSep seps else "") in
  if decide (fg_CoordPoint p = "") then Err (ErrMsg "coordination point not set")
  else
    rv ← append_params [("c", fg_CoordPoint p)] rv;
    if decide (fg_ConfigBucketName p = "") then Err (ErrMsg "config bucket not set")
    else
      rv ← append_params [("b", fg_ConfigBucketName p)] rv;
      if decide (fg_ContextName p = "") then Err (ErrMsg "context not set")
      else
        rv ← append_params [("a", fg_ContextName p)] rv;
        Ok (TrimSuffix rv (itemSep seps)).

Definition bundle_params (b : fuseParamsBundleParams) : list (string * string) :=
  [("sp", bp_SrcPath b); ("sr", bp_SrcRepo b); ("sl", bp_SrcLabel b); ("sb", bp_SrcBundle b); ("dp", bp_DestPath b);
   ("dr", bp_DestRepo b); ("dm", bp_DestMessage b); ("dl", bp_DestLabel b); ("dif", bp_DestBundleID b)].

Definition fuseParamsBundleString (b : fuseParamsBundleParams) : res string :=
  rv ← append_params (bundle_params b) (itemSep seps +:+ kvSep seps); Ok (TrimSuffix rv (itemSep seps)).

Fixpoint fuseParamsBundleStrings (bs : list fuseParamsBundleParams) (rv : gmap string string) : res (gmap string string) :=
  match bs with
  | [] => Ok rv
  | b :: bs' =>
      bundleString ← because "parameterize individual bundle" (fuseParamsBundleString b);
      fuseParamsBundleStrings bs' (<[bp_Name b := bundleString]> rv)
  end.

Definition pgParamsGlobalString (p : PGParams) : res string :=
  let rv := itemSep seps +:+ kvSep seps +:+ (if pg_SleepInsteadOfExit p then "S" +:+ itemSep seps else "") in
  if decide (pg_CoordPoint p = "") then Err (ErrMsg "coordination point not set")
  else
    rv ← append_params [("c", pg_CoordPoint p); ("V", if pg_IgnorePGVersionMismatch p then "true" else "false")] rv;
    Ok (TrimSuffix rv (itemSep seps)).

Definition db_params (b : pgParamsDBParams) : list (string * string) :=
  [("p", Itoa (dp_Port b)); ("m", dp_DestMessage b); ("l", dp_DestLabel b); ("r", dp_DestRepo b); ("sl", dp_SrcLabel b);
   ("sr", dp_SrcRepo b); ("sb", dp_SrcBundle b)].

Definition pgParamsDatabaseString (b : pgParamsDBParams) : res string :=
  rv ← append_params (db_params b) (itemSep seps +:+ kvSep seps); Ok (TrimSuffix rv (itemSep seps)).

Fixpoint pgParamsDatabaseStrings (bs : list pgParamsDBParams) (rv : gmap string string) : res (gmap string string) :=
  match bs with
  | [] => Ok rv
  | b :: bs' =>
      dbString ← because "parameterize individual database" (pgParamsDatabaseString b);
      pgParamsDatabaseStrings bs' (<[dp_Name b := dbString]> rv)
  end.

End strings.

Definition fuseGlobalsEnvVar : string := "dm_fuse_opts".

Definition bundleEnvVarPrefix : string := "dm_fuse_bd_".

Definition pgGlobalsEnvVar : string := "dm_pg_opts".

Definition dbEnvVarPrefix : string := "dm_pg_db_".

Definition with_prefix (prefix : string) (m : gmap string string) : gmap string string := kmap (String.append prefix) m.

Definition fuse_env (seps : separators) (p : FUSEParams) : res (gmap string string) :=
  bundleStrings ← because "bundles' parameters" (fuseParamsBundleStrings seps (fp_Bundles p) ∅);
  globalString ← because "global parameters" (fuseParamsGlobalString seps p);
  mret (<[fuseGlobalsEnvVar := globalString]> (with_prefix bundleEnvVarPrefix bundleStrings)).

Definition pg_env (seps : separators) (p : PGParams) : res (gmap string string) :=
  dbStrings ← because "dbs' parameters" (pgParamsDatabaseStrings seps (pg_Databases p) ∅);
  globalString ← because "global parameters" (pgParamsGlobalString seps p);
  mret (<[pgGlobalsEnvVar := globalString]> (with_prefix dbEnvVarPrefix dbStrings)).

(** [None]: the loop for a separator has not ended. *)

Definition FUSEParamsToEnvVars (p : FUSEParams) : option (res (gmap string string)) :=
  match setSeparators (fuse_value p) with
  | Err e => Some (because "bundles' parameters" (Err e))
  | Panic m => Some (Panic m)
  | Ok seps => (fun s => fuse_env s p) <$> seps
  end.

Definition PGParamsToEnvVars (p : PGParams) : option (res (gmap string string)) :=
  match setSeparators (pg_value p) with
  | Err e => Some (because "dbs' parameters" (Err e))
  | Panic m => Some (Panic m)
  | Ok seps => (fun s => pg_env s p) <$> seps
  end.

(** ** The container's side *)

(** wrap_datamon.sh, a script of zsh, finds the variables in the lines of the
    command export: the name is the part before the first equals sign, the value
    the part up to the second one. The shell takes from its environment only
    variables whose names are identifiers. Beyond the characters of [printable]
    it quotes values and interprets escapes, which is not modelled: there is no
    result then. *)

Fixpoint all_chars (P : ascii -> bool) (s : string) : bool :=
  match s with
  | EmptyString => true
  | String c s' => P c && all_chars P s'
  end.

(** 39 is a single quote, 92 a backslash, 61 the equals sign. *)

Definition printable (c : ascii) : bool := let z := Utf8.code c in (32 <=? z)%Z && (z <=? 126)%Z && negb (z =? 39)%Z && negb (z =? 92)%Z.

Definition equals : ascii := "="%char.

(** Digits, capitals, small letters and the underscore; the prefixes of the
    variables start with a letter. *)

Definition ident_char (c : ascii) : bool :=
  let z := Utf8.code c in
  (48 <=? z)%Z && (z <=? 57)%Z || (65 <=? z)%Z && (z <=? 90)%Z || (97 <=? z)%Z && (z <=? 122)%Z || (z =? 95)%Z.

Definition imported (var : string * string) : bool := all_chars ident_char var.1.

Definition export_line (var : string * string) : string := var.1 +:+ String equals var.2.

Definition read_line (line : string) : string * string :=
  match Strings.split_on equals line with
  | name :: contents :: _ => (name, contents)
  | _ => (line, line)
  end.

Definition read_environment (env : gmap string string) : option (gmap string string) :=
  let lines := export_line <$> filter (fun var => imported var = true) (map_to_list env) in
  if forallb (all_chars printable) lines then Some (list_to_map (read_line <$> lines)) else None.

(** deserialize_dict of wrap_datamon.sh: the first two characters are the
    separators; an item without a value is true. *)

Definition deserialize_item (kv : ascii) (item : string) : string * string :=
  match Strings.split_on kv item with
  | opt :: arg :: _ => (opt, arg)
  | _ => (item, "true")
  end.

Definition deserialize_dict (input_str : string) : option (gmap string string) :=
  match input_str with
  | String item_sep (String kv_sep input_val) =>
      if decide (item_sep = "."%char \/ kv_sep = "."%char) then None
      else Some (fold_left (fun d item => let '(opt, arg) := deserialize_item kv_sep item in <[opt := arg]> d)
             (filter (fun item => item <> "") (Strings.split_on item_sep input_val)) ∅)
  | _ => None
  end.

(** The parameters that the container finds in a variable. *)

Definition container_reads (env : gmap string string) (name : string) : option (gmap string string) :=
  env_vars ← read_environment env; contents ← env_vars !! name; deserialize_dict contents.

End SidecarParam.
