(* ===== verification/SidecarRoundtrip.v ===== *)
(** * The parameters of the sidecars reach their container

    The separators that SidecarParam chooses are in no value, and, while two
    characters from 0 to < are in no value either, they are neither letters nor
    the equals sign: then, for names that are identifiers and values that the
    shell does not change, the container reads back the parameters that were set, and no other. *)

From S2P Require Import Prelude GoLib Errors Validate SidecarParam.

Module SidecarRoundtrip.
Import Strings Utf8 SidecarParam.

(** ** Runes *)

Lemma range_fuel_kind f i s r : r ∈ (range_fuel f i s).*2 -> (exists c, (code c < 128)%Z /\ r = code c) \/ (128 <= r)%Z.
Proof.
  revert i s. induction f as [|f IH]; intros i [|c0 s]; simpl; try by intros ?%elem_of_nil.
  destruct (DecodeRune c0 s) as [r0 rest] eqn:E. cbn [fmap list_fmap snd]. intros [->|H]%elem_of_cons; [|eauto].
  destruct (Z.ltb_spec (code c0) 128) as [H0|H0].
  - unfold DecodeRune in E. rewrite (proj2 (Z.ltb_lt _ _) H0) in E. injection E as <- <-. eauto.
  - right. by destruct (decode_high _ _ _ _ H0 E).
Qed.

Lemma runes_kind s r : r ∈ runes s -> (exists c, (code c < 128)%Z /\ r = code c) \/ (128 <= r)%Z.
Proof. apply range_fuel_kind. Qed.

Lemma code_ch z : (0 <= z < 256)%Z -> code (ascii_of_N (Z.to_N z)) = z.
Proof. intros H. unfold code. rewrite N_ascii_embedding by lia. lia. Qed.

Lemma ch_high z : (128 <= z < 256)%Z -> (128 <=? code (ascii_of_N (Z.to_N z)))%Z = true.
Proof. intros H. rewrite code_ch by lia. apply Z.leb_le. lia. Qed.

Lemma land63 z : (0 <= Z.land z 63 < 64)%Z.
Proof. change 63%Z with (Z.ones 6). rewrite Z.land_ones by lia. apply Z.mod_pos_bound. lia. Qed.

Lemma shiftr_bound z k m : (0 <= k)%Z -> (0 <= z < m * 2 ^ k)%Z -> (0 <= Z.shiftr z k < m)%Z.
Proof.
  intros Hk [H1 H2]. rewrite Z.shiftr_div_pow2 by done. assert (0 < 2 ^ k)%Z by (by apply Z.pow_pos_nonneg).
  split; [by apply Z.div_pos|]. apply Z.div_lt_upper_bound; lia.
Qed.

Lemma EncodeRune_high r : (128 <= r)%Z -> high (EncodeRune r) = true.
Proof.
  intros Hr. unfold EncodeRune. set (r' := if decide _ then r else RuneError).
  assert (128 <= r' <= 1114111)%Z as Hr' by (unfold r', RuneError; case_decide; lia). clearbody r'.
  destruct (Z.ltb_spec r' 128); [lia|]. pose proof (land63 r'). pose proof (land63 (Z.shiftr r' 6)). pose proof (land63 (Z.shiftr r' 12)).
  destruct (Z.ltb_spec r' 2048); [|destruct (Z.ltb_spec r' 65536)].
  - pose proof (shiftr_bound r' 6 32). cbn [high]. rewrite !ch_high by lia. done.
  - pose proof (shiftr_bound r' 12 16). cbn [high]. rewrite !ch_high by lia. done.
  - pose proof (shiftr_bound r' 18 8). cbn [high]. rewrite !ch_high by lia. done.
Qed.

Lemma merge_rune_char c rv r s : (code c < 128)%Z -> r ∈ runes s -> contains_char c (merge_rune rv r) = true <-> contains_char c rv = true \/ r = code c.
Proof.
  intros Hc Hr. unfold merge_rune. case_decide as Hin.
  - split; [by left|]. intros [H| ->]; [done|]. by apply runes_char.
  - rewrite contains_char_app, orb_true_iff. apply or_iff_compat_l. destruct (runes_kind _ _ Hr) as [(d & Hd & ->)|H].
    + rewrite EncodeRune_ascii by done. simpl. rewrite orb_false_r, bool_decide_eq_true. split; [by intros ->|intros ?; symmetry; by apply code_inj].
    + rewrite high_not by (done || by apply EncodeRune_high). split; [done|lia].
Qed.

Lemma merge_runes_char c rs s rv :
  (code c < 128)%Z -> rs ⊆ runes s -> contains_char c (fold_left merge_rune rs rv) = true <-> contains_char c rv = true \/ code c ∈ rs.
Proof.
  intros Hc. revert rv. induction rs as [|r rs IH]; intros rv Hs; simpl; [set_solver|].
  rewrite IH, (merge_rune_char c rv r s) by set_solver. rewrite elem_of_cons. naive_solver.
Qed.

(** The merged string has the ASCII characters of the values. *)

Lemma mergeAndUniqifyRunes_char c vs :
  (code c < 128)%Z -> contains_char c (mergeAndUniqifyRunes vs) = true <-> exists v, v ∈ vs /\ contains_char c v = true.
Proof.
  intros Hc. unfold mergeAndUniqifyRunes.
  assert (forall rv, contains_char c (fold_left (fun rv s => fold_left merge_rune (runes s) rv) vs rv) = true <->
    contains_char c rv = true \/ exists v, v ∈ vs /\ contains_char c v = true) as H.
  { induction vs as [|v vs IH]; intros rv; simpl; [set_solver|]. rewrite IH, (merge_runes_char c (runes v) v) by done.
    rewrite runes_char by done. set_solver. }
  rewrite H. set_solver.
Qed.

(** ** Separators *)

Lemma elem_of_uniq_runes rs seen r : r ∈ uniq_runes rs seen <-> r ∈ rs \/ r ∈ seen.
Proof. revert seen. induction rs as [|x rs IH]; intros seen; simpl; [set_solver|]. rewrite IH. case_decide; set_solver. Qed.

Lemma rand_loop_Some fuel rs a r : (46 <= a)%Z -> rand_loop fuel rs a = Some r -> r ∉ rs /\ (a <= r)%Z /\ forall z, (a <= z < r)%Z -> z ∈ rs.
Proof.
  revert a. induction fuel as [|fuel IH]; intros a Ha; cbn; [done|]. case_decide as Hin.
  - rewrite decide_False by lia. intros (H1 & H2 & H3)%IH; [|lia]. split_and!; [done|lia|]. intros z Hz.
    destruct (decide (z = a)) as [->|]; [done|]. apply H3. lia.
  - intros [= <-]. split_and!; [done|lia|lia].
Qed.

(** The loop ends: among one more candidates than runes, one is unused. *)

Lemma rand_loop_ends fuel rs a : (46 <= a)%Z -> length rs < fuel -> exists r, rand_loop fuel rs a = Some r.
Proof.
  intros Ha Hl. destruct (rand_loop fuel rs a) as [r|] eqn:E; [eauto|]. exfalso.
  assert (forall z, (a <= z < a + Z.of_nat fuel)%Z -> z ∈ rs) as Hall.
  { clear Hl. revert a Ha E. induction fuel as [|fuel IH]; intros a Ha; cbn; [lia|]. case_decide as Hin; [|done].
    rewrite decide_False by lia. intros E z Hz. destruct (decide (z = a)) as [->|]; [done|]. apply (IH (a + 1)%Z); [lia|done|lia]. }
  assert (seqZ a (Z.of_nat fuel) ⊆+ rs) as Hsub.
  { apply NoDup_submseteq; [apply NoDup_seqZ|]. intros z Hz%elem_of_seqZ. by apply Hall. }
  apply submseteq_length in Hsub. rewrite length_seqZ in Hsub. lia.
Qed.

Definition unused (vs : list string) (c : ascii) : Prop := (48 <= code c <= 60)%Z /\ forall v, v ∈ vs -> contains_char c v = false.

Lemma randCharNotInString_spec str d :
  (48 <= code d <= 60)%Z -> contains_char d str = false ->
  exists c, randCharNotInString str = Some (String c "") /\ (48 <= code c <= 60)%Z /\ contains_char c str = false.
Proof.
  intros Hd Hnd. unfold randCharNotInString, stringToUniqRunes. set (rs := uniq_runes (runes str) []).
  destruct (rand_loop_ends (S (length rs)) rs 48) as [r Hr]; [lia..|]. rewrite Hr. destruct (rand_loop_Some _ _ 48 _ ltac:(done) Hr) as (H1 & H2 & H3).
  assert (forall z, z ∈ rs <-> z ∈ runes str) as Hrs by (intros z; unfold rs; rewrite elem_of_uniq_runes; set_solver).
  assert (r <= code d)%Z as Hle.
  { destruct (Z.le_gt_cases r (code d)) as [|Hgt]; [done|]. specialize (H3 (code d) ltac:(lia)). apply Hrs, runes_char in H3; [congruence|lia]. }
  exists (ascii_of_N (Z.to_N r)). assert (code (ascii_of_N (Z.to_N r)) = r) as Hc by (apply code_ch; lia). rewrite Hc.
  split_and!; [|lia..|].
  - simpl. f_equal. rewrite <- (EncodeRune_ascii (ascii_of_N (Z.to_N r))) by lia. by rewrite Hc.
  - apply not_true_iff_false. intros H%runes_char; [|lia]. rewrite Hc in H. by apply H1, Hrs.
Qed.

(** While two characters from 0 to < are in no value, the separators are two
    such characters. *)

Lemma setSeparators_spec v vs c d :
  fieldsAsStringValues v = Ok vs -> c <> d -> unused vs c -> unused vs d ->
  exists i k, setSeparators v = Ok (Some (mkSeps (String i "") (String k ""))) /\ i <> k /\ unused vs i /\ unused vs k.
Proof.
  intros Hv Hcd [Hc1 Hc2] [Hd1 Hd2]. unfold setSeparators. rewrite Hv. cbn [mbind res_bind].
  assert (forall x, (code x < 128)%Z -> contains_char x (mergeAndUniqifyRunes vs) = false <-> forall v, v ∈ vs -> contains_char x v = false) as Hm.
  { intros x Hx. rewrite <- not_true_iff_false, mergeAndUniqifyRunes_char by done. split.
    - intros H w Hw. apply not_true_iff_false. naive_solver.
    - intros H (w & Hw & Hxw). rewrite (H w Hw) in Hxw. done. }
  destruct (randCharNotInString_spec (mergeAndUniqifyRunes vs) c) as (i & -> & Hi1 & Hi2); [done|by apply Hm; [lia|]|]. cbn [mbind option_bind].
  assert (exists e, (48 <= code e <= 60)%Z /\ contains_char e (mergeAndUniqifyRunes vs +:+ String i "") = false) as (e & He1 & He2).
  { assert (forall e, (48 <= code e <= 60)%Z -> (forall v, v ∈ vs -> contains_char e v = false) -> e <> i ->
      contains_char e (mergeAndUniqifyRunes vs +:+ String i "") = false) as He.
    { intros e He1 He2 Hei. rewrite contains_char_app, (proj2 (Hm e ltac:(lia)) He2). simpl. by rewrite bool_decide_eq_false_2. }
    destruct (decide (c = i)) as [->|]; [exists d|exists c]; auto. }
  destruct (randCharNotInString_spec _ e He1 He2) as (k & -> & Hk1 & Hk2). cbn [mbind option_bind]. rewrite contains_char_app in Hk2. apply orb_false_iff in Hk2 as [Hk2 Hki].
  simpl in Hki. rewrite orb_false_r, bool_decide_eq_false in Hki. exists i, k. split_and!; [done|congruence|..]; (split; [done|]); by apply Hm; [lia|].
Qed.

(** ** Items *)

Section items.
Context (i k : ascii) (Hik : i <> k).

Notation seps := (mkSeps (String i "") (String k "")).

Definition joined (items : list string) : string := foldr (fun it s => it +:+ String i s) "" items.

Lemma split_on_app sep s t : contains_char sep s = false -> split_on sep (s +:+ String sep t) = s :: split_on sep t.
Proof.
  induction s as [|c s IH]; simpl; [by rewrite decide_True|]. rewrite orb_false_iff, bool_decide_eq_false. intros [Hc Hs].
  rewrite decide_False by congruence. fold (s +:+ String sep t). by rewrite IH.
Qed.

Lemma split_on_none sep s : contains_char sep s = false -> split_on sep s = [s].
Proof.
  induction s as [|c s IH]; simpl; [done|]. rewrite orb_false_iff, bool_decide_eq_false. intros [Hc Hs].
  rewrite decide_False by congruence. by rewrite IH.
Qed.

Lemma split_on_snoc sep s : split_on sep (s +:+ String sep "") = split_on sep s ++ [""].
Proof.
  induction s as [|c s IH]; simpl; [by rewrite decide_True|]. fold (s +:+ String sep ""). rewrite IH.
  case_decide; [done|]. assert (split_on sep s <> []) as Hne by (destruct s as [|d s']; simpl; [done|]; case_decide; [done|]; by destruct (split_on sep s')).
  by destruct (split_on sep s).
Qed.

Lemma split_on_joined items : Forall (fun it => contains_char i it = false) items -> split_on i (joined items) = items ++ [""].
Proof. induction 1 as [|it items Hit _ IH]; [done|]. cbn [joined foldr]. fold (joined items). rewrite split_on_app by done. by rewrite IH. Qed.

Lemma joined_snoc items : items <> [] -> exists s, joined items = s +:+ String i "".
Proof.
  induction items as [|it items IH]; [done|]. intros _. destruct items as [|it' items].
  - by exists it.
  - destruct (IH ltac:(done)) as [s Hs]. exists (it +:+ String i s). cbn [joined foldr] in *. rewrite Hs. by rewrite string_app_assoc.
Qed.

(** The last separator is trimmed; the empty item after it is not an item. *)

Lemma trimmed_items items :
  Forall (fun it => contains_char i it = false /\ it <> "") items ->
  exists body, TrimSuffix (String i (String k (joined items))) (String i "") = String i (String k body) /\
    filter (fun it => it <> "") (split_on i body) = items.
Proof.
  intros H. assert (filter (fun it => it <> "") items = items) as Hf by (apply filter_all, Forall_impl with (1 := H); tauto).
  assert (split_on i (joined items) = items ++ [""]) as Hs by (apply split_on_joined, Forall_impl with (1 := H); tauto).
  destruct items as [|it items].
  - exists "". split; [|done]. unfold TrimSuffix. simpl. rewrite decide_False by done. rewrite decide_False by congruence. done.
  - destruct (joined_snoc (it :: items)) as [s E]; [done|]. exists s. split.
    + unfold TrimSuffix. rewrite E. change (String i (String k (s +:+ String i ""))) with (String i (String k s) +:+ String i "").
      by rewrite strip_suffix_app.
    + rewrite E, split_on_snoc in Hs. apply app_inj_tail in Hs as [-> _]. done.
Qed.

Definition item (p : string * string) : string := p.1 +:+ String k p.2.

Definition set_params (l : list (string * string)) : list (string * string) := filter (fun p => p.2 <> "") l.

Lemma append_params_Ok l rv :
  Forall (fun p => contains_char i p.2 = false /\ contains_char k p.2 = false) l ->
  append_params seps l rv = Ok (rv +:+ joined (item <$> set_params l)).
Proof.
  assert (forall c s, contains_char c s = false -> Contains s (String c "") = false) as HC.
  { intros c s. induction s as [|d s IH]; simpl; [done|]. rewrite orb_false_iff, bool_decide_eq_false. intros [Hc Hs].
    rewrite decide_False by congruence. auto. }
  revert rv. induction l as [|[n v] l IH]; intros rv Hl; cbn [append_params].
  - by rewrite string_app_nil_r.
  - apply Forall_cons in Hl as [[Hi Hk] Hl]. unfold appendToParamString, set_params. rewrite filter_cons. simpl in Hi, Hk. case_decide as Hv; cbn [snd] in *.
    + rewrite decide_False by (simpl; congruence). cbn [because mbind res_bind]. by apply IH.
    + rewrite decide_True by done. unfold containsSep. cbn [itemSep kvSep]. rewrite !HC by done. cbn [orb because mbind res_bind].
      rewrite IH by done. f_equal. cbn [fmap list_fmap joined foldr]. unfold item at 2. by rewrite !string_app_assoc.
Qed.

Lemma deserialize_item_pair n v :
  contains_char k n = false -> contains_char k v = false -> deserialize_item k (item (n, v)) = (n, v).
Proof. intros Hn Hv. unfold deserialize_item, item. cbn [fst snd]. by rewrite split_on_app, split_on_none. Qed.

Lemma deserialize_item_flag n : contains_char k n = false -> deserialize_item k n = (n, "true").
Proof. intros Hn. unfold deserialize_item. by rewrite split_on_none. Qed.

Lemma fold_items (its : list string) (l : list (string * string)) (d : gmap string string) :
  Forall2 (fun it p => deserialize_item k it = p) its l -> NoDup l.*1 -> (forall n, n ∈ l.*1 -> d !! n = None) ->
  fold_left (fun d it => let '(opt, arg) := deserialize_item k it in <[opt := arg]> d) its d = list_to_map l ∪ d.
Proof.
  intros H. revert d. induction H as [|it [n v] its l Hit _ IH]; intros d Hn Hd; simpl; [by rewrite (left_id_L ∅ (∪))|].
  rewrite Hit. cbn [fmap list_fmap fst] in *. apply NoDup_cons in Hn as [Hn1 Hn2]. rewrite IH; [|done|].
  - rewrite <- insert_union_r, insert_union_l; [done|]. by apply not_elem_of_list_to_map.
  - intros m Hm. rewrite lookup_insert_ne by set_solver. apply Hd. set_solver.
Qed.

(** What a string of flags and parameters is read as. *)

Lemma deserialize_items (flags : list string) (l : list (string * string)) :
  (48 <= code i)%Z -> (48 <= code k)%Z ->
  Forall (fun f => f <> "" /\ contains_char i f = false /\ contains_char k f = false) flags ->
  Forall (fun p => p.1 <> "" /\ contains_char i p.1 = false /\ contains_char k p.1 = false /\ contains_char i p.2 = false /\ contains_char k p.2 = false) l ->
  NoDup (flags ++ l.*1) ->
  deserialize_dict (TrimSuffix (String i (String k (joined (flags ++ (item <$> set_params l))))) (String i "")) =
    Some (list_to_map (((fun f => (f, "true")) <$> flags) ++ set_params l)).
Proof.
  intros Hi Hk Hf Hl Hn. assert (Forall (fun p => p ∈ l) (set_params l)) as Hsub by (apply Forall_forall; intros p; by intros [_ ?]%list_elem_of_filter).
  destruct (trimmed_items (flags ++ (item <$> set_params l))) as (body & -> & Hb).
  { apply Forall_app. split; [apply Forall_impl with (1 := Hf); tauto|]. apply Forall_fmap, Forall_impl with (1 := Hsub). intros [n v] Hp.
    rewrite Forall_forall in Hl. destruct (Hl _ Hp) as (H1 & H2 & H3 & H4 & H5). unfold item. cbn [compose fst snd] in *. split.
    - rewrite contains_char_app, H2. simpl. rewrite H4. by rewrite bool_decide_eq_false_2.
    - by destruct n. }
  unfold deserialize_dict. rewrite decide_False by (intros [-> | ->]; [by apply Hi|by apply Hk]). rewrite Hb. f_equal.
  rewrite (fold_items _ (((fun f => (f, "true")) <$> flags) ++ set_params l)).
  - by rewrite (right_id_L ∅ (∪)).
  - apply Forall2_app; [apply Forall2_fmap_r|apply Forall2_fmap_l].
    + apply Forall_Forall2_diag, Forall_impl with (1 := Hf). intros f (_ & _ & ?). by apply deserialize_item_flag.
    + apply Forall_Forall2_diag, Forall_impl with (1 := Hsub). intros [n v] Hp. rewrite Forall_forall in Hl. destruct (Hl _ Hp) as (_ & _ & ? & _ & ?).
      by apply deserialize_item_pair.
  - rewrite fmap_app, <- list_fmap_compose. unfold compose. cbn [fst]. rewrite list_fmap_id. apply (sublist_NoDup _ _ Hn), sublist_app; [done|].
    apply fmap_sublist, sublist_filter.
  - done.
Qed.

End items.

(** ** Strings *)

Fixpoint letters (s : string) : bool :=
  match s with
  | EmptyString => true
  | String c s' => (64 <? code c)%Z && letters s'
  end.

Lemma letters_unused vs c s : unused vs c -> letters s = true -> contains_char c s = false.
Proof.
  intros [Hc _]. induction s as [|d s IH]; simpl; [done|]. rewrite andb_true_iff, Z.ltb_lt. intros [Hd Hs]. rewrite IH by done.
  by rewrite bool_decide_eq_false_2 by (intros ->; lia).
Qed.

(** What the container reads as it was written. *)

Definition plain_char (c : ascii) : bool := printable c && negb (code c =? 61)%Z.

Abbreviation plain s := (all_chars plain_char s = true).

Lemma all_chars_app P a b : all_chars P (a +:+ b) = all_chars P a && all_chars P b.
Proof. induction a as [|c a IH]; [done|]. rewrite append_cons. cbn. by rewrite IH, andb_assoc. Qed.

Lemma plain_unused vs c : unused vs c -> plain_char c = true.
Proof. intros [Hc _]. unfold plain_char, printable. rewrite !andb_true_iff, !negb_true_iff, !Z.leb_le, !Z.eqb_neq. lia. Qed.

Lemma plain_printable s : plain s -> all_chars printable s = true /\ contains_char equals s = false.
Proof.
  induction s as [|c s IH]; [done|]. cbn. rewrite andb_true_iff. intros [[Hp Hc]%andb_true_iff Hs]. destruct (IH Hs) as [-> ->]. rewrite Hp. split; [done|].
  rewrite orb_false_r. apply bool_decide_eq_false. by intros <-.
Qed.

Lemma plain_joined i items : plain_char i = true -> Forall (fun it => plain it) items -> plain (joined i items).
Proof. intros Hi. induction 1 as [|it items Hit _ IH]; [done|]. cbn [joined foldr]. fold (joined i items). rewrite all_chars_app. cbn. by rewrite Hit, Hi, IH. Qed.

Lemma plain_trim s p : plain s -> plain (TrimSuffix s p).
Proof.
  intros H. unfold TrimSuffix. destruct (strip_suffix p s) as [r|] eqn:E; [|done]. apply strip_suffix_Some in E. subst s. cbn. rewrite all_chars_app in H.
  by apply andb_true_iff in H as [? _].
Qed.

(** The strings of parameters with names of letters and values among [vs]. *)

Definition well_named (vs flags : list string) (l : list (string * string)) : Prop :=
  NoDup (flags ++ l.*1) /\ Forall (fun n => n <> "" /\ letters n = true /\ plain n) (flags ++ l.*1) /\ l.*2 ⊆ vs.

Definition dict (flags : list string) (l : list (string * string)) : gmap string string :=
  list_to_map (((fun f => (f, "true")) <$> flags) ++ set_params l).

Definition chosen (vs : list string) (seps : separators) : Prop :=
  exists i k, seps = mkSeps (String i "") (String k "") /\ i <> k /\ unused vs i /\ unused vs k.

Definition start (seps : separators) (flags : list string) : string :=
  itemSep seps +:+ kvSep seps +:+ foldr (fun f s => f +:+ itemSep seps +:+ s) "" flags.

Lemma joined_app i a b : joined i (a ++ b) = joined i a +:+ joined i b.
Proof. induction a as [|x a IH]; [done|]. cbn [app joined foldr]. fold (joined i (a ++ b)). fold (joined i a). rewrite IH. by rewrite string_app_assoc. Qed.

Lemma params_string vs seps flags l :
  chosen vs seps -> Forall (fun v => plain v) vs -> well_named vs flags l ->
  exists s, append_params seps l (start seps flags) = Ok s /\ plain (TrimSuffix s (itemSep seps)) /\
    deserialize_dict (TrimSuffix s (itemSep seps)) = Some (dict flags l).
Proof.
  intros (i & k & -> & Hik & Hi & Hk) Hplain (Hn & Hl & Hv).
  assert (forall v, v ∈ l.*2 -> contains_char i v = false /\ contains_char k v = false) as Hvs
    by (intros v Hin; split; [apply Hi|apply Hk]; by apply Hv).
  rewrite Forall_forall in Hplain.
  assert (forall n, n ∈ flags ++ l.*1 -> n <> "" /\ contains_char i n = false /\ contains_char k n = false) as Hns.
  { rewrite Forall_forall in Hl. intros n Hin. destruct (Hl n Hin) as (? & ? & ?). split_and!; [done|by eapply letters_unused..]. }
  exists (String i (String k (joined i (flags ++ (item k <$> set_params l))))). split_and!.
  - rewrite append_params_Ok; [|apply Forall_forall; intros p Hp; apply Hvs, list_elem_of_fmap; eauto]. f_equal.
    unfold start. cbn [itemSep kvSep]. rewrite joined_app.
    assert (foldr (fun f s => f +:+ String i "" +:+ s) "" flags = joined i flags) as -> by done. by rewrite !string_app_assoc.
  - apply plain_trim. cbn [all_chars]. rewrite (plain_unused vs i), (plain_unused vs k) by done. apply plain_joined; [by eapply plain_unused|].
    rewrite Forall_forall in Hl. apply Forall_app. split; [apply Forall_forall; intros f Hf; apply Hl; set_solver|].
    apply Forall_fmap, Forall_forall. intros p [_ Hp]%list_elem_of_filter. unfold compose, item. rewrite all_chars_app. cbn [all_chars]. rewrite (plain_unused vs k) by done.
    destruct (Hl p.1) as (_ & _ & ->); [apply elem_of_app; right; apply list_elem_of_fmap; eauto|]. rewrite Hplain; [done|]. apply Hv, list_elem_of_fmap. eauto.
  - apply deserialize_items; [done|apply Hi|apply Hk| | |done].
    + apply Forall_forall. intros f Hf. apply Hns. set_solver.
    + apply Forall_forall. intros p Hp. assert (p.1 ∈ l.*1 /\ p.2 ∈ l.*2) as [H1 H2] by (split; apply list_elem_of_fmap; eauto).
      destruct (Hns p.1) as (? & ? & ?); [set_solver|]. by destruct (Hvs _ H2).
Qed.

Lemma append_params_one seps n v l rv :
  append_params seps ((n, v) :: l) rv = (rv' ← append_params seps [(n, v)] rv; append_params seps l rv').
Proof. cbn [append_params]. by destruct (because _ _). Qed.

(** ** Environment variables *)

#[local] Instance append_inj p : Inj (=) (=) (String.append p).
Proof. intros a b. apply string_app_inv_head. Qed.

(** Plain values of variables that are identifiers are read as they are. *)

Abbreviation identifier s := (all_chars ident_char s = true).

Lemma ident_char_plain c : ident_char c = true -> plain_char c = true.
Proof.
  unfold ident_char, plain_char, printable. rewrite !orb_true_iff, !andb_true_iff, !negb_true_iff, !Z.leb_le, !Z.eqb_neq, Z.eqb_eq. lia.
Qed.

Lemma identifier_plain s : identifier s -> plain s.
Proof. induction s as [|c s IH]; [done|]. cbn [all_chars]. rewrite !andb_true_iff. intros [? ?]. auto using ident_char_plain. Qed.

Lemma filter_all_id {A} (P : A -> Prop) `{D : !forall x, Decision (P x)} (l : list A) : (forall x, x ∈ l -> P x) -> filter P l = l.
Proof.
  induction l as [|x l IH]; intros Hl; [done|]. rewrite filter_cons_True by (apply Hl; left). f_equal. apply IH. intros y Hy. apply Hl. by right.
Qed.

Lemma read_plain (env : gmap string string) :
  (forall v x, env !! v = Some x -> identifier v /\ plain x) -> read_environment env = Some env.
Proof.
  intros H. unfold read_environment.
  rewrite (filter_all_id _ (map_to_list env)) by (intros [v x] Hin%elem_of_map_to_list; by destruct (H v x Hin)).
  assert (Forall (fun p => read_line (export_line p) = p /\ all_chars printable (export_line p) = true) (map_to_list env)) as Hl.
  { apply Forall_forall. intros [v x] Hin%elem_of_map_to_list. destruct (H v x Hin) as [[Hv1 Hv2]%identifier_plain%plain_printable [Hx1 Hx2]%plain_printable].
    unfold read_line, export_line. cbn [fst snd]. rewrite split_on_app, split_on_none by done. rewrite all_chars_app. cbn [all_chars]. by rewrite Hv1, Hx1. }
  assert (forallb (all_chars printable) (export_line <$> map_to_list env) = true) as ->.
  { apply forallb_forall. intros x (p & -> & Hp)%list_elem_of_In%list_elem_of_fmap. rewrite Forall_forall in Hl. by apply Hl. }
  assert (read_line <$> (export_line <$> map_to_list env) = map_to_list env) as ->; [|by rewrite list_to_map_to_list].
  clear H. revert Hl. generalize (map_to_list env). induction 1 as [|p l [Hp _] _ IH]; [done|]. by rewrite !fmap_cons, Hp, IH.
Qed.

Section envs.
Context {B : Type} (name : B -> string) (string_of : B -> res string) (msg prefix globals : string).

Fixpoint all_strings (bs : list B) (rv : gmap string string) : res (gmap string string) :=
  match bs with
  | [] => Ok rv
  | b :: bs' => s ← because msg (string_of b); all_strings bs' (<[name b := s]> rv)
  end.

Lemma all_strings_Ok bs rv :
  NoDup (name <$> bs) -> (forall b, b ∈ bs -> exists s, string_of b = Ok s) ->
  exists m, all_strings bs rv = Ok m /\ (forall n, n ∉ name <$> bs -> m !! n = rv !! n) /\
    forall b, b ∈ bs -> exists s, string_of b = Ok s /\ m !! name b = Some s.
Proof.
  revert rv. induction bs as [|b bs IH]; intros rv Hn Hs; simpl.
  - exists rv. split_and!; [done..|]. by intros b ?%elem_of_nil.
  - apply NoDup_cons in Hn as [Hb Hn]. destruct (Hs b) as [s E]; [set_solver|]. rewrite E. cbn [because mbind res_bind].
    destruct (IH (<[name b := s]> rv)) as (m & Hm & Hother & Hall); [done|set_solver|]. exists m. split_and!; [done| |].
    + intros n Hnot. rewrite Hother by set_solver. apply lookup_insert_ne. set_solver.
    + intros b' [->|Hb']%elem_of_cons; [|by apply Hall]. exists s. split; [done|]. rewrite Hother by done. apply lookup_insert_eq.
Qed.

Lemma env_lookup (m : gmap string string) g :
  (forall n, globals <> prefix +:+ n) ->
  (<[globals := g]> (with_prefix prefix m)) !! globals = Some g /\
  (forall n, (<[globals := g]> (with_prefix prefix m)) !! (prefix +:+ n) = m !! n) /\
  forall v, is_Some ((<[globals := g]> (with_prefix prefix m)) !! v) -> v = globals \/ exists n, v = prefix +:+ n /\ is_Some (m !! n).
Proof.
  intros Hp. unfold with_prefix. split_and!.
  - apply lookup_insert_eq.
  - intros n. rewrite lookup_insert_ne by done. by rewrite (lookup_kmap (String.append prefix)).
  - intros v [x Hx]. destruct (decide (v = globals)) as [|Hv]; [by left|right]. rewrite lookup_insert_ne in Hx by done.
    apply lookup_kmap_Some in Hx as (n & -> & Hn); [|apply _]. eauto.
Qed.

(** The environment of a sidecar, variable by variable, as it is read. *)

Lemma env_Ok (D : B -> gmap string string) bs g G :
  (forall n, globals <> prefix +:+ n) -> NoDup (name <$> bs) -> identifier globals -> identifier prefix -> plain g -> deserialize_dict g = Some G ->
  Forall (fun n => identifier n) (name <$> bs) ->
  (forall b, b ∈ bs -> exists s, string_of b = Ok s /\ plain s /\ deserialize_dict s = Some (D b)) ->
  exists m, all_strings bs ∅ = Ok m /\ let env := <[globals := g]> (with_prefix prefix m) in
    container_reads env globals = Some G /\
    (forall b, b ∈ bs -> container_reads env (prefix +:+ name b) = Some (D b)) /\
    forall v, is_Some (env !! v) -> v = globals \/ exists b, b ∈ bs /\ v = prefix +:+ name b.
Proof.
  intros Hp Hn Pg Pp Pv HG Pn Hs. destruct (all_strings_Ok bs ∅ Hn) as (m & Em & Hother & Hall); [intros b Hb; destruct (Hs b Hb) as (s & ? & _); eauto|].
  destruct (env_lookup m g Hp) as (L1 & L2 & L3). set (env := <[globals := g]> (with_prefix prefix m)) in *.
  assert (Hvars : forall v, is_Some (env !! v) -> v = globals \/ exists b, b ∈ bs /\ v = prefix +:+ name b).
  { intros v [?|(n & -> & Hsome)]%L3; [by left|right]. destruct (decide (n ∈ name <$> bs)) as [(b & -> & ?)%list_elem_of_fmap|Hnot]; [by exists b|].
    rewrite Hother in Hsome by done. by apply is_Some_None in Hsome. }
  assert (Hb : forall b, b ∈ bs -> exists s, env !! (prefix +:+ name b) = Some s /\ plain s /\ deserialize_dict s = Some (D b)).
  { intros b Hin. destruct (Hall b Hin) as (s & Es & Hm). exists s. split; [by rewrite L2|]. destruct (Hs b Hin) as (s' & Es' & ? & ?). split; congruence. }
  assert (read_environment env = Some env) as Hread.
  { apply read_plain. intros v x Hx. destruct (Hvars v) as [->|(b & Hin & ->)]; [by eexists|by simplify_eq|].
    destruct (Hb b Hin) as (s & Es & Ps & _). simplify_eq. split; [|done]. rewrite all_chars_app, Pp. cbn [andb]. rewrite Forall_forall in Pn. apply Pn, list_elem_of_fmap. eauto. }
  exists m. split; [done|]. cbv zeta. fold env. unfold container_reads. rewrite Hread. cbn [mbind option_bind]. split_and!; [by rewrite L1| |done].
  intros b Hin. destruct (Hb b Hin) as (s & -> & _ & ?). done.
Qed.

End envs.

Lemma fuseParamsBundleStrings_all seps bs rv :
  fuseParamsBundleStrings seps bs rv = all_strings bp_Name (fuseParamsBundleString seps) "parameterize individual bundle" bs rv.
Proof. revert rv. induction bs as [|b bs IH]; intros rv; [done|]. cbn [fuseParamsBundleStrings all_strings]. destruct (because _ _); [apply IH|done..]. Qed.

Lemma pgParamsDatabaseStrings_all seps bs rv :
  pgParamsDatabaseStrings seps bs rv = all_strings dp_Name (pgParamsDatabaseString seps) "parameterize individual database" bs rv.
Proof. revert rv. induction bs as [|b bs IH]; intros rv; [done|]. cbn [pgParamsDatabaseStrings all_strings]. destruct (because _ _); [apply IH|done..]. Qed.

(** ** The two kinds of sidecars *)

Definition bundle_strings (b : fuseParamsBundleParams) : list string := bp_Name b :: (bundle_params b).*2.

Definition fuse_strings (p : FUSEParams) : list string :=
  [if fg_SleepInsteadOfExit p then "true" else "false"; fg_CoordPoint p; fg_ConfigBucketName p; fg_ContextName p] ++ (fp_Bundles p ≫= bundle_strings).

Definition db_strings (b : pgParamsDBParams) : list string :=
  [dp_Name b; Itoa (dp_Port b); dp_DestRepo b; dp_DestMessage b; dp_DestLabel b; dp_DestBundleID b; dp_SrcRepo b; dp_SrcLabel b; dp_SrcBundle b].

Definition pg_strings (p : PGParams) : list string :=
  [if pg_SleepInsteadOfExit p then "true" else "false"; if pg_IgnorePGVersionMismatch p then "true" else "false"; pg_CoordPoint p;
   pg_ContributorName p; pg_ContributorEmail p] ++ (pg_Databases p ≫= db_strings).

Lemma slice_strings {B} (val : B -> value) (strs : B -> list string) bs :
  (forall b, fieldsAsStringValues (val b) = Ok (strs b)) -> fieldsAsStringValues (VSlice (val <$> bs)) = Ok (bs ≫= strs).
Proof.
  intros H. induction bs as [|b bs IH]; [done|]. cbn [fmap list_fmap fieldsAsStringValues] in *. rewrite H. cbn [mbind res_bind].
  rewrite IH. by rewrite bind_cons.
Qed.

Lemma fuse_strings_spec p : fieldsAsStringValues (fuse_value p) = Ok (fuse_strings p).
Proof.
  pose proof (slice_strings bundle_value bundle_strings (fp_Bundles p) (fun b => eq_refl)) as H.
  unfold fuse_value, fields. cbn [fmap list_fmap app]. cbn [fieldsAsStringValues negb] in *. rewrite H. cbn. by rewrite app_nil_r.
Qed.

Lemma pg_strings_spec p : fieldsAsStringValues (pg_value p) = Ok (pg_strings p).
Proof.
  pose proof (slice_strings db_value db_strings (pg_Databases p) (fun b => eq_refl)) as H.
  unfold pg_value, fields. cbn [fmap list_fmap app]. cbn [fieldsAsStringValues negb] in *. rewrite H. cbn. by rewrite app_nil_r.
Qed.

Definition fuse_globals (p : FUSEParams) : gmap string string :=
  dict (if fg_SleepInsteadOfExit p then ["S"] else []) [("c", fg_CoordPoint p); ("b", fg_ConfigBucketName p); ("a", fg_ContextName p)].

Definition pg_globals (p : PGParams) : gmap string string :=
  dict (if pg_SleepInsteadOfExit p then ["S"] else []) [("c", pg_CoordPoint p); ("V", if pg_IgnorePGVersionMismatch p then "true" else "false")].

Lemma start_flags seps (sleep : bool) :
  itemSep seps +:+ kvSep seps +:+ (if sleep then "S" +:+ itemSep seps else "") = start seps (if sleep then ["S"] else []).
Proof. unfold start. destruct sleep; [|done]. cbn [foldr]. by rewrite string_app_nil_r. Qed.

Ltac names := split_and!; [by apply (bool_decide_unpack _)|by apply (bool_decide_unpack _)|].

Lemma fuseParamsGlobalString_Ok seps p :
  chosen (fuse_strings p) seps -> Forall (fun v => plain v) (fuse_strings p) -> fg_CoordPoint p <> "" -> fg_ConfigBucketName p <> "" -> fg_ContextName p <> "" ->
  exists s, fuseParamsGlobalString seps p = Ok s /\ plain s /\ deserialize_dict s = Some (fuse_globals p).
Proof.
  intros Hs Hpl H1 H2 H3. unfold fuseParamsGlobalString. rewrite start_flags, !decide_False by done.
  destruct (params_string (fuse_strings p) seps (if fg_SleepInsteadOfExit p then ["S"] else [])
    [("c", fg_CoordPoint p); ("b", fg_ConfigBucketName p); ("a", fg_ContextName p)]) as (s & E & Hd); [done|done| |].
  { unfold fuse_strings. destruct (fg_SleepInsteadOfExit p); names; cbn; set_solver. }
  exists (TrimSuffix s (itemSep seps)). split; [|done]. rewrite append_params_one in E.
  destruct (append_params seps [("c", _)] _) as [rv| |]; try done. cbn [mbind res_bind] in *. rewrite !decide_False by done.
  rewrite append_params_one in E. destruct (append_params seps [("b", _)] _) as [rv'| |]; try done. cbn [mbind res_bind] in *.
  rewrite !decide_False by done. by rewrite E.
Qed.

Lemma pgParamsGlobalString_Ok seps p :
  chosen (pg_strings p) seps -> Forall (fun v => plain v) (pg_strings p) -> pg_CoordPoint p <> "" -> exists s, pgParamsGlobalString seps p = Ok s /\ plain s /\ deserialize_dict s = Some (pg_globals p).
Proof.
  intros Hs Hpl H1. unfold pgParamsGlobalString. rewrite start_flags, !decide_False by done.
  edestruct (params_string (pg_strings p) seps) as (s & E & Hd); [done|done| |rewrite E; by exists (TrimSuffix s (itemSep seps))].
  unfold pg_strings. destruct (pg_SleepInsteadOfExit p); names; cbn; set_solver.
Qed.

Lemma fuseParamsBundleString_Ok seps p b :
  chosen (fuse_strings p) seps -> Forall (fun v => plain v) (fuse_strings p) -> b ∈ fp_Bundles p -> exists s, fuseParamsBundleString seps b = Ok s /\ plain s /\ deserialize_dict s = Some (dict [] (bundle_params b)).
Proof.
  intros Hs Hpl Hb. destruct (params_string (fuse_strings p) seps [] (bundle_params b)) as (s & E & Hd); [done|done| |].
  - names. intros v Hv. unfold fuse_strings. apply elem_of_app. right. apply list_elem_of_bind. exists b. split; [by right|done].
  - unfold fuseParamsBundleString. unfold start in E. cbn [foldr] in E. rewrite string_app_nil_r in E. rewrite E. by eexists.
Qed.

Lemma pgParamsDatabaseString_Ok seps p b :
  chosen (pg_strings p) seps -> Forall (fun v => plain v) (pg_strings p) -> b ∈ pg_Databases p -> exists s, pgParamsDatabaseString seps b = Ok s /\ plain s /\ deserialize_dict s = Some (dict [] (db_params b)).
Proof.
  intros Hs Hpl Hb. destruct (params_string (pg_strings p) seps [] (db_params b)) as (s & E & Hd); [done|done| |].
  - names. intros v Hv. unfold pg_strings. apply elem_of_app. right. apply list_elem_of_bind. exists b. split; [|done].
    unfold db_params in Hv. unfold db_strings. cbn [fmap list_fmap snd] in Hv. set_solver.
  - unfold pgParamsDatabaseString. unfold start in E. cbn [foldr] in E. rewrite string_app_nil_r in E. rewrite E. by eexists.
Qed.

(** C36: what FUSEParamsToEnvVars hands to a container is read back: when the
    globals are set, the bundles have distinct names that are identifiers, the
    values have printable ASCII characters only, without quotes, backslashes and
    equals signs, and two characters from 0 to < are in none of the values and
    names, the separators are found, the call succeeds, the script finds in the
    variable of the globals and in the variable of each bundle exactly the
    parameters that are set, and there is no other variable. *)
Theorem FUSEParamsToEnvVars_roundtrip p c d :
  fg_CoordPoint p <> "" -> fg_ConfigBucketName p <> "" -> fg_ContextName p <> "" -> NoDup (bp_Name <$> fp_Bundles p) ->
  Forall (fun n => identifier n) (bp_Name <$> fp_Bundles p) -> Forall (fun v => plain v) (fuse_strings p) -> c <> d -> unused (fuse_strings p) c -> unused (fuse_strings p) d ->
  exists env, FUSEParamsToEnvVars p = Some (Ok env) /\ container_reads env fuseGlobalsEnvVar = Some (fuse_globals p) /\
    (forall b, b ∈ fp_Bundles p -> container_reads env (bundleEnvVarPrefix +:+ bp_Name b) = Some (dict [] (bundle_params b))) /\
    forall v, is_Some (env !! v) -> v = fuseGlobalsEnvVar \/ exists b, b ∈ fp_Bundles p /\ v = bundleEnvVarPrefix +:+ bp_Name b.
Proof.
  intros H1 H2 H3 Hn Hid Hpl Hcd Hc Hd. destruct (setSeparators_spec _ _ c d (fuse_strings_spec p) Hcd Hc Hd) as (i & k & E & Hik & Hi & Hk).
  assert (chosen (fuse_strings p) (mkSeps (String i "") (String k ""))) as Hs by (by exists i, k).
  unfold FUSEParamsToEnvVars. rewrite E. cbn [fmap option_map option_fmap]. set (seps := mkSeps _ _) in *. unfold fuse_env.
  destruct (fuseParamsGlobalString_Ok seps p) as (g & -> & Pg & Hg); [done..|]. rewrite fuseParamsBundleStrings_all.
  destruct (env_Ok bp_Name (fuseParamsBundleString seps) "parameterize individual bundle" bundleEnvVarPrefix fuseGlobalsEnvVar
    (fun b => dict [] (bundle_params b)) (fp_Bundles p) g (fuse_globals p)) as (m & -> & L1 & L2 & L3);
    [done..|intros b; by apply fuseParamsBundleString_Ok|].
  by eexists.
Qed.

Definition demo_bundle : fuseParamsBundleParams := mkBundleParams "src" "/tmp/mount" "ransom-datamon-test-repo" "testlabel" "" "" "" "" "" "".

Definition demo_fuse : FUSEParams := mkFUSEParams true "/tmp/coord" "workshop-config" "datamon-sidecar-test" [demo_bundle].

Ltac compute_strings := apply Forall_forall; apply (bool_decide_unpack _); reflexivity.

(** The parameters of the demonstration. *)
Lemma FUSEParamsToEnvVars_roundtrip_witness :
  exists env, FUSEParamsToEnvVars demo_fuse = Some (Ok env) /\ container_reads env fuseGlobalsEnvVar = Some (fuse_globals demo_fuse).
Proof.
  destruct (FUSEParamsToEnvVars_roundtrip demo_fuse "0"%char "1"%char) as (env & ? & ? & _); [done..| | | | | | |exists env; split; assumption].
  - apply (bool_decide_unpack _). reflexivity.
  - apply (bool_decide_unpack _). reflexivity.
  - apply (bool_decide_unpack _). reflexivity.
  - discriminate.
  - split; [vm_compute; done|]. compute_strings.
  - split; [vm_compute; done|]. compute_strings.
Defined.

(** The same of PGParamsToEnvVars and the databases of a Postgres sidecar, as the
    script of the other sidecar reads variables: the globals and the parameters of
    every database but its file of bundle ids, which is not among them, are read
    back. *)
Theorem PGParamsToEnvVars_roundtrip p c d :
  pg_CoordPoint p <> "" -> NoDup (dp_Name <$> pg_Databases p) -> Forall (fun n => identifier n) (dp_Name <$> pg_Databases p) ->
  Forall (fun v => plain v) (pg_strings p) -> c <> d -> unused (pg_strings p) c -> unused (pg_strings p) d ->
  exists env, PGParamsToEnvVars p = Some (Ok env) /\ container_reads env pgGlobalsEnvVar = Some (pg_globals p) /\
    (forall b, b ∈ pg_Databases p -> container_reads env (dbEnvVarPrefix +:+ dp_Name b) = Some (dict [] (db_params b))) /\
    forall v, is_Some (env !! v) -> v = pgGlobalsEnvVar \/ exists b, b ∈ pg_Databases p /\ v = dbEnvVarPrefix +:+ dp_Name b.
Proof.
  intros H1 Hn Hid Hpl Hcd Hc Hd. destruct (setSeparators_spec _ _ c d (pg_strings_spec p) Hcd Hc Hd) as (i & k & E & Hik & Hi & Hk).
  assert (chosen (pg_strings p) (mkSeps (String i "") (String k ""))) as Hs by (by exists i, k).
  unfold PGParamsToEnvVars. rewrite E. cbn [fmap option_map option_fmap]. set (seps := mkSeps _ _) in *. unfold pg_env.
  destruct (pgParamsGlobalString_Ok seps p) as (g & -> & Pg & Hg); [done..|]. rewrite pgParamsDatabaseStrings_all.
  destruct (env_Ok dp_Name (pgParamsDatabaseString seps) "parameterize individual database" dbEnvVarPrefix pgGlobalsEnvVar
    (fun b => dict [] (db_params b)) (pg_Databases p) g (pg_globals p)) as (m & -> & L1 & L2 & L3);
    [done..|intros b; by apply pgParamsDatabaseString_Ok|].
  by eexists.
Qed.

Definition demo_pg : PGParams :=
  mkPGParams false true "/tmp/coord" "A. U. Thor" "thor@example.com" [mkDBParams "db1" 5430 "repo" "postgres sidecar" "" "/tmp/id" "" "" ""].

Lemma PGParamsToEnvVars_roundtrip_witness :
  exists env, PGParamsToEnvVars demo_pg = Some (Ok env) /\ container_reads env pgGlobalsEnvVar = Some (pg_globals demo_pg).
Proof.
  destruct (PGParamsToEnvVars_roundtrip demo_pg ":"%char ";"%char) as (env & ? & ? & _); [done|..|exists env; split; assumption].
  - apply (bool_decide_unpack _). reflexivity.
  - apply (bool_decide_unpack _). reflexivity.
  - apply (bool_decide_unpack _). reflexivity.
  - discriminate.
  - split; [vm_compute; done|]. compute_strings.
  - split; [vm_compute; done|]. compute_strings.
Defined.

(** The search for separators ends whatever the values are. *)

Lemma randCharNotInString_ends str : exists s, randCharNotInString str = Some s.
Proof.
  unfold randCharNotInString. destruct (rand_loop_ends (S (length (stringToUniqRunes str))) (stringToUniqRunes str) 48) as [r Hr]; [lia..|].
  rewrite Hr. by eexists.
Qed.

Lemma setSeparators_ends v vs : fieldsAsStringValues v = Ok vs -> exists seps, setSeparators v = Ok (Some seps).
Proof.
  intros Hv. unfold setSeparators. rewrite Hv. cbn [mbind res_bind]. destruct (randCharNotInString_ends (mergeAndUniqifyRunes vs)) as [i ->].
  cbn [mbind option_bind]. destruct (randCharNotInString_ends (mergeAndUniqifyRunes vs +:+ i)) as [k ->]. by eexists.
Qed.

Theorem ToEnvVars_end : (forall p, is_Some (FUSEParamsToEnvVars p)) /\ forall p, is_Some (PGParamsToEnvVars p).
Proof.
  split; intros p; [unfold FUSEParamsToEnvVars|unfold PGParamsToEnvVars].
  - destruct (setSeparators_ends _ _ (fuse_strings_spec p)) as [seps ->]. by eexists.
  - destruct (setSeparators_ends _ _ (pg_strings_spec p)) as [seps ->]. by eexists.
Qed.

(** Parameters made by the calls of pub_api.go: the names of bundles are set,
    but AddBundle does not look for a bundle of the same name, whose variable is
    then replaced. *)

Definition two_bundles (n1 n2 : string) : res FUSEParams :=
  p ← NewFUSEParams [FUSECoordPoint "/tmp/coord"; FUSEConfigBucketName "bucket"; FUSEContextName "context"];
  p ← AddBundle [BDName n1; BDSrcByLabel "/tmp/in" "repo" "label"] p;
  AddBundle [BDName n2; BDDest "repo" "message" "/tmp/out"; BDDestLabel "label"] p.

Definition env_names (p : res FUSEParams) : list string :=
  match p with
  | Ok p => match FUSEParamsToEnvVars p with Some (Ok env) => (map_to_list env).*1 | _ => [] end
  | _ => []
  end.

Theorem AddBundle_replaces :
  length (env_names (two_bundles "a" "b")) = 3 /\ length (env_names (two_bundles "a" "a")) = 2 /\ two_bundles "a" "" = Err (ErrMsg "bundle name not set").
Proof. split_and!; vm_compute; reflexivity. Qed.

(** A bundle whose name is no identifier is not seen by the container. *)
Theorem named_bundle_lost :
  let p := mkFUSEParams true "/tmp/coord" "bucket" "context" [mkBundleParams "my-data" "/tmp/mount" "repo" "label" "" "" "" "" "" ""] in
  exists env, FUSEParamsToEnvVars p = Some (Ok env) /\ is_Some (env !! (bundleEnvVarPrefix +:+ "my-data")) /\
    container_reads env (bundleEnvVarPrefix +:+ "my-data") = None.
Proof. eexists. split_and!; [vm_compute; reflexivity|eexists; vm_compute; reflexivity|vm_compute; reflexivity]. Qed.

(** What the container reads of a global parameter. *)

Definition seen (p : FUSEParams) (key : string) : option (option string) :=
  match FUSEParamsToEnvVars p with
  | Some (Ok env) => d ← container_reads env fuseGlobalsEnvVar; Some (d !! key)
  | _ => None
  end.

(** The names of the parameters are not kept out of the separators: with a value
    that has every character from 0 to R but the equals sign, which no value may
    have, the separators are the equals sign and S, and the container sees
    nothing of the parameters. *)
Theorem separator_hides_flag :
  let p := mkFUSEParams true "0123456789:;<>?@ABCDEFGHIJKLMNOPQR" "bucket" "context" [] in
  seen p "S" <> Some (Some "true") /\ fuse_globals p !! "S" = Some "true".
Proof. split; vm_compute; [discriminate|reflexivity]. Qed.

(** A value with an equals sign is cut there, and the parameters that come after
    it are not seen. *)
Theorem equals_sign_cuts :
  let p := mkFUSEParams true "/tmp/coord" "a=b" "context" [] in
  seen p "b" = Some (Some "a") /\ seen p "a" = Some None /\
  fuse_globals p !! "b" = Some "a=b" /\ fuse_globals p !! "a" = Some "context".
Proof. split_and!; vm_compute; reflexivity. Qed.

End SidecarRoundtrip.
